(* ===== verification/_CoqProject ===== *)
-Q . S2P
Prelude.v
PyValue.v
PyTime.v
Schema.v
SchemaFacts.v
SchemaResolve.v
SchemaResolveFacts.v
Job.v
JobFacts.v
JobTheorems.v
Filter.v
FilterFacts.v
PyNum.v
Validators.v
ValidatorsFacts.v
PyPath.v
Ejson.v
EjsonFacts.v
CronSchedule.v
Datastore.v
DatastoreJoins.v
DatastoreFacts.v
DatastoreDemo.v
DatastoreWrite.v
DatastoreWriteFacts.v
Base64.v
Rest.v
RestFacts.v
Rows.v
Interface.v
InterfaceFacts.v
Pwenc.v
PwencFacts.v
Zettarepl.v
ZettareplFacts.v
Replication.v
ReplicationFacts.v
ReplicationInv.v
ReplicationDemo.v
Service.v
ServiceFacts.v
ApiKey.v
ApiKeyFacts.v
Restore.v
RestoreFacts.v
Rollback.v
RollbackFacts.v
RollbackPlan.v
RollbackTheorems.v
RollbackDemo.v
Auth.v
AuthFacts.v
NtHash.v
NtHashFacts.v
AccountChecks.v
Account.v
AccountFacts.v
AccountInv.v
AccountTheorems.v
AccountDemo.v
WebAuthn.v
WebAuthnFacts.v
Client.v
ClientFacts.v
ClientDemo.v
Websocket.v
WebsocketFacts.v
WebTerminal.v
WebTerminalFacts.v
Cache.v
Alert.v
AlertFacts.v
