(* ===== verification/Prelude.v ===== *)
(** * FreeCORE middleware: a verification library

    The middleware (src/src/middlewared/middlewared) is the daemon behind the API
    of a NAS.  A client connects to the websocket server (main.py), which lets
    through the methods that the session permits (plugins/auth.py).  The arguments
    pass the schema layer (schema.py with validators.py) and reach a method of a
    service, usually one built on the base classes of service.py; when the method
    is a job it goes through the job queue (job.py).  Services keep their
    configuration in the datastore (plugins/datastore, plugins/keyvalue.py), and
    what a query returns goes through the filters of utils/__init__.py.  On top of
    this core the library verifies the plugins that guard the system: the return
    to the previous release (plugins/system_rollback.py, which at shutdown hands
    over to libexec/ix_system_rollback.py), the web terminal
    (plugins/webterminal.py), the cache that other plugins share
    (plugins/cache.py), the alerts (plugins/alert.py with alert/base.py and
    alert/schedule.py), the configuration of the network interfaces
    (plugins/network.py), the users and groups (plugins/account.py), the encrypted
    values of the database (plugins/pwenc.py with sqlalchemy.py) and the snapshot and
    replication tasks (plugins/snapshot.py, plugins/replication.py and
    plugins/zettarepl.py with its state).  The same methods are served over HTTP by
    restful.py, and client/client.py is the client that programs use to call them.

    ** How the code is modelled

    Python functions are Rocq functions.  A call that may raise returns an
    [outcome]; one that also changes state is in the monad [M], which keeps the
    changes made before an exception.  [try_except] and [try_finally] are the
    statements of those names.  Clocks, random strings, uuids and the answers of
    programs and of third-party libraries are arguments.  Objects that the code
    shares and mutates (jobs, locks, tokens, terminal sessions) live in a heap and
    are passed by reference.  An asynchronous component is a step relation whose
    steps are the stretches of code between two points at which the coroutine
    gives up the event loop; its theorems hold for every interleaving.  In the client,
    whose threads the system may switch anywhere, a piece is the code between two waits.  Code
    strings are UTF-8 byte strings and numbers are unbounded as in Python.  Floats
    occur only where times are computed; there they are binary fractions with 53
    bits and the rounding of each operation written out ([PyTime]).

    ** Files

    - [Prelude]: outcomes, the monad with its rules ([triple], [keeps] and the
      tactic [keeps_tac]), lists, stable sorting, the module [PyStr] of string
      functions.
    - [PyValue]: JSON values with Python's [==], [<], [in], [repr] and truth
      value; insertion-ordered dicts; exceptions.
    - [PyTime]: dates, times and datetimes with their constructors and the float
      arithmetic they use.  [PyNum]: printing and reading integers.
    - [Schema]: [ValidationErrors] (module [VErrors]) of service_exception.py; the
      attribute classes of schema.py with [clean], [validate] and
      [dump], and the wrapper of [accepts] ([nf], [clean_and_validate_args]).
      [SchemaFacts]: the cleaned value always has the declared type; a method
      body sees the cleaned arguments however they were passed; private values
      are masked in dumps.
    - [SchemaResolve]: the registry of schemas, copies, references and patches,
      [resolve_methods], and the conversions of cron schedules (module [Cron]).
      [SchemaResolveFacts]: resolving ends and leaves no reference behind;
      schedules survive the way to the table and back.
    - [Job]: [JobSharedLock], [JobsQueue], [JobsDeque] and [Job], with [step], the
      interleavings of [add], [run] of the queue, the segments of [Job.run] and
      [abort].  [JobFacts]: the invariant of the queue.  [JobTheorems]: mutual
      exclusion per lock name, no lost wakeup, progress, FIFO order per lock, no
      internal error, final outcomes, and what [wait] reports.
    - [Filter]: [partition], [get], [filter_list] and [filter_getattrs].
      [FilterFacts]: the result of a query is the sublist of matching items, [get]
      follows its path, pages cover the result, and the order of [order_by].
    - [Validators]: the validators of attributes, [validate_attributes], and the
      check that a path lies in a pool.  [ValidatorsFacts]: when a password is
      complex enough, and that paths are compared by their components.
      [PyPath]: the functions of os.path that the code uses, and [is_child] of
      utils/path.py, which compares components as well.
    - [Ejson]: client/ejson.py, the encoding of dates and times in JSON.
      [EjsonFacts]: decoding undoes encoding on the values that survive, and what
      happens to the others.
    - [Datastore]: the read side of plugins/datastore: metadata, columns, filters
      to SQL expressions, order, joins, rows and relationships, and [query].
      [DatastoreJoins]: the joins of a schema whose references are well founded
      are found with a bounded depth and are exactly the paths of foreign keys;
      rewriting nulls_first and nulls_last stops and keeps the order.
      [DatastoreFacts]: filtering in SQL and filtering in Python give the same
      rows.  [DatastoreDemo]: a database in memory that satisfies the laws.
    - [DatastoreWrite]: insert, update and delete with their events, and the
      key-value store.  [DatastoreWriteFacts]: what is set is what is got; which
      values are written; when events come too early or fail.
    - [Base64]: the alphabet of the standard encoding, its encoder and decoder.
      [Rest]: restful.py: the resources and routes of the services, the OpenAPI
      document, authentication, arguments, query strings and answers.
      [RestFacts]: a handler runs only for a request with the credentials it needs;
      a method gets the arguments that the path and the body give; every method
      that is to be served has a route.
    - [Rows]: rows and tables, primary and foreign keys.  [Interface]: the six
      tables of network interfaces with their pending changes, commit, check-in and
      rollback.  [InterfaceFacts]: a rollback restores the configuration that was
      last accepted; addresses survive the way to the tables and back.
    - [Pwenc]: the secret of the system, encryption and decryption, and the column
      types of sqlalchemy.py.  [PwencFacts]: what is encrypted is decrypted again, and
      after every start the check of the secret passes.
    - [Zettarepl]: the states of the tasks that the replication process reports, the
      messages that change them, saving and loading.  [ZettareplFacts]: what was saved
      survives a restart.  [Replication]: the tables of snapshot tasks, replications
      and their bindings with the services over them, and the definition computed from
      the tables.  [ReplicationFacts]: what the conversions and the queries keep.
      [ReplicationInv]: whatever is called, an enabled replication is bound to enabled
      snapshot tasks only and has something to send.  [ReplicationDemo]: a small
      system with the witnesses, and the ways around the checks.
    - [NtHash]: the NT hash and its MD4.  [NtHashFacts]: the MD4 is that of
      RFC 1320, given there as the specification (module [RFC1320]).
      [AccountChecks]: names, modes and sudo commands.  [Account]: users, groups
      and memberships with all that creating, updating and deleting them does, over
      the class [Host].  [AccountFacts] and [AccountInv]: the invariant.
      [AccountTheorems]: ids and names stay unique and keys refer to rows whatever
      is called, built-in users stay, a new password logs in, and an accepted sudo
      command names a normalized absolute path.  [AccountDemo]: a small system with
      the witnesses.
    - [Service]: the base classes of service.py, in the modules [Throttle],
      [GetOrInsert] (a step relation) and [CRUD].  [ServiceFacts]: a configuration
      row is inserted once however calls interleave, and no call gets stuck;
      force_sql_filters does not change an answer; an object that is referred to
      is never reported free; throttled calls are spaced.
    - [ApiKey]: plugins/api_key.py, a CRUD service over the datastore.
      [ApiKeyFacts]: a key authenticates from its creation to its deletion, and
      only with its own secret.
    - [Restore]: the shutdown script, with the trace of commands it runs.
      [RestoreFacts]: nothing destructive before the checks, only new datasets
      are destroyed, the boot environment is activated only after a complete
      restore, and the state files are settled.
    - [Rollback]: the plugin against the class [Host] of what it asks of other
      services.  [RollbackFacts], [RollbackPlan] and [RollbackTheorems]: what an
      offered return guarantees, that captures are all or nothing and happen
      once, that [execute] fails closed, that cleanup loses no record, and that
      the plan it stages is accepted by [Restore.validate_plan]: the interface
      between the two programs.  [RollbackDemo]: a concrete host that satisfies
      the laws, with the witnesses.
    - [Auth]: the token and session managers over a heap of tokens, and the
      methods of the service.  [AuthFacts]: the authenticated connections are
      those with a session, tokens lapse, and every configured factor is needed.
    - [WebAuthn]: security keys over the sessions of [Auth]: the dict of challenges,
      each method as the pieces between its calls, and [step], which interleaves
      them.  [WebAuthnFacts]: the dict refines the history of the challenges; a
      login needs the password, an enrolled key and a challenge of its own;
      WebAuthn is not on without a key.
    - [Websocket]: a connection of main.py frame by frame over the session manager
      of [Auth], with the lookup of methods, replies, subscriptions and events;
      the modules [Semaphore], [Hooks] and [Events].  [WebsocketFacts]: a call is
      started only for a method that exists and, unless it is public, only while
      the session is valid; every call is answered once; a closed connection
      leaves no session; the calls of a connection are bounded.
    - [Client]: the client of client/client.py with the threads that share a connection,
      [exec] for the pieces that interleave.  [ClientFacts]: a call that returns has the
      answer to its own message, and nobody waits for a job that is over or on a
      connection that is lost.  [ClientDemo]: the witnesses and the races that are lost.
    - [WebTerminal]: tickets, the handler of a connection and its threads.
      [WebTerminalFacts]: a terminal is given only for a fresh ticket of the same
      address that was never presented before; at most eight sessions and no
      descriptor left open; the process viewer takes no input.
    - [Cache]: the cache and its contract, a map whose entries lapse.
    - [Alert]: the alert service over a heap of alert objects: running the sources,
      locks on them, policies, dismissing, one-shot alerts, notifications and the
      table.  [AlertFacts]: a reported alert keeps its identity, the reports of a
      policy add up to the list of alerts, and locks are consistent and lapse.

    ** Bounds and fuel

    The loops of [partition] and [get] run on fuel, the length of the string:
    every turn drops at least one character, and the theorems on [get] show the
    fuel is enough.  [filter_getattrs] runs on the size of the filters, which each
    turn decreases.  The loop that rewrites the order of a query runs on one more
    than the number of its keys, which [order_by_rewriting] shows to be enough.
    The recursions of Python that are not structural (joins, rows, and queries
    that fetch relationships) run on the recursion limit and raise
    [RecursionError] when it is used up; [joins_terminate] bounds the depth by the
    rank of the table.  The maximum of concurrent terminals and of calls of a
    connection, the ticket lifetime and the length of the job history are those
    of the code.  Everything else is structural recursion or a relation.

    ** Hypotheses

    Theorems on the rollback plugin name the laws of the host they use: that
    unlinking removes a file, that the snapshot names listed are the ones that
    exist, and so on; [RollbackDemo] shows they can hold together.  The web
    terminal relies on [openpty] returning descriptors that are not open and on
    unique session ids.  The theorems on the datastore use the laws of SQL in
    [sql_laws] (a query returns the rows on which its conditions are true, and
    what a comparison with a column means) and in [write_laws] (what an insert and
    an update leave), and [delete_law] says the same of a deletion;
    [DatastoreDemo] has a database that satisfies them.  An API key relies on the
    hash of a secret verifying against that secret.  The calls on security keys
    see a clock that does not run backwards.  The text of a JSON value is a pair of
    functions of which the key-value theorem uses only that parsing undoes
    printing.  A password logs in because crypt(3) with a hash as its setting gives
    the hash of the same password back.  A value is decrypted because AES in counter
    mode undoes itself for a key of 32 bytes.  The saved state of
    replications relies on ejson reading what it wrote.  The calls on tasks have the
    types that the schemas of their methods leave ([call_ok]).  The theorems on interfaces name the laws
    of the ipaddress module they use.

    ** Not modelled

    The loading of plugins and the pools of main.py, connection.py of the datastore
    and the SQL engine below it, CoreService, the
    plugins that configure daemons or drive other programs, and, of the modelled
    files, what only calls the operating system: log output, file transfer of
    jobs, the child side of a terminal, the delivery of notifications.  A turn of
    an alert source is one step: a dismissal during the await of its check is not
    interleaved, and neither are two writes to the datastore; nor are the queries
    that follow the taking of a challenge.  The calls on tasks run one after the other;
    the attachment delegates of snapshot and replication tasks change the tables without
    the checks of the services, so they are defined and not among the calls of the
    invariant.  Of schema.py the attributes
    that ask the file system, ipaddress or croniter, and the JSON schema output, are left
    out.  The plugins for pools, disks, virtual machines, jails, shares and
    certificates are validation of forms around calls to libzfs, geom, libvirt, iocage
    and cryptographic libraries, whose answers decide what they do. *)

From stdpp Require Export base tactics option list gmap strings sorting relations.
From Stdlib Require Export Ascii ZArith Lia.

#[global] Set Default Goal Selector "!".

Declare Scope mw_scope.
Delimit Scope mw_scope with mw.
Open Scope mw_scope.

Create HintDb mw.

(** ** Outcomes: a Python call returns a value or raises an exception *)

Inductive outcome (E A : Type) : Type :=
| Ret (a : A)
| Raise (e : E).
Arguments Ret {E A} a.
Arguments Raise {E A} e.

#[global] Instance outcome_ret {E} : MRet (outcome E) := λ A a, Ret a.
#[global] Instance outcome_bind {E} : MBind (outcome E) := λ A B k m,
  match m with Ret a => k a | Raise e => Raise e end.
#[global] Instance outcome_fmap {E} : FMap (outcome E) := λ A B f m,
  match m with Ret a => Ret (f a) | Raise e => Raise e end.

Definition is_ret {E A} (o : outcome E A) : bool :=
  match o with Ret _ => true | Raise _ => false end.

#[global] Instance outcome_eq_dec {E A} `{EqDecision E, EqDecision A} :
  EqDecision (outcome E A).
Proof. solve_decision. Defined.

Lemma outcome_bind_Ret {E A B} (k : A → outcome E B) (m : outcome E A) (b : B) :
  (m ≫= k) = Ret b ↔ ∃ a, m = Ret a ∧ k a = Ret b.
Proof. destruct m; simpl; naive_solver. Qed.

Lemma outcome_bind_Raise {E A B} (k : A → outcome E B) (m : outcome E A) (e : E) :
  (m ≫= k) = Raise e ↔ m = Raise e ∨ ∃ a, m = Ret a ∧ k a = Raise e.
Proof. destruct m; simpl; naive_solver. Qed.

(** Python's [for] loop that builds a list and may raise on an element. *)
Fixpoint mapO {E A B} (f : A → outcome E B) (l : list A) : outcome E (list B) :=
  match l with
  | [] => Ret []
  | x :: l => y ← f x; ys ← mapO f l; Ret (y :: ys)
  end.

(** [filter] with a predicate that may raise. *)
Fixpoint filterO {E A} (p : A → outcome E bool) (l : list A) : outcome E (list A) :=
  match l with
  | [] => Ret []
  | x :: l => b ← p x; ys ← filterO p l; Ret (if b : bool then x :: ys else ys)
  end.

(** Python's [any]: stops at the first element that holds. *)
Fixpoint anyO {E A} (p : A → outcome E bool) (l : list A) : outcome E bool :=
  match l with
  | [] => Ret false
  | x :: l => b ← p x; if b : bool then Ret true else anyO p l
  end.

(** Python's [all]: stops at the first element that does not hold. *)
Fixpoint allO {E A} (p : A → outcome E bool) (l : list A) : outcome E bool :=
  match l with
  | [] => Ret true
  | x :: l => b ← p x; if b : bool then allO p l else Ret false
  end.

Lemma mapO_Ret {E A B} (f : A → outcome E B) l ys :
  mapO f l = Ret ys ↔ Forall2 (λ x y, f x = Ret y) l ys.
Proof.
  revert ys; induction l as [|x l IH]; intros ys; simpl.
  - split; [by intros [= <-]; constructor|by intros ->%Forall2_nil_inv_l].
  - rewrite outcome_bind_Ret; setoid_rewrite outcome_bind_Ret; split.
    + intros (y & Hy & ys' & Hys & [= <-]); constructor; [done|by apply IH].
    + intros (y & ys' & Hy & Hys & ->)%Forall2_cons_inv_l.
      exists y; split; [done|]; exists ys'; split; [by apply IH|done].
Qed.

Lemma filterO_total {E A} (p : A → outcome E bool) (q : A → bool) l :
  (∀ x, x ∈ l → p x = Ret (q x)) → filterO p l = Ret (List.filter q l).
Proof.
  induction l as [|x l IH]; intros Hp; simpl; [done|].
  rewrite Hp by left; simpl. rewrite IH by (intros; apply Hp; by right). simpl.
  by destruct (q x).
Qed.

Lemma filterO_elem {E A} (p : A → outcome E bool) l l' x : filterO p l = Ret l' → x ∈ l' → x ∈ l.
Proof.
  revert l'. induction l as [|y l IH]; intros l'; cbn; [by intros [= <-]|].
  rewrite outcome_bind_Ret. intros (b & _ & Hb). rewrite outcome_bind_Ret in Hb. destruct Hb as (ys & Hys & Hl').
  destruct b; injection Hl' as <-; [|intros ?; right; by eapply IH].
  rewrite !elem_of_cons. intros [-> |?]; [by left|right; by eapply IH].
Qed.

Lemma filterO_holds {E A} (p : A → outcome E bool) l l' x : filterO p l = Ret l' → x ∈ l' → p x = Ret true.
Proof.
  revert l'. induction l as [|y l IH]; intros l'; cbn; [by intros [= <-] ?%elem_of_nil|].
  rewrite outcome_bind_Ret. intros (b & Hp & Hb). rewrite outcome_bind_Ret in Hb. destruct Hb as (ys & Hys & Hl').
  destruct b; injection Hl' as <-; [|intros ?; by eapply IH].
  rewrite elem_of_cons. intros [-> |?]; [done|by eapply IH].
Qed.

Lemma anyO_total {E A} (p : A → outcome E bool) (q : A → bool) l :
  (∀ x, x ∈ l → p x = Ret (q x)) → anyO p l = Ret (existsb q l).
Proof.
  induction l as [|x l IH]; intros Hp; simpl; [done|].
  rewrite Hp by left; simpl. destruct (q x); simpl; [done|].
  apply IH; intros; apply Hp; by right.
Qed.

Lemma allO_total {E A} (p : A → outcome E bool) (q : A → bool) l :
  (∀ x, x ∈ l → p x = Ret (q x)) → allO p l = Ret (forallb q l).
Proof.
  induction l as [|x l IH]; intros Hp; simpl; [done|].
  rewrite Hp by left; simpl. destruct (q x); simpl; [|done].
  apply IH; intros; apply Hp; by right.
Qed.

(** ** Effects: explicit state passing with exceptions

    A Python call that raises keeps the state changes made before the
    exception, so the state is returned on both paths. *)

Definition M (S E A : Type) : Type := S → outcome E A * S.

#[global] Instance M_ret {S E} : MRet (M S E) := λ A a s, (Ret a, s).
#[global] Instance M_bind {S E} : MBind (M S E) := λ A B k m s,
  match m s with
  | (Ret a, s') => k a s'
  | (Raise e, s') => (Raise e, s')
  end.

Definition raise {S E A} (e : E) : M S E A := λ s, (Raise e, s).
Definition get_state {S E} : M S E S := λ s, (Ret s, s).
Definition gets {S E A} (f : S → A) : M S E A := λ s, (Ret (f s), s).
Definition modify {S E} (f : S → S) : M S E unit := λ s, (Ret tt, f s).

(** [try: m; except Exception as e: h e] *)
Definition try_except {S E A} (m : M S E A) (h : E → M S E A) : M S E A := λ s,
  match m s with
  | (Ret a, s') => (Ret a, s')
  | (Raise e, s') => h e s'
  end.

(** [try: m; except C: h], for the exceptions that are a [C]. *)
Definition try_except_if {S E A} (caught : E → bool) (m : M S E A) (h : E → M S E A) : M S E A :=
  try_except m (λ e, if caught e then h e else raise e).

(** [try: m; finally: f]: an exception of [f] replaces the one of [m]. *)
Definition try_finally {S E A} (m : M S E A) (f : M S E unit) : M S E A := λ s,
  match m s with
  | (o, s') => match f s' with
               | (Ret _, s'') => (o, s'')
               | (Raise e, s'') => (Raise e, s'')
               end
  end.

Fixpoint forM {S E A} (l : list A) (f : A → M S E unit) : M S E unit :=
  match l with
  | [] => mret tt
  | x :: l => f x ;; forM l f
  end.

Fixpoint mapM_M {S E A B} (f : A → M S E B) (l : list A) : M S E (list B) :=
  match l with
  | [] => mret []
  | x :: l => y ← f x; ys ← mapM_M f l; mret (y :: ys)
  end.

Lemma M_bind_Ret {S E A B} (m : M S E A) (k : A → M S E B) s b s' :
  (m ≫= k) s = (Ret b, s') ↔ ∃ a s1, m s = (Ret a, s1) ∧ k a s1 = (Ret b, s').
Proof.
  unfold mbind, M_bind. destruct (m s) as [[a|e] s1]; [|naive_solver].
  split; [eauto|]. by intros (a' & s1' & [= <- <-] & ?).
Qed.

(** Computations that keep a property of the state, whatever their outcome. *)
Definition keeps {S E A} (P : S → Prop) (m : M S E A) : Prop := ∀ s, P s → P (m s).2.

Section keeps_rules.
Context {S E : Type} (P : S → Prop).

Lemma keeps_ret {A} (a : A) : keeps P (mret a : M S E A).
Proof. by intros s Hs. Qed.

Lemma keeps_raise {A} (e : E) : keeps P (raise e : M S E A).
Proof. by intros s Hs. Qed.

Lemma keeps_bind {A B} (m : M S E A) (k : A → M S E B) :
  keeps P m → (∀ a, keeps P (k a)) → keeps P (m ≫= k).
Proof.
  intros Hm Hk s Hs. unfold mbind, M_bind. specialize (Hm s Hs).
  destruct (m s) as [[a|e] s']; [by apply Hk|done].
Qed.

Lemma keeps_try {A} (m : M S E A) (h : E → M S E A) :
  keeps P m → (∀ e, keeps P (h e)) → keeps P (try_except m h).
Proof.
  intros Hm Hh s Hs. unfold try_except. specialize (Hm s Hs).
  destruct (m s) as [[a|e] s']; [done|by apply Hh].
Qed.

Lemma keeps_try_if {A} c (m : M S E A) (h : E → M S E A) :
  keeps P m → (∀ e, keeps P (h e)) → keeps P (try_except_if c m h).
Proof. intros Hm Hh. apply keeps_try; [done|]. intros e. destruct (c e); [apply Hh|]. by intros s Hs. Qed.

Lemma keeps_finally {A} (m : M S E A) f : keeps P m → keeps P f → keeps P (try_finally m f).
Proof.
  intros Hm Hf s Hs. unfold try_finally. specialize (Hm s Hs).
  destruct (m s) as [o s']. specialize (Hf s' Hm). by destruct (f s') as [[] s''].
Qed.

Lemma keeps_modify f : (∀ s, P s → P (f s)) → keeps P (modify f : M S E unit).
Proof. intros Hf s. apply Hf. Qed.

Lemma keeps_get_state : keeps P (get_state : M S E S).
Proof. by intros s. Qed.

Lemma keeps_read {A} (f : S → outcome E A) : keeps P (λ s, (f s, s)).
Proof. by intros s. Qed.

Lemma keeps_mapM {A B} (f : A → M S E B) l : (∀ x, keeps P (f x)) → keeps P (mapM_M f l).
Proof.
  intros Hf. induction l as [|x l IH]; cbn [mapM_M]; [apply keeps_ret|].
  apply keeps_bind; [apply Hf|]. intros y. apply keeps_bind; [apply IH|]. intros ys. apply keeps_ret.
Qed.

Lemma keeps_forM {A} (l : list A) (f : A → M S E unit) : (∀ x, keeps P (f x)) → keeps P (forM l f).
Proof.
  intros Hf. induction l as [|x l IH]; cbn [forM]; [apply keeps_ret|].
  apply keeps_bind; [apply Hf|]. intros _. apply IH.
Qed.
End keeps_rules.

Create HintDb keeps.
#[export] Hint Resolve keeps_ret keeps_raise keeps_bind keeps_try keeps_try_if keeps_finally keeps_modify
  keeps_get_state keeps_read keeps_mapM keeps_forM : keeps.

(** Walk through a computation with the rules of [keeps]. *)
Ltac keeps_tac :=
  repeat first
    [ progress intros
    | solve [auto with keeps nocore]
    | match goal with
      | |- keeps _ (_ ≫= _) => apply keeps_bind
      | |- keeps _ (try_except _ _) => apply keeps_try
      | |- keeps _ (try_except_if _ _ _) => apply keeps_try_if
      | |- keeps _ (try_finally _ _) => apply keeps_finally
      | |- keeps _ (mapM_M _ _) => apply keeps_mapM
      | |- keeps _ (forM _ _) => apply keeps_forM
      | |- keeps _ (match ?x with _ => _ end) => destruct x
      | |- keeps _ (let '(_, _) := ?x in _) => destruct x
      end ].

(** A triple with one postcondition for the normal exit and one for the
    exceptional exit. *)
Definition triple {S E A} (P : S → Prop) (m : M S E A)
    (Q : A → S → Prop) (X : E → S → Prop) : Prop :=
  ∀ s, P s → match m s with (Ret a, s') => Q a s' | (Raise e, s') => X e s' end.

Lemma keeps_triple {S E A} (P : S → Prop) (m : M S E A) : keeps P m → triple P m (λ _, P) (λ _, P).
Proof. intros Hm s Hs. specialize (Hm s Hs). by destruct (m s) as [[] ?]. Qed.

Section triple_rules.
Context {S E : Type}.
Implicit Types (P : S → Prop) (X : E → S → Prop).

Lemma triple_ret {A} (a : A) P (Q : A → S → Prop) X :
  (∀ s, P s → Q a s) → triple P (mret a : M S E A) Q X.
Proof. intros H s Hs; by apply H. Qed.

Lemma triple_raise {A} (e : E) P (Q : A → S → Prop) X :
  (∀ s, P s → X e s) → triple P (raise e) Q X.
Proof. intros H s Hs; by apply H. Qed.

Lemma triple_bind {A B} (m : M S E A) (k : A → M S E B) P Q R X :
  triple P m Q X → (∀ a, triple (Q a) (k a) R X) → triple P (m ≫= k) R X.
Proof.
  intros Hm Hk s Hs. unfold mbind, M_bind. specialize (Hm s Hs).
  destruct (m s) as [[a|e] s']; [by apply Hk|done].
Qed.

Lemma triple_try {A} (m : M S E A) h P Q X Y :
  triple P m Q Y → (∀ e, triple (Y e) (h e) Q X) → triple P (try_except m h) Q X.
Proof.
  intros Hm Hh s Hs. unfold try_except. specialize (Hm s Hs).
  destruct (m s) as [[a|e] s']; [done|by apply Hh].
Qed.

Lemma triple_conseq {A} (m : M S E A) P P' (Q Q' : A → S → Prop) X X' :
  triple P' m Q' X' → (∀ s, P s → P' s) → (∀ a s, Q' a s → Q a s) →
  (∀ e s, X' e s → X e s) → triple P m Q X.
Proof.
  intros Hm HP HQ HX s Hs. specialize (Hm s (HP s Hs)).
  destruct (m s) as [[a|e] s']; eauto.
Qed.

Lemma triple_modify f P (Q : unit → S → Prop) X :
  (∀ s, P s → Q tt (f s)) → triple P (modify f : M S E unit) Q X.
Proof. intros H s Hs; by apply H. Qed.

Lemma triple_gets {A} (f : S → A) P (Q : A → S → Prop) X :
  (∀ s, P s → Q (f s) s) → triple P (gets f : M S E A) Q X.
Proof. intros H s Hs; by apply H. Qed.

(** A loop keeps an invariant that every iteration keeps. *)
Lemma triple_forM {A} (l : list A) (f : A → M S E unit) (I : list A → S → Prop) X :
  (∀ pre x post, l = pre ++ x :: post →
     triple (I pre) (f x) (λ _, I (pre ++ [x])) X) →
  triple (I []) (forM l f) (λ _, I l) X.
Proof.
  intros Hf. cut (∀ post pre, l = pre ++ post →
    triple (I pre) (forM post f) (λ _, I l) X); [intros H; by apply (H l [])|].
  intros post; induction post as [|x post IH]; intros pre Hl; simpl.
  - apply triple_ret. intros s. rewrite app_nil_r in Hl. by subst.
  - eapply triple_bind; [by eapply Hf|]. intros []; simpl. apply IH.
    by rewrite Hl, <-(assoc_L (++)).
Qed.
End triple_rules.

#[export] Hint Resolve triple_ret triple_raise triple_modify triple_gets : mw.

(** ** [list.remove]: the first occurrence *)

Fixpoint remove1 {A} `{EqDecision A} (x : A) (l : list A) : list A :=
  match l with
  | [] => []
  | y :: l => if decide (y = x) then l else y :: remove1 x l
  end.

Lemma elem_of_remove1 {A} `{EqDecision A} (x y : A) l :
  NoDup l → y ∈ remove1 x l ↔ y ∈ l ∧ y ≠ x.
Proof.
  induction 1 as [|z l Hz Hnd IH]; simpl; [set_solver|]. case_decide; set_solver.
Qed.

Lemma remove1_NoDup {A} `{EqDecision A} (x : A) l : NoDup l → NoDup (remove1 x l).
Proof.
  induction 1 as [|z l Hz Hnd IH]; simpl; [constructor|]. case_decide; [done|].
  constructor; [|done]. by rewrite elem_of_remove1 by done; intros [? _].
Qed.

Lemma remove1_middle {A} `{EqDecision A} (x : A) l1 l2 :
  x ∉ l1 → remove1 x (l1 ++ x :: l2) = l1 ++ l2.
Proof.
  induction l1 as [|y l1 IH]; simpl; intros Hx; [by rewrite decide_True|].
  apply not_elem_of_cons in Hx as [Hxy Hx]. rewrite decide_False by congruence. by rewrite IH.
Qed.

(** Where [find] finds: every element in front fails the test. *)
Lemma find_split {A} (f : A → bool) l x :
  List.find f l = Some x → ∃ l1 l2, l = l1 ++ x :: l2 ∧ ∀ y, y ∈ l1 → f y = false.
Proof.
  induction l as [|y l IH]; simpl; [done|]. destruct (f y) eqn:Hy.
  - intros [= ->]. exists [], l. split; [done|]. by intros ? ?%elem_of_nil.
  - intros (l1 & l2 & -> & H)%IH. exists (y :: l1), l2. split; [done|].
    intros z [->|Hz]%elem_of_cons; auto.
Qed.

(** ** Boolean quantifiers over lists *)

Lemma forallb_Forall {A} (p : A → bool) l : forallb p l = true ↔ Forall (λ x, p x = true) l.
Proof.
  induction l as [|x l IH]; simpl; [by split; constructor|].
  rewrite andb_true_iff, IH, Forall_cons. done.
Qed.

Lemma forallb_elem {A} (p : A → bool) l x : forallb p l = true → x ∈ l → p x = true.
Proof. rewrite forallb_Forall, Forall_forall. auto. Qed.

Lemma existsb_Exists {A} (p : A → bool) l : existsb p l = true ↔ Exists (λ x, p x = true) l.
Proof.
  induction l as [|x l IH]; simpl; [split; [done|inversion 1]|].
  rewrite orb_true_iff, IH, Exists_cons. done.
Qed.

(** ** Python strings *)

Module PyStr.

Definition startswith (s p : string) : bool := String.prefix p s.

Fixpoint endswith (s suffix : string) : bool :=
  String.eqb s suffix ||
  match s with "" => false | String _ s' => endswith s' suffix end.

(** [sub in s] *)
Fixpoint contains (s sub : string) : bool :=
  String.prefix sub s ||
  match s with "" => false | String _ s' => contains s' sub end.

Fixpoint count (c : ascii) (s : string) : nat :=
  match s with
  | "" => 0
  | String x s' => (if decide (x = c) then 1 else 0) + count c s'
  end.

(** [s.partition(c)] / [s.split(c, 1)]: the text before and after the first [c]. *)
Fixpoint split1 (c : ascii) (s : string) : option (string * string) :=
  match s with
  | "" => None
  | String x s' =>
      if decide (x = c) then Some ("", s')
      else match split1 c s' with
           | Some (a, b) => Some (String x a, b)
           | None => None
           end
  end.

(** [s.rsplit(c, 1)]: the text before and after the last [c]. *)
Fixpoint rsplit1 (c : ascii) (s : string) : option (string * string) :=
  match s with
  | "" => None
  | String x s' =>
      match rsplit1 c s' with
      | Some (a, b) => Some (String x a, b)
      | None => if decide (x = c) then Some ("", s') else None
      end
  end.

(** [s.split(c, 1)[0]], total: the whole string when [c] does not occur. *)
Definition before (c : ascii) (s : string) : string :=
  match split1 c s with Some (a, _) => a | None => s end.

(** [s[n:]] for [n >= 0] *)
Fixpoint drop (n : nat) (s : string) : string :=
  match n, s with
  | 0, _ => s
  | S n, "" => ""
  | S n, String _ s' => drop n s'
  end.

(** White space, for [strip] and [split]. *)
Definition is_blank (c : ascii) : bool :=
  let n := Ascii.nat_of_ascii c in
  ((9 <=? n) && (n <=? 13) || (28 <=? n) && (n <=? 32))%nat.

Fixpoint lstrip (s : string) : string :=
  match s with
  | String c s' => if is_blank c then lstrip s' else s
  | "" => ""
  end.

Fixpoint rstrip (s : string) : string :=
  match s with
  | "" => ""
  | String c s' =>
      match rstrip s' with
      | "" => if is_blank c then "" else String c ""
      | t => String c t
      end
  end.

(** [s.strip()] *)
Definition strip (s : string) : string := lstrip (rstrip s).

(** Prepend a character to the first of the pieces of a string. *)
Definition push (c : ascii) (l : list string) : list string :=
  match l with [] => [String c ""] | x :: l => String c x :: l end.

(** [s.split(c)] *)
Fixpoint split (c : ascii) (s : string) : list string :=
  match s with
  | "" => [""]
  | String x s' => if decide (x = c) then "" :: split c s' else push x (split c s')
  end.

(** The pieces between the characters that satisfy [sep], empty ones included. *)
Fixpoint pieces (sep : ascii → bool) (s : string) : list string :=
  match s with
  | "" => [""]
  | String x s' => if sep x then "" :: pieces sep s' else push x (pieces sep s')
  end.

Definition nonempty (s : string) : bool := negb (String.eqb s "").

(** [s.split()] *)
Definition split_ws (s : string) : list string := List.filter nonempty (pieces is_blank s).

(** A line boundary of [splitlines]. *)
Definition is_newline (c : ascii) : bool :=
  let n := Ascii.nat_of_ascii c in
  ((10 <=? n) && (n <=? 13) || (28 <=? n) && (n <=? 30))%nat.

(** The lines of [s.splitlines()] that are not empty: the callers drop the others. *)
Definition lines (s : string) : list string := List.filter nonempty (pieces is_newline s).

(** [s.lower()] *)
Fixpoint map_chars (f : ascii → ascii) (s : string) : string :=
  match s with "" => "" | String c s' => String (f c) (map_chars f s') end.
Definition lower_char (c : ascii) : ascii :=
  let n := Ascii.nat_of_ascii c in
  if ((65 <=? n) && (n <=? 90))%nat then Ascii.ascii_of_nat (n + 32) else c.
Definition lower (s : string) : string := map_chars lower_char s.

Definition isdigit (s : string) : bool :=
  negb (String.eqb s "") &&
  forallb (λ c, let n := Ascii.nat_of_ascii c in (48 <=? n) && (n <=? 57))
    (String.list_ascii_of_string s).

(** [int(s)] on a string of decimal digits. *)
Definition digits_value (s : string) : Z :=
  foldl (λ z c, 10 * z + (Z.of_nat (Ascii.nat_of_ascii c) - 48))%Z 0%Z
    (String.list_ascii_of_string s).

Lemma app_cons x a b : String x a +:+ b = String x (a +:+ b).
Proof. reflexivity. Qed.

Lemma app_assoc a b c : (a +:+ b) +:+ c = a +:+ (b +:+ c).
Proof. induction a as [|x a IH]; [done|]. by rewrite !app_cons, IH. Qed.

Lemma app_nil_r a : a +:+ "" = a.
Proof. induction a as [|x a IH]; [done|]. by rewrite app_cons, IH. Qed.

Lemma prefix_spec p s : String.prefix p s = true ↔ ∃ t, s = p +:+ t.
Proof.
  revert s; induction p as [|x p IH]; intros [|y s]; simpl.
  - split; [|done]. intros _; by exists "".
  - split; [|done]. intros _; by exists (String y s).
  - split; [done|]. by intros [t [=]].
  - destruct (ascii_dec x y) as [->|Hne].
    + rewrite IH. split; intros [t Ht]; exists t; [by rewrite Ht|].
      by injection Ht.
    + split; [done|]. intros [t [=]]; congruence.
Qed.

Lemma startswith_spec s p : startswith s p = true ↔ ∃ t, s = p +:+ t.
Proof. apply prefix_spec. Qed.

Lemma startswith_app p t : startswith (p +:+ t) p = true.
Proof. apply startswith_spec; by exists t. Qed.

Lemma startswith_trans a b c :
  startswith a b = true → startswith b c = true → startswith a c = true.
Proof.
  rewrite !startswith_spec. intros [t ->] [u ->]. exists (u +:+ t).
  by rewrite app_assoc.
Qed.

Lemma endswith_spec s b : endswith s b = true ↔ ∃ a, s = a +:+ b.
Proof.
  revert b; induction s as [|x s IH]; intros b; cbn [endswith]; rewrite orb_true_iff, String.eqb_eq.
  - split; [intros [<-|?]; [by exists ""|done]|]. intros [a Ha]. left. by destruct a.
  - rewrite IH. split.
    + intros [<-|[a ->]]; [by exists ""|]. by exists (String x a).
    + intros [[|y a] Ha]; [by left|right]. exists a. by injection Ha.
Qed.

Lemma endswith_app a b : endswith (a +:+ b) b = true.
Proof. apply endswith_spec. eauto. Qed.

Lemma length_app a b : String.length (a +:+ b) = String.length a + String.length b.
Proof. induction a as [|x a IH]; simpl; [done|]. by rewrite IH. Qed.

Lemma count_app c a b : count c (a +:+ b) = count c a + count c b.
Proof. induction a as [|x a IH]; simpl; [done|]. rewrite IH; lia. Qed.

Lemma split1_Some c s a b :
  split1 c s = Some (a, b) ↔ s = a +:+ String c b ∧ count c a = 0.
Proof.
  revert a b; induction s as [|x s IH]; intros a b; simpl.
  - split; [done|]. intros [H _]; by destruct a.
  - case_decide as Hx; subst.
    + split; [by intros [= <- <-]|]. intros [H Hc]; destruct a as [|y a]; simpl in *.
      * by injection H as ->.
      * injection H as -> ->. by rewrite decide_True in Hc.
    + destruct (split1 c s) as [[a' b']|].
      * destruct (proj1 (IH a' b') eq_refl) as [Hs Hc]. split.
        -- intros [= <- <-]. simpl. rewrite decide_False by done. by rewrite Hs.
        -- intros [H Hc']. destruct a as [|y a]; simpl in *; [by inversion H|].
           injection H as -> H. rewrite decide_False in Hc' by done.
           by assert (Some (a', b') = Some (a, b)) as [= -> ->] by (by apply IH).
      * split; [done|]. intros [H Hc]. destruct a as [|y a]; simpl in *; [by inversion H|].
        injection H as -> H. rewrite decide_False in Hc by done.
        by assert (None = Some (a, b)) as [=] by (by apply IH).
Qed.

Lemma split1_None c s : split1 c s = None ↔ count c s = 0.
Proof.
  induction s as [|x s IH]; simpl; [done|]. case_decide; [done|].
  destruct (split1 c s) as [[a b]|]; simpl; naive_solver.
Qed.

Lemma rsplit1_None c s : rsplit1 c s = None ↔ count c s = 0.
Proof.
  induction s as [|x s IH]; simpl; [done|].
  destruct (rsplit1 c s) as [[a b]|].
  - split; [done|]. intros H. assert (count c s = 0) as ?%IH by lia. done.
  - assert (count c s = 0) by (by apply IH). case_decide; split; try done; lia.
Qed.

(** A string with exactly one [c] splits the same way from either end. *)
Lemma rsplit1_split1 c s : count c s = 1 → rsplit1 c s = split1 c s.
Proof.
  induction s as [|x s IH]; simpl; [done|]. case_decide as Hx.
  - intros Hc. assert (rsplit1 c s = None) as -> by (apply rsplit1_None; lia). done.
  - intros Hc. rewrite IH by done.
    destruct (split1 c s) as [[a b]|]; done.
Qed.

End PyStr.

(** ** Stable sorting by a boolean comparison, Python's [sorted] *)

Section sorted.
Context {A : Type} (leb : A → A → bool).

Fixpoint insert_by (x : A) (l : list A) : list A :=
  match l with
  | [] => [x]
  | y :: l' => if leb x y then x :: l else y :: insert_by x l'
  end.

Definition sorted_by (l : list A) : list A := foldr insert_by [] l.

Lemma insert_by_perm x l : insert_by x l ≡ₚ x :: l.
Proof.
  induction l as [|y l IH]; simpl; [done|]. destruct (leb x y); [done|].
  rewrite IH. apply Permutation_swap.
Qed.

Lemma sorted_by_perm l : sorted_by l ≡ₚ l.
Proof. induction l as [|x l IH]; simpl; [done|]. by rewrite insert_by_perm, IH. Qed.

Lemma elem_of_sorted_by x l : x ∈ sorted_by l ↔ x ∈ l.
Proof. by rewrite sorted_by_perm. Qed.

Lemma length_sorted_by l : length (sorted_by l) = length l.
Proof. by rewrite sorted_by_perm. Qed.

(** Elements that compare equal keep their order. *)
Lemma sorted_by_stable (p : A → bool) l :
  (∀ x y, p x = true → p y = true → leb x y = true) →
  List.filter p (sorted_by l) = List.filter p l.
Proof.
  intros Hp. assert (∀ x l, List.filter p (insert_by x l) =
    List.filter p (x :: l)) as Hins.
  { intros x l'. induction l' as [|y l' IH]; simpl; [done|].
    destruct (leb x y) eqn:Hle; simpl; [done|].
    rewrite IH; simpl. destruct (p x) eqn:Hx, (p y) eqn:Hy; try done.
    by rewrite Hp in Hle. }
  induction l as [|x l IH]; simpl; [done|]. rewrite Hins; simpl.
  by rewrite IH.
Qed.

(** On a list whose elements satisfy [P], an order total on [P] sorts. *)
Context (P : A → Prop).
Context (total : ∀ x y, P x → P y → leb x y = true ∨ leb y x = true).
Context (trans : ∀ x y z, P x → P y → P z → leb x y = true → leb y z = true → leb x z = true).

Lemma insert_by_sorted x l :
  P x → Forall P l → StronglySorted (λ x y, leb x y = true) l →
  StronglySorted (λ x y, leb x y = true) (insert_by x l).
Proof using total trans.
  intros Hx HP Hs. induction Hs as [|y l Hl IH Hy]; simpl; [repeat constructor|].
  apply Forall_cons in HP as [Py Pl]. destruct (leb x y) eqn:Hle.
  - repeat constructor; [done|done|done|].
    rewrite Forall_forall in *. intros z Hz; eapply (trans x y z); auto.
  - constructor; [auto|]. rewrite insert_by_perm. constructor; [|done].
    destruct (total x y); try done; congruence.
Qed.

Lemma sorted_by_sorted l :
  Forall P l → StronglySorted (λ x y, leb x y = true) (sorted_by l).
Proof using total trans.
  induction 1 as [|x l Hx Hl IH]; simpl; [constructor|]. apply insert_by_sorted; [done| |done].
  by rewrite sorted_by_perm.
Qed.
End sorted.

(** [sorted(l)] on a list of strings. *)
Definition sorted_str : list string → list string := sorted_by String.leb.

Lemma string_leb_trans x y z :
  String.leb x y = true → String.leb y z = true → String.leb x z = true.
Proof.
  intros H1 H2. apply Is_true_true. apply Is_true_true in H1, H2.
  by apply (transitivity (R := String.le) (y := y)).
Qed.

#[export] Hint Resolve string_leb_trans String.leb_total : mw.
