(* ===== verification/PyValue.v ===== *)
(** * Python values

    The values that cross the middleware's API: JSON values, with Python's
    [None], [bool], [int], [str], [list]/[tuple] and [dict] with string keys.
    A [dict] keeps its insertion order, so it is an association list whose keys
    are unique.  Floats are not modelled.  [py_eq], [py_compare] and [py_in]
    are the operators [==], [<] and [in], with the exceptions they raise. *)

From S2P Require Import Prelude.
From stdpp Require Export pretty.

(** The values. *)
Inductive pyval : Type :=
| PNone
| PBool (b : bool)
| PInt (z : Z)
| PStr (s : string)
| PList (l : list pyval)
| PDict (d : list (string * pyval)).

(** The induction principle that reaches the elements of lists and dicts. *)
Section pyval_ind.
Context (P : pyval → Prop).
Context (HNone : P PNone) (HBool : ∀ b, P (PBool b)) (HInt : ∀ z, P (PInt z))
  (HStr : ∀ s, P (PStr s)) (HList : ∀ l, Forall P l → P (PList l))
  (HDict : ∀ d, Forall (λ kv, P kv.2) d → P (PDict d)).

Fixpoint pyval_ind' (v : pyval) : P v :=
  match v with
  | PNone => HNone
  | PBool b => HBool b
  | PInt z => HInt z
  | PStr s => HStr s
  | PList l => HList l
      ((fix go l : Forall P l :=
          match l with
          | [] => Forall_nil_2 P
          | x :: l => Forall_cons_2 P x l (pyval_ind' x) (go l)
          end) l)
  | PDict d => HDict d
      ((fix go d : Forall (λ kv, P kv.2) d :=
          match d with
          | [] => Forall_nil_2 _
          | kv :: d => Forall_cons_2 (λ kv, P kv.2) kv d (pyval_ind' kv.2) (go d)
          end) d)
  end.
End pyval_ind.

#[global] Instance pyval_eq_dec : EqDecision pyval.
Proof.
  refine (fix go (x y : pyval) {struct x} : Decision (x = y) :=
    match x, y with
    | PNone, PNone => left eq_refl
    | PBool a, PBool b => cast_if (decide (a = b))
    | PInt a, PInt b => cast_if (decide (a = b))
    | PStr a, PStr b => cast_if (decide (a = b))
    | PList a, PList b => cast_if (@list_eq_dec _ go a b)
    | PDict a, PDict b => cast_if (@list_eq_dec _ (λ x y, @prod_eq_dec _ _ _ go x y) a b)
    | _, _ => right _
    end); clear go; abstract congruence.
Defined.

Definition EINVAL : Z := 22.
Definition EFAULT : Z := 14.
Definition ENOENT : Z := 2.

(** service_exception.py: one [ValidationError] of a [ValidationErrors]. *)
Record ValidationError : Type := mkVE {
  attribute : string;
  errmsg : string;
  errno : Z;
}.

#[global] Instance ValidationError_eq_dec : EqDecision ValidationError.
Proof. solve_decision. Defined.

(** The exceptions the modelled code raises or lets through. *)
Inductive exn : Type :=
| ValueError (msg : string)
| TypeError (msg : string)
| AttributeError (msg : string)
| KeyError (key : string)
| IndexError
| MatchNotFound
| AssertionError
| RuntimeError (msg : string)
| NotImplementedError
| CancelledError
| CallError (errmsg : string) (errno : Z) (extra : pyval)
| ValidationErrorExn (error : ValidationError)
| CalledProcessError (cmd : string) (returncode : Z) (output : string)
| SchemaError (attribute : string) (errmsg : string)
| ValidationErrors (errors : list ValidationError)
| ResolverError (msg : string)
| RestoreError (msg : string)
| FileNotFoundError
| OtherError (msg : string).

#[global] Instance exn_eq_dec : EqDecision exn.
Proof. solve_decision. Defined.

(** What [except Exception] catches: [asyncio.CancelledError] is a [BaseException]. *)
Definition is_exception (e : exn) : bool := match e with CancelledError => false | _ => true end.

#[global] Instance pyval_inhabited : Inhabited pyval := populate PNone.

(** ** Dictionaries *)

Notation pydict := (list (string * pyval)).

(** [d.get(k)], as an option. *)
Fixpoint dget {A} (d : list (string * A)) (k : string) : option A :=
  match d with
  | [] => None
  | (k', v) :: d => if decide (k' = k) then Some v else dget d k
  end.

(** [d[k] = v]: in place when the key is present, at the end otherwise. *)
Fixpoint dset {A} (d : list (string * A)) (k : string) (v : A) : list (string * A) :=
  match d with
  | [] => [(k, v)]
  | (k', v') :: d => if decide (k' = k) then (k', v) :: d else (k', v') :: dset d k v
  end.

(** [d.pop(k, None)] / [del d[k]] on the dict. *)
Fixpoint ddel {A} (d : list (string * A)) (k : string) : list (string * A) :=
  match d with
  | [] => []
  | (k', v') :: d => if decide (k' = k) then d else (k', v') :: ddel d k
  end.

Definition dhas {A} (d : list (string * A)) (k : string) : bool :=
  match dget d k with Some _ => true | None => false end.

Definition dkeys {A} (d : list (string * A)) : list string := d.*1.

(** [d1.update(d2)] *)
Definition dupdate {A} (d1 d2 : list (string * A)) : list (string * A) :=
  foldl (λ d kv, dset d kv.1 kv.2) d1 d2.

Section dict_lemmas.
Context {A : Type}.
Implicit Types (d : list (string * A)).

Lemma dget_dset d k v : dget (dset d k v) k = Some v.
Proof.
  induction d as [|[k' v'] d IH]; simpl; [by rewrite decide_True|].
  case_decide; simpl; [by rewrite decide_True|by rewrite decide_False].
Qed.

Lemma dget_dset_ne d k k' v : k ≠ k' → dget (dset d k v) k' = dget d k'.
Proof.
  intros Hne. induction d as [|[k0 v0] d IH]; simpl; [by rewrite decide_False|].
  case_decide; simpl; [|by rewrite IH].
  rewrite !decide_False; congruence.
Qed.

Lemma dget_None d k : dget d k = None ↔ k ∉ dkeys d.
Proof.
  unfold dkeys. induction d as [|[k' v'] d IH]; simpl; [set_solver|].
  case_decide; set_solver.
Qed.

Lemma dget_elem_of d k v : dget d k = Some v → (k, v) ∈ d.
Proof.
  induction d as [|[k' v'] d IH]; simpl; [done|].
  case_decide; [intros [= ->]; subst; by left|]. right; auto.
Qed.

Lemma elem_of_dget d k v : NoDup (dkeys d) → (k, v) ∈ d → dget d k = Some v.
Proof.
  unfold dkeys. induction d as [|[k' v'] d IH]; simpl; [set_solver|].
  intros [Hk' Hnd]%NoDup_cons [[= -> ->]|Hin]%elem_of_cons.
  - by rewrite decide_True.
  - rewrite decide_False; [by apply IH|]. intros ->.
    apply Hk', list_elem_of_fmap. by exists (k, v).
Qed.

Lemma dkeys_dset d k v :
  dkeys (dset d k v) = if decide (k ∈ dkeys d) then dkeys d else dkeys d ++ [k].
Proof.
  unfold dkeys. induction d as [|[k' v'] d IH]; csimpl; [done|].
  destruct (decide (k' = k)) as [->|Hne]; csimpl.
  - rewrite decide_True; [done|by left].
  - rewrite IH. repeat case_decide; set_solver.
Qed.

Lemma dset_NoDup d k v : NoDup (dkeys d) → NoDup (dkeys (dset d k v)).
Proof.
  intros Hnd. rewrite dkeys_dset. case_decide as Hk; [done|].
  apply NoDup_app; split; [done|]. split; [|apply NoDup_singleton]. set_solver.
Qed.

Lemma dget_ddel_ne d k k' : k ≠ k' → dget (ddel d k) k' = dget d k'.
Proof.
  intros Hne. induction d as [|[k0 v0] d IH]; simpl; [done|].
  case_decide; simpl; [by rewrite decide_False by congruence|by rewrite IH].
Qed.

Lemma dget_ddel d k : NoDup (dkeys d) → dget (ddel d k) k = None.
Proof.
  unfold dkeys. induction d as [|[k' v'] d IH]; simpl; [done|].
  intros [Hk' Hnd]%NoDup_cons. case_decide; subst; [by apply dget_None|].
  simpl. rewrite decide_False by done. auto.
Qed.

Lemma elem_of_ddel d k kv : kv ∈ ddel d k → kv ∈ d.
Proof.
  induction d as [|[k' v'] d IH]; simpl; [done|].
  case_decide; [by right|]. intros [->|?]%elem_of_cons; [by left|right; auto].
Qed.

Lemma dset_fresh d k v : k ∉ dkeys d → dset d k v = d ++ [(k, v)].
Proof.
  unfold dkeys. induction d as [|[k' v'] d IH]; cbn [dset]; [done|].
  csimpl. intros Hk. rewrite decide_False by set_solver. by rewrite IH by set_solver.
Qed.

Lemma dget_app_l d1 d2 k v : dget d1 k = Some v → dget (d1 ++ d2) k = Some v.
Proof. induction d1 as [|[k' v'] d IH]; [done|]. cbn. case_decide; [done|]. apply IH. Qed.

Lemma dget_app d1 d2 k : k ∉ dkeys d1 → dget (d1 ++ d2) k = dget d2 k.
Proof.
  unfold dkeys. induction d1 as [|[k' v'] d IH]; [done|]. csimpl. intros Hk.
  rewrite decide_False by set_solver. apply IH. set_solver.
Qed.

Lemma dset_app d1 d2 k v : k ∉ dkeys d1 → dset (d1 ++ d2) k v = d1 ++ dset d2 k v.
Proof.
  unfold dkeys. induction d1 as [|[k' v'] d IH]; [done|]. csimpl. intros Hk.
  rewrite decide_False by set_solver. rewrite IH; [done|]. set_solver.
Qed.

Lemma ddel_app d1 d2 k : k ∉ dkeys d1 → ddel (d1 ++ d2) k = d1 ++ ddel d2 k.
Proof.
  unfold dkeys. induction d1 as [|[k' v'] d IH]; [done|]. csimpl. intros Hk.
  rewrite decide_False by set_solver. rewrite IH; [done|]. set_solver.
Qed.

Lemma ddel_NoDup d k : NoDup (dkeys d) → NoDup (dkeys (ddel d k)).
Proof.
  unfold dkeys. induction d as [|[k' v'] d IH]; simpl; [done|].
  intros [Hk' Hnd]%NoDup_cons. case_decide; [done|]. simpl.
  apply NoDup_cons; split; [|auto]. contradict Hk'.
  apply list_elem_of_fmap in Hk' as ([k1 v1] & -> & Hin).
  apply list_elem_of_fmap. exists (k1, v1); eauto using elem_of_ddel.
Qed.
End dict_lemmas.

#[export] Hint Resolve dset_NoDup ddel_NoDup : mw.
#[export] Hint Rewrite @dget_dset : mw.

(** Apply [f] to the value stored under [k]: the shape a recursive function over
    a nested dict needs. *)
Section dfind.
Context {A B : Type} (f : A → B).

Fixpoint dfind (d : list (string * A)) (k : string) : option B :=
  match d with
  | [] => None
  | (k', a) :: d => if decide (k' = k) then Some (f a) else dfind d k
  end.

Lemma dfind_dget d k : dfind d k = f <$> dget d k.
Proof.
  induction d as [|[k' a] d IH]; simpl; [done|]. by case_decide.
Qed.
End dfind.

(** ** Truth value, [==] and [<] *)

(** [bool(v)] *)
Definition truthy (v : pyval) : bool :=
  match v with
  | PNone => false
  | PBool b => b
  | PInt z => negb (Z.eqb z 0)
  | PStr s => negb (String.eqb s "")
  | PList l => match l with [] => false | _ => true end
  | PDict d => match d with [] => false | _ => true end
  end.

(** [bool] is a subclass of [int]: [True == 1] and [False == 0]. *)
Definition as_int (v : pyval) : option Z :=
  match v with
  | PBool b => Some (Z.b2z b)
  | PInt z => Some z
  | _ => None
  end.

(** [x == y]: two dicts are equal when they have the same items in any order. *)
Fixpoint py_eq (x y : pyval) {struct x} : bool :=
  match x, y with
  | PNone, PNone => true
  | (PBool _ | PInt _), _ =>
      match as_int x, as_int y with Some a, Some b => Z.eqb a b | _, _ => false end
  | PStr a, PStr b => String.eqb a b
  | PList a, PList b =>
      (fix go a b := match a, b with
        | [], [] => true
        | u :: a, v :: b => py_eq u v && go a b
        | _, _ => false
        end) a b
  | PDict a, PDict b =>
      (length a =? length b)%nat &&
      (fix go a := match a with
        | [] => true
        | (k, u) :: a =>
            match dget b k with Some v => py_eq u v | None => false end && go a
        end) a
  | _, _ => false
  end.

(** [x < y] as a three-way comparison; [None] when Python raises [TypeError]
    because the types are not ordered.  Lists compare at the first position
    where they differ. *)
Fixpoint py_compare (x y : pyval) {struct x} : option comparison :=
  match x, y with
  | (PBool _ | PInt _), _ =>
      match as_int x, as_int y with
      | Some a, Some b => Some (Z.compare a b)
      | _, _ => None
      end
  | PStr a, PStr b => Some (String.compare a b)
  | PList a, PList b =>
      (fix go a b := match a, b with
        | [], [] => Some Eq
        | [], _ :: _ => Some Lt
        | _ :: _, [] => Some Gt
        | u :: a, v :: b => if py_eq u v then go a b else py_compare u v
        end) a b
  | _, _ => None
  end.

Definition not_ordered : exn := TypeError "not supported between instances".

Definition py_lt (x y : pyval) : outcome exn bool :=
  match py_compare x y with
  | Some Lt => Ret true | Some _ => Ret false | None => Raise not_ordered
  end.
Definition py_le (x y : pyval) : outcome exn bool :=
  match py_compare x y with
  | Some Gt => Ret false | Some _ => Ret true | None => Raise not_ordered
  end.

(** ** [str(v)] and [repr(v)]

    A string's [repr] is quoted with single quotes, or with double quotes when
    it has single quotes and no double quote, and escapes the backslash, the
    quote and the control characters. *)

Definition single_quote : ascii := "'"%char.
Definition double_quote : ascii := Ascii.ascii_of_nat 34.
Definition backslash : ascii := Ascii.ascii_of_nat 92.

Definition hex_digit (n : nat) : ascii :=
  Ascii.ascii_of_nat (if (n <? 10)%nat then 48 + n else 87 + n).

Definition repr_char (quote c : ascii) : string :=
  let n := Ascii.nat_of_ascii c in
  if decide (c = quote) then String backslash (String c "")
  else if decide (c = backslash) then String backslash (String c "")
  else if (n =? 10)%nat then String backslash "n"
  else if (n =? 13)%nat then String backslash "r"
  else if (n =? 9)%nat then String backslash "t"
  else if (n <? 32)%nat || (n =? 127)%nat then
    String backslash (String "x"%char
      (String (hex_digit (n / 16)) (String (hex_digit (n mod 16)) "")))
  else String c "".

Definition repr_str (s : string) : string :=
  let quote := if decide (0 < PyStr.count single_quote s ∧
                          PyStr.count double_quote s = 0)
               then double_quote else single_quote in
  String quote (foldr (λ c acc, repr_char quote c +:+ acc) (String quote "")
                  (String.list_ascii_of_string s)).

Fixpoint join (sep : string) (l : list string) : string :=
  match l with
  | [] => ""
  | [x] => x
  | x :: l => x +:+ sep +:+ join sep l
  end.

Fixpoint py_repr (v : pyval) : string :=
  match v with
  | PNone => "None"
  | PBool b => if b then "True" else "False"
  | PInt z => pretty z
  | PStr s => repr_str s
  | PList l => "[" +:+ join ", " (py_repr <$> l) +:+ "]"
  | PDict d => "{" +:+ join ", " ((λ kv, repr_str kv.1 +:+ ": " +:+ py_repr kv.2) <$> d) +:+ "}"
  end.

Definition py_str (v : pyval) : string :=
  match v with PStr s => s | _ => py_repr v end.

(** [x in y]: an element of a list, a key of a dict, a substring of a string. *)
Definition py_in (x y : pyval) : outcome exn bool :=
  match y with
  | PList l => Ret (existsb (py_eq x) l)
  | PDict d => match x with
               | PStr k => Ret (dhas d k)
               | PList _ | PDict _ => Raise (TypeError "unhashable type")
               | _ => Ret false
               end
  | PStr s => match x with
              | PStr sub => Ret (PyStr.contains s sub)
              | _ => Raise (TypeError "requires string as left operand")
              end
  | _ => Raise (TypeError "argument is not iterable")
  end.

Lemma py_eq_list_go (l1 l2 : list pyval) :
  py_eq (PList l1) (PList l2) = true ↔ Forall2 (λ x y, py_eq x y = true) l1 l2.
Proof.
  revert l2; induction l1 as [|x l1 IH]; intros [|y l2].
  - split; [constructor|done].
  - split; [done|by inversion 1].
  - split; [done|by inversion 1].
  - transitivity (py_eq x y = true ∧ py_eq (PList l1) (PList l2) = true).
    + apply andb_true_iff.
    + rewrite IH. split; [by intros []; constructor|by inversion 1].
Qed.

(** [for x in v] *)
Definition py_iter (v : pyval) : outcome exn (list pyval) :=
  match v with
  | PList l => Ret l
  | PDict d => Ret (PStr <$> dkeys d)
  | PStr s => Ret ((λ c, PStr (String c "")) <$> String.list_ascii_of_string s)
  | _ => Raise (TypeError "object is not iterable")
  end.

(** [v[k]] on a dict *)
Definition item (v : pyval) (k : string) : outcome exn pyval :=
  match v with
  | PDict d => match dget d k with Some x => Ret x | None => Raise (KeyError k) end
  | _ => Raise (TypeError "indices must be integers or slices, not str")
  end.

(** Lists and dicts have no hash. *)
Definition hashable (v : pyval) : bool :=
  match v with PList _ | PDict _ => false | _ => true end.
