(* ===== verification/PyTime.v ===== *)
(** * Floats, dates and times

    The doubles that the conversions between [datetime] and timestamps go
    through, as dyadic numbers rounded to 53 bits, half to even; [date], [time]
    and [datetime] with the ranges of the [datetime] module.  A [datetime] is the
    microseconds of its fields since 1970 with its offset from UTC, when it is
    aware.  The range of exponents is not modelled: the values that occur are far
    from it. *)

From S2P Require Import Prelude PyValue.

(** ** Doubles *)

(** The number [man * 2^exp]. *)
Record float : Type := mkFloat { man : Z; fexp : Z }.

(** [n / d] rounded to an integer, half to even, for [d > 0]. *)
Definition round_half_even (n d : Z) : Z :=
  let q := (n / d)%Z in
  let r := (2 * (n mod d))%Z in
  if Z.ltb r d then q
  else if Z.ltb d r then (q + 1)%Z
  else if Z.even q then q else (q + 1)%Z.

(** The exponent that leaves 53 bits of [n / d]. *)
Definition float_exp (n d : Z) : Z :=
  let l := (Z.log2 (Z.abs n) - Z.log2 d)%Z in
  ((if Z.leb (d * 2 ^ Z.max 0 l) (Z.abs n * 2 ^ Z.max 0 (- l)) then l else l - 1) - 52)%Z.

(** [n / d] on integers: the double nearest to the quotient. *)
Definition float_div (n d : Z) : float :=
  if Z.eqb n 0 then mkFloat 0 0
  else let e := float_exp n d in
       mkFloat (round_half_even (n * 2 ^ Z.max 0 (- e)) (d * 2 ^ Z.max 0 e)) e.

Definition float_of_int (n : Z) : float := float_div n 1.

(** The double as a quotient. *)
Definition fnum (x : float) : Z := (x.(man) * 2 ^ Z.max 0 x.(fexp))%Z.
Definition fden (x : float) : Z := (2 ^ Z.max 0 (- x.(fexp)))%Z.

Definition float_mul (x y : float) : float := float_div (fnum x * fnum y) (fden x * fden y).

(** [int(x)] *)
Definition float_trunc (x : float) : Z := Z.quot (fnum x) (fden x).

(** [x] is exactly the integer [z]. *)
Definition is_int (x : float) (z : Z) : Prop := fnum x = (z * fden x)%Z.

(** ** date, time, datetime *)

Record Date : Type := mkDate { year : Z; month : Z; day : Z }.
Record Time : Type := mkTime { hour : Z; minute : Z; second : Z; microsecond : Z }.

#[global] Instance Date_eq_dec : EqDecision Date.
Proof. solve_decision. Defined.
#[global] Instance Time_eq_dec : EqDecision Time.
Proof. solve_decision. Defined.

(** A [datetime]: its fields, and its offset from UTC when it is aware. *)
Record DateTime : Type := mkDT { fields : Z; tz : option Z }.

#[global] Instance DateTime_eq_dec : EqDecision DateTime.
Proof. solve_decision. Defined.

Definition naive (t : Z) : DateTime := mkDT t None.

Definition leap (y : Z) : bool :=
  Z.eqb (y mod 4) 0 && (negb (Z.eqb (y mod 100) 0) || Z.eqb (y mod 400) 0).

Definition days_in_month (y m : Z) : Z :=
  if Z.eqb m 2 then if leap y then 29 else 28
  else if bool_decide (m ∈ [4; 6; 9; 11]%Z) then 30 else 31.

Definition between (a x b : Z) : bool := Z.leb a x && Z.leb x b.

Definition valid_date (d : Date) : bool :=
  between 1 d.(year) 9999 && between 1 d.(month) 12 &&
  between 1 d.(day) (days_in_month d.(year) d.(month)).

Definition valid_time (t : Time) : bool :=
  between 0 t.(hour) 23 && between 0 t.(minute) 59 && between 0 t.(second) 59 &&
  between 0 t.(microsecond) 999999.

(** [datetime.min] and [datetime.max], in microseconds. *)
Definition datetime_min : Z := -62135596800 * 1000000.
Definition datetime_max : Z := 253402300799 * 1000000 + 999999.

Definition valid_datetime (us : Z) : bool := between datetime_min us datetime_max.

Definition out_of_range : exn := ValueError "value is out of range".

(** The constructor [date(y, m, d)] called with a list of integers. *)
Definition make_date (args : list Z) : outcome exn Date :=
  match args with
  | [y; m; d] => let r := mkDate y m d in if valid_date r then Ret r else Raise out_of_range
  | _ => Raise (TypeError "function takes exactly 3 arguments")
  end.

(** [time] applied to a list of integers: a fifth argument would be the time zone, which is no integer. *)
Definition make_time (args : list Z) : outcome exn Time :=
  let build h m s us :=
    let r := mkTime h m s us in if valid_time r then Ret r else Raise out_of_range in
  match args with
  | [] => build 0 0 0 0
  | [h] => build h 0 0 0
  | [h; m] => build h m 0 0
  | [h; m; s] => build h m s 0
  | [h; m; s; us] => build h m s us
  | _ => Raise (TypeError "tzinfo argument must be None or of a tzinfo subclass")
  end%Z.

(** [dt + timedelta(microseconds=us)] *)
Definition datetime_add (dt : DateTime) (us : Z) : outcome exn DateTime :=
  if valid_datetime (dt.(fields) + us) then Ret (mkDT (dt.(fields) + us) dt.(tz))
  else Raise (OtherError "OverflowError").

(** [timedelta.total_seconds()], of a number of microseconds. *)
Definition total_seconds (us : Z) : float := float_div us 1000000.

(** [datetime.fromtimestamp(x, tz=timezone.utc)]: the fraction is rounded to
    microseconds, half to even. *)
Definition fromtimestamp_utc (x : float) : outcome exn DateTime :=
  let whole := float_trunc x in
  let us := round_half_even ((fnum x - whole * fden x) * 1000000) (fden x) in
  let t := (whole * 1000000 + us)%Z in
  if valid_datetime t then Ret (mkDT t (Some 0%Z)) else Raise out_of_range.

(** ** Whole numbers are exact *)

Lemma pow2_pos k : (0 < 2 ^ Z.max 0 k)%Z.
Proof. apply Z.pow_pos_nonneg; lia. Qed.

Lemma fden_pos x : (0 < fden x)%Z.
Proof. apply pow2_pos. Qed.

Lemma round_half_even_exact q d : (0 < d)%Z → round_half_even (q * d) d = q.
Proof.
  intros Hd. unfold round_half_even. rewrite Z.div_mul, Z.mod_mul by lia.
  by replace (Z.ltb (2 * 0) d) with true by (symmetry; apply Z.ltb_lt; lia).
Qed.

(** A number is the rounding of the quotients that are nearer to it than to its
    neighbours. *)
Lemma round_half_even_near n d z :
  (0 < d)%Z → (Z.abs (2 * (n - z * d)) < d)%Z → round_half_even n d = z.
Proof.
  intros Hd Hz. unfold round_half_even.
  pose proof (Z.div_mod n d ltac:(lia)) as Hn. pose proof (Z.mod_pos_bound n d Hd) as Hr.
  set (q := (n / d)%Z) in *. set (r := (n mod d)%Z) in *. clearbody q r. subst n.
  assert (q = z ∨ q = z - 1)%Z as [-> | ->].
  { assert (-1 ≤ q - z ≤ 0)%Z; [|lia]. split; apply Z.le_ngt; intros ?; nia. }
  - destruct (Z.ltb_spec (2 * r) d); lia.
  - destruct (Z.ltb_spec (2 * r) d); [lia|]. destruct (Z.ltb_spec d (2 * r)); lia.
Qed.

Lemma round_half_even_error n d :
  (0 < d)%Z → (Z.abs (2 * (n - round_half_even n d * d)) ≤ d)%Z.
Proof.
  intros Hd. unfold round_half_even.
  pose proof (Z.div_mod n d ltac:(lia)) as Hn. pose proof (Z.mod_pos_bound n d Hd) as Hr.
  set (q := (n / d)%Z) in *. set (r := (n mod d)%Z) in *.
  destruct (Z.ltb_spec (2 * r) d); [nia|]. destruct (Z.ltb_spec d (2 * r)); [nia|].
  destruct (Z.even q); nia.
Qed.

(** The exponent of a quotient below 2^k. *)
Lemma float_exp_small n d k :
  (0 < d)%Z → (0 ≤ k)%Z → (Z.abs n < d * 2 ^ k)%Z → (float_exp n d ≤ k - 53)%Z.
Proof.
  intros Hd Hk Hn. unfold float_exp. set (l := (Z.log2 _ - Z.log2 d)%Z).
  destruct (Z.leb_spec (d * 2 ^ Z.max 0 l) (Z.abs n * 2 ^ Z.max 0 (- l))) as [Hle|Hlt].
  - destruct (decide (l ≤ 0)%Z) as [?|Hl].
    + destruct (decide (l = 0)%Z) as [Hl0|]; [|lia]. rewrite Hl0 in Hle |- *.
      change (2 ^ Z.max 0 0)%Z with 1%Z in Hle. change (2 ^ Z.max 0 (- 0))%Z with 1%Z in Hle.
      destruct (decide (k = 0)%Z) as [->|]; [change (2 ^ 0)%Z with 1%Z in Hn|]; lia.
    + rewrite Z.max_r, Z.max_l, Z.mul_1_r in Hle by lia.
      assert (2 ^ l < 2 ^ k)%Z as Hpow%Z.pow_lt_mono_r_iff by nia; lia.
  - assert (Z.log2 (Z.abs n) ≤ Z.log2 (d * 2 ^ k))%Z as Hlog by (apply Z.log2_le_mono; lia).
    rewrite Z.log2_mul_pow2 in Hlog by lia. lia.
Qed.

Lemma float_div_exact q d : (0 < d)%Z → (Z.abs q < 2 ^ 53)%Z → is_int (float_div (q * d) d) q.
Proof.
  intros Hd Hq. unfold float_div. destruct (Z.eqb_spec (q * d) 0) as [H0|H0].
  { apply Z.mul_eq_0 in H0 as [-> | ->]; [done|lia]. }
  assert (float_exp (q * d) d ≤ 53 - 53)%Z as He.
  { apply float_exp_small; [done|lia|]. rewrite Z.abs_mul, (Z.abs_eq d), Z.mul_comm by lia. nia. }
  set (e := float_exp (q * d) d) in *. unfold is_int, fnum, fden. cbn [man fexp].
  rewrite (Z.max_l 0 e), !Z.mul_1_r by lia.
  replace (q * d * 2 ^ Z.max 0 (- e))%Z with ((q * 2 ^ Z.max 0 (- e)) * d)%Z by ring.
  by apply round_half_even_exact.
Qed.

Lemma float_mul_exact x y a b :
  is_int x a → is_int y b → (Z.abs (a * b) < 2 ^ 53)%Z → is_int (float_mul x y) (a * b).
Proof.
  unfold is_int at 1 2. intros Hx Hy Hab. unfold float_mul. rewrite Hx, Hy.
  replace (a * fden x * (b * fden y))%Z with ((a * b) * (fden x * fden y))%Z by ring.
  apply float_div_exact; [|done]. pose proof (fden_pos x). pose proof (fden_pos y). nia.
Qed.

Lemma float_of_int_exact z : (Z.abs z < 2 ^ 53)%Z → is_int (float_of_int z) z.
Proof. intros Hz. unfold float_of_int. rewrite <-(Z.mul_1_r z) at 1. by apply float_div_exact. Qed.

Lemma float_trunc_exact x z : is_int x z → float_trunc x = z.
Proof.
  unfold is_int, float_trunc. intros ->. apply Z.quot_mul. pose proof (fden_pos x). lia.
Qed.

Lemma fromtimestamp_exact x z :
  is_int x z →
  fromtimestamp_utc x =
    if valid_datetime (z * 1000000) then Ret (mkDT (z * 1000000) (Some 0%Z)) else Raise out_of_range.
Proof.
  intros Hx. unfold fromtimestamp_utc. rewrite (float_trunc_exact x z Hx).
  unfold is_int in Hx. rewrite Hx, Z.sub_diag, Z.mul_0_l.
  assert (round_half_even 0 (fden x) = 0%Z) as ->.
  { change 0%Z with (0 * fden x)%Z at 1. apply round_half_even_exact, fden_pos. }
  by rewrite Z.add_0_r.
Qed.

(** Milliseconds survive the division by 1000 for seventy years on either side of
    the epoch: a double below 2^32 is exact to a quarter of a microsecond. *)
Lemma fromtimestamp_ms x :
  (Z.abs x < 1000 * 2 ^ 32)%Z →
  fromtimestamp_utc (float_div x 1000) = Ret (mkDT (x * 1000) (Some 0%Z)).
Proof.
  intros Hx. unfold float_div. destruct (Z.eqb_spec x 0) as [->|H0]; [done|].
  pose proof (float_exp_small x 1000 32 ltac:(lia) ltac:(lia) Hx) as He.
  set (e := float_exp x 1000) in *. unfold fromtimestamp_utc.
  set (whole := float_trunc _). clearbody whole. unfold fnum, fden. cbn [man fexp].
  rewrite (Z.max_l 0 e), (Z.max_r 0 (- e)), !Z.mul_1_r by lia.
  pose proof (round_half_even_error (x * 2 ^ (- e)) 1000 ltac:(lia)) as Hm.
  set (m := round_half_even _ 1000) in *.
  assert (2 ^ 21 ≤ 2 ^ (- e))%Z as HP by (apply Z.pow_le_mono_r; lia).
  rewrite (round_half_even_near _ _ (1000 * x - whole * 1000000)); [|lia|lia].
  replace (whole * 1000000 + (1000 * x - whole * 1000000))%Z with (x * 1000)%Z by lia.
  assert (valid_datetime (x * 1000) = true) as ->; [|done].
  unfold valid_datetime, between, datetime_min, datetime_max.
  apply andb_true_iff; rewrite !Z.leb_le; lia.
Qed.
