(* ===== verification/Schema.v ===== *)
(** * The API schema: schema.py and service_exception.py

    [attr] is the class hierarchy of schema.py: [Attribute]'s own fields are
    the record [Attribute], each subclass is a constructor with its extra
    fields.  The operations are the methods [clean], [validate], [dump] and
    [has_private], each one function over the hierarchy; [copy] and [resolve] are
    in [SchemaResolve].

    [clean] mutates dicts and lists in place, also when it raises afterwards,
    and a later alternative of a [List] sees what an earlier one left behind.
    So [clean] returns, beside its outcome, the state it leaves the object in
    that it was called with. *)

From S2P Require Import Prelude PyValue.

(** ** service_exception.py: [ValidationErrors] *)

Module VErrors.

Definition add (verrors : list ValidationError) (attribute errmsg : string) (errno : Z) :
    list ValidationError :=
  verrors ++ [mkVE attribute errmsg errno].

Definition add_child (verrors : list ValidationError) (attribute : string)
    (child : list ValidationError) : list ValidationError :=
  foldl (λ acc e, add acc (attribute +:+ "." +:+ e.(PyValue.attribute)) e.(errmsg) e.(errno))
    verrors child.

Definition extend (verrors errors : list ValidationError) : list ValidationError :=
  foldl (λ acc e, add acc e.(PyValue.attribute) e.(errmsg) e.(errno)) verrors errors.

(** [verrors.check()], and the [if verrors: raise verrors] idiom. *)
Definition check (verrors : list ValidationError) : outcome exn unit :=
  match verrors with [] => Ret tt | _ => Raise (ValidationErrors verrors) end.

(** [item in verrors] *)
Definition contains (verrors : list ValidationError) (item : string) : bool :=
  existsb (λ e, String.eqb e.(PyValue.attribute) item) verrors.

Lemma extend_app verrors errors : extend verrors errors = verrors ++ errors.
Proof.
  revert verrors; induction errors as [|[a m n] errors IH]; intros verrors; simpl.
  - by rewrite app_nil_r.
  - etransitivity; [apply IH|]. unfold add. by rewrite <-app_assoc.
Qed.

Lemma add_child_app verrors a child :
  add_child verrors a child =
  verrors ++ ((λ e, mkVE (a +:+ "." +:+ e.(PyValue.attribute)) e.(errmsg) e.(errno)) <$> child).
Proof.
  revert verrors; induction child as [|[b m n] child IH]; intros verrors; simpl.
  - by rewrite app_nil_r.
  - etransitivity; [apply IH|]. unfold add. by rewrite <-app_assoc.
Qed.

End VErrors.

(** ** The class hierarchy *)

(** The fields every [Attribute] has.  A validator is a callable that returns
    or raises. *)
Record Attribute : Type := mkAttribute {
  name : string;
  title : string;
  description : option string;
  required : bool;
  null : bool;
  empty : bool;
  private : bool;
  validators : list (pyval → outcome exn unit);
  register : bool;
  hidden : bool;
  has_default : bool;
  default : pyval;
}.

Definition blank : Attribute :=
  {| name := ""; title := ""; description := None; required := false; null := false;
     empty := true; private := false; validators := []; register := false;
     hidden := false; has_default := false; default := PNone |}.

(** [Attribute.__init__] stores every field of [self] from its keyword
    arguments; [default=None] here means that the keyword is absent, and
    [title] defaults to the name. *)
Definition Attribute_init (self : Attribute) (name : string)
    (required null empty private : bool)
    (validators : list (pyval → outcome exn unit)) (register : bool)
    (default : option pyval) : Attribute :=
  {| name := name; title := name; description := None; required := required;
     null := null; empty := empty; private := private; validators := validators;
     register := register; hidden := false;
     has_default := match default with Some _ => true | None => false end;
     default := match default with Some d => d | None => PNone end |}.

Inductive attr : Type :=
| Any (b : Attribute)
| Str (b : Attribute) (enum : option (list pyval)) (max_length : Z)
| Bool (b : Attribute)
| Int (b : Attribute) (enum : option (list pyval))
| List (b : Attribute) (enum : option (list pyval)) (items : list attr) (unique : bool)
| Dict (b : Attribute) (attrs : list (string * attr))
    (additional_attrs strict update : bool)
| Ref (name : string)
| Patch (name newname : string) (patches : list patch) (register : bool)

(** The operations of a [Patch]; ['edit'] applies a method to the fields of one
    attribute, ['attr'] sets fields of the patched dict itself. *)
with patch : Type :=
| PAdd (a : attr)
| PRm (name : string)
| PEdit (name : string) (method : option (Attribute → Attribute))
| PAttr (method : Attribute → Attribute) (update : option bool).

Definition base_of (a : attr) : option Attribute :=
  match a with
  | Any b | Str b _ _ | Bool b | Int b _ | List b _ _ _ | Dict b _ _ _ _ => Some b
  | Ref _ | Patch _ _ _ _ => None
  end.

Definition attr_name (a : attr) : string :=
  match a with
  | Any b | Str b _ _ | Bool b | Int b _ | List b _ _ _ | Dict b _ _ _ _ => b.(name)
  | Ref n => n
  | Patch n _ _ _ => n
  end.

Definition with_base (f : Attribute → Attribute) (a : attr) : attr :=
  match a with
  | Any b => Any (f b)
  | Str b e m => Str (f b) e m
  | Bool b => Bool (f b)
  | Int b e => Int (f b) e
  | List b e i u => List (f b) e i u
  | Dict b at_ ad s u => Dict (f b) at_ ad s u
  | Ref _ | Patch _ _ _ _ => a
  end.

(** [Str.__init__]: a [max_length] of [None] or 0 means SQLite's limit. *)
Definition Str_init (b : Attribute) (enum : option (list pyval)) (max_length : option Z) : attr :=
  Str b enum (match max_length with
              | Some n => if Z.eqb n 0 then (2 ^ 31 - 1)%Z else n
              | None => (2 ^ 31 - 1)%Z
              end).

Definition set_private (p : bool) (b : Attribute) : Attribute :=
  {| name := b.(name); title := b.(title); description := b.(description);
     required := b.(required); null := b.(null); empty := b.(empty); private := p;
     validators := b.(validators); register := b.(register); hidden := b.(hidden);
     has_default := b.(has_default); default := b.(default) |}.

Definition set_register (r : bool) (b : Attribute) : Attribute :=
  {| name := b.(name); title := b.(title); description := b.(description);
     required := b.(required); null := b.(null); empty := b.(empty); private := b.(private);
     validators := b.(validators); register := r; hidden := b.(hidden);
     has_default := b.(has_default); default := b.(default) |}.

Definition set_name (n : string) (b : Attribute) : Attribute :=
  {| name := n; title := b.(title); description := b.(description);
     required := b.(required); null := b.(null); empty := b.(empty); private := b.(private);
     validators := b.(validators); register := b.(register); hidden := b.(hidden);
     has_default := b.(has_default); default := b.(default) |}.

(** [Password.__init__]: [self.private = True] comes before
    [super().__init__], which stores the keyword [private]. *)
Definition Password_init (name : string) (required null empty private : bool)
    (validators : list (pyval → outcome exn unit)) (register : bool)
    (default : option pyval) (max_length : option Z) : attr :=
  let self := set_private true blank in
  let self := Attribute_init self name required null empty private validators register default in
  Str_init self None max_length.

(** ** [clean] *)

(** The argument of [clean]: [None] is the sentinel [NOT_PROVIDED]. *)
Notation NOT_PROVIDED := None (only parsing).

(** [Attribute.clean] *)
Definition attribute_clean (b : Attribute) (value : option pyval) : outcome exn pyval :=
  match value with
  | Some PNone => if b.(null) then Ret PNone else Raise (SchemaError b.(name) "null not allowed")
  | NOT_PROVIDED =>
      if b.(has_default) then Ret b.(default)
      else Raise (SchemaError b.(name) "attribute required")
  | Some v => Ret v
  end.

(** [EnumMixin.clean] *)
Definition enum_clean (b : Attribute) (enum : option (list pyval)) (value : option pyval) :
    outcome exn pyval :=
  v ← attribute_clean b value;
  match enum with
  | None => Ret v
  | Some choices =>
      if decide (v = PNone ∧ b.(null) = true) then Ret v
      else
        let tmp := match v with PList l => l | _ => [v] end in
        if forallb (λ x, existsb (py_eq x) choices) tmp then Ret v
        else Raise (SchemaError b.(name) ("Invalid choice: " +:+ py_str v))
  end.

(** [Str.clean] *)
Definition str_clean (b : Attribute) (enum : option (list pyval)) (value : option pyval) :
    outcome exn pyval :=
  v ← enum_clean b enum value;
  match v with
  | PNone => Ret PNone
  | _ =>
      let v := match v with PInt z => PStr (pretty z) | _ => v end in
      match v with
      | PStr s =>
          if negb b.(empty) && String.eqb s "" then
            Raise (SchemaError b.(name) "Empty value not allowed")
          else Ret v
      | _ => Raise (SchemaError b.(name) "Not a string")
      end
  end.

(** [Bool.clean] *)
Definition bool_clean (b : Attribute) (value : option pyval) : outcome exn pyval :=
  v ← attribute_clean b value;
  match v with
  | PNone | PBool _ => Ret v
  | _ => Raise (SchemaError b.(name) "Not a boolean")
  end.

(** [Int.clean] *)
Definition int_clean (b : Attribute) (enum : option (list pyval)) (value : option pyval) :
    outcome exn pyval :=
  v ← enum_clean b enum value;
  match v with
  | PNone | PInt _ => Ret v
  | PStr s => if PyStr.isdigit s then Ret (PInt (PyStr.digits_value s))
              else Raise (SchemaError b.(name) "Not an integer")
  | _ => Raise (SchemaError b.(name) "Not an integer")
  end.

(** The outcome of a [clean] call and the object it was called with, as the
    call left it. *)
Definition cleaned : Type := outcome exn pyval * option pyval.

(** The [for i in self.items] loop of [List.clean] on one element [v]: the first
    item whose [clean] returns wins; a [schema.Error] moves on to the next item,
    which is called with [v] as the failed call left it. *)
Section clean_item.
Context (clean : attr → option pyval → cleaned).

Fixpoint clean_item (items : list attr) (v : pyval) (found : option exn) :
    outcome exn (pyval + option exn) * pyval :=
  match items with
  | [] => (Ret (inr found), v)
  | i :: items =>
      match clean i (Some v) with
      | (Ret r, v') => (Ret (inl r), from_option id v v')
      | (Raise (SchemaError a m), v') =>
          clean_item items (from_option id v v') (Some (SchemaError a m))
      | (Raise e, v') => (Raise e, from_option id v v')
      end
  end.

(** [str(found)], with [Error.__str__]. *)
Definition found_str (found : option exn) : string :=
  match found with
  | Some (SchemaError a m) => "[" +:+ a +:+ "] " +:+ m
  | _ => ""
  end.

(** The loop over the elements: [value[index] = i.clean(v)]. *)
Fixpoint clean_elements (lname : string) (items : list attr) (index : nat)
    (l : list pyval) : outcome exn unit * list pyval :=
  match l with
  | [] => (Ret tt, [])
  | v :: l =>
      match clean_item items v None with
      | (Ret (inl r), _) =>
          let '(o, l') := clean_elements lname items (S index) l in (o, r :: l')
      | (Ret (inr found), v') =>
          (Raise (SchemaError lname ("Item#" +:+ pretty index +:+
             " is not valid per list types: " +:+ found_str found)), v' :: l)
      | (Raise e, v') => (Raise e, v' :: l)
      end
  end.
End clean_item.

(** The two loops of [Dict.clean]. *)
Section clean_dict.
Context (clean : attr → option pyval → cleaned).

(** [for key, value in list(data.items())] *)
Fixpoint clean_keys (attrs : list (string * attr)) (additional_attrs : bool)
    (items : pydict) (data : pydict) : outcome exn unit * pydict :=
  match items with
  | [] => (Ret tt, data)
  | (key, value) :: items =>
      if negb additional_attrs && negb (dhas attrs key) then
        (Raise (SchemaError key "Field was not expected"), data)
      else
        match dfind (λ a, clean a (Some value)) attrs key with
        | None => clean_keys attrs additional_attrs items data
        | Some (Ret r, _) => clean_keys attrs additional_attrs items (dset data key r)
        | Some (Raise e, v') => (Raise e, dset data key (from_option id value v'))
        end
  end.

(** [for attr in list(self.attrs.values())]: populate what is required or has
    a default. *)
Fixpoint clean_defaults (attrs : list (string * attr)) (data : pydict) :
    outcome exn unit * pydict :=
  match attrs with
  | [] => (Ret tt, data)
  | (_, a) :: attrs =>
      if dhas data (attr_name a) then clean_defaults attrs data
      else match base_of a with
      | None => (Raise (AttributeError "required"), data)
      | Some b =>
          if b.(required) || b.(has_default) then
            match clean a NOT_PROVIDED with
            | (Ret r, _) => clean_defaults attrs (dset data (attr_name a) r)
            | (Raise e, _) => (Raise e, data)
            end
          else clean_defaults attrs data
      end
  end.
End clean_dict.

(** The object [clean] leaves behind: the argument when it was provided. *)
Definition left_behind (value : option pyval) (v : pyval) : option pyval :=
  match value with Some _ => Some v | None => NOT_PROVIDED end.

Fixpoint clean (a : attr) (value : option pyval) {struct a} : cleaned :=
  match a with
  | Any b => (attribute_clean b value, value)
  | Str b enum _ => (str_clean b enum value, value)
  | Bool b => (bool_clean b value, value)
  | Int b enum => (int_clean b enum value, value)
  | List b enum items _ =>
      match enum_clean b enum value with
      | Raise e => (Raise e, value)
      | Ret PNone => (Ret b.(default), value)
      | Ret (PList l) =>
          if negb b.(empty) && (length l =? 0)%nat then
            (Raise (SchemaError b.(name) "Empty value not allowed"), value)
          else match items with
          | [] => (Ret (PList l), value)
          | _ =>
              match clean_elements clean b.(name) items 0 l with
              | (Ret _, l') => (Ret (PList l'), left_behind value (PList l'))
              | (Raise e, l') => (Raise e, left_behind value (PList l'))
              end
          end
      | Ret _ => (Raise (SchemaError b.(name) "Not a list"), value)
      end
  | Dict b attrs additional_attrs _ update =>
      match attribute_clean b value with
      | Raise e => (Raise e, value)
      | Ret PNone => (Ret (if b.(null) then PNone else b.(default)), value)
      | Ret (PDict data) =>
          match clean_keys clean attrs additional_attrs data data with
          | (Raise e, data) => (Raise e, left_behind value (PDict data))
          | (Ret _, data) =>
              match (if update then (Ret tt, data) else clean_defaults clean attrs data) with
              | (Raise e, data) => (Raise e, left_behind value (PDict data))
              | (Ret _, data) => (Ret (PDict data), left_behind value (PDict data))
              end
          end
      | Ret _ => (Raise (SchemaError b.(name) "A dict was expected"), value)
      end
  | Ref _ | Patch _ _ _ _ => (Raise (AttributeError "clean"), value)
  end.

(** ** [has_private] and [dump] *)

Definition masked : pyval := PStr "********".

Fixpoint has_private (a : attr) : bool :=
  match a with
  | Any b | Str b _ _ | Bool b | Int b _ => b.(private)
  | List b _ items _ => b.(private) || existsb has_private items
  | Dict b attrs _ _ _ => b.(private) || existsb (λ kv, has_private kv.2) attrs
  | Ref _ | Patch _ _ _ _ => false
  end.

(** [dump]: what the middleware logs and shows of an argument. *)
Fixpoint dump (a : attr) (value : pyval) {struct a} : pyval :=
  match a with
  | Any b | Str b _ _ | Bool b | Int b _ => if b.(private) then masked else value
  | List _ _ _ _ => if has_private a then masked else value
  | Dict b attrs _ _ _ =>
      if b.(private) then masked
      else match value with
      | PDict d =>
          PDict ((λ kv : string * pyval,
            (kv.1, from_option id kv.2 (dfind (λ a', dump a' kv.2) attrs kv.1))) <$> d)
      | _ => value
      end
  | Ref _ | Patch _ _ _ _ => value
  end.

(** ** [validate] *)

(** [Attribute.validate]: every validator runs; a [ValueError] is recorded, any
    other exception goes through. *)
Fixpoint run_validators (aname : string) (vs : list (pyval → outcome exn unit)) (value : pyval)
    (verrors : list ValidationError) : outcome exn (list ValidationError) :=
  match vs with
  | [] => Ret verrors
  | f :: vs =>
      match f value with
      | Ret _ => run_validators aname vs value verrors
      | Raise (ValueError m) => run_validators aname vs value (VErrors.add verrors aname m EINVAL)
      | Raise e => Raise e
      end
  end.

Definition attribute_validate (b : Attribute) (value : pyval) : outcome exn unit :=
  verrors ← run_validators b.(name) b.(validators) value [];
  VErrors.check verrors.

(** [Str.validate] *)
Definition str_validate (b : Attribute) (max_length : Z) (value : pyval) : outcome exn unit :=
  match value with
  | PNone => Ret tt
  | _ =>
      let verrors :=
        if truthy value && (max_length <? Z.of_nat (String.length (py_str value)))%Z then
          VErrors.add [] b.(name)
            ("Value greater than " +:+ pretty max_length +:+ " not allowed") EINVAL
        else [] in
      _ ← VErrors.check verrors;
      attribute_validate b value
  end.

(** The value [List.validate] compares and then validates when [unique]: a dict
    becomes the sorted tuple of its items. *)
Definition item_le (x y : string * pyval) : bool := String.leb x.1 y.1.
Definition unique_key (v : pyval) : pyval :=
  match v with
  | PDict d => PList ((λ kv : string * pyval, PList [PStr kv.1; kv.2]) <$> sorted_by item_le d)
  | _ => v
  end.

(** [v in s] needs the hash of [v]. *)
Definition unique_hashable (v : pyval) : bool :=
  match v with
  | PDict d => forallb (λ kv, hashable kv.2) d
  | _ => hashable v
  end.

Section validate_loops.
Context (validate : attr → pyval → outcome exn unit).

(** [for attr in self.items: try: ... else: break; else: extend] *)
Fixpoint validate_item (prefix : string) (items : list attr) (v : pyval)
    (attr_verrors : list ValidationError) : outcome exn (list ValidationError) :=
  match items with
  | [] => Ret attr_verrors
  | a :: items =>
      match validate a v with
      | Ret _ => Ret []
      | Raise (ValidationErrors e) =>
          validate_item prefix items v (VErrors.add_child attr_verrors prefix e)
      | Raise e => Raise e
      end
  end.

Fixpoint validate_elements (lname : string) (items : list attr) (unique : bool) (i : nat)
    (s : list pyval) (l : list pyval) (verrors : list ValidationError) :
    outcome exn (list ValidationError) :=
  match l with
  | [] => Ret verrors
  | v :: l =>
      let prefix := lname +:+ "." +:+ pretty i in
      if unique && negb (unique_hashable v) then Raise (TypeError "unhashable type")
      else
        let v' := if unique then unique_key v else v in
        let verrors :=
          if unique && existsb (py_eq v') s
          then VErrors.add verrors prefix "This value is not unique." EINVAL else verrors in
        let s := if unique then v' :: s else s in
        attr_verrors ← validate_item prefix items v' [];
        validate_elements lname items unique (S i) s l (VErrors.extend verrors attr_verrors)
  end.

(** The loop of [Dict.validate]: [if attr.name in value]. *)
Fixpoint validate_attrs (dname : string) (attrs : list (string * attr)) (value : pyval)
    (verrors : list ValidationError) : outcome exn (list ValidationError) :=
  match attrs with
  | [] => Ret verrors
  | (_, a) :: attrs =>
      present ← py_in (PStr (attr_name a)) value;
      if present : bool then
        match value with
        | PDict d =>
            match validate a (from_option id PNone (dget d (attr_name a))) with
            | Ret _ => validate_attrs dname attrs value verrors
            | Raise (ValidationErrors e) =>
                validate_attrs dname attrs value (VErrors.add_child verrors dname e)
            | Raise e => Raise e
            end
        | _ => Raise (TypeError "indices must be integers")
        end
      else validate_attrs dname attrs value verrors
  end.
End validate_loops.

Fixpoint validate (a : attr) (value : pyval) {struct a} : outcome exn unit :=
  match a with
  | Any b | Bool b | Int b _ => attribute_validate b value
  | Str b _ max_length => str_validate b max_length value
  | List b _ items unique =>
      match value with
      | PNone => Ret tt
      | _ =>
          l ← py_iter value;
          verrors ← validate_elements validate b.(name) items unique 0 [] l [];
          _ ← VErrors.check verrors;
          attribute_validate b value
      end
  | Dict b attrs _ _ _ =>
      match value with
      | PNone => Ret tt
      | _ => verrors ← validate_attrs validate b.(name) attrs value []; VErrors.check verrors
      end
  | Ref _ | Patch _ _ _ _ => Raise (AttributeError "validate")
  end.

(** ** The [accepts] decorator *)

Section accepts.
(** [accepts] is the list of schemas of the decorated method and [params] the
    names of its parameters after [self] (and [app], [job]); [wrap] asserts
    that they are equally many. *)
Context (accepts : list attr) (params : list string).

(** One step of either loop: clean the value, then validate it; validation
    errors accumulate, any other exception ends the call. *)
Definition clean_and_validate (a : attr) (value : option pyval)
    (verrors : list ValidationError) : outcome exn (pyval * list ValidationError) :=
  v ← (clean a value).1;
  match validate a v with
  | Ret _ => Ret (v, verrors)
  | Raise (ValidationErrors e) => Ret (v, VErrors.extend verrors e)
  | Raise e => Raise e
  end.

(** "Iterate over positional args first": [nf.accepts[i]] raises on a surplus
    argument. *)
Fixpoint positional_args (i : nat) (args : list pyval) (verrors : list ValidationError) :
    outcome exn (list pyval * list ValidationError) :=
  match args with
  | [] => Ret ([], verrors)
  | v :: args =>
      match accepts !! i with
      | None => Raise IndexError
      | Some a =>
          '(v', verrors) ← clean_and_validate a (Some v) verrors;
          '(args', verrors) ← positional_args (S i) args verrors;
          Ret (v' :: args', verrors)
      end
  end.

(** "Use i counter to map keyword argument to rpc positional". *)
Fixpoint keyword_args (i : nat) (names : list string) (kwargs : pydict)
    (verrors : list ValidationError) : outcome exn (pydict * list ValidationError) :=
  match names with
  | [] => Ret (kwargs, verrors)
  | kwarg :: names =>
      match dget kwargs kwarg, accepts !! i with
      | Some _, None => Raise IndexError
      | None, None => keyword_args (S i) names kwargs verrors
      | value, Some a =>
          '(v', verrors) ← clean_and_validate a value verrors;
          keyword_args (S i) names (dset kwargs kwarg v') verrors
      end
  end.

Definition clean_and_validate_args (args : list pyval) (kwargs : pydict) :
    outcome exn (list pyval * pydict) :=
  '(args', verrors) ← positional_args 0 args [];
  '(kwargs', verrors) ← keyword_args (length args) (drop (length args) params) kwargs verrors;
  _ ← VErrors.check verrors;
  Ret (args', kwargs').

(** [f( *args, **kwargs)]: the value each parameter is bound to; a keyword that
    is not a parameter, or one that repeats a positional argument, is a
    [TypeError]. *)
Definition bind_args (args : list pyval) (kwargs : pydict) : outcome exn (list pyval) :=
  let rest := drop (length args) params in
  if bool_decide (length args ≤ length params) &&
     forallb (λ k, bool_decide (k ∈ rest)) (dkeys kwargs) then
    vs ← mapO (λ k, match dget kwargs k with
                    | Some v => Ret v
                    | None => Raise (TypeError "missing required argument")
                    end) rest;
    Ret (args ++ vs)
  else Raise (TypeError "unexpected argument").

(** The wrapper [nf]: the values the method body runs with. *)
Definition nf (args : list pyval) (kwargs : pydict) : outcome exn (list pyval) :=
  '(args', kwargs') ← clean_and_validate_args args kwargs;
  bind_args args' kwargs'.
End accepts.
