(* ===== verification/SchemaFacts.v ===== *)
(** * Properties of the API schema

    Type soundness of [clean], fixed points of [clean], confidentiality of
    [dump], and the calling convention of [accepts]. *)

From S2P Require Import Prelude PyValue Schema.

(** ** Induction over the class hierarchy *)

Section attr_ind.
Context (P : attr → Prop).
Context (HAny : ∀ b, P (Any b)) (HStr : ∀ b e m, P (Str b e m)) (HBool : ∀ b, P (Bool b))
  (HInt : ∀ b e, P (Int b e))
  (HList : ∀ b e items u, Forall P items → P (List b e items u))
  (HDict : ∀ b attrs ad s u, Forall (λ ka, P ka.2) attrs → P (Dict b attrs ad s u))
  (HRef : ∀ n, P (Ref n)) (HPatch : ∀ n nn ps r, P (Patch n nn ps r)).

Fixpoint attr_ind' (a : attr) : P a :=
  match a with
  | Any b => HAny b
  | Str b e m => HStr b e m
  | Bool b => HBool b
  | Int b e => HInt b e
  | List b e items u => HList b e items u
      ((fix go l : Forall P l :=
          match l with
          | [] => Forall_nil_2 P
          | x :: l => Forall_cons_2 P x l (attr_ind' x) (go l)
          end) items)
  | Dict b attrs ad s u => HDict b attrs ad s u
      ((fix go l : Forall (λ ka, P ka.2) l :=
          match l with
          | [] => Forall_nil_2 _
          | ka :: l => Forall_cons_2 (λ ka, P ka.2) ka l (attr_ind' ka.2) (go l)
          end) attrs)
  | Ref n => HRef n
  | Patch n nn ps r => HPatch n nn ps r
  end.
End attr_ind.

(** ** Well-formed values and schemas *)

(** A Python dict has every key once. *)
Fixpoint wf_val (v : pyval) : bool :=
  match v with
  | PList l => forallb wf_val l
  | PDict d => bool_decide (NoDup (dkeys d)) && forallb (λ kv, wf_val kv.2) d
  | _ => true
  end.

Definition wf_opt (v : option pyval) : bool := from_option wf_val true v.

(** [Dict.__init__] stores each attribute under its own name. *)
Fixpoint wf_attr (a : attr) : bool :=
  match a with
  | Any b | Str b _ _ | Bool b | Int b _ => wf_val b.(default)
  | List b _ items _ => wf_val b.(default) && forallb wf_attr items
  | Dict b attrs _ _ _ =>
      wf_val b.(default) && bool_decide (NoDup (dkeys attrs)) &&
      forallb (λ ka, bool_decide (attr_name ka.2 = ka.1) && wf_attr ka.2) attrs
  | Ref _ | Patch _ _ _ _ => false
  end.

(** ** The values a schema admits after [clean] *)

(** [None] is admitted when the attribute is nullable, or is its default. *)
Definition none_ok (b : Attribute) : bool :=
  b.(null) || (b.(has_default) && bool_decide (b.(default) = PNone)).

(** [data] has every attribute that is required or has a default. *)
Definition populated (attrs : list (string * attr)) (data : pydict) : bool :=
  forallb (λ ka : string * attr,
    match base_of ka.2 with
    | Some b => implb (b.(required) || b.(has_default)) (dhas data ka.1)
    | None => true
    end) attrs.

Fixpoint conforms (a : attr) (v : pyval) : bool :=
  match a with
  | Any b => bool_decide (v ≠ PNone) || none_ok b
  | Str b _ _ => match v with
                 | PNone => none_ok b
                 | PStr s => b.(empty) || negb (String.eqb s "")
                 | _ => false
                 end
  | Bool b => match v with PNone => none_ok b | PBool _ => true | _ => false end
  | Int b _ => match v with PNone => none_ok b | PInt _ => true | _ => false end
  | List b _ items _ =>
      (none_ok b && bool_decide (v = b.(default))) ||
      match v with
      | PList l =>
          (b.(empty) || negb (length l =? 0)%nat) &&
          ((length items =? 0)%nat || forallb (λ x, existsb (λ i, conforms i x) items) l)
      | _ => false
      end
  | Dict b attrs additional_attrs _ update =>
      match v with
      | PNone => none_ok b
      | PDict d =>
          (additional_attrs || forallb (dhas attrs) (dkeys d)) &&
          forallb (λ kv : string * pyval,
            from_option id true (dfind (λ a', conforms a' kv.2) attrs kv.1)) d &&
          (update || populated attrs d)
      | _ => false
      end
  | Ref _ | Patch _ _ _ _ => false
  end.

(** ** Type soundness of [clean] *)

(** What one call of [clean] guarantees of its result and of the object it
    leaves behind. *)
Definition clean_ok (a : attr) (r : cleaned) : Prop :=
  wf_opt r.2 = true ∧
  match r.1 with Ret v => wf_val v = true ∧ conforms a v = true | Raise _ => True end.

Lemma wf_val_dict d : wf_val (PDict d) = true ↔
  NoDup (dkeys d) ∧ Forall (λ kv, wf_val kv.2 = true) d.
Proof. simpl. by rewrite andb_true_iff, bool_decide_eq_true, forallb_Forall. Qed.

Lemma wf_val_list l : wf_val (PList l) = true ↔ Forall (λ v, wf_val v = true) l.
Proof. apply forallb_Forall. Qed.

Lemma wf_dset d k v :
  wf_val (PDict d) = true → wf_val v = true → wf_val (PDict (dset d k v)) = true.
Proof.
  rewrite !wf_val_dict. intros [Hnd Hd] Hv. split; [by apply dset_NoDup|]. clear Hnd.
  induction Hd as [|[k' v'] d Hkv Hd IH]; simpl; [by repeat constructor|].
  case_decide; by constructor.
Qed.

Lemma wf_dget d k v : wf_val (PDict d) = true → dget d k = Some v → wf_val v = true.
Proof.
  rewrite wf_val_dict, Forall_forall. intros [_ Hd] Hk%dget_elem_of. by apply (Hd (k, v)).
Qed.

Lemma attribute_clean_ok b value r :
  wf_val b.(default) = true → wf_opt value = true → attribute_clean b value = Ret r →
  wf_val r = true ∧ (r = PNone → none_ok b = true).
Proof.
  unfold attribute_clean, none_ok. intros Hd Hv H.
  destruct value as [[]|]; simplify_eq; try done;
    [destruct (null b); by simplify_eq|].
  destruct (has_default b); simplify_eq. split; [done|]. intros ->.
  by rewrite bool_decide_true, orb_true_r.
Qed.

Lemma enum_clean_ok b enum value r :
  wf_val b.(default) = true → wf_opt value = true → enum_clean b enum value = Ret r →
  wf_val r = true ∧ (r = PNone → none_ok b = true).
Proof.
  unfold enum_clean. intros Hd Hv (v & Hv' & H)%outcome_bind_Ret.
  assert (r = v) as ->; [|by eapply attribute_clean_ok].
  destruct enum; [|by simplify_eq]. case_decide; [by simplify_eq|].
  by case_match; simplify_eq.
Qed.

Section clean_loops.
Context (items : list attr).
Context (Hitems : Forall (λ i, ∀ v, wf_opt v = true → clean_ok i (clean i v)) items).

Lemma clean_item_ok v found :
  wf_val v = true →
  let r := clean_item clean items v found in
  wf_val r.2 = true ∧
  match r.1 with
  | Ret (inl x) => wf_val x = true ∧ Exists (λ i, conforms i x = true) items
  | _ => True
  end.
Proof using Hitems.
  pose proof Hitems as Hall; clear Hitems; revert v found.
  induction Hall as [|i its Hi _ IH]; intros v found Hv; simpl; [done|].
  destruct (Hi (Some v) Hv) as [Hleft Hres].
  assert (wf_val (from_option id v (clean i (Some v)).2) = true) as Hl.
  { by destruct (clean i (Some v)).2. }
  destruct (clean i (Some v)) as [[x|e] v'] eqn:Hc; simpl in *.
  - destruct Hres; eauto.
  - destruct e; simpl; try done. specialize (IH _ (Some (SchemaError attribute errmsg)) Hl).
    destruct IH as [IH1 IH2]. split; [done|].
    destruct (clean_item clean its _ _).1 as [[]|]; naive_solver.
Qed.

Lemma clean_elements_ok lname index l :
  Forall (λ v, wf_val v = true) l →
  let r := clean_elements clean lname items index l in
  Forall (λ v, wf_val v = true) r.2 ∧ length r.2 = length l ∧
  (r.1 = Ret tt → Forall (λ x, Exists (λ i, conforms i x = true) items) r.2).
Proof using Hitems.
  intros Hl; revert index; induction Hl as [|v l Hv Hl IH]; intros index; simpl; [done|].
  destruct (clean_item_ok v None Hv) as [Hleft Hres].
  destruct (clean_item clean items v None) as [[[x|]|] v']; simpl in *;
    [|by repeat constructor..].
  destruct (IH (S index)) as (IH1 & IH2 & IH3).
  destruct (clean_elements clean lname items (S index) l) as [o l']; simpl in *.
  split; [by constructor; [apply Hres|]|]. split; [by rewrite IH2|].
  intros Ho. constructor; [apply Hres|auto].
Qed.
End clean_loops.

Lemma dhas_true {A} (d : list (string * A)) k : dhas d k = true ↔ ∃ v, dget d k = Some v.
Proof. unfold dhas. destruct (dget d k); naive_solver. Qed.

Section clean_dict_loops.
Context (attrs : list (string * attr)).
Context (Hattrs : Forall (λ ka, ∀ v, wf_opt v = true → clean_ok ka.2 (clean ka.2 v)) attrs).

(** Every key of [items] is cleaned, the other keys are left alone. *)
Lemma clean_keys_ok ad items data :
  Forall (λ kv : string * pyval, wf_val kv.2 = true) items → NoDup (dkeys items) →
  wf_val (PDict data) = true →
  let r := clean_keys clean attrs ad items data in
  wf_val (PDict r.2) = true ∧
  (r.1 = Ret tt → ∀ k v, dget r.2 k = Some v →
     (k ∈ dkeys items ∧ (ad = true ∨ dhas attrs k = true) ∧
      ∀ a, dget attrs k = Some a → conforms a v = true) ∨
     (k ∉ dkeys items ∧ dget data k = Some v)).
Proof using Hattrs.
  intros Hi; revert data.
  induction Hi as [|[key value] items Hv Hi IH]; intros data Hnd Hdata; cbn -[wf_val].
  { split; [done|]. intros _ k v Hk. right; split; [apply not_elem_of_nil|done]. }
  apply NoDup_cons in Hnd as [Hkey Hnd]. cbn -[wf_val] in Hv.
  destruct (negb ad && negb (dhas attrs key)) eqn:Hexp; [done|].
  rewrite dfind_dget. destruct (dget attrs key) as [a|] eqn:Ha; cbn -[wf_val].
  - assert (clean_ok a (clean a (Some value))) as [Hleft Hres].
    { eapply (Forall_forall _ attrs) in Hattrs; [|by eapply dget_elem_of]. by apply Hattrs. }
    destruct (clean a (Some value)) as [[r|e] v']; cbn -[wf_val] in *.
    + destruct Hres as [Hr Hconf].
      destruct (IH (dset data key r) Hnd) as [IH1 IH2]; [by apply wf_dset|].
      split; [done|]. intros Ho k v Hk. destruct (IH2 Ho k v Hk) as [(?&?&?)|[Hk' Hd]].
      * left; split; [by right|done].
      * destruct (decide (k = key)) as [->|Hne].
        -- left. split; [by left|]. rewrite dget_dset in Hd. simplify_eq.
           split; [|naive_solver]. right. apply dhas_true; eauto.
        -- right. rewrite dget_dset_ne in Hd by done.
           split; [by apply not_elem_of_cons|done].
    + split; [|done]. apply wf_dset; [done|]. by destruct v'.
  - destruct (IH data Hnd Hdata) as [IH1 IH2]. split; [done|]. intros Ho k v Hk.
    destruct (IH2 Ho k v Hk) as [(?&?&?)|[Hk' Hd]]; [left; split; [by right|done]|].
    destruct (decide (k = key)) as [->|Hne].
    + left. split; [by left|]. split; [|naive_solver].
      destruct ad; [by left|]. by unfold dhas in Hexp; rewrite Ha in Hexp.
    + right. split; [by apply not_elem_of_cons|done].
Qed.

Lemma clean_defaults_ok data :
  Forall (λ ka, attr_name ka.2 = ka.1) attrs → wf_val (PDict data) = true →
  let r := clean_defaults clean attrs data in
  wf_val (PDict r.2) = true ∧
  (r.1 = Ret tt → populated attrs r.2 = true ∧
     (∀ k v, dget data k = Some v → dget r.2 k = Some v) ∧
     (∀ k v, dget r.2 k = Some v → dget data k = Some v ∨
        ∃ a, (k, a) ∈ attrs ∧ conforms a v = true)).
Proof using Hattrs.
  pose proof Hattrs as Hall; clear Hattrs; revert data.
  induction Hall as [|[key a] attrs' Ha Hall IH]; intros data Hnames Hdata; cbn -[wf_val].
  { split; [done|]. intros _; split_and!; [done|auto|auto]. }
  apply Forall_cons in Hnames as [Hname Hnames]. cbn -[wf_val] in *. subst key.
  destruct (dhas data (attr_name a)) eqn:Hhas.
  { destruct (IH data Hnames Hdata) as [IH1 IH2]. split; [done|]. intros Ho.
    destruct (IH2 Ho) as (Hpop & Hkeep & Hnew). split_and!.
    - apply andb_true_iff; split; [|done]. destruct (base_of a); [|done].
      apply dhas_true in Hhas as [v Hv]. apply Hkeep in Hv. unfold dhas. rewrite Hv.
      by destruct (_ || _).
    - done.
    - intros k v Hk. destruct (Hnew k v Hk) as [?|(a' & ? & ?)]; [by left|].
      right; exists a'; split; [by right|done]. }
  destruct (base_of a) as [b|] eqn:Hb; [|done].
  destruct (required b || has_default b) eqn:Hreq.
  - destruct (Ha NOT_PROVIDED eq_refl) as [_ Hres].
    destruct (clean a NOT_PROVIDED) as [[r|e] v']; cbn -[wf_val] in *; [|done].
    destruct Hres as [Hr Hconf].
    destruct (IH (dset data (attr_name a) r) Hnames) as [IH1 IH2]; [by apply wf_dset|].
    split; [done|]. intros Ho. destruct (IH2 Ho) as (Hpop & Hkeep & Hnew). split_and!.
    + apply andb_true_iff; split; [|done]. unfold dhas.
      by rewrite (Hkeep _ _ (dget_dset _ _ _)).
    + intros k v Hk. apply Hkeep. rewrite dget_dset_ne; [done|]. intros <-.
      unfold dhas in Hhas. by rewrite Hk in Hhas.
    + intros k v Hk. destruct (Hnew k v Hk) as [Hd|(a' & ? & ?)].
      * destruct (decide (k = attr_name a)) as [->|Hne].
        -- rewrite dget_dset in Hd. simplify_eq. right; exists a; split; [by left|done].
        -- rewrite dget_dset_ne in Hd by done. by left.
      * right; exists a'; split; [by right|done].
  - destruct (IH data Hnames Hdata) as [IH1 IH2]. split; [done|]. intros Ho.
    destruct (IH2 Ho) as (Hpop & Hkeep & Hnew). split_and!; [|done|].
    + done.
    + intros k v Hk. destruct (Hnew k v Hk) as [?|(a' & ? & ?)]; [by left|].
      right; exists a'; split; [by right|done].
Qed.
End clean_dict_loops.

(** The scalar classes. *)
Lemma str_clean_ok b enum m value :
  wf_val b.(default) = true → wf_opt value = true →
  clean_ok (Str b enum m) (str_clean b enum value, value).
Proof.
  intros Hd Hv. split; [done|]. unfold str_clean. simpl.
  destruct (enum_clean b enum value) as [r|] eqn:He; simpl; [|done].
  destruct (enum_clean_ok _ _ _ _ Hd Hv He) as [Hr Hn].
  destruct r; simpl; try done; [by split; [|apply Hn]|..];
    destruct (negb (empty b) && String.eqb _ "") eqn:Hc; try done; split; try done; simpl;
    by destruct (empty b), (String.eqb _ "").
Qed.

Lemma bool_clean_ok b value :
  wf_val b.(default) = true → wf_opt value = true →
  clean_ok (Bool b) (bool_clean b value, value).
Proof.
  intros Hd Hv. split; [done|]. unfold bool_clean. simpl.
  destruct (attribute_clean b value) as [r|] eqn:He; simpl; [|done].
  destruct (attribute_clean_ok _ _ _ Hd Hv He) as [Hr Hn]. destruct r; simpl; auto.
Qed.

Lemma int_clean_ok b enum value :
  wf_val b.(default) = true → wf_opt value = true →
  clean_ok (Int b enum) (int_clean b enum value, value).
Proof.
  intros Hd Hv. split; [done|]. unfold int_clean. simpl.
  destruct (enum_clean b enum value) as [r|] eqn:He; simpl; [|done].
  destruct (enum_clean_ok _ _ _ _ Hd Hv He) as [Hr Hn]. destruct r as [| | |str| |]; simpl; auto.
  by destruct (PyStr.isdigit str).
Qed.

Lemma any_clean_ok b value :
  wf_val b.(default) = true → wf_opt value = true →
  clean_ok (Any b) (attribute_clean b value, value).
Proof.
  intros Hd Hv. split; [done|]. simpl.
  destruct (attribute_clean b value) as [r|] eqn:He; simpl; [|done].
  destruct (attribute_clean_ok _ _ _ Hd Hv He) as [Hr Hn]. split; [done|].
  destruct (decide (r = PNone)) as [->|Hne]; [by rewrite Hn, orb_true_r|].
  by rewrite bool_decide_true.
Qed.

Lemma left_behind_wf value v :
  wf_val v = true → wf_opt (left_behind value v) = true.
Proof. by destruct value. Qed.

Lemma list_clean_ok b enum items u value :
  wf_val b.(default) = true → wf_opt value = true →
  Forall (λ i, ∀ v, wf_opt v = true → clean_ok i (clean i v)) items →
  clean_ok (List b enum items u) (clean (List b enum items u) value).
Proof.
  intros Hd Hv Hitems. unfold clean_ok.
  cbn -[wf_val conforms]. destruct (enum_clean b enum value) as [r|] eqn:He; [|done].
  destruct (enum_clean_ok _ _ _ _ Hd Hv He) as [Hr Hn].
  destruct r as [| | | |l|]; try done.
  { split; [done|]. split; [done|]. simpl. by rewrite Hn, bool_decide_true. }
  destruct (negb (empty b) && (length l =? 0)) eqn:Hemp; [done|].
  assert (empty b || negb (length l =? 0) = true) as Hemp'.
  { by destruct (empty b), (length l =? 0). }
  destruct items as [|i items].
  { split; [done|]. split; [done|]. simpl. by rewrite Hemp', orb_true_r. }
  apply wf_val_list in Hr.
  destruct (clean_elements_ok _ Hitems (name b) 0 l Hr) as (Hl' & Hlen & Hconf).
  destruct (clean_elements clean (name b) (i :: items) 0 l) as [[[]|e] l']; cbn -[wf_val] in *.
  - split; [by apply left_behind_wf, wf_val_list|]. split; [by apply wf_val_list|].
    rewrite Hlen, Hemp'. apply orb_true_iff; right. simpl.
    apply forallb_Forall. eapply Forall_impl; [by apply Hconf|].
    intros x Hx. by apply (existsb_Exists (λ i, conforms i x) (i :: items)) in Hx.
  - split; [by apply left_behind_wf, wf_val_list|done].
Qed.

(** A dict whose keys are known, whose values conform and that is populated. *)
Lemma dict_conforms b attrs ad s u data :
  wf_val (PDict data) = true → NoDup (dkeys attrs) →
  (∀ k v, dget data k = Some v → (ad = true ∨ dhas attrs k = true) ∧
     ∀ a, dget attrs k = Some a → conforms a v = true) →
  (u = true ∨ populated attrs data = true) →
  conforms (Dict b attrs ad s u) (PDict data) = true.
Proof.
  intros [Hnd _]%wf_val_dict Hattrs Hdata Hpop. simpl. rewrite !andb_true_iff. split_and!.
  - destruct ad; [done|]. apply forallb_Forall, Forall_forall. intros k Hk.
    destruct (dget data k) as [v|] eqn:Hv; [|by apply dget_None in Hv].
    by destruct (Hdata k v Hv) as [[|] _].
  - apply forallb_Forall, Forall_forall. intros [k v] Hk.
    apply elem_of_dget in Hk; [|done]. destruct (Hdata k v Hk) as [_ Hc].
    rewrite dfind_dget. simpl. destruct (dget attrs k); simpl; auto.
  - apply orb_true_iff. done.
Qed.

Lemma dict_clean_ok b attrs ad s u value :
  wf_val b.(default) = true → NoDup (dkeys attrs) →
  Forall (λ ka, attr_name ka.2 = ka.1) attrs →
  wf_opt value = true →
  Forall (λ ka, ∀ v, wf_opt v = true → clean_ok ka.2 (clean ka.2 v)) attrs →
  clean_ok (Dict b attrs ad s u) (clean (Dict b attrs ad s u) value).
Proof.
  intros Hd Hnd Hnames Hv Hattrs. unfold clean_ok.
  cbn -[wf_val conforms]. destruct (attribute_clean b value) as [r|] eqn:He; [|done].
  destruct (attribute_clean_ok _ _ _ Hd Hv He) as [Hr Hn].
  destruct r as [| | | | |data]; try done.
  { split; [done|]. cbn -[wf_val]. specialize (Hn eq_refl).
    destruct (null b) eqn:Hnull; [by split|]. unfold none_ok in Hn. rewrite Hnull in Hn.
    apply andb_true_iff in Hn as [_ Hn%bool_decide_eq_true]. rewrite Hn. split; [done|].
    unfold conforms, none_ok. rewrite Hnull, Hn. simpl. destruct (has_default b) eqn:Hh; [done|].
    unfold attribute_clean in He. rewrite Hnull, Hh in He. by destruct value as [[]|]. }
  pose proof Hr as [Hndd Hdv]%wf_val_dict.
  destruct (clean_keys_ok _ Hattrs ad data data Hdv Hndd Hr) as [Hk1 Hk2].
  destruct (clean_keys clean attrs ad data data) as [[[]|e] data1]; cbn -[wf_val conforms] in *.
  2: { split; [by apply left_behind_wf|done]. }
  assert (∀ k v, dget data1 k = Some v → (ad = true ∨ dhas attrs k = true) ∧
    ∀ a, dget attrs k = Some a → conforms a v = true) as Hk.
  { intros k v Hkv. destruct (Hk2 eq_refl k v Hkv) as [(_ & ? & ?)|[Hk Hd1]]; [done|].
    apply dget_None in Hk. congruence. }
  destruct u.
  { split; [by apply left_behind_wf|]. split; [done|]. apply dict_conforms; auto. }
  destruct (clean_defaults_ok _ Hattrs data1 Hnames Hk1) as [Hd1 Hd2].
  destruct (clean_defaults clean attrs data1) as [[[]|e] data2]; cbn -[wf_val conforms] in *.
  2: { split; [by apply left_behind_wf|done]. }
  destruct (Hd2 eq_refl) as (Hpop & Hkeep & Hnew).
  split; [by apply left_behind_wf|]. split; [done|]. apply dict_conforms; auto.
  intros k v Hkv. destruct (Hnew k v Hkv) as [Hold|(a & Ha & Hc)]; [by apply Hk|].
  apply elem_of_dget in Ha; [|done]. split; [right; apply dhas_true; eauto|].
  intros a' Ha'. by simplify_eq.
Qed.

Lemma clean_sound_gen a value :
  wf_attr a = true → wf_opt value = true → clean_ok a (clean a value).
Proof.
  revert value. induction a as [b|b e m|b|b e|b e items u IH|b attrs ad s u IH|n|n nn ps r]
    using attr_ind'; intros value Ha Hv; cbn -[wf_val clean] in Ha.
  - by apply any_clean_ok.
  - by apply str_clean_ok.
  - by apply bool_clean_ok.
  - by apply int_clean_ok.
  - apply andb_true_iff in Ha as [Hd Hi%forallb_Forall]. apply list_clean_ok; [done..|].
    eapply Forall_impl; [by apply Forall_and; split; [exact IH|exact Hi]|]. naive_solver.
  - rewrite !andb_true_iff, bool_decide_eq_true, forallb_Forall in Ha.
    destruct Ha as [[Hd Hnd] Hall]. apply dict_clean_ok; [done|done| |done|].
    + eapply Forall_impl; [exact Hall|]. intros ka [Hn _]%andb_true_iff.
      by apply bool_decide_eq_true in Hn.
    + eapply Forall_impl; [by apply Forall_and; split; [exact IH|exact Hall]|].
      intros ka [Hka [_ Hw]%andb_true_iff]. auto.
  - done.
  - done.
Qed.

(** C31. Type soundness of the schema layer: whenever [clean] of a well-formed
    schema returns, for a provided or a missing argument, the value it returns
    is one the schema admits: the right type at every level, no unexpected key
    unless [additional_attrs], [None] only where it is allowed, and every
    attribute that is required or has a default present unless [update]. *)
Theorem clean_sound a value r :
  wf_attr a = true → wf_opt value = true →
  (clean a value).1 = Ret r → conforms a r = true.
Proof.
  intros Ha Hv Hr. destruct (clean_sound_gen a value Ha Hv) as [_ H].
  rewrite Hr in H. apply H.
Qed.

(** A dict schema used by the witnesses: a required integer, a string with a
    default and a private secret. *)
Definition sample_base (n : string) (req priv : bool) (d : option pyval) : Attribute :=
  Attribute_init blank n req false true priv [] false d.
Definition sample_attr : attr :=
  Dict (sample_base "opts" false false (Some (PDict [])))
    [("x", Int (sample_base "x" true false None) None);
     ("y", Str (sample_base "y" false false (Some (PStr "q"))) None 1024);
     ("secret", Str (sample_base "secret" false true None) None 1024)] false false false.

Lemma clean_sound_witness :
  conforms sample_attr (PDict [("x", PInt 42); ("y", PStr "q")]) = true.
Proof.
  apply (clean_sound sample_attr (Some (PDict [("x", PStr "42")]))); vm_compute; reflexivity.
Defined.

(** ** Confidentiality of [dump] *)

(** The attribute and the value found by following dict keys. *)
Fixpoint attr_at (a : attr) (path : list string) : option attr :=
  match path with
  | [] => Some a
  | k :: path => match a with
                 | Dict _ attrs _ _ _ => dget attrs k ≫= λ a', attr_at a' path
                 | _ => None
                 end
  end.

Fixpoint value_at (v : pyval) (path : list string) : option pyval :=
  match path with
  | [] => Some v
  | k :: path => match v with
                 | PDict d => dget d k ≫= λ v', value_at v' path
                 | _ => None
                 end
  end.

Definition hides (a : attr) : bool :=
  match a with
  | List _ _ _ _ => has_private a
  | _ => match base_of a with Some b => b.(private) | None => false end
  end.

Lemma dump_hides a v : hides a = true → dump a v = masked.
Proof. destruct a; simpl; try done; by intros ->. Qed.

Lemma dget_fmap {A B} (f : string → A → B) (d : list (string * A)) k :
  dget ((λ kv, (kv.1, f kv.1 kv.2)) <$> d) k = f k <$> dget d k.
Proof.
  induction d as [|[k' v] d IH]; simpl; [done|]. case_decide; subst; done.
Qed.

(** Confidentiality: whatever value is dumped, following any path of dict
    keys to an attribute that hides its value (a private attribute, or a list
    whose items hold one) finds in the dump nothing but the mask. *)
Theorem dump_masks_private a a' path v x :
  attr_at a path = Some a' → hides a' = true →
  value_at (dump a v) path = Some x → x = masked.
Proof.
  revert a v; induction path as [|k path IH]; intros a v Ha Hh Hx; simpl in *.
  { simplify_eq. by apply dump_hides. }
  destruct a as [| | | | |b attrs ad s u| |]; try done.
  apply bind_Some in Ha as (a1 & Hk & Ha). simpl in Hx.
  destruct (private b); [done|]. destruct v as [| | | | |d]; try done.
  rewrite (dget_fmap (λ k v, from_option id v (dfind (λ a', dump a' v) attrs k))) in Hx.
  apply bind_Some in Hx as (v1 & Hv1 & Hx).
  apply fmap_Some in Hv1 as (v0 & Hv0 & ->).
  rewrite dfind_dget, Hk in Hx. simpl in Hx. eauto.
Qed.

Lemma dump_masks_private_witness :
  from_option id PNone (value_at (dump sample_attr
    (PDict [("x", PInt 1); ("secret", PStr "hunter2")])) ["secret"]) = masked.
Proof.
  apply (dump_masks_private sample_attr (Str (sample_base "secret" false true None) None 1024)
           ["secret"] (PDict [("x", PInt 1); ("secret", PStr "hunter2")]));
    vm_compute; reflexivity.
Defined.

(** [Password.__init__] does not make the attribute private: the value of a
    [Password] that does not also pass [private=True] is dumped in clear. *)
Theorem password_not_private n req null_ empty_ vs reg d ml v :
  dump (Password_init n req null_ empty_ false vs reg d ml) v = v.
Proof. reflexivity. Qed.

(** ** Validation *)

(** [List.validate] with [unique] replaces a dict element by the tuple of its
    items before validating it, so none of the dict's own attributes is
    validated: the outcome does not depend on them. *)
Theorem unique_list_skips_validation b e b' attrs ad s u d :
  forallb (λ kv, hashable kv.2) d = true →
  validate (List b e [Dict b' attrs ad s u] true) (PList [PDict d]) =
  attribute_validate b (PList [PDict d]).
Proof.
  intros Hd. cbn -[pretty VErrors.extend VErrors.check attribute_validate].
  rewrite Hd. cbn -[pretty VErrors.extend VErrors.check attribute_validate].
  assert (∀ l, validate_attrs validate (name b') attrs
    (PList ((λ kv : string * pyval, PList [PStr kv.1; kv.2]) <$> l)) [] = Ret []) as Hskip.
  { intros l. induction attrs as [|[k a] attrs IH]; [done|].
    cbn -[py_eq]. replace (existsb _ _) with false; [done|].
    symmetry. clear. induction l as [|kv l IH]; [done|]. done. }
  rewrite Hskip. done.
Qed.

(** A dict whose only attribute never validates. *)
Definition sample_invalid : list (string * attr) :=
  [("port", Int (Attribute_init blank "port" false false true false
     [λ _, Raise (ValueError "Should be between 1 and 65535")] false None) None)].

Lemma unique_list_skips_validation_witness :
  validate (List (sample_base "listen" false false None) None
    [Dict (sample_base "l" false false None) sample_invalid false false false] true)
    (PList [PDict [("port", PInt 0)]]) = Ret tt ∧
  is_ret (validate (List (sample_base "listen" false false None) None
    [Dict (sample_base "l" false false None) sample_invalid false false false] false)
    (PList [PDict [("port", PInt 0)]])) = false.
Proof.
  split; [|vm_compute; reflexivity].
  apply (unique_list_skips_validation (sample_base "listen" false false None) None
    (sample_base "l" false false None) sample_invalid false false false [("port", PInt 0)]).
  vm_compute. reflexivity.
Defined.

(** ** The calling convention of [accepts] *)

(** The reference: every parameter, in order, is cleaned and validated with its
    own schema, whichever way its value was passed. *)
Fixpoint run_params (ps : list (attr * option pyval)) (verrors : list ValidationError) :
    outcome exn (list pyval * list ValidationError) :=
  match ps with
  | [] => Ret ([], verrors)
  | (a, value) :: ps =>
      '(v, verrors) ← clean_and_validate a value verrors;
      '(vs, verrors) ← run_params ps verrors;
      Ret (v :: vs, verrors)
  end.

Lemma run_params_app ps1 ps2 verrors :
  run_params (ps1 ++ ps2) verrors =
  '(vs1, verrors) ← run_params ps1 verrors;
  '(vs2, verrors) ← run_params ps2 verrors;
  Ret (vs1 ++ vs2, verrors).
Proof.
  revert verrors; induction ps1 as [|[a v] ps1 IH]; intros verrors; simpl.
  - by destruct (run_params ps2 verrors) as [[]|].
  - destruct (clean_and_validate a v verrors) as [[v' ve]|]; simpl; [|done].
    rewrite IH. destruct (run_params ps1 ve) as [[vs1 ve1]|]; simpl; [|done].
    by destruct (run_params ps2 ve1) as [[]|].
Qed.

Lemma run_params_length ps verrors vs ve :
  run_params ps verrors = Ret (vs, ve) → length vs = length ps.
Proof.
  revert verrors vs ve; induction ps as [|[a v] ps IH]; intros verrors vs ve; simpl.
  - by intros [= <- _].
  - intros ([v' ve'] & _ & ([vs' ve''] & Hr & [= <- _])%outcome_bind_Ret)%outcome_bind_Ret.
    simpl. f_equal. eauto.
Qed.

Lemma positional_args_spec accepts i args verrors :
  i + length args ≤ length accepts →
  positional_args accepts i args verrors =
  run_params (zip (drop i accepts) (Some <$> args)) verrors.
Proof.
  revert i verrors; induction args as [|v args IH]; intros i verrors Hi; simpl in *.
  { by destruct (drop i accepts). }
  destruct (lookup_lt_is_Some_2 accepts i) as [a Ha]; [lia|]. rewrite Ha.
  rewrite (drop_S _ _ _ Ha). simpl.
  destruct (clean_and_validate a (Some v) verrors) as [[v' ve]|]; simpl; [|done].
  by rewrite IH by lia.
Qed.

(** [kwargs] after the values [vs] were stored under [names]. *)
Definition store_all (kw : pydict) (names : list string) (vs : list pyval) : pydict :=
  foldl (λ d kv, dset d kv.1 kv.2) kw (zip names vs).

Lemma store_all_notin kw names vs k : k ∉ names → dget (store_all kw names vs) k = dget kw k.
Proof.
  unfold store_all. revert kw vs; induction names as [|n names IH]; intros kw [|v vs] Hk; try done.
  simpl. apply not_elem_of_cons in Hk as [Hn Hk].
  rewrite IH by done. by apply dget_dset_ne.
Qed.

Lemma keyword_args_spec accepts i names kw verrors :
  NoDup names → i + length names ≤ length accepts →
  keyword_args accepts i names kw verrors =
  '(vs, verrors) ← run_params (zip (drop i accepts) (dget kw <$> names)) verrors;
  Ret (store_all kw names vs, verrors).
Proof.
  revert i kw verrors; induction names as [|n names IH]; intros i kw verrors Hnd Hi; simpl in *.
  { by destruct (drop i accepts). }
  apply NoDup_cons in Hnd as [Hn Hnd].
  destruct (lookup_lt_is_Some_2 accepts i) as [a Ha]; [lia|]. rewrite Ha.
  rewrite (drop_S _ _ _ Ha). simpl.
  assert ((dget kw n = dget kw n → ∀ v', dget (dset kw n v') <$> names = dget kw <$> names)) as Hkw.
  { intros _ v'. apply list_fmap_ext. intros j k Hk. apply dget_dset_ne. intros ->.
    apply Hn. by eapply list_elem_of_lookup_2. }
  destruct (dget kw n); (destruct (clean_and_validate a _ verrors) as [[v' ve]|]; simpl; [|done];
    rewrite IH by (done || lia); rewrite Hkw by done;
    by destruct (run_params _ ve) as [[]|]).
Qed.

Lemma dkeys_store_all kw names vs k :
  k ∈ dkeys (store_all kw names vs) → k ∈ dkeys kw ∨ k ∈ names.
Proof.
  unfold store_all. revert kw vs; induction names as [|n names IH]; intros kw [|v vs] Hk; simpl in *;
    auto. apply IH in Hk as [Hk|Hk]; [|right; by right].
  rewrite dkeys_dset in Hk. case_decide; set_solver.
Qed.

Lemma mapO_store_all kw names vs (e : exn) :
  NoDup names → length vs = length names →
  mapO (λ k, match dget (store_all kw names vs) k with Some v => Ret v | None => Raise e end) names
  = Ret vs.
Proof.
  intros Hnd Hl. apply mapO_Ret, Forall2_same_length_lookup. split; [done|].
  intros i k v Hk Hv. cut (dget (store_all kw names vs) k = Some v); [by intros ->|].
  revert kw vs i Hl Hk Hv; induction Hnd as [|n names Hn Hnd IH]; intros kw [|v' vs] i Hl Hk Hv;
    try done. destruct i as [|i]; simpl in *; simplify_eq.
  - unfold store_all; simpl. etransitivity; [by apply store_all_notin|]. apply dget_dset.
  - unfold store_all; simpl. by apply (IH _ vs i).
Qed.

(** C32. The calling convention of the API: when the method has one schema per
    parameter and every keyword names a parameter that was not passed by
    position, the body runs with exactly the cleaned value of every parameter
    in order, whichever way it was passed, and with its default when it was
    not passed at all; the validation errors of all parameters are raised
    together. *)
Theorem accepts_spec accepts params args kwargs :
  length accepts = length params → NoDup params → length args ≤ length params →
  Forall (λ k, k ∈ drop (length args) params) (dkeys kwargs) →
  nf accepts params args kwargs =
  '(vs, verrors) ← run_params (zip accepts ((Some <$> args) ++
      (dget kwargs <$> drop (length args) params))) [];
  _ ← VErrors.check verrors;
  Ret vs.
Proof.
  intros Hlen Hnd Hargs Hkw. unfold nf, clean_and_validate_args.
  rewrite positional_args_spec by lia. rewrite drop_0.
  rewrite <-(take_drop (length args) accepts) at 2.
  rewrite zip_with_app, run_params_app by (rewrite length_take, length_fmap; lia).
  replace (zip accepts (Some <$> args)) with (zip (take (length args) accepts) (Some <$> args)).
  2: { rewrite <-(take_drop (length args) accepts) at 2.
       rewrite <-(app_nil_r (Some <$> args)) at 2.
       rewrite zip_with_app by (rewrite length_take, length_fmap; lia).
       by rewrite zip_with_nil_r, app_nil_r. }
  destruct (run_params (zip (take _ accepts) _) []) as [[vs1 ve1]|] eqn:H1; simpl; [|done].
  assert (NoDup (drop (length args) params)) as Hnd'.
  { rewrite <-(take_drop (length args) params) in Hnd. by apply NoDup_app in Hnd as (_ & _ & ?). }
  rewrite keyword_args_spec by (done || rewrite length_drop; lia).
  destruct (run_params (zip (drop _ accepts) _) ve1) as [[vs2 ve2]|] eqn:H2; simpl; [|done].
  destruct (VErrors.check ve2); simpl; [|done].
  apply run_params_length in H1, H2.
  rewrite length_zip_with, length_take, length_fmap in H1.
  rewrite length_zip_with, length_fmap, !length_drop in H2.
  assert (length vs1 = length args) as Hvs1 by lia.
  unfold bind_args. rewrite Hvs1, bool_decide_true by done. simpl.
  replace (forallb _ _) with true.
  2: { symmetry. apply forallb_Forall, Forall_forall. intros k Hk. apply bool_decide_eq_true.
       apply dkeys_store_all in Hk as [Hk|Hk]; [|done].
       rewrite Forall_forall in Hkw. by apply Hkw. }
  rewrite mapO_store_all; [done|done|]. rewrite length_drop. lia.
Qed.

Lemma accepts_spec_witness :
  nf [Int (sample_base "id" true false None) None; sample_attr] ["id"; "opts"]
     [PInt 3] [("opts", PDict [("x", PInt 2)])] =
  Ret [PInt 3; PDict [("x", PInt 2); ("y", PStr "q")]].
Proof.
  rewrite (accepts_spec [Int (sample_base "id" true false None) None; sample_attr] ["id"; "opts"]
     [PInt 3] [("opts", PDict [("x", PInt 2)])]).
  - vm_compute. reflexivity.
  - reflexivity.
  - apply (bool_decide_unpack _). vm_compute. exact I.
  - simpl. lia.
  - apply (bool_decide_unpack _). vm_compute. exact I.
Defined.
