(* ===== verification/SchemaResolve.v ===== *)
(** * Resolving schemas: Schemas, copy, resolve, Patch, resolver, resolve_methods

    When the plugins are loaded every schema that a method accepts is resolved: a
    [Ref] becomes a copy of the registered schema of that name, a [Patch] a changed
    copy.  Resolving a list or a dict replaces its elements in place, one after the
    other, and registers it at the end, so a failure leaves behind what was done
    before; a method whose schemas are not all known yet is tried again.  The
    recursion of Python is bounded by [fuel].  Also here: the conversions of a cron
    schedule to and from the columns of a table. *)

From S2P Require Import Prelude PyValue Schema.

Definition recursion_error : exn := RuntimeError "maximum recursion depth exceeded".

(** The registry: a dict of schemas by name. *)
Notation Schemas := (list (string * attr)).

(** [Schemas.add] *)
Definition schemas_add (schema : attr) (s : Schemas) : outcome exn Schemas :=
  if dhas s (attr_name schema) then
    Raise (ValueError ("Schema " +:+ String double_quote (attr_name schema +:+ String double_quote " is already registered")))
  else Ret (dset s (attr_name schema) schema).

(** [copy]: a [Ref] or a [Patch] has no such method. *)
Fixpoint copy (a : attr) : outcome exn attr :=
  match a with
  | Any b => Ret (Any (set_register false b))
  | Str b e m => Ret (Str (set_register false b) e m)
  | Bool b => Ret (Bool (set_register false b))
  | Int b e => Ret (Int (set_register false b) e)
  | List b e items u => items ← mapO copy items; Ret (List (set_register false b) e items u)
  | Dict b attrs ad s u =>
      attrs ← mapO (λ kv, c ← copy kv.2; Ret (kv.1, c)) attrs;
      Ret (Dict (set_register false b) attrs ad s u)
  | Ref _ | Patch _ _ _ _ => Raise (AttributeError "object has no attribute 'copy'")
  end.

(** What [resolve] returns or raises, the object it was called on as it is then,
    and the registry. *)
Definition resolved : Type := outcome exn attr * attr * Schemas.

(** [if self.register: schemas.add(self)], and [return self] *)
Definition register_self (b : Attribute) (self : attr) (s : Schemas) : resolved :=
  if b.(register) then
    match schemas_add self s with
    | Ret s => (Ret self, self, s)
    | Raise e => (Raise e, self, s)
    end
  else (Ret self, self, s).

Section elements.
Context (resolve : attr → Schemas → resolved).

(** [self.items[index] = i.resolve(schemas)] *)
Fixpoint resolve_items (items : list attr) (s : Schemas) : outcome exn unit * list attr * Schemas :=
  match items with
  | [] => (Ret tt, [], s)
  | i :: items =>
      match resolve i s with
      | (Ret r, _, s) => let '(o, items, s) := resolve_items items s in (o, r :: items, s)
      | (Raise e, i, s) => (Raise e, i :: items, s)
      end
  end.

(** [self.attrs[name] = attr.resolve(schemas)] *)
Fixpoint resolve_attrs (attrs : list (string * attr)) (s : Schemas) :
    outcome exn unit * list (string * attr) * Schemas :=
  match attrs with
  | [] => (Ret tt, [], s)
  | (name, i) :: attrs =>
      match resolve i s with
      | (Ret r, _, s) => let '(o, attrs, s) := resolve_attrs attrs s in (o, (name, r) :: attrs, s)
      | (Raise e, i, s) => (Raise e, (name, i) :: attrs, s)
      end
  end.

(** One operation of a [Patch] on the copied dict. *)
Definition apply_patch (p : patch) (b : Attribute) (attrs : list (string * attr)) (update : bool) (s : Schemas) :
    outcome exn (Attribute * list (string * attr) * bool) * Schemas :=
  match p with
  | PAdd new => (Ret (b, dset attrs (attr_name new) new, update), s)
  | PRm name => (if dhas attrs name then Ret (b, ddel attrs name, update) else Raise (KeyError name), s)
  | PEdit name method =>
      match dget attrs name with
      | None => (Raise (KeyError name), s)
      | Some a =>
          match method with
          | None => (Ret (b, attrs, update), s)
          | Some f =>
              match resolve (with_base f a) s with
              | (Ret r, _, s) => (Ret (b, dset attrs name r, update), s)
              | (Raise e, _, s) => (Raise e, s)
              end
          end
      end
  | PAttr f u => (Ret (f b, attrs, from_option id update u), s)
  end.

Fixpoint apply_patches (ps : list patch) (b : Attribute) (attrs : list (string * attr)) (update : bool) (s : Schemas) :
    outcome exn (Attribute * list (string * attr) * bool) * Schemas :=
  match ps with
  | [] => (Ret (b, attrs, update), s)
  | p :: ps =>
      match apply_patch p b attrs update s with
      | (Ret (b, attrs, update), s) => apply_patches ps b attrs update s
      | (Raise e, s) => (Raise e, s)
      end
  end.
End elements.

(** [Attribute.resolve], [List.resolve], [Dict.resolve], [Ref.resolve] and
    [Patch.resolve] *)
Fixpoint resolve (fuel : nat) (a : attr) (s : Schemas) : resolved :=
  match fuel with
  | 0 => (Raise recursion_error, a, s)
  | S fuel =>
      match a with
      | Any b | Str b _ _ | Bool b | Int b _ => register_self b a s
      | List b e items u =>
          match resolve_items (resolve fuel) items s with
          | (Ret _, items, s) => register_self b (List b e items u) s
          | (Raise ex, items, s) => (Raise ex, List b e items u, s)
          end
      | Dict b attrs ad st u =>
          match resolve_attrs (resolve fuel) attrs s with
          | (Ret _, attrs, s) => register_self b (Dict b attrs ad st u) s
          | (Raise ex, attrs, s) => (Raise ex, Dict b attrs ad st u, s)
          end
      | Ref name =>
          match dget s name with
          | None => (Raise (ResolverError ("Schema " +:+ name +:+ " does not exist")), a, s)
          | Some schema => (copy schema, a, s)
          end
      | Patch name newname patches register =>
          match dget s name with
          | None => (Raise (ResolverError ("Schema " +:+ name +:+ " not found")), a, s)
          | Some (Dict _ _ _ _ _ as schema) =>
              match copy schema with
              | Ret (Dict b attrs ad st u) =>
                  match apply_patches (resolve fuel) patches (set_name newname b) attrs u s with
                  | (Ret (b, attrs, u), s) =>
                      let new := Dict b attrs ad st u in
                      if register : bool then
                        match schemas_add new s with
                        | Ret s => (Ret new, a, s)
                        | Raise e => (Raise e, a, s)
                        end
                      else (Ret new, a, s)
                  | (Raise e, s) => (Raise e, a, s)
                  end
              | Ret _ => (Raise (ValueError "Patch non-dict is not allowed"), a, s)
              | Raise e => (Raise e, a, s)
              end
          | Some _ => (Raise (ValueError "Patch non-dict is not allowed"), a, s)
          end
      end
  end.

(** ** Methods *)

(** An attribute of a service: its name, whether it can be called, and the schemas
    it accepts, if it has any. *)
Record Meth : Type := mkMeth { m_name : string; m_callable : bool; m_accepts : option (list attr) }.

(** [new_params.append(p.resolve(schemas))] for every parameter: the new list, and
    the old parameters as they are left. *)
Fixpoint resolve_params (fuel : nat) (ps : list attr) (s : Schemas) : outcome exn (list attr) * list attr * Schemas :=
  match ps with
  | [] => (Ret [], [], s)
  | p :: ps =>
      match resolve fuel p s with
      | (Ret r, p, s) =>
          let '(o, ps, s) := resolve_params fuel ps s in ((rs ← o; Ret (r :: rs)), p :: ps, s)
      | (Raise e, p, s) => (Raise e, p :: ps, s)
      end
  end.

(** [resolver(schemas, f)] *)
Definition resolver (fuel : nat) (f : Meth) (s : Schemas) : outcome exn unit * Meth * Schemas :=
  if negb f.(m_callable) then (Ret tt, f, s)
  else match f.(m_accepts) with
  | None => (Ret tt, f, s)
  | Some ps =>
      match resolve_params fuel ps s with
      | (Ret new_params, _, s) => (Ret tt, mkMeth f.(m_name) f.(m_callable) (Some new_params), s)
      | (Raise e, ps, s) => (Raise e, mkMeth f.(m_name) f.(m_callable) (Some ps), s)
      end
  end.

(** One turn of the [while] loop: the methods that were resolved, and the others. *)
Fixpoint resolve_pass (fuel : nat) (to_resolve : list Meth) (s : Schemas) :
    outcome exn (list Meth * list Meth) * Schemas :=
  match to_resolve with
  | [] => (Ret ([], []), s)
  | f :: fs =>
      match resolver fuel f s with
      | (Ret _, f, s) =>
          let '(o, s) := resolve_pass fuel fs s in ((dr ← o; Ret (f :: dr.1, dr.2)), s)
      | (Raise (ResolverError _), f, s) =>
          let '(o, s) := resolve_pass fuel fs s in ((dr ← o; Ret (dr.1, f :: dr.2)), s)
      | (Raise e, _, s) => (Raise e, s)
      end
  end.

Definition unresolved_error : exn := ValueError "Not all schemas could be resolved".

(** [resolve_methods]: [None] when [turns] do not suffice. *)
Fixpoint resolve_methods (turns fuel : nat) (to_resolve : list Meth) (s : Schemas) :
    option (outcome exn (list Meth) * Schemas) :=
  match to_resolve with
  | [] => Some (Ret [], s)
  | _ =>
      match turns with
      | 0 => None
      | S turns =>
          match resolve_pass fuel to_resolve s with
          | (Raise e, s) => Some (Raise e, s)
          | (Ret ([], _), s) => Some (Raise unresolved_error, s)
          | (Ret (fs, rest), s) =>
              match resolve_methods turns fuel rest s with
              | Some (o, s) => Some ((gs ← o; Ret (fs ++ gs)), s)
              | None => None
              end
          end
      end
  end.

(** ** Cron schedules *)

Module Cron.

Definition FIELDS : list string := ["minute"; "hour"; "dom"; "month"; "dow"].
Definition db_fields : list string := ["minute"; "hour"; "daymonth"; "month"; "dayweek"].

(** The fields with their columns, and the two times. *)
Definition columns : list (string * string) := zip FIELDS db_fields.
Definition times : list (string * string) := [("begin", "begin"); ("end", "end")].

(** What the conversions use of Python's values: [None], dicts, texts, [str], [in] and
    indexing. *)
Class Value (V : Type) : Type := {
  v_None : V;
  is_None : V → bool;
  v_dict : list (string * V) → V;
  dict_of : V → option (list (string * V));
  v_text : string → V;
  str_of : V → string;
  v_in : string → V → outcome exn bool;
  v_item : V → string → outcome exn V;
}.

#[global] Instance pyval_Value : Value pyval := {
  v_None := PNone;
  is_None v := match v with PNone => true | _ => false end;
  v_dict := PDict;
  dict_of v := match v with PDict d => Some d | _ => None end;
  v_text := PStr;
  str_of := py_str;
  v_in field v := py_in (PStr field) v;
  v_item := item;
}.

Section values.
Context {V : Type} `{!Value V}.
Notation vdict := (list (string * V)).

(** [if field in schedule: data_dict[key_prefix + ...] = schedule[field]] *)
Fixpoint fill (key_prefix : string) (fields : list (string * string)) (schedule : V) (data_dict : vdict) :
    outcome exn vdict :=
  match fields with
  | [] => Ret data_dict
  | (field, db_field) :: fields =>
      there ← v_in field schedule;
      if there : bool then
        v ← v_item schedule field;
        fill key_prefix fields schedule (dset data_dict (key_prefix +:+ db_field) v)
      else fill key_prefix fields schedule data_dict
  end.

Definition convert_schedule_to_db_format (data_dict : vdict) (schedule_name key_prefix : string) (begin_end : bool) :
    outcome exn vdict :=
  match dget data_dict schedule_name with
  | None => Ret data_dict
  | Some schedule =>
      let data_dict := ddel data_dict schedule_name in
      let fields := columns ++ if begin_end then times else [] in
      if is_None schedule then Ret (foldl (λ d f, dset d (key_prefix +:+ f.2) v_None) data_dict fields)
      else fill key_prefix fields schedule data_dict
  end.

(** The first five characters of a text. *)
Definition first5 (s : string) : string := String.substring 0 5 s.

(** One turn of either loop of [convert_db_format_to_schedule]; [show] is what is
    stored of the value. *)
Definition collect (schedule_name key_prefix : string) (show : V → V) (data_dict : vdict)
    (f : string * string) : outcome exn vdict :=
  let key := key_prefix +:+ f.2 in
  match dget data_dict key with
  | None => Ret data_dict
  | Some value =>
      let data_dict := ddel data_dict key in
      if is_None value then Ret (dset data_dict schedule_name v_None)
      else
        match dget data_dict schedule_name with
        | None => Raise (KeyError schedule_name)
        | Some w =>
            if is_None w then Ret data_dict
            else match dict_of w with
                 | Some d => Ret (dset data_dict schedule_name (v_dict (dset d f.1 (show value))))
                 | None => Raise (TypeError "object does not support item assignment")
                 end
        end
  end.

Fixpoint collect_all (schedule_name key_prefix : string) (show : V → V) (fields : list (string * string))
    (data_dict : vdict) : outcome exn vdict :=
  match fields with
  | [] => Ret data_dict
  | f :: fields =>
      data_dict ← collect schedule_name key_prefix show data_dict f;
      collect_all schedule_name key_prefix show fields data_dict
  end.

(** A time is shown by the first five characters of its text. *)
Definition show_time (v : V) : V := v_text (first5 (str_of v)).

Definition convert_db_format_to_schedule (data_dict : vdict) (schedule_name key_prefix : string) (begin_end : bool) :
    outcome exn vdict :=
  let data_dict := dset data_dict schedule_name (v_dict []) in
  data_dict ← collect_all schedule_name key_prefix (λ v, v) columns data_dict;
  if begin_end then collect_all schedule_name key_prefix show_time times data_dict else Ret data_dict.
End values.
End Cron.
