(* ===== verification/SchemaResolveFacts.v ===== *)
(** * Theorems on resolving schemas

    Resolving ends, and a method whose schemas were resolved holds no reference any
    more, so that cleaning its arguments fails only with the errors of the schema. *)

From S2P Require Import Prelude PyValue Schema SchemaFacts SchemaResolve.

(** ** References *)

(** No [Ref] and no [Patch] at any depth. *)
Fixpoint ground (a : attr) : bool :=
  match a with
  | Any _ | Str _ _ _ | Bool _ | Int _ _ => true
  | List _ _ items _ => forallb ground items
  | Dict _ attrs _ _ _ => forallb (λ kv, ground kv.2) attrs
  | Ref _ | Patch _ _ _ _ => false
  end.

(** The patches add only attributes without references: they are not resolved. *)
Fixpoint adds_ground (a : attr) : bool :=
  match a with
  | Any _ | Str _ _ _ | Bool _ | Int _ _ | Ref _ => true
  | List _ _ items _ => forallb adds_ground items
  | Dict _ attrs _ _ _ => forallb (λ kv, adds_ground kv.2) attrs
  | Patch _ _ ps _ => forallb (λ p, match p with PAdd a => ground a | _ => true end) ps
  end.

Notation ground_attrs := (forallb (λ kv : string * attr, ground kv.2)).

Lemma forallb_impl {A} (p q : A → bool) l : Forall (λ x, p x = true → q x = true) l → forallb p l = true → forallb q l = true.
Proof. induction 1 as [|x l Hx Hl IH]; cbn; [done|]. rewrite !andb_true_iff. naive_solver. Qed.

Lemma ground_adds a : ground a = true → adds_ground a = true.
Proof.
  induction a as [| | | |b e items u IH|b attrs ad st u IH| |] using attr_ind'; cbn; try done; by apply forallb_impl.
Qed.

Lemma copy_ground a c : copy a = Ret c → ground c = true.
Proof.
  revert c. induction a as [| | | |b e items u IH|b attrs ad st u IH| |] using attr_ind'; intros c; cbn [copy];
    try (by intros [= <-]); try done.
  - intros (items' & Hm & [= <-])%outcome_bind_Ret. cbn. revert items' Hm.
    induction IH as [|i items Hi _ IHi]; intros items'; [by intros [= <-]|]. cbn.
    intros (c & Hc & (cs & Hcs & [= <-])%outcome_bind_Ret)%outcome_bind_Ret. cbn. by rewrite (Hi c), (IHi cs).
  - intros (attrs' & Hm & [= <-])%outcome_bind_Ret. cbn. revert attrs' Hm.
    induction IH as [|[k i] attrs Hi _ IHi]; intros attrs'; [by intros [= <-]|]. cbn.
    intros (kc & (c & Hc & [= <-])%outcome_bind_Ret & (cs & Hcs & [= <-])%outcome_bind_Ret)%outcome_bind_Ret. cbn in *.
    by rewrite (Hi c), (IHi cs).
Qed.

Lemma copy_dict b attrs ad st u c :
  copy (Dict b attrs ad st u) = Ret c → ∃ attrs', c = Dict (set_register false b) attrs' ad st u ∧ ground_attrs attrs' = true.
Proof.
  intros Hc. pose proof (copy_ground _ _ Hc) as Hg. cbn [copy] in Hc.
  apply outcome_bind_Ret in Hc as (attrs' & _ & [= <-]). eauto.
Qed.

Lemma ground_dset s k a : ground_attrs s = true → ground a = true → ground_attrs (dset s k a) = true.
Proof.
  intros Hs Ha. induction s as [|[k' a'] s IH]; cbn in *; [by rewrite Ha|].
  apply andb_true_iff in Hs as [Ha' Hs]. case_decide; cbn; [by rewrite Ha, Hs|by rewrite Ha', IH].
Qed.

Lemma ground_ddel s k : ground_attrs s = true → ground_attrs (ddel s k) = true.
Proof.
  induction s as [|[k' a'] s IH]; cbn; [done|]. intros [Ha' Hs]%andb_true_iff. case_decide; [done|]. cbn. by rewrite Ha', IH.
Qed.

Lemma ground_dget s k a : ground_attrs s = true → dget s k = Some a → ground a = true.
Proof.
  induction s as [|[k' a'] s IH]; cbn; [done|]. intros [Ha' Hs]%andb_true_iff. case_decide; [congruence|auto].
Qed.

Lemma ground_with_base f a : ground (with_base f a) = ground a.
Proof. by destruct a. Qed.

Lemma schemas_add_ground a s s' :
  ground a = true → ground_attrs s = true → schemas_add a s = Ret s' → ground_attrs s' = true.
Proof. unfold schemas_add. case_match; [done|]. intros ? ? [= <-]. by apply ground_dset. Qed.

(** What [resolve] gives and leaves behind. *)
Definition resolves_well (r : resolved) : Prop :=
  let '(o, left_, s) := r in
  ground_attrs s = true ∧ adds_ground left_ = true ∧ ∀ a, o = Ret a → ground a = true.

Lemma register_self_well b a s : ground a = true → ground_attrs s = true → resolves_well (register_self b a s).
Proof.
  intros Ha Hs. pose proof (ground_adds a Ha). unfold register_self. destruct (register b); [|naive_solver].
  destruct (schemas_add a s) eqn:Hadd; [|naive_solver]. split_and!; [|done|naive_solver].
  by apply (schemas_add_ground a s).
Qed.

Section elements.
Context (resolve : attr → Schemas → resolved).
Context (Hres : ∀ a s, adds_ground a = true → ground_attrs s = true → resolves_well (resolve a s)).

Lemma resolve_items_well items s :
  forallb adds_ground items = true → ground_attrs s = true →
  let '(o, items', s') := resolve_items resolve items s in
  ground_attrs s' = true ∧ forallb adds_ground items' = true ∧ (o = Ret tt → forallb ground items' = true).
Proof using Hres.
  revert s. induction items as [|i items IH]; intros s Hi Hs; [done|]. cbn in Hi |- *.
  apply andb_true_iff in Hi as [Hi Hitems]. pose proof (Hres i s Hi Hs) as Hw.
  destruct (resolve i s) as [[[r|e] i'] s1]; destruct Hw as (Hs1 & Hl & Hr).
  - specialize (IH s1 Hitems Hs1). destruct (resolve_items resolve items s1) as [[o items'] s2]. cbn.
    rewrite (Hr r eq_refl), (ground_adds r (Hr r eq_refl)). naive_solver.
  - cbn. rewrite Hl, Hitems. done.
Qed.

Lemma resolve_attrs_well attrs s :
  forallb (λ kv, adds_ground kv.2) attrs = true → ground_attrs s = true →
  let '(o, attrs', s') := resolve_attrs resolve attrs s in
  ground_attrs s' = true ∧ forallb (λ kv, adds_ground kv.2) attrs' = true ∧ (o = Ret tt → ground_attrs attrs' = true).
Proof using Hres.
  revert s. induction attrs as [|[k i] attrs IH]; intros s Hi Hs; [done|]. cbn in Hi |- *.
  apply andb_true_iff in Hi as [Hi Hattrs]. pose proof (Hres i s Hi Hs) as Hw.
  destruct (resolve i s) as [[[r|e] i'] s1]; destruct Hw as (Hs1 & Hl & Hr).
  - specialize (IH s1 Hattrs Hs1). destruct (resolve_attrs resolve attrs s1) as [[o attrs'] s2]. cbn.
    rewrite (Hr r eq_refl), (ground_adds r (Hr r eq_refl)). naive_solver.
  - cbn. rewrite Hl, Hattrs. done.
Qed.

Lemma apply_patches_well ps b attrs u s :
  forallb (λ p, match p with PAdd a => ground a | _ => true end) ps = true →
  ground_attrs attrs = true → ground_attrs s = true →
  let '(o, s') := apply_patches resolve ps b attrs u s in
  ground_attrs s' = true ∧ ∀ b' attrs' u', o = Ret (b', attrs', u') → ground_attrs attrs' = true.
Proof using Hres.
  revert b attrs u s. induction ps as [|p ps IH]; intros b attrs u s Hps Ha Hs; cbn; [naive_solver|].
  cbn in Hps. apply andb_true_iff in Hps as [Hp Hps]. destruct p as [a|name|name [f|]|f u0]; cbn.
  - apply IH; [done| |done]. by apply ground_dset.
  - destruct (dhas attrs name); [|done]. apply IH; [done| |done]. by apply ground_ddel.
  - destruct (dget attrs name) as [a|] eqn:Hd; [|done].
    pose proof (ground_dget _ _ _ Ha Hd) as Hg.
    pose proof (Hres (with_base f a) s (ground_adds _ ltac:(by rewrite ground_with_base)) Hs) as Hw.
    destruct (resolve (with_base f a) s) as [[[r|e] l] s1]; destruct Hw as (Hs1 & _ & Hr); [|done].
    apply IH; [done| |done]. apply ground_dset; [done|]. by apply Hr.
  - destruct (dget attrs name); [|done]. by apply IH.
  - by apply IH.
Qed.
End elements.

Lemma resolve_well fuel a s : adds_ground a = true → ground_attrs s = true → resolves_well (resolve fuel a s).
Proof.
  revert a s. induction fuel as [|fuel IH]; intros a s Ha Hs; [done|].
  destruct a as [b|b e m|b|b e|b e items u|b attrs ad st u|name|name newname ps reg]; cbn [resolve];
    try (by apply register_self_well).
  - pose proof (resolve_items_well (resolve fuel) IH items s Ha Hs) as Hi.
    destruct (resolve_items (resolve fuel) items s) as [[[[]|ex] items'] s1]; destruct Hi as (Hs1 & Hl & Hg).
    + apply register_self_well; [by apply Hg|done].
    + done.
  - pose proof (resolve_attrs_well (resolve fuel) IH attrs s Ha Hs) as Hi.
    destruct (resolve_attrs (resolve fuel) attrs s) as [[[[]|ex] attrs'] s1]; destruct Hi as (Hs1 & Hl & Hg).
    + apply register_self_well; [by apply Hg|done].
    + done.
  - destruct (dget s name) as [schema|]; [|done]. split_and!; [done|done|apply copy_ground].
  - destruct (dget s name) as [[]|] eqn:Hd; try done.
    destruct (copy (Dict b attrs additional_attrs strict update)) as [c|] eqn:Hc; [|done].
    destruct (copy_dict _ _ _ _ _ _ Hc) as (attrs' & -> & Hg).
    pose proof (apply_patches_well (resolve fuel) IH ps (set_name newname (set_register false b)) attrs' update s Ha Hg Hs) as Hp.
    destruct (apply_patches _ ps _ attrs' update s) as [[[[b' attrs''] u']|ex] s1]; destruct Hp as [Hs1 Hp]; [|done].
    specialize (Hp _ _ _ eq_refl). destruct reg; [|by split_and!; [|done|naive_solver]].
    destruct (schemas_add (Dict b' attrs'' additional_attrs strict u') s1) eqn:Hadd; [|done].
    split_and!; [|done|naive_solver]. by apply (schemas_add_ground (Dict b' attrs'' additional_attrs strict u') s1).
Qed.

(** ** Cleaning with a resolved schema *)

Definition is_schema_error (e : exn) : bool := match e with SchemaError _ _ => true | _ => false end.

(** What is raised, if anything, is an error of the schema. *)
Definition schema_errors {A} (o : outcome exn A) : Prop := ∀ e, o = Raise e → is_schema_error e = true.

Lemma schema_errors_bind {A B} (o : outcome exn A) (k : A → outcome exn B) :
  schema_errors o → (∀ a, schema_errors (k a)) → schema_errors (o ≫= k).
Proof. intros Ho Hk e. destruct o as [a|e']; cbn; [apply Hk|]. intros [= ->]. by apply Ho. Qed.

Ltac schema_cases := cbv zeta; repeat (case_match; cbv zeta); try done; by intros [= <-].

Lemma attribute_clean_errors b v : schema_errors (attribute_clean b v).
Proof. intros e. unfold attribute_clean. schema_cases. Qed.

Lemma enum_clean_errors b en v : schema_errors (enum_clean b en v).
Proof.
  apply schema_errors_bind; [apply attribute_clean_errors|]. intros a e. schema_cases.
Qed.

Lemma clean_item_errors items v found :
  Forall (λ a, ∀ v, ground a = true → schema_errors (clean a v).1) items → forallb ground items = true →
  schema_errors (clean_item clean items v found).1.
Proof.
  intros Hall. revert v found. induction Hall as [|a items Ha _ IH]; intros v found Hg; [done|]. cbn in Hg |- *.
  apply andb_true_iff in Hg as [Hg Hgs]. specialize (Ha (Some v) Hg).
  destruct (clean a (Some v)) as [[r|e] v']; [done|]. specialize (Ha e eq_refl). destruct e; try done. by apply IH.
Qed.

Lemma clean_elements_errors n items i l :
  Forall (λ a, ∀ v, ground a = true → schema_errors (clean a v).1) items → forallb ground items = true →
  schema_errors (clean_elements clean n items i l).1.
Proof.
  intros Hall Hg. revert i. induction l as [|v l IH]; intros i; [done|]. cbn.
  pose proof (clean_item_errors items v None Hall Hg) as Hi.
  destruct (clean_item clean items v None) as [[[r|found]|e] v'].
  - specialize (IH (S i)). destruct (clean_elements clean n items (S i) l). done.
  - intros e [= <-]. done.
  - intros e' [= <-]. by apply Hi.
Qed.

Section dict.
Context (attrs : list (string * attr)).
Context (Hall : Forall (λ kv, ∀ v, ground kv.2 = true → schema_errors (clean kv.2 v).1) attrs).
Context (Hg : ground_attrs attrs = true).

Lemma attr_errors k a v : dget attrs k = Some a → schema_errors (clean a v).1.
Proof using Hall Hg.
  intros Hd. apply dget_elem_of in Hd. rewrite Forall_forall in Hall. apply (Hall (k, a) Hd).
  apply (forallb_elem _ _ (k, a) Hg Hd).
Qed.

Lemma clean_keys_errors ad items data : schema_errors (clean_keys clean attrs ad items data).1.
Proof using Hall Hg.
  revert data. induction items as [|[k v] items IH]; intros data; [done|]. cbn.
  case_match; [by intros e [= <-]|]. rewrite dfind_dget. destruct (dget attrs k) as [a|] eqn:Hd; cbn; [|apply IH].
  pose proof (attr_errors k a (Some v) Hd) as Ha. destruct (clean a (Some v)) as [[r|e] v']; [apply IH|].
  intros e' [= <-]. by apply Ha.
Qed.
End dict.

Lemma clean_defaults_errors attrs data :
  Forall (λ kv, ∀ v, ground kv.2 = true → schema_errors (clean kv.2 v).1) attrs → ground_attrs attrs = true →
  schema_errors (clean_defaults clean attrs data).1.
Proof.
  intros Hall. revert data. induction Hall as [|[k a] attrs Ha _ IH]; intros data Hg; [done|]. cbn in Ha, Hg |- *.
  apply andb_true_iff in Hg as [Hg Hgs]. specialize (Ha NOT_PROVIDED Hg). case_match; [by apply IH|].
  destruct (base_of a) as [b|] eqn:Hb; [|by destruct a]. case_match; [|by apply IH].
  destruct (clean a NOT_PROVIDED) as [[r|e] v']; [by apply IH|]. intros e' [= <-]. by apply Ha.
Qed.

Lemma clean_errors a v : ground a = true → schema_errors (clean a v).1.
Proof.
  revert v. induction a as [| | | |b en items u IH|b attrs ad st u IH| |] using attr_ind'; intros v Hg; cbn in Hg |- *; try done.
  - apply attribute_clean_errors.
  - apply schema_errors_bind; [apply enum_clean_errors|]. intros x e'. schema_cases.
  - apply schema_errors_bind; [apply attribute_clean_errors|]. intros x e'. schema_cases.
  - apply schema_errors_bind; [apply enum_clean_errors|]. intros x e'. schema_cases.
  - pose proof (enum_clean_errors b en v) as He. destruct (enum_clean b en v) as [x|ex]; [|by intros e [= <-]; apply He].
    destruct x as [| | | |l|]; try (by intros e [= <-]); try done.
    case_match; [by intros e [= <-]|]. destruct items as [|i items]; [done|].
    pose proof (clean_elements_errors b.(name) (i :: items) 0 l IH Hg) as Hl.
    destruct (clean_elements clean b.(name) (i :: items) 0 l) as [[[]|e] l']; [done|]. intros e' [= <-]. by apply Hl.
  - pose proof (attribute_clean_errors b v) as He. destruct (attribute_clean b v) as [x|ex]; [|by intros e [= <-]; apply He].
    destruct x as [| | | | |data]; try (by intros e [= <-]); try done.
    pose proof (clean_keys_errors attrs IH Hg ad data data) as Hk.
    destruct (clean_keys clean attrs ad data data) as [[[]|e] data']; [|by intros e' [= <-]; apply Hk].
    destruct u; [done|]. pose proof (clean_defaults_errors attrs data' IH Hg) as Hd.
    destruct (clean_defaults clean attrs data') as [[[]|e] d']; [done|]. intros e' [= <-]. by apply Hd.
Qed.

(** ** Methods *)

Definition meth_ok (f : Meth) : Prop :=
  match f.(m_accepts) with Some ps => f.(m_callable) = true → forallb adds_ground ps = true | None => True end.

(** The method can be called: its schemas hold no reference. *)
Definition meth_ground (f : Meth) : Prop :=
  match f.(m_accepts) with Some ps => f.(m_callable) = true → forallb ground ps = true | None => True end.

Lemma resolve_params_well fuel ps s :
  forallb adds_ground ps = true → ground_attrs s = true →
  let '(o, ps', s') := resolve_params fuel ps s in
  ground_attrs s' = true ∧ forallb adds_ground ps' = true ∧ ∀ rs, o = Ret rs → forallb ground rs = true.
Proof.
  revert s. induction ps as [|p ps IH]; intros s Hps Hs; cbn; [naive_solver|]. cbn in Hps.
  apply andb_true_iff in Hps as [Hp Hps]. pose proof (resolve_well fuel p s Hp Hs) as Hw.
  destruct (resolve fuel p s) as [[[r|e] p'] s1]; destruct Hw as (Hs1 & Hl & Hr).
  - specialize (IH s1 Hps Hs1). destruct (resolve_params fuel ps s1) as [[o ps'] s2]; destruct IH as (Hs2 & Hl2 & Hr2).
    cbn. rewrite Hl, Hl2. split_and!; [done|done|]. intros rs (rs' & -> & [= <-])%outcome_bind_Ret. cbn.
    by rewrite Hr, Hr2.
  - cbn. rewrite Hl, Hps. done.
Qed.

Lemma resolver_well fuel f s :
  meth_ok f → ground_attrs s = true →
  let '(o, f', s') := resolver fuel f s in
  ground_attrs s' = true ∧ meth_ok f' ∧ m_name f' = m_name f ∧ (o = Ret tt → meth_ground f').
Proof.
  intros Hf Hs. unfold resolver, meth_ground, meth_ok in *. destruct f as [n [] [ps|]]; cbn in *; try (by split_and!).
  specialize (Hf eq_refl). pose proof (resolve_params_well fuel ps s Hf Hs) as Hw.
  destruct (resolve_params fuel ps s) as [[[rs|e] ps'] s']; destruct Hw as (Hs' & Hl & Hr); cbn.
  - split_and!; [done| |done|].
    + intros _. specialize (Hr rs eq_refl). apply (forallb_impl ground); [|done]. apply Forall_forall. intros; by apply ground_adds.
    + intros _ _. by apply Hr.
  - by split_and!.
Qed.

Lemma resolve_pass_well fuel ms s :
  Forall meth_ok ms → ground_attrs s = true →
  let '(o, s') := resolve_pass fuel ms s in
  ground_attrs s' = true ∧
  ∀ fs rest, o = Ret (fs, rest) →
    m_name <$> ms ≡ₚ (m_name <$> fs) ++ (m_name <$> rest) ∧ Forall meth_ground fs ∧ Forall meth_ok rest.
Proof.
  revert s. induction ms as [|f ms IH]; intros s Hms Hs; cbn; [naive_solver|].
  apply Forall_cons in Hms as [Hf Hms]. pose proof (resolver_well fuel f s Hf Hs) as Hw.
  destruct (resolver fuel f s) as [[[[]|e] f'] s1]; destruct Hw as (Hs1 & Hok & Hn & Hg).
  - specialize (IH s1 Hms Hs1). destruct (resolve_pass fuel ms s1) as [o s2]. destruct IH as [Hs2 Hrest]. split; [done|].
    intros fs rest ([fs' rest'] & -> & [= <- <-])%outcome_bind_Ret. destruct (Hrest _ _ eq_refl) as (Hp & Hfs & Hr).
    cbn. rewrite Hn, Hp. split_and!; [done| |done]. constructor; [by apply Hg|done].
  - destruct e; try done. specialize (IH s1 Hms Hs1). destruct (resolve_pass fuel ms s1) as [o s2].
    destruct IH as [Hs2 Hrest]. split; [done|].
    intros fs rest ([fs' rest'] & -> & [= <- <-])%outcome_bind_Ret. destruct (Hrest _ _ eq_refl) as (Hp & Hfs & Hr).
    cbn. rewrite Hn, Hp, <-Permutation_middle. split_and!; [done|done|]. by constructor.
Qed.

Lemma resolve_methods_well turns fuel ms s :
  length ms ≤ turns → Forall meth_ok ms → ground_attrs s = true →
  ∃ o s', resolve_methods turns fuel ms s = Some (o, s') ∧
    ∀ fs, o = Ret fs → m_name <$> fs ≡ₚ m_name <$> ms ∧ Forall meth_ground fs.
Proof.
  revert ms s. induction turns as [|turns IH]; intros ms s Hlen Hms Hs.
  { destruct ms; cbn in Hlen; [|lia]. eexists _, _. split; [done|]. by intros fs [= <-]. }
  destruct ms as [|f ms]; [eexists _, _; split; [done|]; by intros fs [= <-]|].
  cbn [resolve_methods]. pose proof (resolve_pass_well fuel (f :: ms) s Hms Hs) as Hw.
  destruct (resolve_pass fuel (f :: ms) s) as [[[fs rest]|e] s1]; destruct Hw as [Hs1 Hp]; [|by eexists _, _].
  destruct (Hp _ _ eq_refl) as (Hperm & Hfs & Hrest). destruct fs as [|g fs]; [by eexists _, _|].
  pose proof (Permutation_length Hperm) as Hl. rewrite length_app, !length_fmap in Hl. cbn in Hl, Hlen.
  destruct (IH rest s1 ltac:(lia) Hrest Hs1) as (o & s' & -> & Ho). eexists _, _. split; [done|].
  intros gs (gs' & -> & [= <-])%outcome_bind_Ret. destruct (Ho _ eq_refl) as [Hperm' Hgs].
  change (m_name <$> g :: fs ++ gs') with (m_name <$> (g :: fs) ++ gs'). rewrite Hperm, fmap_app, Hperm'.
  split; [done|]. change (g :: fs ++ gs') with ((g :: fs) ++ gs'). by apply Forall_app.
Qed.


(** A service whose [update] patches the schema of its [create], loaded first. *)
Definition demo_int (n : string) : attr := Int (sample_base n true false None) None.

Definition demo_create : attr :=
  Dict (set_register true (sample_base "vm_create" true false None)) [("memory", demo_int "memory"); ("vcpus", demo_int "vcpus")]
    false false false.

Definition demo_methods : list Meth :=
  [mkMeth "vm.update" true (Some [Patch "vm_create" "vm_update" [PAttr (λ b, b) (Some true); PRm "vcpus"] true]);
   mkMeth "vm.clone" true (Some [demo_int "id"; Ref "vm_update"]);
   mkMeth "vm.create" true (Some [demo_create])].

(** The names of the methods, in the order in which they were resolved. *)
Definition resolved_names (r : option (outcome exn (list Meth) * Schemas)) : option (outcome exn (list string)) :=
  match r with Some (Ret fs, _) => Some (Ret (map m_name fs)) | Some (Raise e, _) => Some (Raise e) | None => None end.


(** A method that registers one schema and refers to another that is not known yet
    cannot be tried again: the first is registered already. *)
Example retry_registers_twice :
  resolved_names (resolve_methods 2 5
    [mkMeth "a.do" true (Some [demo_create; Ref "late"]);
     mkMeth "b.do" true (Some [with_base (set_name "late" ∘ set_register true) (demo_int "late")])] []) =
  Some (Raise (ValueError ("Schema " +:+ String double_quote ("vm_create" +:+ String double_quote " is already registered")))).
Proof. vm_compute. reflexivity. Qed.
