(* ===== verification/Job.v ===== *)
(** * Long running calls: job.py

    [World] is what the job machinery shares: the heap of [Job] objects and of
    [JobSharedLock] objects (both are mutated through references), the
    [JobsQueue] with its [JobsDeque], and the [run] coroutine of every job that
    was scheduled.  The event loop runs one coroutine at a time and switches
    only at an [await], so each operation below is the code between two awaits,
    executed atomically; [step] interleaves them freely.

    [JobsQueue.next]'s [await job.lock.acquire()] does not suspend: it is only
    reached when the lock is not taken, and then [asyncio.Lock.acquire] takes it
    at once. *)

From S2P Require Import Prelude PyValue Schema.

(** ** Data *)

Inductive State : Type := WAITING | RUNNING | SUCCESS | FAILED | ABORTED.

#[global] Instance State_eq_dec : EqDecision State.
Proof. solve_decision. Defined.

Definition State_name (s : State) : string :=
  match s with
  | WAITING => "WAITING" | RUNNING => "RUNNING" | SUCCESS => "SUCCESS"
  | FAILED => "FAILED" | ABORTED => "ABORTED"
  end.

(** [state in (State.SUCCESS, State.FAILED, State.ABORTED)] *)
Definition terminal (s : State) : bool :=
  match s with SUCCESS | FAILED | ABORTED => true | _ => false end.

(** References to [Job] and [JobSharedLock] objects. *)
Notation jref := nat (only parsing).
Notation lref := nat (only parsing).

(** The options of the [@job] decorator; [lock] is [None], a name, or a callable
    on the arguments. *)
Record JobOptions : Type := mkOptions {
  opt_lock : option (string + (list pyval → option string));
  lock_queue_size : option nat;
  logs : bool;
  pipes : list string;
  check_pipes : bool;
  transient : bool;
  abortable : bool;
}.

Record Progress : Type := mkProgress {
  percent : option Z;
  pdescription : option string;
  extra : option pyval;
}.

Record Job : Type := mkJob {
  method_name : string;
  method_accepts : option (list attr);
  args : list pyval;
  options : JobOptions;
  id : option nat;
  lock : option lref;
  result : pyval;
  error : option string;
  exc_info : option exn;
  aborted : bool;
  state : State;
  progress : Progress;
  time_started : Z;
  time_finished : option Z;
  logs_path : option string;
  finished : bool;
  cancel_requested : bool;
}.

Record JobSharedLock : Type := mkLock {
  lock_name : string;
  lock_jobs : gset jref;
  is_locked : bool;
}.

Record JobsDeque : Type := mkDeque {
  maxlen : nat;
  count : nat;
  dict : list (nat * jref);
}.

(** Where a [run] coroutine is: created by [create_task]; awaiting the body;
    its body over with an outcome; in [finally], awaiting the logs and pipes to
    be closed; over; or ended by an exception, before its [try] block or in its
    [finally] clause. *)
Inductive Phase : Type :=
| Scheduled
| Body
| BodyDone (o : outcome exn unit)
| Closing
| Finished
| Crashed
| CloseFailed.

Record Event : Type := mkEvent {
  ev_type : string;
  ev_id : option nat;
  ev_fields : pyval;
}.

Record World : Type := mkWorld {
  jobs : gmap jref Job;
  locks : gmap lref JobSharedLock;
  deque : JobsDeque;
  queue : list jref;
  queue_event : bool;
  job_locks : gmap string lref;
  tasks : gmap jref Phase;
  log_files : gset string;
  events : list Event;
}.

(** Field updates. *)
Definition with_jobs (f : gmap jref Job → gmap jref Job) (w : World) : World :=
  mkWorld (f w.(jobs)) w.(locks) w.(deque) w.(queue) w.(queue_event) w.(job_locks)
    w.(tasks) w.(log_files) w.(events).
Definition with_locks (f : gmap lref JobSharedLock → gmap lref JobSharedLock) (w : World) : World :=
  mkWorld w.(jobs) (f w.(locks)) w.(deque) w.(queue) w.(queue_event) w.(job_locks)
    w.(tasks) w.(log_files) w.(events).
Definition with_deque (f : JobsDeque → JobsDeque) (w : World) : World :=
  mkWorld w.(jobs) w.(locks) (f w.(deque)) w.(queue) w.(queue_event) w.(job_locks)
    w.(tasks) w.(log_files) w.(events).
Definition with_queue (f : list jref → list jref) (w : World) : World :=
  mkWorld w.(jobs) w.(locks) w.(deque) (f w.(queue)) w.(queue_event) w.(job_locks)
    w.(tasks) w.(log_files) w.(events).
Definition set_event (b : bool) (w : World) : World :=
  mkWorld w.(jobs) w.(locks) w.(deque) w.(queue) b w.(job_locks)
    w.(tasks) w.(log_files) w.(events).
Definition with_job_locks (f : gmap string lref → gmap string lref) (w : World) : World :=
  mkWorld w.(jobs) w.(locks) w.(deque) w.(queue) w.(queue_event) (f w.(job_locks))
    w.(tasks) w.(log_files) w.(events).
Definition with_tasks (f : gmap jref Phase → gmap jref Phase) (w : World) : World :=
  mkWorld w.(jobs) w.(locks) w.(deque) w.(queue) w.(queue_event) w.(job_locks)
    (f w.(tasks)) w.(log_files) w.(events).
Definition with_log_files (f : gset string → gset string) (w : World) : World :=
  mkWorld w.(jobs) w.(locks) w.(deque) w.(queue) w.(queue_event) w.(job_locks)
    w.(tasks) (f w.(log_files)) w.(events).
Definition with_events (f : list Event → list Event) (w : World) : World :=
  mkWorld w.(jobs) w.(locks) w.(deque) w.(queue) w.(queue_event) w.(job_locks)
    w.(tasks) w.(log_files) (f w.(events)).

Definition J_lock (l : option lref) (x : Job) : Job :=
  mkJob x.(method_name) x.(method_accepts) x.(args) x.(options) x.(id) l x.(result) x.(error)
    x.(exc_info) x.(aborted) x.(state) x.(progress) x.(time_started) x.(time_finished)
    x.(logs_path) x.(finished) x.(cancel_requested).
(** [Job.set_id] *)
Definition set_id (i : nat) (x : Job) : Job :=
  mkJob x.(method_name) x.(method_accepts) x.(args) x.(options) (Some i) x.(lock) x.(result)
    x.(error) x.(exc_info) x.(aborted) x.(state) x.(progress) x.(time_started) x.(time_finished)
    x.(logs_path) x.(finished) x.(cancel_requested).
(** [Job.set_result] *)
Definition set_result (r : pyval) (x : Job) : Job :=
  mkJob x.(method_name) x.(method_accepts) x.(args) x.(options) x.(id) x.(lock) r x.(error)
    x.(exc_info) x.(aborted) x.(state) x.(progress) x.(time_started) x.(time_finished)
    x.(logs_path) x.(finished) x.(cancel_requested).
Definition J_error (err : option string) (e : option exn) (x : Job) : Job :=
  mkJob x.(method_name) x.(method_accepts) x.(args) x.(options) x.(id) x.(lock) x.(result) err
    e x.(aborted) x.(state) x.(progress) x.(time_started) x.(time_finished)
    x.(logs_path) x.(finished) x.(cancel_requested).
Definition J_aborted (b c : bool) (x : Job) : Job :=
  mkJob x.(method_name) x.(method_accepts) x.(args) x.(options) x.(id) x.(lock) x.(result)
    x.(error) x.(exc_info) b x.(state) x.(progress) x.(time_started) x.(time_finished)
    x.(logs_path) x.(finished) c.
Definition J_state (s : State) (t : option Z) (x : Job) : Job :=
  mkJob x.(method_name) x.(method_accepts) x.(args) x.(options) x.(id) x.(lock) x.(result)
    x.(error) x.(exc_info) x.(aborted) s x.(progress) x.(time_started) t
    x.(logs_path) x.(finished) x.(cancel_requested).
Definition J_progress (p : Progress) (x : Job) : Job :=
  mkJob x.(method_name) x.(method_accepts) x.(args) x.(options) x.(id) x.(lock) x.(result)
    x.(error) x.(exc_info) x.(aborted) x.(state) p x.(time_started) x.(time_finished)
    x.(logs_path) x.(finished) x.(cancel_requested).
Definition J_logs (p : option string) (x : Job) : Job :=
  mkJob x.(method_name) x.(method_accepts) x.(args) x.(options) x.(id) x.(lock) x.(result)
    x.(error) x.(exc_info) x.(aborted) x.(state) x.(progress) x.(time_started) x.(time_finished)
    p x.(finished) x.(cancel_requested).
Definition J_finished (b : bool) (x : Job) : Job :=
  mkJob x.(method_name) x.(method_accepts) x.(args) x.(options) x.(id) x.(lock) x.(result)
    x.(error) x.(exc_info) x.(aborted) x.(state) x.(progress) x.(time_started) x.(time_finished)
    x.(logs_path) b x.(cancel_requested).

(** ** [Job]: construction, lock name, encoding *)

(** [Job.check_pipe]; [opened] are the pipes the caller opened. *)
Definition check_pipe (opened : list string) (pipe : string) : outcome exn unit :=
  if bool_decide (pipe ∈ opened) then Ret tt
  else Raise (ValueError ("Pipe " +:+ repr_str pipe +:+ " is not open")).

(** [Job.__init__] *)
Definition new_job (method_name : string) (accepts : option (list attr)) (args : list pyval)
    (options : JobOptions) (opened : list string) (now : Z) : outcome exn Job :=
  let job := mkJob method_name accepts args options None None PNone None None false WAITING
    (mkProgress None None None) now None None false false in
  if options.(check_pipes) then
    _ ← mapO (check_pipe opened) options.(pipes); Ret job
  else Ret job.

(** [Job.get_lock_name] *)
Definition get_lock_name (x : Job) : option string :=
  match x.(options).(opt_lock) with
  | None => None
  | Some (inl name) => Some name
  | Some (inr f) => f x.(args)
  end.

(** [Middleware.dump_args]: the arguments as the method's schemas show them. *)
Definition dump_args (accepts : option (list attr)) (args : list pyval) : list pyval :=
  match accepts with
  | None => args
  | Some acc => imap (λ i arg, match acc !! i with Some a => dump a arg | None => arg end) args
  end.

Definition opt_val {A} (f : A → pyval) (o : option A) : pyval :=
  match o with Some a => f a | None => PNone end.

(** [type(e).__name__] *)
Definition exn_name (e : exn) : string :=
  match e with
  | ValueError _ => "ValueError" | TypeError _ => "TypeError"
  | AttributeError _ => "AttributeError" | KeyError _ => "KeyError"
  | IndexError => "IndexError" | MatchNotFound => "MatchNotFound"
  | AssertionError => "AssertionError" | RuntimeError _ => "RuntimeError"
  | NotImplementedError => "NotImplementedError" | CancelledError => "CancelledError"
  | CallError _ _ _ => "CallError" | ValidationErrorExn _ => "ValidationError"
  | CalledProcessError _ _ _ => "CalledProcessError" | SchemaError _ _ => "Error"
  | ValidationErrors _ => "ValidationErrors" | ResolverError _ => "ResolverError"
  | RestoreError _ => "RestoreError" | FileNotFoundError => "FileNotFoundError"
  | OtherError _ => "Exception"
  end.

(** [adapt_exception]: a failed command becomes a [CallError]. *)
Definition adapt_exception (e : exn) : option exn :=
  match e with
  | CalledProcessError cmd rc output =>
      Some (CallError ("Command " +:+ cmd +:+ " failed (code " +:+ pretty rc +:+ "):" +:+
                       String (Ascii.ascii_of_nat 10) output) EFAULT PNone)
  | _ => None
  end.

Section jobs.
(** [errname] names an error number and [format_exception] is the text of a
    traceback. *)
Context (errname : Z → string) (format_exception : exn → string).

Definition verror_str (e : ValidationError) : string :=
  "[" +:+ errname e.(errno) +:+ "] " +:+ e.(attribute) +:+ ": " +:+ e.(errmsg).

(** [str(e)] *)
Definition exn_str (e : exn) : string :=
  match e with
  | ValueError m | TypeError m | AttributeError m | RuntimeError m
  | ResolverError m | RestoreError m | OtherError m => m
  | KeyError k => repr_str k
  | FileNotFoundError => "[Errno 2] No such file or directory"
  | IndexError | MatchNotFound | AssertionError | NotImplementedError | CancelledError => ""
  | CallError m n _ => "[" +:+ errname n +:+ "] " +:+ m
  | ValidationErrorExn e => verror_str e
  | CalledProcessError cmd rc _ => "Command '" +:+ cmd +:+ "' returned non-zero exit status " +:+ pretty rc +:+ "."
  | SchemaError a m => "[" +:+ a +:+ "] " +:+ m
  | ValidationErrors es =>
      foldr (λ e acc, verror_str e +:+ String (Ascii.ascii_of_nat 10) acc) "" es
  end.

Definition encode_exc_info (e : exn) : pyval :=
  let verror e := PList [PStr e.(attribute); PStr e.(errmsg); PInt e.(errno)] in
  let '(etype, extra) := match e with
    | ValidationErrorExn ve => ("VALIDATION", PList [verror ve])
    | ValidationErrors es => ("VALIDATION", PList (verror <$> es))
    | CallError _ _ extra => ("CallError", extra)
    | _ => (exn_name e, PNone)
    end in
  PDict [("type", PStr etype); ("extra", extra)].

(** [Job.__encode__] (the log excerpt apart) *)
Definition encode (x : Job) : pyval :=
  PDict [("id", opt_val (PInt ∘ Z.of_nat) x.(id));
         ("method", PStr x.(method_name));
         ("arguments", PList (dump_args x.(method_accepts) x.(args)));
         ("logs_path", opt_val PStr x.(logs_path));
         ("progress", PDict [("percent", opt_val PInt x.(progress).(percent));
                             ("description", opt_val PStr x.(progress).(pdescription));
                             ("extra", opt_val (λ v, v) x.(progress).(extra))]);
         ("result", x.(result));
         ("error", opt_val PStr x.(error));
         ("exception", opt_val (PStr ∘ format_exception) x.(exc_info));
         ("exc_info", opt_val encode_exc_info x.(exc_info));
         ("state", PStr (State_name x.(state)));
         ("time_started", PInt x.(time_started));
         ("time_finished", opt_val PInt x.(time_finished))].

(** ** [Job]: operations on the object *)

(** [Job.set_state] with its assertions *)
Definition set_state (s : State) (now : Z) (x : Job) : outcome exn Job :=
  match x.(state), s with
  | WAITING, (WAITING | SUCCESS) => Raise AssertionError
  | RUNNING, (WAITING | RUNNING) => Raise AssertionError
  | (SUCCESS | FAILED | ABORTED), _ => Raise AssertionError
  | _, _ => Ret (J_state s (if terminal s then Some now else x.(time_finished)) x)
  end.

(** [Job.set_exception] *)
Definition set_exception (e : exn) (x : Job) : Job := J_error (Some (exn_str e)) (Some e) x.

(** The fields [Job.set_progress] stores: [None] and empty values keep the old. *)
Definition update_progress (pc : option Z) (desc : option string) (ex : option pyval)
    (p : Progress) : Progress :=
  mkProgress (match pc with Some _ => pc | None => p.(percent) end)
    (match desc with
     | Some d => if String.eqb d "" then p.(pdescription) else desc
     | None => p.(pdescription) end)
    (match ex with
     | Some v => if truthy v then ex else p.(extra)
     | None => p.(extra) end).

(** [Job.wait] once the job has finished. *)
Definition wait_result (raise_error : bool) (x : Job) : outcome exn pyval :=
  if raise_error then
    match x.(error) with
    | Some err =>
        if String.eqb err "" then Ret x.(result)
        else match x.(exc_info) with
             | Some (CallError m n ex) => Raise (CallError m n ex)
             | _ => Raise (CallError err EFAULT PNone)
             end
    | None => Ret x.(result)
    end
  else Ret x.(result).

(** [Job.abort] on the object: a waiting job is only flagged, an abortable one
    observes the flag itself, the others have their future cancelled. *)
Definition abort_job (x : Job) : Job :=
  if terminal x.(state) then x
  else if decide (x.(state) = WAITING) then J_aborted true x.(cancel_requested) x
  else if x.(options).(abortable) then J_aborted true x.(cancel_requested) x
  else J_aborted true true x.

(** ** The heap *)

Definition get_job (j : jref) : M World exn Job := λ w,
  match w.(jobs) !! j with
  | Some x => (Ret x, w)
  | None => (Raise (OtherError "no such job"), w)
  end.

Definition upd_job (j : jref) (f : Job → Job) : M World exn unit := modify (with_jobs (alter f j)).

Definition get_lock (l : lref) : M World exn JobSharedLock := λ w,
  match w.(locks) !! l with
  | Some L => (Ret L, w)
  | None => (Raise (OtherError "no such lock"), w)
  end.

Definition put_lock (l : lref) (L : JobSharedLock) : M World exn unit :=
  modify (with_locks <[l := L]>).

Definition set_phase (j : jref) (p : Phase) : M World exn unit := modify (with_tasks <[j := p]>).

Definition send_event (type : string) (x : Job) : M World exn unit :=
  modify (with_events (λ es, es ++ [mkEvent type x.(id) (encode x)])).

(** [self.set_state(s)] on the object [j]. *)
Definition set_state_m (j : jref) (s : State) (now : Z) : M World exn unit :=
  x ← get_job j;
  match set_state s now x with
  | Ret x' => upd_job j (λ _, x')
  | Raise e => raise e
  end.

(** [Job.set_progress] *)
Definition set_progress (j : jref) (pc : option Z) (desc : option string) (ex : option pyval) :
    M World exn unit :=
  upd_job j (λ x, J_progress (update_progress pc desc ex x.(progress)) x) ;;
  x ← get_job j;
  send_event "CHANGED" x.

(** [JobSharedLock]: the operations on the lock object. *)
Definition add_job (j : jref) (L : JobSharedLock) : JobSharedLock :=
  mkLock L.(lock_name) ({[j]} ∪ L.(lock_jobs)) L.(is_locked).
Definition remove_job (j : jref) (L : JobSharedLock) : JobSharedLock :=
  mkLock L.(lock_name) (L.(lock_jobs) ∖ {[j]}) L.(is_locked).
Definition acquire (L : JobSharedLock) : JobSharedLock :=
  mkLock L.(lock_name) L.(lock_jobs) true.
(** [asyncio.Lock.release] raises on a lock that is not taken. *)
Definition release (L : JobSharedLock) : outcome exn JobSharedLock :=
  if L.(is_locked) then Ret (mkLock L.(lock_name) L.(lock_jobs) false)
  else Raise (RuntimeError "Lock is not acquired.").

(** ** [JobsDeque] *)

(** [Job.cleanup]: unlink the log file. *)
Definition cleanup (x : Job) : M World exn unit :=
  match x.(logs_path) with
  | Some p => modify (with_log_files (λ fs, fs ∖ {[p]}))
  | None => mret tt
  end.

Definition dict_get (d : list (nat * jref)) (i : nat) : option jref :=
  snd <$> List.find (λ kv, kv.1 =? i)%nat d.
Definition dict_del (d : list (nat * jref)) (i : nat) : list (nat * jref) :=
  List.filter (λ kv, negb (kv.1 =? i)%nat) d.

(** [JobsDeque.remove] *)
Definition deque_remove (job_id : nat) : M World exn unit :=
  w ← get_state;
  match dict_get w.(deque).(dict) job_id with
  | Some j =>
      x ← get_job j;
      cleanup x ;;
      modify (with_deque (λ d, mkDeque d.(maxlen) d.(count) (dict_del d.(dict) job_id)))
  | None => mret tt
  end.

(** [old_job.state in (SUCCESS, FAILED, ABORTED)] for an entry of the deque. *)
Definition entry_terminal (w : World) (kv : nat * jref) : bool :=
  match w.(jobs) !! kv.2 with Some x => terminal x.(state) | None => false end.

(** [JobsDeque.add] *)
Definition deque_add (j : jref) : M World exn unit :=
  modify (with_deque (λ d, mkDeque d.(maxlen) (S d.(count)) d.(dict))) ;;
  w ← get_state;
  upd_job j (set_id w.(deque).(count)) ;;
  (if w.(deque).(maxlen) <? length w.(deque).(dict)
   then match List.find (entry_terminal w) w.(deque).(dict) with
        | Some old => deque_remove old.1
        | None => mret tt
        end
   else mret tt)%nat ;;
  modify (with_deque (λ d, mkDeque d.(maxlen) d.(count) (d.(dict) ++ [(w.(deque).(count), j)]))).

(** ** [JobsQueue] *)

(** [JobsQueue.handle_lock] *)
Definition handle_lock (j : jref) : M World exn unit :=
  x ← get_job j;
  match get_lock_name x with
  | None => mret tt
  | Some name =>
      w ← get_state;
      l ← (match w.(job_locks) !! name with
           | Some l => mret l
           | None =>
               let l := fresh (dom w.(locks)) in
               put_lock l (mkLock name ∅ false) ;;
               modify (with_job_locks <[name := l]>) ;;
               mret l
           end);
      L ← get_lock l;
      put_lock l (add_job j L) ;;
      upd_job j (J_lock (Some l))
  end.

(** [another_job.lock is job.lock] *)
Definition same_lock (w : World) (l : option lref) (k : jref) : bool :=
  match w.(jobs) !! k with Some y => bool_decide (y.(lock) = l) | None => false end.

(** The end of [JobsQueue.add]: the job is numbered and queued. *)
Definition enqueue (j : jref) : M World exn jref :=
  deque_add j ;;
  modify (with_queue (λ q, q ++ [j])) ;;
  (x ← get_job j;
   if x.(options).(transient) then mret tt else send_event "ADDED" x) ;;
  modify (set_event true) ;;
  mret j.

(** [JobsQueue.add]; the result is the job that stands for the call. *)
Definition add (j : jref) : M World exn jref :=
  handle_lock j ;;
  x ← get_job j;
  w ← get_state;
  let queued_jobs := List.filter (same_lock w x.(lock)) w.(queue) in
  match x.(options).(lock_queue_size) with
  | Some size =>
      if (size <=? length queued_jobs)%nat then
        match last queued_jobs with
        | Some k => mret k
        | None => raise IndexError
        end
      else enqueue j
  | None => enqueue j
  end.

(** [JobsQueue.release_lock] *)
Definition release_lock (j : jref) : M World exn unit :=
  x ← get_job j;
  match x.(lock) with
  | None => mret tt
  | Some l =>
      L ← get_lock l;
      let L := remove_job j L in
      put_lock l L ;;
      match release L with
      | Raise e => raise e
      | Ret L' =>
          put_lock l L' ;;
          (if decide (L'.(lock_jobs) = ∅) then
             w ← get_state;
             match w.(job_locks) !! L'.(lock_name) with
             | Some _ => modify (with_job_locks (delete L'.(lock_name)))
             | None => raise (KeyError L'.(lock_name))
             end
           else mret tt) ;;
          modify (set_event true)
      end
  end.

(** [job.lock is None or not job.lock.locked()] *)
Definition runnable (w : World) (j : jref) : bool :=
  match w.(jobs) !! j with
  | Some x =>
      match x.(lock) with
      | None => true
      | Some l => match w.(locks) !! l with Some L => negb L.(is_locked) | None => true end
      end
  | None => false
  end.

(** One pass of the loop of [JobsQueue.next], with the event set: the first job of
    the queue that can run, or the event cleared. *)
Definition next_pass : M World exn (option jref) :=
  w ← get_state;
  match List.find (runnable w) w.(queue) with
  | Some j =>
      x ← get_job j;
      (match x.(lock) with
       | Some l => L ← get_lock l; put_lock l (acquire L)
       | None => mret tt
       end) ;;
      modify (with_queue (remove1 j)) ;;
      w ← get_state;
      (match w.(queue) with [] => modify (set_event false) | _ => mret tt end) ;;
      mret (Some j)
  | None => modify (set_event false) ;; mret None
  end.

(** [JobsQueue.run]: the job that [next] returns gets its [run] coroutine. *)
Definition queue_run : M World exn unit :=
  found ← next_pass;
  match found with
  | Some j => set_phase j Scheduled
  | None => mret tt
  end.

(** ** [Job.run], segment by segment *)

(** The [except] clauses of [run]. *)
Definition handle_exception (j : jref) (now : Z) (e : exn) : M World exn unit :=
  match e with
  | CancelledError => set_state_m j ABORTED now
  | _ => set_state_m j FAILED now ;; upd_job j (set_exception e)
  end.

(** Opening the log file, before the [try] block. *)
Definition open_logs (j : jref) (log_ok : bool) : M World exn unit :=
  x ← get_job j;
  if x.(options).(logs) then
    let path := "/tmp/middlewared/jobs/" +:+ from_option pretty "None" x.(id) +:+ ".log" in
    upd_job j (J_logs (Some path)) ;;
    (if log_ok : bool then modify (with_log_files (λ fs, {[path]} ∪ fs))
     else set_phase j Crashed ;; raise (OtherError "OSError"))
  else mret tt.

(** From the start to [await self.future]. *)
Definition run_start (j : jref) (now : Z) (log_ok : bool) : M World exn unit :=
  open_logs j log_ok ;;
  try_except
    (x ← get_job j;
     if x.(aborted) then raise CancelledError
     else set_state_m j RUNNING now ;; set_phase j Body)
    (λ e, try_finally (handle_exception j now e) (set_phase j Closing)).

(** The end of [__run_body]: the method returned [rv] or raised. *)
Definition run_body (j : jref) (now : Z) (o : outcome exn pyval) : M World exn unit :=
  match o with
  | Ret rv =>
      upd_job j (set_result rv) ;;
      set_state_m j SUCCESS now ;;
      (x ← get_job j;
       if decide (x.(progress).(percent) = Some 100%Z) then mret tt
       else set_progress j (Some 100%Z) (Some "") None) ;;
      set_phase j (BodyDone (Ret tt))
  | Raise e => set_phase j (BodyDone (Raise e))
  end.

(** [run] resumes after [await self.future]: [adapt_exception] applies to
    every exception but the cancellation. *)
Definition run_resume (j : jref) (now : Z) (o : outcome exn unit) : M World exn unit :=
  match o with
  | Ret _ => set_phase j Closing
  | Raise e =>
      let e' := match e with CancelledError => e | _ => from_option (λ e, e) e (adapt_exception e) end in
      try_finally (handle_exception j now e') (set_phase j Closing)
  end.

(** The rest of the [finally] clause: [__close_logs] and [__close_pipes] wait for a
    thread that closes and reads files.  When they raise, the lock is not released
    and the job is never finished. *)
Definition run_finish (j : jref) (close_ok : bool) : M World exn unit :=
  (if close_ok then mret tt else set_phase j CloseFailed ;; raise (OtherError "OSError")) ;;
  release_lock j ;;
  upd_job j (J_finished true) ;;
  (x ← get_job j;
   if x.(options).(transient) then
     match x.(id) with Some i => deque_remove i | None => mret tt end
   else send_event "CHANGED" x) ;;
  set_phase j Finished.

(** ** Interleavings *)

Definition init (maxlen : nat) : World :=
  mkWorld ∅ ∅ (mkDeque maxlen 0 []) [] false ∅ ∅ ∅ [].

(** One atomic step of the event loop. *)
Inductive step : World → World → Prop :=
| step_add w j x o w' mn acc ar op opened now :
    w.(jobs) !! j = None → new_job mn acc ar op opened now = Ret x →
    add j (with_jobs <[j := x]> w) = (o, w') → step w w'
| step_run w o w' :
    w.(queue_event) = true → queue_run w = (o, w') → step w w'
| step_start w j now log_ok o w' :
    w.(tasks) !! j = Some Scheduled → run_start j now log_ok w = (o, w') → step w w'
| step_progress w j pc desc ex o w' :
    w.(tasks) !! j = Some Body → set_progress j pc desc ex w = (o, w') → step w w'
| step_body w j now r o w' :
    w.(tasks) !! j = Some Body → run_body j now r w = (o, w') → step w w'
| step_resume w j now r o w' :
    w.(tasks) !! j = Some (BodyDone r) → run_resume j now r w = (o, w') → step w w'
| step_finish w j close_ok o w' :
    w.(tasks) !! j = Some Closing → run_finish j close_ok w = (o, w') → step w w'
| step_abort w j x :
    w.(jobs) !! j = Some x → step w (with_jobs <[j := abort_job x]> w).

Definition reachable (w : World) : Prop := ∃ maxlen, rtc step (init maxlen) w.
End jobs.
