(* ===== verification/JobFacts.v ===== *)
(** * Properties of the job queue

    Safety of the locks and of the queue in every interleaving, by an invariant
    over the steps of the event loop. *)

From S2P Require Import Prelude PyValue Schema Job.

Section jobs.
Context (errname : Z → string) (format_exception : exn → string).
Notation step := (step errname format_exception).
Notation add := (add format_exception).
Notation run_start := (run_start errname).
Notation run_body := (run_body format_exception).
Notation run_resume := (run_resume errname).
Notation run_finish := (run_finish format_exception).
Notation set_progress := (set_progress format_exception).

(** ** Views of the world *)

(** A job whose [run] coroutine has not reached its end; an exception outside the
    [try] block may have ended it before. *)
Definition active (w : World) (j : nat) : Prop :=
  ∃ p, w.(tasks) !! j = Some p ∧ p ≠ Finished.

(** The lock object and the lock name of a job. *)
Definition jview (w : World) (j : nat) : option (option nat * option string) :=
  (λ x, (x.(lock), get_lock_name x)) <$> w.(jobs) !! j.

Definition phase_ok (p : Phase) (s : State) : Prop :=
  match p with
  | Scheduled | Crashed => s = WAITING
  | Body | BodyDone (Raise _) => s = RUNNING
  | BodyDone (Ret _) => s = SUCCESS
  | Closing | Finished | CloseFailed => terminal s = true
  end.

(** The lock of job [j], named [on], is the registered one and knows [j]. *)
Definition good_lock (w : World) (j : nat) (ol : option nat) (on : option string) : Prop :=
  match on with
  | None => ol = None
  | Some n => ∃ l L, ol = Some l ∧ w.(job_locks) !! n = Some l ∧
                     w.(locks) !! l = Some L ∧ L.(lock_name) = n ∧ j ∈ L.(lock_jobs)
  end.

Record lock_inv (w : World) : Prop := {
  li_nodup : NoDup w.(queue);
  li_disj : ∀ j, j ∈ w.(queue) → ¬ active w j;
  li_live : ∀ j, j ∈ w.(queue) ∨ active w j →
    ∃ ol on, jview w j = Some (ol, on) ∧ good_lock w j ol on;
  li_reg : ∀ n l, w.(job_locks) !! n = Some l →
    ∃ L, w.(locks) !! l = Some L ∧ L.(lock_name) = n;
  li_holds : ∀ j l on, active w j → jview w j = Some (Some l, on) →
    ∃ L, w.(locks) !! l = Some L ∧ L.(is_locked) = true;
  li_mutex : ∀ j1 j2 l on1 on2, active w j1 → active w j2 →
    jview w j1 = Some (Some l, on1) → jview w j2 = Some (Some l, on2) → j1 = j2;
  li_held : ∀ l L, w.(locks) !! l = Some L → L.(is_locked) = true →
    ∃ j on, active w j ∧ jview w j = Some (Some l, on);
  li_event : w.(queue_event) = false → ∀ j, j ∈ w.(queue) →
    ∃ l L on, jview w j = Some (Some l, on) ∧ w.(locks) !! l = Some L ∧ L.(is_locked) = true;
}.

Record state_inv (w : World) : Prop := {
  si_task : ∀ j p, w.(tasks) !! j = Some p →
    ∃ x, w.(jobs) !! j = Some x ∧ phase_ok p x.(state);
  si_queue : ∀ j, j ∈ w.(queue) → w.(tasks) !! j = None ∧
    ∃ x, w.(jobs) !! j = Some x ∧ x.(state) = WAITING;
}.

(** Every entry of the deque is a job. *)
Definition deque_inv (w : World) : Prop :=
  ∀ e, e ∈ w.(deque).(dict) → is_Some (w.(jobs) !! e.2).

Definition Inv (w : World) : Prop := lock_inv w ∧ state_inv w ∧ deque_inv w.

(** Two worlds whose locks, queue and live jobs are the same. *)
Record same_locks (w w' : World) : Prop := {
  sl_locks : w'.(locks) = w.(locks);
  sl_job_locks : w'.(job_locks) = w.(job_locks);
  sl_queue : w'.(queue) = w.(queue);
  sl_event : w'.(queue_event) = w.(queue_event);
  sl_view : ∀ j, jview w' j = jview w j;
  sl_active : ∀ j, active w' j ↔ active w j;
}.

#[local] Instance same_locks_po : PreOrder same_locks.
Proof.
  split.
  - intros w; by split.
  - intros w1 w2 w3 [] []; split; intros; try congruence; etrans; eauto.
Qed.

Lemma same_locks_inv w w' : same_locks w w' → lock_inv w → lock_inv w'.
Proof.
  intros [Hl Hj Hq He Hv Ha] [].
  split; unfold good_lock in *; rewrite ?Hl, ?Hj, ?Hq, ?He; try setoid_rewrite Ha;
    try setoid_rewrite Hv; eauto.
Qed.

(** ** Steps that leave the locks, the phases and the states alone *)

Definition stateof (w : World) (j : nat) : option State := state <$> w.(jobs) !! j.

(** What changes is outside the invariant: results, progress, flags, events,
    log files, and entries leaving the deque. *)
Record quiet (w w' : World) : Prop := {
  q_locks : w'.(locks) = w.(locks);
  q_job_locks : w'.(job_locks) = w.(job_locks);
  q_queue : w'.(queue) = w.(queue);
  q_event : w'.(queue_event) = w.(queue_event);
  q_tasks : w'.(tasks) = w.(tasks);
  q_view : ∀ j, jview w' j = jview w j;
  q_state : ∀ j, stateof w' j = stateof w j;
  q_dict : ∀ e, e ∈ w'.(deque).(dict) → e ∈ w.(deque).(dict);
}.

#[local] Instance quiet_po : PreOrder quiet.
Proof.
  split.
  - intros w; by split.
  - intros w1 w2 w3 [] []; split; intros; try congruence; auto.
Qed.

Lemma stateof_Some w j s : stateof w j = Some s ↔ ∃ x, w.(jobs) !! j = Some x ∧ x.(state) = s.
Proof. unfold stateof. rewrite fmap_Some. naive_solver. Qed.

Lemma jview_is_Some w j : is_Some (w.(jobs) !! j) ↔ is_Some (jview w j).
Proof. unfold jview. by rewrite fmap_is_Some. Qed.

(** The new phase and state of one job, everything else as in [quiet]. *)
Record moves (j : nat) (p : Phase) (w w' : World) : Prop := {
  m_locks : w'.(locks) = w.(locks);
  m_job_locks : w'.(job_locks) = w.(job_locks);
  m_queue : w'.(queue) = w.(queue);
  m_event : w'.(queue_event) = w.(queue_event);
  m_tasks : w'.(tasks) = <[j := p]> w.(tasks);
  m_view : ∀ k, jview w' k = jview w k;
  m_state : ∀ k, k ≠ j → stateof w' k = stateof w k;
  m_phase : ∃ s, stateof w' j = Some s ∧ phase_ok p s;
  m_final : ∀ s, stateof w j = Some s → terminal s = true → stateof w' j = Some s;
  m_dict : ∀ e, e ∈ w'.(deque).(dict) → e ∈ w.(deque).(dict);
}.

Lemma quiet_moves j p w1 w2 w3 : moves j p w1 w2 → quiet w2 w3 → moves j p w1 w3.
Proof.
  intros [] []; split; intros; try congruence; auto.
  - rewrite q_state0. by apply m_state0.
  - by rewrite q_state0.
  - rewrite q_state0. by apply m_final0.
Qed.

Lemma deque_inv_view w w' :
  (∀ j, jview w' j = jview w j) → (∀ e, e ∈ w'.(deque).(dict) → e ∈ w.(deque).(dict)) →
  deque_inv w → deque_inv w'.
Proof.
  intros Hv Hd H e He. apply jview_is_Some. rewrite Hv. by apply jview_is_Some, H, Hd.
Qed.

Lemma state_inv_stateof w : state_inv w ↔
  (∀ j p, w.(tasks) !! j = Some p → ∃ s, stateof w j = Some s ∧ phase_ok p s) ∧
  (∀ j, j ∈ w.(queue) → w.(tasks) !! j = None ∧ stateof w j = Some WAITING).
Proof.
  setoid_rewrite stateof_Some. split; [intros []|intros [H1 H2]]; split; naive_solver.
Qed.

Lemma moves_Inv j p p' w w' :
  w.(tasks) !! j = Some p → p ≠ Finished → p' ≠ Finished →
  moves j p' w w' → Inv w → Inv w'.
Proof.
  intros Hj Hp Hp' [] (Hl & Hs & Hd). split_and!.
  - eapply same_locks_inv; [|exact Hl]. split; try done.
    intros k. unfold active. rewrite m_tasks0.
    destruct (decide (k = j)) as [->|Hne]; simplify_map_eq; naive_solver.
  - apply state_inv_stateof in Hs as [Hs1 Hs2]. apply state_inv_stateof. split.
    + intros k q. rewrite m_tasks0. destruct (decide (k = j)) as [->|Hne]; simplify_map_eq.
      * by intros [= <-].
      * rewrite m_state0 by done. apply Hs1.
    + intros k. rewrite m_queue0. intros Hk. destruct (Hs2 k Hk) as [Ht Hsk].
      assert (k ≠ j) by congruence. rewrite m_tasks0, m_state0 by done. by simplify_map_eq.
  - by eapply deque_inv_view.
Qed.

Lemma quiet_Inv w w' : quiet w w' → Inv w → Inv w'.
Proof.
  intros [] (Hl & Hs & Hd). split_and!.
  - eapply same_locks_inv; [|exact Hl]. split; try done.
    intros k. unfold active. by rewrite q_tasks0.
  - apply state_inv_stateof in Hs. apply state_inv_stateof. rewrite q_tasks0, q_queue0.
    by setoid_rewrite q_state0.
  - by eapply deque_inv_view.
Qed.

(** ** The operations, evaluated *)

Lemma get_job_eq w j x : w.(jobs) !! j = Some x → get_job j w = (Ret x, w).
Proof. unfold get_job. by intros ->. Qed.

Lemma jview_alter w j f k :
  (∀ x, (f x).(lock) = x.(lock) ∧ get_lock_name (f x) = get_lock_name x) →
  jview (with_jobs (alter f j) w) k = jview w k.
Proof.
  intros Hf. unfold jview; simpl. destruct (decide (j = k)) as [->|Hne].
  - rewrite lookup_alter_eq. destruct (jobs w !! k) as [x|]; simpl; [|done].
    by destruct (Hf x) as [-> ->].
  - by rewrite lookup_alter_ne.
Qed.

Lemma stateof_alter_ne w j f k : j ≠ k → stateof (with_jobs (alter f j) w) k = stateof w k.
Proof. intros Hne. unfold stateof; simpl. by rewrite lookup_alter_ne. Qed.

(** An update of a job that keeps its lock, its lock name and its state. *)
Lemma quiet_alter w j f :
  (∀ x, (f x).(lock) = x.(lock) ∧ get_lock_name (f x) = get_lock_name x ∧
        (f x).(state) = x.(state)) →
  quiet w (with_jobs (alter f j) w).
Proof.
  intros Hf. split; try done.
  - intros k. apply jview_alter. intros x. destruct (Hf x) as (?&?&?). done.
  - intros k. destruct (decide (j = k)) as [->|Hne]; [|by apply stateof_alter_ne].
    unfold stateof; simpl. rewrite lookup_alter_eq. destruct (jobs w !! k) as [x|]; simpl; [|done].
    by destruct (Hf x) as (?&?&->).
Qed.

Lemma quiet_events w f : quiet w (with_events f w).
Proof. by split. Qed.

Lemma quiet_logs w f : quiet w (with_log_files f w).
Proof. by split. Qed.

Lemma set_progress_quiet w j x pc desc ex :
  w.(jobs) !! j = Some x →
  ∃ w', set_progress j pc desc ex w = (Ret tt, w') ∧ quiet w w'.
Proof.
  intros Hx. unfold Job.set_progress, upd_job, modify, mbind, M_bind, get_job. simpl.
  rewrite lookup_alter_eq, Hx. simpl. eexists; split; [done|].
  etrans; [|apply quiet_events]. by apply quiet_alter.
Qed.

(** One job gets the state [s], everything else as in [quiet]. *)
Record restates (j : nat) (s : State) (w w' : World) : Prop := {
  r_locks : w'.(locks) = w.(locks);
  r_job_locks : w'.(job_locks) = w.(job_locks);
  r_queue : w'.(queue) = w.(queue);
  r_event : w'.(queue_event) = w.(queue_event);
  r_tasks : w'.(tasks) = w.(tasks);
  r_view : ∀ k, jview w' k = jview w k;
  r_other : ∀ k, k ≠ j → stateof w' k = stateof w k;
  r_state : stateof w' j = Some s;
  r_dict : ∀ e, e ∈ w'.(deque).(dict) → e ∈ w.(deque).(dict);
}.

Lemma restates_quiet_l j s w1 w2 w3 : quiet w1 w2 → restates j s w2 w3 → restates j s w1 w3.
Proof.
  intros [] []; split; intros; try congruence; auto.
  rewrite r_other0 by done. apply q_state0.
Qed.

Lemma restates_quiet_r j s w1 w2 w3 : restates j s w1 w2 → quiet w2 w3 → restates j s w1 w3.
Proof.
  intros [] []; split; intros; try congruence; auto.
  rewrite q_state0. by apply r_other0.
Qed.

Lemma quiet_restates j s w w' : stateof w j = Some s → quiet w w' → restates j s w w'.
Proof. intros Hs []. split; auto. by rewrite q_state0. Qed.

Lemma restates_moves j s p w w' :
  restates j s w w' → phase_ok p s →
  (∀ s0, stateof w j = Some s0 → terminal s0 = true → s0 = s) →
  moves j p w (with_tasks <[j := p]> w').
Proof.
  intros [] Hp Hfin. split; simpl; try done; [by rewrite r_tasks0|eauto|].
  intros s0 Hs0 Ht. by rewrite (Hfin s0 Hs0 Ht).
Qed.

Lemma set_state_restates w j x s now x' :
  w.(jobs) !! j = Some x → set_state s now x = Ret x' →
  set_state_m j s now w = (Ret tt, with_jobs (alter (λ _, x') j) w) ∧
  restates j s w (with_jobs (alter (λ _, x') j) w).
Proof.
  intros Hx Hs. unfold set_state_m, mbind, M_bind, upd_job, modify.
  rewrite (get_job_eq _ _ _ Hx), Hs. split; [done|].
  assert (x' = J_state s (if terminal s then Some now else x.(time_finished)) x) as ->.
  { unfold set_state in Hs. by destruct (state x), s; simplify_eq. }
  split; try done.
  - intros k. unfold jview; simpl. destruct (decide (j = k)) as [<-|Hne].
    + by rewrite lookup_alter_eq, Hx.
    + by rewrite lookup_alter_ne.
  - intros k Hk. by apply stateof_alter_ne.
  - unfold stateof; simpl. by rewrite lookup_alter_eq, Hx.
Qed.

Lemma stateof_set_state w j s s' now :
  stateof w j = Some s →
  (s = WAITING ∧ s' ≠ WAITING ∧ s' ≠ SUCCESS) ∨ (s = RUNNING ∧ s' ≠ WAITING ∧ s' ≠ RUNNING) →
  ∃ w', set_state_m j s' now w = (Ret tt, w') ∧ restates j s' w w'.
Proof.
  intros (x & Hx & Hs)%stateof_Some Hss.
  assert (set_state s' now x =
    Ret (J_state s' (if terminal s' then Some now else x.(time_finished)) x)) as Hset.
  { unfold set_state. rewrite Hs. destruct Hss as [(-> & ? & ?)|(-> & ? & ?)]; by destruct s'. }
  destruct (set_state_restates _ _ _ _ _ _ Hx Hset). eauto.
Qed.

(** ** The segments of [run] *)

Lemma stateof_lookup w j s : stateof w j = Some s → ∃ x, w.(jobs) !! j = Some x.
Proof. rewrite stateof_Some. naive_solver. Qed.

Lemma handle_exception_restates w j s now e :
  stateof w j = Some s → s = WAITING ∨ s = RUNNING →
  ∃ w' s', handle_exception errname j now e w = (Ret tt, w') ∧ restates j s' w w' ∧ terminal s' = true.
Proof.
  intros Hs Hs'. unfold handle_exception.
  assert (∀ s', terminal s' = true ∧ s' ≠ SUCCESS →
    ∃ w', set_state_m j s' now w = (Ret tt, w') ∧ restates j s' w w') as Hset.
  { intros s' [Ht Hn]. eapply stateof_set_state; [done|].
    destruct Hs' as [->| ->]; [left|right]; destruct s'; naive_solver. }
  destruct (decide (e = CancelledError)) as [->|He].
  - destruct (Hset ABORTED) as (w' & -> & Hr); [done|]. eauto.
  - destruct (Hset FAILED) as (w' & Hw' & Hr); [done|].
    assert (∃ w'', (set_state_m j FAILED now ;; upd_job j (set_exception errname e)) w = (Ret tt, w'')
      ∧ restates j FAILED w w'') as (w'' & Hw'' & Hr'').
    { unfold mbind, M_bind. rewrite Hw'. eexists; split; [done|].
      eapply restates_quiet_r; [exact Hr|]. by apply quiet_alter. }
    exists w'', FAILED. split; [|done]. by destruct e.
Qed.

Lemma run_body_moves w j now r :
  stateof w j = Some RUNNING →
  ∃ p w', run_body j now r w = (Ret tt, w') ∧ p ≠ Finished ∧ moves j p w w'.
Proof.
  intros Hs. destruct r as [rv|e]; simpl.
  2: { eexists (BodyDone (Raise e)), _. split; [done|]. split; [done|].
       eapply restates_moves; [by apply quiet_restates|done|naive_solver]. }
  set (w1 := with_jobs (alter (set_result rv) j) w).
  assert (quiet w w1) as Hq1 by (by apply quiet_alter).
  destruct (stateof_set_state w1 j RUNNING SUCCESS now) as (w2 & H2 & Hr2);
    [by rewrite (q_state _ _ Hq1)|by right|].
  destruct (stateof_lookup w2 j SUCCESS (r_state _ _ _ _ Hr2)) as [x2 Hx2].
  assert (∃ w3, (if decide (percent (progress x2) = Some 100%Z) then mret tt
    else set_progress j (Some 100%Z) (Some "") None) w2 = (Ret tt, w3) ∧ quiet w2 w3)
    as (w3 & H3 & Hq3).
  { case_decide; [by exists w2|]. by eapply set_progress_quiet. }
  exists (BodyDone (Ret tt)), (with_tasks <[j := BodyDone (Ret tt)]> w3). split.
  - unfold Job.run_body, mbind, M_bind, upd_job, modify. simpl. fold w1. rewrite H2. simpl.
    rewrite (get_job_eq _ _ _ Hx2). simpl. rewrite H3. done.
  - split; [done|]. eapply restates_moves; [|done|naive_solver].
    eapply restates_quiet_l; [exact Hq1|]. by eapply restates_quiet_r.
Qed.

Lemma run_resume_moves w j now r :
  phase_ok (BodyDone r) (from_option (λ s, s) WAITING (stateof w j)) → is_Some (stateof w j) →
  ∃ p w', run_resume j now r w = (Ret tt, w') ∧ p ≠ Finished ∧ moves j p w w'.
Proof.
  intros Hp [s Hs]. rewrite Hs in Hp. destruct r as [|e]; simpl in Hp; subst.
  - eexists Closing, _. split; [done|]. split; [done|].
    eapply restates_moves; [by apply quiet_restates|done|naive_solver].
  - unfold Job.run_resume. set (e' := match e with CancelledError => e | _ => _ end).
    destruct (handle_exception_restates w j RUNNING now e') as (w' & s' & H' & Hr & Ht); [done|auto|].
    exists Closing, (with_tasks <[j := Closing]> w'). unfold try_finally. rewrite H'.
    split; [done|]. split; [done|]. eapply restates_moves; [done|done|naive_solver].
Qed.

Lemma run_start_moves w j now log_ok :
  stateof w j = Some WAITING →
  ∃ o p w', run_start j now log_ok w = (o, w') ∧ p ≠ Finished ∧ moves j p w w' ∧
    (o = Ret tt ∨ log_ok = false ∧ p = Crashed).
Proof.
  intros Hs. unfold Job.run_start, open_logs.
  destruct (stateof_lookup _ _ _ Hs) as [x Hx].
  unfold mbind, M_bind. rewrite (get_job_eq _ _ _ Hx).
  assert (∃ w1 o, (if logs (options x)
    then upd_job j (J_logs (Some ("/tmp/middlewared/jobs/" +:+ from_option pretty "None" (id x) +:+ ".log"))) ;;
      (if log_ok then modify (with_log_files (λ fs, {["/tmp/middlewared/jobs/" +:+ from_option pretty "None" (id x) +:+ ".log"]} ∪ fs))
       else set_phase j Crashed ;; raise (OtherError "OSError"))
    else mret tt) w = (o, w1) ∧
    ((o = Ret tt ∧ quiet w w1) ∨
     (log_ok = false ∧ o = Raise (OtherError "OSError") ∧ moves j Crashed w w1))) as (w1 & o & H1 & Ho).
  { destruct (logs (options x)); [|exists w, (Ret tt); split; [done|left; by split]].
    unfold mbind, M_bind, upd_job, modify. simpl. destruct log_ok; simpl.
    - do 2 eexists; split; [done|]. left; split; [done|].
      etrans; [|apply quiet_logs]. by apply quiet_alter.
    - do 2 eexists; split; [done|]. right; split_and!; [done|done|].
      eapply restates_moves; [|done|naive_solver].
      apply quiet_restates; [done|]. by apply quiet_alter. }
  unfold mbind, M_bind in H1. rewrite H1.
  destruct Ho as [[-> Hq]|(-> & -> & Hm)].
  2: { eexists _, Crashed, _. split; [done|]. eauto. }
  assert (stateof w1 j = Some WAITING) as Hs1 by (by rewrite (q_state _ _ Hq)).
  destruct (stateof_lookup _ _ _ Hs1) as [x1 Hx1].
  unfold try_except. rewrite (get_job_eq _ _ _ Hx1). destruct (aborted x1).
  - simpl. destruct (handle_exception_restates w1 j WAITING now CancelledError)
      as (w2 & s' & H2 & Hr & Ht); [done|auto|]. unfold try_finally. simpl in H2. rewrite H2.
    eexists _, Closing, _. split; [done|]. split; [done|]. split; [|auto].
    eapply restates_moves; [by eapply restates_quiet_l|done|naive_solver].
  - destruct (stateof_set_state w1 j WAITING RUNNING now) as (w2 & H2 & Hr); [done|by left|].
    rewrite H2. eexists _, Body, _. split; [done|]. split; [done|]. split; [|auto].
    eapply restates_moves; [by eapply restates_quiet_l|done|naive_solver].
Qed.

(** ** Adding a job *)

(** A new job and its lock appear; the other jobs and what is locked stay. *)
Record grows (w w' : World) : Prop := {
  g_queue : w'.(queue) = w.(queue);
  g_event : w'.(queue_event) = w.(queue_event);
  g_tasks : w'.(tasks) = w.(tasks);
  g_dict : w'.(deque).(dict) = w.(deque).(dict);
  g_view : ∀ k, is_Some (w.(jobs) !! k) → jview w' k = jview w k;
  g_state : ∀ k, is_Some (w.(jobs) !! k) → stateof w' k = stateof w k;
  g_job_locks : w.(job_locks) ⊆ w'.(job_locks);
  g_locks : ∀ l L, w.(locks) !! l = Some L → ∃ L', w'.(locks) !! l = Some L' ∧
    L'.(lock_name) = L.(lock_name) ∧ L'.(is_locked) = L.(is_locked) ∧ L.(lock_jobs) ⊆ L'.(lock_jobs);
  g_locked : ∀ l L', w'.(locks) !! l = Some L' → L'.(is_locked) = true →
    ∃ L, w.(locks) !! l = Some L ∧ L.(is_locked) = true;
  g_reg : ∀ n l, w'.(job_locks) !! n = Some l → ∃ L', w'.(locks) !! l = Some L' ∧ L'.(lock_name) = n;
}.

Lemma live_is_Some w j : Inv w → j ∈ w.(queue) ∨ active w j → is_Some (w.(jobs) !! j).
Proof.
  intros ([] & _ & _) Hj. apply jview_is_Some. destruct (li_live0 j Hj) as (?&?&->&?). eauto.
Qed.

Lemma grows_good_lock w w' j ol on : grows w w' → good_lock w j ol on → good_lock w' j ol on.
Proof.
  intros [] Hg. destruct on as [n|]; simpl in *; [|done].
  destruct Hg as (l & L & -> & Hn & HL & HLn & Hj).
  destruct (g_locks0 _ _ HL) as (L' & HL' & Hn' & _ & Hsub).
  exists l, L'. split_and!; [done| |done|congruence|set_solver].
  by eapply lookup_weaken.
Qed.

Lemma grows_Inv w w' : grows w w' → Inv w → Inv w'.
Proof.
  intros Hg HI. pose proof Hg as []. pose proof HI as ([] & Hs & Hd).
  assert (∀ k, active w' k ↔ active w k) as Ha by (intros k; unfold active; by rewrite g_tasks0).
  assert (∀ k v, k ∈ w.(queue) ∨ active w k → jview w' k = Some v → jview w k = Some v) as Hback.
  { intros k v Hk <-. symmetry. by apply g_view0, live_is_Some. }
  assert (∀ k v, jview w k = Some v → jview w' k = Some v) as Hfwd.
  { intros k v Hk. rewrite <- Hk. apply g_view0, jview_is_Some. eauto. }
  split_and!.
  - split; rewrite ?g_queue0, ?g_event0; try setoid_rewrite Ha; try done.
    + intros k Hk. destruct (li_live0 k Hk) as (ol & on & Hv & Hgl).
      exists ol, on. eauto using grows_good_lock.
    + intros k l on Hk Hv. destruct (li_holds0 k l on) as (L & HL & Hlk); [done|eauto|].
      destruct (g_locks0 _ _ HL) as (L' & HL' & _ & Hl' & _). exists L'. by rewrite Hl'.
    + intros j1 j2 l on1 on2 H1 H2 Hv1 Hv2. eapply (li_mutex0 j1 j2); eauto.
    + intros l L' HL' Hlk. destruct (g_locked0 _ _ HL' Hlk) as (L & HL & Hlk').
      destruct (li_held0 _ _ HL Hlk') as (j & on & Hj & Hv). eauto.
    + intros He k Hk. destruct (li_event0 He k Hk) as (l & L & on & Hv & HL & Hlk).
      destruct (g_locks0 _ _ HL) as (L' & HL' & _ & Hl' & _).
      exists l, L', on. split_and!; [eauto|done|by rewrite Hl'].
  - apply state_inv_stateof in Hs as [Hs1 Hs2]. apply state_inv_stateof.
    rewrite g_tasks0, g_queue0. split.
    + intros k p Hp. destruct (Hs1 k p Hp) as (s & Hks & Hok). exists s. split; [|done].
      rewrite g_state0; [done|]. destruct (stateof_lookup _ _ _ Hks); eauto.
    + intros k Hk. destruct (Hs2 k Hk) as [Ht Hks]. split; [done|].
      rewrite g_state0; [done|]. destruct (stateof_lookup _ _ _ Hks); eauto.
  - intros e. rewrite g_dict0. intros He. apply jview_is_Some. rewrite g_view0 by auto.
    by apply jview_is_Some, Hd.
Qed.

Lemma insert_job_grows w j x : w.(jobs) !! j = None → Inv w → grows w (with_jobs <[j := x]> w).
Proof.
  intros Hj ([] & _ & _). split; simpl; try done; eauto 10.
  - intros k [y Hy]. unfold jview; simpl. by rewrite lookup_insert_ne by congruence.
  - intros k [y Hy]. unfold stateof; simpl. by rewrite lookup_insert_ne by congruence.
Qed.

(** [handle_lock] on the new job [j]: its lock becomes the registered one. *)
Lemma handle_lock_grows w j x :
  w.(jobs) !! j = None → Inv w → x.(lock) = None →
  let w1 := with_jobs <[j := x]> w in
  ∃ w2 ol, handle_lock j w1 = (Ret tt, w2) ∧ grows w w2 ∧
    w2.(jobs) !! j = Some (J_lock ol x) ∧ good_lock w2 j ol (get_lock_name x).
Proof.
  intros Hj HI Hlx w1. pose proof HI as (HL & _ & _).
  unfold handle_lock, mbind, M_bind. rewrite (get_job_eq w1 j x) by apply lookup_insert_eq.
  destruct (get_lock_name x) as [n|] eqn:Hn.
  2: { exists w1, None. split_and!; [done|by apply insert_job_grows| |done].
       unfold w1; simpl. rewrite lookup_insert_eq. destruct x; simpl in *; by subst. }
  assert (∀ l L, (∀ L0, w.(locks) !! l = Some L0 → L = L0) →
    (w.(locks) !! l = None → is_locked L = false) → lock_name L = n →
    (w.(job_locks) !! n = None ∨ w.(job_locks) !! n = Some l) →
    let w2 := with_jobs (alter (J_lock (Some l)) j)
      (with_job_locks <[n := l]> (with_locks <[l := add_job j L]> w1)) in
    grows w w2 ∧ w2.(jobs) !! j = Some (J_lock (Some l) x) ∧ good_lock w2 j (Some l) (Some n)) as Hmk.
  { intros l L HL0 Hnone Hname Hreg w2. split_and!.
    - split; try done.
      + intros k [y Hy]. unfold jview, w2, w1; simpl.
        by rewrite lookup_alter_ne, lookup_insert_ne by congruence.
      + intros k [y Hy]. unfold stateof, w2, w1; simpl.
        by rewrite lookup_alter_ne, lookup_insert_ne by congruence.
      + unfold w2; simpl. destruct Hreg as [Hr|Hr]; [by apply insert_subseteq|by rewrite insert_id].
      + intros k K HK. unfold w2, w1; simpl. destruct (decide (k = l)) as [->|Hne]; simplify_map_eq.
        * rewrite (HL0 _ HK). eexists; split; [done|]. simpl. split_and!; set_solver.
        * by exists K.
      + intros k K. unfold w2, w1; simpl. destruct (decide (k = l)) as [->|Hne]; simplify_map_eq; [|eauto].
        intros [= <-] Hlk. simpl in Hlk. destruct (locks w !! l) as [L0|] eqn:E.
        * rewrite (HL0 _ eq_refl) in Hlk. eauto.
        * rewrite Hnone in Hlk; done.
      + intros m k. unfold w2, w1; simpl. destruct (decide (m = n)) as [->|Hne]; simplify_map_eq.
        * intros [= <-]. exists (add_job j L). by simplify_map_eq.
        * intros Hm. destruct (li_reg _ HL _ _ Hm) as (K & HK & HKn).
          destruct (decide (k = l)) as [->|Hkl]; simplify_map_eq; [|eauto].
          exists (add_job j L). split; [done|]. simpl. by rewrite (HL0 _ HK).
    - unfold w2, w1; simpl. by rewrite lookup_alter_eq, lookup_insert_eq.
    - exists l, (add_job j L). unfold w2, w1; simpl. simplify_map_eq. split_and!; try done. set_solver. }
  unfold get_state. simpl. destruct (job_locks w !! n) as [l|] eqn:Hreg.
  - destruct (li_reg _ HL _ _ Hreg) as (L & HLl & HLn).
    destruct (Hmk l L) as (Hg & Hx & Hgl); [congruence|congruence|done|by right|].
    unfold get_lock, put_lock, upd_job, modify; simpl. rewrite HLl; simpl.
    assert (with_job_locks <[n := l]> (with_locks <[l := add_job j L]> w1)
      = with_locks <[l := add_job j L]> w1) as Heq.
    { unfold with_job_locks, w1; simpl. by rewrite (insert_id (job_locks w)). }
    rewrite Heq in *. eexists _, (Some l). split; [done|]. auto.
  - set (l := fresh (dom (locks w))).
    assert (locks w !! l = None) as Hfresh by (apply not_elem_of_dom, is_fresh).
    destruct (Hmk l (mkLock n ∅ false)) as (Hg & Hx & Hgl);
      [by rewrite Hfresh|done|done|by left|].
    unfold get_lock, put_lock, upd_job, modify; simpl. rewrite lookup_insert_eq; simpl.
    eexists _, (Some l). split; [|by split_and!].
    unfold with_jobs, with_locks, with_job_locks; simpl. by rewrite insert_insert_eq.
Qed.

Lemma deque_remove_quiet w i :
  deque_inv w → ∃ w', deque_remove i w = (Ret tt, w') ∧ quiet w w' ∧
    ∀ k, is_Some (w.(jobs) !! k) → is_Some (w'.(jobs) !! k).
Proof.
  intros Hd. unfold deque_remove, mbind, M_bind, get_state. simpl.
  destruct (dict_get _ i) as [j|] eqn:Hg; [|by exists w].
  unfold dict_get in Hg. apply fmap_Some in Hg as (e & He & ->).
  apply List.find_some in He as [He _]. apply list_elem_of_In in He.
  destruct (Hd e He) as [x Hx]. rewrite (get_job_eq _ _ _ Hx).
  assert (∃ w1, cleanup x w = (Ret tt, w1) ∧ quiet w w1 ∧ w1.(jobs) = w.(jobs)) as (w1 & -> & Hq & Hj1).
  { unfold cleanup. destruct (logs_path x); eexists; split; try done. }
  eexists; split; [done|]. split; [|simpl; by rewrite Hj1].
  etrans; [exact Hq|]. split; try done. simpl. intros e'.
  unfold dict_del. rewrite !list_elem_of_In, List.filter_In. naive_solver.
Qed.

(** [deque.add(job)]: the job gets its number and is the last entry. *)
Lemma deque_add_spec w j x :
  deque_inv w → w.(jobs) !! j = Some x →
  ∃ w1 x', deque_add j w = (Ret tt, with_deque (λ d, mkDeque d.(maxlen) d.(count)
      (d.(dict) ++ [(S w.(deque).(count), j)])) w1) ∧ quiet w w1 ∧ w1.(jobs) !! j = Some x'.
Proof.
  intros Hd Hx. unfold deque_add, mbind, M_bind, get_state, upd_job, modify. simpl.
  set (w1 := with_jobs _ _).
  assert (quiet w w1) as Hq1.
  { etrans; [|by apply quiet_alter]. by split. }
  assert (deque_inv w1) as Hd1 by (destruct Hq1; by eapply deque_inv_view).
  assert (∀ m, (∃ i, m = deque_remove i) ∨ m = mret tt →
    ∃ w2, m w1 = (Ret tt, w2) ∧ quiet w1 w2 ∧ is_Some (w2.(jobs) !! j)) as Hrm.
  { assert (is_Some (jobs w1 !! j)) as Hj1.
    { unfold w1; simpl. rewrite lookup_alter_eq, Hx. eauto. }
    intros m [[i ->]| ->]; [|by exists w1].
    destruct (deque_remove_quiet w1 i Hd1) as (w2 & -> & Hq & Hk). eauto. }
  match goal with |- context [ (if ?c then ?a else ?b) w1 ] =>
    destruct (Hrm (if c then a else b)) as (w2 & -> & Hq2 & x' & Hx') end.
  { destruct (_ <? _)%nat; [|by right]. destruct (List.find _ _) as [old|]; [left; eauto|by right]. }
  exists w2, x'. split; [done|]. split; [by etrans|done].
Qed.

(** A new job at the end of the queue, the event set. *)
Definition enqueued (j : nat) (w : World) : World :=
  set_event true (with_queue (λ q, q ++ [j]) w).

Lemma enqueued_Inv w j ol on :
  Inv w → j ∉ w.(queue) → w.(tasks) !! j = None → stateof w j = Some WAITING →
  jview w j = Some (ol, on) → good_lock w j ol on → Inv (enqueued j w).
Proof.
  intros ([] & Hs & Hd) Hq Ht Hst Hv Hg.
  assert (¬ active w j) as Hna by (intros (p & Hp & _); congruence).
  split_and!; [| |done].
  - split; simpl; try done.
    + apply NoDup_app. split_and!; [done| |apply NoDup_singleton]. set_solver.
    + intros k. rewrite elem_of_app, list_elem_of_singleton. intros [Hk| ->]; [by apply li_disj0|done].
    + intros k. rewrite elem_of_app, list_elem_of_singleton. intros [[Hk| ->]|Hk]; eauto.
  - apply state_inv_stateof in Hs as [Hs1 Hs2]. apply state_inv_stateof. simpl. split; [done|].
    intros k. rewrite elem_of_app, list_elem_of_singleton. intros [Hk| ->]; [by apply Hs2|done].
Qed.

Lemma enqueue_spec w2 j x ol :
  Inv w2 → w2.(jobs) !! j = Some (J_lock ol x) → x.(state) = WAITING →
  j ∉ w2.(queue) → w2.(tasks) !! j = None → good_lock w2 j ol (get_lock_name x) →
  ∃ w', enqueue format_exception j w2 = (Ret j, w') ∧ Inv w' ∧
    w'.(queue) = w2.(queue) ++ [j] ∧ w'.(queue_event) = true ∧
    ∀ k, stateof w' k = stateof w2 k.
Proof.
  intros HI2 Hx Hs Hnq Hnt Hgl. unfold enqueue, mbind, M_bind.
  destruct (deque_add_spec w2 j _ (proj2 (proj2 HI2)) Hx) as (w3 & x' & -> & Hq & Hx').
  set (w4 := with_deque _ w3). unfold modify. simpl.
  rewrite (get_job_eq _ _ x') by done.
  assert (∃ w5, (if transient (options x') then mret tt else send_event format_exception "ADDED" x')
    (with_queue (λ q, q ++ [j]) w4) = (Ret tt, with_queue (λ q, q ++ [j]) w5) ∧
    w5.(deque) = w4.(deque) ∧ quiet w3 (with_deque (λ _, w3.(deque)) w5)) as (w5 & -> & Hd5 & Hq5).
  { destruct (transient (options x')).
    - exists w4. split_and!; [done|done|]. by split.
    - exists (with_events (λ es, es ++ [mkEvent "ADDED" (id x') (encode format_exception x')]) w4).
      split_and!; [done|done|]. by split. }
  exists (enqueued j w5). split; [done|].
  assert (quiet w2 (with_deque (λ _, w3.(deque)) w5)) as Hq25 by (by etrans).
  pose proof (quiet_Inv _ _ Hq25 HI2) as (HL5 & HS5 & HD5).
  assert (jview w5 j = Some (ol, get_lock_name x) ∧ stateof w5 j = Some WAITING) as [Hv5 Hs5].
  { destruct Hq25 as [_ _ _ _ _ Hv Hst _]. specialize (Hv j). specialize (Hst j).
    change (jview w5 j = jview w2 j) in Hv. change (stateof w5 j = stateof w2 j) in Hst.
    rewrite Hv, Hst. unfold jview, stateof. rewrite Hx. simpl. rewrite Hs. by split. }
  destruct Hq25; simpl in *. split_and!; [|by rewrite q_queue0|done|exact q_state0].
  eapply enqueued_Inv; [|by rewrite q_queue0|by rewrite q_tasks0|done|done|].
  - split_and!.
    + eapply same_locks_inv; [|exact HL5]. by split.
    + apply state_inv_stateof in HS5. by apply state_inv_stateof.
    + intros e. rewrite Hd5. unfold w4; simpl. rewrite elem_of_app, list_elem_of_singleton.
      intros [He| ->]; [by apply (HD5 e)|]. simpl. apply jview_is_Some. rewrite Hv5. eauto.
  - destruct (get_lock_name x); simpl in *; [|done]. by rewrite q_job_locks0, q_locks0.
Qed.

Lemma fresh_job w j : Inv w → w.(jobs) !! j = None → j ∉ w.(queue) ∧ w.(tasks) !! j = None.
Proof.
  intros HI Hj. split.
  - intros Hin. destruct (live_is_Some w j HI); [by left|congruence].
  - destruct (tasks w !! j) eqn:E; [|done]. destruct HI as (_ & [] & _).
    destruct (si_task0 _ _ E) as (? & ? & ?); congruence.
Qed.

Lemma add_spec w j x :
  Inv w → w.(jobs) !! j = None → x.(lock) = None → x.(state) = WAITING →
  ∃ o w', add j (with_jobs <[j := x]> w) = (o, w') ∧ Inv w' ∧
    (∀ k, is_Some (w.(jobs) !! k) → stateof w' k = stateof w k) ∧
    (o = Raise IndexError ∧ x.(options).(lock_queue_size) = Some 0 ∨
     (∃ k, o = Ret k ∧ k ≠ j ∧ k ∈ w.(queue) ∧ w'.(queue) = w.(queue)) ∨
     o = Ret j ∧ w'.(queue) = w.(queue) ++ [j] ∧ w'.(queue_event) = true).
Proof.
  intros HI Hj Hl Hs. destruct (handle_lock_grows w j x Hj HI Hl) as (w2 & ol & H2 & Hg & Hx & Hgl).
  destruct (fresh_job w j HI Hj) as [Hnq Hnt].
  pose proof (grows_Inv _ _ Hg HI) as HI2.
  unfold Job.add, mbind, M_bind. rewrite H2, (get_job_eq _ _ _ Hx). unfold get_state.
  destruct (enqueue_spec w2 j x ol) as (w' & Henq & HI' & Hq' & He' & Hst); try done.
  { by rewrite (g_queue _ _ Hg). }
  { by rewrite (g_tasks _ _ Hg). }
  rewrite (g_queue _ _ Hg) in *. 
  assert (∀ k, is_Some (w.(jobs) !! k) → stateof w' k = stateof w k) as Hst'.
  { intros k Hk. rewrite Hst. by apply (g_state _ _ Hg). }
  simpl. destruct (lock_queue_size (options x)) as [size|]; [|by exists (Ret j), w'; eauto 10].
  destruct (size <=? _)%nat eqn:Hsz; [|by exists (Ret j), w'; eauto 10].
  apply Nat.leb_le in Hsz. destruct (last _) as [k|] eqn:Hlast.
  - exists (Ret k), w2. split_and!; [done|done|apply (g_state _ _ Hg)|]. right; left. exists k.
    assert (k ∈ w.(queue)) as Hk.
    { apply last_Some_elem_of in Hlast. rewrite list_elem_of_In, List.filter_In in Hlast.
      rewrite list_elem_of_In. tauto. }
    split_and!; [done|congruence|done|by destruct Hg].
  - exists (Raise IndexError), w2. split_and!; [done|done|apply (g_state _ _ Hg)|]. left. split; [done|].
    apply last_None in Hlast. rewrite Hlast in Hsz. simpl in Hsz. f_equal; lia.
Qed.

(** ** The end of a job *)

Lemma active_finished w j k :
  active (with_tasks <[j := Finished]> w) k ↔ k ≠ j ∧ active w k.
Proof.
  unfold active; simpl. destruct (decide (k = j)) as [->|Hne].
  - rewrite lookup_insert_eq. naive_solver.
  - rewrite lookup_insert_ne by done. naive_solver.
Qed.

Lemma active_not_queued w j : Inv w → active w j → j ∉ w.(queue).
Proof. intros ([] & _ & _) Ha Hq. by apply (li_disj0 j). Qed.

(** Job [j] leaves and its lock, if it has one, is free again. *)
Record releases (j : nat) (ol : option nat) (w w' : World) : Prop := {
  e_queue : w'.(queue) = w.(queue);
  e_tasks : w'.(tasks) = w.(tasks);
  e_jobs : w'.(jobs) = w.(jobs);
  e_dict : w'.(deque).(dict) = w.(deque).(dict);
  e_event : w'.(queue_event) = match ol with Some _ => true | None => w.(queue_event) end;
  e_locks : ∀ l L', w'.(locks) !! l = Some L' ↔ ∃ L, w.(locks) !! l = Some L ∧
    L' = if decide (ol = Some l) then mkLock L.(lock_name) (L.(lock_jobs) ∖ {[j]}) false else L;
  e_job_locks : w'.(job_locks) ⊆ w.(job_locks);
  e_kept : ∀ n l, w.(job_locks) !! n = Some l → w'.(job_locks) !! n = Some l ∨
    ∃ L, ol = Some l ∧ w.(locks) !! l = Some L ∧ L.(lock_jobs) ∖ {[j]} = ∅;
}.

Lemma releases_good_lock j w w' k ol ol' on :
  releases j ol w w' → k ≠ j → good_lock w k ol' on → good_lock w' k ol' on.
Proof.
  intros [] Hkj. destruct on as [n|]; simpl; [|done].
  intros (l & L & -> & Hn & HL & Hname & Hk).
  destruct (e_kept0 n l Hn) as [Hn'|(L0 & -> & HL0 & Hemp)]; [|set_solver].
  exists l, (if decide (ol = Some l) then mkLock L.(lock_name) (L.(lock_jobs) ∖ {[j]}) false else L).
  split_and!; [done|done|by apply e_locks0; eauto|by case_decide|case_decide; set_solver].
Qed.

Lemma releases_Inv j ol on w w' :
  Inv w → w.(tasks) !! j = Some Closing → jview w j = Some (ol, on) →
  releases j ol w w' → Inv (with_tasks <[j := Finished]> w').
Proof.
  intros HI Hj Hv Hr. pose proof HI as ([] & Hs & Hd). pose proof Hr as [].
  assert (active w j) as Haj by (by exists Closing).
  pose proof (active_not_queued w j HI Haj) as Hnq.
  assert (∀ k, active (with_tasks <[j := Finished]> w') k ↔ k ≠ j ∧ active w k) as Hact.
  { intros k. rewrite active_finished. unfold active. by rewrite e_tasks0. }
  assert (∀ k, jview (with_tasks <[j := Finished]> w') k = jview w k) as Hvk.
  { intros k. unfold jview; simpl. by rewrite e_jobs0. }
  split_and!.
  - split; try setoid_rewrite Hact; try setoid_rewrite Hvk; simpl; rewrite ?e_queue0; try done.
    + intros k Hk [_ Hk']. by apply (li_disj0 k).
    + intros k Hk. destruct (li_live0 k) as (ol' & on' & Hv' & Hg'); [tauto|].
      exists ol', on'. split; [done|]. eapply (releases_good_lock j w w'); [done| |done].
      intros ->. tauto.
    + intros n l Hn. eapply lookup_weaken in Hn; [|exact e_job_locks0].
      destruct (li_reg0 _ _ Hn) as (L & HL & Hname).
      eexists. split; [by apply e_locks0; eauto|]. by case_decide.
    + intros k l on' [Hkj Hk] Hvk'. destruct (li_holds0 k l on' Hk Hvk') as (L & HL & Hlk).
      exists L. split; [|done]. apply e_locks0. exists L. split; [done|]. case_decide; [|done]. subst.
      destruct Hkj. by eapply li_mutex0.
    + intros j1 j2 l on1 on2 [_ H1] [_ H2]. by apply li_mutex0.
    + intros l L' (L & HL & ->)%e_locks0 Hlk. case_decide as Hol; [done|].
      destruct (li_held0 l L HL Hlk) as (k & on' & Hk & Hvk'). exists k, on'.
      split_and!; [|done|done]. intros ->. congruence.
    + rewrite e_event0. destruct ol as [l0|]; [done|]. intros He k Hk.
      destruct (li_event0 He k Hk) as (l & L & on' & Hvk' & HL & Hlk).
      exists l, L, on'. split_and!; [done| |done]. apply e_locks0. eauto.
  - apply state_inv_stateof in Hs as [Hs1 Hs2]. apply state_inv_stateof.
    unfold stateof in *; simpl. rewrite e_jobs0, e_queue0, e_tasks0. split.
    + intros k p. destruct (decide (k = j)) as [->|Hne]; simplify_map_eq; [|apply Hs1].
      intros [= <-]. by apply (Hs1 j Closing).
    + intros k Hk. rewrite lookup_insert_ne by set_solver. by apply Hs2.
  - intros e. simpl. rewrite e_dict0, e_jobs0. apply Hd.
Qed.

Lemma release_lock_releases w j ol on :
  Inv w → active w j → jview w j = Some (ol, on) →
  ∃ w', release_lock j w = (Ret tt, w') ∧ releases j ol w w'.
Proof.
  intros HI Hj Hv. pose proof HI as ([] & _ & _).
  unfold jview in Hv. apply fmap_Some in Hv as (x & Hx & [= -> ->]).
  assert (jview w j = Some (x.(lock), get_lock_name x)) as Hv by (unfold jview; by rewrite Hx).
  unfold release_lock, mbind, M_bind. rewrite (get_job_eq _ _ _ Hx).
  destruct (lock x) as [l|] eqn:Hl.
  2: { exists w. split; [done|]. split; try done; [naive_solver|by left]. }
  destruct (li_holds0 j l _ Hj Hv) as (L & HL & Hlk).
  assert (∃ n, job_locks w !! n = Some l ∧ L.(lock_name) = n) as (n & Hn & Hname).
  { destruct (li_live0 j) as (ol' & on' & Hv' & Hg); [by right|].
    rewrite Hv in Hv'. injection Hv' as <- <-.
    destruct (get_lock_name x) as [n|]; simpl in Hg; [|done].
    destruct Hg as (l' & L' & ? & ? & ? & ? & ?). exists n. naive_solver. }
  unfold get_lock. rewrite HL. unfold put_lock, modify, release. simpl. rewrite Hlk. simpl.
  unfold get_state. simpl.
  assert (∀ k K', <[l := mkLock L.(lock_name) (L.(lock_jobs) ∖ {[j]}) false]>
      (<[l := mkLock L.(lock_name) (L.(lock_jobs) ∖ {[j]}) true]> (locks w)) !! k = Some K' ↔
    ∃ K, locks w !! k = Some K ∧ K' = if decide (Some l = Some k)
      then mkLock K.(lock_name) (K.(lock_jobs) ∖ {[j]}) false else K) as Hlocks.
  { intros k K'. destruct (decide (k = l)) as [->|Hne].
    - rewrite lookup_insert_eq. split.
      + intros [= <-]. exists L. by rewrite decide_True.
      + intros (K & HK & ->). rewrite decide_True by done. naive_solver.
    - rewrite !lookup_insert_ne by done. split.
      + intros HK. exists K'. by rewrite decide_False by congruence.
      + intros (K & HK & ->). by rewrite decide_False by congruence. }
  unfold remove_job; simpl. rewrite ?Hlk. case_decide as Hemp.
  - simpl. rewrite Hname, Hn. simpl. eexists; split; [done|].
    split; simpl; try done; [by rewrite <- Hname|by apply delete_subseteq|].
    intros m k Hm. destruct (decide (m = n)) as [->|Hne].
    + right. exists L. naive_solver.
    + left. by rewrite lookup_delete_ne.
  - simpl. eexists; split; [done|]. split; simpl; try done. by left.
Qed.

Lemma quiet_with_tasks w w' f : quiet w w' → quiet (with_tasks f w) (with_tasks f w').
Proof. intros []. split; try done. simpl. by rewrite q_tasks0. Qed.

Lemma run_finish_spec w j :
  Inv w → w.(tasks) !! j = Some Closing →
  ∃ w', run_finish j true w = (Ret tt, w') ∧ Inv w' ∧
    w'.(tasks) = <[j := Finished]> w.(tasks) ∧ (∀ k, stateof w' k = stateof w k) ∧
    (∀ n, jview w j = Some (Some n.1, n.2) → w'.(queue_event) = true).
Proof.
  intros HI Hj. pose proof HI as ([] & _ & Hd).
  destruct (li_live0 j) as (ol & on & Hv & _); [right; by exists Closing|].
  destruct (release_lock_releases w j ol on HI) as (w1 & H1 & Hr); [by exists Closing|done|].
  pose proof (releases_Inv j ol on w w1 HI Hj Hv Hr) as HI1.
  assert (is_Some (w.(jobs) !! j)) as [x Hx] by (apply jview_is_Some; rewrite Hv; eauto).
  destruct Hr.
  set (w2 := with_jobs (alter (J_finished true) j) w1).
  assert (quiet w1 w2) as Hq2 by (by apply quiet_alter).
  assert (jobs w2 !! j = Some (J_finished true x)) as Hx2.
  { unfold w2; simpl. by rewrite lookup_alter_eq, e_jobs0, Hx. }
  assert (deque_inv w2) as Hd2.
  { destruct Hq2. eapply deque_inv_view; [done|done|]. intros e. rewrite e_dict0, e_jobs0. apply Hd. }
  unfold Job.run_finish, mbind, M_bind, mret at 1, M_ret at 1. rewrite H1. unfold upd_job, modify. fold w2.
  rewrite (get_job_eq _ _ _ Hx2).
  assert (∃ w3, (if transient (options (J_finished true x)) then
      match id (J_finished true x) with Some i => deque_remove i | None => mret tt end
    else send_event format_exception "CHANGED" (J_finished true x)) w2 = (Ret tt, w3) ∧ quiet w2 w3)
    as (w3 & -> & Hq3).
  { destruct (transient _); [|by eexists; split; [done|apply quiet_events]].
    destruct (id _) as [i|]; [|by exists w2].
    destruct (deque_remove_quiet w2 i Hd2) as (w3 & ? & ? & ?). eauto. }
  eexists; split; [done|]. assert (quiet w1 w3) as Hq13 by (by etrans). split_and!.
  - eapply quiet_Inv; [|exact HI1]. by apply quiet_with_tasks.
  - simpl. by rewrite (q_tasks _ _ Hq13), e_tasks0.
  - intros k. transitivity (stateof w1 k); [apply (q_state _ _ Hq13)|].
    unfold stateof. by rewrite e_jobs0.
  - intros [l on'] Hl. rewrite Hv in Hl. injection Hl as -> _. simpl. by rewrite (q_event _ _ Hq13), e_event0.
Qed.

(** Files that cannot be closed. *)
Lemma run_finish_moves w j :
  Inv w → w.(tasks) !! j = Some Closing →
  ∃ w', run_finish j false w = (Raise (OtherError "OSError"), w') ∧ moves j CloseFailed w w'.
Proof.
  intros (_ & Hs & _) Hj. apply state_inv_stateof in Hs as [Hs _]. destruct (Hs j _ Hj) as (s & Hst & Hp).
  eexists. split; [done|]. eapply restates_moves; [by apply quiet_restates|done|naive_solver].
Qed.

(** ** Scheduling *)

(** Job [j] leaves the queue with its lock taken. *)
Record schedules (j : nat) (ol : option nat) (w w' : World) : Prop := {
  h_queue : w'.(queue) = remove1 j w.(queue);
  h_tasks : w'.(tasks) = <[j := Scheduled]> w.(tasks);
  h_jobs : w'.(jobs) = w.(jobs);
  h_dict : w'.(deque).(dict) = w.(deque).(dict);
  h_event : w'.(queue_event) = false → w'.(queue) = [];
  h_locks : ∀ l L', w'.(locks) !! l = Some L' ↔ ∃ L, w.(locks) !! l = Some L ∧
    L' = if decide (ol = Some l) then acquire L else L;
  h_job_locks : w'.(job_locks) = w.(job_locks);
}.

Lemma schedules_good_lock j w w' k ol ol' on :
  schedules j ol w w' → good_lock w k ol' on → good_lock w' k ol' on.
Proof.
  intros []. destruct on as [n|]; simpl; [|done].
  intros (l & L & -> & Hn & HL & Hname & Hk).
  exists l, (if decide (ol = Some l) then acquire L else L).
  split_and!; [done|by rewrite h_job_locks0|by apply h_locks0; eauto|by case_decide|by case_decide].
Qed.

Lemma schedules_Inv j ol on w w' :
  Inv w → j ∈ w.(queue) → jview w j = Some (ol, on) →
  (∀ l L, ol = Some l → w.(locks) !! l = Some L → L.(is_locked) = false) →
  schedules j ol w w' → Inv w'.
Proof.
  intros HI Hq Hv Hfree Hr. pose proof HI as ([] & Hs & Hd). pose proof Hr as [].
  assert (∀ k, active w' k ↔ k = j ∨ active w k) as Hact.
  { intros k. unfold active. rewrite h_tasks0. destruct (decide (k = j)) as [->|Hne];
      [rewrite lookup_insert_eq|rewrite lookup_insert_ne by done]; naive_solver. }
  assert (∀ k, jview w' k = jview w k) as Hvk.
  { intros k. unfold jview. by rewrite h_jobs0. }
  assert (∀ k, k ∈ w'.(queue) → k ≠ j ∧ k ∈ w.(queue)) as Hqk.
  { intros k. rewrite h_queue0, elem_of_remove1 by done. tauto. }
  assert (∀ l on', jview w j = Some (Some l, on') → ∀ k on', active w k →
    jview w k = Some (Some l, on') → False) as Hnew.
  { intros l on1 Hj1 k on2 Hk Hv2. destruct (li_holds0 k l on2 Hk Hv2) as (L & HL & Hlk).
    rewrite Hv in Hj1. injection Hj1 as -> ->. specialize (Hfree l L eq_refl HL). congruence. }
  split_and!.
  - split; try setoid_rewrite Hact; try setoid_rewrite Hvk.
    + rewrite h_queue0. by apply remove1_NoDup.
    + intros k [Hkj Hk]%Hqk [->|Ha]; [done|]. by apply (li_disj0 k).
    + intros k Hk. destruct (li_live0 k) as (ol' & on' & Hv' & Hg').
      { destruct Hk as [Hk|[->|Hk]]; [left; by apply Hqk|by left|by right]. }
      exists ol', on'. split; [done|]. by eapply schedules_good_lock.
    + intros n l Hn. rewrite h_job_locks0 in Hn. destruct (li_reg0 _ _ Hn) as (L & HL & Hname).
      eexists. split; [by apply h_locks0; eauto|]. by case_decide.
    + intros k l on' Hk Hvk'.
      assert (∃ L, locks w !! l = Some L ∧ (ol = Some l ∨ is_locked L = true)) as (L & HL & Hl).
      { destruct Hk as [->|Hk].
        - rewrite Hv in Hvk'. injection Hvk' as -> ->.
          destruct (li_live0 j) as (ol' & on2 & Hv' & Hg'); [by left|].
          rewrite Hv in Hv'. injection Hv' as <- <-. destruct on'; simpl in Hg'; naive_solver.
        - destruct (li_holds0 k l on' Hk Hvk') as (L & HL & Hlk). eauto. }
      eexists. split; [by apply h_locks0; eauto|]. case_decide; [done|]. naive_solver.
    + intros j1 j2 l on1 on2 [->|H1] [->|H2] Hv1 Hv2; [done| | |by eapply li_mutex0].
      * by destruct (Hnew l on1 Hv1 j2 on2).
      * by destruct (Hnew l on2 Hv2 j1 on1).
    + intros l L' (L & HL & ->)%h_locks0 Hlk. case_decide as Hol.
      * subst. exists j, on. auto.
      * destruct (li_held0 l L HL Hlk) as (k & on' & Hk & Hvk'). eauto.
    + intros He k. rewrite h_event0 by done. by intros ?%elem_of_nil.
  - apply state_inv_stateof in Hs as [Hs1 Hs2]. apply state_inv_stateof.
    unfold stateof in *. rewrite h_jobs0, h_tasks0. split.
    + intros k p. destruct (decide (k = j)) as [->|Hne]; simplify_map_eq; [|apply Hs1].
      intros [= <-]. exists WAITING. split; [|done]. by apply Hs2.
    + intros k [Hkj Hk]%Hqk. rewrite lookup_insert_ne by done. by apply Hs2.
  - intros e. rewrite h_dict0, h_jobs0. apply Hd.
Qed.

(** Taking the lock of a queued job. *)
Lemma take_lock_spec w j x :
  good_lock w j x.(lock) (get_lock_name x) →
  ∃ w1, match x.(lock) with Some l => L ← get_lock l; put_lock l (acquire L) | None => mret tt end w
      = (Ret tt, w1) ∧ w1 = with_locks (λ _, w1.(locks)) w ∧
    ∀ l L', w1.(locks) !! l = Some L' ↔ ∃ L, w.(locks) !! l = Some L ∧
      L' = if decide (x.(lock) = Some l) then acquire L else L.
Proof.
  intros Hg. destruct (lock x) as [l|] eqn:Hl;
    [|by exists w; split_and!; [done|by destruct w|naive_solver]].
  destruct (get_lock_name x) as [n|]; simpl in Hg; [|done].
  destruct Hg as (l' & L & [= <-] & _ & HL & _ & _).
  exists (with_locks <[l := acquire L]> w). split_and!.
  - unfold mbind, M_bind, get_lock, put_lock, modify. by rewrite HL.
  - done.
  - intros k K'. simpl. destruct (decide (k = l)) as [->|Hne].
    + rewrite lookup_insert_eq. split.
      * intros [= <-]. exists L. by rewrite decide_True.
      * intros (K & HK & ->). rewrite decide_True by done. naive_solver.
    + rewrite lookup_insert_ne by done. split.
      * intros HK. exists K'. by rewrite decide_False by congruence.
      * intros (K & HK & ->). by rewrite decide_False by congruence.
Qed.

(** What one pass of [run] does: the first job that can run is scheduled, with
    every job in front of it waiting for a lock that is taken. *)
Lemma queue_run_spec w :
  Inv w → w.(queue_event) = true →
  ∃ w', queue_run w = (Ret tt, w') ∧ Inv w' ∧ w'.(jobs) = w.(jobs) ∧
    ((w'.(tasks) = w.(tasks) ∧ w'.(queue_event) = false ∧ w'.(queue) = w.(queue) ∧
      ∀ k, k ∈ w.(queue) → runnable w k = false) ∨
     ∃ pre j post, w.(queue) = pre ++ j :: post ∧ w'.(queue) = pre ++ post ∧
       runnable w j = true ∧
       w'.(tasks) = <[j := Scheduled]> w.(tasks) ∧ ∀ k, k ∈ pre → runnable w k = false).
Proof.
  intros HI He. pose proof HI as ([] & Hs & Hd).
  unfold queue_run, next_pass, mbind, M_bind, get_state, modify.
  destruct (List.find (runnable w) (queue w)) as [j|] eqn:Hf.
  - destruct (find_split _ _ _ Hf) as (pre & post & Hq & Hpre).
    apply List.find_some in Hf as [Hj Hrun]. apply list_elem_of_In in Hj.
    destruct (li_live0 j) as (ol & on & Hv & Hg); [by left|].
    assert (is_Some (w.(jobs) !! j)) as [x Hx] by (apply jview_is_Some; rewrite Hv; eauto).
    assert (ol = lock x ∧ on = get_lock_name x) as [-> ->].
    { unfold jview in Hv. rewrite Hx in Hv. by injection Hv as <- <-. }
    unfold runnable in Hrun. rewrite Hx in Hrun. rewrite (get_job_eq _ _ _ Hx).
    destruct (take_lock_spec w j x Hg) as (w1 & H1 & Hw1 & Hl1).
    unfold mbind, M_bind in H1. rewrite H1. simpl.
    set (w' := with_tasks <[j := Scheduled]> (set_event (if decide (remove1 j w.(queue) = []) then false else true)
      (with_queue (remove1 j) w1))).
    assert (queue w1 = queue w) as Hq1 by (by rewrite Hw1).
    exists w'. assert (schedules j (lock x) w w') as Hsch.
    { unfold w'. rewrite Hw1. split; simpl; try done. by case_decide. }
    split_and!.
    + rewrite Hq1. unfold w', set_phase, modify. case_decide as Er.
      * by rewrite Er.
      * destruct (remove1 j (queue w)) eqn:Er'; [done|]. simpl. rewrite Hw1.
        unfold set_event, with_queue, with_locks, with_tasks; simpl. by rewrite He.
    + eapply schedules_Inv; [done|done|exact Hv| |exact Hsch].
      intros l L Hl HL. rewrite Hl, HL in Hrun. by apply negb_true_iff in Hrun.
    + unfold w'. by rewrite Hw1.
    + right. exists pre, j, post. destruct Hsch. split_and!; try done.
      * rewrite h_queue0, Hq. apply remove1_middle. rewrite Hq in li_nodup0.
        apply NoDup_app in li_nodup0 as (_ & Hdis & _). intros Hp. apply (Hdis j Hp). set_solver.
      * unfold runnable. by rewrite Hx.
  - assert (∀ k, k ∈ w.(queue) → runnable w k = false) as Hnone.
    { intros k Hk. by apply (List.find_none _ _ Hf), list_elem_of_In. }
    eexists; split; [done|]. split_and!; [|done|left; by split_and!].
    split_and!; [|by destruct Hs; split|done].
    split; try done. intros _ k Hk. simpl in *. specialize (Hnone k Hk).
    destruct (li_live0 k) as (ol & on & Hv & Hg); [by left|].
    unfold jview in Hv. apply fmap_Some in Hv as (x & Hx & [= -> ->]).
    unfold runnable in Hnone. rewrite Hx in Hnone.
    destruct (lock x) as [l|] eqn:El; [|done]. destruct (locks w !! l) as [L|] eqn:HL; [|done].
    exists l, L, (get_lock_name x). split_and!; [|done|by apply negb_false_iff].
    unfold jview; simpl. by rewrite Hx; simpl; rewrite El.
Qed.

(** ** Every reachable world *)

Lemma new_job_fields mn acc ar op opened now x :
  new_job mn acc ar op opened now = Ret x → x.(lock) = None ∧ x.(state) = WAITING.
Proof.
  unfold new_job. destruct (check_pipes op); [|by intros [= <-]].
  destruct (mapO _ _); simpl; [by intros [= <-]|done].
Qed.

Lemma init_Inv n : Inv (init n).
Proof.
  assert (∀ j, ¬ active (init n) j) as Ha by (intros j (p & Hp & _); by simplify_map_eq).
  split_and!.
  - split; simpl; try by (intros; simplify_map_eq; set_solver).
    apply NoDup_nil_2.
  - split; simpl; intros; [by simplify_map_eq|set_solver].
  - intros e. simpl. set_solver.
Qed.

Lemma abort_job_quiet w j x :
  w.(jobs) !! j = Some x → quiet w (with_jobs <[j := abort_job x]> w).
Proof.
  intros Hx. assert (with_jobs <[j := abort_job x]> w = with_jobs (alter abort_job j) w) as ->.
  { unfold with_jobs. f_equal. apply map_eq. intros k. destruct (decide (k = j)) as [->|Hne].
    - by rewrite lookup_insert_eq, lookup_alter_eq, Hx.
    - by rewrite lookup_insert_ne, lookup_alter_ne by done. }
  apply quiet_alter. intros y. unfold abort_job.
  destruct (terminal (state y)); [done|]. case_decide; [done|]. by destruct (abortable (options y)).
Qed.

Definition keeps_final (w w' : World) : Prop :=
  ∀ j s, stateof w j = Some s → terminal s = true → stateof w' j = Some s.

Lemma moves_keeps_final j p w w' : moves j p w w' → keeps_final w w'.
Proof.
  intros [] k s Hs Ht. destruct (decide (k = j)) as [->|Hne]; [by apply m_final0|by rewrite m_state0].
Qed.

Lemma quiet_keeps_final w w' : quiet w w' → keeps_final w w'.
Proof. intros [] k s Hs Ht. by rewrite q_state0. Qed.

Lemma phase_state w j p : Inv w → w.(tasks) !! j = Some p → ∃ s, stateof w j = Some s ∧ phase_ok p s.
Proof. intros (_ & Hs & _). apply state_inv_stateof in Hs as [Hs _]. apply Hs. Qed.

Lemma step_spec w w' : Inv w → step w w' → Inv w' ∧ keeps_final w w'.
Proof.
  intros HI Hstep. destruct Hstep as
    [w j x o w' mn acc ar op opened now Hj Hnew Hadd
    |w o w' He Hrun|w j now log_ok o w' Ht Hrun|w j pc desc ex o w' Ht Hrun|w j now r o w' Ht Hrun
    |w j now r o w' Ht Hrun|w j close_ok o w' Ht Hrun|w j x Hx].
  - destruct (new_job_fields _ _ _ _ _ _ _ Hnew) as [Hl Hs].
    destruct (add_spec w j x HI Hj Hl Hs) as (o' & w'' & Heq & HI' & Hst & _). rewrite Heq in Hadd; simplify_eq.
    split; [done|]. intros k s Hk _. rewrite Hst; [done|]. destruct (stateof_lookup _ _ _ Hk); eauto.
  - destruct (queue_run_spec w HI He) as (w'' & Heq & HI' & Hj & _). rewrite Heq in Hrun; simplify_eq.
    split; [done|]. intros k s. unfold stateof. by rewrite Hj.
  - destruct (phase_state w j _ HI Ht) as (s & Hs & Hp). simpl in Hp; subst.
    destruct (run_start_moves w j now log_ok Hs) as (o' & p & w'' & Heq & Hp & Hm & _). rewrite Heq in Hrun; simplify_eq.
    split; [|by eapply moves_keeps_final]. by eapply moves_Inv.
  - destruct (phase_state w j _ HI Ht) as (s & (x & Hx)%stateof_lookup & _).
    destruct (set_progress_quiet w j x pc desc ex Hx) as (w'' & Heq & Hq). rewrite Heq in Hrun; simplify_eq.
    split; [by eapply quiet_Inv|by apply quiet_keeps_final].
  - destruct (phase_state w j _ HI Ht) as (s & Hs & Hp). simpl in Hp; subst.
    destruct (run_body_moves w j now r Hs) as (p & w'' & Heq & Hp & Hm). rewrite Heq in Hrun; simplify_eq.
    split; [|by eapply moves_keeps_final]. by eapply moves_Inv.
  - destruct (phase_state w j _ HI Ht) as (s & Hs & Hp).
    destruct (run_resume_moves w j now r) as (p & w'' & Heq & Hp' & Hm); [by rewrite Hs|by rewrite Hs|].
    rewrite Heq in Hrun; simplify_eq. split; [|by eapply moves_keeps_final]. by eapply moves_Inv.
  - destruct close_ok.
    + destruct (run_finish_spec w j HI Ht) as (w'' & Heq & HI' & _ & Hst & _). rewrite Heq in Hrun; simplify_eq.
      split; [done|]. intros k s Hk _. by rewrite Hst.
    + destruct (run_finish_moves w j HI Ht) as (w'' & Heq & Hm). rewrite Heq in Hrun; simplify_eq.
      split; [|by eapply moves_keeps_final]. eapply (moves_Inv j Closing CloseFailed); [exact Ht|done|done|exact Hm|done].
  - pose proof (abort_job_quiet w j x Hx) as Hq.
    split; [by eapply quiet_Inv|by apply quiet_keeps_final].
Qed.

Lemma reachable_Inv w : reachable errname format_exception w → Inv w.
Proof.
  intros [n Hr]. remember (init n) as w0 eqn:E. assert (Inv w0) as HI by (subst; apply init_Inv).
  clear E. induction Hr as [|w1 w2 w3 Hs Hr IH]; [done|]. apply IH. by eapply step_spec.
Qed.
End jobs.
