(* ===== verification/JobTheorems.v ===== *)
(** * What the job queue guarantees

    The properties of [JobsQueue] and [Job.run] in every interleaving of the
    event loop, each read off the invariant of JobFacts, with runs of a small
    queue as witnesses. *)

From S2P Require Import Prelude PyValue Schema Job JobFacts.

(** ** A small queue

    Two jobs of one lock, the first scheduled; and three jobs of a lock whose
    waiting line holds one. *)

Section demo.

Definition demo_errname (_ : Z) : string := "EFAULT".
Definition demo_format (_ : exn) : string := "Traceback".

Definition demo_options (size : option nat) : JobOptions :=
  mkOptions (Some (inl "pool_scrub")) size false [] false false false.

Definition demo_job (size : option nat) : Job :=
  mkJob "pool.scrub" None [PInt 1] (demo_options size) None None PNone None None false WAITING
    (mkProgress None None None) 0 None None false false.

Definition do_add (j : nat) (size : option nat) (w : World) : World :=
  (add demo_format j (with_jobs <[j := demo_job size]> w)).2.
Definition do_run (w : World) : World := (queue_run w).2.
Definition do_start (j : nat) (w : World) : World := (run_start demo_errname j 0 true w).2.
Definition do_body (j : nat) (r : outcome exn pyval) (w : World) : World :=
  (run_body demo_format j 0 r w).2.
Definition do_resume (j : nat) (r : outcome exn unit) (w : World) : World :=
  (run_resume demo_errname j 0 r w).2.
Definition do_finish (j : nat) (w : World) : World := (run_finish demo_format j true w).2.

Notation reach := (reachable demo_errname demo_format).

Lemma reach_step w w' : reach w → step demo_errname demo_format w w' → reach w'.
Proof. intros [n Hr] Hs. exists n. by eapply rtc_r. Qed.

Lemma reach_add w j size : reach w → w.(jobs) !! j = None → reach (do_add j size w).
Proof.
  intros Hr Hj. eapply reach_step; [exact Hr|].
  eapply (step_add _ _ w j (demo_job size) _ _ "pool.scrub" None [PInt 1] (demo_options size) [] 0);
    [done|reflexivity|apply surjective_pairing].
Qed.

Lemma reach_run w : reach w → w.(queue_event) = true → reach (do_run w).
Proof.
  intros Hr He. eapply reach_step; [exact Hr|]. eapply step_run; [done|apply surjective_pairing].
Qed.

Lemma reach_start w j : reach w → w.(tasks) !! j = Some Scheduled → reach (do_start j w).
Proof.
  intros Hr Ht. eapply reach_step; [exact Hr|]. eapply step_start; [done|apply surjective_pairing].
Qed.

Lemma reach_body w j r : reach w → w.(tasks) !! j = Some Body → reach (do_body j r w).
Proof.
  intros Hr Ht. eapply reach_step; [exact Hr|]. eapply step_body; [done|apply surjective_pairing].
Qed.

Lemma reach_resume w j r : reach w → w.(tasks) !! j = Some (BodyDone r) → reach (do_resume j r w).
Proof.
  intros Hr Ht. eapply reach_step; [exact Hr|]. eapply step_resume; [done|apply surjective_pairing].
Qed.

Lemma reach_finish w j : reach w → w.(tasks) !! j = Some Closing → reach (do_finish j w).
Proof.
  intros Hr Ht. eapply reach_step; [exact Hr|]. eapply step_finish; [done|apply surjective_pairing].
Qed.

(** Two jobs queued; the first scheduled; a second pass that finds nothing. *)
Definition demo2 : World := do_add 1 None (do_add 0 None (init 1000)).
Definition demo3 : World := do_run demo2.
Definition demo4 : World := do_run demo3.

(** A whole run of job [j]. *)
Definition complete (j : nat) (w : World) : World :=
  do_finish j (do_resume j (Ret tt) (do_body j (Ret PNone) (do_start j w))).

Definition dropped0 : World := do_run (do_add 0 (Some 1) (init 1000)).
Definition dropped1 : World := do_add 2 (Some 1) (do_add 1 (Some 1) dropped0).
Definition dropped2 : World := do_run (complete 0 dropped1).
Definition dropped3 : World := complete 1 dropped2.

Lemma init_reach n : reach (init n).
Proof. exists n. apply rtc_refl. Qed.

Lemma demo2_reach : reach demo2.
Proof. repeat (apply reach_add; [|vm_compute; reflexivity]). apply init_reach. Qed.

Lemma demo3_reach : reach demo3.
Proof. apply reach_run; [apply demo2_reach|vm_compute; reflexivity]. Qed.

Lemma demo4_reach : reach demo4.
Proof. apply reach_run; [apply demo3_reach|vm_compute; reflexivity]. Qed.

Lemma complete_reach j w :
  reach w → w.(tasks) !! j = Some Scheduled →
  (do_start j w).(tasks) !! j = Some Body →
  (do_body j (Ret PNone) (do_start j w)).(tasks) !! j = Some (BodyDone (Ret tt)) →
  (do_resume j (Ret tt) (do_body j (Ret PNone) (do_start j w))).(tasks) !! j = Some Closing →
  reach (complete j w).
Proof. intros. by apply reach_finish; [apply reach_resume; [apply reach_body; [apply reach_start|]|]|]. Qed.

Lemma dropped3_reach : reach dropped3.
Proof.
  apply complete_reach; try (vm_compute; reflexivity).
  apply reach_run; [|vm_compute; reflexivity].
  apply complete_reach; try (vm_compute; reflexivity).
  repeat (apply reach_add; [|vm_compute; reflexivity]).
  apply reach_run; [|vm_compute; reflexivity].
  apply reach_add; [apply init_reach|vm_compute; reflexivity].
Qed.
End demo.

Section theorems.
Context (errname : Z → string) (format_exception : exn → string).
Notation reachable := (reachable errname format_exception).

(** The lock name of job [j]. *)
Definition lockname (w : World) (j : nat) : option string :=
  w.(jobs) !! j ≫= get_lock_name.

Lemma jview_lockname w j ol on : jview w j = Some (ol, on) → lockname w j = on.
Proof. unfold jview, lockname. intros (x & -> & [= _ ->])%fmap_Some. done. Qed.

(** The lock of a live job and its name determine each other. *)
Lemma live_lock w j n : Inv w → j ∈ w.(queue) ∨ active w j → lockname w j = Some n →
  ∃ l L, jview w j = Some (Some l, Some n) ∧ w.(job_locks) !! n = Some l ∧
    w.(locks) !! l = Some L ∧ L.(lock_name) = n.
Proof.
  intros ([] & _ & _) Hj Hn. destruct (li_live j Hj) as (ol & on & Hv & Hg).
  pose proof (jview_lockname _ _ _ _ Hv) as Hn'. rewrite Hn in Hn'. subst.
  destruct Hg as (l & L & -> & ? & ? & ? & _). eauto 10.
Qed.

(** C1. Mutual exclusion: in every interleaving, two jobs whose [run] coroutines
    are both under way never have the same lock name. *)
Theorem mutual_exclusion w j1 j2 n :
  reachable w → active w j1 → active w j2 →
  lockname w j1 = Some n → lockname w j2 = Some n → j1 = j2.
Proof.
  intros HI%reachable_Inv H1 H2 Hn1 Hn2.
  destruct (live_lock w j1 n HI) as (l1 & L1 & Hv1 & Hr1 & _); [by right|done|].
  destruct (live_lock w j2 n HI) as (l2 & L2 & Hv2 & Hr2 & _); [by right|done|].
  rewrite Hr1 in Hr2. injection Hr2 as <-. destruct HI as ([] & _ & _). by eapply li_mutex.
Qed.

(** A coroutine that goes on, and one that an exception ended before it released
    its lock. *)
Definition under_way (w : World) (k : nat) : Prop :=
  ∃ p, w.(tasks) !! k = Some p ∧ match p with Finished | Crashed | CloseFailed => False | _ => True end.
Definition stuck (w : World) (k : nat) : Prop := w.(tasks) !! k = Some Crashed ∨ w.(tasks) !! k = Some CloseFailed.

Lemma active_cases w k : active w k ↔ under_way w k ∨ stuck w k.
Proof.
  unfold active, under_way, stuck. split.
  - intros (p & Hp & Hne). destruct p; try (by right; auto); try (left; by eexists).
  - intros [(p & Hp & H)|[Hp|Hp]]; eexists; (split; [exact Hp|]); [by intros ->|done|done].
Qed.

Lemma blocker w j : reachable w → w.(queue_event) = false → j ∈ w.(queue) →
  ∃ n k, lockname w j = Some n ∧ active w k ∧ lockname w k = Some n ∧ k ≠ j.
Proof.
  intros HI%reachable_Inv He Hj. pose proof HI as ([] & _ & _).
  destruct (li_event He j Hj) as (l & L & on & Hv & HL & Hlk).
  destruct (li_held l L HL Hlk) as (k & on' & Hk & Hvk).
  destruct (li_live j) as (ol & on2 & Hv2 & Hg); [by left|]. rewrite Hv in Hv2. injection Hv2 as <- <-.
  destruct (li_live k) as (ol & on2 & Hv2 & Hg'); [by right|]. rewrite Hvk in Hv2. injection Hv2 as <- <-.
  destruct on as [n|]; simpl in Hg; [|done]. destruct on' as [n'|]; simpl in Hg'; [|done].
  assert (n' = n) as -> by naive_solver.
  exists n, k. split_and!; [by eapply jview_lockname|done|by eapply jview_lockname|].
  intros ->. by apply (li_disj j).
Qed.

(** C3. No lost wakeup: when the queue sleeps on a clear event, every job that
    waits in it needs a lock that another job holds.  Unless an exception ended
    that job before it released the lock (its log file could not be opened, or
    its files not closed), it is under way; and when its coroutine reaches the
    end, whatever else happened before, the event is set. *)
Theorem no_lost_wakeup w j :
  reachable w → w.(queue_event) = false → j ∈ w.(queue) →
  ∃ n k, lockname w j = Some n ∧ lockname w k = Some n ∧ k ≠ j ∧
    (stuck w k ∨ under_way w k ∧
      ∀ w1 w2, rtc (step errname format_exception) w w1 → w1.(tasks) !! k = Some Closing → lockname w1 k = Some n →
        run_finish format_exception k true w1 = (Ret tt, w2) → w2.(queue_event) = true).
Proof.
  intros Hr He Hj. destruct (blocker w j Hr He Hj) as (n & k & Hn & Hk & Hnk & Hne). exists n, k.
  split_and!; [done|done|done|]. apply active_cases in Hk as [Hk|Hk]; [right|by left]. split; [done|].
  intros w1 w2 Hsteps Hcl Hn1 Hfin. assert (HI : Inv w1).
  { destruct Hr as [m Hr]. apply (reachable_Inv errname format_exception). exists m. by etrans. }
  destruct (run_finish_spec format_exception w1 k HI Hcl) as (w' & Heq & _ & _ & _ & Hev). rewrite Hfin in Heq. injection Heq as ->.
  destruct (live_lock w1 k n HI) as (l & L & Hv & _); [right; by exists Closing|done|]. by apply (Hev (l, Some n)).
Qed.

Lemma not_runnable_held w k : Inv w → k ∈ w.(queue) → runnable w k = false →
  ∃ n k', lockname w k = Some n ∧ active w k' ∧ lockname w k' = Some n.
Proof.
  intros HI Hk Hr. pose proof HI as ([] & _ & _).
  destruct (li_live k) as (ol & on & Hv & Hg); [by left|].
  pose proof Hv as Hv0. unfold jview in Hv. apply fmap_Some in Hv as (x & Hx & [= -> ->]).
  unfold runnable in Hr. rewrite Hx in Hr. destruct (lock x) as [l|] eqn:El; [|done].
  destruct (get_lock_name x) as [n|]; simpl in Hg; [|done].
  destruct Hg as (l' & L & [= <-] & Hn & HL & HLn & _). rewrite HL in Hr. apply negb_false_iff in Hr.
  destruct (li_held l L HL Hr) as (k' & on' & Hk' & Hvk').
  destruct (li_live k') as (ol & on2 & Hv2 & Hg'); [by right|]. rewrite Hvk' in Hv2. injection Hv2 as <- <-.
  destruct on' as [n'|]; simpl in Hg'; [|done]. assert (n' = n) as -> by naive_solver.
  exists n, k'. split_and!; [by eapply jview_lockname|done|by eapply jview_lockname].
Qed.

Lemma runnable_free w j n k : Inv w → j ∈ w.(queue) → runnable w j = true →
  lockname w j = Some n → active w k → lockname w k ≠ Some n.
Proof.
  intros HI Hj Hr Hn Hk Hnk.
  destruct (live_lock w j n HI) as (l & L & Hv & Hreg & HL & _); [by left|done|].
  destruct (live_lock w k n HI) as (l' & L' & Hv' & Hreg' & HL' & _); [by right|done|].
  assert (l' = l ∧ L' = L) as [-> ->] by naive_solver.
  destruct HI as ([] & _ & _). destruct (li_holds k l _ Hk Hv') as (L0 & HL0 & Hlk).
  unfold jview in Hv. apply fmap_Some in Hv as (x & Hx & [= Hlx _]).
  unfold runnable in Hr. rewrite Hx, <- Hlx, HL in Hr. apply negb_true_iff in Hr. congruence.
Qed.

Lemma progress_active w j :
  reachable w → j ∈ w.(queue) →
  (∀ n k, lockname w j = Some n → active w k → lockname w k ≠ Some n) →
  w.(queue_event) = true ∧
  ∃ w' pre k post, queue_run w = (Ret tt, w') ∧ w.(queue) = pre ++ k :: post ∧
    w'.(queue) = pre ++ post ∧ w'.(tasks) !! k = Some Scheduled ∧
    ∀ i, i ∈ pre → ∃ n k', lockname w i = Some n ∧ active w k' ∧ lockname w k' = Some n.
Proof.
  intros HI%reachable_Inv Hj Hfree.
  assert (w.(queue_event) = true) as He.
  { destruct (queue_event w) eqn:He; [done|]. pose proof HI as ([] & _ & _).
    destruct (li_event He j Hj) as (l & L & on & Hv & HL & Hlk).
    destruct (not_runnable_held w j HI Hj) as (n & k & Hn & Hk & Hnk); [|by destruct (Hfree n k)].
    unfold jview in Hv. apply fmap_Some in Hv as (x & Hx & [= Hlx _]).
    unfold runnable. by rewrite Hx, <- Hlx, HL, Hlk. }
  split; [done|]. destruct (queue_run_spec w HI He) as (w' & Hrun & _ & _ & Hcase).
  destruct Hcase as [(_ & _ & _ & Hnone)|(pre & k & post & Hq & Hq' & Hr & Ht & Hpre)].
  - destruct (not_runnable_held w j HI Hj (Hnone j Hj)) as (n & k & Hn & Hk & Hnk).
    by destruct (Hfree n k).
  - exists w', pre, k, post. split_and!; [done|done|done|by rewrite Ht, lookup_insert_eq|].
    intros i Hi. apply not_runnable_held; [done|rewrite Hq, elem_of_app; by left|by apply Hpre].
Qed.

(** C7. The queue goes on: whenever a queued job needs no lock, or a lock that is
    held neither by a job under way nor by one that an exception ended before
    it released it, the event is set and the next pass of [run] schedules a job,
    the first of the queue whose lock is free.  In particular, as long as no
    job was ended that way, a queue that is not empty has a job under way or
    schedules one. *)
Theorem queue_progress w j :
  reachable w → j ∈ w.(queue) →
  ((∀ n k, lockname w j = Some n → under_way w k ∨ stuck w k → lockname w k ≠ Some n) →
    w.(queue_event) = true ∧
    ∃ w' pre k post, queue_run w = (Ret tt, w') ∧ w.(queue) = pre ++ k :: post ∧
      w'.(queue) = pre ++ post ∧ w'.(tasks) !! k = Some Scheduled ∧
      ∀ i, i ∈ pre → ∃ n k', lockname w i = Some n ∧ (under_way w k' ∨ stuck w k') ∧ lockname w k' = Some n) ∧
  ((∀ k, ¬ stuck w k) → (∃ k, under_way w k) ∨
    w.(queue_event) = true ∧ ∃ w' k, queue_run w = (Ret tt, w') ∧ k ∈ w.(queue) ∧ k ∉ w'.(queue) ∧ w'.(tasks) !! k = Some Scheduled).
Proof.
  intros Hr Hj. pose proof (progress_active w j Hr Hj) as Hp. setoid_rewrite active_cases in Hp. split; [exact Hp|].
  intros Hns. destruct (w.(queue_event)) eqn:He.
  2: { destruct (blocker w j Hr He Hj) as (n & k & _ & Hk & _). apply active_cases in Hk as [Hk|Hk]; [left; by exists k|by destruct (Hns k)]. }
  destruct (queue_run_spec w (reachable_Inv _ _ _ Hr) He) as (w' & Hrun & HI' & _ & Hcase).
  destruct Hcase as [(_ & _ & _ & Hnone)|(pre & k & post & Hq & Hq' & Hrk & Ht & Hpre)].
  - destruct (not_runnable_held w j (reachable_Inv _ _ _ Hr) Hj (Hnone j Hj)) as (n & k & _ & Hk & _).
    apply active_cases in Hk as [Hk|Hk]; [left; by exists k|by destruct (Hns k)].
  - right. split; [done|]. exists w', k. split_and!; [done|rewrite Hq, elem_of_app, elem_of_cons; auto| |by rewrite Ht, lookup_insert_eq].
    destruct (reachable_Inv _ _ _ Hr) as ([] & _ & _). rewrite Hq' , elem_of_app. rewrite Hq in li_nodup.
    apply NoDup_app in li_nodup as (_ & Hd & Hn). apply NoDup_cons in Hn as [Hn _]. intros [H|H]; [|done]. apply (Hd k H). left.
Qed.
(** FIFO per lock: when [run] schedules a job, no job queued before it
    has the same lock name, and no job under way has it. *)
Theorem fifo_per_lock w w' j :
  reachable w → w.(queue_event) = true → queue_run w = (Ret tt, w') →
  j ∈ w.(queue) → j ∉ w'.(queue) →
  ∃ pre post, w.(queue) = pre ++ j :: post ∧ w'.(tasks) !! j = Some Scheduled ∧
    ∀ n, lockname w j = Some n →
      (∀ i, i ∈ pre → lockname w i ≠ Some n) ∧ (∀ k, active w k → lockname w k ≠ Some n).
Proof.
  intros HI%reachable_Inv He Hrun Hj Hj'.
  destruct (queue_run_spec w HI He) as (w'' & Hrun' & _ & _ & Hcase).
  rewrite Hrun in Hrun'. injection Hrun' as <-.
  destruct Hcase as [(_ & _ & Hq & _)|(pre & k & post & Hq & Hq' & Hr & Ht & Hpre)];
    [by rewrite Hq in Hj'|].
  assert (k = j) as ->.
  { rewrite Hq, elem_of_app, elem_of_cons in Hj. rewrite Hq', elem_of_app in Hj'. naive_solver. }
  exists pre, post. split_and!; [done|by rewrite Ht, lookup_insert_eq|].
  intros n Hn. assert (∀ k, active w k → lockname w k ≠ Some n) as Hfree.
  { intros k. by apply (runnable_free w j n k). }
  split; [|done]. intros i Hi Hni.
  destruct (not_runnable_held w i HI) as (m & k & Hm & Hk & Hmk); [rewrite Hq, elem_of_app; by left|by apply Hpre|].
  apply (Hfree k Hk). congruence.
Qed.

(** C17. The internal errors of the machinery never happen: in every reachable
    world each segment of [run] and each pass of the queue ends without an
    exception, so the assertions of [set_state], the [KeyError] of the lock
    table and the release of a lock that is not held do not occur, whatever the
    method did.  Only the files can fail: when the log file cannot be opened, or
    the log and the pipes cannot be closed, that exception ends the coroutine,
    and in the second case the outcome of the job stays what it was. *)
Theorem no_internal_error w :
  reachable w →
  (w.(queue_event) = true → ∃ w', queue_run w = (Ret tt, w')) ∧
  ∀ j p now, w.(tasks) !! j = Some p →
    match p with
    | Scheduled => (∃ w', run_start errname j now true w = (Ret tt, w')) ∧
        ∃ o w', run_start errname j now false w = (o, w') ∧ (o = Ret tt ∨ w'.(tasks) !! j = Some Crashed)
    | Body => ∀ r, ∃ w', run_body format_exception j now r w = (Ret tt, w')
    | BodyDone r => ∃ w', run_resume errname j now r w = (Ret tt, w')
    | Closing => (∃ w', run_finish format_exception j true w = (Ret tt, w') ∧ w'.(tasks) !! j = Some Finished ∧ stateof w' j = stateof w j) ∧
        ∃ w', run_finish format_exception j false w = (Raise (OtherError "OSError"), w') ∧ w'.(tasks) !! j = Some CloseFailed ∧ stateof w' j = stateof w j
    | Finished | Crashed | CloseFailed => True
    end.
Proof.
  intros HI%reachable_Inv. split.
  - intros He. destruct (queue_run_spec w HI He) as (w' & Hrun & _). eauto.
  - intros j p now Hp. destruct (phase_state w j p HI Hp) as (s & Hs & Hok). destruct p as [| |o| | | |]; try done.
    + simpl in Hok; subst. split.
      * destruct (run_start_moves errname format_exception w j now true Hs)
          as (o & p & w' & Heq & _ & _ & [->|[? _]]); [eauto|done].
      * destruct (run_start_moves errname format_exception w j now false Hs) as (o & p & w' & Heq & _ & [] & Ho).
        exists o, w'. split; [done|]. destruct Ho as [->|[_ ->]]; [by left|right]. by rewrite m_tasks, lookup_insert_eq.
    + simpl in Hok; subst. intros r.
      destruct (run_body_moves errname format_exception w j now r Hs) as (p & w' & Heq & _). eauto.
    + destruct (run_resume_moves errname format_exception w j now o) as (p & w' & Heq & _); [by rewrite Hs|by rewrite Hs|]. eauto.
    + split.
      * destruct (run_finish_spec format_exception w j HI Hp) as (w' & Heq & _ & Ht & Hst & _). exists w'. by rewrite Ht, lookup_insert_eq, Hst.
      * destruct (run_finish_moves format_exception w j HI Hp) as (w' & Heq & []). exists w'. split_and!; [done|by rewrite m_tasks, lookup_insert_eq|].
        simpl in Hok. rewrite Hs. by apply m_final.
Qed.

(** A job's outcome is final: once its state is SUCCESS, FAILED or
    ABORTED no further step of the event loop changes it. *)
Theorem outcome_final w w' j s :
  reachable w → rtc (step errname format_exception) w w' →
  stateof w j = Some s → terminal s = true → stateof w' j = Some s.
Proof.
  intros HI%reachable_Inv Hr. induction Hr as [|w1 w2 w3 Hs Hr IH]; [done|].
  intros Hj Ht. destruct (step_spec errname format_exception w1 w2 HI Hs) as [HI2 Hk]. auto.
Qed.

(** [Job.wait] reports the failure of a job, unless the text of its
    exception is empty: then the call returns the job's result as if it had
    succeeded. *)
Theorem wait_reports_unless_empty e x :
  (exn_str errname e ≠ "" →
    ∃ m n ex, wait_result true (set_exception errname e x) = Raise (CallError m n ex)) ∧
  (exn_str errname e = "" → wait_result true (set_exception errname e x) = Ret x.(result)).
Proof.
  unfold wait_result, set_exception; simpl. split; intros H.
  - destruct (String.eqb_spec (exn_str errname e) ""); [done|]. destruct e; eauto.
  - by rewrite H.
Qed.
End theorems.

(** ** Witnesses *)

Lemma mutual_exclusion_witness :
  active demo3 0 ∧ lockname demo3 0 = Some "pool_scrub" ∧ 0 = 0.
Proof.
  assert (active demo3 0) as Ha by (exists Scheduled; split; [vm_compute; reflexivity|done]).
  split; [exact Ha|]. split; [vm_compute; reflexivity|].
  apply (mutual_exclusion demo_errname demo_format demo3 0 0 "pool_scrub" demo3_reach Ha Ha);
    vm_compute; reflexivity.
Defined.

Lemma no_lost_wakeup_witness :
  demo4.(queue) = [1] ∧ demo4.(queue_event) = false ∧
  ∃ n k, lockname demo4 1 = Some n ∧ lockname demo4 k = Some n ∧ k ≠ 1 ∧ (stuck demo4 k ∨ under_way demo4 k).
Proof.
  split; [vm_compute; reflexivity|]. split; [vm_compute; reflexivity|].
  destruct (no_lost_wakeup demo_errname demo_format demo4 1 demo4_reach) as (n & k & H1 & H2 & H3 & H4).
  - vm_compute. reflexivity.
  - vm_compute. apply list_elem_of_In. simpl. auto.
  - exists n, k. split_and!; [exact H1|exact H2|exact H3|]. destruct H4 as [H4|[H4 _]]; [left|right]; exact H4.
Defined.

(** A job whose pipes cannot be closed keeps its lock: the next job waits for ever. *)
Definition stuck0 : World :=
  (run_finish demo_format 0 false (do_resume 0 (Ret tt) (do_body 0 (Ret PNone) (do_start 0 demo4)))).2.

Example close_failure_keeps_lock :
  stateof stuck0 0 = Some SUCCESS ∧ stuck stuck0 0 ∧ stuck0.(queue) = [1] ∧ stuck0.(queue_event) = false ∧ lockname stuck0 0 = lockname stuck0 1.
Proof. split; [vm_compute; reflexivity|]. split; [right; vm_compute; reflexivity|]. split_and!; vm_compute; reflexivity. Qed.

Lemma demo2_idle k : ¬ active demo2 k.
Proof. intros (p & Hp & _). vm_compute in Hp. done. Qed.

Lemma queue_progress_witness :
  demo2.(queue_event) = true ∧
  ∃ w' pre k post, queue_run demo2 = (Ret tt, w') ∧ demo2.(queue) = pre ++ k :: post ∧
    w'.(queue) = pre ++ post ∧ w'.(tasks) !! k = Some Scheduled ∧
    ∀ i, i ∈ pre → ∃ n k', lockname demo2 i = Some n ∧ (under_way demo2 k' ∨ stuck demo2 k') ∧ lockname demo2 k' = Some n.
Proof.
  apply (queue_progress demo_errname demo_format demo2 0 demo2_reach).
  - assert (demo2.(queue) = [0; 1]) as -> by (vm_compute; reflexivity). apply list_elem_of_In; simpl; auto.
  - intros n k _ Hk. destruct (demo2_idle k (proj2 (active_cases _ _) Hk)).
Defined.

Lemma fifo_per_lock_witness :
  ∃ pre post, demo2.(queue) = pre ++ 0 :: post ∧ demo3.(tasks) !! 0 = Some Scheduled ∧
    ∀ n, lockname demo2 0 = Some n →
      (∀ i, i ∈ pre → lockname demo2 i ≠ Some n) ∧ (∀ k, active demo2 k → lockname demo2 k ≠ Some n).
Proof.
  apply (fifo_per_lock demo_errname demo_format demo2 demo3 0 demo2_reach); try (vm_compute; reflexivity).
  - assert (demo2.(queue) = [0; 1]) as -> by (vm_compute; reflexivity). apply list_elem_of_In; simpl; auto.
  - assert (demo3.(queue) = [1]) as -> by (vm_compute; reflexivity).
    rewrite list_elem_of_In. simpl. intros [?|[]]; lia.
Defined.

Lemma no_internal_error_witness :
  demo3.(tasks) !! 0 = Some Scheduled ∧ ∃ w', run_start demo_errname 0 0 true demo3 = (Ret tt, w').
Proof.
  assert (demo3.(tasks) !! 0 = Some Scheduled) as Ht by (vm_compute; reflexivity). split; [exact Ht|].
  exact (proj1 (proj2 (no_internal_error demo_errname demo_format demo3 demo3_reach) 0 Scheduled 0%Z Ht)).
Defined.

Lemma outcome_final_witness : stateof dropped3 1 = Some SUCCESS.
Proof.
  apply (outcome_final demo_errname demo_format dropped3 dropped3 1 SUCCESS dropped3_reach (rtc_refl _ _));
    vm_compute; reflexivity.
Defined.

Lemma wait_reports_witness :
  wait_result true (set_exception demo_errname AssertionError (demo_job None)) = Ret PNone.
Proof.
  apply (proj2 (wait_reports_unless_empty demo_errname AssertionError (demo_job None))). reflexivity.
Defined.

(** A call dropped by [lock_queue_size] leaks its lock: [add] registers
    the new job with the lock before it returns the queued job in its place,
    and nothing removes it again.  After the jobs of a lock have all ended,
    with the queue empty, the lock is still in [job_locks]. *)
Theorem dropped_job_leaks_lock :
  ∃ w, reachable demo_errname demo_format w ∧ w.(queue) = [] ∧
    (∀ j p, w.(tasks) !! j = Some p → p = Finished) ∧
    w.(job_locks) !! "pool_scrub" ≠ None.
Proof.
  exists dropped3. split; [apply dropped3_reach|]. split; [vm_compute; reflexivity|]. split.
  - assert (dropped3.(tasks) = {[0 := Finished; 1 := Finished]}) as -> by (vm_compute; reflexivity).
    intros j p. rewrite lookup_insert_Some, lookup_singleton_Some. intros [[_ <-]|[_ [_ <-]]]; reflexivity.
  - vm_compute. done.
Qed.
