(* ===== verification/Filter.v ===== *)
(** * Query filters: utils/__init__.py

    [filter_list] is the query language of the API: [query-filters] and
    [query-options] applied to a list of JSON objects.  Filters are Python
    values as clients send them, so a malformed one raises what the code
    raises.  [re_match] stands for the standard library's [re.match] and
    [getattr] for attribute access on an item that is not a dict. *)

From S2P Require Import Prelude PyValue.

(** ** [bisect] *)

Fixpoint bisect {A} (condition : A → bool) (iterable : list A) : list A * list A :=
  match iterable with
  | [] => ([], [])
  | val :: rest =>
      let '(a, b) := bisect condition rest in
      if condition val then (val :: a, b) else (a, val :: b)
  end.

(** ** Paths *)

(** [s[-1]] and [s[:-1]] *)
Fixpoint last_char (s : string) : option ascii :=
  match s with
  | "" => None
  | String c "" => Some c
  | String _ s' => last_char s'
  end.

Fixpoint init_str (s : string) : string :=
  match s with
  | "" | String _ "" => ""
  | String c s' => String c (init_str s')
  end.

Definition dot : ascii := "."%char.

(** [partition]: the text up to the first dot that no backslash escapes, and
    the rest.  Each turn of its loop drops at least the dot, so the length of the
    string bounds the turns. *)
Fixpoint partition_loop (fuel : nat) (rv s : string) : outcome exn (string * string) :=
  match fuel with
  | 0 => Ret (rv +:+ s, "")
  | S fuel =>
      match PyStr.split1 dot s with
      | None => Ret (rv +:+ s, "")
      | Some (lhs, rhs) =>
          match last_char lhs with
          | None => Raise IndexError
          | Some c =>
              if decide (c = backslash)
              then partition_loop fuel (rv +:+ init_str lhs +:+ String dot "") rhs
              else Ret (rv +:+ lhs, rhs)
          end
      end
  end.

Definition partition (s : string) : outcome exn (string * string) :=
  partition_loop (String.length s) "" s.

(** [int(s)]: surrounding blanks, a sign, digits with single underscores
    between them. *)
Definition is_digit (c : ascii) : bool :=
  let n := Ascii.nat_of_ascii c in ((48 <=? n) && (n <=? 57))%nat.

(** The digits, with the value so far; [need] when a digit must come next. *)
Fixpoint int_digits (need : bool) (acc : Z) (s : string) : option Z :=
  match s with
  | "" => if need then None else Some acc
  | String c s' =>
      if is_digit c then int_digits false (10 * acc + (Z.of_nat (Ascii.nat_of_ascii c) - 48))%Z s'
      else if Ascii.eqb c "_" then if need then None else int_digits true acc s'
      else None
  end.

Definition py_int (s : string) : option Z :=
  match PyStr.strip s with
  | String "-" s' => Z.opp <$> int_digits true 0 s'
  | String "+" s' => int_digits true 0 s'
  | s' => int_digits true 0 s'
  end.

(** [cur[i]] on a list: negative indexes count from the end. *)
Definition list_index (l : list pyval) (i : Z) : outcome exn pyval :=
  let i' := if Z.ltb i 0 then (Z.of_nat (length l) + i)%Z else i in
  if Z.ltb i' 0 then Raise IndexError
  else match l !! Z.to_nat i' with Some v => Ret v | None => Raise IndexError end.

(** One component of a path applied to [cur]. *)
Definition get_step (cur : pyval) (lhs : string) : outcome exn pyval :=
  match cur with
  | PDict d => Ret (from_option (λ v, v) PNone (dget d lhs))
  | PList l =>
      match py_int lhs with
      | None => Raise (ValueError ("invalid literal for int() with base 10: " +:+ repr_str lhs))
      | Some i => if Z.ltb i (Z.of_nat (length l)) then list_index l i else Ret PNone
      end
  | _ => Ret cur
  end.

(** [get]; the rest of the path gets shorter in each turn. *)
Fixpoint get_loop (fuel : nat) (cur : pyval) (rhs : string) : outcome exn pyval :=
  match fuel with
  | 0 => Ret cur
  | S fuel =>
      if String.eqb rhs "" then Ret cur
      else '(lhs, rhs) ← partition rhs;
           cur ← get_step cur lhs;
           get_loop fuel cur rhs
  end.

Definition get (obj : pyval) (path : string) : outcome exn pyval :=
  get_loop (String.length path) obj path.

(** ** Filters *)

(** [len(f)] and the unpacking of [f]. *)
Definition py_seq (f : pyval) : outcome exn (list pyval) :=
  match py_iter f with
  | Ret l => Ret l
  | Raise _ => Raise (TypeError "object has no len()")
  end.

Record Options : Type := mkOpts {
  select : list string;
  o_get : bool;
  o_count : bool;
  order_by : list string;
  offset : Z;
  limit : Z;
}.

Inductive Result : Type :=
| RList (l : list pyval)
| REntry (v : pyval)
| RCount (n : nat).

Section filters.
Context (re_match : pyval → pyval → outcome exn bool) (getattr : pyval → pyval → outcome exn pyval).

(** [x.startswith(y)] / [x.endswith(y)] *)
Definition str_method (m : string → string → bool) (x y : pyval) : outcome exn bool :=
  match x, y with
  | PStr x, PStr y => Ret (m x y)
  | PStr _, _ => Raise (TypeError "first arg must be str or a tuple of str")
  | _, _ => Raise (AttributeError "object has no such method")
  end.

(** [x is not None and ...] *)
Definition unless_none (x : pyval) (o : outcome exn bool) : outcome exn bool :=
  if decide (x = PNone) then Ret false else o.

(** [opmap] *)
Definition opmap (op : string) : option (pyval → pyval → outcome exn bool) :=
  match op with
  | "=" => Some (λ x y, Ret (py_eq x y))
  | "!=" => Some (λ x y, Ret (negb (py_eq x y)))
  | ">" => Some (λ x y, py_lt y x)
  | ">=" => Some (λ x y, py_le y x)
  | "<" => Some py_lt
  | "<=" => Some py_le
  | "~" => Some (λ x y, re_match y x)
  | "in" => Some py_in
  | "nin" => Some (λ x y, negb <$> py_in x y)
  | "rin" => Some (λ x y, unless_none x (py_in y x))
  | "rnin" => Some (λ x y, unless_none x (negb <$> py_in y x))
  | "^" => Some (λ x y, unless_none x (str_method PyStr.startswith x y))
  | "!^" => Some (λ x y, unless_none x (negb <$> str_method PyStr.startswith x y))
  | "$" => Some (λ x y, unless_none x (str_method PyStr.endswith x y))
  | "!$" => Some (λ x y, unless_none x (negb <$> str_method PyStr.endswith x y))
  | _ => None
  end.

(** [op in opmap] for any value, then its function. *)
Definition find_op (op : pyval) : outcome exn (pyval → pyval → outcome exn bool) :=
  match op with
  | PStr s => match opmap s with
              | Some f => Ret f
              | None => Raise (ValueError ("Invalid operation: " +:+ s))
              end
  | PList _ | PDict _ => Raise (TypeError "unhashable type")
  | _ => Raise (ValueError ("Invalid operation: " +:+ py_str op))
  end.

(** [get(i, name)] for any [name]. *)
Definition get_val (obj name : pyval) : outcome exn pyval :=
  match name with
  | PStr path => get obj path
  | _ => if truthy name then Raise (AttributeError "object has no attribute 'partition'") else Ret obj
  end.

(** The inner function [filterop], on the item [i]. *)
Definition filterop (i f : pyval) : outcome exn bool :=
  parts ← py_seq f;
  match parts with
  | [name; op; value] =>
      fn ← find_op op;
      source ← (match i with PDict _ => get_val i name | _ => getattr i name end);
      fn source value
  | _ => Raise (ValueError ("Invalid filter " +:+ py_str f))
  end.

(** One entry of [filters]: an [OR] of filters or a filter. *)
Definition one_filter (i f : pyval) : outcome exn bool :=
  parts ← py_seq f;
  match parts with
  | [op; value] =>
      if decide (op = PStr "OR") then
        branches ← py_iter value;
        anyO (filterop i) branches
      else Raise (ValueError ("Invalid operation: " +:+ py_str op))
  | _ => filterop i f
  end.

(** The loop over [filters]: stops at the first that fails. *)
Definition valid (filters : list pyval) (i : pyval) : outcome exn bool := allO (one_filter i) filters.

(** The [select] loop on one item: [entry[s] = i[s]] for the names [s in i]. *)
Definition select_one (i : pyval) (entry : pydict) (s : string) : outcome exn pydict :=
  present ← py_in (PStr s) i;
  if present : bool then
    match i with
    | PDict d => match dget d s with Some v => Ret (dset entry s v) | None => Raise (KeyError s) end
    | _ => Raise (TypeError "indices must be integers or slices, not str")
    end
  else Ret entry.

Fixpoint foldO {A B} (f : B → A → outcome exn B) (b : B) (l : list A) : outcome exn B :=
  match l with
  | [] => Ret b
  | a :: l => b ← f b a; foldO f b l
  end.

Definition selected (names : list string) (i : pyval) : outcome exn pyval :=
  match names with
  | [] => Ret i
  | _ => PDict <$> foldO (select_one i) [] names
  end.

(** The loop over the items: [inr entry] is the early [return entry] of [get]. *)
Fixpoint filter_loop (filters : list pyval) (opts : Options) (items : list pyval) :
    outcome exn (list pyval + pyval) :=
  match items with
  | [] => Ret (inl [])
  | i :: items =>
      ok ← valid filters i;
      if ok : bool then
        entry ← selected opts.(select) i;
        if opts.(o_get) then Ret (inr entry)
        else rest ← filter_loop filters opts items;
             Ret (match rest with inl rv => inl (entry :: rv) | inr e => inr e end)
      else filter_loop filters opts items
  end.

(** ** Ordering and slices *)

(** [x[o]] *)
Definition item_key (o : string) (x : pyval) : outcome exn pyval :=
  match x with
  | PDict d => match dget d o with Some v => Ret v | None => Raise (KeyError o) end
  | _ => Raise (TypeError "indices must be integers or slices, not str")
  end.

Definition key_leb (reverse : bool) (x y : pyval) : bool :=
  match (if reverse then py_compare y x else py_compare x y) with
  | Some Gt | None => false
  | _ => true
  end.

(** Two keys that Python cannot order. *)
Fixpoint comparable (keys : list pyval) : bool :=
  match keys with
  | [] => true
  | k :: ks => forallb (λ k', match py_compare k k' with Some _ => true | None => false end) ks
               && comparable ks
  end.

(** [sorted(rv, key=lambda x: x[o], reverse=reverse)]: stable; sorting compares
    any two keys that end up next to each other, so keys that are not ordered
    raise [TypeError]. *)
Definition sorted_key (o : string) (reverse : bool) (rv : list pyval) : outcome exn (list pyval) :=
  keys ← mapO (item_key o) rv;
  if comparable keys then
    Ret (sorted_by (λ p q, key_leb reverse p.1 q.1) (zip keys rv)).*2
  else Raise not_ordered.

Definition order_one (rv : list pyval) (o : string) : outcome exn (list pyval) :=
  match o with
  | String "-" o' => sorted_key o' true rv
  | _ => sorted_key o false rv
  end.

(** [rv[n:]] and [rv[:n]] *)
Definition slice_from {A} (n : Z) (l : list A) : list A :=
  if Z.ltb n 0 then drop (length l - Z.to_nat (- n)) l else drop (Z.to_nat n) l.
Definition slice_to {A} (n : Z) (l : list A) : list A :=
  if Z.ltb n 0 then take (length l - Z.to_nat (- n)) l else take (Z.to_nat n) l.

(** The part of [filter_list] after the items are chosen. *)
Definition finish (opts : Options) (rv : list pyval) : outcome exn Result :=
  if opts.(o_count) then Ret (RCount (length rv))
  else
    rv ← foldO order_one rv opts.(order_by);
    if opts.(o_get) then
      match rv with
      | [] => Raise MatchNotFound
      | x :: _ => Ret (REntry x)
      end
    else
      let rv := if Z.eqb opts.(offset) 0 then rv else slice_from opts.(offset) rv in
      Ret (RList (if Z.eqb opts.(limit) 0 then rv else slice_to opts.(limit) rv)).

(** [filter_list] *)
Definition filter_list (_list : list pyval) (filters : list pyval) (opts : Options) :
    outcome exn Result :=
  match filters with
  | [] =>
      rv ← mapO (selected opts.(select)) _list;
      finish opts rv
  | _ =>
      r ← filter_loop filters opts _list;
      match r with
      | inr entry => Ret (REntry entry)
      | inl rv => finish opts rv
      end
  end.

End filters.

(** ** [filter_getattrs]

    The work list [f]: [pop] takes its last element.  A two-element filter
    pushes its second component, so the nesting depth bounds the turns. *)

Fixpoint weight (v : pyval) : nat :=
  match v with
  | PList l => S (list_sum (weight <$> l))
  | PDict d => S (list_sum ((λ kv, S (2 * String.length kv.1) + weight kv.2) <$> d))
  | PStr s => S (2 * String.length s)
  | _ => 1
  end.

Fixpoint getattrs_loop (fuel : nat) (f : list pyval) (attrs : list pyval) : outcome exn (list pyval) :=
  match fuel, last f with
  | 0, _ | _, None => Ret attrs
  | S fuel, Some filter_ =>
      parts ← py_seq filter_;
      match parts with
      | [_; second] => getattrs_loop fuel (removelast f ++ [second]) attrs
      | [name; _; _] =>
          if hashable name then
            getattrs_loop fuel (removelast f) (if existsb (py_eq name) attrs then attrs else attrs ++ [name])
          else Raise (TypeError "unhashable type")
      | _ => Raise (ValueError "Invalid filter.")
      end
  end.

Definition filter_getattrs (filters : list pyval) : outcome exn (list pyval) :=
  getattrs_loop (S (list_sum (weight <$> filters))) filters [].
