(* ===== verification/FilterFacts.v ===== *)
(** * Properties of the query language *)

From S2P Require Import Prelude PyValue Filter.

(** ** Paths *)

(** The text of a key in a path: dots are escaped by a backslash. *)
Fixpoint escape (s : string) : string :=
  match s with
  | "" => ""
  | String c s' =>
      if decide (c = dot) then String backslash (String dot (escape s'))
      else String c (escape s')
  end.

(** A key that can stand in front of another one. *)
Definition inner_key (k : string) : Prop :=
  ∃ c, last_char k = Some c ∧ c ≠ backslash ∧ c ≠ dot.

Lemma last_char_app a x b : last_char (a +:+ String x b) = last_char (String x b).
Proof.
  induction a as [|y a IH]; [done|]. rewrite PyStr.app_cons.
  destruct a as [|z a]; [done|]. rewrite PyStr.app_cons in *. simpl in *. by rewrite <- IH.
Qed.

Lemma init_str_snoc a x : init_str (a +:+ String x "") = a.
Proof.
  induction a as [|y a IH]; [done|]. rewrite PyStr.app_cons.
  destruct a as [|z a]; [done|]. rewrite PyStr.app_cons in *. simpl in *. by rewrite IH.
Qed.

Lemma escape_app a b : escape (a +:+ b) = escape a +:+ escape b.
Proof.
  induction a as [|x a IH]; [done|]. rewrite PyStr.app_cons. simpl. case_decide.
  - by rewrite IH.
  - by rewrite PyStr.app_cons, IH.
Qed.

Lemma escape_nodot a : PyStr.count dot a = 0 → escape a = a.
Proof.
  induction a as [|x a IH]; [done|]. cbn -[dot]. case_decide; [done|]. intros Ha. by rewrite IH.
Qed.

Lemma escape_nonempty k : k ≠ "" → escape k ≠ "".
Proof. destruct k as [|x k]; [done|]. simpl. by case_decide. Qed.

Lemma length_escape k : String.length k ≤ String.length (escape k).
Proof. induction k as [|x k IH]; [done|]. simpl. case_decide; simpl; lia. Qed.

(** One turn of the loop on an escaped dot. *)
Lemma partition_loop_escaped n rv a s :
  PyStr.count dot a = 0 →
  partition_loop (S n) rv (a +:+ String backslash (String dot s)) =
  partition_loop n (rv +:+ a +:+ String dot "") s.
Proof.
  intros Ha. cbn [partition_loop].
  assert (PyStr.split1 dot (a +:+ String backslash (String dot s)) = Some (a +:+ String backslash "", s)) as ->.
  { apply PyStr.split1_Some. split; [by rewrite PyStr.app_assoc|]. rewrite PyStr.count_app, Ha. done. }
  rewrite last_char_app. cbn [last_char]. rewrite decide_True by done. by rewrite init_str_snoc.
Qed.

Lemma partition_escape_inner n rv k rest :
  PyStr.count dot k < n → inner_key k →
  partition_loop n rv (escape k +:+ String dot rest) = Ret (rv +:+ k, rest).
Proof.
  revert rv k; induction n as [|n IH]; intros rv k Hn (c & Hc & Hb & Hd); [lia|].
  destruct (PyStr.split1 dot k) as [[a b]|] eqn:E.
  - apply PyStr.split1_Some in E as [-> Ha].
    rewrite escape_app, (escape_nodot a Ha). cbn [escape]. rewrite decide_True by done.
    rewrite PyStr.app_assoc, !PyStr.app_cons, partition_loop_escaped by done.
    rewrite last_char_app in Hc. destruct b as [|y b]; [cbn in Hc; congruence|].
    rewrite IH; [by rewrite !PyStr.app_assoc| |by exists c].
    rewrite PyStr.count_app in Hn. cbn [PyStr.count] in *. rewrite decide_True in Hn by done. lia.
  - apply PyStr.split1_None in E. rewrite escape_nodot by done. cbn [partition_loop].
    assert (PyStr.split1 dot (k +:+ String dot rest) = Some (k, rest)) as ->.
    { by apply PyStr.split1_Some. }
    by rewrite Hc, decide_False.
Qed.

Lemma partition_escape_last n rv k :
  PyStr.count dot k ≤ n → partition_loop n rv (escape k) = Ret (rv +:+ k, "").
Proof.
  revert rv k; induction n as [|n IH]; intros rv k Hn.
  - simpl. rewrite escape_nodot by lia. done.
  - destruct (PyStr.split1 dot k) as [[a b]|] eqn:E.
    + apply PyStr.split1_Some in E as [-> Ha].
      rewrite escape_app, (escape_nodot a Ha). cbn [escape]. rewrite decide_True by done.
      rewrite partition_loop_escaped by done. rewrite IH; [by rewrite !PyStr.app_assoc|].
      rewrite PyStr.count_app in Hn. cbn [PyStr.count] in *. rewrite decide_True in Hn by done. lia.
    + apply PyStr.split1_None in E. rewrite escape_nodot by done. cbn [partition_loop].
      by apply PyStr.split1_None in E as ->.
Qed.

Lemma count_le_length c s : PyStr.count c s ≤ String.length s.
Proof. induction s as [|x s IH]; simpl; [done|]. case_decide; lia. Qed.

Lemma partition_inner k rest :
  inner_key k → partition (escape k +:+ String dot rest) = Ret (k, rest).
Proof.
  intros Hk. unfold partition. rewrite partition_escape_inner; [done| |done].
  rewrite PyStr.length_app. simpl. pose proof (count_le_length dot k). pose proof (length_escape k). lia.
Qed.

Lemma partition_last k : partition (escape k) = Ret (k, "").
Proof.
  unfold partition. rewrite partition_escape_last; [done|].
  pose proof (count_le_length dot k). pose proof (length_escape k). lia.
Qed.

Lemma inner_nonempty k : inner_key k → k ≠ "".
Proof. intros (c & Hc & _) ->. done. Qed.

Lemma get_loop_path n obj ks k :
  Forall inner_key ks → k ≠ "" → length ks < n →
  get_loop n obj (join "." (escape <$> (ks ++ [k]))) = foldO get_step obj (ks ++ [k]).
Proof.
  intros Hks Hk. revert n obj; induction Hks as [|k0 ks Hk0 Hks IH]; intros [|n] obj Hn; try (simpl in Hn; lia).
  - change (join "." (escape <$> ([] ++ [k]))) with (escape k). cbn [get_loop].
    destruct (String.eqb_spec (escape k) "") as [He|_]; [by apply escape_nonempty in He|].
    rewrite partition_last. simpl. destruct (get_step obj k); simpl; [|done]. by destruct n.
  - assert (∃ t, join "." (escape <$> ((k0 :: ks) ++ [k])) = escape k0 +:+ String dot t ∧
                 t = join "." (escape <$> (ks ++ [k]))) as (t & -> & ->).
    { eexists; split; [|done]. destruct ks; done. }
    cbn [get_loop]. destruct (String.eqb_spec (escape k0 +:+ String dot (join "." (escape <$> (ks ++ [k])))) "")
      as [He|_]; [by destruct (escape k0)|].
    rewrite partition_inner by done. simpl. destruct (get_step obj k0); simpl; [|done].
    apply IH. simpl in Hn. lia.
Qed.

Lemma path_length ks k :
  Forall inner_key ks → k ≠ "" → length ks < String.length (join "." (escape <$> (ks ++ [k]))).
Proof.
  intros Hks Hk. induction Hks as [|k0 ks Hk0 Hks IH].
  - simpl. pose proof (length_escape k). destruct k; simpl in *; [done|lia].
  - assert (join "." (escape <$> ((k0 :: ks) ++ [k])) =
      escape k0 +:+ String dot (join "." (escape <$> (ks ++ [k])))) as -> by (destruct ks; done).
    rewrite PyStr.length_app. simpl. lia.
Qed.

(** [get] follows a path component by component: a path written from keys,
    with the dots of a key escaped by a backslash, reaches exactly what
    following the keys one after the other reaches, errors included. *)
Theorem get_follows_path obj ks k :
  Forall inner_key ks → k ≠ "" →
  get obj (join "." (escape <$> (ks ++ [k]))) = foldO get_step obj (ks ++ [k]).
Proof. intros Hks Hk. unfold get. apply get_loop_path; [done|done|]. by apply path_length. Qed.

Lemma get_follows_path_witness :
  get (PDict [("a.b", PDict [("c", PInt 7)])]) ("a" +:+ String backslash ".b.c") = Ret (PInt 7).
Proof.
  refine (eq_trans (get_follows_path (PDict [("a.b", PDict [("c", PInt 7)])]) ["a.b"] "c" _ _) _).
  - repeat constructor. exists "b"%char. done.
  - discriminate.
  - reflexivity.
Defined.

(** ** Filters *)

(** A query: a conjunction of filters and disjunctions of filters. *)
Inductive clause : Type :=
| Atom (f : pyval)
| Or (fs : list pyval).

Definition encode_clause (c : clause) : pyval :=
  match c with
  | Atom f => f
  | Or fs => PList [PStr "OR"; PList fs]
  end.

Definition atoms (c : clause) : list pyval :=
  match c with Atom f => [f] | Or fs => fs end.

(** The meaning of a query, given the meaning of a single filter. *)
Definition clause_holds (holds : pyval → pyval → bool) (i : pyval) (c : clause) : bool :=
  match c with
  | Atom f => holds i f
  | Or fs => existsb (holds i) fs
  end.

Definition matches (holds : pyval → pyval → bool) (q : list clause) (i : pyval) : bool :=
  forallb (clause_holds holds i) q.

Section filters.
Context (re_match : pyval → pyval → outcome exn bool) (getattr : pyval → pyval → outcome exn pyval).
Notation filterop := (filterop re_match getattr).
Notation one_filter := (one_filter re_match getattr).
Notation valid := (valid re_match getattr).
Notation filter_loop := (filter_loop re_match getattr).
Notation filter_list := (filter_list re_match getattr).

(** Every filter of the query [q] applies to every item of [items], and [holds] is
    its answer. *)
Definition applies (holds : pyval → pyval → bool) (q : list clause) (items : list pyval) : Prop :=
  ∀ i c f, i ∈ items → c ∈ q → f ∈ atoms c → filterop i f = Ret (holds i f).

Lemma filterop_seq i f b : filterop i f = Ret b → ∃ x y z, py_seq f = Ret [x; y; z].
Proof.
  unfold Filter.filterop. intros (parts & Hp & H)%outcome_bind_Ret.
  destruct parts as [|x [|y [|z [|? ?]]]]; try done. by exists x, y, z.
Qed.

Lemma one_filter_spec holds i c :
  (∀ f, f ∈ atoms c → filterop i f = Ret (holds i f)) →
  one_filter i (encode_clause c) = Ret (clause_holds holds i c).
Proof.
  destruct c as [f|fs]; intros H; simpl in *.
  - specialize (H f (list_elem_of_here _ _)).
    destruct (filterop_seq i f _ H) as (x & y & z & Hs).
    unfold Filter.one_filter. rewrite Hs. done.
  - unfold Filter.one_filter. simpl. by apply anyO_total.
Qed.

Lemma valid_spec holds q i :
  (∀ c f, c ∈ q → f ∈ atoms c → filterop i f = Ret (holds i f)) →
  valid (encode_clause <$> q) i = Ret (matches holds q i).
Proof.
  intros H. unfold Filter.valid, matches.
  induction q as [|c q IH]; [done|]. cbn [allO forallb fmap list_fmap].
  rewrite (one_filter_spec holds i c) by (intros f; apply H; by left). simpl.
  destruct (clause_holds holds i c); simpl; [|done]. apply IH.
  intros c' f Hc. apply H. by right.
Qed.

Lemma filter_loop_all holds q opts items :
  applies holds q items → opts.(o_get) = false → opts.(select) = [] →
  filter_loop (encode_clause <$> q) opts items = Ret (inl (List.filter (matches holds q) items)).
Proof.
  intros Ha Hg Hsel. induction items as [|i items IH]; [done|]. cbn [Filter.filter_loop List.filter].
  rewrite (valid_spec holds) by (intros c f; apply Ha; by left). simpl.
  specialize (IH (λ j c f Hj, Ha j c f (list_elem_of_further _ _ _ Hj))).
  destruct (matches holds q i); [|done]. rewrite Hsel, Hg. simpl. by rewrite IH.
Qed.

Lemma filter_loop_first holds q opts items :
  applies holds q items → opts.(o_get) = true → opts.(select) = [] →
  filter_loop (encode_clause <$> q) opts items =
    Ret (match List.find (matches holds q) items with Some i => inr i | None => inl [] end).
Proof.
  intros Ha Hg Hsel. induction items as [|i items IH]; [done|]. cbn [Filter.filter_loop List.find].
  rewrite (valid_spec holds) by (intros c f; apply Ha; by left). simpl.
  specialize (IH (λ j c f Hj, Ha j c f (list_elem_of_further _ _ _ Hj))).
  destruct (matches holds q i); [|done]. by rewrite Hsel, Hg.
Qed.

(** [filter_list] keeps exactly the items that satisfy the query, in
    their order: every clause must hold, and an OR clause holds when one of its
    filters does; the short-circuits of the loops do not show. *)
Theorem filter_list_matches holds q opts items :
  q ≠ [] → applies holds q items → opts.(o_get) = false → opts.(select) = [] →
  filter_list items (encode_clause <$> q) opts = finish opts (List.filter (matches holds q) items).
Proof.
  intros Hq Ha Hg Hsel. destruct q as [|c q]; [done|].
  pose proof (filter_loop_all holds (c :: q) opts items Ha Hg Hsel) as Hl.
  unfold Filter.filter_list. cbn [fmap list_fmap] in *. by rewrite Hl.
Qed.

(** With filters and [get], the answer is the first item that satisfies
    the query in the order of the list: [order_by], [count] and [offset] are not
    looked at.  Without a match it is [MatchNotFound], or 0 under [count]. *)
Theorem filter_list_get_first holds q opts items :
  q ≠ [] → applies holds q items → opts.(o_get) = true → opts.(select) = [] →
  filter_list items (encode_clause <$> q) opts =
    match List.find (matches holds q) items with
    | Some i => Ret (REntry i)
    | None => if opts.(o_count) then Ret (RCount 0) else Raise MatchNotFound
    end.
Proof.
  intros Hq Ha Hg Hsel. destruct q as [|c q]; [done|].
  pose proof (filter_loop_first holds (c :: q) opts items Ha Hg Hsel) as Hl.
  unfold Filter.filter_list. cbn [fmap list_fmap] in *. rewrite Hl. simpl.
  destruct (List.find _ _); [done|]. unfold finish. destruct (o_count opts); [done|].
  assert (foldO order_one [] (order_by opts) = Ret []) as ->; [|by rewrite Hg].
  induction (order_by opts) as [|o os IH]; [done|]. simpl.
  assert (order_one [] o = Ret []) as ->; [|done].
  destruct o as [|x o]; [done|]. unfold order_one, sorted_key. simpl. by repeat case_match.
Qed.

(** ** Pages *)

Definition page (opts : Options) (k i : nat) : Options :=
  mkOpts opts.(select) opts.(o_get) opts.(o_count) opts.(order_by)
    (Z.of_nat (i * k)) (Z.of_nat k).

Lemma slice_page {A} k i (l : list A) :
  0 < k →
  (let rv := if Z.eqb (Z.of_nat (i * k)) 0 then l else slice_from (Z.of_nat (i * k)) l in
   if Z.eqb (Z.of_nat k) 0 then rv else slice_to (Z.of_nat k) rv) = take k (drop (i * k) l).
Proof.
  intros Hk. unfold slice_from, slice_to. simpl.
  destruct (Z.eqb_spec (Z.of_nat k) 0); [lia|].
  destruct (Z.ltb_spec (Z.of_nat k) 0); [lia|]. destruct (Z.ltb_spec (Z.of_nat (i * k)) 0); [lia|].
  rewrite !Nat2Z.id. destruct (Z.eqb_spec (Z.of_nat (i * k)) 0); [|done].
  by replace (i * k) with 0 by lia.
Qed.

Lemma pages_cover {A} k m (l : list A) :
  length l ≤ m * k → concat ((λ i, take k (drop (i * k) l)) <$> seq 0 m) = l.
Proof.
  revert l; induction m as [|m IH]; intros l Hl.
  - destruct l; simpl in *; [done|lia].
  - cbn [seq fmap list_fmap concat]. rewrite <- seq_shift, <- list_fmap_compose.
    rewrite <- (take_drop k l) at 2. f_equal.
    rewrite <- (IH (drop k l)) at 1; [|rewrite length_drop; lia].
    f_equal. apply list_fmap_ext. intros _ i _. simpl. by rewrite drop_drop.
Qed.

(** Pagination loses and repeats nothing: the pages [offset = i * k],
    [limit = k] for [i < m] put together are the result without [offset] and
    [limit], as soon as [m * k] reaches its length. *)
Theorem pagination_complete items filters opts k m rv :
  0 < k → opts.(offset) = 0%Z → opts.(limit) = 0%Z → opts.(o_get) = false →
  filter_list items filters opts = Ret (RList rv) → length rv ≤ m * k →
  ∃ pages, mapO (λ i, filter_list items filters (page opts k i)) (seq 0 m) = Ret (RList <$> pages) ∧
    concat pages = rv.
Proof.
  intros Hk Ho Hl Hg Hr Hm.
  exists ((λ i, take k (drop (i * k) rv)) <$> seq 0 m). split; [|by apply pages_cover].
  apply mapO_Ret. rewrite <- list_fmap_compose. apply Forall2_fmap_r, Forall_Forall2_diag.
  apply Forall_forall. intros i _. simpl.
  assert (∀ chosen, finish opts chosen = Ret (RList rv) →
    finish (page opts k i) chosen = Ret (RList (take k (drop (i * k) rv)))) as Hfin.
  { intros chosen. unfold finish. simpl. destruct (o_count opts); [done|].
    destruct (foldO order_one chosen (order_by opts)) as [rv'|]; simpl; [|done].
    rewrite Hg, Ho, Hl. simpl. intros [= ->]. do 2 f_equal. by apply slice_page. }
  assert (∀ fs, filter_loop fs (page opts k i) items = filter_loop fs opts items) as Hloop.
  { intros fs. clear. induction items as [|x items IH]; [done|]. simpl.
    destruct (valid fs x) as [[]|]; simpl; try done. by rewrite IH. }
  unfold Filter.filter_list in *. destruct filters as [|f fs].
  - apply outcome_bind_Ret in Hr as (chosen & Hc & Hr). simpl. rewrite Hc. by apply Hfin.
  - rewrite Hloop. destruct (filter_loop (f :: fs) opts items) as [[chosen|e]|]; simpl in *; try done.
    by apply Hfin.
Qed.
End filters.

(** ** Ordering *)

(** Keys that Python orders: all numbers or all strings. *)
Definition number (k : pyval) : Prop := is_Some (as_int k).
Definition text (k : pyval) : Prop := ∃ s, k = PStr s.
Definition uniform (keys : list pyval) : Prop := Forall number keys ∨ Forall text keys.

Lemma compare_number x y a b :
  as_int x = Some a → as_int y = Some b → py_compare x y = Some (Z.compare a b).
Proof. destruct x, y; simpl; intros; by simplify_eq. Qed.

Lemma key_leb_number rev x y a b :
  as_int x = Some a → as_int y = Some b →
  key_leb rev x y = if rev then Z.leb b a else Z.leb a b.
Proof.
  intros Hx Hy. unfold key_leb, Z.leb.
  rewrite (compare_number x y a b), (compare_number y x b a) by done.
  destruct rev; by destruct (_ ?= _)%Z.
Qed.

Lemma key_leb_text rev s t : key_leb rev (PStr s) (PStr t) = if rev then String.leb t s else String.leb s t.
Proof. unfold key_leb, String.leb. simpl. destruct rev; by destruct (String.compare _ _). Qed.

Lemma key_leb_refl rev k : number k ∨ text k → key_leb rev k k = true.
Proof.
  intros [[a Ha]|[s ->]].
  - rewrite (key_leb_number rev k k a a) by done. destruct rev; lia.
  - rewrite key_leb_text. destruct (String.leb_total s s); by destruct rev.
Qed.

Lemma key_leb_number_total rev x y :
  number x → number y → key_leb rev x y = true ∨ key_leb rev y x = true.
Proof.
  intros [a Ha] [b Hb]. rewrite (key_leb_number rev x y a b), (key_leb_number rev y x b a) by done.
  destruct rev; lia.
Qed.

Lemma key_leb_number_trans rev x y z : number x → number y → number z →
  key_leb rev x y = true → key_leb rev y z = true → key_leb rev x z = true.
Proof.
  intros [a Ha] [b Hb] [c Hc].
  rewrite (key_leb_number rev x y a b), (key_leb_number rev y z b c), (key_leb_number rev x z a c) by done.
  destruct rev; lia.
Qed.

Lemma key_leb_text_total rev x y :
  text x → text y → key_leb rev x y = true ∨ key_leb rev y x = true.
Proof.
  intros [a ->] [b ->]. rewrite !key_leb_text. destruct rev; apply String.leb_total.
Qed.

Lemma key_leb_text_trans rev x y z : text x → text y → text z →
  key_leb rev x y = true → key_leb rev y z = true → key_leb rev x z = true.
Proof.
  intros [a ->] [b ->] [c ->]. rewrite !key_leb_text. destruct rev; eauto using string_leb_trans.
Qed.

#[local] Instance number_dec k : Decision (number k).
Proof. unfold number. apply _. Defined.

#[local] Instance text_dec k : Decision (text k).
Proof. destruct k; first [by left; eexists|right; intros [s Hs]; congruence]. Defined.

(** The order on items that a key gives. *)
Definition key_le (o : string) (rev : bool) (x y : pyval) : Prop :=
  ∃ a b, item_key o x = Ret a ∧ item_key o y = Ret b ∧ key_leb rev a b = true.

Definition has_key (o : string) (v : pyval) (x : pyval) : bool :=
  bool_decide (item_key o x = Ret v).

Lemma StronglySorted_fmap {A B} (f : A → B) (R : A → A → Prop) (R' : B → B → Prop) l :
  (∀ x y, x ∈ l → y ∈ l → R x y → R' (f x) (f y)) → StronglySorted R l → StronglySorted R' (f <$> l).
Proof.
  intros Hf Hs. induction Hs as [|x l Hs IH Hx]; simpl; [constructor|]. constructor.
  - apply IH. intros y z Hy Hz. apply Hf; by right.
  - apply Forall_fmap. rewrite Forall_forall in *. intros y Hy. simpl.
    apply Hf; [by left|by right|auto].
Qed.

Lemma filter_snd (p : pyval → bool) (q : pyval * pyval → bool) zs :
  (∀ z, z ∈ zs → p z.2 = q z) → List.filter p (zs.*2) = (List.filter q zs).*2.
Proof.
  induction zs as [|z zs IH]; intros H; csimpl; [done|]. rewrite (H z) by left.
  rewrite IH by (intros; apply H; by right). by destruct (q z).
Qed.

Lemma zip_keys o rv keys :
  mapO (item_key o) rv = Ret keys →
  (zip keys rv).*2 = rv ∧ (zip keys rv).*1 = keys ∧
  ∀ z, z ∈ zip keys rv → item_key o z.2 = Ret z.1 ∧ z.1 ∈ keys.
Proof.
  intros H%mapO_Ret. split_and!.
  - apply snd_zip. apply Forall2_length in H. lia.
  - apply fst_zip. apply Forall2_length in H. lia.
  - induction H as [|x k rv keys Hk H IH]; simpl; intros z; [by intros ?%elem_of_nil|].
    intros [->|Hz]%elem_of_cons; simpl; [split; [done|left]|]. split; [by apply IH|right; by apply IH].
Qed.

Lemma sorted_key_spec o rev rv rv' keys :
  sorted_key o rev rv = Ret rv' → mapO (item_key o) rv = Ret keys → uniform keys →
  rv' ≡ₚ rv ∧ StronglySorted (key_le o rev) rv' ∧
  ∀ v, List.filter (has_key o v) rv' = List.filter (has_key o v) rv.
Proof.
  unfold sorted_key. intros Hs Hk Hu. rewrite Hk in Hs. simpl in Hs.
  destruct (comparable keys); [|done]. injection Hs as <-.
  destruct (zip_keys o rv keys Hk) as (H2 & H1 & Hz).
  set (leb := λ p q : pyval * pyval, key_leb rev p.1 q.1). split_and!.
  - rewrite sorted_by_perm. by rewrite H2.
  - apply (StronglySorted_fmap snd (λ p q, leb p q = true)).
    + intros p q [Hp _]%elem_of_sorted_by%Hz [Hq _]%elem_of_sorted_by%Hz Hle. exists p.1, q.1. done.
    + destruct Hu as [Hu|Hu]; rewrite Forall_forall in Hu.
      * apply (sorted_by_sorted leb (λ p, number p.1)).
        -- intros x y. apply key_leb_number_total.
        -- intros x y z. apply key_leb_number_trans.
        -- apply Forall_forall. intros z [_ Hin]%Hz. auto.
      * apply (sorted_by_sorted leb (λ p, text p.1)).
        -- intros x y. apply key_leb_text_total.
        -- intros x y z. apply key_leb_text_trans.
        -- apply Forall_forall. intros z [_ Hin]%Hz. auto.
  - intros v. rewrite <- H2 at 2.
    assert (∀ z, z ∈ zip keys rv → has_key o v z.2 = bool_decide (z.1 = v ∧ (number v ∨ text v))) as Hhas.
    { intros z [Hkz Hin]%Hz. unfold has_key. rewrite Hkz. apply bool_decide_ext. split; [|naive_solver].
      intros [= <-]. split; [done|]. destruct Hu as [Hu|Hu]; rewrite Forall_forall in Hu; auto. }
    rewrite (filter_snd _ _ _ Hhas).
    rewrite (filter_snd _ (λ z, bool_decide (z.1 = v ∧ (number v ∨ text v))));
      [|intros z ?%elem_of_sorted_by; auto].
    f_equal. apply sorted_by_stable. intros x y [Hx Hv]%bool_decide_eq_true_1 [Hy _]%bool_decide_eq_true_1.
    unfold leb; simpl. rewrite Hx, Hy. by apply key_leb_refl.
Qed.

(** The key and the direction an entry of [order_by] names. *)
Definition order_name (o : string) : string := match o with String "-" o' => o' | _ => o end.
Definition order_rev (o : string) : bool := match o with String "-" _ => true | _ => false end.

Lemma order_one_eq rv o : order_one rv o = sorted_key (order_name o) (order_rev o) rv.
Proof. destruct o as [|x o]; [done|]. unfold order_one, order_name, order_rev. by repeat case_match. Qed.

Lemma order_one_perm rv o rv' : order_one rv o = Ret rv' → rv' ≡ₚ rv.
Proof.
  rewrite order_one_eq. unfold sorted_key. intros (keys & Hk & H)%outcome_bind_Ret.
  destruct (comparable keys); [|done]. injection H as <-.
  rewrite sorted_by_perm. destruct (zip_keys _ _ _ Hk) as (-> & _). done.
Qed.

Lemma foldO_app {A B} (f : B → A → outcome exn B) b l1 l2 :
  foldO f b (l1 ++ l2) = (b' ← foldO f b l1; foldO f b' l2).
Proof. revert b; induction l1 as [|a l1 IH]; intros b; simpl; [done|]. destruct (f b a); simpl; auto. Qed.

Lemma foldO_order_perm os rv rv' : foldO order_one rv os = Ret rv' → rv' ≡ₚ rv.
Proof.
  revert rv; induction os as [|o os IH]; simpl; intros rv; [by intros [= ->]|].
  intros (rv1 & H1%order_one_perm & H2%IH)%outcome_bind_Ret. by rewrite H2.
Qed.

(** [order_by] sorts by its keys one after the other, so the LAST key is
    the primary one: the result is sorted by the last key, and items with an equal
    last key stay in the order that the keys before it gave. *)
Theorem order_by_last_key_primary rv os o rv' keys :
  foldO order_one rv (os ++ [o]) = Ret rv' →
  mapO (item_key (order_name o)) rv = Ret keys → uniform keys →
  ∃ rv1, foldO order_one rv os = Ret rv1 ∧ rv' ≡ₚ rv ∧
    StronglySorted (key_le (order_name o) (order_rev o)) rv' ∧
    ∀ v, List.filter (has_key (order_name o) v) rv' = List.filter (has_key (order_name o) v) rv1.
Proof.
  rewrite foldO_app. intros (rv1 & H1 & H2)%outcome_bind_Ret Hk Hu. simpl in H2.
  apply outcome_bind_Ret in H2 as (rv2 & H2 & [= ->]). rewrite order_one_eq in H2.
  pose proof (foldO_order_perm _ _ _ H1) as Hp.
  assert (∃ keys1, mapO (item_key (order_name o)) rv1 = Ret keys1 ∧ uniform keys1) as (keys1 & Hk1 & Hu1).
  { unfold sorted_key in H2. apply outcome_bind_Ret in H2 as (keys1 & Hk1 & _).
    exists keys1. split; [done|]. apply mapO_Ret in Hk, Hk1.
    assert (∀ k, k ∈ keys1 → k ∈ keys) as Hsub.
    { intros k Hin. apply list_elem_of_lookup in Hin as [i Hi].
      destruct (Forall2_lookup_r _ _ _ _ _ Hk1 Hi) as (x & Hx & Hxk).
      assert (x ∈ rv) as Hxin by (rewrite <- Hp; eapply list_elem_of_lookup_2; eauto).
      apply list_elem_of_lookup in Hxin as [j Hj].
      destruct (Forall2_lookup_l _ _ _ _ _ Hk Hj) as (k' & Hk' & Hxk').
      rewrite Hxk in Hxk'. injection Hxk' as <-. eapply list_elem_of_lookup_2; eauto. }
    destruct Hu as [Hu|Hu]; [left|right]; rewrite Forall_forall in *; auto. }
  destruct (sorted_key_spec _ _ _ _ _ H2 Hk1 Hu1) as (Hp2 & Hs & Hf).
  exists rv1. split_and!; [done|by rewrite Hp2|done|done].
Qed.

(** ** [filter_getattrs] *)

(** [filter_getattrs] on an OR of two filters reports only the attribute
    of the second: the list of the branches is taken for one more two-element
    filter, so the first branch is not looked at. *)
Theorem getattrs_or_misses_branch n1 op1 v1 n2 op2 v2 :
  hashable n2 = true →
  filter_getattrs [PList [PStr "OR"; PList [PList [n1; op1; v1]; PList [n2; op2; v2]]]] = Ret [n2].
Proof.
  intros Hh. unfold filter_getattrs.
  match goal with |- context [list_sum ?l] => remember (list_sum l) as n eqn:Hn end.
  assert (∃ m, n = S (S (S m))) as [m ->] by (exists (n - 3); simpl in Hn; lia).
  simpl. by rewrite Hh.
Qed.

(** ** Witnesses *)

Definition demo_re (x y : pyval) : outcome exn bool := Ret false.
Definition demo_getattr (x name : pyval) : outcome exn pyval := Raise (AttributeError "attribute").
Definition demo_disk (name pool : string) (size : Z) : pyval :=
  PDict [("name", PStr name); ("pool", PStr pool); ("size", PInt size)].
Definition demo_disks : list pyval :=
  [demo_disk "ada0" "tank" 3; demo_disk "ada1" "boot" 1; demo_disk "ada2" "tank" 2].
Definition demo_opts : Options := mkOpts [] false false [] 0 0.
Definition demo_opts_get : Options := mkOpts [] true false ["size"] 0 0.
Definition demo_query : list clause :=
  [Or [PList [PStr "pool"; PStr "="; PStr "tank"]; PList [PStr "size"; PStr ">"; PInt 5]];
   Atom (PList [PStr "name"; PStr "^"; PStr "ada"])].

(** The answer of a filter that applies. *)
Definition demo_holds (i f : pyval) : bool :=
  match filterop demo_re demo_getattr i f with Ret b => b | Raise _ => false end.

Definition applies_bool (q : list clause) (items : list pyval) : bool :=
  forallb (λ i, forallb (λ c, forallb (λ f, is_ret (filterop demo_re demo_getattr i f)) (atoms c)) q) items.

Lemma applies_bool_spec q items :
  applies_bool q items = true → applies demo_re demo_getattr demo_holds q items.
Proof.
  unfold applies_bool, applies, demo_holds. intros H i c f Hi Hc Hf.
  rewrite List.forallb_forall in H. specialize (H i (proj1 (list_elem_of_In _ _) Hi)).
  rewrite List.forallb_forall in H. specialize (H c (proj1 (list_elem_of_In _ _) Hc)).
  rewrite List.forallb_forall in H. specialize (H f (proj1 (list_elem_of_In _ _) Hf)).
  by destruct (filterop _ _ i f).
Qed.

Lemma filter_list_matches_witness :
  filter_list demo_re demo_getattr demo_disks (encode_clause <$> demo_query) demo_opts =
  Ret (RList [demo_disk "ada0" "tank" 3; demo_disk "ada2" "tank" 2]).
Proof.
  refine (eq_trans (filter_list_matches demo_re demo_getattr demo_holds demo_query demo_opts demo_disks _ _ _ _) _).
  - discriminate.
  - apply applies_bool_spec. vm_compute. reflexivity.
  - reflexivity.
  - reflexivity.
  - vm_compute. reflexivity.
Defined.

Lemma filter_list_get_first_witness :
  filter_list demo_re demo_getattr demo_disks (encode_clause <$> demo_query) demo_opts_get =
  Ret (REntry (demo_disk "ada0" "tank" 3)).
Proof.
  refine (eq_trans (filter_list_get_first demo_re demo_getattr demo_holds demo_query demo_opts_get demo_disks _ _ _ _) _).
  - discriminate.
  - apply applies_bool_spec. vm_compute. reflexivity.
  - reflexivity.
  - reflexivity.
  - vm_compute. reflexivity.
Defined.

Lemma pagination_complete_witness :
  ∃ pages, mapO (λ i, filter_list demo_re demo_getattr demo_disks [] (page demo_opts 2 i)) (seq 0 2) =
    Ret (RList <$> pages) ∧ concat pages = demo_disks.
Proof.
  apply (pagination_complete demo_re demo_getattr demo_disks [] demo_opts 2 2 demo_disks);
    first [reflexivity | vm_compute; lia].
Defined.

(** Ordered by name and then by pool, the pools come first. *)
Lemma order_by_witness :
  foldO order_one demo_disks (["name"] ++ ["pool"]) =
    Ret [demo_disk "ada1" "boot" 1; demo_disk "ada0" "tank" 3; demo_disk "ada2" "tank" 2] ∧
  StronglySorted (key_le "pool" false)
    [demo_disk "ada1" "boot" 1; demo_disk "ada0" "tank" 3; demo_disk "ada2" "tank" 2].
Proof.
  assert (foldO order_one demo_disks (["name"] ++ ["pool"]) =
    Ret [demo_disk "ada1" "boot" 1; demo_disk "ada0" "tank" 3; demo_disk "ada2" "tank" 2]) as H
    by (vm_compute; reflexivity).
  split; [exact H|].
  destruct (order_by_last_key_primary demo_disks ["name"] "pool" _ [PStr "tank"; PStr "boot"; PStr "tank"] H)
    as (rv1 & _ & _ & Hs & _).
  - vm_compute. reflexivity.
  - right. repeat constructor; eexists; reflexivity.
  - exact Hs.
Defined.

Lemma getattrs_or_witness :
  filter_getattrs [PList [PStr "OR"; PList [PList [PStr "pool"; PStr "="; PStr "tank"];
    PList [PStr "name"; PStr "="; PStr "tank/ds"]]]] = Ret [PStr "name"].
Proof.
  apply (getattrs_or_misses_branch (PStr "pool") (PStr "=") (PStr "tank") (PStr "name") (PStr "=") (PStr "tank/ds")).
  reflexivity.
Defined.
