(* ===== verification/PyNum.v ===== *)
(** * Printing and reading numbers

    [str] of an integer, zero-padded decimals and [int] of a string, which reads
    them back; [split] of a text put together from pieces without the separator. *)

From S2P Require Import Prelude PyValue Filter.

Fixpoint str_forall (p : ascii → bool) (s : string) : bool :=
  match s with "" => true | String c s' => p c && str_forall p s' end.

Lemma str_forall_imp (p q : ascii → bool) s :
  (∀ c, p c = true → q c = true) → str_forall p s = true → str_forall q s = true.
Proof.
  intros Hpq. induction s as [|c s IH]; cbn [str_forall]; [done|].
  intros [Hc Hs]%andb_true_iff. by rewrite Hpq, IH.
Qed.

Lemma count_absent c s : str_forall (λ x, negb (Ascii.eqb x c)) s = true → PyStr.count c s = 0.
Proof.
  induction s as [|x s IH]; cbn [str_forall PyStr.count]; [done|].
  intros [Hx Hs]%andb_true_iff. rewrite IH by done.
  case_decide as Hd; [|done]. subst. by rewrite Ascii.eqb_refl in Hx.
Qed.

Lemma rsplit1_app c a b : PyStr.count c b = 0 → PyStr.rsplit1 c (a +:+ String c b) = Some (a, b).
Proof.
  intros Hb. induction a as [|x a IH].
  - change ("" +:+ String c b) with (String c b). cbn [PyStr.rsplit1].
    apply PyStr.rsplit1_None in Hb as ->. by rewrite decide_True.
  - rewrite PyStr.app_cons. cbn [PyStr.rsplit1]. by rewrite IH.
Qed.

Lemma strip_id s : str_forall (λ c, negb (PyStr.is_blank c)) s = true → PyStr.strip s = s.
Proof.
  intros Hs. assert (PyStr.rstrip s = s) as Hr.
  { induction s as [|c s IH]; cbn [str_forall PyStr.rstrip] in *; [done|].
    apply andb_true_iff in Hs as [Hc Hs]. rewrite IH by done.
    destruct s; [by apply negb_true_iff in Hc as ->|done]. }
  unfold PyStr.strip. rewrite Hr. destruct s as [|c s]; [done|].
  cbn [str_forall PyStr.lstrip] in *. apply andb_true_iff in Hs as [Hc _].
  by apply negb_true_iff in Hc as ->.
Qed.

Lemma pretty_N_char_digit x :
  (x < 10)%N → is_digit (pretty_N_char x) = true ∧
  (Z.of_nat (Ascii.nat_of_ascii (pretty_N_char x)) - 48)%Z = Z.of_N x.
Proof.
  intros Hx. assert (x = 0 ∨ x = 1 ∨ x = 2 ∨ x = 3 ∨ x = 4 ∨ x = 5 ∨ x = 6 ∨ x = 7 ∨ x = 8 ∨ x = 9)%N
    as Hcases by lia.
  destruct_or! Hcases; subst; by vm_compute.
Qed.

Lemma pretty_go_digits x s : str_forall is_digit s = true → str_forall is_digit (pretty_N_go x s) = true.
Proof.
  revert s. induction (N.lt_wf_0 x) as [x _ IH]; intros s Hs.
  destruct (decide (x = 0)%N) as [->|Hx]; [by rewrite pretty_N_go_0|].
  rewrite pretty_N_go_step by lia. apply IH; [apply N.div_lt; lia|].
  cbn [str_forall]. rewrite Hs, (proj1 (pretty_N_char_digit _ (N.mod_lt x 10 ltac:(lia)))). done.
Qed.

Lemma int_digits_go x s need :
  (0 < x)%N → int_digits need 0 (pretty_N_go x s) = int_digits false (Z.of_N x) s.
Proof.
  revert s need. induction (N.lt_wf_0 x) as [x _ IH]; intros s need Hx.
  rewrite pretty_N_go_step by done.
  destruct (pretty_N_char_digit (x `mod` 10)%N) as [Hd Hv]; [apply N.mod_lt; lia|].
  pose proof (N.div_mod x 10 ltac:(lia)) as Hdm.
  destruct (decide (x `div` 10 = 0)%N) as [H0|H0].
  - rewrite H0, pretty_N_go_0. cbn [int_digits]. rewrite Hd, Hv. f_equal.
    rewrite Hdm at 2. rewrite H0. generalize (x `mod` 10)%N. clear. intros y. lia.
  - rewrite IH; [|apply N.div_lt; lia|by apply N.neq_0_lt_0]. cbn [int_digits]. rewrite Hd, Hv. f_equal.
    rewrite Hdm at 3. generalize (x `mod` 10)%N (x `div` 10)%N. clear. intros y z. lia.
Qed.

Definition number_char (c : ascii) : bool := is_digit c || Ascii.eqb c "-".

Lemma number_char_plain c :
  number_char c = true → negb (PyStr.is_blank c) = true ∧ negb (Ascii.eqb c ":") = true.
Proof. destruct c as [[] [] [] [] [] [] [] []]; vm_compute; done. Qed.

Lemma pretty_pos_digits (p : positive) : str_forall is_digit (pretty p) = true.
Proof. unfold pretty, pretty_positive, pretty, pretty_N. rewrite decide_False by done. by apply pretty_go_digits. Qed.

Lemma pretty_Z_chars (z : Z) : str_forall number_char (pretty z) = true.
Proof.
  assert (∀ p : positive, str_forall number_char (pretty p) = true) as Hp.
  { intros p. eapply str_forall_imp, pretty_pos_digits. unfold number_char. by intros c ->. }
  destruct z as [|p|p]; [done|apply Hp|]. change (pretty (Zneg p)) with (String "-" (pretty p)).
  cbn [str_forall]. by rewrite Hp.
Qed.

Lemma py_int_pos (p : positive) : py_int (pretty p) = Some (Zpos p) ∧ int_digits true 0 (pretty p) = Some (Zpos p).
Proof.
  assert (int_digits true 0 (pretty p) = Some (Zpos p)) as Hi.
  { unfold pretty, pretty_positive, pretty, pretty_N. rewrite decide_False by done. by rewrite int_digits_go. }
  split; [|done]. unfold py_int. rewrite strip_id.
  - pose proof (pretty_pos_digits p) as Hd. destruct (pretty p) as [|c s]; [done|].
    cbn [str_forall] in Hd. apply andb_true_iff in Hd as [Hd _].
    destruct c as [[] [] [] [] [] [] [] []]; try done.
  - eapply str_forall_imp, (pretty_Z_chars (Zpos p)). intros c Hc. by apply number_char_plain.
Qed.

(** [int(str(n)) == n] *)
Lemma py_int_pretty (z : Z) : py_int (pretty z) = Some z.
Proof.
  destruct z as [|p|p]; [done|apply py_int_pos|].
  change (pretty (Zneg p)) with (String "-" (pretty p)). unfold py_int. rewrite strip_id.
  - by rewrite (proj2 (py_int_pos p)).
  - eapply str_forall_imp, (pretty_Z_chars (Zneg p)). intros c Hc. by apply number_char_plain.
Qed.

(** [%0<w>d] for a non-negative number. *)
Fixpoint zeros (n : nat) : string :=
  match n with O => "" | S n => String "0" (zeros n) end.

Definition zpad (w : nat) (z : Z) : string :=
  let s := pretty z in zeros (w - String.length s) +:+ s.

Lemma int_digits_zeros n need s :
  int_digits need 0 (zeros (S n) +:+ s) = int_digits false 0 s.
Proof.
  revert need. induction n as [|n IH]; intros need; [done|].
  change (zeros (S (S n)) +:+ s) with (String "0" (zeros (S n) +:+ s)). apply (IH false).
Qed.

Lemma int_digits_nonneg z need : (0 ≤ z)%Z → int_digits need 0 (pretty z) = Some z.
Proof.
  intros Hz. destruct z as [|p|p]; [done| |lia].
  change (pretty (Zpos p)) with (pretty p).
  unfold pretty, pretty_positive, pretty, pretty_N. rewrite decide_False by done. by rewrite int_digits_go.
Qed.

Lemma str_forall_app p a b : str_forall p (a +:+ b) = str_forall p a && str_forall p b.
Proof.
  induction a as [|c a IH]; [done|]. rewrite PyStr.app_cons. cbn [str_forall].
  by rewrite IH, andb_assoc.
Qed.

Lemma zpad_digits w z : (0 ≤ z)%Z → str_forall is_digit (zpad w z) = true.
Proof.
  intros Hz. unfold zpad. rewrite str_forall_app, andb_true_iff. split.
  - generalize (w - String.length (pretty z)). intros n. by induction n as [|n IH].
  - destruct z as [|p|p]; [done|apply pretty_pos_digits|lia].
Qed.

Lemma digits_plain s :
  str_forall is_digit s = true → str_forall (λ c, negb (PyStr.is_blank c)) s = true.
Proof.
  apply str_forall_imp. intros c Hc. apply number_char_plain. unfold number_char. by rewrite Hc.
Qed.

(** [int] of a string of digits has no sign to strip. *)
Lemma py_int_digits s : str_forall is_digit s = true → py_int s = int_digits true 0 s.
Proof.
  intros Hd. unfold py_int. rewrite strip_id by by apply digits_plain.
  destruct s as [|c s]; [done|]. cbn [str_forall] in Hd. apply andb_true_iff in Hd as [Hd _].
  by destruct c as [[] [] [] [] [] [] [] []].
Qed.

(** [int('%0<w>d' % z) == z] *)
Lemma py_int_zpad w z : (0 ≤ z)%Z → py_int (zpad w z) = Some z.
Proof.
  intros Hz. rewrite py_int_digits by by apply zpad_digits.
  unfold zpad. destruct (w - String.length (pretty z)) as [|n].
  - by apply int_digits_nonneg.
  - rewrite int_digits_zeros. by apply int_digits_nonneg.
Qed.

(** ** [sep.split] *)

Lemma split_absent c s : PyStr.count c s = 0 → PyStr.split c s = [s].
Proof.
  induction s as [|x s IH]; cbn [PyStr.count PyStr.split]; [done|].
  case_decide; [lia|]. intros Hs. by rewrite IH by lia.
Qed.

Lemma split_cons c a b :
  PyStr.count c a = 0 → PyStr.split c (a +:+ String c b) = a :: PyStr.split c b.
Proof.
  induction a as [|x a IH]; intros Ha.
  - change ("" +:+ String c b) with (String c b). cbn [PyStr.split]. by rewrite decide_True.
  - rewrite PyStr.app_cons. cbn [PyStr.count PyStr.split] in *.
    case_decide; [lia|]. by rewrite IH by lia.
Qed.

Lemma count_in_digits c s : is_digit c = false → str_forall is_digit s = true → PyStr.count c s = 0.
Proof.
  intros Hc Hs. apply count_absent. eapply str_forall_imp, Hs.
  intros x Hx. apply negb_true_iff, Ascii.eqb_neq. congruence.
Qed.
