(* ===== verification/Validators.v ===== *)
(** * The validators of schema attributes: validators.py, async_validators.py

    A validator takes the value of an attribute and returns or raises; the schema
    records a [ValueError] and lets everything else through.  What the ipaddress
    module accepts, compiled patterns and the calls to other services are
    arguments. *)

From S2P Require Import Prelude PyValue PyTime Filter Schema PyNum.

Notation Validator := (pyval → outcome exn unit).

Definition invalid (msg : string) : outcome exn unit := Raise (ValueError msg).

Definition check (b : bool) (msg : string) : outcome exn unit := if b then Ret tt else invalid msg.

(** A method of [str] that the value does not have. *)
Definition no_method (m : string) : exn := AttributeError ("object has no attribute '" +:+ m +:+ "'").

(** [len(value)] *)
Definition py_len (v : pyval) : outcome exn Z :=
  match v with
  | PStr s => Ret (Z.of_nat (String.length s))
  | PList l => Ret (Z.of_nat (length l))
  | PDict d => Ret (Z.of_nat (length d))
  | _ => Raise (TypeError "object has no len()")
  end.

(** ** Email, Exact *)

Definition max_path : Z := 254.

Definition email (empty : bool) : Validator := λ value,
  match value with
  | PNone => Ret tt
  | _ =>
      if empty && negb (truthy value) then Ret tt
      else
        n ← py_len value;
        if Z.ltb max_path n then invalid "Maximum length is {self.max_path} characters."
        else match value with
        | PStr s =>
            match PyStr.rsplit1 "@" s with
            | None => invalid "Missing '@' symbol."
            | Some (local_part, domain) =>
                if String.eqb local_part "" then
                  invalid "Missing local part of email string (part before the '@')."
                else check (negb (String.eqb domain "")) "Missing domain part of email string (part after the '@')."
            end
        | _ => Raise (no_method "rfind")
        end
  end.

Definition exact (expected : pyval) : Validator := λ value,
  check (py_eq value expected) ("Should be " +:+ py_repr expected).

(** ** Addresses *)

Section addresses.
(** [ipaddress.ip_address] and [ipaddress.ip_network(..., strict=False)]: whether
    they return. *)
Context (ip_address : pyval → bool) (ip_network : string → bool).

Definition ip_address_validator : Validator := λ value, check (ip_address value) "Not a valid IP address".

Definition netmask (ipv4 ipv6 prefix_length : bool) : Validator := λ value,
  match value with
  | PStr s =>
      if negb prefix_length && PyStr.isdigit s then
        invalid "Please specify expanded netmask i.e 255.255.255.128."
      else
        let ip := if ipv4 && ipv6 && PyStr.isdigit s
                  then if Z.ltb 32 (PyStr.digits_value s) then "2001:db8::" else "1.1.1.1"
                  else if ipv6 && negb ipv4 then "2001:db8::" else "1.1.1.1" in
        check (ip_network (ip +:+ "/" +:+ s)) "Not a valid netmask"
  | _ =>
      if negb prefix_length || (ipv4 && ipv6) then Raise (no_method "isdigit")
      else check (ip_network ((if ipv6 && negb ipv4 then "2001:db8::" else "1.1.1.1") +:+ "/" +:+ py_str value))
             "Not a valid netmask"
  end.

(** The address of a jail interface: [v.split('|')[1].split('/')[0]]. *)
Definition jail_address (v : string) : string :=
  match PyStr.split "|" v with
  | _ :: a :: _ => PyStr.before "/" a
  | _ => "none"
  end.

(** [IpInUse]: the [ip4_addr] and [ip6_addr] of the jails, and the addresses of the
    interfaces. *)
Definition ip_in_use (exclude : list string) (jails : list (string * string)) (interfaces : list string)
    (ip : string) : outcome exn unit :=
  ip_address_validator (PStr ip) ≫= λ _,
  if bool_decide (ip ∈ exclude) then Ret tt
  else
    let ips := (jails ≫= λ jail, [jail.1; jail.2] ≫= λ j_ip, jail_address <$> PyStr.split "," j_ip) ++ interfaces in
    check (negb (bool_decide (ip ∈ ips))) (ip +:+ " is already being used by the system. Please select another IP").
End addresses.

(** ** Time *)

Definition time_message : string := "Time should be in 24 hour format like " +:+ String double_quote ("18:00" +:+ String double_quote "").

Definition int_of (s : string) : outcome exn Z :=
  match py_int s with Some z => Ret z | None => Raise (ValueError "invalid literal for int() with base 10") end.

(** Only a [TypeError] of the constructor is translated. *)
Definition time_validator : Validator := λ value,
  match value with
  | PStr s =>
      match PyStr.split ":" s with
      | [hours; minutes] =>
          h ← int_of hours; m ← int_of minutes;
          match make_time [h; m] with
          | Raise (TypeError _) => invalid time_message
          | Raise e => Raise e
          | Ret _ => Ret tt
          end
      | _ => invalid time_message
      end
  | _ => Raise (no_method "split")
  end.

(** ** Patterns *)

(** [Match] and [NotMatch]; [regex s] is whether the compiled pattern matches at
    the start of [s]. *)
Section patterns.
Context (pattern : string) (explanation : option string) (regex : string → bool).

Definition truthy_or (o : option string) (d : string) : string :=
  match o with Some s => if String.eqb s "" then d else s | None => d end.

Definition match_ : Validator := λ value,
  match value with
  | PNone => Ret tt
  | PStr s => check (regex s) (truthy_or explanation ("Does not match " +:+ pattern))
  | _ => Raise (TypeError "expected string or bytes-like object")
  end.

Definition not_match : Validator := λ value,
  match value with
  | PNone => Ret tt
  | PStr s => check (negb (regex s)) (truthy_or explanation ("Value matches " +:+ repr_str pattern +:+ " pattern"))
  | _ => Raise (TypeError "expected string or bytes-like object")
  end.
End patterns.

Definition char_between (a b c : ascii) : bool :=
  (Ascii.nat_of_ascii a <=? Ascii.nat_of_ascii c) && (Ascii.nat_of_ascii c <=? Ascii.nat_of_ascii b).

Definition is_lower (c : ascii) : bool := char_between "a" "z" c.
Definition is_upper (c : ascii) : bool := char_between "A" "Z" c.
Definition is_alnum (c : ascii) : bool := is_lower c || is_upper c || is_digit c.
Definition is_host_char (c : ascii) : bool := is_alnum c || Ascii.eqb c "." || Ascii.eqb c "-".

(** [$] also matches before a newline at the end of the text. *)
Definition newline : string := String (Ascii.ascii_of_nat 10) "".
Definition at_end (s : string) : bool := String.eqb s "" || String.eqb s newline.

(** [^[a-z\.\-0-9]*[a-z0-9]$] without regard to case *)
Fixpoint hostname_regex (s : string) : bool :=
  match s with
  | "" => false
  | String c s => is_host_char c && (is_alnum c && at_end s || hostname_regex s)
  end.

Definition hostname (explanation : option string) : Validator :=
  match_ "^[a-z\.\-0-9]*[a-z0-9]$" explanation hostname_regex.

(** ** Or, Range, Unique *)

Fixpoint or_ (validators : list Validator) (errors : list string) : Validator := λ value,
  match validators with
  | [] => invalid (join " or " errors)
  | f :: validators =>
      match f value with
      | Ret _ => Ret tt
      | Raise (ValueError m) => or_ validators (errors ++ [m]) value
      | Raise e => Raise e
      end
  end.

Definition range_error (min max : option Z) : string :=
  match min, max with
  | Some a, Some b => "between " +:+ pretty a +:+ " and " +:+ pretty b
  | None, Some b => "less or equal than " +:+ pretty b
  | Some a, None => "greater or equal than " +:+ pretty a
  | None, None => ""
  end.

Definition range (min max : option Z) : Validator := λ value,
  match value with
  | PNone => Ret tt
  | _ =>
      let value := match value with PStr s => PInt (Z.of_nat (String.length s)) | _ => value end in
      low ← match min with Some a => py_lt value (PInt a) | None => Ret false end;
      if low : bool then invalid ("Should be " +:+ range_error min max)
      else
        high ← match max with Some b => py_lt (PInt b) value | None => Ret false end;
        check (negb high) ("Should be " +:+ range_error min max)
  end.

Definition port : Validator := range (Some 1%Z) (Some 65535%Z).

(** [value.count(item)] of a list *)
Definition list_count (x : pyval) (l : list pyval) : nat := length (List.filter (λ y, py_eq y x) l).

Definition unique : Validator := λ value,
  match value with
  | PList l =>
      match List.find (λ x, 1 <? list_count x l) l with
      | Some x => invalid ("Duplicate values are not allowed: " +:+ py_repr x)
      | None => Ret tt
      end
  | PStr s =>
      match List.find (λ c, 1 <? PyStr.count c s) (String.list_ascii_of_string s) with
      | Some c => invalid ("Duplicate values are not allowed: " +:+ repr_str (String c ""))
      | None => Ret tt
      end
  | PDict (_ :: _) => Raise (no_method "count")
  | PDict [] => Ret tt
  | _ => Raise (TypeError "object is not iterable")
  end.

(** ** MACAddr *)

Definition is_hex (c : ascii) : bool := is_digit c || char_between "A" "F" c || char_between "a" "f" c.
Definition is_separator (c : ascii) : bool := Ascii.eqb c ":" || Ascii.eqb c "-".

Definition skip_separator (s : string) : string :=
  match s with String c s' => if is_separator c then s' else s | "" => s end.

(** [^([0-9A-Fa-f]{2}[:-]?){n}([0-9A-Fa-f]{2})$] *)
Fixpoint mac_regex (n : nat) (s : string) : bool :=
  match s with
  | String a (String b s) =>
      is_hex a && is_hex b &&
      match n with
      | 0 => at_end s
      | S n => mac_regex n (skip_separator s)
      end
  | _ => false
  end.

(** [({separator} ^ {':', '-'}).pop()] *)
Definition other_separator (c : ascii) : ascii := if Ascii.eqb c ":" then "-" else ":".

Definition mac_addr (separator : option ascii) : Validator := λ value,
  match value with
  | PStr s =>
      check (mac_regex 5 (PyStr.lower s) &&
             match separator with
             | None => true
             | Some c => PyStr.contains s (String c "") &&
                         negb (PyStr.contains (PyStr.lower s) (String (other_separator c) ""))
             end)
        "Please provide a valid MAC address"
  | _ => Raise (no_method "lower")
  end.

(** ** PasswordComplexity *)

Definition is_punctuation (c : ascii) : bool :=
  char_between "!" "~" c && negb (is_alnum c).

(** A kind of character: its name in [required_types], the test, and the texts. *)
Record Category : Type := mkCategory { c_type : string; c_test : ascii → bool; c_req : string; c_err : string }.

Definition categories : list Category :=
  [mkCategory "ASCII_LOWER" is_lower "lowercase character" "Must contain at least one lowercase character. ";
   mkCategory "ASCII_UPPER" is_upper "uppercase character" "Must contain at least one uppercase character. ";
   mkCategory "DIGIT" is_digit "digits 0-9" "Must contain at least one numeric digit (0-9). ";
   mkCategory "SPECIAL" is_punctuation "special characters (!, $, #, %, etc.)"
     "Must contain at least one special character (!, $, #, %, etc.). "].

(** [any(c in ... for c in value)] *)
Definition has_char (p : ascii → bool) (s : string) : bool := existsb p (String.list_ascii_of_string s).

(** One of the four blocks: [cnt], [reqs] and [errstr]. *)
Definition check_category (required_types : list string) (required_cnt : option Z) (value : string)
    (acc : Z * list string * string) (k : Category) : Z * list string * string :=
  let '(cnt, reqs, errstr) := acc in
  if bool_decide (k.(c_type) ∈ required_types) then
    let reqs := reqs ++ [k.(c_req)] in
    if has_char k.(c_test) value then ((cnt + 1)%Z, reqs, errstr)
    else match required_cnt with
         | None => (cnt, reqs, errstr +:+ k.(c_err))
         | Some _ => (cnt, reqs, errstr)
         end
  else acc.

Definition password_complexity (required_types : list string) (required_cnt : option Z) (value : string) :
    outcome exn unit :=
  let '(cnt, reqs, errstr) :=
    if negb (String.eqb value "") && negb (bool_decide (required_types = []))
    then foldl (check_category required_types required_cnt value) (0%Z, [], "") categories
    else (0%Z, [], "") in
  match required_cnt with
  | Some n =>
      if negb (Z.eqb n 0) && Z.ltb cnt n then
        invalid ("Must contain at least " +:+ pretty n +:+ " of the following categories: " +:+ join ", " reqs)
      else check (String.eqb errstr "") errstr
  | None => check (String.eqb errstr "") errstr
  end.

(** ** validate_attributes *)

(** [Dict("attributes", *schema, additional_attrs=...)] *)
Definition attributes_schema (schema : list (string * attr)) (additional_attrs : bool) : attr :=
  Dict (Attribute_init blank "attributes" false false true false [] false (Some (PDict [])))
    (foldl (λ d kv, dset d kv.1 kv.2) [] schema) additional_attrs false false.

(** The errors found, and [data] with its attributes cleaned. *)
Definition validate_attributes (schema : list (string * attr)) (data : pydict) (additional_attrs : bool)
    (attr_key : string) : outcome exn (list ValidationError * pydict) :=
  match dget data attr_key with
  | None => Raise (KeyError attr_key)
  | Some v =>
      let a := attributes_schema schema additional_attrs in
      '(verrors, v) ← match clean a (Some v) with
        | (Ret v, _) => Ret ([], v)
        | (Raise (SchemaError aname msg), after) => Ret (VErrors.add [] aname msg EINVAL, from_option id v after)
        | (Raise e, _) => Raise e
        end;
      let data := dset data attr_key v in
      match validate a v with
      | Ret _ => Ret (verrors, data)
      | Raise (ValidationErrors es) => Ret (VErrors.extend verrors es, data)
      | Raise e => Raise e
      end
  end.

(** ** async_validators.py *)

(** The components of a path that [os.path.commonpath] compares. *)
Definition path_components (p : string) : list string :=
  List.filter (λ c, negb (String.eqb c "") && negb (String.eqb c ".")) (PyStr.split "/" p).

Definition is_abs (p : string) : bool := PyStr.startswith p "/".

(** [<=] on lists of strings, as [min] and [max] use it *)
Fixpoint list_leb (a b : list string) : bool :=
  match a, b with
  | [], _ => true
  | _ :: _, [] => false
  | x :: a, y :: b => if String.eqb x y then list_leb a b else String.leb x y
  end.

(** [for i, c in enumerate(s1): if c != s2[i]: ...] *)
Fixpoint common_loop (s1 s2 : list string) : outcome exn (list string) :=
  match s1, s2 with
  | [], _ => Ret []
  | _ :: _, [] => Raise IndexError
  | x :: s1, y :: s2 => if String.eqb x y then l ← common_loop s1 s2; Ret (x :: l) else Ret []
  end.

(** [os.path.commonpath([a, b])] *)
Definition commonpath (a b : string) : outcome exn string :=
  if Bool.eqb (is_abs a) (is_abs b) then
    let p := path_components a in let q := path_components b in
    let '(s1, s2) := if list_leb p q then (p, q) else (q, p) in
    common ← common_loop s1 s2;
    Ret ((if is_abs a then "/" else "") +:+ join "/" common)
  else Raise (ValueError "Can't mix absolute and relative paths").

(** [os.path.join(parent, name)] for a parent without a slash at its end *)
Definition path_join (parent name : string) : string :=
  if is_abs name then name else parent +:+ "/" +:+ name.

Section path.
(** [os.path.realpath] and the names of the pools. *)
Context (realpath : string → string) (vol_names : list string).

Definition within (rp parent : string) : outcome exn bool :=
  p ← commonpath parent parent;
  q ← commonpath parent rp;
  Ret (String.eqb p q).

Definition check_path_resides_within_volume (verrors : list ValidationError) (name path : string) :
    outcome exn (list ValidationError) :=
  let rp := realpath path in
  ok ← (if PyStr.startswith path "/mnt/" then anyO (within rp) (path_join "/mnt" <$> vol_names) else Ret false);
  Ret (if ok : bool then verrors else VErrors.add verrors name "The path must reside within a volume mount point" EINVAL).
End path.

Definition validate_country (choices : list string) (country_name : string) (verrors : list ValidationError)
    (v_field_name : string) : list ValidationError :=
  if bool_decide (country_name ∈ choices) then verrors
  else VErrors.add verrors v_field_name (country_name +:+ " not in countries recognized by the system") EINVAL.
