(* ===== verification/ValidatorsFacts.v ===== *)
(** * Theorems on the validators

    When a password is complex enough, and which paths lie within a pool. *)

From S2P Require Import Prelude PyValue PyTime Filter Schema PyNum Validators.

(** ** Passwords *)

Section password.
Context (required_types : list string) (required_cnt : option Z) (value : string).

Definition required_kind (k : Category) : bool := bool_decide (k.(c_type) ∈ required_types).
Definition present (k : Category) : bool := required_kind k && has_char k.(c_test) value.
Definition missing (k : Category) : bool := required_kind k && negb (has_char k.(c_test) value).

Definition category_errors (ks : list Category) : string :=
  foldr (λ k acc, k.(c_err) +:+ acc) "" (List.filter missing ks).

(** The four blocks together. *)
Lemma check_categories ks cnt reqs errstr :
  foldl (check_category required_types required_cnt value) (cnt, reqs, errstr) ks =
  ((cnt + Z.of_nat (length (List.filter present ks)))%Z,
   reqs ++ (c_req <$> List.filter required_kind ks),
   errstr +:+ match required_cnt with None => category_errors ks | Some _ => "" end).
Proof.
  revert cnt reqs errstr. induction ks as [|k ks IH]; intros cnt reqs errstr.
  { cbn. rewrite Z.add_0_r, app_nil_r. destruct required_cnt; by rewrite PyStr.app_nil_r. }
  cbn [foldl]. unfold check_category at 2. unfold category_errors. cbn [List.filter].
  unfold present at 1, missing at 1. fold (required_kind k).
  destruct (required_kind k) eqn:Hk; cbn [andb]; [|by rewrite IH].
  destruct (has_char (c_test k) value); cbn [negb]; [|destruct required_cnt]; rewrite IH;
    cbn [length fmap list_fmap foldr]; rewrite <-?(assoc_L app), ?PyStr.app_assoc; do 2 f_equal; lia || done.
Qed.
End password.

Lemma has_char_empty p : has_char p "" = false.
Proof. done. Qed.

Lemma app_empty a b : a +:+ b = "" ↔ a = "" ∧ b = "".
Proof. destruct a; cbn; naive_solver. Qed.

Lemma errors_empty types value ks :
  Forall (λ k, k.(c_err) ≠ "") ks →
  category_errors types value ks = "" ↔ ∀ k, k ∈ ks → k.(c_type) ∈ types → has_char k.(c_test) value = true.
Proof.
  unfold category_errors. induction 1 as [|k ks Hk Hks IH]; [split; [by intros _ ? ?%elem_of_nil|done]|].
  cbn [List.filter]. unfold missing at 1, required_kind at 1. split.
  - intros He k' [-> |Hin]%elem_of_cons Ht.
    + rewrite bool_decide_eq_true_2 in He by done. destruct (has_char (c_test k) value); [done|].
      cbn in He. by apply app_empty in He as [? _].
    + apply IH; [|done|done]. destruct (bool_decide _ && _); [|done]. cbn in He. by apply app_empty in He as [_ ?].
  - intros Hall. destruct (bool_decide (c_type k ∈ types)) eqn:Ht; cbn [andb].
    + apply bool_decide_eq_true in Ht. rewrite (Hall k) by (done || by left). cbn. apply IH. intros; apply Hall; [by right|done].
    + apply IH. intros; apply Hall; [by right|done].
Qed.

Lemma check_passes b m : check b m = Ret tt ↔ b = true.
Proof. unfold check, invalid. by destruct b. Qed.

(** A password passes exactly when it has a character of every required kind
    or, when a number is given, of at least that many of the required kinds; an
    empty password passes unless a number is given. *)
Theorem password_complexity_spec types cnt value :
  password_complexity types cnt value = Ret tt ↔
  match cnt with
  | None => value = "" ∨ ∀ k, k ∈ categories → k.(c_type) ∈ types → has_char k.(c_test) value = true
  | Some n => (n ≤ Z.of_nat (length (List.filter (present types value) categories)))%Z
  end.
Proof.
  assert (Forall (λ k, k.(c_err) ≠ "") categories) as Herr by (repeat constructor; done).
  unfold password_complexity.
  assert (negb (String.eqb value "") && negb (bool_decide (types = [])) = false →
    length (List.filter (present types value) categories) = 0) as Hnone.
  { intros [Hv|Ht]%andb_false_iff.
    - apply negb_false_iff, String.eqb_eq in Hv as ->. cbn. unfold present. by rewrite !has_char_empty, !andb_false_r.
    - apply negb_false_iff, bool_decide_eq_true in Ht as ->. done. }
  destruct (negb (String.eqb value "") && _) eqn:Hgo.
  - rewrite check_categories. cbn [app]. change ("" +:+ ?x) with x. destruct cnt as [n|].
    + rewrite Z.add_0_l. set (c := Z.of_nat _). change (String.eqb "" "") with true. cbn [check].
      destruct (Z.eqb_spec n 0) as [-> |]; cbn [negb andb]; [split; [lia|done]|].
      destruct (Z.ltb_spec c n); split; try done; lia.
    + rewrite check_passes, String.eqb_eq, errors_empty by done. split; [by right|].
      intros [-> |]; [done|done].
  - specialize (Hnone eq_refl). destruct cnt as [n|].
    + rewrite Hnone. cbn [check]. destruct (Z.eqb_spec n 0) as [-> |]; cbn [negb andb]; [split; [lia|done]|].
      destruct (Z.ltb_spec 0 n); split; try done; lia.
    + split; [|done]. intros _. apply andb_false_iff in Hgo as [Hv|Ht].
      * left. by apply negb_false_iff, String.eqb_eq in Hv.
      * apply negb_false_iff, bool_decide_eq_true in Ht as ->. right. by intros ? _ ?%elem_of_nil.
Qed.

(** ** Paths *)

(** The longest common prefix. *)
Fixpoint lcp (a b : list string) : list string :=
  match a, b with
  | x :: a, y :: b => if String.eqb x y then x :: lcp a b else []
  | _, _ => []
  end.

Lemma lcp_comm a b : lcp a b = lcp b a.
Proof.
  revert b. induction a as [|x a IH]; intros [|y b]; try done. cbn.
  destruct (String.eqb_spec x y) as [-> |Hne]; [by rewrite String.eqb_refl, IH|].
  destruct (String.eqb_spec y x); [congruence|done].
Qed.

Lemma lcp_self a : lcp a a = a.
Proof. induction a as [|x a IH]; [done|]. cbn. by rewrite String.eqb_refl, IH. Qed.

Lemma lcp_prefix a b : lcp a b = a ↔ a `prefix_of` b.
Proof.
  revert b. induction a as [|x a IH]; intros b; [split; [intros; apply prefix_nil|done]|].
  destruct b as [|y b]; [split; [done|by intros ?%prefix_nil_inv]|]. cbn.
  destruct (String.eqb_spec x y) as [-> |Hne].
  - split; [intros [= Hl]; by apply prefix_cons, IH|]. intros Hp%prefix_cons_inv_2. f_equal. by apply IH.
  - split; [done|]. by intros ?%prefix_cons_inv_1.
Qed.

Lemma lcp_incl a b : Forall (λ c, c ∈ a) (lcp a b).
Proof.
  revert b. induction a as [|x a IH]; intros [|y b]; cbn; try constructor.
  destruct (String.eqb x y); constructor; [by left|]. eapply Forall_impl; [apply IH|]. intros; by right.
Qed.

Lemma common_loop_lcp a b : list_leb a b = true → common_loop a b = Ret (lcp a b).
Proof.
  revert b. induction a as [|x a IH]; intros [|y b]; cbn; try done.
  destruct (String.eqb x y); [|done]. intros Hle. by rewrite IH.
Qed.

Lemma list_leb_total a b : list_leb a b = false → list_leb b a = true.
Proof.
  revert b. induction a as [|x a IH]; intros [|y b]; cbn; try done.
  destruct (String.eqb_spec x y) as [-> |Hne]; [rewrite String.eqb_refl; apply IH|].
  destruct (String.eqb_spec y x); [congruence|].
  intros Hl. destruct (String.leb_total x y) as [Hx|Hx]; [congruence|done].
Qed.

(** Components of a path: not empty, and without a slash. *)
Definition plain_component (c : string) : Prop := c ≠ "" ∧ PyStr.count "/" c = 0.

Lemma count_push c d l : c ≠ d →
  Forall (λ x, PyStr.count d x = 0) l → Forall (λ x, PyStr.count d x = 0) (PyStr.push c l).
Proof.
  intros Hne. destruct 1 as [|x l Hx Hl]; cbn [PyStr.push]; repeat constructor; try done;
    cbn [PyStr.count]; by rewrite decide_False.
Qed.

Lemma count_split c s : Forall (λ x, PyStr.count c x = 0) (PyStr.split c s).
Proof.
  induction s as [|x s IH]; cbn [PyStr.split]; [by repeat constructor|].
  case_decide; [by constructor|by apply count_push].
Qed.

Lemma path_components_plain p : Forall plain_component (path_components p).
Proof.
  unfold path_components. apply Forall_forall. intros c Hc%list_elem_of_In.
  apply filter_In in Hc as [Hin Hc]. apply andb_true_iff in Hc as [Hc _]. split.
  - intros ->. done.
  - apply list_elem_of_In in Hin. pose proof (count_split "/" p) as Hall. rewrite Forall_forall in Hall. by apply Hall.
Qed.

Lemma split_join l : Forall plain_component l → l ≠ [] → PyStr.split "/" (join "/" l) = l.
Proof.
  induction 1 as [|x l [Hne Hx] Hl IH]; [done|]. intros _. destruct l as [|y l]; [by apply split_absent|].
  change (join "/" (x :: y :: l)) with (x +:+ String "/" (join "/" (y :: l))).
  by rewrite split_cons, IH.
Qed.

Lemma join_inj a b : Forall plain_component a → Forall plain_component b → join "/" a = join "/" b → a = b.
Proof.
  intros Ha Hb Hj. assert (∀ l, Forall plain_component l → join "/" l = "" → l = []) as Hnil.
  { intros [|x l] Hl Hj'; [done|]. inversion Hl as [|? ? [Hne _]]; subst. destruct l; cbn in Hj'; [done|].
    by apply app_empty in Hj' as [? _]. }
  destruct (decide (a = [])) as [-> |Ha0]; [symmetry; by apply Hnil|].
  destruct (decide (b = [])) as [-> |Hb0]; [by apply Hnil|].
  by rewrite <-(split_join a), <-(split_join b), Hj.
Qed.

Lemma commonpath_lcp a b :
  is_abs a = true → is_abs b = true →
  commonpath a b = Ret ("/" +:+ join "/" (lcp (path_components a) (path_components b))).
Proof.
  intros Ha Hb. unfold commonpath. rewrite Ha, Hb. cbn [Bool.eqb].
  destruct (list_leb (path_components a) (path_components b)) eqn:Hle.
  - by rewrite common_loop_lcp.
  - apply list_leb_total in Hle. by rewrite common_loop_lcp, lcp_comm.
Qed.

Lemma path_join_abs name : is_abs (path_join "/mnt" name) = true.
Proof. unfold path_join. by destruct (is_abs name) eqn:Hn. Qed.

Lemma within_spec rp name :
  is_abs rp = true →
  within rp (path_join "/mnt" name) =
    Ret (bool_decide (path_components (path_join "/mnt" name) `prefix_of` path_components rp)).
Proof.
  intros Hrp. unfold within. rewrite !commonpath_lcp by (done || apply path_join_abs).
  set (p := path_components (path_join "/mnt" name)). set (q := path_components rp). rewrite lcp_self. unfold mbind, outcome_bind. f_equal.
  destruct (String.eqb_spec ("/" +:+ join "/" p) ("/" +:+ join "/" (lcp p q))) as [Heq|Hne]; symmetry.
  - apply bool_decide_eq_true, lcp_prefix. injection Heq as Heq. symmetry. apply join_inj; [apply path_components_plain| |done].
    eapply Forall_impl; [apply lcp_incl|]. intros c Hc. pose proof (path_components_plain (path_join "/mnt" name)) as Hall.
    rewrite Forall_forall in Hall. by apply Hall.
  - apply bool_decide_eq_false. intros Hp. apply Hne. apply lcp_prefix in Hp. by rewrite Hp.
Qed.

(** A path is accepted exactly when it is given below /mnt and what it
    resolves to is the mount point of a pool or lies below it, component by
    component: a pool whose name another pool's name begins with is not mistaken
    for it, and a symbolic link out of the pools is refused. *)
Theorem path_within_volume realpath vol_names verrors name path :
  is_abs (realpath path) = true →
  check_path_resides_within_volume realpath vol_names verrors name path =
  Ret (verrors ++
       if decide (PyStr.startswith path "/mnt/" = true ∧
                  Exists (λ vol, path_components (path_join "/mnt" vol) `prefix_of` path_components (realpath path)) vol_names)
       then [] else [mkVE name "The path must reside within a volume mount point" EINVAL]).
Proof.
  intros Hrp. unfold check_path_resides_within_volume.
  destruct (PyStr.startswith path "/mnt/"); cbn [andb].
  2: { rewrite decide_False by naive_solver. done. }
  set (g := λ p, bool_decide (path_components p `prefix_of` path_components (realpath path))).
  assert (anyO (within (realpath path)) (path_join "/mnt" <$> vol_names) = Ret (existsb (λ vol, g (path_join "/mnt" vol)) vol_names))
    as Hany.
  { induction vol_names as [|vol vols IH]; [done|]. cbn [fmap list_fmap anyO existsb].
    rewrite (within_spec (realpath path) vol Hrp). fold (g (path_join "/mnt" vol)). cbn. by destruct (g _). }
  rewrite Hany. cbn. destruct (existsb _ vol_names) eqn:He.
  - rewrite decide_True; [by rewrite app_nil_r|]. split; [done|].
    apply existsb_exists in He as (vol & Hin & Hg). apply Exists_exists. exists vol.
    split; [by apply list_elem_of_In|]. by apply bool_decide_eq_true in Hg.
  - rewrite decide_False; [done|]. intros [_ (vol & Hin & Hp)%Exists_exists].
    assert (existsb (λ vol, g (path_join "/mnt" vol)) vol_names = true); [|congruence].
    apply existsb_exists. exists vol. split; [by apply list_elem_of_In|]. by apply bool_decide_eq_true.
Qed.

Lemma path_within_volume_witness :
  check_path_resides_within_volume (λ p, p) ["tank"] [] "path" "/mnt/tank2/a" =
    Ret [mkVE "path" "The path must reside within a volume mount point" EINVAL] ∧
  check_path_resides_within_volume (λ p, p) ["tank"] [] "path" "/mnt/tank/a" =
  Ret ([] ++
       if decide (PyStr.startswith "/mnt/tank/a" "/mnt/" = true ∧
                  Exists (λ vol, path_components (path_join "/mnt" vol) `prefix_of` path_components "/mnt/tank/a") ["tank"])
       then [] else [mkVE "path" "The path must reside within a volume mount point" EINVAL]).
Proof.
  split; [vm_compute; reflexivity|]. apply (path_within_volume (λ p, p) ["tank"] [] "path" "/mnt/tank/a"). reflexivity.
Defined.
