(* ===== verification/PyPath.v ===== *)
(** * Paths: os.path and utils/path.py

    [normpath], [abspath] and [relpath] of posixpath as the code uses them, and
    [is_child], by which tasks, shares and attachments find out whether a dataset or
    a directory lies below another. *)

From S2P Require Import Prelude PyValue Schema Filter PyNum Validators ValidatorsFacts.

(** ** os.path.normpath *)

Module PosixPath.

(** The components that stay, newest first; [abs] when the path is absolute. *)
Definition step (abs : bool) (new_comps : list string) (comp : string) : list string :=
  if bool_decide (comp ∈ [""; "."]) then new_comps
  else if negb (String.eqb comp "..") then comp :: new_comps
  else match new_comps with
       | [] => if abs then [] else [comp]
       | last :: rest => if String.eqb last ".." then comp :: new_comps else rest
       end.

Definition initial_slashes (path : string) : string :=
  if PyStr.startswith path "/" then
    if PyStr.startswith path "//" && negb (PyStr.startswith path "///") then "//" else "/"
  else "".

Definition normpath (path : string) : string :=
  let slashes := initial_slashes path in
  let comps := rev (foldl (step (PyStr.nonempty slashes)) [] (PyStr.split "/" path)) in
  let path := slashes +:+ join "/" comps in
  if PyStr.nonempty path then path else ".".

(** [s.rstrip('/')] *)
Fixpoint rstrip_slash (s : string) : string :=
  match s with
  | "" => ""
  | String c s => match rstrip_slash s with "" => if Ascii.eqb c "/" then "" else String c "" | s' => String c s' end
  end.

(** [os.path.join(a, b)] *)
Definition join2 (a b : string) : string :=
  if PyStr.startswith b "/" then b
  else if String.eqb a "" || PyStr.endswith a "/" then a +:+ b
  else a +:+ "/" +:+ b.

Definition abspath (cwd path : string) : string := normpath (join2 cwd path).

(** The components that are not empty. *)
Definition components (path : string) : list string := List.filter PyStr.nonempty (PyStr.split "/" path).

(** [len(commonprefix([a, b]))] *)
Definition common (a b : list string) : nat := length (lcp a b).

Definition relpath (cwd path start : string) : outcome exn string :=
  if String.eqb path "" then Raise (ValueError "no path specified")
  else
    let start_list := components (abspath cwd start) in
    let path_list := components (abspath cwd path) in
    let i := common start_list path_list in
    match replicate (length start_list - i) ".." ++ drop i path_list with
    | [] => Ret "."
    | rel_list => Ret (join "/" rel_list)
    end.

End PosixPath.

(** [is_child] of utils/path.py *)
Definition is_child (cwd child parent : string) : outcome exn bool :=
  rel ← PosixPath.relpath cwd child parent;
  Ret (String.eqb rel "." || negb (PyStr.startswith rel "..")).


Example normpath_demo : PosixPath.normpath "/usr//bin/../lib/./x/" = "/usr/lib/x" ∧ PosixPath.normpath "//a" = "//a" ∧ PosixPath.normpath "../.." = "../..".
Proof. by vm_compute. Qed.

(** ** Components of paths *)

Lemma split_nonnil c s : PyStr.split c s ≠ [].
Proof. destruct s as [|x s]; [done|]. cbn. case_decide; [done|]. by destruct (PyStr.split c s). Qed.

Lemma push_app c l1 l2 : l1 ≠ [] → PyStr.push c (l1 ++ l2) = PyStr.push c l1 ++ l2.
Proof. by destruct l1. Qed.

(** Trailing slashes are empty components. *)
Lemma split_rstrip s : ∃ k, PyStr.split "/" s = PyStr.split "/" (PosixPath.rstrip_slash s) ++ replicate k "".
Proof.
  induction s as [|x s [k IH]]; [by exists 0|]. cbn [PyStr.split PosixPath.rstrip_slash].
  destruct (PosixPath.rstrip_slash s) as [|y s'] eqn:E.
  - cbn [PyStr.split] in IH. rewrite IH. destruct (decide (x = "/"%char)) as [->|Hne].
    + exists (S k). done.
    + exists k. destruct (Ascii.eqb_spec x "/"); [done|]. cbn. by rewrite decide_False.
  - exists k. rewrite IH. generalize (split_nonnil "/" (String y s')). change (PyStr.split "/" (String x (String y s')))
      with (if decide (x = "/"%char) then "" :: PyStr.split "/" (String y s') else PyStr.push x (PyStr.split "/" (String y s'))).
    generalize (PyStr.split "/" (String y s')). intros l Hl. destruct (decide (x = "/"%char)); [done|by apply push_app].
Qed.

Lemma elem_of_rstrip c s : c ≠ "" → c ∈ PyStr.split "/" s ↔ c ∈ PyStr.split "/" (PosixPath.rstrip_slash s).
Proof.
  intros Hc. destruct (split_rstrip s) as [k ->]. rewrite elem_of_app. split; [|by left]. intros [H|H]; [done|]. by apply elem_of_replicate in H as [-> _].
Qed.

Definition normal_component (c : string) : Prop := plain_component c ∧ c ≠ "." ∧ c ≠ "..".

Lemma normal_step comps c : Forall normal_component comps → PyStr.count "/" c = 0 → Forall normal_component (PosixPath.step true comps c).
Proof.
  intros H Hc. unfold PosixPath.step. destruct (bool_decide (c ∈ _)) eqn:E; [done|]. apply bool_decide_eq_false in E. rewrite !not_elem_of_cons in E.
  destruct E as (E1 & E2 & _). destruct (String.eqb_spec c "..") as [->|Hne]; cbn [negb].
  - destruct H as [|x l [Hx Hx'] Hl]; [done|]. destruct (String.eqb_spec x ".."); [|done]. by destruct Hx'.
  - by constructor.
Qed.

Lemma normal_fold l : ∀ comps, Forall normal_component comps → Forall (λ c, PyStr.count "/" c = 0) l →
  Forall normal_component (foldl (PosixPath.step true) comps l).
Proof.
  induction l as [|c l IH]; intros comps Hc Hl; [done|]. apply Forall_cons in Hl as [H1 H2]. cbn [foldl]. apply IH; [by apply normal_step|done].
Qed.

(** The components of an absolute path that is normalized. *)
Lemma normpath_components path c :
  PyStr.startswith path "/" = true → c ≠ "" → c ∈ PyStr.split "/" (PosixPath.normpath path) → normal_component c.
Proof.
  intros Habs Hc. unfold PosixPath.normpath. set (slashes := PosixPath.initial_slashes path).
  assert (Hsl : slashes = "/" ∨ slashes = "//") by (unfold slashes, PosixPath.initial_slashes; rewrite Habs; destruct (_ && _); eauto).
  assert (Hne : PyStr.nonempty slashes = true) by (by destruct Hsl as [-> | ->]). rewrite Hne.
  set (comps := rev _). assert (Hcomps : Forall normal_component comps).
  { unfold comps. rewrite Forall_forall. intros x. rewrite list_elem_of_In, <-in_rev, <-list_elem_of_In. revert x. apply Forall_forall, normal_fold; [done|apply count_split]. }
  assert (Hin : c ∈ PyStr.split "/" (slashes +:+ join "/" comps) → c ∈ PyStr.split "/" (join "/" comps)).
  { generalize (join "/" comps). intros j. destruct Hsl as [-> | ->]; [intros [->|H]%elem_of_cons|intros [->|[->|H]%elem_of_cons]%elem_of_cons]; done. }
  assert (PyStr.nonempty (slashes +:+ join "/" comps) = true) as -> by (by destruct Hsl as [-> | ->]).
  intros H%Hin. destruct comps as [|x l]; [cbn in H; by apply list_elem_of_singleton in H|].
  rewrite split_join in H; [by rewrite Forall_forall in Hcomps; apply Hcomps| |done]. eapply Forall_impl; [exact Hcomps|]. by intros ? [].
Qed.


(** ** is_child compares components *)

Lemma prefix_dots x y : PyStr.count "/" x = 0 → x ≠ "" → PyStr.startswith (x +:+ String "/" y) ".." = PyStr.startswith x "..".
Proof.
  intros _ Hne. destruct x as [|a [|b x]]; [done| |]; unfold PyStr.startswith.
  - change (String.prefix ".." (String a (String "/" y)) = String.prefix ".." (String a "")). cbn [String.prefix]. by destruct (ascii_dec "." a).
  - change (String.prefix ".." (String a (String b (x +:+ String "/" y))) = String.prefix ".." (String a (String b x))). cbn [String.prefix]. destruct (ascii_dec "." a); [|done]. destruct (ascii_dec "." b); [|done]. by destruct (x +:+ String "/" y), x.
Qed.

Lemma join_dots x l : PyStr.count "/" x = 0 → x ≠ "" → PyStr.startswith (join "/" (x :: l)) ".." = PyStr.startswith x "..".
Proof. intros Hc Hne. destruct l as [|y l]; [done|]. change (join "/" (x :: y :: l)) with (x +:+ String "/" (join "/" (y :: l))). by apply prefix_dots. Qed.

Lemma components_plain path : Forall plain_component (PosixPath.components path).
Proof.
  apply Forall_forall. intros c [Hc Hne]%list_elem_of_In%filter_In. split; [by destruct c|].
  apply list_elem_of_In in Hc. pose proof (count_split "/" path) as H. rewrite Forall_forall in H. by apply H.
Qed.

(** The paths below [parent], by components. *)
Definition below (parent child : list string) : Prop :=
  ∃ rest, child = parent ++ rest ∧ match rest with x :: _ => PyStr.startswith x ".." = false | [] => True end.

Lemma lcp_length a b : length (lcp a b) ≤ length a ∧ (length (lcp a b) = length a → lcp a b = a).
Proof.
  revert b. induction a as [|x a IH]; intros [|y b]; cbn; try (split; [lia|done]). destruct (String.eqb x y); cbn; [|split; [lia|done]].
  destruct (IH b) as [H1 H2]. split; [lia|]. intros E. f_equal. apply H2. lia.
Qed.

Lemma is_child_components cwd child parent : child ≠ "" →
  ∃ b, is_child cwd child parent = Ret b ∧
    (b = true ↔ below (PosixPath.components (PosixPath.abspath cwd parent)) (PosixPath.components (PosixPath.abspath cwd child))).
Proof.
  intros Hne. unfold is_child, PosixPath.relpath. rewrite (proj2 (String.eqb_neq child "")) by done.
  set (S := PosixPath.components (PosixPath.abspath cwd parent)). pose proof (components_plain (PosixPath.abspath cwd child)) as HP.
  set (P := PosixPath.components (PosixPath.abspath cwd child)) in *. unfold PosixPath.common.
  destruct (decide (S `prefix_of` P)) as [[rest Hrest]|Hno].
  - rewrite (proj2 (lcp_prefix S P)) by (by exists rest). rewrite Nat.sub_diag, Hrest, drop_app_length. cbn [replicate app].
    destruct rest as [|x rest].
    + exists true. split; [done|]. split; [|done]. intros _. by exists [].
    + rewrite Hrest in HP. apply Forall_app in HP as [_ HP]. apply Forall_cons in HP as [[Hx Hc] _].
      cbn [mbind outcome_bind]. exists (String.eqb (join "/" (x :: rest)) "." || negb (PyStr.startswith x "..")). rewrite join_dots by done. split; [done|].
      split.
      * intros Hb. exists (x :: rest). split; [done|]. apply orb_true_iff in Hb as [Hb|Hb]; [|by apply negb_true_iff].
        apply String.eqb_eq in Hb. rewrite <-(join_dots x rest), Hb by done. done.
      * intros (rest' & H & Hd). apply app_inv_head in H as <-. by rewrite Hd, orb_true_r.
  - exists false. split.
    + assert (Hl : length (lcp S P) < length S).
      { destruct (lcp_length S P) as [Hle Heq]. destruct (Nat.eq_dec (length (lcp S P)) (length S)) as [E|]; [|lia]. exfalso. by apply Hno, lcp_prefix, Heq. }
      destruct (length S - length (lcp S P)) as [|n] eqn:En; [lia|]. cbn [replicate app]. cbn [mbind outcome_bind].
      assert (Hd : PyStr.startswith (join "/" (".." :: replicate n ".." ++ drop (length (lcp S P)) P)) ".." = true) by (by rewrite join_dots).
      rewrite Hd. destruct (String.eqb_spec (join "/" (".." :: replicate n ".." ++ drop (length (lcp S P)) P)) ".") as [E|]; [by rewrite E in Hd|done].
    + split; [done|]. intros (rest & H & _). exfalso. apply Hno. by exists rest.
Qed.

(** A name of a dataset: components that are not empty, [.] or [..]. *)
Definition dataset_name (name : string) : Prop := Forall normal_component (PyStr.split "/" name).

Lemma split_app_slash a b : PyStr.split "/" (a +:+ String "/" b) = PyStr.split "/" a ++ PyStr.split "/" b.
Proof.
  induction a as [|x a IH]; [done|]. change (PyStr.split "/" (String x a +:+ String "/" b)) with
    (if decide (x = "/"%char) then "" :: PyStr.split "/" (a +:+ String "/" b) else PyStr.push x (PyStr.split "/" (a +:+ String "/" b))).
  rewrite IH. cbn [PyStr.split]. case_decide; [done|]. apply push_app, split_nonnil.
Qed.

Lemma fold_normal l : ∀ comps, Forall normal_component l → foldl (PosixPath.step true) comps l = rev l ++ comps.
Proof.
  induction l as [|c l IH]; intros comps; [done|]. intros [[[Hne Hc] [Hd Hdd]] Hl]%Forall_cons. cbn [foldl rev].
  assert (PosixPath.step true comps c = c :: comps) as ->.
  { unfold PosixPath.step. rewrite bool_decide_eq_false_2 by (rewrite !not_elem_of_cons; split_and!; [done|done|apply not_elem_of_nil]).
    by rewrite (proj2 (String.eqb_neq c "..")). }
  rewrite IH by done. by rewrite <-app_assoc.
Qed.

Lemma filter_plain l : Forall plain_component l → List.filter PyStr.nonempty l = l.
Proof. induction 1 as [|x l [Hx _] Hl IH]; [done|]. cbn. rewrite IH. by destruct x. Qed.

Lemma components_normpath path : PyStr.startswith path "/" = true →
  PosixPath.components (PosixPath.normpath path) = rev (foldl (PosixPath.step true) [] (PyStr.split "/" path)).
Proof.
  intros Habs. unfold PosixPath.normpath. set (slashes := PosixPath.initial_slashes path).
  assert (Hsl : slashes = "/" ∨ slashes = "//") by (unfold slashes, PosixPath.initial_slashes; rewrite Habs; destruct (_ && _); eauto).
  assert (Hne : PyStr.nonempty slashes = true) by (by destruct Hsl as [-> | ->]). rewrite Hne.
  set (comps := rev _). assert (Hcomps : Forall normal_component comps).
  { unfold comps. rewrite Forall_forall. intros x. rewrite list_elem_of_In, <-in_rev, <-list_elem_of_In. revert x. apply Forall_forall, normal_fold; [done|apply count_split]. }
  assert (PyStr.nonempty (slashes +:+ join "/" comps) = true) as -> by (by destruct Hsl as [-> | ->]).
  assert (Hplain : Forall plain_component comps) by (eapply Forall_impl; [exact Hcomps|by intros ? []]).
  assert (Hj : List.filter PyStr.nonempty (PyStr.split "/" (join "/" comps)) = comps).
  { destruct comps as [|x l]; [done|]. rewrite split_join by done. by apply filter_plain. }
  unfold PosixPath.components. by destruct Hsl as [-> | ->].
Qed.

Lemma dataset_not_absolute name : dataset_name name → PyStr.startswith name "/" = false ∧ name ≠ "".
Proof.
  unfold dataset_name. intros H. destruct name as [|c name]; [apply Forall_cons in H as [[[H _] _] _]; done|]. split; [|done].
  cbn [PyStr.split] in H. destruct (decide (c = "/"%char)) as [->|Hc]; [apply Forall_cons in H as [[[H _] _] _]; done|].
  unfold PyStr.startswith. cbn [String.prefix]. destruct (ascii_dec "/" c); [by subst|done].
Qed.

(** A slash at the end of the working directory (as in "/") makes no difference. *)
Lemma fold_trailing_slash cwd acc : PyStr.endswith cwd "/" = true →
  ∃ d, cwd = d +:+ "/" ∧ foldl (PosixPath.step true) acc (PyStr.split "/" cwd) = foldl (PosixPath.step true) acc (PyStr.split "/" d).
Proof.
  intros H. apply PyStr.endswith_spec in H as [d ->]. exists d. split; [done|].
  rewrite split_app_slash, foldl_app. reflexivity.
Qed.

Lemma components_dataset cwd name : PyStr.startswith cwd "/" = true → dataset_name name →
  PosixPath.components (PosixPath.abspath cwd name) = rev (foldl (PosixPath.step true) [] (PyStr.split "/" cwd)) ++ PyStr.split "/" name.
Proof.
  intros Habs Hn. destruct (dataset_not_absolute name Hn) as [Hrel _]. unfold PosixPath.abspath, PosixPath.join2. rewrite Hrel.
  destruct cwd as [|c cwd]; [done|]. cbn [String.eqb orb].
  destruct (PyStr.endswith (String c cwd) "/") eqn:Hend.
  - destruct (fold_trailing_slash _ [] Hend) as (d & Hd & ->).
    rewrite components_normpath by (apply (PyStr.startswith_trans _ (String c cwd)); [apply PyStr.startswith_app|done]).
    rewrite Hd, PyStr.app_assoc. change ("/" +:+ name) with (String "/" name).
    rewrite split_app_slash, foldl_app, fold_normal by done. by rewrite rev_app_distr, rev_involutive.
  - change (String c cwd +:+ "/" +:+ name) with (String c cwd +:+ String "/" name).
    rewrite components_normpath by (apply (PyStr.startswith_trans _ (String c cwd)); [apply PyStr.startswith_app|done]).
    rewrite split_app_slash, foldl_app, fold_normal by done. by rewrite rev_app_distr, rev_involutive.
Qed.

(** C39. Whether a dataset lies below another is decided by the components of their
    names, not by their characters, whatever directory (the root included) the
    process works in: [is_child] of two names of datasets is true
    exactly when the components of the parent are the first ones of the child (so
    tank/data2 is not below tank/data), except that a component that begins with two
    dots is taken for a way out of the parent. *)
Theorem is_child_by_components cwd child parent :
  PyStr.startswith cwd "/" = true → dataset_name child → dataset_name parent →
  ∃ b, is_child cwd child parent = Ret b ∧ (b = true ↔ below (PyStr.split "/" parent) (PyStr.split "/" child)).
Proof.
  intros Habs Hc Hp. destruct (is_child_components cwd child parent) as (b & Hb & Hiff); [by apply dataset_not_absolute|].
  exists b. split; [done|]. rewrite Hiff, !components_dataset by done. unfold below. split; intros (rest & H & Hd); exists rest; (split; [|done]).
  - rewrite <-app_assoc in H. by apply app_inv_head in H.
  - by rewrite H, app_assoc.
Qed.

Lemma dataset_name_dec name : forallb (λ c, negb (bool_decide (c ∈ [""; "."; ".."]))) (PyStr.split "/" name) = true → dataset_name name.
Proof.
  intros H. apply Forall_forall. intros c Hc. pose proof (forallb_elem _ _ _ H Hc) as H1. cbn beta in H1. apply negb_true_iff, bool_decide_eq_false in H1.
  rewrite !not_elem_of_cons in H1. destruct H1 as (? & ? & ? & _). pose proof (count_split "/" name) as Hs. rewrite Forall_forall in Hs.
  split; [|done]. split; [done|by apply Hs].
Qed.

Lemma is_child_by_components_witness :
  (∃ b, is_child "/" "tank/data/x" "tank/data" = Ret b ∧ b = true) ∧ (∃ b, is_child "/" "tank/data2" "tank/data" = Ret b ∧ b = false).
Proof.
  split.
  - destruct (is_child_by_components "/" "tank/data/x" "tank/data") as (b & Hb & Hiff); try done; try (by apply dataset_name_dec).
    exists b. split; [done|]. apply Hiff. by exists ["x"].
  - destruct (is_child_by_components "/" "tank/data2" "tank/data") as (b & Hb & Hiff); try done; try (by apply dataset_name_dec).
    exists b. split; [done|]. destruct b; [|done]. destruct Hiff as [Hiff _]. destruct (Hiff eq_refl) as (rest & H & _). discriminate.
Defined.
