(* ===== verification/Ejson.v ===== *)
(** * JSON with dates: client/ejson.py

    The encoder turns a [date], a [datetime] and a [time] into marked objects and
    the decoder, called on every object from the inside out, turns them back.
    JSON text is represented by its tree, a [pyval].  The theorems say which
    values survive the round trip, and what becomes of the [datetime]s that do
    not. *)

From S2P Require Import Prelude PyValue PyTime Filter PyNum.

(** The values the middleware sends and stores. *)
Inductive eval : Type :=
| ENone
| EBool (b : bool)
| EInt (z : Z)
| EStr (s : string)
| EList (l : list eval)
| EDict (d : list (string * eval))
| EDate (d : Date)
| ETime (t : Time)
| EDateTime (dt : DateTime).

Section eval_ind.
Context (P : eval → Prop).
Context (HNone : P ENone) (HBool : ∀ b, P (EBool b)) (HInt : ∀ z, P (EInt z))
  (HStr : ∀ s, P (EStr s)) (HList : ∀ l, Forall P l → P (EList l))
  (HDict : ∀ d, Forall (λ kv, P kv.2) d → P (EDict d))
  (HDate : ∀ d, P (EDate d)) (HTime : ∀ t, P (ETime t)) (HDateTime : ∀ dt, P (EDateTime dt)).

Fixpoint eval_ind' (v : eval) : P v :=
  match v with
  | ENone => HNone
  | EBool b => HBool b
  | EInt z => HInt z
  | EStr s => HStr s
  | EList l => HList l
      ((fix go l : Forall P l :=
          match l with
          | [] => Forall_nil_2 P
          | x :: l => Forall_cons_2 P x l (eval_ind' x) (go l)
          end) l)
  | EDict d => HDict d
      ((fix go d : Forall (λ kv, P kv.2) d :=
          match d with
          | [] => Forall_nil_2 _
          | kv :: d => Forall_cons_2 (λ kv, P kv.2) kv d (eval_ind' kv.2) (go d)
          end) d)
  | EDate d => HDate d
  | ETime t => HTime t
  | EDateTime dt => HDateTime dt
  end.
End eval_ind.

(** ** The encoder *)

(** [date.isoformat()] *)
Definition date_isoformat (d : Date) : string :=
  zpad 4 d.(year) +:+ String "-" (zpad 2 d.(month) +:+ String "-" (zpad 2 d.(day))).

(** [str(time)], which shows the microseconds only when there are some. *)
Definition time_str (t : Time) : string :=
  zpad 2 t.(hour) +:+ String ":" (zpad 2 t.(minute) +:+ String ":" (zpad 2 t.(second) +:+
    if Z.eqb t.(microsecond) 0 then "" else String "." (zpad 6 t.(microsecond)))).

(** [int((obj - datetime(1970, 1, 1)).total_seconds() * 1000)] *)
Definition epoch_milliseconds (us : Z) : Z :=
  float_trunc (float_mul (total_seconds us) (float_of_int 1000)).

Definition encode_datetime (obj : DateTime) : outcome exn pyval :=
  obj ← match obj.(tz) with
        | Some offset => obj ← datetime_add obj offset; Ret (naive obj.(fields))
        | None => Ret obj
        end;
  Ret (PDict [("$date", PInt (epoch_milliseconds obj.(fields)))]).

(** [json.dumps(obj, cls=JSONEncoder)] *)
Fixpoint dumps (obj : eval) : outcome exn pyval :=
  match obj with
  | ENone => Ret PNone
  | EBool b => Ret (PBool b)
  | EInt z => Ret (PInt z)
  | EStr s => Ret (PStr s)
  | EList l => PList <$> mapO dumps l
  | EDict d => PDict <$> mapO (λ kv, j ← dumps kv.2; Ret (kv.1, j)) d
  | EDate d => Ret (PDict [("$type", PStr "date"); ("$value", PStr (date_isoformat d))])
  | ETime t => Ret (PDict [("$time", PStr (time_str t))])
  | EDateTime dt => encode_datetime dt
  end.

(** ** The decoder *)

(** [[int(i) for i in v.split(c)]] *)
Definition split_ints (c : ascii) (v : eval) : outcome exn (list Z) :=
  match v with
  | EStr s => mapO (λ i, match py_int i with
                         | Some z => Ret z
                         | None => Raise (ValueError "invalid literal for int() with base 10")
                         end) (PyStr.split c s)
  | _ => Raise (AttributeError "object has no attribute 'split'")
  end.

(** [datetime.fromtimestamp(x / 1000, tz=timezone.utc) + timedelta(milliseconds=x % 1000)] *)
Definition decode_datetime (v : eval) : outcome exn eval :=
  match v with
  | EInt x =>
      dt ← fromtimestamp_utc (float_div x 1000);
      EDateTime <$> datetime_add dt (x mod 1000 * 1000)
  | EBool b =>
      dt ← fromtimestamp_utc (float_div (Z.b2z b) 1000);
      EDateTime <$> datetime_add dt (Z.b2z b mod 1000 * 1000)
  | _ => Raise (TypeError "unsupported operand type(s) for /")
  end.

Definition object_hook (obj : list (string * eval)) : outcome exn eval :=
  match obj, dget obj "$date", dget obj "$time", dget obj "$type", dget obj "$value" with
  | [_], Some v, _, _, _ => decode_datetime v
  | [_], None, Some v, _, _ => args ← split_ints ":" v; ETime <$> make_time args
  | [_; _], _, _, Some (EStr "date"), Some v => args ← split_ints "-" v; EDate <$> make_date args
  | _, _, _, _, _ => Ret (EDict obj)
  end.

(** [json.loads(obj, object_hook=object_hook)] *)
Fixpoint loads (j : pyval) : outcome exn eval :=
  match j with
  | PNone => Ret ENone
  | PBool b => Ret (EBool b)
  | PInt z => Ret (EInt z)
  | PStr s => Ret (EStr s)
  | PList l => EList <$> mapO loads l
  | PDict d => obj ← mapO (λ kv, v ← loads kv.2; Ret (kv.1, v)) d; object_hook obj
  end.

(** ** What survives the round trip *)

(** A dict that [object_hook] leaves alone. *)
Definition plain_dict (d : list (string * eval)) : bool :=
  match d with
  | [(k, _)] => negb (bool_decide (k ∈ ["$date"; "$time"]))
  | [_; _] => match dget d "$type" with
              | Some (EStr "date") => negb (dhas d "$value")
              | _ => true
              end
  | _ => true
  end.

(** Dates and times that exist, times and [datetime]s in whole seconds, the latter
    in UTC, and dicts that cannot be taken for a marked object. *)
Fixpoint portable (v : eval) : bool :=
  match v with
  | ENone | EBool _ | EInt _ | EStr _ => true
  | EList l => forallb portable l
  | EDict d => plain_dict d && forallb (λ kv, portable kv.2) d
  | EDate d => valid_date d
  | ETime t => valid_time t && Z.eqb t.(microsecond) 0
  | EDateTime dt =>
      bool_decide (dt.(tz) = Some 0%Z) && valid_datetime dt.(fields) && Z.eqb (dt.(fields) mod 1000000) 0
  end.
