(* ===== verification/EjsonFacts.v ===== *)
(** * Theorems on JSON with dates

    Every portable value is decoded to itself; a [datetime] in whole seconds
    comes back with its offset from UTC added, where the instant it denotes has
    the offset subtracted; a timestamp that the decoder reads has its
    milliseconds counted twice. *)

From S2P Require Import Prelude PyValue PyTime Filter PyNum Ejson.

(** ** Numbers written by the encoder are read back *)

Definition nonneg (l : list (nat * Z)) : Prop := Forall (λ wz, (0 ≤ wz.2)%Z) l.

(** The text of some padded numbers, with a separator. *)
Fixpoint sep_text (c : ascii) (l : list (nat * Z)) : string :=
  match l with
  | [] => ""
  | [(w, z)] => zpad w z
  | (w, z) :: l => zpad w z +:+ String c (sep_text c l)
  end.

Lemma split_ints_text c l :
  is_digit c = false → l ≠ [] → nonneg l → split_ints c (EStr (sep_text c l)) = Ret l.*2.
Proof.
  intros Hc Hl Hn. unfold split_ints.
  assert (PyStr.split c (sep_text c l) = (λ wz, zpad wz.1 wz.2) <$> l) as ->.
  { induction Hn as [|[w z] l Hz Hn IH]; [done|]. cbn [snd] in Hz.
    assert (PyStr.count c (zpad w z) = 0) as Hw by (apply count_in_digits, zpad_digits; done).
    destruct l as [|y l]; [by apply split_absent|].
    change (sep_text c ((w, z) :: y :: l)) with (zpad w z +:+ String c (sep_text c (y :: l))).
    rewrite split_cons by done. rewrite IH by done. done. }
  apply mapO_Ret. clear Hl. induction Hn as [|[w z] l Hz Hn IH]; csimpl; constructor; [|done].
  by rewrite py_int_zpad.
Qed.

Lemma valid_date_nonneg d :
  valid_date d = true → nonneg [(4, d.(year)); (2, d.(month)); (2, d.(day))].
Proof.
  unfold valid_date, between. rewrite !andb_true_iff, !Z.leb_le. intros Hd.
  repeat constructor; cbn [snd]; lia.
Qed.

Lemma valid_time_nonneg t :
  valid_time t = true → nonneg [(2, t.(hour)); (2, t.(minute)); (2, t.(second))].
Proof.
  unfold valid_time, between. rewrite !andb_true_iff, !Z.leb_le. intros Ht.
  repeat constructor; cbn [snd]; lia.
Qed.

Lemma date_back d :
  valid_date d = true →
  object_hook [("$type", EStr "date"); ("$value", EStr (date_isoformat d))] = Ret (EDate d).
Proof.
  intros Hd. transitivity (args ← split_ints "-" (EStr (date_isoformat d)); EDate <$> make_date args); [done|].
  pose proof (split_ints_text "-" _ eq_refl (not_eq_sym (@nil_cons _ _ _)) (valid_date_nonneg d Hd)) as Hs.
  unfold date_isoformat. cbn [sep_text] in Hs. rewrite Hs.
  destruct d as [y m d]. csimpl. by rewrite Hd.
Qed.

Lemma time_back t :
  valid_time t = true → t.(microsecond) = 0%Z →
  object_hook [("$time", EStr (time_str t))] = Ret (ETime t).
Proof.
  intros Ht Hus. transitivity (args ← split_ints ":" (EStr (time_str t)); ETime <$> make_time args); [done|].
  pose proof (split_ints_text ":" _ eq_refl (not_eq_sym (@nil_cons _ _ _)) (valid_time_nonneg t Ht)) as Hs.
  unfold time_str. rewrite Hus, Z.eqb_refl, PyStr.app_nil_r. cbn [sep_text] in Hs. rewrite Hs.
  destruct t as [h m s us]. cbn in Hus. subst us. csimpl. by rewrite Ht.
Qed.

(** ** Timestamps *)

Lemma valid_datetime_spec us :
  valid_datetime us = true ↔ (datetime_min ≤ us ≤ datetime_max)%Z.
Proof. unfold valid_datetime, between. by rewrite andb_true_iff, !Z.leb_le. Qed.

(** A whole number of seconds is encoded exactly. *)
Lemma epoch_milliseconds_whole s :
  valid_datetime (s * 1000000) = true → epoch_milliseconds (s * 1000000) = (s * 1000)%Z.
Proof.
  rewrite valid_datetime_spec. unfold datetime_min, datetime_max. intros Hs.
  unfold epoch_milliseconds. apply float_trunc_exact, float_mul_exact.
  - apply float_div_exact; lia.
  - apply float_of_int_exact. lia.
  - lia.
Qed.

Lemma decode_whole s :
  valid_datetime (s * 1000000) = true →
  object_hook [("$date", EInt (s * 1000))] = Ret (EDateTime (mkDT (s * 1000000) (Some 0%Z))).
Proof.
  intros Hv. pose proof Hv as Hs. rewrite valid_datetime_spec in Hs.
  unfold datetime_min, datetime_max in Hs.
  transitivity (decode_datetime (EInt (s * 1000))); [done|]. unfold decode_datetime.
  rewrite (fromtimestamp_exact _ s) by (apply float_div_exact; lia).
  rewrite Hv, Z.mod_mul by lia. unfold mbind, outcome_bind, datetime_add. cbn [fields tz].
  by rewrite Z.mul_0_l, Z.add_0_r, Hv.
Qed.

(** The time that comes back: the fields, with the offset added to them. *)
Definition shifted (dt : DateTime) : Z := (dt.(fields) + default 0%Z dt.(tz))%Z.

Lemma datetime_back dt :
  valid_datetime (shifted dt) = true → (shifted dt mod 1000000 = 0)%Z →
  (dumps (EDateTime dt) ≫= loads) = Ret (EDateTime (mkDT (shifted dt) (Some 0%Z))).
Proof.
  intros Hv Hm. assert (shifted dt = (shifted dt / 1000000) * 1000000)%Z as Hs.
  { pose proof (Z.div_mod (shifted dt) 1000000 ltac:(lia)). lia. }
  assert (dumps (EDateTime dt) = Ret (PDict [("$date", PInt (epoch_milliseconds (shifted dt)))])) as ->.
  { cbn [dumps]. unfold encode_datetime, shifted, datetime_add in *. destruct dt as [t [off|]]; cbn in *.
    - by rewrite Hv.
    - by rewrite Z.add_0_r. }
  rewrite Hs in Hv |- *. rewrite epoch_milliseconds_whole by done. by apply decode_whole.
Qed.

(** ** Plain dicts *)

Lemma object_hook_plain d : plain_dict d = true → object_hook d = Ret (EDict d).
Proof.
  destruct d as [|[k1 v1] [|[k2 v2] [|kv3 d]]]; [done| | |done].
  - unfold plain_dict, object_hook. cbn [dget].
    rewrite negb_true_iff, bool_decide_eq_false. intros Hk.
    rewrite !decide_False by set_solver. done.
  - unfold plain_dict, object_hook, dhas.
    destruct (dget _ "$type") as [[]|]; try done.
    destruct (decide (s = "date")) as [->|Hs].
    + by destruct (dget _ "$value").
    + intros _. repeat (destruct s as [|[[] [] [] [] [] [] [] []] s]; try done).
Qed.

(** ** The theorems *)

Lemma portable_back v : portable v = true → (dumps v ≫= loads) = Ret v.
Proof.
  induction v as [| | | |l IH|d IH| | |dt] using eval_ind'; cbn [portable]; try done.
  - intros Hp. cbn [dumps]. apply forallb_Forall in Hp.
    assert (∃ js, mapO dumps l = Ret js ∧ mapO loads js = Ret l) as (js & H1 & H2).
    { induction l as [|x l IHl]; [by exists []|].
      apply Forall_cons in IH as [Hx IH], Hp as [Hpx Hp].
      destruct (IHl IH Hp) as (js & Hjs & Hback). specialize (Hx Hpx).
      apply outcome_bind_Ret in Hx as (j & Hj & Hx). exists (j :: js). csimpl.
      by rewrite Hj, Hx, Hjs, Hback. }
    rewrite H1. csimpl. by rewrite H2.
  - intros [Hd Hp]%andb_true_iff. cbn [dumps]. apply forallb_Forall in Hp.
    assert (∃ js, mapO (λ kv, j ← dumps kv.2; Ret (kv.1, j)) d = Ret js ∧
      mapO (λ kv, v ← loads kv.2; Ret (kv.1, v)) js = Ret d) as (js & H1 & H2).
    { clear Hd. induction d as [|[k x] d IHd]; [by exists []|].
      apply Forall_cons in IH as [Hx IH], Hp as [Hpx Hp].
      destruct (IHd IH Hp) as (js & Hjs & Hback). specialize (Hx Hpx).
      apply outcome_bind_Ret in Hx as (j & Hj & Hx). exists ((k, j) :: js). csimpl in *.
      by rewrite Hj, Hjs; csimpl; rewrite Hx, Hback. }
    rewrite H1. csimpl. rewrite H2. by apply object_hook_plain.
  - intros Hd. by apply date_back.
  - intros [Ht Hus%Z.eqb_eq]%andb_true_iff. by apply time_back.
  - intros [[Htz Hv]%andb_true_iff Hm%Z.eqb_eq]%andb_true_iff. apply bool_decide_eq_true in Htz.
    assert (shifted dt = dt.(fields)) as Hsh by (unfold shifted; rewrite Htz; apply Z.add_0_r).
    rewrite datetime_back by (by rewrite Hsh). rewrite Hsh. by destruct dt as [t o]; cbn in Htz; subst o.
Qed.

(** C24. [loads(dumps(v)) == v] for every portable value, however deep its lists
    and dicts: dates that exist, times and UTC datetimes in whole seconds, and
    dicts that [object_hook] does not take for a marked object. *)
Theorem ejson_roundtrip v : portable v = true → (dumps v ≫= loads) = Ret v.
Proof. apply portable_back. Qed.

(** A datetime in whole seconds comes back in UTC with its offset added to
    its fields, so that an aware datetime comes back as the instant it denotes
    only when its offset is zero. *)
Theorem datetime_roundtrip_shift dt :
  valid_datetime (shifted dt) = true → (shifted dt mod 1000000 = 0)%Z →
  (dumps (EDateTime dt) ≫= loads) = Ret (EDateTime (mkDT (shifted dt) (Some 0%Z))) ∧
  ∀ offset, dt.(tz) = Some offset → shifted dt = (dt.(fields) - offset)%Z ↔ offset = 0%Z.
Proof.
  intros Hv Hm. split; [by apply datetime_back|]. intros offset Hoff.
  unfold shifted. rewrite Hoff. cbn. lia.
Qed.

(** A marked timestamp within seventy years of 1970 is decoded with its
    milliseconds added a second time, so that only whole seconds are decoded
    right. *)
Theorem decode_adds_milliseconds x :
  (Z.abs x < 1000 * 2 ^ 32)%Z →
  loads (PDict [("$date", PInt x)]) =
    Ret (EDateTime (mkDT ((x + x mod 1000) * 1000) (Some 0%Z))).
Proof.
  intros Hx. transitivity (decode_datetime (EInt x)); [done|]. unfold decode_datetime.
  rewrite fromtimestamp_ms by done. unfold mbind, outcome_bind, datetime_add. cbn [fields tz].
  pose proof (Z.mod_pos_bound x 1000 ltac:(lia)).
  assert (valid_datetime (x * 1000 + x mod 1000 * 1000) = true) as ->.
  { apply valid_datetime_spec. unfold datetime_min, datetime_max. lia. }
  cbn. do 3 f_equal. lia.
Qed.

(** ** Witnesses *)

Definition demo_value : eval :=
  EDict [("name", EStr "tank"); ("snapshots", EList [EInt 3; ENone]);
         ("created", EDateTime (mkDT (1600000000 * 1000000) (Some 0%Z)));
         ("day", EDate (mkDate 2024 2 29)); ("at", ETime (mkTime 23 5 0 0));
         ("nested", EDict [("$type", EStr "datetime"); ("$value", EBool true)])].

Lemma ejson_roundtrip_witness :
  portable demo_value = true ∧ (dumps demo_value ≫= loads) = Ret demo_value.
Proof. split; [reflexivity|apply (ejson_roundtrip demo_value); reflexivity]. Defined.

Lemma datetime_roundtrip_shift_witness :
  valid_datetime (shifted (mkDT 0 (Some 3600000000%Z))) = true ∧
  (dumps (EDateTime (mkDT 0 (Some 3600000000%Z))) ≫= loads) =
    Ret (EDateTime (mkDT 3600000000 (Some 0%Z))).
Proof.
  split; [reflexivity|].
  apply (proj1 (datetime_roundtrip_shift (mkDT 0 (Some 3600000000%Z)) eq_refl eq_refl)).
Defined.

Lemma decode_adds_milliseconds_witness :
  (Z.abs 1600000000123 < 1000 * 2 ^ 32)%Z ∧
  loads (PDict [("$date", PInt 1600000000123)]) =
    Ret (EDateTime (mkDT 1600000000246000 (Some 0%Z))).
Proof. split; [lia|apply (decode_adds_milliseconds 1600000000123); lia]. Defined.

(** A millisecond is lost to the truncation of [1.001 * 1000]. *)
Example encode_truncates : epoch_milliseconds 1001000 = 1000%Z.
Proof. vm_compute. reflexivity. Qed.
