(* ===== verification/CronSchedule.v ===== *)
(** * Cron schedules with times

    A schedule that was cleaned by the schema [Cron] has a text for each of its five
    fields and a [datetime.time] for its begin and its end ([Time.clean]).  It goes to
    the columns of a table, and comes back with the two times as texts.  The values are
    those of [Ejson], which have times. *)

From S2P Require Import Prelude PyValue PyTime Filter PyNum Ejson SchemaResolve.
Import Cron.

(** [Time.clean], of a text: only the exceptions of unpacking are replaced, those of
    [int] and of [time] are [ValueError]s as well. *)
Definition time_clean (value : string) : outcome exn Time :=
  match PyStr.split ":" value with
  | [hours; minutes] =>
      match py_int hours, py_int minutes with
      | Some h, Some m => make_time [h; m]
      | _, _ => Raise (ValueError "invalid literal for int() with base 10")
      end
  | _ => Raise (ValueError ("Time should be in 24 hour format like " +:+ String double_quote ("18:00" +:+ String double_quote "")))
  end.

Definition is_ENone (v : eval) : bool := match v with ENone => true | _ => false end.

(** [field in v] *)
Definition eval_in (field : string) (v : eval) : outcome exn bool :=
  match v with
  | EDict d => Ret (dhas d field)
  | EList l => Ret (existsb (λ x, match x with EStr s => String.eqb s field | _ => false end) l)
  | EStr s => Ret (PyStr.contains s field)
  | _ => Raise (TypeError "argument is not iterable")
  end.

Definition eval_item (v : eval) (field : string) : outcome exn eval :=
  match v with
  | EDict d => match dget d field with Some x => Ret x | None => Raise (KeyError field) end
  | EList _ | EStr _ => Raise (TypeError "indices must be integers")
  | _ => Raise (TypeError "object is not subscriptable")
  end.

Section times.
(** The text of a value that is neither a text nor a time. *)
Context (other_str : eval → string).

Definition eval_str (v : eval) : string :=
  match v with EStr s => s | ETime t => time_str t | _ => other_str v end.

#[local] Instance eval_Value : Value eval := {
  v_None := ENone;
  is_None := is_ENone;
  v_dict := EDict;
  dict_of v := match v with EDict d => Some d | _ => None end;
  v_text := EStr;
  str_of := eval_str;
  v_in := eval_in;
  v_item := eval_item;
}.

Notation edict := (list (string * eval)).

(** ** Schedules and their columns *)

(** A schedule that has a value for some of the fields. *)
Definition schedule_of (v : string → option eval) (fs : list (string * string)) : edict :=
  omap (λ f, (λ x, (f.1, x)) <$> v f.1) fs.

(** Its columns. *)
Definition columns_of (key_prefix : string) (v : string → option eval) (fs : list (string * string)) : edict :=
  omap (λ f, (λ x, (key_prefix +:+ f.2, x)) <$> v f.1) fs.

Definition cron_columns (begin_end : bool) : list (string * string) := columns ++ if begin_end then times else [].

(** A schedule, or null. *)
Definition schedule_val (begin_end : bool) (schedule : option (string → option eval)) : eval :=
  match schedule with Some v => EDict (schedule_of v (cron_columns begin_end)) | None => ENone end.

(** What is shown of a field. *)
Definition shown (field : string) (x : eval) : eval :=
  if bool_decide (field ∈ ["begin"; "end"]) then EStr (first5 (eval_str x)) else x.

Definition has_null (v : string → option eval) (fs : list (string * string)) : bool :=
  existsb (λ f, from_option is_ENone false (v f.1)) fs.

(** What comes back: null for a schedule that is null or has a null. *)
Definition came_back (begin_end : bool) (schedule : option (string → option eval)) : eval :=
  match schedule with
  | Some v => if has_null v (cron_columns begin_end) then ENone
              else EDict (schedule_of (λ f, shown f <$> v f) (cron_columns begin_end))
  | None => ENone
  end.

Section roundtrip.
Context (data : edict) (name key_prefix : string).

Notation column f := (key_prefix +:+ f.2).

Lemma schedule_keys v fs k : k ∈ dkeys (schedule_of v fs) → k ∈ fs.*1.
Proof.
  unfold dkeys, schedule_of. induction fs as [|f fs IH]; csimpl; [done|]. destruct (v f.1); csimpl; set_solver.
Qed.

Lemma columns_keys v fs k : k ∈ dkeys (columns_of key_prefix v fs) → k ∈ (λ f, column f) <$> fs.
Proof.
  unfold dkeys, columns_of. induction fs as [|f fs IH]; csimpl; [done|]. destruct (v f.1); csimpl; set_solver.
Qed.

Lemma dget_schedule v fs f : NoDup fs.*1 → f ∈ fs → dget (schedule_of v fs) f.1 = v f.1.
Proof.
  unfold schedule_of. induction fs as [|g fs IH]; [by intros _ ?%elem_of_nil|]. csimpl. intros [Hg Hnd]%NoDup_cons Hf.
  apply elem_of_cons in Hf as [-> |Hf].
  - destruct (v g.1) as [x|] eqn:Hx; csimpl; [by rewrite decide_True|]. apply dget_None.
    intros Hin. by apply Hg, (schedule_keys v fs).
  - destruct (v g.1); csimpl; [|auto]. rewrite decide_False; [auto|]. intros Heq. apply Hg. rewrite Heq.
    by apply list_elem_of_fmap_2.
Qed.

(** The first loop: the values that are there go to their columns. *)
Lemma fill_spec v sch fs acc :
  (∀ f, f ∈ fs → dget sch f.1 = v f.1) → NoDup ((λ f, column f) <$> fs) →
  (∀ f, f ∈ fs → column f ∉ dkeys acc) →
  fill key_prefix fs (EDict sch) acc = Ret (acc ++ columns_of key_prefix v fs).
Proof.
  revert acc. induction fs as [|[f db] fs IH]; intros acc Hv Hnd Hfresh; cbn; [by rewrite app_nil_r|].
  rewrite fmap_cons in Hnd. apply NoDup_cons in Hnd as [Hf Hnd].
  pose proof (Hv (f, db) ltac:(by left)) as Hvf. cbn in Hvf. unfold dhas. rewrite Hvf. destruct (v f) as [x|] eqn:Hx; cbn.
  - rewrite dset_fresh by (apply (Hfresh (f, db)); by left). rewrite IH, <-(assoc_L app); [done| |done|].
    + intros g Hg. apply Hv. by right.
    + intros g Hg. unfold dkeys. rewrite fmap_app. cbn. rewrite elem_of_app, list_elem_of_singleton.
      intros [Hin|Heq]; [by apply (Hfresh g); [right|]|]. apply Hf. cbn. rewrite <-Heq. by apply (list_elem_of_fmap_2 (λ f, column f)).
  - apply IH; [|done|]; intros g Hg; [apply Hv|apply Hfresh]; by right.
Qed.

(** ... or null to all of them. *)
Lemma fill_none fs acc :
  NoDup ((λ f : string * string, column f) <$> fs) → (∀ f, f ∈ fs → column f ∉ dkeys acc) →
  foldl (λ (d : edict) (f : string * string), dset d (column f) ENone) acc fs = acc ++ columns_of key_prefix (λ _, Some ENone) fs.
Proof.
  revert acc. induction fs as [|f fs IH]; intros acc Hnd Hfresh; cbn; [by rewrite app_nil_r|].
  rewrite fmap_cons in Hnd. apply NoDup_cons in Hnd as [Hf Hnd].
  rewrite dset_fresh by (apply Hfresh; by left). rewrite IH, <-(assoc_L app); [done|done|].
  intros g Hg. unfold dkeys. rewrite fmap_app. cbn. rewrite elem_of_app, list_elem_of_singleton.
  intros [Hin|Heq]; [by apply (Hfresh g); [right|]|]. apply Hf. rewrite <-Heq. by apply (list_elem_of_fmap_2 (λ f : string * string, column f)).
Qed.

(** What one column makes of the schedule that is being built. *)
Definition absorb (show : eval → eval) (v : string → option eval) (w : eval) (f : string * string) : eval :=
  match v f.1 with
  | None => w
  | Some x => if is_ENone x then ENone
              else match w with EDict acc => EDict (dset acc f.1 (show x)) | _ => w end
  end.

Definition building (w : eval) : Prop := w = ENone ∨ ∃ d, w = EDict d.

Lemma absorb_building show v w f : building w → building (absorb show v w f).
Proof. unfold absorb, building. intros [-> |[d ->]]; destruct (v f.1) as [[]|]; cbn; eauto. Qed.

(** The second loop, on the columns of [fs] followed by others. *)
Lemma collect_fold show v fs rest w :
  building w → NoDup ((λ f, column f) <$> fs) → name ∉ dkeys data → name ∉ dkeys rest →
  (∀ f, f ∈ fs → column f ≠ name ∧ column f ∉ dkeys data ∧ column f ∉ dkeys rest) →
  collect_all name key_prefix show fs (data ++ columns_of key_prefix v fs ++ rest ++ [(name, w)]) =
  Ret (data ++ rest ++ [(name, foldl (absorb show v) w fs)]).
Proof.
  intros Hw Hnd Hdata Hrest. revert w Hw. induction fs as [|[f db] fs IH]; intros w Hw Hfresh; [done|].
  rewrite fmap_cons in Hnd. apply NoDup_cons in Hnd as [Hdb Hnd].
  destruct (Hfresh (f, db) ltac:(by left)) as (Hn & Hd & Hr). cbn in Hdb, Hn, Hd, Hr.
  assert (key_prefix +:+ db ∉ dkeys (columns_of key_prefix v fs)) as Hc by (by intros ?%columns_keys).
  assert (name ∉ dkeys (columns_of key_prefix v fs)) as Hnc.
  { intros Hin%columns_keys. apply list_elem_of_fmap in Hin as (g & Heq & Hg). by destruct (Hfresh g ltac:(by right)) as [? _]. }
  assert (∀ g, g ∈ fs → column g ≠ name ∧ column g ∉ dkeys data ∧ column g ∉ dkeys rest) as Hnext by (intros; apply Hfresh; by right).
  cbn [collect_all foldl]. unfold collect. cbn [fst snd].
  change (columns_of key_prefix v ((f, db) :: fs)) with
    (match (λ x, (key_prefix +:+ db, x)) <$> v f with Some y => y :: columns_of key_prefix v fs | None => columns_of key_prefix v fs end).
  pose proof (absorb_building show v w (f, db) Hw) as Hw'. unfold absorb in Hw' |- * at 2. cbn [fst] in *.
  destruct (v f) as [x|] eqn:Hx; cbn [fmap option_fmap option_map].
  - rewrite dget_app by done. cbn [app dget]. rewrite decide_True by done.
    rewrite ddel_app by done. cbn [ddel]. rewrite decide_True by done. cbn [is_None eval_Value].
    destruct (is_ENone x).
    { rewrite !dset_app by done. cbn [dset]. rewrite decide_True by done. cbn [mbind outcome_bind]. by apply IH. }
    rewrite !dget_app by done. cbn [dget]. rewrite decide_True by done.
    destruct Hw as [-> |[acc ->]]; cbn [is_None eval_Value is_ENone dict_of].
    { cbn [mbind outcome_bind]. by apply IH. }
    rewrite !dset_app by done. cbn [dset]. rewrite decide_True by done. cbn [mbind outcome_bind]. by apply IH.
  - rewrite dget_app, dget_app, dget_app by done. cbn [dget]. rewrite decide_False by done.
    cbn [mbind outcome_bind]. by apply IH.
Qed.

Lemma absorb_null show v fs : foldl (absorb show v) ENone fs = ENone.
Proof. induction fs as [|f fs IH]; cbn; [done|]. unfold absorb at 2. destruct (v f.1) as [[]|]; cbn; apply IH. Qed.

Lemma absorb_all show v fs acc :
  NoDup fs.*1 → (∀ f, f ∈ fs → f.1 ∉ dkeys acc) →
  foldl (absorb show v) (EDict acc) fs =
    if has_null v fs then ENone else EDict (acc ++ schedule_of (λ f, show <$> v f) fs).
Proof.
  revert acc. induction fs as [|f fs IH]; intros acc Hnd Hfresh; cbn; [by rewrite app_nil_r|].
  rewrite fmap_cons in Hnd. apply NoDup_cons in Hnd as [Hf Hnd]. unfold absorb at 2, schedule_of. cbn.
  destruct (v f.1) as [x|]; cbn; [|apply IH; [done|intros; apply Hfresh; by right]].
  destruct (is_ENone x); cbn; [apply absorb_null|]. rewrite dset_fresh by (apply Hfresh; by left).
  rewrite IH; [by rewrite <-(assoc_L app)|done|]. intros g Hg. unfold dkeys. rewrite fmap_app. cbn.
  rewrite elem_of_app, list_elem_of_singleton. intros [Hin|Heq]; [by apply (Hfresh g); [right|]|].
  apply Hf. rewrite <-Heq. by apply list_elem_of_fmap_2.
Qed.

Lemma cron_columns_NoDup begin_end : NoDup ((λ f : string * string, column f) <$> cron_columns begin_end).
Proof.
  change (NoDup ((String.append key_prefix ∘ snd) <$> cron_columns begin_end)).
  rewrite (list_fmap_compose snd (String.append key_prefix)). apply NoDup_fmap_2; [apply _|].
  destruct begin_end; apply (bool_decide_unpack _); vm_compute; exact I.
Qed.

Lemma cron_names_NoDup begin_end : NoDup (cron_columns begin_end).*1.
Proof. destruct begin_end; apply (bool_decide_unpack _); vm_compute; exact I. Qed.

Lemma schedule_shown v fs show :
  (∀ f x, f ∈ fs → shown f.1 x = show x) → schedule_of (λ f, show <$> v f) fs = schedule_of (λ f, shown f <$> v f) fs.
Proof.
  unfold schedule_of. induction fs as [|f fs IH]; intros Hs; [done|]. csimpl.
  rewrite (IH ltac:(intros; apply Hs; by right)). destruct (v f.1) as [x|]; csimpl; [|done].
  by rewrite (Hs f x) by by left.
Qed.

Lemma columns_of_app v fs gs : columns_of key_prefix v (fs ++ gs) = columns_of key_prefix v fs ++ columns_of key_prefix v gs.
Proof. apply omap_app. Qed.

(** Both loops. *)
Lemma back v begin_end :
  name ∉ dkeys data → (∀ f, f ∈ cron_columns begin_end → column f ≠ name ∧ column f ∉ dkeys data) →
  convert_db_format_to_schedule (data ++ columns_of key_prefix v (cron_columns begin_end)) name key_prefix begin_end =
    Ret (data ++ [(name, came_back begin_end (Some v))]).
Proof.
  intros Hname Hfresh. pose proof (cron_columns_NoDup begin_end) as Hc. pose proof (cron_names_NoDup begin_end) as Hf.
  assert (∀ fs, fs ⊆ cron_columns begin_end → name ∉ dkeys (columns_of key_prefix v fs)) as Hnc.
  { intros fs Hsub Hin%columns_keys. apply list_elem_of_fmap in Hin as (f & Heq & Hin). apply Hsub, Hfresh in Hin as [? _]. done. }
  unfold convert_db_format_to_schedule, came_back. rewrite dset_app, dset_fresh by (done || by apply Hnc).
  unfold cron_columns in *. rewrite !fmap_app in Hc, Hf.
  apply NoDup_app in Hc as (Hc1 & Hc12 & Hc2). apply NoDup_app in Hf as (Hf1 & Hf12 & Hf2).
  rewrite columns_of_app, <-!(assoc_L app). change (v_dict []) with (EDict []).
  rewrite (collect_fold (λ v, v) v columns (columns_of key_prefix v (if begin_end then times else [])) (EDict [])); try done.
  - cbn [mbind outcome_bind]. rewrite absorb_all by (done || set_solver). cbn [app].
    rewrite (schedule_shown v columns (λ x, x)).
    2: { intros f x Hin. unfold shown. rewrite bool_decide_eq_false_2; [done|].
         intros Ht. assert (f.1 ∈ times.*1) as Ht' by done. apply (Hf12 f.1); [by apply list_elem_of_fmap_2|].
         destruct begin_end; [done|]. revert Hin Ht. clear. intros Hin Ht.
         repeat (apply elem_of_cons in Hin as [-> |Hin]; [set_solver|]). by apply elem_of_nil in Hin. }
    destruct begin_end; [|by unfold columns_of; rewrite !app_nil_r].
    set (w := if has_null v columns then ENone else _).
    rewrite <-(app_nil_l [(name, w)]). rewrite (collect_fold show_time v times [] w); try done.
    + cbn [app]. do 4 f_equal. unfold w, has_null. rewrite existsb_app. fold (has_null v columns). fold (has_null v times).
      destruct (has_null v columns); cbn [orb]; [apply absorb_null|].
      rewrite absorb_all; [|done|intros f Hin Hk%schedule_keys; apply (Hf12 f.1 Hk); by apply list_elem_of_fmap_2].
      destruct (has_null v times); [done|]. rewrite (schedule_shown v times show_time); [by unfold schedule_of; rewrite omap_app|].
      intros f x Hin. unfold shown. rewrite bool_decide_eq_true_2; [done|]. by apply (list_elem_of_fmap_2 fst) in Hin.
    + unfold w. destruct (has_null v columns); [by left|right; by eexists].
    + set_solver.
    + intros f Hin. destruct (Hfresh f) as [? ?]; [apply elem_of_app; by right|]. split_and!; try done. set_solver.
  - right. by eexists.
  - apply Hnc. set_solver.
  - intros f Hin. destruct (Hfresh f) as [? ?]; [apply elem_of_app; by left|]. split_and!; try done.
    intros Hk%columns_keys. apply (Hc12 (column f)); [by apply (list_elem_of_fmap_2 (λ f : string * string, column f))|done].
Qed.
End roundtrip.

(** ** Times *)

Lemma zpad2_length z : (0 ≤ z ≤ 59)%Z → String.length (zpad 2 z) = 2.
Proof.
  intros Hz. assert (forallb (λ n, Nat.eqb (String.length (zpad 2 n)) 2) (seqZ 0 60) = true) as H by by vm_compute.
  apply Nat.eqb_eq. apply (forallb_elem _ _ z H). apply elem_of_seqZ. lia.
Qed.

Lemma first5_minutes a b c :
  String.length a = 2 → String.length b = 2 → first5 (a +:+ String ":" (b +:+ c)) = a +:+ String ":" b.
Proof.
  destruct a as [|a1 [|a2 []]], b as [|b1 [|b2 []]]; cbn; try lia. intros _ _. unfold first5.
  rewrite !PyStr.app_cons. cbn. by destruct c.
Qed.

(** The text of a time names its hour and its minute. *)
Lemma clean_first5 t :
  valid_time t = true → time_clean (first5 (time_str t)) = Ret (mkTime t.(hour) t.(minute) 0 0).
Proof.
  unfold valid_time, between. rewrite !andb_true_iff, !Z.leb_le. intros (((Hh & Hm) & _) & _).
  unfold time_str. rewrite first5_minutes by (apply zpad2_length; lia). unfold time_clean.
  rewrite split_cons, split_absent by (apply count_in_digits; [done|apply zpad_digits; lia]).
  rewrite !py_int_zpad by lia. unfold make_time, valid_time, between. cbn.
  by rewrite !(proj2 (Z.leb_le _ _)) by lia.
Qed.

(** C25. A cron schedule survives the way to the columns of its table and back, whatever
    fields it has, with or without the two times.  The five fields come back as they
    were; begin and end, which cleaning has made [datetime.time]s, come back as the first
    five characters of their text, and cleaning that text gives the time of the same hour
    and minute again.  A schedule that is null, or in which a field is null, comes back
    as null.  The row is otherwise as it was. *)
Theorem cron_roundtrip data name key_prefix begin_end schedule :
  name ∉ dkeys data →
  (∀ f, f ∈ cron_columns begin_end → key_prefix +:+ f.2 ≠ name ∧ key_prefix +:+ f.2 ∉ dkeys data) →
  (d ← convert_schedule_to_db_format (data ++ [(name, schedule_val begin_end schedule)]) name key_prefix begin_end;
   convert_db_format_to_schedule d name key_prefix begin_end) = Ret (data ++ [(name, came_back begin_end schedule)]) ∧
  ∀ t field, valid_time t = true → field ∈ ["begin"; "end"] →
    ∃ s, shown field (ETime t) = EStr s ∧ time_clean s = Ret (mkTime t.(hour) t.(minute) 0 0).
Proof.
  intros Hname Hfresh. split.
  2: { intros t field Ht Hf. unfold shown. rewrite bool_decide_eq_true_2 by done. eexists. split; [done|]. by apply clean_first5. }
  unfold convert_schedule_to_db_format.
  rewrite dget_app, ddel_app by done. cbn [dget ddel]. rewrite !decide_True by done. rewrite app_nil_r.
  fold (cron_columns begin_end). pose proof (cron_columns_NoDup key_prefix begin_end) as Hc.
  destruct schedule as [v|]; cbn [schedule_val is_None v_None eval_Value is_ENone].
  - rewrite (fill_spec key_prefix v _ (cron_columns begin_end) data); [|..|done|intros; by apply Hfresh].
    + by apply back.
    + intros f Hf. apply dget_schedule; [apply cron_names_NoDup|done].
  - rewrite (fill_none key_prefix (cron_columns begin_end) data Hc) by (intros; by apply Hfresh). cbn [mbind outcome_bind].
    rewrite (back data name key_prefix (λ _, Some ENone) begin_end Hname Hfresh). done.
Qed.
End times.

(** ** Witnesses *)

Definition nightly (f : string) : option eval :=
  if String.eqb f "hour" then Some (EStr "2")
  else if String.eqb f "dow" then Some (EStr "1-5")
  else if String.eqb f "begin" then Some (ETime (mkTime 1 30 0 0)) else None.

Lemma cron_roundtrip_witness :
  schedule_val true (Some nightly) = EDict [("hour", EStr "2"); ("dow", EStr "1-5"); ("begin", ETime (mkTime 1 30 0 0))] ∧
  (d ← @convert_schedule_to_db_format _ (eval_Value (λ _, "")) ([("id", EInt 3)] ++ [("schedule", schedule_val true (Some nightly))]) "schedule" "task_" true;
   @convert_db_format_to_schedule _ (eval_Value (λ _, "")) d "schedule" "task_" true) =
  Ret ([("id", EInt 3)] ++ [("schedule", EDict [("hour", EStr "2"); ("dow", EStr "1-5"); ("begin", EStr "01:30")])]).
Proof.
  split; [reflexivity|]. apply (cron_roundtrip (λ _, "") [("id", EInt 3)] "schedule" "task_" true (Some nightly)).
  - apply (bool_decide_unpack _). vm_compute. exact I.
  - intros f Hf. repeat (apply elem_of_cons in Hf as [-> |Hf]; [split; [discriminate|apply (bool_decide_unpack _); vm_compute; exact I]|]).
    by apply elem_of_nil in Hf.
Defined.

(** A schedule with one field that is null is null when it comes back. *)
Example null_field_drops_schedule :
  came_back (λ _, "") false (Some (λ f, if String.eqb f "hour" then Some (EStr "2") else if String.eqb f "dow" then Some ENone else None)) = ENone.
Proof. reflexivity. Qed.

(** [Time.clean] raises [ValueError], which is no error of the schema. *)
Example time_clean_raises :
  time_clean "18" = Raise (ValueError ("Time should be in 24 hour format like " +:+ String double_quote ("18:00" +:+ String double_quote ""))) ∧
  time_clean "24:00" = Raise out_of_range ∧ time_clean "a:b" = Raise (ValueError "invalid literal for int() with base 10").
Proof. by vm_compute. Qed.
