(* ===== verification/Datastore.v ===== *)
(** * The datastore: plugins/datastore/{schema,filter,read,util,stub}.py

    Queries on the configuration database.  The tables are metadata: columns with
    their foreign keys, and models with their many-to-many relationships.  A query
    is a tree of the SQLAlchemy calls the code makes; SQLAlchemy and SQLite are the
    class [Database], which runs such trees.  A [Table] or an alias of one in a join
    is a [TableRef]: the foreign keys followed from the queried table, and the table
    they lead to.  Python's recursion limit is the fuel of the recursive functions. *)

From S2P Require Import Prelude PyValue.

Definition RecursionError : exn := RuntimeError "maximum recursion depth exceeded".

(** ** Metadata *)

Record ForeignKey : Type := mkFK { fk_table : string; fk_column : string; ondelete : option string }.

(** The types that the code tells apart; [CHAR] and [Text] are strings too.  [Other] has
    [EncryptedText], [JSON], [MultiSelectField] and [Time], whose values are converted on
    the way to the database and back. *)
Inductive ColumnType : Type := Integer | SaString | SaBoolean | Other.

Record Column : Type := mkColumn {
  c_name : string;
  primary_key : bool;
  foreign_keys : list ForeignKey;
  nullable : bool;
  c_default : option pyval;
  c_type : ColumnType;
}.

Record Table : Type := mkTable { t_name : string; c : list Column }.

(** A column of a table, by name. *)
Notation ColId := (string * string)%type.

(** A many-to-many relationship: the pairs of columns that tie the table to the
    secondary one and the secondary one to the target. *)
Record Relationship : Type := mkRel {
  synchronize_pairs : list (ColId * ColId);
  secondary_synchronize_pairs : list (ColId * ColId);
  secondary : string;
  target : string;
}.

Record Metadata : Type := mkMeta {
  tables : list (string * Table);
  models : list (string * list (string * Relationship));
}.

(** A table or an alias: the foreign-key columns that lead to it. *)
Record TableRef : Type := mkRef { alias_path : list string; original : Table }.

(** A column of a table or of an alias. *)
Record ColRef : Type := mkColRef { owner : list string; column : Column }.

(** The join aliases, in the order of [dict]: the foreign key's column and table,
    and the alias it leads to. *)
Notation Aliases := (list (ColRef * TableRef)).

(** ** schema.py *)

Definition replace_char (a b : ascii) (s : string) : string :=
  PyStr.map_chars (λ x, if decide (x = a) then b else x) s.

(** [s.replace(a, b, 1)] *)
Fixpoint replace_first (a b : ascii) (s : string) : string :=
  match s with
  | "" => ""
  | String x s' => if decide (x = a) then String b s' else String x (replace_first a b s')
  end.

Section schema.
Context (meta : Metadata).

Definition get_table (name : string) : outcome exn Table :=
  let key := PyStr.lower (replace_char "." "_" name) in
  match dget meta.(tables) key with Some t => Ret t | None => Raise (KeyError key) end.

Definition get_pk (table : TableRef) : outcome exn ColRef :=
  match List.filter primary_key table.(original).(c) with
  | col :: _ => Ret (mkColRef table.(alias_path) col)
  | [] => Raise IndexError
  end.

(** [table.c[name]] *)
Definition table_col (table : TableRef) (name : string) : option ColRef :=
  mkColRef table.(alias_path) <$> List.find (λ col, String.eqb col.(c_name) name) table.(original).(c).

Definition get_col_by_django_name (table : TableRef) (name : string) : option ColRef :=
  match table_col table name with
  | Some col => Some col
  | None => table_col table (name +:+ "_id")
  end.

Definition get_col (table : TableRef) (name prefix : string) : outcome exn ColRef :=
  match get_col_by_django_name table name with
  | Some col => Ret col
  | None =>
      if String.eqb prefix "" then Raise (KeyError name)
      else match get_col_by_django_name table (prefix +:+ name) with
           | Some col => Ret col
           | None => Raise (KeyError name)
           end
  end.

Definition get_relationships (table : Table) : outcome exn (list (string * Relationship)) :=
  match dget meta.(models) table.(t_name) with
  | Some rels => Ret rels
  | None => Raise (RuntimeError ("Could not find model for table " +:+ table.(t_name)))
  end.

(** ** util.py *)

(** [name[:-3]] *)
Definition drop_last3 (s : string) : string := String.substring 0 (String.length s - 3) s.

Definition get_backrefs (name : string) : outcome exn (list (string * string)) :=
  table ← get_table name;
  Ret (flat_map (λ kv, flat_map (λ col,
    match col.(foreign_keys) with
    | fk :: _ =>
        if String.eqb fk.(fk_table) table.(t_name) then
          match fk.(ondelete) with
          | None => [(replace_first "_" "." kv.2.(t_name),
                      if PyStr.endswith col.(c_name) "_id" then drop_last3 col.(c_name) else col.(c_name))]
          | Some _ => []
          end
        else []
    | [] => []
    end) kv.2.(c)) meta.(tables)).
End schema.

(** ** filter.py *)

Inductive SqlOp : Type := SqlEq | SqlNe | SqlGt | SqlGe | SqlLt | SqlLe | SqlRegexp | SqlStartswith | SqlEndswith.

#[global] Instance SqlOp_eq_dec : EqDecision SqlOp.
Proof. solve_decision. Defined.

(** The SQLAlchemy expressions the code builds.  [SqlNull] is the [None] that an
    [OR] of no filters leaves. *)
Inductive SqlExpr : Type :=
| SqlBin (op : SqlOp) (col : ColRef) (value : pyval)
| SqlIn (col : ColRef) (values : list pyval)
| SqlNot (e : SqlExpr)
| SqlOr (e1 e2 : SqlExpr)
| SqlAnd (e1 e2 : SqlExpr)
| SqlIsNull (col : ColRef)
| SqlNotNull (col : ColRef)
| SqlNull.

Definition is_none (v : pyval) : bool := match v with PNone => true | _ => false end.

Definition in_ (col : ColRef) (value : pyval) : outcome exn SqlExpr :=
  has_nulls ← py_in PNone value;
  values ← py_iter value;
  let expr := SqlIn col (List.filter (λ v, negb (is_none v)) values) in
  Ret (if has_nulls : bool then SqlOr expr (SqlIsNull col) else expr).

Definition nin (col : ColRef) (value : pyval) : outcome exn SqlExpr :=
  has_nulls ← py_in PNone value;
  values ← py_iter value;
  let expr := SqlNot (SqlIn col (List.filter (λ v, negb (is_none v)) values)) in
  Ret (if has_nulls : bool then SqlAnd expr (SqlNotNull col) else expr).

Definition sql_opmap (op : string) : option (ColRef → pyval → outcome exn SqlExpr) :=
  match op with
  | "=" => Some (λ col v, Ret (SqlBin SqlEq col v))
  | "!=" => Some (λ col v, Ret (SqlBin SqlNe col v))
  | ">" => Some (λ col v, Ret (SqlBin SqlGt col v))
  | ">=" => Some (λ col v, Ret (SqlBin SqlGe col v))
  | "<" => Some (λ col v, Ret (SqlBin SqlLt col v))
  | "<=" => Some (λ col v, Ret (SqlBin SqlLe col v))
  | "~" => Some (λ col v, Ret (SqlBin SqlRegexp col v))
  | "in" => Some in_
  | "nin" => Some nin
  | "^" => Some (λ col v, Ret (SqlBin SqlStartswith col v))
  | "$" => Some (λ col v, Ret (SqlBin SqlEndswith col v))
  | _ => None
  end.

(** [op not in opmap] for any value, then its function. *)
Definition find_sql_op (op : pyval) : outcome exn (ColRef → pyval → outcome exn SqlExpr) :=
  match op with
  | PStr s => match sql_opmap s with
              | Some f => Ret f
              | None => Raise (ValueError ("Invalid operation: " +:+ s))
              end
  | PList _ | PDict _ => Raise (TypeError "unhashable type")
  | _ => Raise (ValueError ("Invalid operation: " +:+ py_str op))
  end.

(** [name.split('__', 1)] *)
Fixpoint split_dunder (s : string) : option (string * string) :=
  match s with
  | "" => None
  | String x s' =>
      match x, s' with
      | "_"%char, String "_"%char rest => Some ("", rest)
      | _, _ => match split_dunder s' with
                | Some (a, b) => Some (String x a, b)
                | None => None
                end
      end
  end.

Definition colref_eqb (x y : ColRef) : bool :=
  bool_decide (x.(owner) = y.(owner)) && String.eqb x.(column).(c_name) y.(column).(c_name).

(** [aliases[list(col.foreign_keys)[0]]] *)
Definition alias_of (aliases : Aliases) (col : ColRef) : outcome exn TableRef :=
  match col.(column).(foreign_keys) with
  | [] => Raise IndexError
  | _ :: _ => match List.find (λ kv, colref_eqb kv.1 col) aliases with
              | Some kv => Ret kv.2
              | None => Raise (KeyError col.(column).(c_name))
              end
  end.

Section filters_to_queryset.
Context (table : TableRef) (prefix : string) (aliases : Aliases).

Definition filter_col (name : pyval) : outcome exn ColRef :=
  match name with
  | PStr s =>
      match split_dunder s with
      | Some (fk, name) =>
          col ← get_col table fk prefix;
          alias ← alias_of aliases col;
          get_col alias name ""
      | None => get_col table s prefix
      end
  | _ => dunder ← py_in (PStr "__") name;
         if dunder : bool then Raise (AttributeError "object has no attribute 'split'")
         else Raise (OtherError "ArgumentError")
  end.

(** The loop over the expressions of an [OR]. *)
Definition or_all (es : list SqlExpr) : SqlExpr :=
  match es with
  | [] => SqlNull
  | e :: es => foldl SqlOr e es
  end.

(** One turn of the loop of [_filters_to_queryset]. *)
Fixpoint filter_to_expr (f : pyval) : outcome exn SqlExpr :=
  match f with
  | PList [name; op; value] =>
      col ← filter_col name;
      fn ← find_sql_op op;
      fn col value
  | PList [op; value] =>
      if decide (op = PStr "OR") then
        match value with
        | PList fs => or_all <$> mapO filter_to_expr fs
        | PDict [] => Ret SqlNull
        | PDict ((k, _) :: _) => Raise (ValueError ("Filter must be a list or tuple: " +:+ k))
        | PStr "" => Ret SqlNull
        | PStr (String x _) => Raise (ValueError ("Filter must be a list or tuple: " +:+ String x ""))
        | _ => Raise (TypeError "object is not iterable")
        end
      else Raise (ValueError ("Invalid operation: " +:+ py_str op))
  | PList _ => Raise (ValueError ("Invalid filter " +:+ py_str f))
  | _ => Raise (ValueError ("Filter must be a list or tuple: " +:+ py_str f))
  end.

Definition filters_to_queryset (filters : list pyval) : outcome exn (list SqlExpr) :=
  mapO filter_to_expr filters.
End filters_to_queryset.

(** ** read.py: the order of a query *)

Inductive OrderExpr : Type :=
| OrdCol (col : ColRef)
| OrdDesc (col : ColRef)
| OrdIsNull (col : ColRef)
| OrdNotNull (col : ColRef)
| NullsFirst (e : OrderExpr)
| NullsLast (e : OrderExpr).

Section order_by.
Context (table : TableRef) (prefix : string).

(** The body of the first loop, on one entry of [order_by]. *)
Definition order_expr (order : string) : outcome exn OrderExpr :=
  let '(wrapper, order) :=
    if PyStr.startswith order "nulls_first:" then (NullsFirst, PyStr.drop 12 order)
    else if PyStr.startswith order "nulls_last:" then (NullsLast, PyStr.drop 11 order)
    else (λ x, x, order) in
  if PyStr.startswith order "-" then
    col ← get_col table (PyStr.drop 1 order) prefix; Ret (wrapper (OrdDesc col))
  else
    col ← get_col table order prefix; Ret (wrapper (OrdCol col)).
End order_by.

(** [v.element.element] of a [desc], [v.element] otherwise; the code compares it
    with [None]. *)
Definition not_null_of (e : OrderExpr) : OrderExpr :=
  match e with OrdCol col | OrdDesc col => OrdNotNull col | e => e end.
Definition is_null_of (e : OrderExpr) : OrderExpr :=
  match e with OrdCol col | OrdDesc col => OrdIsNull col | e => e end.

(** The [for] loop: replace the first [nullsfirst] or [nullslast] and break. *)
Fixpoint expand_first (order_by : list OrderExpr) : option (list OrderExpr) :=
  match order_by with
  | [] => None
  | NullsFirst e :: rest => Some (not_null_of e :: e :: rest)
  | NullsLast e :: rest => Some (is_null_of e :: e :: rest)
  | v :: rest => cons v <$> expand_first rest
  end.

(** The [while changed] loop; [None] when the fuel runs out. *)
Fixpoint expand_nulls (fuel : nat) (order_by : list OrderExpr) : option (list OrderExpr) :=
  match fuel with
  | 0 => None
  | S fuel =>
      match expand_first order_by with
      | Some order_by => expand_nulls fuel order_by
      | None => Some order_by
      end
  end.

(** ** read.py: joins *)

Section joins.
Context (meta : Metadata).

(** [_get_queryset_joins]: the foreign keys of [table] and of the tables it
    references, except that a table is not joined to itself twice in a row.  The
    recursive call is an argument. *)
Fixpoint joins_of (recurse : TableRef → outcome exn Aliases) (table : TableRef) (cols : list Column) :
    outcome exn Aliases :=
  match cols with
  | [] => Ret []
  | col :: cols =>
      match col.(foreign_keys) with
      | [] => joins_of recurse table cols
      | [fk] =>
          match dget meta.(tables) fk.(fk_table) with
          | None => Raise (OtherError "NoReferencedTableError")
          | Some t =>
              let alias := mkRef (table.(alias_path) ++ [col.(c_name)]) t in
              deeper ← if String.eqb t.(t_name) table.(original).(t_name) then Ret [] else recurse alias;
              rest ← joins_of recurse table cols;
              Ret ((mkColRef table.(alias_path) col, alias) :: deeper ++ rest)
          end
      | _ => Raise (RuntimeError "Multiple foreign keys are not supported")
      end
  end.

Fixpoint get_queryset_joins (fuel : nat) (table : TableRef) : outcome exn Aliases :=
  match fuel with
  | 0 => Raise RecursionError
  | S fuel => joins_of (get_queryset_joins fuel) table table.(original).(c)
  end.
End joins.

(** ** The database *)

Record Query : Type := mkQuery {
  q_table : Table;
  q_joins : Aliases;
  q_where : list SqlExpr;
  q_order_by : list OrderExpr;
  q_offset : Z;
  q_limit : Z;
}.

(** A row: the cells of the selected columns. *)
Notation Row := (list ((list string * string) * pyval)).

(** What the datastore asks of SQLAlchemy, SQLite, the other services and the
    iteration over a Python set. *)
Class Database (D : Type) : Type := {
  fetchall : Query → D → outcome exn (list Row);
  (** [select([func.count(pk)])] *)
  fetch_count : Query → D → outcome exn Z;
  (** [self.middleware.call(method, args)] of the [extend] methods *)
  call_method : string → list pyval → outcome exn pyval;
  set_iter : list pyval → list pyval;
}.

(** [obj[column]] *)
Fixpoint row_get (row : Row) (key : list string * string) : outcome exn pyval :=
  match row with
  | [] => Raise (OtherError "NoSuchColumnError")
  | (k, v) :: row => if decide (k = key) then Ret v else row_get row key
  end.

Definition obj_get (row : Row) (col : ColRef) : outcome exn pyval :=
  row_get row (col.(owner), col.(column).(c_name)).

(** ** read.py: serialization *)

Definition strip_prefix (k field_prefix : string) : string :=
  if negb (String.eqb field_prefix "") && PyStr.startswith k field_prefix
  then PyStr.drop (String.length field_prefix) k else k.

Section serialize_row.
Context (row : Row) (aliases : Aliases).

(** The first loop: the columns of the table itself. *)
Fixpoint own_columns (table : TableRef) (cols : list Column) (data : pydict) : outcome exn pydict :=
  match cols with
  | [] => Ret data
  | col :: cols =>
      if bool_decide (col.(foreign_keys) = []) || bool_decide (aliases = []) then
        v ← row_get row (table.(alias_path), col.(c_name));
        own_columns table cols (dset data col.(c_name) v)
      else own_columns table cols data
  end.

(** The second loop: the rows that the foreign keys of [table] lead to. *)
Fixpoint joined_rows (recurse : TableRef → outcome exn pydict) (table : TableRef)
    (l : Aliases) (data : pydict) : outcome exn pydict :=
  match l with
  | [] => Ret data
  | (col, alias) :: l =>
      if negb (bool_decide (col.(owner) = table.(alias_path))) then joined_rows recurse table l data
      else if negb (PyStr.endswith col.(column).(c_name) "_id") then
        Raise (RuntimeError "Foreign key column must end with _id")
      else
        v ← obj_get row col;
        present ← (if is_none v then Ret false
                   else pk ← get_pk alias; k ← obj_get row pk; Ret (negb (is_none k)));
        v ← (if present : bool then PDict <$> recurse alias else Ret PNone);
        joined_rows recurse table l (dset data (drop_last3 col.(column).(c_name)) v)
  end.

Fixpoint serialize_row (fuel : nat) (table : TableRef) : outcome exn pydict :=
  match fuel with
  | 0 => Raise RecursionError
  | S fuel =>
      data ← own_columns table table.(original).(c) [];
      joined_rows (serialize_row fuel) table aliases data
  end.
End serialize_row.

(** ** stub.py *)

Definition FAILOVER_ROW : pyval :=
  PDict [("id", PInt 1); ("disabled", PBool true); ("master", PBool false); ("timeout", PInt 0)].

Definition handle_removed_tables (name : string) (get : bool) : option pyval :=
  if String.eqb name "system.failover" then Some (if get then FAILOVER_ROW else PList [FAILOVER_ROW])
  else if String.eqb name "services.fibrechanneltotarget" then Some (PList [])
  else None.

Definition removed_table (name : string) : bool :=
  bool_decide (name ∈ ["system.failover"; "services.fibrechanneltotarget"]).

Definition handle_removed_tables_insert (name : string) : option pyval :=
  if removed_table name then Some (PInt 1) else None.
Definition handle_removed_tables_update (name : string) (data : pydict) : option pyval :=
  if removed_table name then Some (PDict data) else None.
Definition handle_removed_tables_delete (name : string) : option pyval :=
  if removed_table name then Some (PBool true) else None.

(** ** read.py: [query] *)

(** [query-options]; an absent prefix is the empty string. *)
Record QueryOptions : Type := mkQO {
  relationships : bool;
  extend : option string;
  extend_context : option string;
  prefix : string;
  extra : pydict;
  order_by : list string;
  select : list string;
  count : bool;
  get : bool;
  offset : Z;
  limit : Z;
  force_sql_filters : bool;
}.

Definition default_options : QueryOptions :=
  mkQO true None None "" [] [] [] false false 0 0 false.

(** [s.add(x)] on a set, in the order of insertion. *)
Definition set_add (x : pyval) (s : list pyval) : list pyval :=
  if existsb (py_eq x) s then s else s ++ [x].

(** A dict whose keys are values. *)
Fixpoint vget (d : list (pyval * pyval)) (k : pyval) : option pyval :=
  match d with
  | [] => None
  | (k', v) :: d => if py_eq k' k then Some v else vget d k
  end.

Fixpoint vset (d : list (pyval * pyval)) (k v : pyval) : list (pyval * pyval) :=
  match d with
  | [] => [(k, v)]
  | (k', v') :: d => if py_eq k' k then (k', v) :: d else (k', v') :: vset d k v
  end.

(** The ids that the rows of the secondary table connect with [pk]. *)
Definition children_ids (pairs : list (pyval * pyval)) (pk : pyval) : list pyval :=
  foldl (λ s p, if py_eq p.1 pk then set_add p.2 s else s) [] pairs.

Section query.
Context {D : Type} `{!Database D} (meta : Metadata) (limit_ : nat) (d : D).

(** [_fetch_many_to_many], for one relationship; [query] is the recursive call. *)
Definition fetch_relationship (query : string → list pyval → QueryOptions → outcome exn pyval)
    (pk : ColRef) (pk_table : string) (pk_values : list pyval) (rel : Relationship) :
    outcome exn (list pyval) :=
  match rel.(synchronize_pairs), rel.(secondary_synchronize_pairs) with
  | [(local_pk, rel_local)], [(remote_pk, rel_remote)] =>
      if negb (bool_decide (local_pk = (pk_table, pk.(column).(c_name)))) then Raise AssertionError else
      connections ← query (replace_first "_" "." rel.(secondary))
        [PList [PStr rel_local.2; PStr "in"; PList pk_values]]
        (mkQO false None None "" [] [] [] false false 0 0 false);
      connections ← py_iter connections;
      pairs ← mapO (λ conn, child_id ← item conn rel_remote.2; parent ← item conn rel_local.2;
                            Ret (parent, child_id)) connections;
      let all_children_ids := foldl (λ s p, set_add p.2 s) [] pairs in
      all_children ← match all_children_ids with
        | [] => Ret []
        | _ => children ← query (replace_first "_" "." rel.(target))
                 [PList [PStr remote_pk.2; PStr "in"; PList (set_iter all_children_ids)]] default_options;
               children ← py_iter children;
               keyed ← mapO (λ child, k ← item child remote_pk.2; Ret (k, child)) children;
               Ret (foldl (λ m kv, vset m kv.1 kv.2) [] keyed)
        end;
      Ret ((λ pk, PList (omap (vget all_children) (set_iter (children_ids pairs pk)))) <$> pk_values)
  | _, _ => Raise AssertionError
  end.

(** [relationships[i][relationship_name] = ...] for every row. *)
Fixpoint fetch_relationships (query : string → list pyval → QueryOptions → outcome exn pyval)
    (pk : ColRef) (pk_table : string) (pk_values : list pyval) (rels : list (string * Relationship))
    (acc : list pydict) : outcome exn (list pydict) :=
  match rels with
  | [] => Ret acc
  | (relationship_name, rel) :: rels =>
      children ← fetch_relationship query pk pk_table pk_values rel;
      fetch_relationships query pk pk_table pk_values rels
        (zip_with (λ m v, dset m relationship_name v) acc children)
  end.

Definition fetch_many_to_many (query : string → list pyval → QueryOptions → outcome exn pyval)
    (table : Table) (rows : list Row) : outcome exn (list pydict) :=
  pk ← get_pk (mkRef [] table);
  pk_values ← mapO (λ row, obj_get row pk) rows;
  match pk_values with
  | [] => Ret []
  | _ => rels ← get_relationships meta table;
         fetch_relationships query pk table.(t_name) pk_values rels ((λ _, []) <$> rows)
  end.

(** [_serialize] *)
Definition serialize (aliases : Aliases) (table : Table) (opts : QueryOptions) (context : pyval)
    (row : Row) (rels : pydict) : outcome exn pyval :=
  data ← serialize_row row aliases limit_ (mkRef [] table);
  let data := dupdate data rels in
  let data := PDict (dupdate [] ((λ kv, (strip_prefix kv.1 opts.(prefix), kv.2)) <$> data)) in
  data ← match opts.(extend) with
         | None => Ret data
         | Some method =>
             call_method method (match opts.(extend_context) with
                                 | Some _ => [data; context] | None => [data] end)
         end;
  match opts.(select) with
  | [] => Ret data
  | names => match data with
             | PDict data => Ret (PDict (List.filter (λ kv, bool_decide (kv.1 ∈ names)) data))
             | _ => Raise (AttributeError "object has no attribute 'items'")
             end
  end.

(** [_queryset_serialize] *)
Definition queryset_serialize (aliases : Aliases) (table : Table) (opts : QueryOptions)
    (rows : list Row) (rels : list pydict) : outcome exn (list pyval) :=
  context ← match opts.(extend_context) with
            | Some method => call_method method [PDict opts.(extra)]
            | None => Ret PNone
            end;
  mapO (λ rr, serialize aliases table opts context rr.1 rr.2) (zip rows rels).

(** [query] after the statement has been put together. *)
Definition run_query (query : string → list pyval → QueryOptions → outcome exn pyval)
    (table : Table) (aliases : Aliases) (where_ : list SqlExpr) (opts : QueryOptions) :
    outcome exn pyval :=
  order ← mapO (order_expr (mkRef [] table) opts.(prefix)) opts.(order_by);
  let order := default [] (expand_nulls (S (length order)) order) in
  rows ← fetchall (mkQuery table aliases where_ order opts.(offset) opts.(limit)) d;
  rels ← (if opts.(relationships) then fetch_many_to_many query table rows
          else Ret ((λ _, []) <$> rows));
  result ← queryset_serialize aliases table opts rows rels;
  if opts.(get) then
    match result with [] => Raise MatchNotFound | x :: _ => Ret x end
  else Ret (PList result).

(** [query]; [limit_] is the recursion limit for joins and rows, [fuel] the one
    for queries that follow relationships. *)
Fixpoint query (fuel : nat) (name : string) (filters : list pyval) (opts : QueryOptions) :
    outcome exn pyval :=
  match fuel with
  | 0 => Raise RecursionError
  | S fuel =>
      match handle_removed_tables name opts.(get) with
      | Some stub => Ret stub
      | None =>
          table ← get_table meta name;
          aliases ← (if opts.(count) then _ ← get_pk (mkRef [] table); Ret []
                     else if opts.(relationships) then get_queryset_joins meta limit_ (mkRef [] table)
                     else Ret []);
          where_ ← filters_to_queryset (mkRef [] table) opts.(prefix) aliases filters;
          if opts.(count) then PInt <$> fetch_count (mkQuery table [] where_ [] 0 0) d
          else run_query (query fuel) table aliases where_ opts
      end
  end.

(** [config] *)
Definition config (fuel : nat) (name : string) (opts : QueryOptions) : outcome exn pyval :=
  query fuel name []
    (mkQO opts.(relationships) opts.(extend) opts.(extend_context) opts.(prefix) opts.(extra)
       opts.(order_by) opts.(select) opts.(count) true opts.(offset) opts.(limit) opts.(force_sql_filters)).
End query.
