(* ===== verification/DatastoreJoins.v ===== *)
(** * The order and the joins of a query

    The loop that rewrites [nulls_first] and [nulls_last] stops and keeps the order
    it was asked for; the recursion over foreign keys ends on every schema whose
    references, apart from those of a table to itself, form no cycle, and joins
    exactly the chains of foreign keys.  The schema of the middleware is such a
    schema. *)

From S2P Require Import Prelude PyValue Datastore.

(** ** The rewriting of [order_by] *)

(** An entry as the first loop leaves it: a column or a descending column, perhaps
    wrapped once. *)
Definition plain_order (e : OrderExpr) : bool :=
  match e with OrdCol _ | OrdDesc _ => true | _ => false end.

Definition parsed_order (e : OrderExpr) : bool :=
  match e with
  | NullsFirst e | NullsLast e => plain_order e
  | e => plain_order e
  end.

(** What one entry becomes. *)
Definition expand_one (e : OrderExpr) : list OrderExpr :=
  match e with
  | NullsFirst e => [not_null_of e; e]
  | NullsLast e => [is_null_of e; e]
  | e => [e]
  end.

(** Entries that the loop passes over. *)
Definition settled (e : OrderExpr) : bool :=
  match e with NullsFirst _ | NullsLast _ => false | _ => true end.

Lemma expand_first_settled pre post :
  forallb settled pre = true → expand_first (pre ++ post) = app pre <$> expand_first post.
Proof.
  induction pre as [|e pre IH]; cbn [forallb app]; [by destruct (expand_first post)|].
  intros [He Hpre]%andb_true_iff. specialize (IH Hpre).
  by destruct e; try done; cbn [expand_first]; rewrite IH; destruct (expand_first post).
Qed.

(** With the first entries settled, the loop needs one turn for each of the
    others and one to stop. *)
Lemma expand_nulls_settled post : ∀ fuel pre,
  forallb settled pre = true → forallb parsed_order post = true → length post < fuel →
  expand_nulls fuel (pre ++ post) = Some (pre ++ flat_map expand_one post).
Proof.
  induction post as [|e post IH]; intros fuel pre Hpre Hpost Hfuel.
  - destruct fuel as [|fuel]; [cbn in Hfuel; lia|]. cbn [expand_nulls flat_map].
    by rewrite expand_first_settled by done.
  - cbn [forallb length] in *. apply andb_true_iff in Hpost as [He Hpost].
    destruct (settled e) eqn:Hs.
    + replace (pre ++ e :: post) with ((pre ++ [e]) ++ post) by by rewrite <-app_assoc.
      rewrite (IH fuel); [|rewrite forallb_app; cbn; by rewrite Hpre, Hs|done|lia].
      rewrite <-app_assoc. cbn [flat_map]. by destruct e.
    + destruct fuel as [|fuel]; [lia|]. cbn [expand_nulls].
      rewrite expand_first_settled by done.
      assert (expand_first (e :: post) = Some (expand_one e ++ post)) as -> by by destruct e.
      cbn [fmap option_fmap option_map].
      rewrite (assoc_L app), IH; [|rewrite forallb_app, Hpre; by destruct e as [| | | |[]|[]]|done|lia].
      by rewrite <-(assoc_L app).
Qed.

Lemma order_expr_parsed table prefix o e :
  order_expr table prefix o = Ret e → parsed_order e = true.
Proof.
  unfold order_expr.
  destruct (PyStr.startswith o "nulls_first:"); [|destruct (PyStr.startswith o "nulls_last:")];
    destruct (PyStr.startswith _ "-"); intros (col & _ & [= <-])%outcome_bind_Ret; done.
Qed.

Lemma orders_parsed table prefix os es :
  mapO (order_expr table prefix) os = Ret es → forallb parsed_order es = true.
Proof.
  intros Hes%mapO_Ret. apply forallb_Forall.
  eapply Forall2_Forall_r; [exact Hes|]. apply Forall_forall. intros o _ e. apply order_expr_parsed.
Qed.

(** The order a list of entries denotes, given how rows compare by a column and
    whether they are null there. *)
Section order.
Context (cmp : ColRef → Row → Row → comparison) (null : ColRef → Row → bool).

Definition then_ (x y : comparison) : comparison := match x with Eq => y | _ => x end.

Definition bool_cmp (a b : bool) : comparison := Z.compare (Z.b2z a) (Z.b2z b).

(** [NULLS FIRST] or [NULLS LAST]: the rows that are null come first, or last. *)
Definition nulls_cmp (first : bool) (e : OrderExpr) (r1 r2 : Row) : comparison :=
  match e with
  | OrdCol col | OrdDesc col =>
      match null col r1, null col r2 with
      | true, false => if first then Lt else Gt
      | false, true => if first then Gt else Lt
      | _, _ => Eq
      end
  | _ => Eq
  end.

(** SQL's own reading of an entry, [NULLS FIRST] and [NULLS LAST] included. *)
Fixpoint entry_cmp (e : OrderExpr) (r1 r2 : Row) : comparison :=
  match e with
  | OrdCol col => cmp col r1 r2
  | OrdDesc col => cmp col r2 r1
  | OrdIsNull col => bool_cmp (null col r1) (null col r2)
  | OrdNotNull col => bool_cmp (negb (null col r1)) (negb (null col r2))
  | NullsFirst e => then_ (nulls_cmp true e r1 r2) (entry_cmp e r1 r2)
  | NullsLast e => then_ (nulls_cmp false e r1 r2) (entry_cmp e r1 r2)
  end.

Definition order_cmp (es : list OrderExpr) (r1 r2 : Row) : comparison :=
  foldr (λ e rest, then_ (entry_cmp e r1 r2) rest) Eq es.

Lemma then_assoc x y z : then_ (then_ x y) z = then_ x (then_ y z).
Proof. by destruct x. Qed.

Lemma order_cmp_app es1 es2 r1 r2 :
  order_cmp (es1 ++ es2) r1 r2 = then_ (order_cmp es1 r1 r2) (order_cmp es2 r1 r2).
Proof.
  induction es1 as [|e es1 IH]; cbn; [done|]. unfold order_cmp in IH. by rewrite IH, then_assoc.
Qed.

Lemma expand_one_cmp e r1 r2 :
  parsed_order e = true → order_cmp (expand_one e) r1 r2 = order_cmp [e] r1 r2.
Proof.
  destruct e as [| | | |[]|[]]; try done; intros _; cbn;
    destruct (null col r1), (null col r2); cbn; by repeat case_match.
Qed.

Lemma expand_cmp es r1 r2 :
  forallb parsed_order es = true → order_cmp (flat_map expand_one es) r1 r2 = order_cmp es r1 r2.
Proof.
  induction es as [|e es IH]; cbn [forallb flat_map]; [done|].
  intros [He Hes]%andb_true_iff. rewrite order_cmp_app, expand_one_cmp, IH by done.
  by rewrite <-order_cmp_app.
Qed.
End order.

(** The [while changed] loop that rewrites [nulls_first:] and [nulls_last:]
    ends within one turn per entry and one more, and the rewritten list orders any
    two rows the way the entries ask, with nulls first or last, whatever the order
    of the values. *)
Theorem order_by_rewriting cmp null table prefix os es :
  mapO (order_expr table prefix) os = Ret es →
  ∃ es', expand_nulls (S (length es)) es = Some es' ∧
    forallb settled es' = true ∧
    ∀ r1 r2, order_cmp cmp null es' r1 r2 = order_cmp cmp null es r1 r2.
Proof.
  intros Hes%orders_parsed. exists (flat_map expand_one es). split_and!.
  - apply (expand_nulls_settled es (S (length es)) []); [done|done|lia].
  - clear -Hes. induction es as [|e es IH]; [done|]. cbn [flat_map forallb] in *.
    apply andb_true_iff in Hes as [He Hes]. rewrite forallb_app, IH by done.
    by destruct e as [| | | |[]|[]].
  - intros r1 r2. by apply expand_cmp.
Qed.

(** ** Joins *)

Section joins.
Context (meta : Metadata).

(** Every column references at most one column, of a table that exists, and tables
    are filed under their names. *)
Record schema_ok : Prop := {
  named : ∀ k t, dget meta.(tables) k = Some t → t.(t_name) = k;
  single_fk : ∀ k t col, dget meta.(tables) k = Some t → col ∈ t.(c) →
    col.(foreign_keys) = [] ∨ ∃ fk t', col.(foreign_keys) = [fk] ∧
      dget meta.(tables) fk.(fk_table) = Some t';
}.

(** One foreign key of [t]. *)
Definition references (t : Table) (col : Column) (t' : Table) : Prop :=
  col ∈ t.(c) ∧ ∃ fk, col.(foreign_keys) = [fk] ∧ dget meta.(tables) fk.(fk_table) = Some t'.

(** Other tables have a smaller rank than the tables that reference them. *)
Definition ranked (rank : string → nat) : Prop :=
  ∀ t col t', dget meta.(tables) t.(t_name) = Some t → references t col t' →
    t'.(t_name) ≠ t.(t_name) → rank t'.(t_name) < rank t.(t_name).

(** A chain of foreign keys that does not go on from a table to itself. *)
Inductive fk_path : Table → list string → Table → Prop :=
| fk_one t col t' : references t col t' → fk_path t [col.(c_name)] t'
| fk_more t col t' p t'' :
    references t col t' → t'.(t_name) ≠ t.(t_name) → fk_path t' p t'' →
    fk_path t (col.(c_name) :: p) t''.

(** The aliases of [al] lead from [base] over the paths in [P]. *)
Definition leads (base : list string) (al : Aliases) (P : list string → Table → Prop) : Prop :=
  ∀ p t', (∃ col, (col, mkRef p t') ∈ al) ↔ ∃ q, p = base ++ q ∧ P q t'.

(** The paths that start with one of the columns [cols] of [t]. *)
Definition paths_from (t : Table) (cols : list Column) (q : list string) (t' : Table) : Prop :=
  ∃ col, col ∈ cols ∧
    ((q = [col.(c_name)] ∧ references t col t') ∨
     ∃ t1 q', q = col.(c_name) :: q' ∧ references t col t1 ∧ t1.(t_name) ≠ t.(t_name) ∧ fk_path t1 q' t').

Lemma fk_path_from t q t' : fk_path t q t' ↔ paths_from t t.(c) q t'.
Proof.
  split.
  - intros [t0 col t1 Href|t0 col t1 p t2 Href Hne Hp]; exists col;
      (split; [apply Href|]); [by left|]. right. by exists t1, p.
  - intros (col & _ & [[-> Href]|(t1 & q' & -> & Href & Hne & Hp)]); [by constructor|by eapply fk_more].
Qed.

Lemma joins_of_spec recurse table cols al :
  cols ⊆ table.(original).(c) →
  (∀ col t' al', references table.(original) col t' → t'.(t_name) ≠ table.(original).(t_name) →
     recurse (mkRef (table.(alias_path) ++ [col.(c_name)]) t') = Ret al' →
     leads (table.(alias_path) ++ [col.(c_name)]) al' (fk_path t')) →
  joins_of meta recurse table cols = Ret al →
  leads table.(alias_path) al (paths_from table.(original) cols).
Proof.
  intros Hsub Hrec. revert al Hsub. induction cols as [|col cols IH]; intros al Hsub; cbn [joins_of].
  { intros [= <-] p t'. split; [by intros [? ?%elem_of_nil]|]. by intros (q & _ & col & ?%elem_of_nil & _). }
  assert (cols ⊆ table.(original).(c)) as Hsub' by set_solver.
  assert (col ∈ table.(original).(c)) as Hcol by set_solver.
  destruct col.(foreign_keys) as [|fk [|fk2 fks]] eqn:Hfk; [| |done].
  - intros Hal. specialize (IH al Hsub' Hal). intros p t'. rewrite (IH p t').
    split; intros (q & -> & col' & Hin & Hq); exists q; (split; [done|]); exists col'; split; try done; [by right|].
    apply elem_of_cons in Hin as [-> |Hin]; [|done].
    destruct Hq as [(_ & _ & fk & ? & _)|(? & ? & _ & (_ & fk & ? & _) & _)]; congruence.
  - destruct (dget meta.(tables) fk.(fk_table)) as [t|] eqn:Ht; [|done].
    assert (references table.(original) col t) as Href by (split; eauto).
    assert (∀ t1, references table.(original) col t1 → t1 = t) as Huniq.
    { intros t1 (_ & fk' & Hfk' & Ht1). congruence. }
    intros (deeper & Hdeep & (rest & Hrest & [= <-])%outcome_bind_Ret)%outcome_bind_Ret.
    specialize (IH rest Hsub' Hrest). intros p t'. setoid_rewrite elem_of_cons. setoid_rewrite elem_of_app.
    assert ((∃ col', (col', mkRef p t') ∈ deeper) ↔ ∃ q', p = table.(alias_path) ++ col.(c_name) :: q' ∧
      t.(t_name) ≠ table.(original).(t_name) ∧ fk_path t q' t') as Hd.
    { destruct (String.eqb_spec t.(t_name) table.(original).(t_name)) as [He|Hne].
      - injection Hdeep as <-. split; [by intros [? ?%elem_of_nil]|naive_solver].
      - rewrite (Hrec col t deeper Href Hne Hdeep p t'). setoid_rewrite <-(assoc_L app). naive_solver. }
    specialize (IH p t'). split.
    + intros (col' & [[= _ -> ->]|[Hin|Hin]]).
      * exists [col.(c_name)]. split; [done|]. exists col. split; [by left|]. by left.
      * destruct (proj1 Hd (ex_intro _ col' Hin)) as (q' & -> & Hne & Hq). exists (col.(c_name) :: q').
        split; [done|]. exists col. split; [by left|]. right. by exists t, q'.
      * destruct (proj1 IH (ex_intro _ col' Hin)) as (q & -> & col0 & Hc0 & Hq). exists q.
        split; [done|]. exists col0. split; [by right|done].
    + intros (q & -> & col0 & [-> |Hc0]%elem_of_cons & Hq).
      * destruct Hq as [[-> Hr]|(t1 & q' & -> & Hr & Hne & Hq)].
        -- rewrite (Huniq _ Hr). eexists. by left.
        -- rewrite (Huniq _ Hr) in Hne, Hq. destruct (proj2 Hd) as [col' Hin]; [by exists q'|].
           exists col'. right. by left.
      * destruct (proj2 IH) as [col' Hin]; [exists q; split; [done|]; by exists col0|]. exists col'. right. by right.
Qed.

Lemma joins_paths fuel table al :
  get_queryset_joins meta fuel table = Ret al →
  leads table.(alias_path) al (fk_path table.(original)).
Proof.
  revert table al. induction fuel as [|fuel IH]; intros table al; [done|]. cbn [get_queryset_joins].
  intros Hal. assert (leads table.(alias_path) al (paths_from table.(original) table.(original).(c))) as Hl.
  { eapply joins_of_spec; [done| |done]. intros col t' al' _ _ Hr. exact (IH _ _ Hr). }
  intros p t'. rewrite (Hl p t'). by setoid_rewrite fk_path_from.
Qed.

Lemma joins_of_total recurse table cols :
  schema_ok → dget meta.(tables) table.(original).(t_name) = Some table.(original) →
  cols ⊆ table.(original).(c) →
  (∀ col t', references table.(original) col t' → t'.(t_name) ≠ table.(original).(t_name) →
     ∃ al, recurse (mkRef (table.(alias_path) ++ [col.(c_name)]) t') = Ret al) →
  ∃ al, joins_of meta recurse table cols = Ret al.
Proof.
  intros Hok Htab Hsub Hrec. induction cols as [|col cols IH]; cbn [joins_of]; [eauto|].
  destruct IH as [rest Hrest]; [set_solver|].
  destruct (single_fk Hok _ _ col Htab) as [->|(fk & t & Hfk & Ht)]; [set_solver|eauto|].
  rewrite Hfk, Ht. assert (references table.(original) col t) as Href by (split; [set_solver|eauto]).
  destruct (String.eqb_spec t.(t_name) table.(original).(t_name)) as [He|Hne].
  - cbn. rewrite Hrest. cbn. eauto.
  - destruct (Hrec col t Href Hne) as [al ->]. cbn. rewrite Hrest. cbn. eauto.
Qed.

Lemma joins_total rank fuel table :
  schema_ok → ranked rank → dget meta.(tables) table.(original).(t_name) = Some table.(original) →
  rank table.(original).(t_name) < fuel → ∃ al, get_queryset_joins meta fuel table = Ret al.
Proof.
  intros Hok Hrank. revert table. induction fuel as [|fuel IH]; intros table Htab Hlt; [lia|].
  cbn [get_queryset_joins]. apply joins_of_total; [done|done|done|].
  intros col t' Href Hne. apply IH; cbn.
  - destruct Href as (_ & fk & _ & Ht). by rewrite (named Hok _ _ Ht).
  - pose proof (Hrank _ _ _ Htab Href Hne). lia.
Qed.

(** The recursion goes as deep as the longest chain, so on a cycle it runs into
    the recursion limit. *)
Lemma joins_depth fuel table al q t' :
  get_queryset_joins meta fuel table = Ret al → fk_path table.(original) q t' → length q ≤ fuel.
Proof.
  intros Hal Hq. revert fuel table al Hal Hq. induction q as [|x q IH]; intros fuel table al Hal Hq; [cbn; lia|].
  destruct fuel as [|fuel]; [done|]. cbn [length]. apply le_n_S.
  inversion Hq as [? col t1 Href|? col t1 p t2 Href Hne Hp]; subst; [cbn; lia|].
  cbn [get_queryset_joins] in Hal.
  assert (∀ cols al, joins_of meta (get_queryset_joins meta fuel) table cols = Ret al → col ∈ cols →
    ∃ al', get_queryset_joins meta fuel (mkRef (table.(alias_path) ++ [col.(c_name)]) t1) = Ret al') as Hin.
  { clear Hal al. intros cols. induction cols as [|col0 cols IHc]; intros al Hal Hin; [by apply elem_of_nil in Hin|].
    cbn [joins_of] in Hal. apply elem_of_cons in Hin as [<- |Hin].
    - destruct Href as (_ & fk & Hfk & Ht). rewrite Hfk, Ht in Hal.
      destruct (String.eqb_spec t1.(t_name) table.(original).(t_name)); [done|].
      apply outcome_bind_Ret in Hal as (al' & Hal' & _). eauto.
    - destruct col0.(foreign_keys) as [|fk [|]]; [eauto| |done].
      destruct (dget _ _); [|done].
      apply outcome_bind_Ret in Hal as (? & _ & (rest & Hrest & _)%outcome_bind_Ret). eauto. }
  destruct (Hin _ _ Hal (proj1 Href)) as [al' Hal'].
  exact (IH fuel (mkRef _ t1) al' Hal' Hp).
Qed.
End joins.

(** C26. On a schema whose references to other tables decrease a rank,
    [_get_queryset_joins] returns once the recursion limit exceeds the rank of the
    table, and the aliases it makes are the chains of foreign keys, each followed
    to the table it ends in and stopped at a reference of a table to itself. *)
Theorem joins_terminate meta rank fuel t :
  schema_ok meta → ranked meta rank → dget meta.(tables) t.(t_name) = Some t →
  rank t.(t_name) < fuel →
  ∃ al, get_queryset_joins meta fuel (mkRef [] t) = Ret al ∧
    ∀ p t', (∃ col, (col, mkRef p t') ∈ al) ↔ fk_path meta t p t'.
Proof.
  intros Hok Hrank Ht Hlt. destruct (joins_total meta rank fuel (mkRef [] t) Hok Hrank Ht Hlt) as [al Hal].
  exists al. split; [done|]. intros p t'. rewrite (joins_paths meta fuel (mkRef [] t) al Hal p t').
  cbn. naive_solver.
Qed.

(** ** The schema of the middleware

    The tables of the plugins' models that have foreign keys or are referenced,
    with those keys and a primary key. *)

Definition model_keys : list (string * list (string * string * string * option string)) :=
  [
("account_bsdusers", [("bsdusr_group_id", "account_bsdgroups", "id", None)]);
   ("account_bsdgroupmembership", [("bsdgrpmember_group_id", "account_bsdgroups", "id", Some "CASCADE");
      ("bsdgrpmember_user_id", "account_bsdusers", "id", Some "CASCADE")]);
   ("system_acmeregistrationbody", [("acme_id", "system_acmeregistration", "id", None)]);
   ("directoryservice_activedirectory", [("ad_kerberos_realm_id", "directoryservice_kerberosrealm", "id", Some "SET NULL")]);
   ("tasks_cloudsync", [("credential_id", "system_cloudcredentials", "id", None)]);
   ("system_certificate", [("cert_signedby_id", "system_certificateauthority", "id", None);
      ("cert_acme_id", "system_acmeregistration", "id", None)]);
   ("system_certificateauthority", [("cert_signedby_id", "system_certificateauthority", "id", None)]);
   ("services_ftp", [("ftp_ssltls_certificate_id", "system_certificate", "id", None)]);
   ("directoryservice_idmap_domain", [("idmap_domain_certificate_id", "system_certificate", "id", None)]);
   ("services_iscsitargetportalip", [("iscsi_target_portalip_portal_id", "services_iscsitargetportal", "id", None)]);
   ("services_iscsitargetgroups", [("iscsi_target_id", "services_iscsitarget", "id", None);
      ("iscsi_target_portalgroup_id", "services_iscsitargetportal", "id", None);
      ("iscsi_target_initiatorgroup_id", "services_iscsitargetauthorizedinitiator", "id", Some "SET NULL")]);
   ("services_iscsitargettoextent", [("iscsi_extent_id", "services_iscsitargetextent", "id", None);
      ("iscsi_target_id", "services_iscsitarget", "id", None)]);
   ("directoryservice_ldap", [("ldap_certificate_id", "system_certificate", "id", None);
      ("ldap_kerberos_realm_id", "directoryservice_kerberosrealm", "id", None)]);
   ("network_alias", [("alias_interface_id", "network_interfaces", "id", Some "CASCADE")]);
   ("network_bridge", [("interface_id", "network_interfaces", "id", Some "CASCADE")]);
   ("network_lagginterface", [("lagg_interface_id", "network_interfaces", "id", None)]);
   ("network_lagginterfacemembers", [("lagg_interfacegroup_id", "network_lagginterface", "id", Some "CASCADE")]);
   ("storage_encrypteddisk", [("encrypted_volume_id", "storage_volume", "id", Some "CASCADE");
      ("encrypted_disk_id", "storage_disk", "disk_identifier", Some "SET NULL")]);
   ("storage_scrub", [("scrub_volume_id", "storage_volume", "id", Some "CASCADE")]);
   ("storage_replication", [("repl_ssh_credentials_id", "system_keychaincredential", "id", None)]);
   ("storage_replication_repl_periodic_snapshot_tasks", [("replication_id", "storage_replication", "id", Some "CASCADE");
      ("task_id", "storage_task", "id", Some "CASCADE")]);
   ("tasks_smarttest_smarttest_disks", [("smarttest_id", "tasks_smarttest", "id", Some "CASCADE");
      ("disk_id", "storage_disk", "disk_identifier", Some "CASCADE")]);
   ("system_advanced", [("adv_syslog_tls_certificate_id", "system_certificate", "id", None);
      ("adv_syslog_tls_certificate_authority_id", "system_certificateauthority", "id", None)]);
   ("system_settings", [("stg_guicertificate_id", "system_certificate", "id", None)]);
   ("vm_device", [("vm_id", "vm_vm", "id", None)]);
   ("services_openvpnserver", [("server_certificate_id", "system_certificate", "id", None);
      ("root_ca_id", "system_certificateauthority", "id", None)]);
   ("services_openvpnclient", [("client_certificate_id", "system_certificate", "id", None);
      ("root_ca_id", "system_certificateauthority", "id", None)]);
   ("services_webdav", [("webdav_certssl_id", "system_certificate", "id", None)]);
   ("account_bsdgroups", []);
   ("system_acmeregistration", []);
   ("directoryservice_kerberosrealm", []);
   ("system_cloudcredentials", []);
   ("services_iscsitargetportal", []);
   ("services_iscsitarget", []);
   ("services_iscsitargetauthorizedinitiator", []);
   ("services_iscsitargetextent", []);
   ("network_interfaces", []);
   ("storage_volume", []);
   ("storage_disk", []);
   ("system_keychaincredential", []);
   ("storage_task", []);
   ("tasks_smarttest", []);
   ("vm_vm", [])].

Definition model_table (k : string) (fks : list (string * string * string * option string)) : Table :=
  mkTable k (mkColumn (if String.eqb k "storage_disk" then "disk_identifier" else "id") true [] false None Integer ::
    ((λ '(col, t, tc, od), mkColumn col false [mkFK t tc od] true None Integer) <$> fks)).

Definition model_metadata : Metadata :=
  mkMeta ((λ kv, (kv.1, model_table kv.1 kv.2)) <$> model_keys) [].

(** The length of the longest chain from a table. *)
Definition model_rank (k : string) : nat :=
  if bool_decide (k ∈ ["tasks_smarttest_smarttest_disks"; "system_advanced"; "system_settings"; "services_openvpnserver";
    "services_openvpnclient"; "directoryservice_ldap"; "services_ftp"; "services_webdav"; "account_bsdgroupmembership";
    "storage_replication_repl_periodic_snapshot_tasks"; "directoryservice_idmap_domain";
    "network_lagginterfacemembers"]) then 2
  else if bool_decide (k ∈ ["system_certificateauthority"; "system_acmeregistration"; "storage_volume"; "storage_disk"]) then 0
  else if bool_decide (k ∈ dkeys (List.filter (λ kv, negb (bool_decide (kv.2 = []))) model_keys)) then 1 else 0.

(** [schema_ok] and [ranked], decided. *)
Definition schema_okb (meta : Metadata) : bool :=
  bool_decide (NoDup (dkeys meta.(tables))) &&
  forallb (λ kv, String.eqb kv.2.(t_name) kv.1 &&
    forallb (λ col, match col.(foreign_keys) with
                    | [] => true
                    | [fk] => dhas meta.(tables) fk.(fk_table)
                    | _ => false
                    end) kv.2.(c)) meta.(tables).

Definition rankedb (meta : Metadata) (rank : string → nat) : bool :=
  forallb (λ kv, forallb (λ col, forallb (λ fk,
    match dget meta.(tables) fk.(fk_table) with
    | Some t' => String.eqb t'.(t_name) kv.2.(t_name) || (rank t'.(t_name) <? rank kv.2.(t_name))
    | None => true
    end) col.(foreign_keys)) kv.2.(c)) meta.(tables).

Lemma schema_okb_spec meta : schema_okb meta = true → schema_ok meta.
Proof.
  intros [_ Hall]%andb_true_iff. split.
  - intros k t Ht%dget_elem_of. apply (forallb_elem _ _ _ Hall), andb_true_iff in Ht as [Hn _].
    by apply String.eqb_eq in Hn.
  - intros k t col Ht%dget_elem_of Hcol. apply (forallb_elem _ _ _ Hall), andb_true_iff in Ht as [_ Hc].
    apply (forallb_elem _ _ _ Hc) in Hcol. destruct col.(foreign_keys) as [|fk [|]]; [by left| |done].
    right. unfold dhas in Hcol. destruct (dget _ _) eqn:Ht'; [eauto|done].
Qed.

Lemma rankedb_spec meta rank : rankedb meta rank = true → ranked meta rank.
Proof.
  intros Hall t col t' Ht%dget_elem_of (Hcol & fk & Hfk & Ht') Hne.
  apply (forallb_elem _ _ _ Hall) in Ht. apply (forallb_elem _ _ _ Ht) in Hcol.
  rewrite Hfk in Hcol. cbn in Hcol. rewrite Ht', andb_true_r in Hcol.
  apply orb_true_iff in Hcol as [?%String.eqb_eq|?%Nat.ltb_lt]; done.
Qed.

(** ** Witnesses *)

Definition demo_table : Table :=
  mkTable "storage_disk" [mkColumn "disk_identifier" true [] false None SaString;
                          mkColumn "disk_expiretime" false [] true None Other;
                          mkColumn "disk_name" false [] false None SaString].

Definition demo_order : list OrderExpr :=
  [NullsLast (OrdDesc (mkColRef [] (mkColumn "disk_expiretime" false [] true None Other)));
   OrdCol (mkColRef [] (mkColumn "disk_name" false [] false None SaString))].

Lemma order_by_rewriting_witness :
  mapO (order_expr (mkRef [] demo_table) "disk_") ["nulls_last:-expiretime"; "name"] = Ret demo_order ∧
  ∃ es', expand_nulls 3 demo_order = Some es' ∧ forallb settled es' = true ∧
    ∀ r1 r2, order_cmp (λ _ _ _, Eq) (λ _ _, false) es' r1 r2 = order_cmp (λ _ _ _, Eq) (λ _ _, false) demo_order r1 r2.
Proof.
  split; [reflexivity|].
  apply (order_by_rewriting (λ _ _ _, Eq) (λ _ _, false) (mkRef [] demo_table) "disk_"
    ["nulls_last:-expiretime"; "name"] demo_order). reflexivity.
Defined.

Definition system_advanced : Table :=
  default (mkTable "" []) (dget model_metadata.(tables) "system_advanced").

Lemma joins_terminate_witness :
  model_rank "system_advanced" = 2 ∧
  ∃ al, get_queryset_joins model_metadata 3 (mkRef [] system_advanced) = Ret al ∧
    ∀ p t', (∃ col, (col, mkRef p t') ∈ al) ↔ fk_path model_metadata system_advanced p t'.
Proof.
  split; [reflexivity|].
  apply (joins_terminate model_metadata model_rank 3 system_advanced).
  - apply schema_okb_spec. vm_compute. reflexivity.
  - apply rankedb_spec. vm_compute. reflexivity.
  - vm_compute. reflexivity.
  - vm_compute. lia.
Defined.

(** No table of the middleware needs more than three nested calls. *)
Example model_joins_depth :
  forallb (λ kv, is_ret (get_queryset_joins model_metadata 3 (mkRef [] kv.2))) model_metadata.(tables) = true.
Proof. vm_compute. reflexivity. Qed.
