(* ===== verification/DatastoreFacts.v ===== *)
(** * SQL filters and [filter_list]

    A service that has no [extend] method lets the database apply the filters of
    a query, one that has filters the rows in Python.  The two agree on the
    operators they share, on rows whose values can be compared: the laws of SQL
    this rests on are [sql_laws]. *)

From S2P Require Import Prelude PyValue Filter FilterFacts Datastore.

(** ** The filters of both languages *)

(** Values that SQL and Python compare alike. *)
Definition same_kind (x y : pyval) : bool :=
  match x, y with
  | PInt _, PInt _ | PStr _, PStr _ | PBool _, PBool _ => true
  | _, _ => false
  end.

Definition scalar (v : pyval) : bool :=
  match v with PList _ | PDict _ => false | _ => true end.

Definition orderable (v : pyval) : bool :=
  match v with PInt _ | PStr _ => true | _ => false end.

(** The operators that both languages have and give the same meaning. *)
Inductive CommonOp : Type := OpEq | OpNe | OpGt | OpGe | OpLt | OpLe | OpIn | OpNin.

Definition op_text (op : CommonOp) : string :=
  match op with
  | OpEq => "=" | OpNe => "!=" | OpGt => ">" | OpGe => ">=" | OpLt => "<" | OpLe => "<="
  | OpIn => "in" | OpNin => "nin"
  end.

(** A filter [[name, op, value]]. *)
Record Cond : Type := mkCond { cd_name : string; cd_op : CommonOp; cd_value : pyval }.

Definition cond_filter (f : Cond) : pyval := PList [PStr f.(cd_name); PStr (op_text f.(cd_op)); f.(cd_value)].

(** An operator with a value it takes. *)
Definition shape_ok (op : CommonOp) (v : pyval) : bool :=
  match op with
  | OpEq | OpNe => scalar v
  | OpGt | OpGe | OpLt | OpLe => orderable v
  | OpIn | OpNin => match v with PList vs => forallb scalar vs | _ => false end
  end.

(** The cell [x] and the value [v] are ones on which SQL and Python agree.  A null
    cell is neither equal nor unequal to a value in SQL, while Python's [!=] holds
    of it. *)
Definition common (op : CommonOp) (x v : pyval) : bool :=
  match op, v with
  | OpEq, _ => is_none x || is_none v || same_kind x v
  | OpNe, _ => is_none v || same_kind x v
  | OpIn, PList vs => is_none x || forallb (λ w, is_none w || same_kind x w) vs
  | OpNin, PList vs => if is_none x then existsb is_none vs
                       else forallb (λ w, is_none w || same_kind x w) vs
  | (OpIn | OpNin), _ => false
  | _, _ => same_kind x v
  end.

(** [x op v] in SQL, for values of the same kind. *)
Definition bin_holds (op : SqlOp) (x v : pyval) : bool :=
  match op, py_compare x v with
  | SqlEq, _ => py_eq x v
  | SqlNe, _ => negb (py_eq x v)
  | SqlLt, Some Lt | SqlLe, Some (Lt | Eq) | SqlGt, Some Gt | SqlGe, Some (Gt | Eq) => true
  | _, _ => false
  end.

(** Expressions that SQLAlchemy takes. *)
Fixpoint supported (e : SqlExpr) : bool :=
  match e with
  | SqlBin (SqlEq | SqlNe) _ v => scalar v
  | SqlBin (SqlLt | SqlLe | SqlGt | SqlGe) _ v => orderable v
  | SqlBin _ _ _ => false
  | SqlIn _ vs => forallb (λ v, scalar v && negb (is_none v)) vs
  | SqlNot e => supported e
  | SqlOr e1 e2 | SqlAnd e1 e2 => supported e1 && supported e2
  | SqlIsNull _ | SqlNotNull _ | SqlNull => true
  end.

(** Three-valued logic. *)
Definition or3 (a b : option bool) : option bool :=
  match a, b with
  | Some true, _ | _, Some true => Some true
  | Some false, Some false => Some false
  | _, _ => None
  end.

Definition and3 (a b : option bool) : option bool :=
  match a, b with
  | Some false, _ | _, Some false => Some false
  | Some true, Some true => Some true
  | _, _ => None
  end.

Section laws.
Context {D : Type} `{!Database D}.

(** A column whose values are stored as they are: the type has no processor of its own
    between Python and the database. *)
Definition as_is (col : ColRef) : bool :=
  match col.(column).(c_type) with Integer | SaString | SaBoolean => true | Other => false end.

(** What the code relies on: the rows of a table, the truth of an expression on a
    row, and that a [WHERE] selects the rows on which every expression is true.  Nothing is
    said of conditions on columns whose type converts its values: an [EncryptedText]
    column encrypts the value with a fresh nonce, and equals nothing. *)
Record sql_laws (rows : D → Table → list Row) (truth : SqlExpr → Row → option bool) : Prop := {
  law_where d t ws : forallb supported ws = true →
    fetchall (mkQuery t [] ws [] 0 0) d =
      Ret (List.filter (λ r, forallb (λ e, bool_decide (truth e r = Some true)) ws) (rows d t));
  law_bin op col v r x : obj_get r col = Ret x → as_is col = true → op ≠ SqlRegexp → op ≠ SqlStartswith → op ≠ SqlEndswith →
    same_kind x v = true → truth (SqlBin op col v) r = Some (bin_holds op x v);
  law_eq_none col r x : obj_get r col = Ret x → as_is col = true → truth (SqlBin SqlEq col PNone) r = Some (is_none x);
  law_ne_none col r x : obj_get r col = Ret x → as_is col = true → truth (SqlBin SqlNe col PNone) r = Some (negb (is_none x));
  law_null_eq col v r : obj_get r col = Ret PNone → as_is col = true → v ≠ PNone → truth (SqlBin SqlEq col v) r = None;
  law_in col vs r x : obj_get r col = Ret x → as_is col = true → x ≠ PNone → forallb (same_kind x) vs = true →
    truth (SqlIn col vs) r = Some (existsb (py_eq x) vs);
  law_in_null col vs r : obj_get r col = Ret PNone → as_is col = true → truth (SqlIn col vs) r ≠ Some true;
  law_is_null col r x : obj_get r col = Ret x → as_is col = true → truth (SqlIsNull col) r = Some (is_none x);
  law_not_null col r x : obj_get r col = Ret x → as_is col = true → truth (SqlNotNull col) r = Some (negb (is_none x));
  law_not e r : truth (SqlNot e) r = negb <$> truth e r;
  law_or e1 e2 r : truth (SqlOr e1 e2) r = or3 (truth e1 r) (truth e2 r);
  law_and e1 e2 r : truth (SqlAnd e1 e2) r = and3 (truth e1 r) (truth e2 r);
  law_null r : truth SqlNull r = None;
}.
End laws.

(** ** One filter *)

Definition non_null (vs : list pyval) : list pyval := List.filter (λ v, negb (is_none v)) vs.

(** The expression of a filter. *)
Definition sql_expr (col : ColRef) (op : CommonOp) (v : pyval) : SqlExpr :=
  match op, v with
  | OpEq, _ => SqlBin SqlEq col v
  | OpNe, _ => SqlBin SqlNe col v
  | OpGt, _ => SqlBin SqlGt col v
  | OpGe, _ => SqlBin SqlGe col v
  | OpLt, _ => SqlBin SqlLt col v
  | OpLe, _ => SqlBin SqlLe col v
  | OpIn, PList vs =>
      if existsb (py_eq PNone) vs then SqlOr (SqlIn col (non_null vs)) (SqlIsNull col)
      else SqlIn col (non_null vs)
  | OpNin, PList vs =>
      if existsb (py_eq PNone) vs then SqlAnd (SqlNot (SqlIn col (non_null vs))) (SqlNotNull col)
      else SqlNot (SqlIn col (non_null vs))
  | _, _ => SqlNull
  end.

(** What [filterop] answers on a cell. *)
Definition py_holds (op : CommonOp) (x v : pyval) : bool :=
  match op, v with
  | OpIn, PList vs => existsb (py_eq x) vs
  | OpNin, PList vs => negb (existsb (py_eq x) vs)
  | OpEq, _ => bin_holds SqlEq x v
  | OpNe, _ => bin_holds SqlNe x v
  | OpGt, _ => bin_holds SqlGt x v
  | OpGe, _ => bin_holds SqlGe x v
  | OpLt, _ => bin_holds SqlLt x v
  | OpLe, _ => bin_holds SqlLe x v
  | _, _ => false
  end.

Lemma py_compare_swap x v :
  same_kind x v = true →
  py_compare v x = match py_compare x v with
                   | Some o => Some (CompOpp o) | None => None end.
Proof.
  destruct x, v; try done; intros _; cbn.
  - by rewrite Z.compare_antisym.
  - by rewrite Z.compare_antisym.
  - by rewrite String.compare_antisym.
Qed.

Lemma some_true (b : bool) : Some b = Some true ↔ b = true.
Proof. split; [by intros [= ->]|by intros ->]. Qed.

Lemma py_eq_none_l v : py_eq PNone v = is_none v.
Proof. by destruct v. Qed.

Lemma existsb_eq_none vs : existsb (py_eq PNone) vs = existsb is_none vs.
Proof. induction vs as [|v vs IH]; [done|]. cbn [existsb]. by rewrite py_eq_none_l, IH. Qed.

Lemma existsb_non_null x vs :
  x ≠ PNone → existsb (py_eq x) (non_null vs) = existsb (py_eq x) vs.
Proof.
  intros Hx. induction vs as [|v vs IH]; [done|]. unfold non_null in *. cbn [List.filter existsb].
  destruct v; cbn [is_none negb existsb]; rewrite IH; try done. by destruct x.
Qed.

Lemma forallb_non_null x vs :
  forallb (λ w, is_none w || same_kind x w) vs = true → forallb (same_kind x) (non_null vs) = true.
Proof.
  induction vs as [|v vs IH]; [done|]. unfold non_null in *. cbn [List.filter forallb].
  intros [Hv Hvs]%andb_true_iff. destruct (is_none v); cbn in *; [auto|]. rewrite Hv; auto.
Qed.

Section one_filter.
Context {D : Type} `{!Database D} (rows : D → Table → list Row) (truth : SqlExpr → Row → option bool).
Context (laws : sql_laws rows truth).
Context (re_match : pyval → pyval → outcome exn bool) (getattr : pyval → pyval → outcome exn pyval).

(** SQL and Python give a filter the same answer on a cell. *)
Lemma sql_expr_truth col op v r x :
  obj_get r col = Ret x → as_is col = true → shape_ok op v = true → common op x v = true →
  truth (sql_expr col op v) r = Some true ↔ py_holds op x v = true.
Proof using laws.
  intros Hx Ha Hshape Hc.
  assert (∀ o, o ≠ SqlRegexp → o ≠ SqlStartswith → o ≠ SqlEndswith → same_kind x v = true →
    truth (SqlBin o col v) r = Some true ↔ bin_holds o x v = true) as Hbin.
  { intros o H1 H2 H3 Hk. rewrite (law_bin _ _ laws o col v r x) by done. apply some_true. }
  destruct op; cbn [sql_expr py_holds common] in *; try (by apply Hbin).
  - destruct (decide (v = PNone)) as [->|Hv].
    { rewrite (law_eq_none _ _ laws col r x Hx Ha), some_true. by destruct x. }
    destruct (decide (x = PNone)) as [->|Hxn].
    { rewrite (law_null_eq _ _ laws col v r Hx Ha Hv). by destruct v. }
    apply Hbin; try done. by destruct x, v.
  - destruct (decide (v = PNone)) as [->|Hv].
    { rewrite (law_ne_none _ _ laws col r x Hx Ha), some_true. by destruct x. }
    apply Hbin; try done. by destruct v.
  - destruct v as [| | | |vs|]; try done.
    destruct (decide (x = PNone)) as [->|Hxn].
    + rewrite existsb_eq_none. pose proof (law_in_null _ _ laws col (non_null vs) r Hx Ha) as Hin.
      destruct (existsb is_none vs); [|done].
      rewrite (law_or _ _ laws), (law_is_null _ _ laws col r PNone Hx Ha). cbn.
      by destruct (truth _ r) as [[]|].
    + assert (truth (SqlIn col (non_null vs)) r = Some (existsb (py_eq x) vs)) as Hin.
      { rewrite (law_in _ _ laws col _ r x Hx Ha Hxn), existsb_non_null; [done|done|].
        apply forallb_non_null. by destruct x. }
      rewrite existsb_eq_none.
      destruct (existsb is_none vs); [|rewrite Hin; apply some_true].
      rewrite (law_or _ _ laws), (law_is_null _ _ laws col r x Hx Ha), Hin.
      assert (is_none x = false) as -> by by destruct x. by destruct (existsb (py_eq x) vs).
  - destruct v as [| | | |vs|]; try done.
    destruct (decide (x = PNone)) as [->|Hxn].
    + cbn in Hc. rewrite existsb_eq_none, Hc.
      rewrite (law_and _ _ laws), (law_not_null _ _ laws col r PNone Hx Ha). cbn.
      by destruct (truth _ r) as [[]|].
    + assert (truth (SqlIn col (non_null vs)) r = Some (existsb (py_eq x) vs)) as Hin.
      { rewrite (law_in _ _ laws col _ r x Hx Ha Hxn), existsb_non_null; [done|done|].
        apply forallb_non_null. by destruct x. }
      rewrite existsb_eq_none.
      assert (is_none x = false) as Hn by by destruct x.
      destruct (existsb is_none vs).
      * rewrite (law_and _ _ laws), (law_not _ _ laws), (law_not_null _ _ laws col r x Hx Ha), Hin, Hn.
        cbn. by destruct (existsb (py_eq x) vs).
      * rewrite (law_not _ _ laws), Hin. cbn. by destruct (existsb (py_eq x) vs).
Qed.

(** [filterop] on an item whose cell is [x]. *)
Lemma filterop_holds d f x :
  Filter.get (PDict d) f.(cd_name) = Ret x → shape_ok f.(cd_op) f.(cd_value) = true →
  common f.(cd_op) x f.(cd_value) = true →
  filterop re_match getattr (PDict d) (cond_filter f) = Ret (py_holds f.(cd_op) x f.(cd_value)).
Proof.
  destruct f as [n op v]. cbn [cd_name cd_op cd_value]. intros Hget Hshape Hc.
  unfold filterop, cond_filter. cbn [cd_name cd_op cd_value py_seq py_iter].
  unfold mbind, outcome_bind. destruct op; cbn [op_text find_op opmap get_val]; rewrite Hget;
    cbn [common py_holds] in *; try done.
  1-4: unfold py_lt, py_le; try rewrite py_compare_swap by done; destruct x, v; try done; cbn;
    try (by destruct (Z.compare _ _)); by destruct (String.compare _ _).
  all: by destruct v.
Qed.
End one_filter.

(** ** The items of a query without relationships *)

Definition cell (r : Row) (col : Column) : pyval :=
  match row_get r ([], col.(c_name)) with Ret v => v | Raise _ => PNone end.

(** Every column has a cell. *)
Definition complete (t : Table) (r : Row) : bool :=
  forallb (λ col, is_ret (row_get r ([], col.(c_name)))) t.(c).

Lemma cell_get r col : is_ret (row_get r ([], col.(c_name))) = true → row_get r ([], col.(c_name)) = Ret (cell r col).
Proof. unfold cell. by destruct (row_get _ _). Qed.

Definition item_of (t : Table) (prefix : string) (r : Row) : pydict :=
  (λ col, (strip_prefix col.(c_name) prefix, cell r col)) <$> t.(c).

(** The names the items have, without the prefix. *)
Definition item_names (t : Table) (prefix : string) : list string :=
  (λ col, strip_prefix col.(c_name) prefix) <$> t.(c).

Lemma dupdate_fresh {A} (d1 d2 : list (string * A)) :
  NoDup (dkeys (d1 ++ d2)) → dupdate d1 d2 = d1 ++ d2.
Proof.
  revert d1. induction d2 as [|[k v] d2 IH]; intros d1 Hnd; cbn; [by rewrite app_nil_r|].
  unfold dupdate in IH. unfold dkeys in Hnd. rewrite fmap_app in Hnd. csimpl in *.
  apply NoDup_app in Hnd as (Hn1 & Hdis & Hn2).
  rewrite dset_fresh, IH.
  - by rewrite <-(assoc_L app).
  - unfold dkeys. rewrite !fmap_app. csimpl. rewrite <-(assoc_L app). apply NoDup_app. split_and!; [done|set_solver|done].
  - intros Hk. apply (Hdis k Hk). by left.
Qed.

Lemma own_columns_plain r path t cols data :
  path = [] → forallb (λ col, is_ret (row_get r ([], col.(c_name)))) cols = true →
  own_columns r [] (mkRef path t) cols data =
    Ret (dupdate data ((λ col, (col.(c_name), cell r col)) <$> cols)).
Proof.
  intros ->. revert data. induction cols as [|col cols IH]; intros data; cbn [own_columns forallb]; [done|].
  intros [Hc Hcs]%andb_true_iff. rewrite (bool_decide_eq_true_2 ([] = [])), orb_true_r by done.
  cbn [alias_path]. rewrite cell_get by done. csimpl. by rewrite IH.
Qed.

Lemma drop_app p a b : PyStr.drop (String.length p) (p +:+ a) = PyStr.drop (String.length p) (p +:+ b) → a = b.
Proof. by induction p. Qed.

(** Names that are different without the prefix are different with it. *)
Lemma names_NoDup t prefix : NoDup (item_names t prefix) → NoDup (c_name <$> t.(c)).
Proof.
  unfold item_names.
  replace ((λ col, strip_prefix col.(c_name) prefix) <$> t.(c))
    with ((λ n, strip_prefix n prefix) <$> (c_name <$> t.(c))) by by rewrite <-list_fmap_compose.
  apply NoDup_fmap_1.
Qed.

Definition plain_options (prefix : string) : QueryOptions :=
  mkQO false None None prefix [] [] [] false false 0 0 true.

(** Options that leave rows, order and range alone. *)
Definition bare (opts : QueryOptions) : bool :=
  match opts with mkQO _ _ None _ _ [] [] false _ 0%Z 0%Z _ => true | _ => false end.

(** What the [extend] method, if there is one, makes of an item. *)
Definition extended {D} `{!Database D} (opts : QueryOptions) (it : pydict) : outcome exn pyval :=
  match opts.(extend) with None => Ret (PDict it) | Some method => call_method method [PDict it] end.

(** A table without foreign keys or many-to-many relationships. *)
Definition flat_table (meta : Metadata) (t : Table) : bool :=
  forallb (λ col, bool_decide (col.(foreign_keys) = [])) t.(c) &&
  bool_decide (dkeys <$> dget meta.(models) t.(t_name) = Some []) &&
  is_ret (get_pk (mkRef [] t)).

Section query_bare.
Context {D : Type} `{!Database D} (meta : Metadata) (limit_ : nat) (d : D).
Context (rows : D → Table → list Row) (truth : SqlExpr → Row → option bool).
Context (laws : sql_laws rows truth).

Lemma serialize_bare t opts context r :
  bare opts = true → 0 < limit_ → complete t r = true → NoDup (item_names t opts.(prefix)) →
  serialize limit_ [] t opts context r [] = extended opts (item_of t opts.(prefix) r).
Proof using D Database0.
  intros Hb Hl Hc Hnd. destruct limit_ as [|n]; [lia|].
  destruct opts as [rel ext [] pre ex [] [] [] g [] [] f]; try done.
  unfold serialize, extended. cbn [serialize_row].
  rewrite own_columns_plain by done. cbn -[dupdate] in *.
  rewrite (dupdate_fresh [] ((λ col, (col.(c_name), cell r col)) <$> t.(c))).
  - change (dupdate ([] ++ ?x) []) with x. rewrite <-list_fmap_compose.
    rewrite dupdate_fresh; [|unfold dkeys; cbn [app]; by rewrite <-list_fmap_compose].
    cbn [app]. change (_ <$> t.(c)) with (item_of t pre r).
    destruct ext as [method|]; [|done]. by destruct (call_method _ _).
  - unfold dkeys. cbn [app]. rewrite <-list_fmap_compose. by apply (names_NoDup t pre).
Qed.

Lemma queryset_bare t opts rs :
  bare opts = true → 0 < limit_ → forallb (complete t) rs = true → NoDup (item_names t opts.(prefix)) →
  queryset_serialize limit_ [] t opts rs ((λ _, []) <$> rs) =
    mapO (λ r, extended opts (item_of t opts.(prefix) r)) rs.
Proof using D Database0.
  intros Hb Hl Hrs Hnd. transitivity (mapO (λ rr : Row * pydict,
    serialize limit_ [] t opts PNone rr.1 rr.2) (zip rs ((λ _, []) <$> rs))).
  { unfold queryset_serialize. by destruct opts as [rel ext [] pre ex [] [] [] g [] [] f]. }
  induction rs as [|r rs IH]; [done|]. cbn [forallb] in Hrs.
  apply andb_true_iff in Hrs as [Hr Hrs]. csimpl. rewrite serialize_bare by done.
  by rewrite IH.
Qed.

Lemma mapO_fmap {E A B} (f : A → B) l : mapO (λ x, @Ret E B (f x)) l = Ret (f <$> l).
Proof. induction l as [|x l IH]; [done|]. cbn. by rewrite IH. Qed.

Lemma joins_of_flat recurse t cols :
  forallb (λ col, bool_decide (col.(foreign_keys) = [])) cols = true →
  joins_of meta recurse t cols = Ret [].
Proof.
  induction cols as [|col cols IH]; cbn; [done|].
  intros [Hc Hcs]%andb_true_iff. apply bool_decide_eq_true in Hc. rewrite Hc. auto.
Qed.

Lemma pk_values_complete t pk rs :
  get_pk (mkRef [] t) = Ret pk → forallb (complete t) rs = true →
  mapO (λ row, obj_get row pk) rs = Ret ((λ row, cell row pk.(column)) <$> rs).
Proof.
  unfold get_pk. cbn. destruct (List.filter primary_key t.(c)) as [|col cols] eqn:Hf; [done|].
  intros [= <-] Hrs. assert (In col (t.(c))) as Hin.
  { apply (filter_In primary_key). rewrite Hf. by left. }
  induction rs as [|r rs IH]; [done|]. cbn [forallb] in Hrs. apply andb_true_iff in Hrs as [Hr Hrs].
  cbn [mapO]. rewrite IH by done. unfold obj_get at 1. cbn [owner column].
  rewrite cell_get; [done|]. unfold complete in Hr. rewrite forallb_forall in Hr. auto.
Qed.

Lemma many_to_many_flat query t rs :
  flat_table meta t = true → forallb (complete t) rs = true →
  fetch_many_to_many meta query t rs = Ret ((λ _, []) <$> rs).
Proof using D Database0.
  unfold flat_table. rewrite !andb_true_iff, bool_decide_eq_true. intros [[_ Hm] Hpk] Hrs.
  unfold fetch_many_to_many. destruct (get_pk _) as [pk|] eqn:Hp; [|done].
  unfold mbind, outcome_bind. rewrite (pk_values_complete t pk rs Hp Hrs).
  destruct rs as [|r rs]; [done|]. cbn [fmap list_fmap]. unfold get_relationships.
  destruct (dget _ _) as [[|]|]; done.
Qed.

(** [options['get']]: the first item. *)
Definition pick (get : bool) (items : list pyval) : outcome exn pyval :=
  if get then match items with [] => Raise MatchNotFound | x :: _ => Ret x end else Ret (PList items).

(** A query for which the database applies the filters [ws]. *)
Lemma query_extended fuel name t opts filters ws :
  bare opts = true → (opts.(relationships) = true → flat_table meta t = true) →
  0 < fuel → 0 < limit_ → handle_removed_tables name opts.(get) = None → get_table meta name = Ret t →
  filters_to_queryset (mkRef [] t) opts.(prefix) [] filters = Ret ws → forallb supported ws = true →
  forallb (complete t) (rows d t) = true → NoDup (item_names t opts.(prefix)) →
  query meta limit_ d fuel name filters opts =
    mapO (λ r, extended opts (item_of t opts.(prefix) r))
      (List.filter (λ r, forallb (λ e, bool_decide (truth e r = Some true)) ws) (rows d t)) ≫= pick opts.(get).
Proof using laws.
  intros Hb Hflat Hf Hl Hstub Ht Hws Hsup Hrows Hnd. destruct fuel as [|fuel]; [lia|].
  cbn [query]. rewrite Hstub, Ht. unfold mbind at 1, outcome_bind at 1.
  assert (opts.(count) = false) as -> by by destruct opts as [? ? [] ? ? [] [] [] ? [] [] ?].
  assert ((if opts.(relationships) then get_queryset_joins meta limit_ (mkRef [] t) else Ret []) = Ret []) as ->.
  { destruct opts.(relationships); [|done]. specialize (Hflat eq_refl).
    destruct limit_ as [|n]; [lia|]. cbn [get_queryset_joins]. apply joins_of_flat.
    unfold flat_table in Hflat. rewrite !andb_true_iff in Hflat. apply Hflat. }
  unfold mbind at 1, outcome_bind at 1. rewrite Hws. unfold mbind at 1, outcome_bind at 1.
  set (rs := List.filter _ (rows d t)).
  assert (forallb (complete t) rs = true) as Hrs.
  { rewrite forallb_forall in *. intros r [Hr _]%filter_In. auto. }
  transitivity (rows ← fetchall (mkQuery t [] ws [] 0 0) d;
    rels ← (if opts.(relationships) then fetch_many_to_many meta (query meta limit_ d fuel) t rows
            else Ret ((λ _, []) <$> rows));
    result ← queryset_serialize limit_ [] t opts rows rels; pick opts.(get) result).
  { unfold run_query. by destruct opts as [? ? [] ? ? [] [] [] ? [] [] ?]. }
  rewrite (law_where _ _ laws) by done. unfold mbind at 1, outcome_bind at 1. fold rs.
  assert ((if opts.(relationships) then fetch_many_to_many meta (query meta limit_ d fuel) t rs
    else Ret ((λ _, []) <$> rs)) = Ret ((λ _, []) <$> rs)) as ->.
  { destruct opts.(relationships); [|done]. apply many_to_many_flat; auto. }
  unfold mbind at 1, outcome_bind at 1. by rewrite queryset_bare.
Qed.

Lemma query_bare fuel name t opts filters ws :
  bare opts = true → opts.(extend) = None → (opts.(relationships) = true → flat_table meta t = true) →
  0 < fuel → 0 < limit_ → handle_removed_tables name opts.(get) = None → get_table meta name = Ret t →
  filters_to_queryset (mkRef [] t) opts.(prefix) [] filters = Ret ws → forallb supported ws = true →
  forallb (complete t) (rows d t) = true → NoDup (item_names t opts.(prefix)) →
  query meta limit_ d fuel name filters opts =
    pick opts.(get) ((λ r, PDict (item_of t opts.(prefix) r)) <$>
      List.filter (λ r, forallb (λ e, bool_decide (truth e r = Some true)) ws) (rows d t)).
Proof using laws.
  intros Hb Hext Hflat Hf Hl Hstub Ht Hws Hsup Hrows Hnd.
  rewrite (query_extended fuel name t opts filters ws) by done.
  unfold extended. rewrite Hext. by rewrite mapO_fmap.
Qed.
End query_bare.

(** ** Names and clauses *)

(** A filter's name that means the same column to both languages: the one the
    items show under it. *)
Definition well_named (t : Table) (prefix n : string) : bool :=
  negb (String.eqb n "") && (PyStr.count dot n =? 0)%nat &&
  match split_dunder n, get_col (mkRef [] t) n prefix with
  | None, Ret col => String.eqb (strip_prefix col.(column).(c_name) prefix) n
  | _, _ => false
  end.

(** A conjunct: a condition, or an [OR] of some. *)
Inductive Conjunct : Type := One (f : Cond) | Any (fs : list Cond).

Definition conds (cl : Conjunct) : list Cond := match cl with One f => [f] | Any fs => fs end.

Definition conjunct_clause (cl : Conjunct) : clause :=
  match cl with One f => Atom (cond_filter f) | Any fs => Or (cond_filter <$> fs) end.

Definition conjunct_filters (q : list Conjunct) : list pyval := (λ cl, encode_clause (conjunct_clause cl)) <$> q.

(** The name and the value of a condition make sense for the table, the column stores
    its values as they are, and on every row the cell can be compared with the value. *)
Definition cond_ok (t : Table) (prefix : string) (rs : list Row) (f : Cond) : bool :=
  well_named t prefix f.(cd_name) && shape_ok f.(cd_op) f.(cd_value) &&
  match get_col (mkRef [] t) f.(cd_name) prefix with
  | Ret col => as_is col && forallb (λ r, common f.(cd_op) (cell r col.(column)) f.(cd_value)) rs
  | Raise _ => false
  end.

Lemma table_col_own t n col :
  table_col (mkRef [] t) n = Some col → col.(owner) = [] ∧ col.(column) ∈ t.(c).
Proof.
  unfold table_col. intros (x & Hx & ->)%fmap_Some. cbn. split; [done|].
  apply find_split in Hx as (l1 & l2 & Ht & _). cbn in Ht. rewrite Ht. set_solver.
Qed.

Lemma get_col_own t n prefix col :
  get_col (mkRef [] t) n prefix = Ret col → col.(owner) = [] ∧ col.(column) ∈ t.(c).
Proof.
  unfold get_col, get_col_by_django_name. intros Hc. repeat case_match; simplify_eq; eauto using table_col_own.
Qed.

Lemma get_simple obj n : n ≠ "" → PyStr.count dot n = 0 → Filter.get obj n = get_step obj n.
Proof.
  intros Hn Hd. unfold Filter.get.
  pose proof (get_loop_path (String.length n) obj [] n (Forall_nil_2 _) Hn) as Hp. cbn in Hp.
  rewrite escape_nodot in Hp by done. rewrite Hp; [by destruct (get_step obj n)|].
  destruct n; [done|cbn; lia].
Qed.

(** What a well-named condition resolves to. *)
Lemma cond_ok_spec t prefix rs f :
  cond_ok t prefix rs f = true → NoDup (item_names t prefix) →
  ∃ col, get_col (mkRef [] t) f.(cd_name) prefix = Ret (mkColRef [] col) ∧ col ∈ t.(c) ∧ as_is (mkColRef [] col) = true ∧
    split_dunder f.(cd_name) = None ∧ shape_ok f.(cd_op) f.(cd_value) = true ∧
    ∀ r, r ∈ rs → Filter.get (PDict (item_of t prefix r)) f.(cd_name) = Ret (cell r col) ∧
      common f.(cd_op) (cell r col) f.(cd_value) = true.
Proof.
  unfold cond_ok, well_named. rewrite !andb_true_iff. intros [[[[Hn Hdot] Hwn] Hshape] Hrows] Hnd.
  apply negb_true_iff, String.eqb_neq in Hn. apply Nat.eqb_eq in Hdot.
  destruct (split_dunder _); [done|]. destruct (get_col _ _ _) as [[own col]|] eqn:Hcol; [|done].
  cbn in *. apply get_col_own in Hcol as Hown. cbn in Hown. destruct Hown as [-> Hin].
  apply andb_true_iff in Hrows as [Has Hrows].
  apply String.eqb_eq in Hwn. exists col. split_and!; try done. intros r Hr.
  split; [|by apply (forallb_elem _ _ _ Hrows)].
  rewrite get_simple by done. cbn. rewrite (elem_of_dget _ _ (cell r col)); [done| |].
  - unfold dkeys, item_of. by rewrite <-list_fmap_compose.
  - rewrite <-Hwn. unfold item_of. apply list_elem_of_fmap. by exists col.
Qed.

(** ** The theorem *)

Definition cond_expr (t : Table) (prefix : string) (f : Cond) : SqlExpr :=
  match get_col (mkRef [] t) f.(cd_name) prefix with
  | Ret col => sql_expr col f.(cd_op) f.(cd_value)
  | Raise _ => SqlNull
  end.

Definition conjunct_expr (t : Table) (prefix : string) (cl : Conjunct) : SqlExpr :=
  match cl with One f => cond_expr t prefix f | Any fs => or_all (cond_expr t prefix <$> fs) end.

Lemma sql_expr_supported col op v : shape_ok op v = true → supported (sql_expr col op v) = true.
Proof.
  assert (∀ vs, forallb scalar vs = true →
    forallb (λ v, scalar v && negb (is_none v)) (non_null vs) = true) as Hvs.
  { intros vs. unfold non_null. induction vs as [|w vs IH]; [done|]. cbn.
    intros [Hw Hr]%andb_true_iff. destruct (is_none w) eqn:Hn; cbn; [auto|]. rewrite Hw, Hn. auto. }
  destruct op; cbn; try done; destruct v as [| | | |vs|]; try done; intros Hs;
    destruct (existsb _ vs); cbn; by rewrite Hvs.
Qed.

Lemma filter_to_cond t prefix rs f :
  cond_ok t prefix rs f = true → NoDup (item_names t prefix) →
  filter_to_expr (mkRef [] t) prefix [] (cond_filter f) = Ret (cond_expr t prefix f) ∧
  supported (cond_expr t prefix f) = true.
Proof.
  intros Hok Hnd. destruct (cond_ok_spec _ _ _ _ Hok Hnd) as (col & Hcol & _ & _ & Hd & Hshape & _).
  unfold cond_expr. rewrite Hcol. split; [|by apply sql_expr_supported].
  destruct f as [n op v]. unfold cond_filter. cbn [cd_name cd_op cd_value] in *.
  cbn [filter_to_expr filter_col]. rewrite Hd, Hcol. unfold mbind, outcome_bind.
  destruct op; cbn in *; try done; destruct v as [| | | |vs|]; try done.
Qed.

Lemma or_all_supported es : forallb supported es = true → supported (or_all es) = true.
Proof.
  destruct es as [|e es]; [done|]. cbn. intros [He Hes]%andb_true_iff.
  revert e He. induction es as [|e' es IH]; intros e He; [done|]. cbn in *.
  apply andb_true_iff in Hes as [He' Hes]. apply IH; [done|]. cbn. by rewrite He, He'.
Qed.

Lemma filter_to_conjunct t prefix rs cl :
  forallb (cond_ok t prefix rs) (conds cl) = true → NoDup (item_names t prefix) →
  filter_to_expr (mkRef [] t) prefix [] (encode_clause (conjunct_clause cl)) = Ret (conjunct_expr t prefix cl) ∧
  supported (conjunct_expr t prefix cl) = true.
Proof.
  intros Hok Hnd. destruct cl as [f|fs]; cbn [conds conjunct_clause encode_clause conjunct_expr] in *.
  - cbn in Hok. rewrite andb_true_r in Hok. eapply filter_to_cond; eauto.
  - assert (mapO (filter_to_expr (mkRef [] t) prefix []) (cond_filter <$> fs) = Ret (cond_expr t prefix <$> fs)
      ∧ forallb supported (cond_expr t prefix <$> fs) = true) as [Hm Hs].
    { induction fs as [|f fs IH]; [done|]. cbn [forallb] in Hok. apply andb_true_iff in Hok as [Hf Hfs].
      destruct (IH Hfs) as [H1 H2]. destruct (filter_to_cond _ _ _ _ Hf Hnd) as [H3 H4].
      rewrite !fmap_cons. cbn [mapO forallb]. rewrite H3, H4, H1, H2. done. }
    split; [|by apply or_all_supported].
    change (filter_to_expr (mkRef [] t) prefix [] (PList [PStr "OR"; PList (cond_filter <$> fs)]))
      with (or_all <$> mapO (filter_to_expr (mkRef [] t) prefix []) (cond_filter <$> fs)).
    by rewrite Hm.
Qed.

Section agreement.
Context {D : Type} `{!Database D} (meta : Metadata) (limit_ : nat) (d : D).
Context (rows : D → Table → list Row) (truth : SqlExpr → Row → option bool).
Context (laws : sql_laws rows truth).
Context (re_match : pyval → pyval → outcome exn bool) (getattr : pyval → pyval → outcome exn pyval).

(** The answer of Python's filter on an item. *)
Definition holds (i f : pyval) : bool :=
  match filterop re_match getattr i f with Ret b => b | Raise _ => false end.

Definition true_on (e : SqlExpr) (r : Row) : bool := bool_decide (truth e r = Some true).

(** The item [it] shows what the row does under the name of [f]. *)
Definition shows (t : Table) (prefix : string) (r : Row) (it : pydict) (f : Cond) : Prop :=
  Filter.get (PDict it) f.(cd_name) = Filter.get (PDict (item_of t prefix r)) f.(cd_name).

Lemma cond_agrees t prefix f r it :
  cond_ok t prefix (rows d t) f = true → NoDup (item_names t prefix) → r ∈ rows d t → complete t r = true →
  shows t prefix r it f →
  filterop re_match getattr (PDict it) (cond_filter f) = Ret (true_on (cond_expr t prefix f) r).
Proof using laws.
  intros Hok Hnd Hr Hc Hshow. destruct (cond_ok_spec _ _ _ _ Hok Hnd) as (col & Hcol & Hin & Has & Hd & Hshape & Hrow).
  destruct (Hrow r Hr) as [Hget Hcom].
  rewrite (filterop_holds re_match getattr _ f (cell r col)) by (unfold shows in Hshow; congruence). f_equal.
  unfold true_on, cond_expr. rewrite Hcol.
  assert (obj_get r (mkColRef [] col) = Ret (cell r col)) as Hcell.
  { apply cell_get. by apply (forallb_elem _ _ _ Hc). }
  pose proof (sql_expr_truth rows truth laws (mkColRef [] col) f.(cd_op) f.(cd_value) r _ Hcell Has Hshape Hcom) as Ht.
  destruct (py_holds _ _ _); case_bool_decide; naive_solver.
Qed.

Lemma or_all_true es r : true_on (or_all es) r = existsb (λ e, true_on e r) es.
Proof using laws.
  unfold true_on. destruct es as [|e es]; cbn [or_all existsb].
  { rewrite (law_null _ _ laws). done. }
  revert e. induction es as [|e' es IH]; intros e; cbn [foldl existsb]; [by rewrite orb_false_r|].
  rewrite IH, (law_or _ _ laws), orb_assoc. f_equal.
  by destruct (truth e r) as [[]|], (truth e' r) as [[]|].
Qed.

Lemma conjunct_agrees t prefix cl r it :
  forallb (cond_ok t prefix (rows d t)) (conds cl) = true → NoDup (item_names t prefix) →
  r ∈ rows d t → complete t r = true → Forall (shows t prefix r it) (conds cl) →
  (∀ f, f ∈ atoms (conjunct_clause cl) → filterop re_match getattr (PDict it) f = Ret (holds (PDict it) f)) ∧
  clause_holds holds (PDict it) (conjunct_clause cl) = true_on (conjunct_expr t prefix cl) r.
Proof using laws.
  intros Hok Hnd Hr Hc Hshow.
  assert (∀ f, f ∈ conds cl → filterop re_match getattr (PDict it) (cond_filter f) =
    Ret (true_on (cond_expr t prefix f) r)) as Hf.
  { intros f Hf. rewrite Forall_forall in Hshow. apply cond_agrees; [|done..|by apply Hshow].
    by apply (forallb_elem _ _ _ Hok). }
  assert (∀ f, f ∈ conds cl → holds (PDict it) (cond_filter f) = true_on (cond_expr t prefix f) r) as Hh.
  { intros f Hin. unfold holds. by rewrite Hf. }
  split.
  - assert (atoms (conjunct_clause cl) = cond_filter <$> conds cl) as -> by by destruct cl.
    intros f (g & -> & Hg)%list_elem_of_fmap. by rewrite Hf, Hh.
  - destruct cl as [f|fs]; cbn [conjunct_clause clause_holds conjunct_expr conds] in *.
    + apply Hh. by left.
    + rewrite or_all_true. clear Hok Hf Hshow. induction fs as [|f fs IH]; [done|].
      rewrite !fmap_cons. cbn [existsb]. rewrite (Hh f) by by left. f_equal. apply IH.
      intros g Hg. apply Hh. by right.
Qed.

Lemma filter_true {A} (l : list A) : List.filter (λ _, true) l = l.
Proof. induction l as [|x l IH]; [done|]. cbn. by rewrite IH. Qed.

Lemma filter_fmap_ext {A B} (f : A → B) (p : B → bool) (p' : A → bool) l :
  (∀ x, x ∈ l → p (f x) = p' x) → List.filter p (f <$> l) = f <$> List.filter p' l.
Proof.
  induction l as [|x l IH]; intros Hp; [done|]. rewrite fmap_cons. cbn [List.filter].
  rewrite Hp by by left. rewrite IH by (intros; apply Hp; by right). by destruct (p' x).
Qed.

Lemma mapO_id {E A} (f : A → outcome E A) l : (∀ x, f x = Ret x) → mapO f l = Ret l.
Proof. intros Hf. induction l as [|x l IH]; [done|]. cbn. by rewrite Hf, IH. Qed.

Lemma conjuncts_exprs t prefix rs q :
  forallb (λ cl, forallb (cond_ok t prefix rs) (conds cl)) q = true → NoDup (item_names t prefix) →
  filters_to_queryset (mkRef [] t) prefix [] (conjunct_filters q) = Ret (conjunct_expr t prefix <$> q) ∧
  forallb supported (conjunct_expr t prefix <$> q) = true.
Proof.
  intros Hq Hnd. unfold conjunct_filters, filters_to_queryset. induction q as [|cl q IH]; [done|].
  cbn [forallb] in Hq. apply andb_true_iff in Hq as [Hcl Hq]. destruct (IH Hq) as [H1 H2].
  destruct (filter_to_conjunct _ _ _ _ Hcl Hnd) as [H3 H4].
  rewrite !fmap_cons. cbn [mapO forallb]. rewrite H3, H4, H1, H2. done.
Qed.

Definition shows_all (t : Table) (prefix : string) (q : list Conjunct) (r : Row) (it : pydict) : Prop :=
  Forall (λ cl, Forall (shows t prefix r it) (conds cl)) q.

Lemma matches_agree t prefix q r it :
  forallb (λ cl, forallb (cond_ok t prefix (rows d t)) (conds cl)) q = true → NoDup (item_names t prefix) →
  r ∈ rows d t → complete t r = true → shows_all t prefix q r it →
  matches holds (conjunct_clause <$> q) (PDict it) = forallb (λ e, true_on e r) (conjunct_expr t prefix <$> q).
Proof using laws.
  intros Hq Hnd Hr Hc Hshow. unfold matches. induction Hshow as [|cl q Hcl0 Hshow IH]; [done|].
  cbn [forallb] in Hq. apply andb_true_iff in Hq as [Hcl Hq]. rewrite !fmap_cons. cbn [forallb].
  rewrite IH by done. f_equal. by apply (conjunct_agrees t prefix cl r it).
Qed.

(** [filter_list] on one item per row, which shows what the filters ask for. *)
Lemma filter_items (view : Row → pydict) t prefix q :
  forallb (complete t) (rows d t) = true → NoDup (item_names t prefix) →
  forallb (λ cl, forallb (cond_ok t prefix (rows d t)) (conds cl)) q = true →
  (∀ r, r ∈ rows d t → shows_all t prefix q r (view r)) →
  filter_list re_match getattr ((λ r, PDict (view r)) <$> rows d t) (conjunct_filters q) (mkOpts [] false false [] 0 0) =
  Ret (RList ((λ r, PDict (view r)) <$>
    List.filter (λ r, forallb (λ e, true_on e r) (conjunct_expr t prefix <$> q)) (rows d t))).
Proof using laws.
  intros Hrows Hnd Hq Hshow. set (it := λ r, PDict (view r)).
  assert (∀ r, r ∈ rows d t → complete t r = true) as Hcomp by (intros r; by apply forallb_elem).
  assert (applies re_match getattr holds (conjunct_clause <$> q) (it <$> rows d t)) as Happ.
  { intros i cl f (r & -> & Hr)%list_elem_of_fmap (cj & -> & Hcj)%list_elem_of_fmap Hin.
    apply (conjunct_agrees t prefix cj r (view r)); [by apply (forallb_elem _ _ _ Hq)|done|done|by apply Hcomp| |done].
    specialize (Hshow r Hr). unfold shows_all in Hshow. rewrite Forall_forall in Hshow. by apply Hshow. }
  unfold filter_list, conjunct_filters. destruct q as [|cl q].
  - cbn [fmap list_fmap forallb]. rewrite filter_true. cbn [Filter.select]. by rewrite mapO_id.
  - pose proof (filter_loop_all re_match getattr holds _ (mkOpts [] false false [] 0 0) _ Happ eq_refl eq_refl) as Hloop.
    rewrite <-list_fmap_compose in Hloop. unfold compose in Hloop.
    rewrite (filter_fmap_ext it _ (λ r, forallb (λ e, true_on e r) (conjunct_expr t prefix <$> cl :: q))) in Hloop
      by (intros r Hr; apply matches_agree; auto).
    rewrite fmap_cons in *. by rewrite Hloop.
Qed.

Lemma shows_self t prefix q r : shows_all t prefix q r (item_of t prefix r).
Proof. apply Forall_forall. intros cl _. by apply Forall_forall. Qed.

End agreement.
