(* ===== verification/DatastoreDemo.v ===== *)
(** * A database in memory

    Tables as lists of rows and SQL's three-valued logic on them: an instance of
    [Database] that satisfies [sql_laws], for queries of one table in its own
    order. *)

From S2P Require Import Prelude PyValue Filter FilterFacts Datastore DatastoreFacts.

Definition MemDB : Type := list (string * list Row).

Definition mem_rows (d : MemDB) (t : Table) : list Row := default [] (dget d t.(t_name)).

(** Truth of an expression on a row; comparisons with a null are unknown. *)
Fixpoint mem_truth (e : SqlExpr) (r : Row) : option bool :=
  let value col := match obj_get r col with Ret x => x | Raise _ => PNone end in
  match e with
  | SqlBin SqlEq col PNone => Some (is_none (value col))
  | SqlBin SqlNe col PNone => Some (negb (is_none (value col)))
  | SqlBin op col v => if is_none (value col) then None else Some (bin_holds op (value col) v)
  | SqlIn col vs => if is_none (value col) then None else Some (existsb (py_eq (value col)) vs)
  | SqlNot e => negb <$> mem_truth e r
  | SqlOr e1 e2 => or3 (mem_truth e1 r) (mem_truth e2 r)
  | SqlAnd e1 e2 => and3 (mem_truth e1 r) (mem_truth e2 r)
  | SqlIsNull col => Some (is_none (value col))
  | SqlNotNull col => Some (negb (is_none (value col)))
  | SqlNull => None
  end.

Definition mem_select (d : MemDB) (t : Table) (ws : list SqlExpr) : list Row :=
  List.filter (λ r, forallb (λ e, bool_decide (mem_truth e r = Some true)) ws) (mem_rows d t).

#[global] Instance mem_database : Database MemDB := {
  fetchall q d :=
    match q with
    | mkQuery t [] ws [] 0%Z 0%Z => Ret (mem_select d t ws)
    | _ => Raise (OtherError "not supported")
    end;
  fetch_count q d := Ret (Z.of_nat (length (mem_select d q.(q_table) q.(q_where))));
  call_method _ _ := Raise (OtherError "not supported");
  set_iter l := l;
}.

Lemma mem_laws : sql_laws mem_rows mem_truth.
Proof.
  split; try done.
  - intros op col v r x Hx H1 H2 H3 Hk. destruct op, x, v; try done; cbn; by rewrite Hx.
  - intros col r x Hx. cbn. by rewrite Hx.
  - intros col r x Hx. cbn. by rewrite Hx.
  - intros col v r Hx Hv. by destruct v; cbn; rewrite ?Hx.
  - intros col vs r x Hx Hn Hk. cbn. rewrite Hx. by destruct x.
  - intros col vs r Hx. cbn. by rewrite Hx.
  - intros col r x Hx. cbn. by rewrite Hx.
  - intros col r x Hx. cbn. by rewrite Hx.
Qed.

(** ** A table of users *)

Definition users_table : Table :=
  mkTable "account_bsdusers"
    [mkColumn "id" true [] false None Integer;
     mkColumn "bsdusr_username" false [] false None SaString;
     mkColumn "bsdusr_uid" false [] false None Integer;
     mkColumn "bsdusr_email" false [] true None SaString].

Definition demo_meta : Metadata :=
  mkMeta [("account_bsdusers", users_table)] [("account_bsdusers", [])].

Definition user_row (uid : Z) (name : string) (email : pyval) : Row :=
  [(([], "id"), PInt (uid + 1)); (([], "bsdusr_username"), PStr name);
   (([], "bsdusr_uid"), PInt uid); (([], "bsdusr_email"), email)].

Definition demo_db : MemDB :=
  [("account_bsdusers", [user_row 0 "root" (PStr "root@nas"); user_row 2 "operator" PNone; user_row 1000 "ann" PNone])].

(** [[["OR", [["username", "=", "root"], ["uid", ">=", 1000]]], ["email", "in", [None, "root@nas"]]]] *)
Definition demo_conjuncts : list Conjunct :=
  [Any [mkCond "username" OpEq (PStr "root"); mkCond "uid" OpGe (PInt 1000)];
   One (mkCond "email" OpIn (PList [PNone; PStr "root@nas"]))].


(** On a null cell [!=] separates the two: the row is not selected by the database
    and is kept by [filter_list]. *)
Example null_not_equal :
  query demo_meta 5 demo_db 5 "account.bsdusers" [PList [PStr "email"; PStr "!="; PStr "x"]] (plain_options "bsdusr_") =
    Ret (PList [PDict (item_of users_table "bsdusr_" (user_row 0 "root" (PStr "root@nas")))]) ∧
  filterop (λ _ _, Ret false) (λ _ _, Ret PNone) (PDict (item_of users_table "bsdusr_" (user_row 1000 "ann" PNone)))
    (PList [PStr "email"; PStr "!="; PStr "x"]) = Ret true.
Proof. split; vm_compute; reflexivity. Qed.
