(* ===== verification/DatastoreWrite.v ===== *)
(** * Writing to the datastore: plugins/datastore/{write,event}.py, plugins/keyvalue.py

    Inserts, updates and deletes with their many-to-many relationships, the events
    they send, and the key-value store on top of them.  A statement is the tree of
    the SQLAlchemy calls; the class [DatabaseWrite] executes it.  The state is the
    database, the registered event options and the events sent so far. *)

From S2P Require Import Prelude PyValue PyTime Filter PyNum Ejson Datastore.

(** ** Statements *)

Inductive Stmt : Type :=
| InsertInto (table : Table) (values : pydict)
| UpdateWhere (table : Table) (values : pydict) (where_ : list SqlExpr)
| DeleteWhere (table : string) (where_ : list SqlExpr)
| InsertPair (table : string) (values : pydict).

Record WriteResult : Type := mkWR { rowcount : Z; last_insert_rowid : Z }.

(** The options of one registration of [register_event]. *)
Record EventOptions : Type := mkEO {
  description : string;
  datastore : string;
  plugin : string;
  e_prefix : string;
  e_extra : pydict;
  e_id : string;
  process_event : option string;
}.

(** An event: its name, its type and its keyword arguments. *)
Record SentEvent : Type := mkSent { ev_name : string; ev_type : string; ev_kwargs : pydict }.

Record DS (D : Type) : Type := mkDS {
  db : D;
  events : list (string * list EventOptions);
  registered : list (string * string);
  sent : list SentEvent;
}.
Arguments mkDS {D}. Arguments db {D}. Arguments events {D}. Arguments registered {D}. Arguments sent {D}.

Class DatabaseWrite (D : Type) : Type := {
  execute_write : Stmt → bool → D → outcome exn WriteResult * D;
  (** [middleware.call(f"{plugin}.query", filters, options)] *)
  call_query : string → list pyval → pydict → D → outcome exn pyval;
  (** [middleware.call(options["process_event"], type, kwargs)] *)
  call_process : string → string → pydict → outcome exn (option (string * pydict));
}.

Record WriteOptions : Type := mkWO { ha_sync : bool; w_prefix : string; send_events : bool }.
Definition default_write : WriteOptions := mkWO true "" true.

(** The second argument of [update] and [delete]. *)
Inductive IdOrFilters : Type := ById (id : pyval) | ByFilters (filters : list pyval).

(** [isinstance(id_or_filters, list)] *)
Definition id_or_filters (v : pyval) : IdOrFilters :=
  match v with PList filters => ByFilters filters | _ => ById v end.

(** [KeyValueModel]; columns are not null unless they say so. *)
Definition keyvalue_table : Table :=
  mkTable "system_keyvalue"
    [mkColumn "id" true [] false None Integer;
     mkColumn "key" false [] false None SaString;
     mkColumn "value" false [] false None SaString].

Section write.
Context {D : Type} `{!Database D, !DatabaseWrite D} (meta : Metadata) (limit_ : nat).

Notation MW := (M (DS D) exn).

Definition lift {A} (o : outcome exn A) : MW A := λ s, (o, s).

(** [middleware.call('datastore.execute_write', stmt, {'ha_sync': ...})] *)
Definition execute (stmt : Stmt) (sync : bool) : MW WriteResult := λ s,
  let '(r, d) := execute_write stmt sync s.(db) in
  (r, mkDS d s.(events) s.(registered) s.(sent)).

(** ** event.py *)

Definition register_event (options : EventOptions) : MW unit :=
  modify (λ s, mkDS s.(db)
    (dset s.(events) options.(datastore) (default [] (dget s.(events) options.(datastore)) ++ [options]))
    (s.(registered) ++ [(options.(plugin) +:+ ".query", options.(description))]) s.(sent)).

(** [self.middleware.send_event] *)
Definition emit (e : SentEvent) : MW unit :=
  modify (λ s, mkDS s.(db) s.(events) s.(registered) (s.(sent) ++ [e])).

Definition send_event (options : EventOptions) (type : string) (kwargs : pydict) : MW unit :=
  match options.(process_event) with
  | Some method =>
      processed ← lift (call_process method type kwargs);
      match processed with
      | None => mret tt
      | Some (type, kwargs) => emit (mkSent (options.(plugin) +:+ ".query") type kwargs)
      end
  | None => emit (mkSent (options.(plugin) +:+ ".query") type kwargs)
  end.

(** [_fields] with the value of the id column. *)
Definition fields_of (options : EventOptions) (id : pyval) (get : bool) : MW pyval := λ s,
  (call_query (options.(plugin) +:+ ".query")
     [PList [PStr options.(e_id); PStr "="; id]]
     (("get", PBool get) :: match options.(e_extra) with [] => [] | extra => [("extra", PDict extra)] end)
     s.(db), s).

Definition registrations (name : string) : MW (list EventOptions) :=
  gets (λ s, default [] (dget s.(events) name)).

Definition send_insert_events (name : string) (row : pydict) : MW unit :=
  os ← registrations name;
  forM os (λ options,
    id ← lift (item (PDict row) (options.(e_prefix) +:+ options.(e_id)));
    fields ← fields_of options id true;
    send_event options "ADDED" [("id", id); ("fields", fields)]).

Definition send_update_events (name : string) (id : pyval) : MW unit :=
  os ← registrations name;
  forM os (λ options,
    fields ← fields_of options id false;
    if truthy fields then
      first ← lift (match fields with
                    | PList (x :: _) => Ret x
                    | PDict _ => Raise (KeyError "0")
                    | _ => Raise (TypeError "object is not subscriptable")
                    end);
      send_event options "CHANGED" [("id", id); ("fields", first)]
    else mret tt).

Definition send_delete_events (name : string) (id : pyval) : MW unit :=
  os ← registrations name;
  forM os (λ options, send_event options "CHANGED" [("id", id); ("cleared", PBool true)]).

(** ** write.py *)

(** The loop of [_extract_relationships]. *)
Fixpoint extract (rels : list (string * Relationship)) (table : Table) (prefix : string) (data : pydict)
    (acc : pydict * list (Relationship * pyval)) : outcome exn (pydict * list (Relationship * pyval)) :=
  match data with
  | [] => Ret acc
  | (k, v) :: data =>
      match dget rels (prefix +:+ k) with
      | Some rel => extract rels table prefix data (acc.1, acc.2 ++ [(rel, v)])
      | None => col ← get_col (mkRef [] table) k prefix;
                extract rels table prefix data (dset acc.1 col.(column).(c_name) v, acc.2)
      end
  end.

Definition extract_relationships (table : Table) (prefix : string) (data : pydict) :
    outcome exn (pydict * list (Relationship * pyval)) :=
  rels ← get_relationships meta table;
  extract rels table prefix data ([], []).

(** [insert.setdefault(k, v)] *)
Definition setdefault (d : pydict) (k : string) (v : pyval) : pydict :=
  if dhas d k then d else dset d k v.

Definition column_default (insert : pydict) (col : Column) : pydict :=
  let insert := match col.(c_default) with
                | Some v => setdefault insert col.(c_name) v
                | None => insert
                end in
  match col.(nullable), col.(c_type) with
  | false, SaString => setdefault insert col.(c_name) (PStr "")
  | _, _ => insert
  end.

Definition col_ref (id : ColId) : ColRef :=
  mkColRef [] (mkColumn id.2 false [] true None Other).

Definition handle_relationships (pk : pyval) (rels : list (Relationship * pyval)) : MW unit :=
  forM rels (λ rv,
    match rv.1.(synchronize_pairs), rv.1.(secondary_synchronize_pairs) with
    | [(_, rel_local)], [(_, rel_remote)] =>
        execute (DeleteWhere rel_local.1 [SqlBin SqlEq (col_ref rel_local) pk]) true;;
        values ← lift (py_iter rv.2);
        forM values (λ value,
          execute (InsertPair rel_local.1 (dset [(rel_local.2, pk)] rel_remote.2 value)) true;; mret tt)
    | _, _ => raise AssertionError
    end).

Definition insert (name : string) (data : pydict) (options : WriteOptions) : MW pyval :=
  match handle_removed_tables_insert name with
  | Some stub => mret stub
  | None =>
      table ← lift (get_table meta name);
      '(insert, rels) ← lift (extract_relationships table options.(w_prefix) data);
      let insert := foldl column_default insert table.(c) in
      pk_column ← lift (get_pk (mkRef [] table));
      result ← execute (InsertInto table insert) options.(ha_sync);
      pk ← match pk_column.(column).(c_type) with
           | Integer => mret (PInt result.(last_insert_rowid))
           | _ => lift (item (PDict insert) pk_column.(column).(c_name))
           end;
      handle_relationships pk rels;;
      (if options.(send_events) then send_insert_events name insert else mret tt);;
      mret pk
  end.

Definition where_clause (table : Table) (ids : IdOrFilters) (prefix : string) : outcome exn (list SqlExpr) :=
  match ids with
  | ByFilters filters => filters_to_queryset (mkRef [] table) prefix [] filters
  | ById id => pk ← get_pk (mkRef [] table); Ret [SqlBin SqlEq pk id]
  end.

(** [data[column.name] = data.pop(column.name[:-3])] for the foreign keys. *)
Definition rename_fk (data : pydict) (col : Column) : pydict :=
  match col.(foreign_keys), dget data (drop_last3 col.(c_name)) with
  | _ :: _, Some v => dset (ddel data (drop_last3 col.(c_name))) col.(c_name) v
  | _, _ => data
  end.

(** The row to update: by filters there must be exactly one. *)
Definition update_id (fuel : nat) (name : string) (table : Table) (ids : IdOrFilters) (prefix : string) : MW pyval := λ s,
  match ids with
  | ById id => (Ret id, s)
  | ByFilters filters =>
      (rows ← query meta limit_ s.(db) fuel name filters
         (mkQO true None None prefix [] [] [] false false 0 0 false);
       rows ← py_iter rows;
       match rows with
       | [row] => pk ← get_pk (mkRef [] table); item row pk.(column).(c_name)
       | _ => Raise (RuntimeError (pretty (length rows) +:+ " found, expecting one"))
       end, s)
  end.

Definition update (fuel : nat) (name : string) (ids : IdOrFilters) (data : pydict) (options : WriteOptions) : MW pyval :=
  match handle_removed_tables_update name data with
  | Some stub => mret stub
  | None =>
      table ← lift (get_table meta name);
      id ← update_id fuel name table ids options.(w_prefix);
      let data := foldl rename_fk data table.(c) in
      '(update, rels) ← lift (extract_relationships table options.(w_prefix) data);
      (match update with
       | [] => mret tt
       | _ =>
           where_ ← lift (where_clause table (id_or_filters id) options.(w_prefix));
           result ← execute (UpdateWhere table update where_) options.(ha_sync);
           if Z.eqb result.(rowcount) 1 then
             if options.(send_events) then send_update_events name id else mret tt
           else raise (RuntimeError "No rows were updated")
       end);;
      handle_relationships id rels;;
      mret id
  end.

Definition delete (name : string) (ids : IdOrFilters) (options : WriteOptions) : MW pyval :=
  match handle_removed_tables_delete name with
  | Some stub => mret stub
  | None =>
      table ← lift (get_table meta name);
      where_ ← lift (where_clause table ids options.(w_prefix));
      execute (DeleteWhere table.(t_name) where_) options.(ha_sync);;
      (match ids with
       | ById id => if options.(send_events) then send_delete_events name id else mret tt
       | ByFilters _ => mret tt
       end);;
      mret (PBool true)
  end.

(** ** keyvalue.py

    The text of a JSON value is [json_print] of it, and [json_parse] reads it. *)

Context (json_print : pyval → string) (json_parse : string → outcome exn pyval).

Definition kv_filters (key : string) : list pyval := [PList [PStr "key"; PStr "="; PStr key]].

(** [datastore.query("system.keyvalue", [["key", "=", key]], {"get": True})] *)
Definition kv_row (fuel : nat) (key : string) : MW pyval := λ s,
  (query meta limit_ s.(db) fuel "system.keyvalue" (kv_filters key)
     (mkQO true None None "" [] [] [] false true 0 0 false), s).

(** [except IndexError] *)
Definition is_index_error (e : exn) : bool := match e with IndexError | MatchNotFound => true | _ => false end.

Definition json_loads (v : pyval) : outcome exn eval :=
  match v with
  | PStr s => j ← json_parse s; loads j
  | _ => Raise (TypeError "the JSON object must be str, bytes or bytearray")
  end.

Definition kv_get (fuel : nat) (key : string) (default : option eval) : MW eval :=
  try_except
    (row ← kv_row fuel key;
     value ← lift (item row "value");
     lift (json_loads value))
    (λ e, if is_index_error e then
            match default with Some v => mret v | None => raise (KeyError key) end
          else raise e).

Definition is_key_error (e : exn) : bool := match e with KeyError _ => true | _ => false end.

Definition has_key (fuel : nat) (key : string) : MW bool :=
  try_except (kv_get fuel key None;; mret true)
    (λ e, if is_key_error e then mret false else raise e).

Definition kv_set (fuel : nat) (key : string) (value : eval) (options : WriteOptions) : MW eval :=
  found ← try_except (row ← kv_row fuel key; mret (Some row))
            (λ e, if is_index_error e then mret None else raise e);
  (match found with
   | None =>
       text ← lift (dumps value);
       insert "system.keyvalue" [("key", PStr key); ("value", PStr (json_print text))] options;; mret tt
   | Some row =>
       id ← lift (item row "id");
       text ← lift (dumps value);
       update fuel "system.keyvalue" (id_or_filters id) [("value", PStr (json_print text))] options;; mret tt
   end);;
  mret value.

Definition kv_delete (key : string) (options : WriteOptions) : MW unit :=
  delete "system.keyvalue" (ByFilters (kv_filters key)) options;; mret tt.
End write.
