(* ===== verification/DatastoreWriteFacts.v ===== *)
(** * Theorems on writing to the datastore

    What an insert puts into a row; when events are sent and what they show; and
    that the key-value store gives back what was put into it. *)

From S2P Require Import Prelude PyValue PyTime Filter FilterFacts PyNum Ejson EjsonFacts Datastore DatastoreFacts DatastoreDemo DatastoreWrite.

(** ** The values of an insert *)

(** The value a column gets when none is given. *)
Definition default_of (col : Column) : option pyval :=
  match col.(c_default), col.(nullable), col.(c_type) with
  | Some v, _, _ => Some v
  | None, false, SaString => Some (PStr "")
  | _, _, _ => None
  end.

Lemma dget_setdefault d k v k' :
  dget (setdefault d k v) k' = match dget d k' with
                               | Some x => Some x
                               | None => if decide (k = k') then Some v else None
                               end.
Proof.
  unfold setdefault, dhas. destruct (dget d k) eqn:Hk.
  - destruct (dget d k') eqn:Hk'; [done|]. rewrite decide_False; [done|congruence].
  - destruct (decide (k = k')) as [->|Hne]; [by rewrite dget_dset, Hk|].
    rewrite dget_dset_ne by done. by destruct (dget d k').
Qed.

Lemma dget_column_default d col k :
  dget (column_default d col) k = match dget d k with
                                  | Some x => Some x
                                  | None => if decide (col.(c_name) = k) then default_of col else None
                                  end.
Proof.
  unfold column_default, default_of.
  destruct col.(c_default), col.(nullable), col.(c_type); rewrite ?dget_setdefault;
    destruct (dget d k); try done; by case_decide.
Qed.

Lemma dget_defaults cols d k :
  NoDup (c_name <$> cols) →
  dget (foldl column_default d cols) k =
    match dget d k with
    | Some x => Some x
    | None => List.find (λ col, String.eqb col.(c_name) k) cols ≫= default_of
    end.
Proof.
  revert d. induction cols as [|col cols IH]; intros d; cbn [foldl List.find fmap list_fmap].
  { by destruct (dget d k). }
  intros [Hcol Hnd]%NoDup_cons. rewrite IH, dget_column_default by done.
  destruct (dget d k); [done|]. destruct (String.eqb_spec col.(c_name) k) as [<-|Hne].
  - rewrite decide_True by done. cbn. destruct (default_of col); [done|].
    destruct (List.find _ cols) as [col'|] eqn:Hf; [|done].
    apply find_some in Hf as [Hin Heq]. apply String.eqb_eq in Heq.
    destruct Hcol. rewrite <-Heq. apply list_elem_of_fmap. exists col'. split; [done|]. by apply list_elem_of_In.
  - by rewrite decide_False.
Qed.

Section facts.
Context {D : Type} `{!Database D, !DatabaseWrite D} (meta : Metadata) (limit_ : nat).
Implicit Types (s : DS D).

(** Values reach the statement under the names of their columns. *)
Lemma extract_columns rels t prefix data acc vals rs :
  extract rels t prefix data acc = Ret (vals, rs) →
  ∀ k, is_Some (dget vals k) → is_Some (dget acc.1 k) ∨ k ∈ (c_name <$> t.(c)).
Proof.
  revert acc. induction data as [|[k0 v0] data IH]; intros acc; cbn [extract].
  { intros [= ->]. by left. }
  destruct (dget rels _) as [rel|]; [intros Hex k Hk; by apply (IH _ Hex k Hk)|].
  intros (col & Hcol & Hex)%outcome_bind_Ret k Hk. destruct (IH _ Hex k Hk) as [Hacc|]; [|by right].
  cbn in Hacc. destruct (decide (col.(column).(c_name) = k)) as [<-|Hne].
  - right. apply get_col_own in Hcol as [_ Hin]. apply list_elem_of_fmap. eauto.
  - left. by rewrite dget_dset_ne in Hacc.
Qed.

(** The row an insert writes has the given values and, for the columns that
    got none, their default or an empty string if they are text that may not be
    null; it has nothing that is not a column of the table. *)
Theorem insert_values t prefix data vals rels :
  NoDup (c_name <$> t.(c)) → extract_relationships meta t prefix data = Ret (vals, rels) →
  let row := foldl column_default vals t.(c) in
  (∀ k v, dget vals k = Some v → dget row k = Some v) ∧
  (∀ col, col ∈ t.(c) → dget vals col.(c_name) = None → dget row col.(c_name) = default_of col) ∧
  (∀ k, is_Some (dget row k) → k ∈ (c_name <$> t.(c))).
Proof.
  intros Hnd (rs & _ & Hex)%outcome_bind_Ret row. unfold row. split_and!.
  - intros k v Hk. by rewrite dget_defaults, Hk.
  - intros col Hcol Hk. rewrite dget_defaults, Hk by done.
    destruct (List.find _ _) as [col'|] eqn:Hf.
    + apply find_some in Hf as [Hin Heq%String.eqb_eq]. apply list_elem_of_In in Hin.
      assert (col' = col) as ->; [|done].
      apply list_elem_of_lookup in Hin as [i Hi], Hcol as [j Hj].
      assert (i = j) as ->; [|congruence].
      eapply NoDup_lookup; [exact Hnd| |]; rewrite list_lookup_fmap; [by rewrite Hi|by rewrite Hj; cbn; rewrite Heq].
    + apply list_elem_of_In in Hcol. apply (find_none _ _ Hf) in Hcol. by rewrite String.eqb_refl in Hcol.
  - intros k Hk. rewrite dget_defaults in Hk by done. destruct (dget vals k) eqn:Hv.
    + destruct (extract_columns _ _ _ _ _ _ _ Hex k) as [[? ?]|?]; [eauto|done|done].
    + destruct (List.find _ _) as [col|] eqn:Hf; [|by destruct Hk].
      apply find_some in Hf as [Hin Heq%String.eqb_eq]. apply list_elem_of_fmap. exists col.
      split; [done|]. by apply list_elem_of_In.
Qed.

(** ** Events *)

Lemma bind_Ret_s {A B} (m : M (DS D) exn A) (k : A → M (DS D) exn B) s a s' :
  m s = (Ret a, s') → (m ≫= k) s = k a s'.
Proof. unfold mbind, M_bind. by intros ->. Qed.

Lemma bind_Raise_s {A B} (m : M (DS D) exn A) (k : A → M (DS D) exn B) s e s' :
  m s = (Raise e, s') → (m ≫= k) s = (Raise e, s').
Proof. intros Hm. unfold mbind, M_bind. by rewrite Hm. Qed.

(** An insert whose table numbers its rows itself fails with [KeyError] after
    the row is written, when an event is registered for the table under the
    automatic id: the id is looked up among the values of the statement. *)
Theorem insert_event_missing_id name data opts t vals pkc res d' o os s :
  handle_removed_tables_insert name = None → get_table meta name = Ret t →
  extract_relationships meta t opts.(w_prefix) data = Ret (vals, []) →
  get_pk (mkRef [] t) = Ret pkc → pkc.(column).(c_type) = Integer →
  let row := foldl column_default vals t.(c) in
  execute_write (InsertInto t row) opts.(ha_sync) s.(db) = (Ret res, d') →
  opts.(send_events) = true → dget s.(events) name = Some (o :: os) →
  dget row (o.(e_prefix) +:+ o.(e_id)) = None →
  insert meta name data opts s =
    (Raise (KeyError (o.(e_prefix) +:+ o.(e_id))), mkDS d' s.(events) s.(registered) s.(sent)).
Proof.
  intros Hstub Ht Hex Hpk Hint row Hw Hsend Hreg Hid. unfold insert. rewrite Hstub.
  unfold lift. rewrite Ht. rewrite (bind_Ret_s _ _ s t s) by done.
  rewrite Hex. rewrite (bind_Ret_s _ _ s (vals, []) s) by done.
  rewrite Hpk. rewrite (bind_Ret_s _ _ s pkc s) by done. fold row.
  set (s' := mkDS d' s.(events) s.(registered) s.(sent)).
  rewrite (bind_Ret_s _ _ s res s') by (unfold execute; by rewrite Hw).
  rewrite Hint. rewrite (bind_Ret_s _ _ s' (PInt res.(last_insert_rowid)) s') by done.
  rewrite (bind_Ret_s _ _ s' tt s') by done. rewrite Hsend.
  apply bind_Raise_s. unfold send_insert_events.
  rewrite (bind_Ret_s _ _ s' (o :: os) s') by (unfold registrations, gets; cbn; by rewrite Hreg).
  cbn [forM]. apply bind_Raise_s, bind_Raise_s. unfold lift, item. by rewrite Hid.
Qed.

(** The event of an update shows the row as it is before the many-to-many
    relationships of the same update are written: the fields come from the
    database right after the [UPDATE]. *)
Theorem update_event_before_relationships fuel name id data opts t vals rels pkc res d1 o rest fields s :
  handle_removed_tables_update name data = None → get_table meta name = Ret t →
  id_or_filters id = ById id →
  extract_relationships meta t opts.(w_prefix) (foldl rename_fk data t.(c)) = Ret (vals, rels) → vals ≠ [] →
  get_pk (mkRef [] t) = Ret pkc →
  execute_write (UpdateWhere t vals [SqlBin SqlEq pkc id]) opts.(ha_sync) s.(db) = (Ret res, d1) →
  res.(rowcount) = 1%Z → opts.(send_events) = true →
  dget s.(events) name = Some [o] → o.(process_event) = None →
  call_query (o.(plugin) +:+ ".query") [PList [PStr o.(e_id); PStr "="; id]]
    (("get", PBool false) :: match o.(e_extra) with [] => [] | extra => [("extra", PDict extra)] end) d1 =
    Ret (PList (fields :: rest)) →
  update meta limit_ fuel name (ById id) data opts s =
    (handle_relationships id rels;; mret id)
      (mkDS d1 s.(events) s.(registered)
         (s.(sent) ++ [mkSent (o.(plugin) +:+ ".query") "CHANGED" [("id", id); ("fields", fields)]])).
Proof.
  intros Hstub Ht Hid Hex Hvals Hpk Hw Hcount Hsend Hreg Hproc Hq. unfold update. rewrite Hstub.
  unfold lift. rewrite Ht. rewrite (bind_Ret_s _ _ s t s) by done.
  rewrite (bind_Ret_s _ _ s id s) by done. rewrite Hex.
  rewrite (bind_Ret_s _ _ s (vals, rels) s) by done.
  set (s2 := mkDS d1 _ _ _). destruct vals as [|v0 vals]; [done|]. rewrite (bind_Ret_s _ _ s tt s2); [done|].
  rewrite Hid. cbn [where_clause]. rewrite Hpk.
  rewrite (bind_Ret_s _ _ s [SqlBin SqlEq pkc id] s) by done.
  set (s1 := mkDS d1 s.(events) s.(registered) s.(sent)).
  rewrite (bind_Ret_s _ _ s res s1) by (unfold execute; by rewrite Hw).
  rewrite Hcount, Hsend, Z.eqb_refl. unfold send_update_events.
  rewrite (bind_Ret_s _ _ s1 [o] s1) by (unfold registrations, gets; cbn; by rewrite Hreg).
  cbn [forM]. rewrite (bind_Ret_s _ _ s1 tt s2); [done|].
  rewrite (bind_Ret_s _ _ s1 (PList (fields :: rest)) s1) by (unfold fields_of; cbn; by rewrite Hq).
  cbn [truthy]. rewrite (bind_Ret_s _ _ s1 fields s1) by done.
  unfold send_event. by rewrite Hproc.
Qed.
End facts.

(** ** The key-value store *)

(** What the code relies on when it writes: an insert adds a row with the values
    and the automatic id, an update overwrites the cells of the selected rows and
    says how many there were. *)
Definition overwrite (vals : pydict) (r : Row) : Row :=
  (λ kv, (kv.1, match kv.1.1 with [] => default kv.2 (dget vals kv.1.2) | _ => kv.2 end)) <$> r.

Record write_laws {D} `{!DatabaseWrite D} (rows : D → Table → list Row)
    (truth : SqlExpr → Row → option bool) : Prop := {
  law_insert t vals sync d res d' : execute_write (InsertInto t vals) sync d = (Ret res, d') →
    ∃ r, rows d' t = rows d t ++ [r] ∧ ∀ col, col ∈ t.(c) →
      row_get r ([], col.(c_name)) =
        Ret (match dget vals col.(c_name) with
             | Some v => v
             | None => if col.(primary_key) then PInt res.(last_insert_rowid) else PNone
             end);
  law_update t vals ws sync d res d' : execute_write (UpdateWhere t vals ws) sync d = (Ret res, d') →
    rows d' t = (λ r, if forallb (λ e, bool_decide (truth e r = Some true)) ws
                      then overwrite vals r else r) <$> rows d t ∧
    res.(rowcount) = Z.of_nat (length (List.filter (λ r, forallb (λ e, bool_decide (truth e r = Some true)) ws) (rows d t)));
}.

Lemma row_get_overwrite vals r k v :
  row_get r ([], k) = Ret v → row_get (overwrite vals r) ([], k) = Ret (default v (dget vals k)).
Proof.
  induction r as [|[[p k'] v'] r IH]; cbn; [done|]. case_decide as Hd; [|exact IH].
  injection Hd as -> ->. by intros [= ->].
Qed.

Definition is_pint (v : pyval) : bool := match v with PInt _ => true | _ => false end.
Definition is_pstr (v : pyval) : bool := match v with PStr _ => true | _ => false end.

(** The cell of a column, by name. *)
Definition cell_at (r : Row) (n : string) : pyval :=
  match row_get r ([], n) with Ret v => v | Raise _ => PNone end.

Definition kv_row_ok (r : Row) : bool :=
  complete keyvalue_table r && is_pint (cell_at r "id") && is_pstr (cell_at r "key").

Lemma complete_get t r col : complete t r = true → col ∈ t.(c) → row_get r ([], col.(c_name)) = Ret (cell_at r col.(c_name)).
Proof. intros Hc Hin. apply cell_get. by apply (forallb_elem _ _ _ Hc). Qed.

Section keyvalue.
Context {D : Type} `{!Database D, !DatabaseWrite D} (meta : Metadata) (limit_ fuel : nat).
Context (rows : D → Table → list Row) (truth : SqlExpr → Row → option bool).
Context (laws : sql_laws rows truth) (wlaws : write_laws rows truth).
Context (json_print : pyval → string) (json_parse : string → outcome exn pyval).
Context (json_law : ∀ j, json_parse (json_print j) = Ret j).
Context (Htable : get_table meta "system.keyvalue" = Ret keyvalue_table).
Context (Hmodel : dget meta.(models) "system_keyvalue" = Some []).
Context (Hlimit : 0 < limit_) (Hfuel : 0 < fuel).
Implicit Types (s : DS D).

Definition has_this_key (key : string) (r : Row) : bool := bool_decide (cell_at r "key" = PStr key).

Definition key_col : Column := mkColumn "key" false [] false None SaString.
Definition id_col : Column := mkColumn "id" true [] false None Integer.

Lemma eq_selects r col v :
  kv_row_ok r = true → col ∈ keyvalue_table.(c) → same_kind (cell_at r col.(c_name)) v = true →
  bool_decide (truth (SqlBin SqlEq (mkColRef [] col) v) r = Some true) = py_eq (cell_at r col.(c_name)) v.
Proof using laws.
  unfold kv_row_ok. rewrite !andb_true_iff. intros [[Hc _] _] Hin Hk.
  rewrite (law_bin _ _ laws SqlEq (mkColRef [] col) v r (cell_at r col.(c_name))); try done.
  - cbn. by destruct (py_eq _ _).
  - by apply (complete_get keyvalue_table).
  - by apply (forallb_elem (λ col, as_is (mkColRef [] col)) keyvalue_table.(c)).
Qed.

Lemma key_selects key r :
  kv_row_ok r = true → bool_decide (truth (SqlBin SqlEq (mkColRef [] key_col) (PStr key)) r = Some true) = has_this_key key r.
Proof using laws.
  intros Hok. assert (is_pstr (cell_at r "key") = true) as Hs.
  { unfold kv_row_ok in Hok. by apply andb_true_iff in Hok as [_ ?]. }
  rewrite (eq_selects r key_col (PStr key) Hok); [|by right; left|cbn; by destruct (cell_at r "key")].
  unfold has_this_key. cbn [c_name key_col]. destruct (cell_at r "key"); try done. cbn [py_eq].
  destruct (String.eqb_spec s key) as [->|]; case_bool_decide; congruence.
Qed.

Lemma filter_none {A} (p : A → bool) l : (∀ x, x ∈ l → p x = false) → List.filter p l = [].
Proof.
  intros Hp. induction l as [|x l IH]; [done|]. cbn. rewrite Hp by by left. apply IH. intros; apply Hp; by right.
Qed.

Lemma filter_ext_elem {A} (p q : A → bool) l : (∀ x, x ∈ l → p x = q x) → List.filter p l = List.filter q l.
Proof.
  intros Hpq. induction l as [|x l IH]; [done|]. cbn. rewrite Hpq by by left.
  rewrite IH; [done|]. intros; apply Hpq; by right.
Qed.

(** The row that [kv_get] and [kv_set] find. *)
Lemma kv_row_spec key s :
  forallb kv_row_ok (rows s.(db) keyvalue_table) = true →
  kv_row meta limit_ fuel key s =
    (pick true ((λ r, PDict (item_of keyvalue_table "" r)) <$>
       List.filter (has_this_key key) (rows s.(db) keyvalue_table)), s).
Proof using laws Htable Hmodel Hlimit Hfuel.
  intros Hok. unfold kv_row. f_equal.
  assert (flat_table meta keyvalue_table = true) as Hflat.
  { unfold flat_table. rewrite !andb_true_iff. split; [split; [done|]|done]. cbn. by rewrite Hmodel. }
  rewrite (query_bare meta limit_ s.(db) rows truth laws fuel "system.keyvalue" keyvalue_table
    (mkQO true None None "" [] [] [] false true 0 0 false) (kv_filters key)
    [SqlBin SqlEq (mkColRef [] key_col) (PStr key)]); try done.
  - cbn [get prefix forallb]. do 2 f_equal. apply filter_ext_elem. intros r Hr. rewrite andb_true_r.
    apply key_selects. by apply (forallb_elem _ _ _ Hok).
  - apply forallb_Forall. apply forallb_Forall in Hok. eapply Forall_impl; [exact Hok|].
    intros r Hr. unfold kv_row_ok in Hr. rewrite !andb_true_iff in Hr. apply Hr.
  - apply (bool_decide_unpack _). vm_compute. exact I.
Qed.

(** Events leave the database alone. *)
Lemma send_event_db d o type kwargs : keeps (λ s, s.(db) = d) (send_event o type kwargs).
Proof. unfold send_event, lift, emit. keeps_tac. Qed.

Hint Resolve send_event_db : keeps.

Lemma send_insert_db d name row : keeps (λ s, s.(db) = d) (send_insert_events name row).
Proof. unfold send_insert_events, registrations, gets, fields_of, lift. keeps_tac. Qed.

Lemma send_update_db d name i : keeps (λ s, s.(db) = d) (send_update_events name i).
Proof. unfold send_update_events, registrations, gets, fields_of, lift. keeps_tac. Qed.

Lemma flat_relationships data opts :
  Forall (λ kv, kv.1 ∈ ["key"; "value"]) data → NoDup (dkeys data) →
  extract_relationships meta keyvalue_table opts.(w_prefix) data = Ret (data, []).
Proof using Hmodel.
  intros Hkeys Hnd. unfold extract_relationships, get_relationships. cbn [t_name keyvalue_table].
  rewrite Hmodel. unfold mbind, outcome_bind.
  cut (∀ acc : pydict, NoDup (dkeys (acc ++ data)) →
    extract [] keyvalue_table opts.(w_prefix) data (acc, []) = Ret (acc ++ data, [])); [intros H; by apply (H [])|].
  clear Hnd. induction Hkeys as [|[k v] data Hk Hdata IH]; intros acc Hnd; cbn [extract]; [by rewrite app_nil_r|].
  cbn [dget fst snd]. assert (∃ col, get_col (mkRef [] keyvalue_table) k opts.(w_prefix) = Ret col ∧ col.(column).(c_name) = k)
    as (col & -> & Hname).
  { cbn in Hk. apply elem_of_cons in Hk as [-> |[-> |[]%elem_of_nil]%elem_of_cons]; eexists; split; reflexivity. }
  unfold mbind, outcome_bind. cbn [fst]. rewrite Hname, dset_fresh, IH, <-(assoc_L app); [done|by rewrite <-(assoc_L app)|].
  unfold dkeys in *. rewrite fmap_app in Hnd. apply NoDup_app in Hnd as (_ & Hdis & _).
  intros Hin. apply (Hdis k Hin). by left.
Qed.

Lemma insert_kv key text opts pk s s' :
  insert meta "system.keyvalue" [("key", PStr key); ("value", PStr text)] opts s = (Ret pk, s') →
  ∃ res, execute_write (InsertInto keyvalue_table [("key", PStr key); ("value", PStr text)]) opts.(ha_sync) s.(db) =
    (Ret res, s'.(db)).
Proof using Htable Hmodel.
  intros Hins. unfold insert in Hins. change (handle_removed_tables_insert "system.keyvalue") with (@None pyval) in Hins.
  cbv beta iota in Hins.
  unfold lift at 1 in Hins. rewrite Htable in Hins. rewrite (bind_Ret_s _ _ s keyvalue_table s) in Hins by done.
  rewrite flat_relationships in Hins.
  2: { repeat constructor; set_solver. }
  2: { apply (bool_decide_unpack _). vm_compute. exact I. }
  unfold lift at 1 in Hins.
  rewrite (bind_Ret_s _ _ s ([("key", PStr key); ("value", PStr text)], []) s) in Hins by done.
  change (foldl column_default _ _) with [("key", PStr key); ("value", PStr text)] in Hins.
  apply M_bind_Ret in Hins as (pkc & s0 & Hpk & Hins). injection Hpk as <- <-.
  apply M_bind_Ret in Hins as (res & s1 & Hex & Hins). exists res.
  unfold execute in Hex. destruct (execute_write _ _ _) as [r d'] eqn:Hw. injection Hex as -> <-. f_equal.
  apply M_bind_Ret in Hins as (pk' & s2 & Hpk & Hins). injection Hpk as <- <-.
  apply M_bind_Ret in Hins as ([] & s3 & Hrel & Hins). injection Hrel as <-.
  apply M_bind_Ret in Hins as ([] & s4 & Hev & [= _ <-]).
  destruct opts.(send_events); [|by injection Hev as <-].
  pose proof (send_insert_db d' "system.keyvalue" [("key", PStr key); ("value", PStr text)]
    (mkDS d' s.(events) s.(registered) s.(sent)) eq_refl) as Hdb.
  rewrite Hev in Hdb. done.
Qed.

Lemma update_kv i text opts r s s' :
  update meta limit_ fuel "system.keyvalue" (ById (PInt i)) [("value", PStr text)] opts s = (Ret r, s') →
  ∃ res, execute_write (UpdateWhere keyvalue_table [("value", PStr text)] [SqlBin SqlEq (mkColRef [] id_col) (PInt i)])
    opts.(ha_sync) s.(db) = (Ret res, s'.(db)).
Proof using Htable Hmodel.
  intros Hup. unfold update in Hup. change (handle_removed_tables_update "system.keyvalue" _) with (@None pyval) in Hup.
  cbv beta iota in Hup.
  unfold lift at 1 in Hup. rewrite Htable in Hup. rewrite (bind_Ret_s _ _ s keyvalue_table s) in Hup by done.
  rewrite (bind_Ret_s _ _ s (PInt i) s) in Hup by done.
  change (foldl rename_fk _ _) with [("value", PStr text)] in Hup. rewrite flat_relationships in Hup.
  2: { repeat constructor; set_solver. }
  2: { apply (bool_decide_unpack _). vm_compute. exact I. }
  unfold lift at 1 in Hup. rewrite (bind_Ret_s _ _ s ([("value", PStr text)], []) s) in Hup by done.
  apply M_bind_Ret in Hup as ([] & s0 & Hwr & Hup).
  apply M_bind_Ret in Hup as ([] & s1 & Hrel & [= _ <-]). injection Hrel as <-.
  apply M_bind_Ret in Hwr as (ws & s2 & Hws & Hwr). injection Hws as <- <-.
  apply M_bind_Ret in Hwr as (res & s3 & Hex & Hwr). exists res.
  unfold execute in Hex. unfold id_col. destruct (execute_write _ _ _) as [o d'] eqn:Hw. injection Hex as -> <-. f_equal.
  destruct (Z.eqb res.(rowcount) 1); [|done]. destruct opts.(send_events); [|by injection Hwr as <-].
  pose proof (send_update_db d' "system.keyvalue" (PInt i)
    (mkDS d' s.(events) s.(registered) s.(sent)) eq_refl) as Hdb.
  rewrite Hwr in Hdb. done.
Qed.

(** [kv_get] when the row it finds holds the text of [v]. *)
Lemma kv_get_found key v j dflt r rs s :
  forallb kv_row_ok (rows s.(db) keyvalue_table) = true →
  List.filter (has_this_key key) (rows s.(db) keyvalue_table) = r :: rs →
  cell_at r "value" = PStr (json_print j) → loads j = Ret v →
  kv_get meta limit_ json_parse fuel key dflt s = (Ret v, s).
Proof using laws json_law Htable Hmodel Hlimit Hfuel.
  intros Hok Hf Hv Hj. unfold kv_get, try_except.
  rewrite (bind_Ret_s _ _ s (PDict (item_of keyvalue_table "" r)) s) by (rewrite kv_row_spec by done; by rewrite Hf).
  unfold lift, mbind, M_bind. change (item _ "value") with (@Ret exn pyval (cell_at r "value")).
  rewrite Hv. cbn [json_loads]. rewrite json_law. unfold mbind, outcome_bind. by rewrite Hj.
Qed.

Lemma kv_row_ok_overwrite text r : kv_row_ok r = true → kv_row_ok (overwrite [("value", PStr text)] r) = true.
Proof.
  unfold kv_row_ok. rewrite !andb_true_iff. intros [[Hc Hi] Hk].
  assert (∀ col, col ∈ keyvalue_table.(c) → row_get (overwrite [("value", PStr text)] r) ([], col.(c_name)) =
    Ret (default (cell_at r col.(c_name)) (dget [("value", PStr text)] col.(c_name)))) as Hget.
  { intros col Hcol. by apply row_get_overwrite, (complete_get keyvalue_table). }
  split; [split|].
  - apply forallb_Forall, Forall_forall. intros col Hcol. by rewrite Hget.
  - pose proof (Hget id_col ltac:(by left)) as Hx. cbn [c_name id_col] in Hx. unfold cell_at at 1. by rewrite Hx.
  - pose proof (Hget key_col ltac:(by right; left)) as Hx. cbn [c_name key_col] in Hx. unfold cell_at at 1. by rewrite Hx.
Qed.

Lemma cell_at_overwrite text r n :
  complete keyvalue_table r = true → n ∈ ["id"; "key"; "value"] →
  cell_at (overwrite [("value", PStr text)] r) n = default (cell_at r n) (dget [("value", PStr text)] n).
Proof.
  intros Hc Hn. assert (∃ col, col ∈ keyvalue_table.(c) ∧ col.(c_name) = n) as (col & Hcol & <-).
  { assert (n ∈ c_name <$> keyvalue_table.(c)) as (col & -> & ?)%list_elem_of_fmap by done. eauto. }
  unfold cell_at at 1. by rewrite (row_get_overwrite _ _ _ _ (complete_get _ _ _ Hc Hcol)).
Qed.

(** The rows after [kv_set]. *)
Lemma kv_inserted key text s s' pk opts :
  forallb kv_row_ok (rows s.(db) keyvalue_table) = true →
  List.filter (has_this_key key) (rows s.(db) keyvalue_table) = [] →
  insert meta "system.keyvalue" [("key", PStr key); ("value", PStr text)] opts s = (Ret pk, s') →
  forallb kv_row_ok (rows s'.(db) keyvalue_table) = true ∧
  ∃ r rs, List.filter (has_this_key key) (rows s'.(db) keyvalue_table) = r :: rs ∧ cell_at r "value" = PStr text.
Proof using wlaws Htable Hmodel.
  intros Hok Hf Hins. destruct (insert_kv _ _ _ _ _ _ Hins) as [res Hw].
  destruct (law_insert _ _ wlaws _ _ _ _ _ _ Hw) as (r & Hr & Hcells). rewrite Hr.
  pose proof (Hcells id_col ltac:(by left)) as Hid. pose proof (Hcells key_col ltac:(by right; left)) as Hkey.
  pose proof (Hcells (mkColumn "value" false [] false None SaString) ltac:(by right; right; left)) as Hval.
  cbn in Hid, Hkey, Hval. split.
  - rewrite forallb_app, Hok. cbn. rewrite andb_true_r. unfold kv_row_ok, complete, cell_at. cbn. by rewrite Hid, Hkey, Hval.
  - exists r, []. rewrite List.filter_app, Hf. cbn. unfold has_this_key, cell_at. rewrite Hkey, Hval.
    by rewrite bool_decide_eq_true_2.
Qed.

Lemma kv_updated key i text r0 rs0 s s' x opts :
  forallb kv_row_ok (rows s.(db) keyvalue_table) = true →
  List.filter (has_this_key key) (rows s.(db) keyvalue_table) = r0 :: rs0 → cell_at r0 "id" = PInt i →
  update meta limit_ fuel "system.keyvalue" (ById (PInt i)) [("value", PStr text)] opts s = (Ret x, s') →
  forallb kv_row_ok (rows s'.(db) keyvalue_table) = true ∧
  ∃ r rs, List.filter (has_this_key key) (rows s'.(db) keyvalue_table) = r :: rs ∧ cell_at r "value" = PStr text.
Proof using laws wlaws Htable Hmodel.
  intros Hok Hf Hi Hup. destruct (update_kv _ _ _ _ _ _ Hup) as [res Hw].
  rewrite (proj1 (law_update _ _ wlaws _ _ _ _ _ _ _ Hw)). set (g := λ r, if _ : bool then _ else r).
  assert (∀ r, kv_row_ok r = true → kv_row_ok (g r) = true ∧ has_this_key key (g r) = has_this_key key r) as Hg.
  { intros r Hr. unfold g. destruct (forallb (λ e, bool_decide (truth e r = Some true)) _); [|done]. split; [by apply kv_row_ok_overwrite|].
    unfold has_this_key. rewrite cell_at_overwrite; [done| |by right; left].
    unfold kv_row_ok in Hr. rewrite !andb_true_iff in Hr. apply Hr. }
  split.
  - apply forallb_Forall, Forall_fmap. apply forallb_Forall in Hok. eapply Forall_impl; [exact Hok|].
    intros r Hr. by apply Hg.
  - rewrite (filter_fmap_ext g _ (has_this_key key)), Hf.
    + assert (In r0 (rows s.(db) keyvalue_table)) as Hin by (apply (filter_In (has_this_key key)); rewrite Hf; by left).
      apply list_elem_of_In, (forallb_elem _ _ _ Hok) in Hin.
      exists (g r0), (g <$> rs0). split; [done|]. unfold g. cbn [forallb].
      rewrite (eq_selects r0 id_col (PInt i) Hin); [|by left|cbn; by rewrite Hi].
      cbn [c_name id_col]. rewrite Hi. cbn [py_eq as_int]. rewrite Z.eqb_refl. cbn [andb].
      rewrite cell_at_overwrite; [done| |by right; right; left]. unfold kv_row_ok in Hin. rewrite !andb_true_iff in Hin. apply Hin.
    + intros r Hr. apply Hg. by apply (forallb_elem _ _ _ Hok).
Qed.

(** When [kv_set] has returned. *)
Lemma kv_set_get key v opts x s s' dflt :
  portable v = true → forallb kv_row_ok (rows s.(db) keyvalue_table) = true →
  kv_set meta limit_ json_print fuel key v opts s = (Ret x, s') →
  x = v ∧ kv_get meta limit_ json_parse fuel key dflt s' = (Ret v, s') ∧
  forallb kv_row_ok (rows s'.(db) keyvalue_table) = true.
Proof using laws wlaws json_law Htable Hmodel Hlimit Hfuel.
  intros Hv%portable_back Hok Hset. apply outcome_bind_Ret in Hv as (j & Hj & Hback).
  unfold kv_set, lift in Hset. rewrite Hj in Hset.
  apply M_bind_Ret in Hset as (found & s0 & Hrow & Hset).
  apply M_bind_Ret in Hset as ([] & s1 & Hwr & [= <- <-]). split; [done|].
  assert (forallb kv_row_ok (rows s1.(db) keyvalue_table) = true ∧ ∃ r rs,
    List.filter (has_this_key key) (rows s1.(db) keyvalue_table) = r :: rs ∧ cell_at r "value" = PStr (json_print j))
    as (Hok' & r & rs & Hf & Hval).
  { unfold try_except, mbind, M_bind in Hrow. rewrite kv_row_spec in Hrow by done.
    destruct (List.filter _ _) as [|r0 rs0] eqn:Hf; cbn in Hrow; injection Hrow as <- <-.
    - apply M_bind_Ret in Hwr as (j' & s2 & [= <- <-] & Hwr).
      apply M_bind_Ret in Hwr as (pk & s3 & Hins & [= <-]). eapply kv_inserted; eauto.
    - apply M_bind_Ret in Hwr as (idv & s2 & [= <- <-] & Hwr).
      apply M_bind_Ret in Hwr as (j' & s2 & [= <- <-] & Hwr).
      apply M_bind_Ret in Hwr as (pk & s3 & Hup & [= <-]).
      assert (is_pint (cell_at r0 "id") = true) as Hid.
      { assert (In r0 (rows s.(db) keyvalue_table)) as Hin by (apply (filter_In (has_this_key key)); rewrite Hf; by left).
        apply list_elem_of_In, (forallb_elem _ _ _ Hok) in Hin. unfold kv_row_ok in Hin.
        rewrite !andb_true_iff in Hin. apply Hin. }
      change (cell r0 (mkColumn "id" true [] false None Integer)) with (cell_at r0 "id") in Hup.
      destruct (cell_at r0 "id") as [| |i| | |] eqn:Hi; try done. eapply kv_updated; eauto. }
  split; [by eapply kv_get_found|done].
Qed.

(** A table without event registrations: the events are skipped. *)
Lemma insert_quiet key text opts s res d' :
  execute_write (InsertInto keyvalue_table [("key", PStr key); ("value", PStr text)]) opts.(ha_sync) s.(db) = (Ret res, d') →
  dget s.(events) "system.keyvalue" = None →
  insert meta "system.keyvalue" [("key", PStr key); ("value", PStr text)] opts s =
    (Ret (PInt res.(last_insert_rowid)), mkDS d' s.(events) s.(registered) s.(sent)).
Proof using Htable Hmodel.
  intros Hw Hev. unfold insert. change (handle_removed_tables_insert "system.keyvalue") with (@None pyval). cbv beta iota.
  unfold lift at 1. rewrite Htable, (bind_Ret_s _ _ s keyvalue_table s) by done. unfold lift at 1.
  rewrite flat_relationships.
  2: { repeat constructor; set_solver. }
  2: { apply (bool_decide_unpack _). vm_compute. exact I. }
  rewrite (bind_Ret_s _ _ s ([("key", PStr key); ("value", PStr text)], []) s) by done.
  change (foldl column_default _ _) with [("key", PStr key); ("value", PStr text)].
  rewrite (bind_Ret_s _ _ s (mkColRef [] id_col) s) by done.
  set (s1 := mkDS d' s.(events) s.(registered) s.(sent)).
  rewrite (bind_Ret_s _ _ s res s1) by (unfold execute; by rewrite Hw).
  rewrite (bind_Ret_s _ _ s1 (PInt res.(last_insert_rowid)) s1), (bind_Ret_s _ _ s1 tt s1) by done.
  rewrite (bind_Ret_s _ _ s1 tt s1); [done|]. destruct opts.(send_events); [|done].
  unfold send_insert_events, registrations, gets, mbind, M_bind. cbn. by rewrite Hev.
Qed.

Lemma update_quiet i text opts s res d' :
  execute_write (UpdateWhere keyvalue_table [("value", PStr text)] [SqlBin SqlEq (mkColRef [] id_col) (PInt i)])
    opts.(ha_sync) s.(db) = (Ret res, d') →
  res.(rowcount) = 1%Z → dget s.(events) "system.keyvalue" = None →
  update meta limit_ fuel "system.keyvalue" (ById (PInt i)) [("value", PStr text)] opts s =
    (Ret (PInt i), mkDS d' s.(events) s.(registered) s.(sent)).
Proof using Htable Hmodel.
  intros Hw Hcount Hev. unfold update. change (handle_removed_tables_update "system.keyvalue" _) with (@None pyval).
  cbv beta iota. unfold lift at 1. rewrite Htable, (bind_Ret_s _ _ s keyvalue_table s) by done.
  rewrite (bind_Ret_s _ _ s (PInt i) s) by done. unfold lift at 1.
  change (foldl rename_fk _ _) with [("value", PStr text)]. rewrite flat_relationships.
  2: { repeat constructor; set_solver. }
  2: { apply (bool_decide_unpack _). vm_compute. exact I. }
  rewrite (bind_Ret_s _ _ s ([("value", PStr text)], []) s) by done.
  set (s1 := mkDS d' s.(events) s.(registered) s.(sent)).
  rewrite (bind_Ret_s _ _ s tt s1); [by rewrite (bind_Ret_s _ _ s1 tt s1)|].
  rewrite (bind_Ret_s _ _ s [SqlBin SqlEq (mkColRef [] id_col) (PInt i)] s) by done.
  rewrite (bind_Ret_s _ _ s res s1) by (unfold execute; by rewrite Hw). rewrite Hcount, Z.eqb_refl.
  destruct opts.(send_events); [|done]. unfold send_update_events, registrations, gets, mbind, M_bind. cbn. by rewrite Hev.
Qed.

(** The ids of the rows differ, as those of a primary key do. *)
Definition distinct_ids (l : list Row) : Prop := NoDup ((λ r, cell_at r "id") <$> l).

Lemma one_selected l r i :
  forallb kv_row_ok l = true → distinct_ids l → r ∈ l → cell_at r "id" = PInt i →
  length (List.filter (λ r, forallb (λ e, bool_decide (truth e r = Some true)) [SqlBin SqlEq (mkColRef [] id_col) (PInt i)]) l) = 1.
Proof using laws.
  intros Hok Hnd Hr Hi. rewrite (filter_ext_elem _ (λ r, bool_decide (cell_at r "id" = PInt i))).
  2: { intros x Hx. pose proof (forallb_elem _ _ _ Hok Hx) as Hx'. pose proof Hx' as Hp. unfold kv_row_ok in Hp.
       rewrite !andb_true_iff in Hp. destruct Hp as [[_ Hp] _]. cbn [forallb]. rewrite andb_true_r.
       rewrite (eq_selects x id_col (PInt i) Hx'); [|by left|cbn; by destruct (cell_at x "id")].
       cbn [c_name id_col]. destruct (cell_at x "id") as [| |z| | |]; try done. cbn [py_eq as_int].
       destruct (Z.eqb_spec z i) as [-> |]; case_bool_decide; congruence. }
  clear Hok. induction l as [|x l IH]; [by apply elem_of_nil in Hr|].
  unfold distinct_ids in Hnd. rewrite fmap_cons in Hnd. apply NoDup_cons in Hnd as [Hx Hnd]. cbn [List.filter].
  apply elem_of_cons in Hr as [<- |Hr].
  - rewrite bool_decide_eq_true_2 by done. cbn. f_equal. apply length_zero_iff_nil.
    apply filter_none. intros y Hy. apply bool_decide_eq_false. intros Hyi. apply Hx. rewrite Hi, <-Hyi.
    apply list_elem_of_fmap. eauto.
  - rewrite bool_decide_eq_false_2; [by apply IH|]. intros Hxi. apply Hx. rewrite Hxi, <-Hi. apply list_elem_of_fmap. eauto.
Qed.

(** The database accepts the statements on the table. *)
Definition writable (d : D) : Prop :=
  (∀ vals sync, ∃ res d', execute_write (InsertInto keyvalue_table vals) sync d = (Ret res, d')) ∧
  (∀ vals ws sync, ∃ res d', execute_write (UpdateWhere keyvalue_table vals ws) sync d = (Ret res, d')).

(** C23. What is put into the key-value store is what it gives back: on a table
    whose rows are well formed, [set] of a portable value returns, whether the key
    was there or not, and [get] of the key then returns the value; the rows stay
    well formed. *)
Theorem keyvalue_roundtrip key v opts s dflt :
  portable v = true → forallb kv_row_ok (rows s.(db) keyvalue_table) = true →
  distinct_ids (rows s.(db) keyvalue_table) → writable s.(db) → dget s.(events) "system.keyvalue" = None →
  ∃ s', kv_set meta limit_ json_print fuel key v opts s = (Ret v, s') ∧
    kv_get meta limit_ json_parse fuel key dflt s' = (Ret v, s') ∧
    forallb kv_row_ok (rows s'.(db) keyvalue_table) = true.
Proof using laws wlaws json_law Htable Hmodel Hlimit Hfuel.
  intros Hv Hok Hids [Hins Hup] Hev.
  assert (∃ x s', kv_set meta limit_ json_print fuel key v opts s = (Ret x, s')) as (x & s' & Hset).
  2: { destruct (kv_set_get key v opts x s s' dflt Hv Hok Hset) as (-> & Hget & Hok'). eauto. }
  pose proof (portable_back v Hv) as Hb. apply outcome_bind_Ret in Hb as (j & Hj & _).
  unfold kv_set, lift. rewrite Hj. set (found := try_except _ _).
  assert (found s = (Ret ((λ r, PDict (item_of keyvalue_table "" r)) <$>
    head (List.filter (has_this_key key) (rows s.(db) keyvalue_table))), s)) as Hfound.
  { unfold found, try_except, mbind, M_bind. rewrite kv_row_spec by done. by destruct (List.filter _ _). }
  rewrite (bind_Ret_s _ _ _ _ _ Hfound). clear Hfound found.
  destruct (List.filter (has_this_key key) (rows s.(db) keyvalue_table)) as [|r0 rs0] eqn:Hf; cbn [head fmap option_fmap option_map].
  - destruct (Hins [("key", PStr key); ("value", PStr (json_print j))] opts.(ha_sync)) as (res & d' & Hw).
    eexists _, _. erewrite bind_Ret_s; [done|]. erewrite bind_Ret_s; [|done].
    erewrite bind_Ret_s; [done|]. by eapply insert_quiet.
  - assert (r0 ∈ rows s.(db) keyvalue_table) as Hin.
    { apply list_elem_of_In, (filter_In (has_this_key key)). rewrite Hf. by left. }
    pose proof (forallb_elem _ _ _ Hok Hin) as Hp. unfold kv_row_ok in Hp. rewrite !andb_true_iff in Hp.
    destruct Hp as [[_ Hp] _]. destruct (cell_at r0 "id") as [| |i| | |] eqn:Hi; try done.
    destruct (Hup [("value", PStr (json_print j))] [SqlBin SqlEq (mkColRef [] id_col) (PInt i)] opts.(ha_sync)) as (res & d' & Hw).
    eexists _, _. erewrite bind_Ret_s; [done|].
    erewrite (bind_Ret_s _ _ _ (PInt i)); [|by rewrite <-Hi]. erewrite bind_Ret_s; [|done].
    erewrite bind_Ret_s; [done|]. apply (update_quiet _ _ _ _ res); [exact Hw| |done].
    rewrite (proj2 (law_update _ _ wlaws _ _ _ _ _ _ _ Hw)). by rewrite (one_selected _ r0).
Qed.
End keyvalue.

(** ** Witnesses: writing to the database in memory *)

(** A text for every JSON value. *)
Notation leaf_type := (unit + bool + Z + string)%type.

Fixpoint to_tree (v : pyval) : gen_tree leaf_type :=
  match v with
  | PNone => GenLeaf (inl (inl (inl tt)))
  | PBool b => GenLeaf (inl (inl (inr b)))
  | PInt z => GenLeaf (inl (inr z))
  | PStr s => GenLeaf (inr s)
  | PList l => GenNode 0 (to_tree <$> l)
  | PDict d => GenNode 1 ((λ kv, GenNode 2 [GenLeaf (inr kv.1); to_tree kv.2]) <$> d)
  end.

Fixpoint of_tree (t : gen_tree leaf_type) : pyval :=
  match t with
  | GenLeaf (inl (inl (inl _))) => PNone
  | GenLeaf (inl (inl (inr b))) => PBool b
  | GenLeaf (inl (inr z)) => PInt z
  | GenLeaf (inr s) => PStr s
  | GenNode 0 ts => PList (of_tree <$> ts)
  | GenNode _ ts => PDict ((λ t, match t with
                                 | GenNode _ [GenLeaf (inr k); t] => (k, of_tree t)
                                 | _ => ("", PNone)
                                 end) <$> ts)
  end.

Lemma of_to_tree v : of_tree (to_tree v) = v.
Proof.
  induction v as [| | | |l IH|d IH] using pyval_ind'; try done.
  - cbn. f_equal. rewrite <-list_fmap_compose. induction IH as [|x l Hx Hl IHl]; [done|].
    cbn. by rewrite Hx, IHl.
  - cbn. f_equal. rewrite <-list_fmap_compose. induction IH as [|[k x] d Hx Hd IHd]; [done|].
    cbn in *. by rewrite Hx, IHd.
Qed.

Definition demo_print (v : pyval) : string := pretty (Zpos (encode (to_tree v))).

Definition demo_parse (s : string) : outcome exn pyval :=
  match py_int s with
  | Some (Zpos p) => match decode p with Some t => Ret (of_tree t) | None => Raise (ValueError s) end
  | _ => Raise (ValueError s)
  end.

Lemma demo_json v : demo_parse (demo_print v) = Ret v.
Proof. unfold demo_parse, demo_print. by rewrite py_int_pretty, decode_encode, of_to_tree. Qed.

Definition new_row (t : Table) (vals : pydict) (rowid : Z) : Row :=
  (λ col, (([], col.(c_name)), match dget vals col.(c_name) with
                               | Some v => v
                               | None => if col.(primary_key) then PInt rowid else PNone
                               end)) <$> t.(c).

Definition selected_by (ws : list SqlExpr) (r : Row) : bool :=
  forallb (λ e, bool_decide (mem_truth e r = Some true)) ws.

#[global] Instance mem_write : DatabaseWrite MemDB := {
  execute_write stmt _ d :=
    match stmt with
    | InsertInto t vals =>
        if decide (NoDup (c_name <$> t.(c))) then
          let rowid := Z.of_nat (S (length (mem_rows d t))) in
          (Ret (mkWR 1 rowid), dset d t.(t_name) (mem_rows d t ++ [new_row t vals rowid]))
        else (Raise (OtherError "OperationalError"), d)
    | UpdateWhere t vals ws =>
        (Ret (mkWR (Z.of_nat (length (List.filter (selected_by ws) (mem_rows d t)))) 0),
         dset d t.(t_name) ((λ r, if selected_by ws r then overwrite vals r else r) <$> mem_rows d t))
    | DeleteWhere t ws =>
        let rs := default [] (dget d t) in
        (Ret (mkWR (Z.of_nat (length (List.filter (selected_by ws) rs))) 0),
         dset d t (List.filter (λ r, negb (selected_by ws r)) rs))
    | InsertPair t vals =>
        (Ret (mkWR 1 0), dset d t (default [] (dget d t) ++ [(λ kv, (([], kv.1), kv.2)) <$> vals]))
    end;
  call_query _ _ _ d := Ret (PList [PInt (Z.of_nat (list_sum ((λ kv, length kv.2) <$> d)))]);
  call_process _ _ _ := Ret None;
}.

Lemma row_get_new cols vals rowid col :
  NoDup (c_name <$> cols) → col ∈ cols →
  row_get (new_row (mkTable "" cols) vals rowid) ([], col.(c_name)) =
    Ret (match dget vals col.(c_name) with
         | Some v => v | None => if col.(primary_key) then PInt rowid else PNone end).
Proof.
  unfold new_row. cbn. induction cols as [|col0 cols IH]; [by intros _ ?%elem_of_nil|]. csimpl.
  intros [Hc0 Hnd]%NoDup_cons Hin. case_decide as Hd; [|apply elem_of_cons in Hin as [-> |Hin]; [done|auto]].
  injection Hd as Hname. apply elem_of_cons in Hin as [-> |Hin]; [done|].
  destruct Hc0. rewrite Hname. apply list_elem_of_fmap. eauto.
Qed.

Lemma mem_write_laws : write_laws mem_rows mem_truth.
Proof.
  split.
  - intros t vals sync d res d'. cbn. case_decide as Hnd; [|done]. intros [= <- <-].
    exists (new_row t vals (Z.of_nat (S (length (mem_rows d t))))). split.
    + unfold mem_rows at 1. by rewrite dget_dset.
    + intros col Hcol. destruct t as [n cols]. by apply (row_get_new cols).
  - intros t vals ws sync d res d' [= <- <-]. split; [|done]. unfold mem_rows at 1. by rewrite dget_dset.
Qed.

Definition kv_meta : Metadata :=
  mkMeta [("system_keyvalue", keyvalue_table)] [("system_keyvalue", [])].

Definition kv_state : DS MemDB :=
  mkDS [("system_keyvalue", [new_row keyvalue_table [("key", PStr "a"); ("value", PStr (demo_print (PInt 1)))] 1])] [] [] [].

Definition kv_demo : outcome exn eval * DS MemDB :=
  kv_set kv_meta 3 demo_print 3 "a" (EDate (mkDate 2024 2 29)) default_write kv_state.

Lemma keyvalue_roundtrip_witness :
  kv_demo.1 = Ret (EDate (mkDate 2024 2 29)) ∧
  ∃ s', kv_set kv_meta 3 demo_print 3 "a" (EDate (mkDate 2024 2 29)) default_write kv_state = (Ret (EDate (mkDate 2024 2 29)), s') ∧
    kv_get kv_meta 3 demo_parse 3 "a" None s' = (Ret (EDate (mkDate 2024 2 29)), s') ∧
    forallb kv_row_ok (mem_rows s'.(db) keyvalue_table) = true.
Proof.
  split; [vm_compute; reflexivity|].
  apply (keyvalue_roundtrip kv_meta 3 3 mem_rows mem_truth mem_laws mem_write_laws demo_print demo_parse demo_json
    eq_refl eq_refl ltac:(lia) ltac:(lia) "a" (EDate (mkDate 2024 2 29)) default_write kv_state None eq_refl eq_refl).
  - apply (bool_decide_unpack _). vm_compute. exact I.
  - split; intros; cbn; [|by eexists _, _]. rewrite decide_True; [by eexists _, _|].
    apply (bool_decide_unpack _). vm_compute. exact I.
  - reflexivity.
Defined.

Lemma insert_values_witness :
  dget (foldl column_default [("bsdusr_username", PStr "ann")] users_table.(c)) "bsdusr_uid" = None ∧
  NoDup (c_name <$> users_table.(c)) ∧
  ∀ k, is_Some (dget (foldl column_default [("bsdusr_username", PStr "ann")] users_table.(c)) k) →
    k ∈ (c_name <$> users_table.(c)).
Proof.
  split; [reflexivity|]. assert (NoDup (c_name <$> users_table.(c))) as Hnd by
    (apply (bool_decide_unpack _); vm_compute; exact I).
  split; [exact Hnd|].
  apply (insert_values demo_meta users_table "bsdusr_" [("username", PStr "ann")]
    [("bsdusr_username", PStr "ann")] [] Hnd). reflexivity.
Defined.

Definition user_events : EventOptions := mkEO "users" "account.bsdusers" "user" "" [] "id" None.

Definition event_state : DS MemDB := mkDS demo_db [("account.bsdusers", [user_events])] [] [].

Lemma insert_event_missing_id_witness :
  insert demo_meta "account.bsdusers" [("username", PStr "bob")] (mkWO true "bsdusr_" true) event_state =
    (Raise (KeyError "id"),
     mkDS (execute_write (InsertInto users_table [("bsdusr_username", PStr "bob")]) true demo_db).2
       event_state.(events) [] []).
Proof.
  apply (insert_event_missing_id demo_meta "account.bsdusers" [("username", PStr "bob")] (mkWO true "bsdusr_" true)
    users_table [("bsdusr_username", PStr "bob")] (mkColRef [] (mkColumn "id" true [] false None Integer))
    (mkWR 1 4) (execute_write (InsertInto users_table [("bsdusr_username", PStr "bob")]) true demo_db).2
    user_events [] event_state); vm_compute; reflexivity.
Defined.

(** S.M.A.R.T. tests with their disks, plugins/smart.py. *)
Definition smart_table : Table :=
  mkTable "tasks_smarttest"
    [mkColumn "id" true [] false None Integer; mkColumn "smarttest_desc" false [] false None SaString].

Definition smart_disks : Relationship :=
  mkRel [(("tasks_smarttest", "id"), ("tasks_smarttest_smarttest_disks", "smarttest_id"))]
    [(("storage_disk", "disk_identifier"), ("tasks_smarttest_smarttest_disks", "disk_id"))]
    "tasks_smarttest_smarttest_disks" "storage_disk".

Definition smart_meta : Metadata :=
  mkMeta [("tasks_smarttest", smart_table)] [("tasks_smarttest", [("smarttest_disks", smart_disks)])].

Definition smart_events : EventOptions := mkEO "tests" "tasks.smarttest" "smart.test" "" [] "id" None.

Definition smart_state : DS MemDB :=
  mkDS [("tasks_smarttest", [new_row smart_table [("smarttest_desc", PStr "old")] 1])]
    [("tasks.smarttest", [smart_events])] [] [].

Definition smart_data : pydict := [("desc", PStr "new"); ("disks", PList [PStr "ada0"; PStr "ada1"])].

Definition smart_db : MemDB :=
  [("tasks_smarttest", [new_row smart_table [("smarttest_desc", PStr "new")] 1])].

(** The event counts one row: the two rows of the relationship are not there yet. *)
Lemma update_event_before_relationships_witness :
  ((update smart_meta 3 3 "tasks.smarttest" (ById (PInt 1)) smart_data (mkWO true "smarttest_" true) smart_state).2).(sent) =
    [mkSent "smart.test.query" "CHANGED" [("id", PInt 1); ("fields", PInt 1)]] ∧
  update smart_meta 3 3 "tasks.smarttest" (ById (PInt 1)) smart_data (mkWO true "smarttest_" true) smart_state =
    (handle_relationships (PInt 1) [(smart_disks, PList [PStr "ada0"; PStr "ada1"])];; mret (PInt 1))
      (mkDS smart_db smart_state.(events) []
         ([] ++ [mkSent "smart.test.query" "CHANGED" [("id", PInt 1); ("fields", PInt 1)]])).
Proof.
  split; [vm_compute; reflexivity|].
  apply (update_event_before_relationships smart_meta 3 3 "tasks.smarttest" (PInt 1) smart_data (mkWO true "smarttest_" true)
    smart_table [("smarttest_desc", PStr "new")] [(smart_disks, PList [PStr "ada0"; PStr "ada1"])]
    (mkColRef [] (mkColumn "id" true [] false None Integer)) (mkWR 1 0) smart_db smart_events [] (PInt 1) smart_state);
    try discriminate; vm_compute; reflexivity.
Defined.
