(* ===== verification/Base64.v ===== *)
(** * Base64 and UTF-8

    What the code uses of the modules base64 and binascii and of [bytes.decode].  A
    byte string is a [string]; a [str] is the byte string of its UTF-8 encoding, so
    that decoding checks it and leaves it alone. *)

From S2P Require Import Prelude.

Definition byte_of (c : ascii) : Z := Z.of_nat (Ascii.nat_of_ascii c).
Definition of_byte (z : Z) : ascii := Ascii.ascii_of_nat (Z.to_nat z).

Lemma byte_of_bound c : (0 ≤ byte_of c < 256)%Z.
Proof. unfold byte_of. pose proof (Ascii.nat_ascii_bounded c). lia. Qed.

Lemma of_byte_of c : of_byte (byte_of c) = c.
Proof. unfold of_byte, byte_of. by rewrite Nat2Z.id, Ascii.ascii_nat_embedding. Qed.

Lemma byte_of_of z : (0 ≤ z < 256)%Z → byte_of (of_byte z) = z.
Proof. intros Hz. unfold byte_of, of_byte. rewrite Ascii.nat_ascii_embedding by lia. lia. Qed.

(** ** Encoding *)

(** [table_b2a_base64] *)
Definition digit64 (z : Z) : ascii :=
  if Z.ltb z 26 then of_byte (65 + z)
  else if Z.ltb z 52 then of_byte (97 + (z - 26))
  else if Z.ltb z 62 then of_byte (48 + (z - 52))
  else if Z.eqb z 62 then "+" else "/".

(** [base64.b64encode] *)
Fixpoint b64encode (s : string) : string :=
  match s with
  | "" => ""
  | String a "" =>
      let x := byte_of a in
      String (digit64 (Z.shiftr x 2)) (String (digit64 (Z.shiftl (Z.land x 3) 4)) "==")
  | String a (String b "") =>
      let x := byte_of a in let y := byte_of b in
      String (digit64 (Z.shiftr x 2))
        (String (digit64 (Z.lor (Z.shiftl (Z.land x 3) 4) (Z.shiftr y 4)))
          (String (digit64 (Z.shiftl (Z.land y 15) 2)) "="))
  | String a (String b (String c s)) =>
      let x := byte_of a in let y := byte_of b in let z := byte_of c in
      String (digit64 (Z.shiftr x 2))
        (String (digit64 (Z.lor (Z.shiftl (Z.land x 3) 4) (Z.shiftr y 4)))
          (String (digit64 (Z.lor (Z.shiftl (Z.land y 15) 2) (Z.shiftr z 6)))
            (String (digit64 (Z.land z 63)) (b64encode s))))
  end.

(** ** Decoding *)

(** [table_a2b_base64] *)
Definition value64 (c : ascii) : option Z :=
  let z := byte_of c in
  if (65 <=? z)%Z && (z <=? 90)%Z then Some (z - 65)%Z
  else if (97 <=? z)%Z && (z <=? 122)%Z then Some (z - 71)%Z
  else if (48 <=? z)%Z && (z <=? 57)%Z then Some (z + 4)%Z
  else if Ascii.eqb c "+" then Some 62%Z
  else if Ascii.eqb c "/" then Some 63%Z
  else None.

(** [binascii.Error] *)
Inductive Base64Error : Type := IncorrectPadding | OneMore.

(** The loop of [binascii.a2b_base64] without strict mode: characters outside of
    the alphabet are passed over, and enough padding ends the data.  [pos] is the
    position in the group of four, [left] the bits left over, [pads] the padding
    seen since the last digit. *)
Fixpoint a2b_loop (pos : nat) (left : Z) (pads : nat) (s : string) : outcome Base64Error string :=
  match s with
  | "" => match pos with 0 => Ret "" | 1 => Raise OneMore | _ => Raise IncorrectPadding end
  | String c s =>
      if Ascii.eqb c "=" then
        if (2 <=? pos)%nat && (4 <=? pos + S pads)%nat then Ret ""
        else a2b_loop pos left (if (2 <=? pos)%nat then S pads else pads) s
      else
        match value64 c with
        | None => a2b_loop pos left pads s
        | Some v =>
            match pos with
            | 0 => a2b_loop 1 v 0 s
            | 1 => String (of_byte (Z.lor (Z.shiftl left 2) (Z.shiftr v 4))) <$> a2b_loop 2 (Z.land v 15) 0 s
            | 2 => String (of_byte (Z.lor (Z.shiftl left 4) (Z.shiftr v 2))) <$> a2b_loop 3 (Z.land v 3) 0 s
            | _ => String (of_byte (Z.lor (Z.shiftl left 6) v)) <$> a2b_loop 0 0 0 s
            end
        end
  end.

Definition b64decode (s : string) : outcome Base64Error string := a2b_loop 0 0 0 s.

(** ** UTF-8 *)

Definition is_ascii (s : string) : bool := forallb (λ c, byte_of c <? 128)%Z (String.list_ascii_of_string s).

Definition continuation (z : Z) : bool := (128 <=? z)%Z && (z <=? 191)%Z.

(** [bytes.decode("utf8")] succeeds. *)
Fixpoint utf8_valid (l : list Z) : bool :=
  match l with
  | [] => true
  | a :: l1 =>
      if (a <? 128)%Z then utf8_valid l1
      else if (194 <=? a)%Z && (a <=? 223)%Z then
        match l1 with b :: l2 => continuation b && utf8_valid l2 | _ => false end
      else if (224 <=? a)%Z && (a <=? 239)%Z then
        match l1 with
        | b :: c :: l3 =>
            continuation b && continuation c && negb ((a =? 224)%Z && (b <? 160)%Z) && negb ((a =? 237)%Z && (159 <? b)%Z) &&
            utf8_valid l3
        | _ => false
        end
      else if (240 <=? a)%Z && (a <=? 244)%Z then
        match l1 with
        | b :: c :: d :: l4 =>
            continuation b && continuation c && continuation d && negb ((a =? 240)%Z && (b <? 144)%Z) &&
            negb ((a =? 244)%Z && (143 <? b)%Z) && utf8_valid l4
        | _ => false
        end
      else false
  end.

Definition utf8_decode (s : string) : option string :=
  if utf8_valid (byte_of <$> String.list_ascii_of_string s) then Some s else None.

(** ** The round trip *)

Lemma value64_digit64 z : (0 ≤ z < 64)%Z → value64 (digit64 z) = Some z ∧ Ascii.eqb (digit64 z) "=" = false.
Proof.
  intros Hz. assert (forallb (λ n, bool_decide (value64 (digit64 (Z.of_nat n)) = Some (Z.of_nat n)) &&
    negb (Ascii.eqb (digit64 (Z.of_nat n)) "=")) (seq 0 64) = true) as H by (vm_compute; reflexivity).
  rewrite forallb_forall in H. specialize (H (Z.to_nat z)). rewrite Z2Nat.id in H by lia.
  rewrite andb_true_iff, bool_decide_eq_true, negb_true_iff in H. apply H. apply in_seq. lia.
Qed.

Lemma a2b_digit pos left pads z s :
  (0 ≤ z < 64)%Z →
  a2b_loop pos left pads (String (digit64 z) s) =
    match pos with
    | 0 => a2b_loop 1 z 0 s
    | 1 => String (of_byte (Z.lor (Z.shiftl left 2) (Z.shiftr z 4))) <$> a2b_loop 2 (Z.land z 15) 0 s
    | 2 => String (of_byte (Z.lor (Z.shiftl left 4) (Z.shiftr z 2))) <$> a2b_loop 3 (Z.land z 3) 0 s
    | _ => String (of_byte (Z.lor (Z.shiftl left 6) z)) <$> a2b_loop 0 0 0 s
    end.
Proof. intros Hz. destruct (value64_digit64 z Hz) as [Hv He]. cbn [a2b_loop]. by rewrite He, Hv. Qed.

Lemma lor_shift a b n : (0 ≤ n)%Z → (0 ≤ b < 2 ^ n)%Z → Z.lor (Z.shiftl a n) b = (a * 2 ^ n + b)%Z.
Proof.
  intros Hn Hb. assert (Z.land (Z.shiftl a n) b = 0%Z) as Hl.
  { apply Z.bits_inj'. intros m Hm. rewrite Z.land_spec, Z.bits_0. destruct (Z.lt_ge_cases m n).
    - by rewrite Z.shiftl_spec_low.
    - rewrite <-(Z.mod_small b (2 ^ n)) by done. rewrite (Z.mod_pow2_bits_high b n m) by lia. by rewrite andb_false_r. }
  rewrite <-Z.lxor_lor, <-Z.add_nocarry_lxor by done. by rewrite Z.shiftl_mul_pow2.
Qed.

Lemma land_ones_mod a n m : (0 ≤ n)%Z → m = Z.ones n → Z.land a m = (a mod 2 ^ n)%Z.
Proof. intros Hn ->. by apply Z.land_ones. Qed.

Ltac zdiv := Z.div_mod_to_equations; lia.

(** The digits of a group, as arithmetic. *)
Lemma digit_1 x : (0 ≤ x < 256)%Z → (0 ≤ Z.shiftr x 2 < 64)%Z.
Proof. intros Hx. rewrite Z.shiftr_div_pow2 by lia. change (2 ^ 2)%Z with 4%Z. zdiv. Qed.

Lemma digit_2_last x : Z.shiftl (Z.land x 3) 4 = (x mod 4 * 16)%Z.
Proof. rewrite (land_ones_mod _ 2) by done. by rewrite Z.shiftl_mul_pow2. Qed.

Lemma digit_2 x y : (0 ≤ y < 256)%Z → Z.lor (Z.shiftl (Z.land x 3) 4) (Z.shiftr y 4) = (x mod 4 * 16 + y / 16)%Z.
Proof.
  intros Hy. rewrite lor_shift; [|lia|rewrite Z.shiftr_div_pow2 by lia; change (2 ^ 4)%Z with 16%Z; zdiv].
  rewrite (land_ones_mod _ 2) by done. rewrite Z.shiftr_div_pow2 by lia. done.
Qed.

Lemma digit_3_last y : Z.shiftl (Z.land y 15) 2 = (y mod 16 * 4)%Z.
Proof. rewrite (land_ones_mod _ 4) by done. by rewrite Z.shiftl_mul_pow2. Qed.

Lemma digit_3 y z : (0 ≤ z < 256)%Z → Z.lor (Z.shiftl (Z.land y 15) 2) (Z.shiftr z 6) = (y mod 16 * 4 + z / 64)%Z.
Proof.
  intros Hz. rewrite lor_shift; [|lia|rewrite Z.shiftr_div_pow2 by lia; change (2 ^ 6)%Z with 64%Z; change (2 ^ 2)%Z with 4%Z; zdiv].
  rewrite (land_ones_mod _ 4) by done. rewrite Z.shiftr_div_pow2 by lia. done.
Qed.

Lemma digit_4 z : Z.land z 63 = (z mod 64)%Z.
Proof. by rewrite (land_ones_mod _ 6). Qed.

(** Putting two digits together again. *)
Lemma join_digits a b n m k :
  (0 ≤ n)%Z → (0 ≤ m)%Z → (0 ≤ b / 2 ^ m < 2 ^ n)%Z → k = (a * 2 ^ n + b / 2 ^ m)%Z →
  Z.lor (Z.shiftl a n) (Z.shiftr b m) = k.
Proof. intros Hn Hm Hb ->. rewrite Z.shiftr_div_pow2 by lia. by apply lor_shift. Qed.

Lemma join_1 x d : (0 ≤ x < 256)%Z → (0 ≤ d < 16)%Z →
  Z.lor (Z.shiftl (Z.shiftr x 2) 2) (Z.shiftr (x mod 4 * 16 + d) 4) = x.
Proof.
  intros Hx Hd. rewrite (Z.shiftr_div_pow2 x) by lia. change (2 ^ 2)%Z with 4%Z.
  apply join_digits; [lia|lia|change (2 ^ 4)%Z with 16%Z; change (2 ^ 2)%Z with 4%Z; zdiv|].
  change (2 ^ 4)%Z with 16%Z; change (2 ^ 2)%Z with 4%Z. zdiv.
Qed.

Lemma join_2 x y d : (0 ≤ y < 256)%Z → (0 ≤ d < 4)%Z →
  Z.lor (Z.shiftl (Z.land (x mod 4 * 16 + y / 16) 15) 4) (Z.shiftr (y mod 16 * 4 + d) 2) = y.
Proof.
  intros Hy Hd. rewrite (land_ones_mod _ 4) by done. change (2 ^ 4)%Z with 16%Z.
  apply join_digits; [lia|lia|change (2 ^ 4)%Z with 16%Z; change (2 ^ 2)%Z with 4%Z; zdiv|].
  change (2 ^ 4)%Z with 16%Z; change (2 ^ 2)%Z with 4%Z. zdiv.
Qed.

Lemma join_3 y z : (0 ≤ z < 256)%Z →
  Z.lor (Z.shiftl (Z.land (y mod 16 * 4 + z / 64) 3) 6) (z mod 64) = z.
Proof.
  intros Hz. rewrite (land_ones_mod _ 2) by done. change (2 ^ 2)%Z with 4%Z.
  rewrite lor_shift; [|lia|change (2 ^ 6)%Z with 64%Z; zdiv]. change (2 ^ 6)%Z with 64%Z. zdiv.
Qed.

Lemma a2b_group a b c s :
  a2b_loop 0 0 0 (b64encode (String a (String b (String c s)))) =
  (λ t, String a (String b (String c t))) <$> a2b_loop 0 0 0 (b64encode s).
Proof.
  pose proof (byte_of_bound a) as Ha. pose proof (byte_of_bound b) as Hb. pose proof (byte_of_bound c) as Hc.
  cbn [b64encode]. rewrite digit_2, digit_3, digit_4 by done.
  rewrite a2b_digit by (by apply digit_1). rewrite a2b_digit by zdiv. rewrite join_1, of_byte_of by zdiv.
  rewrite a2b_digit by zdiv. rewrite join_2, of_byte_of by zdiv.
  rewrite a2b_digit by zdiv. rewrite join_3, of_byte_of by zdiv. by destruct (a2b_loop 0 0 0 (b64encode s)).
Qed.

(** Induction by groups of three bytes. *)
Lemma string_ind3 (P : string → Prop) :
  P "" → (∀ a, P (String a "")) → (∀ a b, P (String a (String b ""))) →
  (∀ a b c s, P s → P (String a (String b (String c s)))) → ∀ s, P s.
Proof.
  intros H0 H1 H2 H3. fix IH 1. intros [|a [|b [|c s]]]; [exact H0|apply H1|apply H2|apply H3, IH].
Qed.

(** Decoding undoes encoding. *)
Lemma b64_roundtrip s : b64decode (b64encode s) = Ret s.
Proof.
  unfold b64decode. induction s as [|a|a b|a b c s IH] using string_ind3.
  - done.
  - pose proof (byte_of_bound a) as Ha. cbn [b64encode]. rewrite digit_2_last.
    rewrite a2b_digit by (by apply digit_1). rewrite a2b_digit by zdiv.
    rewrite <-(Z.add_0_r (byte_of a mod 4 * 16)). by rewrite join_1, of_byte_of by lia.
  - pose proof (byte_of_bound a) as Ha. pose proof (byte_of_bound b) as Hb. cbn [b64encode]. rewrite digit_2, digit_3_last by done.
    rewrite a2b_digit by (by apply digit_1). rewrite a2b_digit by zdiv. rewrite join_1, of_byte_of by zdiv.
    rewrite a2b_digit by zdiv. rewrite <-(Z.add_0_r (byte_of b mod 16 * 4)). by rewrite join_2, of_byte_of by lia.
  - by rewrite a2b_group, IH.
Qed.

(** What encoding prints is ASCII. *)
Lemma b64encode_ascii s : is_ascii (b64encode s) = true.
Proof.
  assert (∀ z, (0 ≤ z < 64)%Z → (byte_of (digit64 z) <? 128)%Z = true) as Hd.
  { intros z Hz. assert (forallb (λ n, byte_of (digit64 (Z.of_nat n)) <? 128)%Z (seq 0 64) = true) as H by (vm_compute; reflexivity).
    rewrite forallb_forall in H. specialize (H (Z.to_nat z)). rewrite Z2Nat.id in H by lia. apply H, in_seq. lia. }
  unfold is_ascii. induction s as [|a|a b|a b c s IH] using string_ind3; [done|..];
    pose proof (byte_of_bound a) as Ha; try pose proof (byte_of_bound b) as Hb; try pose proof (byte_of_bound c) as Hc;
    cbn [b64encode]; rewrite ?digit_2, ?digit_3, ?digit_2_last, ?digit_3_last, ?digit_4 by done; cbn [String.list_ascii_of_string forallb].
  - by rewrite (Hd _ (digit_1 _ Ha)), Hd by zdiv.
  - by rewrite (Hd _ (digit_1 _ Ha)), !Hd by zdiv.
  - by rewrite (Hd _ (digit_1 _ Ha)), !Hd, IH by zdiv.
Qed.
