(* ===== verification/Rest.v ===== *)
(** * The REST server: restful.py

    Every public method gets a route; a request is authenticated, its arguments are
    taken from the path, the query string or the body, the method is called and the
    outcome becomes a status and a JSON body.  aiohttp's router decides which
    resource handles a request: the resource is an argument of [on_method].  The
    methods' metadata is that of [core.get_methods]; the calls made are recorded. *)

From S2P Require Import Prelude PyValue Job Filter Base64.

(** ** What the server knows of methods and services *)

(** One schema of [accepts], with its JSON schema. *)
Record Accept : Type := mkAccept { title : string; required : bool; json_schema : pydict }.

Record Method : Type := mkMethod {
  description : option string;
  accepts : list Accept;
  item_method : bool;
  no_auth_required : bool;
  filterable : bool;
  pass_application : bool;
  extra_methods : list string;
  require_websocket : bool;
  downloadable : bool;
  uploadable : bool;
  require_pipes : bool;
}.

Inductive ServiceType : Type := CrudType | ConfigType | OtherType.

Record Service : Type := mkService { type : ServiceType; primary_key_type : string }.

(** [self._methods] and the services, in the order of their dicts. *)
Notation Methods := (list (string * Method)).

Record Param : Type := mkParam { order : nat; p_required : bool }.

(** [Resource]: its path, whether it has a parent, the method of each HTTP method it
    has, and the parameters of those methods. *)
Record Resource : Type := mkResource {
  path : string;
  parent : option string;
  operations : list (string * string);
  method_params : list (string * list (string * Param));
}.

(** A route, and the documentation of the API. *)
Record Route : Type := mkRoute { http : string; route_path : string; resource : Resource }.

Record Rest : Type := mkRest {
  routes : list Route;
  paths : list (string * pydict);
  schemas : pydict;
}.

(** ** Requests *)

Record Request : Type := mkRequest {
  authorization : option string;
  real_remote : option string * option string;
  query : list (string * string);
  text : string;
  match_info : list (string * string);
}.

(** The exceptions of aiohttp, which are responses, and the others. *)
Inductive HttpError : Type :=
| HTTPUnauthorized (text : string)
| HTTPBadRequest
| InternalError (e : exn).

(** [authenticate] *)
Section authenticate.
Context (twofactor_enabled webauthn_enabled : bool).
Context (check_user : string → string → outcome exn bool) (api_key_authenticate : string → outcome exn pyval).

(** [base64.b64decode(auth[6:]).decode('utf8').split(':', 1)] *)
Definition basic_credentials (auth : string) : outcome HttpError (string * string) :=
  if is_ascii auth then
    match b64decode auth with
    | Raise _ => Raise (HTTPUnauthorized "")
    | Ret bytes =>
        match utf8_decode bytes with
        | None => Raise HTTPBadRequest
        | Some s =>
            match PyStr.split1 ":" s with
            | Some up => Ret up
            | None => Raise (InternalError (ValueError "not enough values to unpack (expected 2, got 1)"))
            end
        end
    end
  else Raise (InternalError (ValueError "string argument should contain only ASCII characters")).

Definition authenticate (req : Request) : outcome HttpError unit :=
  match req.(authorization) with
  | None => Raise (HTTPUnauthorized "")
  | Some auth =>
      if PyStr.startswith auth "Basic " then
        if twofactor_enabled then Raise (HTTPUnauthorized "HTTP Basic Auth is unavailable when OTP is enabled")
        else if webauthn_enabled then Raise (HTTPUnauthorized "HTTP Basic Auth is unavailable when WebAuthn is enabled")
        else
          '(username, password) ← basic_credentials (PyStr.drop 6 auth);
          match check_user username password with
          | Ret true => Ret tt
          | Ret false | Raise _ => Raise (HTTPUnauthorized "")
          end
      else if PyStr.startswith auth "Bearer " then
        match api_key_authenticate (PyStr.drop 7 auth) with
        | Ret PNone => Raise (HTTPUnauthorized "")
        | Ret _ => Ret tt
        | Raise e => Raise (InternalError e)
        end
      else Raise (HTTPUnauthorized "")
  end.
End authenticate.

(** ** Documentation of the API *)

Definition jref (kind name : string) : pyval := PDict [("$ref", PStr ("#/components/" +:+ kind +:+ "/" +:+ name))].

(** [items.remove(item)] for each item of type null. *)
Definition is_null_schema (v : pyval) : bool :=
  match v with PDict d => match dget d "type" with Some (PStr "null") => true | _ => false end | _ => false end.

(** [_convert_schema]; the properties of an object are converted too. *)
Fixpoint convert_schema (fuel : nat) (schema : pydict) : outcome exn pydict :=
  match fuel with
  | 0 => Raise (RuntimeError "maximum recursion depth exceeded")
  | S fuel =>
      let _type := from_option (λ v, v) PNone (dget schema "type") in
      let schema := ddel schema "_required_" in
      '(_type, schema) ←
        (match _type with
         | PList ts =>
             let nullable := bool_decide (PStr "null" ∈ ts) in
             let ts := if nullable then remove1 (PStr "null") ts else ts in
             let schema := dset schema "type" (PList ts) in
             let schema := if nullable then dset schema "nullable" (PBool true) else schema in
             match ts with
             | t :: _ => Ret (t, dset schema "type" t)
             | [] => Raise IndexError
             end
         | t => Ret (t, schema)
         end);
      match _type with
      | PStr "object" =>
          match dget schema "properties" with
          | Some (PDict props) =>
              props ← mapO (λ kv, match kv.2 with
                                  | PDict d => (λ d, (kv.1, PDict d)) <$> convert_schema fuel d
                                  | _ => Raise (AttributeError "object has no attribute 'get'")
                                  end) props;
              Ret (dset schema "properties" (PDict props))
          | Some _ => Raise (AttributeError "object has no attribute 'items'")
          | None => Raise (KeyError "properties")
          end
      | PStr "array" =>
          match dget schema "items" with
          | Some (PList items) =>
              if forallb (λ v, match v with PDict _ => true | _ => false end) items then
                let items := List.filter (λ v, negb (is_null_schema v)) items in
                Ret (dset schema "items" (match items with
                                          | [] => PDict []
                                          | [x] => x
                                          | _ => PDict [("oneOf", PList items)]
                                          end))
              else Raise (AttributeError "object has no attribute 'get'")
          | Some (PDict [] | PStr "") => Ret schema
          | Some (PDict _ | PStr _) => Raise (AttributeError "'str' object has no attribute 'get'")
          | _ => Raise (TypeError "'NoneType' object is not iterable")
          end
      | _ => Ret schema
      end
  end.

(** [methodname.replace(".", "_")] *)
Definition underscored (s : string) : string := PyStr.map_chars (λ c, if Ascii.eqb c "." then "_"%char else c) s.

(** The loop that gives every argument an id and registers its schema. *)
Fixpoint register_schemas (fuel : nat) (methodname : string) (item : bool) (i : nat) (accepts : list Accept)
    (ids : list string) (schemas : pydict) : outcome exn (list string * pydict) :=
  match accepts with
  | [] => Ret (ids, schemas)
  | a :: rest =>
      if Nat.eqb i 0 && item then register_schemas fuel methodname item (S i) rest ids schemas
      else
        let unique_id := underscored methodname +:+ "_" +:+ pretty i in
        schema ← convert_schema fuel a.(json_schema);
        register_schemas fuel methodname item (S i) rest (ids ++ [unique_id]) (dset schemas unique_id (PDict schema))
  end.

(** [_accepts_to_request] *)
Definition accepts_to_request (fuel : nat) (methodname : string) (method : Method) (schemas : pydict) :
    outcome exn (pyval * pydict) :=
  '(ids, schemas) ← register_schemas fuel methodname method.(item_method) 0 method.(accepts) [] schemas;
  '(name, schemas) ←
    (match ids with
     | [id] => Ret (id, schemas)
     | _ =>
         props ← mapO (λ id, schema ← item (PDict schemas) id;
                             title ← item schema "title";
                             Ret (py_str title, jref "schemas" id)) ids;
         let new_id := underscored methodname in
         Ret (new_id, dset schemas new_id (PDict [("type", PStr "object"); ("properties", PDict (dupdate [] props))]))
     end);
  Ret (PDict [("content", PDict [("application/json", PDict [("schema", jref "schemas" name)])])], schemas).

Definition query_parameter (name ty : string) : pyval :=
  PDict [("name", PStr name); ("in", PStr "query"); ("required", PBool false); ("schema", PDict [("type", PStr ty)])].

(** [methodname.rsplit('.', 1)[0]] and [[-1]] *)
Definition service_of (methodname : string) : string :=
  match PyStr.rsplit1 "." methodname with Some (s, _) => s | None => methodname end.
Definition short_name (methodname : string) : string :=
  match PyStr.rsplit1 "." methodname with Some (_, m) => m | None => methodname end.

Definition operation_names : list string := ["get"; "post"; "put"; "delete"].

Definition newline : string := String (Ascii.ascii_of_nat 10) "".

(** [add_path] *)
Definition add_path (fuel : nat) (methods : Methods) (path operation methodname : string) (service : Service)
    (rest : Rest) : outcome exn Rest :=
  if negb (bool_decide (operation ∈ operation_names)) then Raise AssertionError
  else
    let opobject : pydict :=
      [("tags", PList [PStr (service_of methodname)]);
       ("responses", PDict [("200", jref "responses" "Success"); ("401", jref "responses" "Unauthorized")]);
       ("parameters", PList [])] in
    let store opobject schemas :=
      let ops := from_option (λ d, d) [] (dget rest.(paths) ("/" +:+ path)) in
      Ret (mkRest rest.(routes) (dset rest.(paths) ("/" +:+ path) (dset ops operation (PDict opobject))) schemas) in
    match dget methods methodname with
    | None => store opobject rest.(schemas)
    | Some method =>
        if method.(require_pipes) then Ret rest
        else
          let desc :=
            if method.(downloadable) || method.(uploadable) then
              from_option (λ d, d) "" method.(description) +:+ newline +:+ newline +:+ "A file can be " +:+
                (if method.(downloadable) then "downloaded from" else "uploaded to") +:+ " " +:+
                "this end point. This end point is special, please refer to Jobs section in " +:+
                "Websocket API documentation for details."
            else from_option (λ d, d) "" method.(description) in
          let opobject := if PyStr.nonempty desc then dset opobject "description" (PStr desc) else opobject in
          '(opobject, parameters, schemas) ←
            (if method.(filterable) then
               Ret (opobject, [query_parameter "limit" "integer"; query_parameter "offset" "integer";
                               query_parameter "count" "boolean"; query_parameter "sort" "string"], rest.(schemas))
             else
               match method.(accepts) with
               | [] => Ret (opobject, [], rest.(schemas))
               | accepts =>
                   if String.eqb operation "delete" && method.(item_method) && Nat.eqb (length accepts) 1
                   then Ret (opobject, [], rest.(schemas))
                   else '(body, schemas) ← accepts_to_request fuel methodname method rest.(schemas);
                        Ret (dset opobject "requestBody" body, [], schemas)
               end);
          let parameters :=
            if PyStr.contains path "{id}" then
              parameters ++ [PDict [("name", PStr "id"); ("in", PStr "path"); ("required", PBool true);
                                    ("schema", PDict [("type", PStr service.(primary_key_type))])]]
            else parameters in
          store (dset opobject "parameters" (PList parameters)) schemas
    end.

(** ** Resources *)

(** [__map_method_params]: the enumeration from [i] on. *)
Fixpoint map_params (i : nat) (item : bool) (accepts : list Accept) (d : list (string * Param)) : list (string * Param) :=
  match accepts with
  | [] => d
  | a :: rest =>
      map_params (S i) item rest
        (if Nat.eqb i 0 && item then d else dset d a.(title) (mkParam i a.(required)))
  end.

(** [path.replace('{id}', '{id:[^/]+}')] *)
Fixpoint replace_id (s : string) : string :=
  match s with
  | String "{" (String "i" (String "d" (String "}" s'))) => "{id:[^/]+}" +:+ replace_id s'
  | String c s' => String c (replace_id s')
  | "" => ""
  end.

Definition upper (s : string) : string :=
  PyStr.map_chars (λ c, let n := Ascii.nat_of_ascii c in
    if ((97 <=? n) && (n <=? 122))%nat then Ascii.ascii_of_nat (n - 32) else c) s.

(** [get_path] *)
Definition get_path (parent : option Resource) (name : string) : string :=
  match parent with Some p => p.(path) +:+ "/" +:+ name | None => name end.

(** The loop of [Resource.__init__] over its operations. *)
Fixpoint add_operations (fuel : nat) (methods : Methods) (service : Service) (r : Resource)
    (ops : list (string * string)) (rest : Rest) : outcome exn Rest :=
  match ops with
  | [] => Ret rest
  | (operation, methodname) :: ops =>
      let route p := mkRoute (upper operation) ("/api/v2.0/" +:+ replace_id r.(path) +:+ p) r in
      let rest := mkRest (rest.(routes) ++ [route ""; route "/"]) rest.(paths) rest.(schemas) in
      rest ← add_path fuel methods r.(path) operation methodname service rest;
      add_operations fuel methods service r ops rest
  end.

(** The operations of a resource, in the order of the loop. *)
Definition ops_of (kwargs : list (string * string)) : list (string * string) :=
  omap (λ i, (λ m, (i, m)) <$> dget kwargs i) ["delete"; "get"; "post"; "put"].

(** [__map_method_params] for each of them. *)
Definition params_of (methods : Methods) (ops : list (string * string)) : list (string * list (string * Param)) :=
  foldl (λ d op, match dget methods op.2 with
                 | Some m => dset d op.2 (map_params 0 m.(item_method) m.(accepts) [])
                 | None => d
                 end) [] ops.

(** [Resource.__init__]; [kwargs] has the methods by HTTP method. *)
Definition new_resource (fuel : nat) (methods : Methods) (service : Service) (name : string) (parent : option Resource)
    (kwargs : list (string * string)) (rest : Rest) : outcome exn (Resource * Rest) :=
  let ops := ops_of kwargs in
  let r := mkResource (get_path parent name) (Rest.path <$> parent) ops (params_of methods ops) in
  rest ← add_operations fuel methods service r ops rest;
  Ret (r, rest).

(** [name.replace('.', '/')] *)
Definition slashed (s : string) : string := PyStr.map_chars (λ c, if Ascii.eqb c "." then "/"%char else c) s.

(** [if method in self._methods: kwargs[http] = method] *)
Definition if_known (methods : Methods) (http methodname : string) (kwargs : list (string * string)) : list (string * string) :=
  if dhas methods methodname then dset kwargs http methodname else kwargs.

(** The HTTP methods of a method that has a resource of its own. *)
Fixpoint add_extra (methodname : string) (extra : list string) (kwargs : list (string * string)) :
    outcome exn (list (string * string)) :=
  match extra with
  | [] => Ret kwargs
  | m :: extra =>
      if String.eqb (PyStr.lower m) "get" then add_extra methodname extra (dset kwargs "get" methodname)
      else Raise AssertionError
  end.

Definition method_kwargs (methodname : string) (method : Method) : outcome exn (list (string * string)) :=
  let http := match method.(accepts) with [] => "get" | _ => if method.(filterable) then "get" else "post" end in
  add_extra methodname method.(extra_methods) [(http, methodname)].

(** The loop over the methods of a service. *)
Fixpoint add_methods (fuel : nat) (methods : Methods) (service : Service) (blacklist : list string)
    (service_resource : Resource) (subresource : option Resource) (ms : list (string * Method)) (rest : Rest) :
    outcome exn Rest :=
  match ms with
  | [] => Ret rest
  | (methodname, method) :: ms =>
      rest ←
        (if bool_decide (methodname ∈ blacklist) || method.(require_websocket) then Ret rest
         else
           let parent := if method.(item_method) then subresource else Some service_resource in
           kwargs ← method_kwargs methodname method;
           '(_, rest) ← new_resource fuel methods service (short_name methodname) parent kwargs rest;
           Ret rest);
      add_methods fuel methods service blacklist service_resource subresource ms rest
  end.

Definition add_service (fuel : nat) (methods : Methods) (name : string) (service : Service) (rest : Rest) :
    outcome exn Rest :=
  let kwargs :=
    match service.(type) with
    | CrudType => if_known methods "post" (name +:+ ".create") [("get", name +:+ ".query")]
    | ConfigType => if_known methods "put" (name +:+ ".update") [("get", name +:+ ".config")]
    | OtherType => []
    end in
  '(service_resource, rest) ← new_resource fuel methods service (slashed name) None kwargs rest;
  '(subresource, subkwargs, rest) ←
    (match service.(type) with
     | CrudType =>
         let kwargs := if_known methods "get" (name +:+ ".query") [] in
         let kwargs := if_known methods "delete" (name +:+ ".delete") kwargs in
         let kwargs := if_known methods "put" (name +:+ ".update") kwargs in
         '(r, rest) ← new_resource fuel methods service "id/{id}" (Some service_resource) kwargs rest;
         Ret (Some r, kwargs, rest)
     | _ => Ret (None, [], rest)
     end);
  add_methods fuel methods service (kwargs.*2 ++ subkwargs.*2) service_resource subresource
    (List.filter (λ kv, String.eqb (service_of kv.1) name) methods) rest.

(** [register_resources] *)
Fixpoint register_resources (fuel : nat) (methods : Methods) (services : list (string * Service)) (rest : Rest) :
    outcome exn Rest :=
  match services with
  | [] => Ret rest
  | (name, service) :: services =>
      rest ← add_service fuel methods name service rest;
      register_resources fuel methods services rest
  end.

(** ** Arguments *)

(** [key.split('__', 1)] *)
Fixpoint split_dunder (s : string) : option (string * string) :=
  match s with
  | String "_" (String "_" s') => Some ("", s')
  | String c s' => '(a, b) ← split_dunder s'; Some (String c a, b)
  | "" => None
  end.

Definition int_of (s : string) : pyval := PInt (PyStr.digits_value s).

(** [convert] *)
Definition convert (val : string) : pyval :=
  if PyStr.isdigit val then int_of val
  else
    let l := PyStr.lower val in
    if bool_decide (l ∈ ["true"; "1"]) then PBool true
    else if bool_decide (l ∈ ["false"; "0"]) then PBool false
    else PStr val.

(** [op_map.get(op, op)] *)
Definition op_map (op : string) : string :=
  from_option (λ o, o) op
    (dget [("eq", "="); ("neq", "!="); ("gt", ">"); ("lt", "<"); ("gte", ">="); ("lte", "<="); ("regex", "~")] op).

(** The value of a filter. *)
Definition filter_value (val : string) : pyval :=
  if PyStr.isdigit val then int_of val
  else
    let l := PyStr.lower val in
    if String.eqb l "true" then PBool true
    else if String.eqb l "false" then PBool false
    else if String.eqb l "null" then PNone
    else PStr val.

(** One turn of the loop of [_filterable_args]. *)
Definition filterable_arg (acc : list pyval * pydict) (kv : string * string) : list pyval * pydict :=
  let '(filters, options) := acc in
  let '(key, val) := kv in
  let '(field, op) := from_option (λ fo, fo) (key, "=") (split_dunder key) in
  if bool_decide (key ∈ ["limit"; "offset"; "count"]) then (filters, dset options key (convert val))
  else if String.eqb key "sort" then (filters, dset options key (PList (convert <$> PyStr.split "," val)))
  else (filters ++ [PList [PStr field; PStr (op_map op); filter_value val]], options).

(** [_filterable_args] *)
Definition filterable_args (q : list (string * string)) : list pyval :=
  let '(filters, options) := foldl filterable_arg ([], []) q in
  match filters, options with
  | [], [] => []
  | _, _ => [PList filters; PDict options]
  end.

(** ** Responses *)

Inductive Body : Type := JsonBody (v : pyval) | StreamBody | NoBody.
Record Response : Type := mkResponse { status : Z; body : Body }.

Definition bad_request (message : string) : Response := mkResponse 400 (JsonBody (PDict [("message", PStr message)])).

(** What a method returns. *)
Inductive Result : Type := Value (v : pyval) | Generator (l : list pyval) | JobResult (id : Z).

(** The loop over the parameters: the arguments and what is left of [data], or the
    parameter that is missing. *)
Fixpoint take_params (params : list (string * Param)) (data : pydict) (args : list pyval) :
    outcome string (list pyval * pydict) :=
  match params with
  | [] => Ret (args, data)
  | (p, options) :: params =>
      match dget data p with
      | Some v => take_params params (ddel data p) (args ++ [v])
      | None => if options.(p_required) then Raise p else take_params params data args
      end
  end.

(** [sorted(params.items(), key=lambda x: x[1]['order'])] *)
Definition by_order (params : list (string * Param)) : list (string * Param) :=
  sorted_by (λ x y, Nat.leb x.2.(order) y.2.(order)) params.

Section handler.
Context (methods : Methods) (json_loads : string → outcome exn pyval) (exn_str : exn → string).
Context (traceback : exn → string).
(** [middleware.call] with the arguments, and whether an [Application] is passed. *)
Context (call : string → list pyval → outcome exn Result).
Context (twofactor_enabled webauthn_enabled : bool).
Context (check_user : string → string → outcome exn bool) (api_key_authenticate : string → outcome exn pyval).

(** The calls made so far: the method, its arguments and the peer it is told. *)
Record Call : Type := mkCall { c_method : string; c_args : list pyval; c_app : option (option string * option string) }.

Notation MR := (M (list Call) HttpError).

(** The arguments in the body of a request, or a response that ends it. *)
Definition body_args (params : option (list (string * Param))) (http_method : string) (req : Request) :
    outcome Response (list pyval) :=
  if PyStr.nonempty req.(text) then
    match json_loads req.(text) with
    | Raise e => Raise (bad_request (exn_str e))
    | Ret data =>
        let params := from_option (λ p, p) [] params in
        if Nat.eqb (length params) 0 && bool_decide (http_method ∈ ["get"; "delete"]) && negb (truthy data) then Ret []
        else if (length params <=? 1)%nat then Ret [data]
        else
          match data with
          | PDict d =>
              match take_params (by_order params) d [] with
              | Raise p => Raise (bad_request (p +:+ " attribute expected."))
              | Ret (args, []) => Ret args
              | Ret (_, rest) =>
                  Raise (bad_request ("The following attributes are not expected: " +:+ join ", " (dkeys rest)))
              end
          | _ => Raise (bad_request "Endpoint accepts multiple params, object/dict expected.")
          end
    end
  else Ret [].

(** The arguments of a call. *)
Definition method_args (r : Resource) (http_method methodname : string) (method : Method) (req : Request) :
    outcome Response (list pyval) :=
  let args :=
    if String.eqb http_method "get" && method.(filterable) then
      match r.(parent), dget req.(match_info) "id" with
      | Some _, Some id =>
          [PList [PList [PStr "id"; PStr "="; if PyStr.isdigit id then int_of id else PStr id]];
           PDict [("get", PBool true); ("force_sql_filters", PBool true)]]
      | _, _ => filterable_args req.(query)
      end
    else [] in
  match args with
  | [] => body_args (dget r.(method_params) methodname) http_method req
  | _ => Ret args
  end.

(** [result[attr].append(...)] for each error. *)
Definition add_error (result : pydict) (e : ValidationError) : pydict :=
  let entry := PDict [("message", PStr e.(errmsg)); ("errno", PInt e.(errno))] in
  dset result e.(attribute) (PList (match dget result e.(attribute) with Some (PList l) => l ++ [entry] | _ => [entry] end)).

(** The response to an exception of the method. *)
Definition error_response (e : exn) : Response :=
  match e with
  | CallError msg n _ => mkResponse 422 (JsonBody (PDict [("message", PStr msg); ("errno", PInt n)]))
  | SchemaError a msg => mkResponse 422 (JsonBody (PDict (add_error [] (mkVE a msg EINVAL))))
  | ValidationErrorExn ve => mkResponse 422 (JsonBody (PDict (add_error [] ve)))
  | ValidationErrors es => mkResponse 422 (JsonBody (PDict (foldl add_error [] es)))
  | _ =>
      match adapt_exception e with
      | Some (CallError msg n _) => mkResponse 422 (JsonBody (PDict [("message", PStr msg); ("errno", PInt n)]))
      | _ =>
          match e with
          | MatchNotFound => mkResponse 404 (JsonBody (PDict [("message", PStr (exn_str e))]))
          | _ => mkResponse 500 (JsonBody (PDict [("message", PStr (exn_str e)); ("traceback", PStr (traceback e))]))
          end
      end
  end.

Definition result_value (r : Result) : pyval :=
  match r with Value v => v | Generator l => PList l | JobResult id => PInt id end.

Definition log_call (c : Call) : MR unit := modify (λ l, l ++ [c]).

(** [Resource.do] *)
Definition do (r : Resource) (http_method : string) (req : Request) : MR Response :=
  if negb (bool_decide (http_method ∈ ["delete"; "get"; "post"; "put"])) then raise (InternalError AssertionError)
  else
    match dget r.(operations) http_method with
    | None => raise (InternalError (AttributeError http_method))
    | Some methodname =>
        match dget methods methodname with
        | None => raise (InternalError (KeyError methodname))
        | Some method =>
            match method_args r http_method methodname method req with
            | Raise response => mret response
            | Ret args =>
                match (if method.(item_method) then
                         match dget req.(match_info) "id" with
                         | Some id => Ret (PStr id :: args)
                         | None => Raise (KeyError "id")
                         end
                       else Ret args) with
                | Raise e => raise (InternalError e)
                | Ret args =>
                    log_call (mkCall methodname args (if method.(pass_application) then Some req.(real_remote) else None));;
                    mret (if method.(downloadable) then mkResponse 200 StreamBody
                          else match call methodname args with
                               | Ret res => mkResponse 200 (JsonBody (result_value res))
                               | Raise e => error_response e
                               end)
                end
            end
        end
    end.

(** [on_method] *)
Definition on_method (r : Resource) (http_method : string) (req : Request) : MR Response :=
  match dget r.(operations) http_method with
  | None => raise (InternalError (TypeError "'NoneType' object is not callable"))
  | Some methodname =>
      match dget methods methodname with
      | None => raise (InternalError (KeyError methodname))
      | Some method =>
          (if method.(no_auth_required) then mret tt
           else λ l, (authenticate twofactor_enabled webauthn_enabled check_user api_key_authenticate req, l));;
          do r http_method req
      end
  end.
End handler.
