(* ===== verification/RestFacts.v ===== *)
(** * Theorems on the REST server

    A method is called only for a request that carries valid credentials, and a
    password is not one of them while a second factor is on; the arguments of a
    call are those of the body in the order of the parameters; every method has a
    route. *)

From S2P Require Import Prelude PyValue Schema Job Filter Base64 Rest.

Lemma startswith_drop s p : PyStr.startswith s p = true → s = p +:+ PyStr.drop (String.length p) s.
Proof.
  intros [t ->]%PyStr.startswith_spec. f_equal. induction p as [|c p IH]; cbn; [by destruct t|done].
Qed.

(** ** Credentials *)

Section guard.
Context (methods : Methods) (json_loads : string → outcome exn pyval) (exn_str traceback : exn → string).
Context (call : string → list pyval → outcome exn Result).
Context (twofactor_enabled webauthn_enabled : bool).
Context (check_user : string → string → outcome exn bool) (api_key_authenticate : string → outcome exn pyval).

Notation authenticate := (authenticate twofactor_enabled webauthn_enabled check_user api_key_authenticate).
Notation on_method := (on_method methods json_loads exn_str traceback call twofactor_enabled webauthn_enabled
  check_user api_key_authenticate).
Notation do := (do methods json_loads exn_str traceback call).

(** A password of a system without a second factor, or an API key. *)
Definition has_credentials (req : Request) : Prop :=
  (∃ b64 username password, req.(authorization) = Some ("Basic " +:+ b64) ∧ basic_credentials b64 = Ret (username, password) ∧
     twofactor_enabled = false ∧ webauthn_enabled = false ∧ check_user username password = Ret true) ∨
  (∃ key row, req.(authorization) = Some ("Bearer " +:+ key) ∧ api_key_authenticate key = Ret row ∧ row ≠ PNone).

Lemma rest_authenticate_spec req : authenticate req = Ret tt ↔ has_credentials req.
Proof.
  unfold Rest.authenticate, has_credentials. destruct (authorization req) as [auth|]; [|naive_solver].
  destruct (PyStr.startswith auth "Basic ") eqn:Hb.
  - apply startswith_drop in Hb. cbn [String.length] in Hb. revert Hb. generalize (PyStr.drop 6 auth). intros b64 ->. split.
    + destruct twofactor_enabled, webauthn_enabled; try done. rewrite outcome_bind_Ret. intros ([u p] & Hc & Hu).
      left. exists b64, u, p. destruct (check_user u p) as [[]|] eqn:Hcu; done.
    + intros [(b & u & p & Hb & Hc & -> & -> & Hu)|(k & row & Hb & _)]; injection Hb as Hb; [|done].
      change (b64 = b) in Hb. subst. rewrite Hc. cbn. by rewrite Hu.
  - destruct (PyStr.startswith auth "Bearer ") eqn:Hk.
    + apply startswith_drop in Hk. cbn [String.length] in Hk. revert Hk. generalize (PyStr.drop 7 auth). intros key ->. split.
      * destruct (api_key_authenticate key) as [row|] eqn:Ha; [|done]. intros H. right. exists key, row. by destruct row.
      * intros [(b & u & p & Hk & _)|(k & row & Hk & Ha & Hr)]; injection Hk as Hk; [done|].
        change (key = k) in Hk. subst. rewrite Ha. by destruct row.
    + split; [done|]. intros [(b & u & p & Ha & _)|(k & row & Ha & _)]; assert (auth = _) by (by apply (inj Some)); subst.
      * by rewrite PyStr.startswith_app in Hb.
      * by rewrite PyStr.startswith_app in Hk.
Qed.

(** A handler either calls nothing or calls the method of its resource. *)
Lemma do_calls r http req l x l' :
  do r http req l = (x, l') →
  l' = l ∨ ∃ m method args app, dget r.(operations) http = Some m ∧ dget methods m = Some method ∧ l' = l ++ [mkCall m args app].
Proof.
  unfold Rest.do, raise, log_call, modify, mbind, M_bind, mret, M_ret. destruct (negb _); [by intros [= <- <-]; left|].
  destruct (dget r.(operations) http) as [m|]; [|by intros [= <- <-]; left].
  destruct (dget methods m) as [method|] eqn:Hm; [|by intros [= <- <-]; left].
  destruct (method_args _ _ _ _ _ _ _) as [args|resp]; [|by intros [= <- <-]; left].
  destruct (if item_method method then _ else _) as [args'|e]; [|by intros [= <- <-]; left].
  intros [= <- <-]. right. by do 4 eexists.
Qed.

(** C40. A method is called over REST only if it needs no authentication or the
    request carries an API key that is accepted or, with neither one-time
    passwords nor security keys enabled, a user name and password that are right;
    the call is the one of the resource's method and there is at most one.  A
    request with these credentials passes. *)
Theorem rest_guard r http req l x l' :
  on_method r http req l = (x, l') →
  (l' = l ∨
   ∃ m method args app, dget r.(operations) http = Some m ∧ dget methods m = Some method ∧ l' = l ++ [mkCall m args app] ∧
     (method.(no_auth_required) = true ∨ has_credentials req)) ∧
  (has_credentials req → authenticate req = Ret tt).
Proof.
  intros H. split; [|by intros ?%rest_authenticate_spec]. unfold Rest.on_method, raise, mbind, M_bind, mret, M_ret in H.
  destruct (dget r.(operations) http) as [m|] eqn:Hop; [|injection H as <- <-; by left].
  destruct (dget methods m) as [method|] eqn:Hm; [|injection H as <- <-; by left].
  destruct (no_auth_required method) eqn:Hna.
  - apply do_calls in H as [->|(m' & method' & args & app & Ho & Hm' & ->)]; [by left|right]. rewrite Hop in Ho. injection Ho as <-.
    rewrite Hm in Hm'. injection Hm' as <-. exists m, method, args, app. split_and!; try done. by left.
  - destruct (authenticate req) as [[]|e] eqn:Ha; [|injection H as <- <-; by left].
    apply do_calls in H as [->|(m' & method' & args & app & Ho & Hm' & ->)]; [by left|right]. rewrite Hop in Ho. injection Ho as <-.
    rewrite Hm in Hm'. injection Hm' as <-. exists m, method, args, app. split_and!; try done. right. by apply rest_authenticate_spec.
Qed.
End guard.

(** What a client sends for a user and a password is read back. *)
Lemma basic_roundtrip username password :
  PyStr.count ":" username = 0 → utf8_decode (username +:+ ":" +:+ password) = Some (username +:+ ":" +:+ password) →
  basic_credentials (b64encode (username +:+ ":" +:+ password)) = Ret (username, password).
Proof.
  intros Hc Hu. unfold basic_credentials. rewrite b64encode_ascii, b64_roundtrip, Hu.
  by rewrite (proj2 (PyStr.split1_Some ":" _ username password)).
Qed.

(** ** Arguments *)

Lemma elem_of_dkeys {A} (d : list (string * A)) k v : In (k, v) d → k ∈ dkeys d.
Proof. intros Hin%list_elem_of_In. apply list_elem_of_fmap. by exists (k, v). Qed.

Lemma ddel_filter {A} (d : list (string * A)) k : NoDup (dkeys d) → ddel d k = List.filter (λ kv, negb (String.eqb kv.1 k)) d.
Proof.
  induction d as [|[k' v] d IH]; cbn; [done|]. intros [Hk Hd]%NoDup_cons. case_decide as He.
  - subst. rewrite String.eqb_refl. cbn. rewrite List.forallb_filter_id; [done|]. apply forallb_forall. intros [k' v'] Hin. cbn.
    apply negb_true_iff, String.eqb_neq. intros ->. apply Hk. by apply elem_of_dkeys in Hin.
  - rewrite (proj2 (String.eqb_neq _ _)) by done. cbn. by rewrite IH.
Qed.

Lemma dkeys_filter_NoDup {A} (d : list (string * A)) p : NoDup (dkeys d) → NoDup (dkeys (List.filter p d)).
Proof.
  induction d as [|[k v] d IH]; cbn; [done|]. intros [Hk Hd]%NoDup_cons. destruct (p (k, v)); [|by apply IH].
  cbn. apply NoDup_cons. split; [|by apply IH]. intros ([k' v'] & -> & Hin)%list_elem_of_fmap. apply Hk.
  apply list_elem_of_In, filter_In in Hin as [Hin _]. by apply elem_of_dkeys in Hin.
Qed.

Lemma find_ext_elem {A} (f g : A → bool) l : (∀ x, x ∈ l → f x = g x) → List.find f l = List.find g l.
Proof.
  induction l as [|x l IH]; intros H; [done|]. cbn. rewrite (H x) by (by left). rewrite IH; [done|]. intros y Hy. apply H. by right.
Qed.

Lemma omap_ext_elem {A B} (f g : A → option B) (l : list A) : (∀ x, x ∈ l → f x = g x) → omap f l = omap g l.
Proof.
  induction l as [|x l IH]; intros H; [done|]. cbn. rewrite (H x) by (by left). rewrite IH; [done|]. intros y Hy. apply H. by right.
Qed.

Lemma filter_twice {A} (p q : A → bool) l : List.filter p (List.filter q l) = List.filter (λ x, q x && p x) l.
Proof. induction l as [|x l IH]; cbn; [done|]. destruct (q x); cbn; by rewrite IH. Qed.

(** The first required parameter that is missing. *)
Definition missing (d : pydict) (p : string * Param) : bool := p.2.(p_required) && negb (dhas d p.1).

Definition unexpected (params : list (string * Param)) (d : pydict) : pydict :=
  List.filter (λ kv, negb (bool_decide (kv.1 ∈ dkeys params))) d.

Lemma missing_ddel d k p : p.1 ≠ k → missing (ddel d k) p = missing d p.
Proof. intros Hne. unfold missing, dhas. by rewrite dget_ddel_ne. Qed.

Lemma take_params_spec params d acc :
  NoDup (dkeys params) → NoDup (dkeys d) →
  take_params params d acc =
    match List.find (missing d) params with
    | Some p => Raise p.1
    | None => Ret (acc ++ omap (λ p, dget d p.1) params, unexpected params d)
    end.
Proof.
  revert d acc. induction params as [|[p o] params IH]; intros d acc.
  { intros _ _. cbn. unfold unexpected. rewrite app_nil_r, List.forallb_filter_id; [done|]. by apply forallb_forall. }
  change (dkeys ((p, o) :: params)) with (p :: dkeys params).
  intros [Hp Hnd]%NoDup_cons Hd. cbn [take_params List.find]. unfold missing at 1, dhas. cbn [fst snd].
  destruct (dget d p) as [v|] eqn:Hv.
  - rewrite andb_false_r, IH; [|done|rewrite ddel_filter by done; by apply dkeys_filter_NoDup].
    assert (∀ q, q ∈ params → q.1 ≠ p) as Hne by (intros [q x] Hq <-; by apply Hp, (elem_of_dkeys _ _ x), list_elem_of_In).
    rewrite (find_ext_elem (missing (ddel d p)) (missing d)) by (intros q Hq; by apply missing_ddel, Hne).
    destruct (List.find (missing d) params); [done|]. f_equal. f_equal.
    + cbn [omap list_omap fst]. rewrite Hv. rewrite <-app_assoc. f_equal. cbn. f_equal.
      apply omap_ext_elem. intros q Hq. by apply dget_ddel_ne, not_eq_sym, Hne.
    + unfold unexpected. rewrite ddel_filter by done. rewrite filter_twice. apply List.filter_ext. intros [k x]. cbn.
      destruct (String.eqb_spec k p) as [-> |Hkp]; cbn.
      * rewrite (bool_decide_eq_true_2 (p ∈ p :: _)); [done|by left].
      * f_equal. apply bool_decide_ext. unfold dkeys. set_solver.
  - rewrite andb_true_r. destruct (p_required o); [done|]. rewrite IH by done.
    destruct (List.find (missing d) params); [done|]. f_equal. f_equal.
    + cbn [omap list_omap fst]. by rewrite Hv.
    + unfold unexpected. apply filter_ext_in. intros [k x] Hin. cbn. f_equal. apply bool_decide_ext.
      assert (k ≠ p). { intros ->. apply (proj1 (dget_None d p) Hv). by apply elem_of_dkeys in Hin. }
      unfold dkeys. set_solver.
Qed.

(** The parameters as they are numbered. *)
Definition numbered (i : nat) (accs : list Accept) : list (string * Param) :=
  imap (λ j a, (a.(title), mkParam (i + j) a.(required))) accs.

Lemma dkeys_numbered i accs : dkeys (numbered i accs) = title <$> accs.
Proof.
  unfold dkeys, numbered. rewrite fmap_imap. revert i. induction accs as [|a accs IH]; intros i; [done|]. cbn. f_equal.
  rewrite <-(IH i). by apply imap_ext.
Qed.

Lemma numbered_cons i a accs : numbered i (a :: accs) = (a.(title), mkParam i a.(required)) :: numbered (S i) accs.
Proof. unfold numbered. cbn. rewrite Nat.add_0_r. f_equal. apply imap_ext. intros j x _. cbn. do 2 f_equal. lia. Qed.

Lemma map_params_numbered i item accs d :
  i ≠ 0 ∨ item = false → NoDup (dkeys d ++ (title <$> accs)) → map_params i item accs d = d ++ numbered i accs.
Proof.
  revert i d. induction accs as [|a accs IH]; intros i d Hi Hnd; cbn [map_params]; [by rewrite app_nil_r|].
  replace (Nat.eqb i 0 && item) with false by (destruct Hi as [Hi| ->]; [by rewrite (proj2 (Nat.eqb_neq i 0))|by rewrite andb_false_r]).
  cbn [fmap list_fmap] in Hnd. assert (a.(title) ∉ dkeys d) as Ha.
  { intros Hin. apply NoDup_app in Hnd as (_ & Hnd & _). apply (Hnd _ Hin). by left. }
  rewrite dset_fresh by done. rewrite IH; [|lia|].
  - rewrite numbered_cons, <-app_assoc. done.
  - unfold dkeys. rewrite fmap_app, <-app_assoc. done.
Qed.

Lemma sorted_numbered i accs : by_order (numbered i accs) = numbered i accs.
Proof.
  unfold by_order. revert i. induction accs as [|a accs IH]; intros i; [done|]. rewrite numbered_cons.
  unfold sorted_by in *. cbn [foldr]. rewrite IH. destruct accs as [|b accs]; [done|]. rewrite numbered_cons. cbn [insert_by snd order].
  by rewrite (proj2 (Nat.leb_le i (S i))) by lia.
Qed.

Lemma params_of_get methods ops http m method :
  (http, m) ∈ ops → dget methods m = Some method →
  dget (params_of methods ops) m = Some (map_params 0 method.(item_method) method.(accepts) []).
Proof.
  intros Hop Hm. unfold params_of. generalize (@nil (string * list (string * Param))) at 1.
  assert (∀ d, dget d m = Some (map_params 0 method.(item_method) method.(accepts) []) ∨ (http, m) ∈ ops →
    dget (foldl (λ d op, match dget methods op.2 with
                         | Some m => dset d op.2 (map_params 0 m.(item_method) m.(accepts) [])
                         | None => d
                         end) d ops) m = Some (map_params 0 method.(item_method) method.(accepts) [])); [|auto].
  clear Hop. induction ops as [|[h m'] ops IH]; intros d Hd; cbn.
  - destruct Hd as [Hd|Hd]; [done|]. by apply elem_of_nil in Hd.
  - apply IH. destruct (decide (m' = m)) as [-> |Hne].
    + left. rewrite Hm. by rewrite dget_dset.
    + destruct Hd as [Hd|[Heq|Hin]%elem_of_cons]; [left|congruence|by right].
      destruct (dget methods m'); [|done]. by rewrite dget_dset_ne.
Qed.

Lemma new_resource_params fuel methods service name parent kwargs rest r rest' http m method :
  new_resource fuel methods service name parent kwargs rest = Ret (r, rest') →
  dget r.(operations) http = Some m → dget methods m = Some method →
  dget r.(method_params) m = Some (map_params 0 method.(item_method) method.(accepts) []).
Proof.
  unfold new_resource. rewrite outcome_bind_Ret. intros (rest1 & _ & [= <- <-]) Hop Hm. cbn [operations method_params] in *.
  apply dget_elem_of in Hop. by apply (params_of_get _ _ http).
Qed.

Lemma omap_numbered (d : pydict) i accs : omap (λ p, dget d p.1) (numbered i accs) = omap (λ a, dget d a.(title)) accs.
Proof. revert i. induction accs as [|a accs IH]; intros i; [done|]. rewrite numbered_cons. cbn. by rewrite IH. Qed.

Lemma find_numbered (d : pydict) i accs :
  fst <$> List.find (missing d) (numbered i accs) = title <$> List.find (λ a, a.(required) && negb (dhas d a.(title))) accs.
Proof.
  revert i. induction accs as [|a accs IH]; intros i; [done|]. rewrite numbered_cons. cbn [List.find]. unfold missing at 1. cbn [fst snd p_required].
  destruct (_ && _); [done|]. apply IH.
Qed.

(** The parameters that the body names: the id of an item is in the path. *)
Definition body_params (m : Method) : list Accept := if m.(item_method) then tail m.(accepts) else m.(accepts).

(** The body of a request to a method of several parameters is an object, and
    its arguments are exactly the values of the parameters it names, in the order
    of the parameters; the request is refused, before anything is called, if a
    required parameter is missing or the object has any other key. *)
Theorem rest_arguments json_loads exn_str fuel methods service name parent kwargs rest r rest' http m method req d :
  new_resource fuel methods service name parent kwargs rest = Ret (r, rest') →
  dget r.(operations) http = Some m → dget methods m = Some method →
  String.eqb http "get" && method.(filterable) = false →
  NoDup (title <$> method.(accepts)) → 1 < length (body_params method) →
  req.(text) ≠ "" → json_loads req.(text) = Ret (PDict d) → NoDup (dkeys d) →
  method_args json_loads exn_str r http m method req =
    match List.find (λ a, a.(required) && negb (dhas d a.(title))) (body_params method) with
    | Some a => Raise (bad_request (a.(title) +:+ " attribute expected."))
    | None =>
        match List.filter (λ kv, negb (bool_decide (kv.1 ∈ title <$> body_params method))) d with
        | [] => Ret (omap (λ a, dget d a.(title)) (body_params method))
        | extra => Raise (bad_request ("The following attributes are not expected: " +:+ join ", " (dkeys extra)))
        end
    end.
Proof.
  intros Hr Hop Hm Hget Htitles Hlen Htext Hjson Hd. unfold method_args. rewrite Hget.
  rewrite (new_resource_params _ _ _ _ _ _ _ _ _ _ _ _ Hr Hop Hm). unfold body_args.
  replace (PyStr.nonempty (text req)) with true by (unfold PyStr.nonempty; by rewrite (proj2 (String.eqb_neq _ _))).
  rewrite Hjson. cbn [from_option].
  assert (∃ i, map_params 0 (item_method method) (accepts method) [] = numbered i (body_params method)) as [i ->].
  { unfold body_params in *. destruct (item_method method) eqn:Hi.
    - destruct (accepts method) as [|a accs]; [cbn in Hlen; lia|]. exists 1. cbn [map_params Nat.eqb andb tail].
      apply NoDup_cons in Htitles as [_ ?]. rewrite map_params_numbered; [done|by left|done].
    - exists 0. rewrite map_params_numbered; [done|by right|done]. }
  assert (NoDup (title <$> body_params method)) as Hnd.
  { unfold body_params. destruct (item_method method); [|done]. destruct (accepts method); [constructor|]. by apply NoDup_cons in Htitles as [_ ?]. }
  assert (length (numbered i (body_params method)) = length (body_params method)) as Hl by (by unfold numbered; rewrite length_imap).
  rewrite Hl. destruct (length (body_params method)) as [|[|n]] eqn:Hn; [lia|lia|]. cbn [Nat.eqb andb Nat.leb].
  rewrite sorted_numbered, take_params_spec by (done || by rewrite dkeys_numbered).
  unfold unexpected. rewrite dkeys_numbered, omap_numbered. 
  pose proof (find_numbered d i (body_params method)) as Hf.
  destruct (List.find (missing d) _) as [[p o]|], (List.find _ (body_params method)) as [a|]; try done; [by injection Hf as ->|].
  by destruct (List.filter _ d).
Qed.

(** ** Routes *)

Definition served (rest : Rest) (m : string) : Prop :=
  ∃ rt op, rt ∈ rest.(routes) ∧ rt.(http) = upper op ∧ (op, m) ∈ rt.(resource).(operations).

Definition more_routes (rest rest' : Rest) : Prop := ∀ rt, rt ∈ rest.(routes) → rt ∈ rest'.(routes).

#[global] Instance more_routes_pre : PreOrder more_routes.
Proof. split; [by intros x rt Hrt|]. intros x y z Hxy Hyz rt Hrt. auto. Qed.

Lemma served_more rest rest' m : served rest m → more_routes rest rest' → served rest' m.
Proof. intros (rt & op & Hin & H) Hmore. exists rt, op. auto. Qed.

Lemma add_path_routes fuel methods path op m service rest rest' :
  add_path fuel methods path op m service rest = Ret rest' → rest'.(routes) = rest.(routes).
Proof.
  unfold add_path. destruct (negb _); [done|]. destruct (dget methods m) as [method|]; [|by intros [= <-]].
  destruct (require_pipes method); [by intros [= <-]|]. rewrite outcome_bind_Ret. by intros ([[o ps] ss] & _ & [= <-]).
Qed.

Lemma add_operations_routes fuel methods service r ops rest rest' :
  add_operations fuel methods service r ops rest = Ret rest' →
  more_routes rest rest' ∧ ∀ op m, (op, m) ∈ ops → ∃ rt, rt ∈ rest'.(routes) ∧ rt.(http) = upper op ∧ rt.(resource) = r.
Proof.
  revert rest. induction ops as [|[op m] ops IH]; intros rest; cbn [add_operations].
  { intros [= <-]. split; [done|]. by intros op m ?%elem_of_nil. }
  rewrite outcome_bind_Ret. intros (rest1 & Hp%add_path_routes & H). cbn [routes] in Hp. destruct (IH _ H) as [Hmore Hops]. split.
  - intros rt Hrt. apply Hmore. rewrite Hp. by apply elem_of_app; left.
  - intros op' m' [[= -> ->]|Hin]%elem_of_cons; [|by eapply Hops].
    exists (mkRoute (upper op) ("/api/v2.0/" +:+ replace_id r.(path) +:+ "") r). split; [|done].
    apply Hmore. rewrite Hp. apply elem_of_app. right. by left.
Qed.

Lemma new_resource_routes fuel methods service name parent kwargs rest r rest' :
  new_resource fuel methods service name parent kwargs rest = Ret (r, rest') →
  more_routes rest rest' ∧ ∀ op m, (op, m) ∈ ops_of kwargs → served rest' m.
Proof.
  unfold new_resource. rewrite outcome_bind_Ret. intros (rest1 & H & [= <- <-]).
  destruct (add_operations_routes _ _ _ _ _ _ _ H) as [Hmore Hops]. split; [done|]. intros op m Hin.
  destruct (Hops op m Hin) as (rt & Hrt & Hhttp & Hr). exists rt, op. by rewrite Hr.
Qed.

(** The dicts of keyword arguments: every method in them becomes an operation. *)
Definition kwargs_ok (kw : list (string * string)) : Prop :=
  NoDup (dkeys kw) ∧ ∀ k, k ∈ dkeys kw → k ∈ ["delete"; "get"; "post"; "put"].

Lemma kwargs_ok_nil : kwargs_ok [].
Proof. split; [constructor|]. by intros k ?%elem_of_nil. Qed.

Lemma kwargs_ok_dset kw k v : kwargs_ok kw → k ∈ ["delete"; "get"; "post"; "put"] → kwargs_ok (dset kw k v).
Proof.
  intros [Hnd Hin] Hk. split; [by apply dset_NoDup|]. intros k'. rewrite dkeys_dset. case_decide; [by apply Hin|].
  intros [Hk'| ->%list_elem_of_singleton]%elem_of_app; auto.
Qed.

Lemma kwargs_ok_if kw methods k m : kwargs_ok kw → k ∈ ["delete"; "get"; "post"; "put"] → kwargs_ok (if_known methods k m kw).
Proof. unfold if_known. destruct (dhas methods m); auto using kwargs_ok_dset. Qed.

Lemma kwargs_ops kw m : kwargs_ok kw → m ∈ kw.*2 → ∃ op, (op, m) ∈ ops_of kw.
Proof.
  intros [Hnd Hk] ([op m'] & -> & Hin)%list_elem_of_fmap. exists op. unfold ops_of. apply list_elem_of_omap. exists op. split.
  - apply Hk. apply list_elem_of_In in Hin. by apply elem_of_dkeys in Hin.
  - by rewrite (elem_of_dget kw op m').
Qed.

Lemma add_extra_kwargs m extra kw kw' :
  add_extra m extra kw = Ret kw' → kwargs_ok kw → m ∈ kw.*2 → (∀ k, dget kw k = None ∨ dget kw k = Some m) → kwargs_ok kw' ∧ m ∈ kw'.*2.
Proof.
  revert kw. induction extra as [|x extra IH]; intros kw; cbn [add_extra]; [by intros [= <-]|].
  destruct (String.eqb _ _); [|done]. intros H Hok Hin Hall.
  assert (dget (dset kw "get" m) "get" = Some m) as Hget by apply dget_dset. apply (IH _ H).
  - apply kwargs_ok_dset; [done|]. set_solver.
  - apply dget_elem_of in Hget. apply list_elem_of_fmap. by exists ("get", m).
  - intros k. destruct (decide (k = "get")) as [-> |Hne]; [by right|]. rewrite dget_dset_ne by done. apply Hall.
Qed.

Lemma method_kwargs_ok m method kw : method_kwargs m method = Ret kw → kwargs_ok kw ∧ m ∈ kw.*2.
Proof.
  unfold method_kwargs. intros H.
  assert (∀ h, h ∈ ["delete"; "get"; "post"; "put"] → kwargs_ok [(h, m)] ∧ m ∈ [(h, m)].*2 ∧
    ∀ k, dget [(h, m)] k = None ∨ dget [(h, m)] k = Some m) as Hh.
  { intros h Hh. split_and!; [|by left|].
    - apply (kwargs_ok_dset [] h m); [apply kwargs_ok_nil|done].
    - intros k. cbn. case_decide; auto. }
  destruct (accepts method); [|destruct (filterable method)]; (eapply add_extra_kwargs; [exact H|apply Hh; set_solver..]).
Qed.

Lemma add_methods_routes fuel methods service blacklist sr sub ms rest rest' :
  add_methods fuel methods service blacklist sr sub ms rest = Ret rest' →
  more_routes rest rest' ∧
  ∀ m method, (m, method) ∈ ms → m ∉ blacklist → method.(require_websocket) = false → served rest' m.
Proof.
  revert rest. induction ms as [|[m method] ms IH]; intros rest; cbn [add_methods].
  { intros [= <-]. split; [done|]. by intros m method ?%elem_of_nil. }
  rewrite outcome_bind_Ret. intros (rest1 & H1 & H2). destruct (IH _ H2) as [Hmore Hall].
  destruct (bool_decide (m ∈ blacklist) || require_websocket method) eqn:Hskip.
  - injection H1 as <-. split; [done|]. intros m' method' [[= -> ->]|Hin]%elem_of_cons; [|by eapply Hall]. intros Hb Hw.
    apply orb_true_iff in Hskip as [Hs|Hs]; [by apply bool_decide_eq_true in Hs|congruence].
  - rewrite outcome_bind_Ret in H1. destruct H1 as (kw & Hkw & H1). rewrite outcome_bind_Ret in H1. destruct H1 as ([r rest2] & Hr & [= <-]).
    destruct (new_resource_routes _ _ _ _ _ _ _ _ _ Hr) as [Hmore2 Hops]. split; [by transitivity rest2|].
    intros m' method' [[= -> ->]|Hin]%elem_of_cons; [|by eapply Hall]. intros _ _.
    apply method_kwargs_ok in Hkw as [Hok Hm]. destruct (kwargs_ops _ _ Hok Hm) as [op Hop].
    eapply served_more; [by eapply Hops|done].
Qed.

Lemma add_service_routes fuel methods name service rest rest' :
  add_service fuel methods name service rest = Ret rest' →
  more_routes rest rest' ∧
  ∀ m method, (m, method) ∈ methods → service_of m = name → method.(require_websocket) = false → served rest' m.
Proof.
  unfold add_service. set (kw := match service.(type) with CrudType => _ | ConfigType => _ | OtherType => _ end).
  assert (kwargs_ok kw) as Hkw.
  { unfold kw. destruct (type service); [..|apply kwargs_ok_nil]; (apply kwargs_ok_if; [|set_solver]).
    - apply (kwargs_ok_dset [] "get"); [apply kwargs_ok_nil|set_solver].
    - apply (kwargs_ok_dset [] "get"); [apply kwargs_ok_nil|set_solver]. }
  rewrite outcome_bind_Ret. intros ([sr rest1] & H1 & H). rewrite outcome_bind_Ret in H. destruct H as ([[sub skw] rest2] & H2 & H3).
  destruct (new_resource_routes _ _ _ _ _ _ _ _ _ H1) as [Hm1 Hops1].
  destruct (add_methods_routes _ _ _ _ _ _ _ _ _ H3) as [Hm3 Hall].
  assert (more_routes rest1 rest2 ∧ ∀ m, m ∈ skw.*2 → served rest2 m) as [Hm2 Hops2].
  { destruct (type service); [|by injection H2 as <- <- <-; split; [done|intros m ?%elem_of_nil]..].
    rewrite outcome_bind_Ret in H2. destruct H2 as ([r rest3] & Hr & [= <- <- <-]).
    destruct (new_resource_routes _ _ _ _ _ _ _ _ _ Hr) as [Hmore Hops]. split; [done|]. intros m Hm.
    edestruct kwargs_ops as [op Hop]; [|exact Hm|by eapply Hops].
    repeat (apply kwargs_ok_if; [|set_solver]). apply kwargs_ok_nil. }
  split; [by transitivity rest1; [|transitivity rest2]|]. intros m method Hin Hs Hw.
  destruct (decide (m ∈ kw.*2)) as [Hk|Hk].
  { destruct (kwargs_ops _ _ Hkw Hk) as [op Hop]. eapply served_more; [by eapply Hops1|by transitivity rest2]. }
  destruct (decide (m ∈ skw.*2)) as [Hk2|Hk2]; [eapply served_more; [by apply Hops2|done]|].
  apply (Hall m method); [|set_solver|done]. apply list_elem_of_In, filter_In. split; [by apply list_elem_of_In|].
  cbn. by apply String.eqb_eq.
Qed.

(** No method is forgotten: when the resources have been registered, every
    method of a public service that does not need a websocket has a route. *)
Theorem methods_have_routes fuel methods services rest rest' name service m method :
  register_resources fuel methods services rest = Ret rest' →
  (name, service) ∈ services → (m, method) ∈ methods → service_of m = name → method.(require_websocket) = false →
  served rest' m.
Proof.
  intros H Hs Hm Hn Hw. revert rest H. induction services as [|[n s] services IH]; intros rest; cbn [register_resources].
  { by apply elem_of_nil in Hs. }
  rewrite outcome_bind_Ret. intros (rest1 & H1 & H2). apply elem_of_cons in Hs as [[= -> ->]|Hin]; [|by apply (IH Hin rest1)].
  apply add_service_routes in H1 as [_ Hall]. eapply served_more; [by eapply Hall|].
  clear -H2. revert rest1 H2. induction services as [|[n' s'] services IH]; intros rest1; cbn [register_resources]; [by intros [= <-]|].
  rewrite outcome_bind_Ret. intros (rest2 & [Hmore _]%add_service_routes & H3). transitivity rest2; [done|by apply IH].
Qed.

(** ** Witnesses *)

Definition plain (accs : list Accept) (item noauth filt : bool) : Method :=
  mkMethod None accs item noauth filt false [] false false false false.

Definition arg (t : string) (req : bool) : Accept := mkAccept t req [("title", PStr t); ("type", PStr "string")].

Definition demo_methods : Methods :=
  [("user.query", plain [arg "query-filters" false; arg "query-options" false] false false true);
   ("user.create", plain [arg "data" true] false false false);
   ("user.delete", plain [arg "id" true; arg "options" false] true false false);
   ("user.set_attribute", plain [arg "id" true; arg "key" true; arg "value" true] true false false);
   ("user.has_root_password", plain [] false true false);
   ("user.rename", plain [arg "old" false; arg "new" false] false false false)].

Definition demo_services : list (string * Service) := [("user", mkService CrudType "integer")].

Definition demo_rest : Rest :=
  match register_resources 5 demo_methods demo_services (mkRest [] [] []) with Ret r => r | Raise _ => mkRest [] [] [] end.

Lemma methods_have_routes_witness : served demo_rest "user.set_attribute".
Proof.
  apply (methods_have_routes 5 demo_methods demo_services (mkRest [] [] []) demo_rest "user" (mkService CrudType "integer")
    "user.set_attribute" (plain [arg "id" true; arg "key" true; arg "value" true] true false false)).
  - vm_compute. reflexivity.
  - by left.
  - do 3 right. by left.
  - reflexivity.
  - reflexivity.
Defined.

(** The paths of the routes, and what the API's document says of them. *)
Example demo_paths :
  dkeys demo_rest.(paths) = ["/user"; "/user/id/{id}"; "/user/id/{id}/set_attribute"; "/user/has_root_password"; "/user/rename"].
Proof. vm_compute. reflexivity. Qed.

Definition rename_resource : Resource :=
  mkResource "user/rename" None [("post", "user.rename")]
    [("user.rename", [("old", mkParam 0 false); ("new", mkParam 1 false)])].

Definition demo_json (s : string) : outcome exn pyval :=
  if String.eqb s "both" then Ret (PDict [("new", PStr "b"); ("old", PStr "a")])
  else if String.eqb s "new" then Ret (PDict [("new", PStr "b")]) else Raise (ValueError "Expecting value").

Definition request (auth : option string) (body : string) : Request := mkRequest auth (None, None) [] body [].

Lemma rest_arguments_witness :
  method_args demo_json (λ _, "") rename_resource "post" "user.rename" (plain [arg "old" false; arg "new" false] false false false)
    (request None "both") = Ret [PStr "a"; PStr "b"].
Proof.
  rewrite (rest_arguments demo_json (λ _, "") 5 demo_methods (mkService CrudType "integer") "user/rename" None
    [("post", "user.rename")] (mkRest [] [] []) rename_resource
    (match new_resource 5 demo_methods (mkService CrudType "integer") "user/rename" None [("post", "user.rename")] (mkRest [] [] [])
     with Ret (_, r) => r | Raise _ => mkRest [] [] [] end) "post" "user.rename"
    (plain [arg "old" false; arg "new" false] false false false) (request None "both") [("new", PStr "b"); ("old", PStr "a")]
    eq_refl eq_refl eq_refl eq_refl); try reflexivity.
  - apply (bool_decide_unpack _). vm_compute. exact I.
  - cbn. lia.
  - done.
  - apply (bool_decide_unpack _). vm_compute. exact I.
Defined.

(** "root" with the password "pw", and a request of a method that needs it. *)
Lemma rest_guard_witness :
  let user u p := Ret (String.eqb u "root" && String.eqb p "pw") in
  let r := on_method demo_methods demo_json (λ _, "") (λ _, "") (λ _ _, Ret (Value PNone)) false false user (λ _, Ret PNone)
             rename_resource "post" (request (Some "Basic cm9vdDpwdw==") "both") [] in
  r.2 = [mkCall "user.rename" [PStr "a"; PStr "b"] None] ∧
  (r.2 = [] ∨ ∃ m method args app, dget rename_resource.(operations) "post" = Some m ∧ dget demo_methods m = Some method ∧
     r.2 = [] ++ [mkCall m args app] ∧
     (method.(no_auth_required) = true ∨ has_credentials false false user (λ _, Ret PNone) (request (Some "Basic cm9vdDpwdw==") "both"))).
Proof.
  cbv zeta. split; [vm_compute; reflexivity|].
  match goal with |- context [on_method ?a ?b ?c ?d ?e ?f ?g ?h ?i ?j ?k ?l ?n] =>
    destruct (rest_guard a b c d e f g h i j k l n (on_method a b c d e f g h i j k l n).1 (on_method a b c d e f g h i j k l n).2)
      as [H _]; [apply surjective_pairing|exact H] end.
Defined.

(** With one-time passwords on, the same request is refused. *)
Example password_needs_no_second_factor :
  (on_method demo_methods demo_json (λ _, "") (λ _, "") (λ _ _, Ret (Value PNone)) true false (λ _ _, Ret true) (λ _, Ret PNone)
     rename_resource "post" (request (Some "Basic cm9vdDpwdw==") "both") []) =
  (Raise (HTTPUnauthorized "HTTP Basic Auth is unavailable when OTP is enabled"), []).
Proof. vm_compute. reflexivity. Qed.

(** ** What is not as it looks *)

(** An optional parameter that is left out shifts the ones after it: the value of
    "new" arrives as the first argument, "old". *)
Example arguments_shift :
  method_args demo_json (λ _, "") rename_resource "post" "user.rename" (plain [arg "old" false; arg "new" false] false false false)
    (request None "new") = Ret [PStr "b"].
Proof. vm_compute. reflexivity. Qed.

(** Basic credentials without a colon are not refused but end in a server error. *)
Example basic_without_colon :
  basic_credentials "cm9vdA==" = Raise (InternalError (ValueError "not enough values to unpack (expected 2, got 1)")).
Proof. vm_compute. reflexivity. Qed.

(** The error of a method with a download is answered with status 200. *)
Example download_hides_error :
  let m := mkMethod None [] false true false false [] false true false false in
  (on_method [("a.get", m)] demo_json (λ _, "") (λ _, "") (λ _ _, Raise (CallError "no such file" ENOENT PNone)) false false
     (λ _ _, Ret false) (λ _, Ret PNone) (mkResource "a/get" (Some "a") [("get", "a.get")] []) "get" (request None "") []).1 =
  Ret (mkResponse 200 StreamBody).
Proof. vm_compute. reflexivity. Qed.

(** The options of a query, as plugins/datastore/read.py declares them. *)
Definition query_options : attr :=
  let b n d := Attribute_init blank n false false true false [] false (Some d) in
  let nb n := Attribute_init blank n false true true false [] false (Some PNone) in
  Schema.Dict (Attribute_init blank "query-options" false false true false [] true (Some (PDict [])))
    [("relationships", Schema.Bool (b "relationships" (PBool true))); ("extend", Schema.Str (nb "extend") None 1024);
     ("extend_context", Schema.Str (nb "extend_context") None 1024); ("prefix", Schema.Str (nb "prefix") None 1024);
     ("extra", Schema.Dict (Attribute_init blank "extra" false false true false [] false (Some (PDict []))) [] true false false);
     ("order_by", Schema.List (b "order_by" (PList [])) None [] false); ("select", Schema.List (b "select" (PList [])) None [] false);
     ("count", Schema.Bool (b "count" (PBool false))); ("get", Schema.Bool (b "get" (PBool false)));
     ("offset", Schema.Int (b "offset" (PInt 0)) None); ("limit", Schema.Int (b "limit" (PInt 0)) None);
     ("force_sql_filters", Schema.Bool (b "force_sql_filters" (PBool false)))] false false false.

(** The documented parameter sort becomes an option that the schema of the options
    does not know, and the request is refused. *)
Example sort_is_refused :
  filterable_args [("sort", "name")] = [PList []; PDict [("sort", PList [PStr "name"])]] ∧
  (Schema.clean query_options (Some (PDict [("sort", PList [PStr "name"])]))).1 = Raise (SchemaError "sort" "Field was not expected").
Proof. split; vm_compute; reflexivity. Qed.
