(* ===== verification/Rows.v ===== *)
(** * Rows of tables

    A row is a dict with an integer [id]; a table is a list of rows in the order of
    their insertion.  The services over several tables share the columns, the keys
    and the facts about them that are here. *)

From S2P Require Import Prelude PyValue Filter.

Definition col (r : pydict) (k : string) : pyval := from_option (λ v, v) PNone (dget r k).
Definition ids (l : list pydict) : list pyval := (λ r, col r "id") <$> l.

Definition refers (k : string) (target : list pydict) (r : pydict) : bool := bool_decide (col r k ∈ ids target).

Definition is_int (v : pyval) : bool := match v with PInt _ => true | _ => false end.
Definition keyed (l : list pydict) : bool := bool_decide (NoDup (ids l)) && forallb is_int (ids l).

Definition max_id (l : list pydict) : Z :=
  foldr (λ r, Z.max (match col r "id" with PInt z => z | _ => 0 end)) 0%Z l.

Definition eq_col (k : string) (v : pyval) (r : pydict) : bool := py_eq (col r k) v.
Definition prefixed (p : string) (d : pydict) : pydict := (λ kv, (p +:+ kv.1, kv.2)) <$> d.

(** The columns that are not given have their defaults. *)
Definition with_defaults (defaults data : pydict) : pydict := data ++ List.filter (λ kv, negb (dhas data kv.1)) defaults.

(** ** Facts *)

Lemma dset_same {A} (d : list (string * A)) k v : dget d k = Some v → dset d k v = d.
Proof.
  induction d as [|[k' v'] d IH]; simpl; [done|]. case_decide; [subst; by intros [= ->]|]. intros Hd. by rewrite (IH Hd).
Qed.

Lemma col_dset (d : pydict) k v : col (dset d k v) k = v.
Proof. unfold col. by rewrite dget_dset. Qed.

Lemma col_dset_ne (d : pydict) k k' v : k ≠ k' → col (dset d k v) k' = col d k'.
Proof. intros. unfold col. by rewrite dget_dset_ne. Qed.

Lemma keyed_app l1 l2 : keyed (l1 ++ l2) = true → keyed l1 = true.
Proof.
  unfold keyed, ids. rewrite fmap_app, forallb_app, !andb_true_iff, !bool_decide_eq_true, NoDup_app. tauto.
Qed.

Lemma keyed_row l r : keyed l = true → r ∈ l → ∃ z, dget r "id" = Some (PInt z).
Proof.
  unfold keyed. rewrite andb_true_iff, forallb_forall. intros [_ H] Hr.
  specialize (H (col r "id")). rewrite <-list_elem_of_In in H. specialize (H ltac:(by apply (list_elem_of_fmap_2 (λ r, col r "id")))).
  revert H. unfold col. destruct (dget r "id") as [[]|]; simpl; try done. eauto.
Qed.

Lemma keyed_filter p l : keyed l = true → keyed (List.filter p l) = true.
Proof.
  unfold keyed, ids. rewrite !andb_true_iff, !bool_decide_eq_true, !forallb_forall. intros [Hn Hi]. split.
  - eapply sublist_NoDup; [done|]. apply fmap_sublist. clear. induction l as [|x l IH]; simpl; [constructor|].
    destruct (p x); by constructor.
  - intros v. rewrite <-!list_elem_of_In, list_elem_of_fmap. intros (r & -> & Hr). apply Hi.
    rewrite <-list_elem_of_In. apply (list_elem_of_fmap_2 (λ r, col r "id")). apply list_elem_of_In, filter_In in Hr as [Hr _]. by apply list_elem_of_In.
Qed.

(** The foreign keys [k] of [l] refer to rows of [target]. *)
Definition fk (k : string) (target l : list pydict) : Prop := forallb (refers k target) l = true.

Lemma fk_nil k target : fk k target [].
Proof. done. Qed.

Lemma fk_app k target l1 l2 : fk k target (l1 ++ l2) → fk k target l1.
Proof. unfold fk. rewrite forallb_app, andb_true_iff. tauto. Qed.

Lemma fk_filter_target k target l : fk k target (List.filter (refers k target) l).
Proof. unfold fk. rewrite forallb_forall. intros r. rewrite filter_In. tauto. Qed.

Lemma keyed_nil : keyed [] = true.
Proof. done. Qed.

Lemma bind_ret {S E A B} (m : M S E A) (k : A → M S E B) s a s' : m s = (Ret a, s') → (m ≫= k) s = k a s'.
Proof. unfold mbind, M_bind. by intros ->. Qed.

Lemma rows_filter_none {A} (p : A → bool) l : (∀ x, p x = false) → List.filter p l = [].
Proof. intros H. induction l as [|x l IH]; simpl; [done|]. by rewrite H. Qed.

Lemma filter_fk k target l : fk k target l → List.filter (refers k target) l = l.
Proof.
  unfold fk. induction l as [|x l IH]; simpl; [done|]. rewrite andb_true_iff. intros [-> H]. by rewrite (IH H).
Qed.

Lemma refers_nil k r : refers k [] r = false.
Proof. unfold refers. apply bool_decide_eq_false. set_solver. Qed.

(** ** Dicts *)

Lemma col_ddel_ne (d : pydict) k k' : k ≠ k' → col (ddel d k) k' = col d k'.
Proof. intros. unfold col. by rewrite dget_ddel_ne. Qed.

Lemma dget_dupdate (d1 d2 : pydict) k : dget (dupdate d1 d2) k = match dget (rev d2) k with Some v => Some v | None => dget d1 k end.
Proof.
  unfold dupdate. revert d1. induction d2 as [|[k' v] d2 IH]; intros d1; [done|]. cbn [foldl]. rewrite IH. cbn [rev fst snd].
  assert (E : ∀ l1 l2 : pydict, dget (l1 ++ l2) k = match dget l1 k with Some x => Some x | None => dget l2 k end).
  { intros l1 l2. induction l1 as [|[k1 v1] l1 IHl]; [done|]. simpl. by case_decide. }
  rewrite E. destruct (dget (rev d2) k) as [w|]; [done|]. simpl. case_decide; [subst; by rewrite dget_dset|by rewrite dget_dset_ne].
Qed.

Lemma dget_rev (d : pydict) k : NoDup (dkeys d) → dget (rev d) k = dget d k.
Proof.
  intros Hn. destruct (dget d k) as [v|] eqn:E.
  - apply elem_of_dget; [unfold dkeys; by rewrite <-(Permutation_rev d)|]. rewrite <-(Permutation_rev d). by apply dget_elem_of.
  - apply dget_None. apply dget_None in E. unfold dkeys in *. by rewrite <-(Permutation_rev d).
Qed.

(** The value a key has after an update. *)
Lemma col_dupdate (d1 d2 : pydict) k :
  NoDup (dkeys d2) → col (dupdate d1 d2) k = match dget d2 k with Some v => v | None => col d1 k end.
Proof. intros Hn. unfold col. rewrite dget_dupdate, dget_rev by done. by destruct (dget d2 k). Qed.

(** ** Changes of the tables *)

Lemma filter_elem (p : pydict → bool) l r : r ∈ List.filter p l ↔ r ∈ l ∧ p r = true.
Proof. rewrite !list_elem_of_In. apply filter_In. Qed.

(** ** What is read of a user *)

Lemma dupdate_NoDup (d1 d2 : pydict) : NoDup (dkeys d1) → NoDup (dkeys (dupdate d1 d2)).
Proof. unfold dupdate. revert d1. induction d2 as [|[k v] d2 IH]; intros d1 Hn; [done|]. cbn [foldl]. by apply IH, dset_NoDup. Qed.

Lemma keyed_same l r r' v : keyed l = true → r ∈ l → r' ∈ l → eq_col "id" v r = true → eq_col "id" v r' = true → r = r'.
Proof.
  intros Hk Hr Hr' E E'. destruct (keyed_row _ _ Hk Hr) as [z Hz]. destruct (keyed_row _ _ Hk Hr') as [z' Hz'].
  assert (Heq : col r "id" = col r' "id").
  { unfold eq_col, col in *. rewrite Hz, Hz' in *. simpl in *. destruct v; try done; simpl in *; apply Z.eqb_eq in E, E'; congruence. }
  unfold keyed in Hk. apply andb_true_iff in Hk as [Hn _]. apply bool_decide_eq_true in Hn. unfold ids in Hn.
  apply list_elem_of_lookup in Hr as [i Hi]. apply list_elem_of_lookup in Hr' as [j Hj].
  assert (i = j) as ->. { eapply (NoDup_lookup _ i j (col r "id") Hn); rewrite list_lookup_fmap; [by rewrite Hi|rewrite Hj; simpl; by rewrite Heq]. }
  congruence.
Qed.

Lemma with_defaults_NoDup defaults data : NoDup (dkeys defaults) → NoDup (dkeys data) → NoDup (dkeys (with_defaults defaults data)).
Proof.
  intros Hd Hn. unfold with_defaults, dkeys in *. rewrite fmap_app. apply NoDup_app. split_and!; [done| |].
  - intros k Hk (kv & -> & Hin)%list_elem_of_fmap. rewrite list_elem_of_In, filter_In in Hin. destruct Hin as [_ Hf].
    apply negb_true_iff in Hf. unfold dhas in Hf. destruct (dget data kv.1) eqn:E; [done|]. by apply dget_None in E.
  - eapply sublist_NoDup; [exact Hd|]. apply fmap_sublist. clear. induction defaults as [|x l IH]; simpl; [constructor|]. destruct (negb _); by constructor.
Qed.

Lemma col_with_defaults defaults data k :
  NoDup (dkeys defaults) → col (with_defaults defaults data) k = match dget data k with Some v => v | None => col defaults k end.
Proof.
  intros Hd. unfold with_defaults, col. destruct (dget data k) as [v|] eqn:E.
  - assert (Ha : ∀ l : pydict, dget (data ++ l) k = Some v); [|by rewrite Ha]. intros l. revert E. induction data as [|[k' v'] data IH]; [done|]. simpl. case_decide; [done|]. apply IH.
  - rewrite dget_app by (by apply dget_None). f_equal. induction defaults as [|[k' v'] l IH]; [done|]. unfold dkeys in *. cbn [fmap list_fmap] in Hd.
    apply NoDup_cons in Hd as [Hnk Hd]. cbn [List.filter fst]. destruct (decide (k' = k)) as [->|Hne].
    + unfold dhas. rewrite E. simpl. destruct (decide (k = k)); done.
    + destruct (negb (dhas data k')); simpl; rewrite ?(decide_False (P := k' = k)) by done; by apply IH.
Qed.

(** ** Creating a user *)

Lemma max_id_ge (l : list pydict) r z : r ∈ l → col r "id" = PInt z → (z ≤ max_id l)%Z.
Proof.
  induction l as [|x l IH]; [set_solver|]. intros [->|Hr]%elem_of_cons Hz; unfold max_id in *; cbn [foldr]; [rewrite Hz|specialize (IH Hr Hz)]; lia.
Qed.

(** A row with a new id. *)
Lemma keyed_new l r : keyed l = true → col r "id" = PInt (1 + max_id l) → keyed (l ++ [r]) = true.
Proof.
  unfold keyed, ids. rewrite !andb_true_iff, !bool_decide_eq_true, fmap_app, forallb_app. intros [Hn Hi] Hr. cbn. rewrite Hr. split; [|by rewrite Hi].
  apply NoDup_app. split_and!; [done| |apply NoDup_singleton]. intros v (x & -> & Hx)%list_elem_of_fmap Hv. apply list_elem_of_singleton in Hv.
  apply (max_id_ge l x) in Hv; [lia|done].
Qed.

Create HintDb rows.
#[export] Hint Resolve keyed_app keyed_filter keyed_nil fk_nil fk_app fk_filter_target : rows.
