(* ===== verification/Interface.v ===== *)
(** * Network interfaces: plugins/network.py, InterfaceService

    Changes to interfaces are written to six tables, applied with [commit], and
    taken back by [rollback] unless [checkin] confirms them before a timer runs
    out.  A row is a dict; the tables are kept consistent by the foreign keys of
    SQLite.  What the host has of interfaces, the module ipaddress and applying the
    tables to the system are arguments. *)

From S2P Require Import Prelude PyValue Schema Filter Rows.

Definition dq : string := String (Ascii.ascii_of_nat 34) "".

(** ** The tables *)

Notation Row := pydict (only parsing).

Record Tables : Type := mkTables {
  interfaces : list pydict;
  alias : list pydict;
  bridge : list pydict;
  vlan : list pydict;
  lagg : list pydict;
  laggmembers : list pydict;
}.

#[global] Instance Tables_eq_dec : EqDecision Tables.
Proof. solve_decision. Defined.

(** Primary keys are unique and foreign keys refer to rows. *)
Definition sound (t : Tables) : bool :=
  forallb keyed [t.(interfaces); t.(alias); t.(bridge); t.(vlan); t.(lagg); t.(laggmembers)] &&
  forallb (refers "alias_interface" t.(interfaces)) t.(alias) &&
  forallb (refers "interface" t.(interfaces)) t.(bridge) &&
  forallb (refers "lagg_interface" t.(interfaces)) t.(lagg) &&
  forallb (refers "lagg_interfacegroup" t.(lagg)) t.(laggmembers).

Inductive TableName : Type := TInterfaces | TAlias | TBridge | TVlan | TLagg | TMembers.

Definition get_table (n : TableName) (t : Tables) : list pydict :=
  match n with
  | TInterfaces => t.(interfaces) | TAlias => t.(alias) | TBridge => t.(bridge)
  | TVlan => t.(vlan) | TLagg => t.(lagg) | TMembers => t.(laggmembers)
  end.

Definition set_table (n : TableName) (l : list pydict) (t : Tables) : Tables :=
  match n with
  | TInterfaces => mkTables l t.(alias) t.(bridge) t.(vlan) t.(lagg) t.(laggmembers)
  | TAlias => mkTables t.(interfaces) l t.(bridge) t.(vlan) t.(lagg) t.(laggmembers)
  | TBridge => mkTables t.(interfaces) t.(alias) l t.(vlan) t.(lagg) t.(laggmembers)
  | TVlan => mkTables t.(interfaces) t.(alias) t.(bridge) l t.(lagg) t.(laggmembers)
  | TLagg => mkTables t.(interfaces) t.(alias) t.(bridge) t.(vlan) l t.(laggmembers)
  | TMembers => mkTables t.(interfaces) t.(alias) t.(bridge) t.(vlan) t.(lagg) l
  end.

(** [ondelete='CASCADE']: aliases and bridges go with their interface, members with
    their aggregation. *)
Definition cascade (t : Tables) : Tables :=
  mkTables t.(interfaces)
    (List.filter (refers "alias_interface" t.(interfaces)) t.(alias))
    (List.filter (refers "interface" t.(interfaces)) t.(bridge))
    t.(vlan) t.(lagg)
    (List.filter (refers "lagg_interfacegroup" t.(lagg)) t.(laggmembers)).

(** The state of the service: the tables, [_original_datastores] ([None] when it is
    empty), [_rollback_timer], the timers of the event loop that are not cancelled
    with the time they are due, and the system the tables are applied to. *)
Record Net (O : Type) : Type := mkNet {
  tables : Tables;
  original_datastores : option Tables;
  rollback_timer : option (nat * Z);
  timers : gmap nat Z;
  next_timer : nat;
  os : O;
}.
Arguments mkNet {O}. Arguments tables {O}. Arguments original_datastores {O}. Arguments rollback_timer {O}.
Arguments timers {O}. Arguments next_timer {O}. Arguments os {O}.

(** [random_string] and what [interface.query] and the validation ask of the rest
    of the system. *)
Record Env : Type := mkEnv {
  (** [netif.list_interfaces()]: the state of each interface, by name *)
  host : list (string * pydict);
  is_freenas : bool;
  internal_interfaces : list string;
  failover_licensed : bool;
  failover_single : bool;
  failover_disabled : bool;
  is_freebsd : bool;
  supported_protocols : list string;
  platform : string;
  scan_vrrp : string → list Z;
  random_string : nat → string;
  re_mtu : string → bool;
  (** [interface.to_disable_evil_nic_capabilities], and whether this is the second
      of two controllers *)
  evil_nics : list string;
  node_b : bool;
}.

(** The module ipaddress: networks with their version and text, whether two
    overlap, and an interface's version, address and prefix length. *)
Class IpAddress : Type := {
  Network : Type;
  ip_network : string → outcome exn Network;
  net_version : Network → Z;
  net_str : Network → string;
  overlaps : Network → Network → bool;
  ip_interface : string → outcome exn (Z * string * Z);
}.

Section service.
Context {O : Type} (sync_os : Tables → O → outcome exn unit * O) (env : Env).
(** [interface.disable_capabilities] and [interface.enable_capabilities] *)
Context (capabilities_os : bool → string → O → outcome exn unit * O).
Context `{ip : !IpAddress}.

Notation MN := (M (Net O) exn).

Definition lift {A} (o : outcome exn A) : MN A := λ s, (o, s).
Definition set_tables (t : Tables) (s : Net O) : Net O :=
  mkNet t s.(original_datastores) s.(rollback_timer) s.(timers) s.(next_timer) s.(os).
Definition set_originals (o : option Tables) (s : Net O) : Net O :=
  mkNet s.(tables) o s.(rollback_timer) s.(timers) s.(next_timer) s.(os).

Definition IntegrityError : exn := OtherError "IntegrityError".

(** A statement is refused when a constraint would not hold. *)
Definition write (f : Tables → Tables) : MN unit := λ s,
  let t := f s.(tables) in
  if sound t then (Ret tt, set_tables t s) else (Raise IntegrityError, s).

(** [datastore.insert]: the row keeps the id it has. *)
Definition insert (n : TableName) (data : pydict) : MN pyval :=
  s ← get_state;
  let l := get_table n s.(tables) in
  let id := from_option (λ v, v) (PInt (1 + max_id l)) (dget data "id") in
  write (set_table n (l ++ [dset data "id" id]));;
  mret id.

(** [datastore.delete] *)
Definition delete_where (n : TableName) (p : pydict → bool) : MN unit :=
  write (λ t, cascade (set_table n (List.filter (λ r, negb (p r)) (get_table n t)) t)).

(** [datastore.update]: exactly one row has to match. *)
Definition update_where (n : TableName) (p : pydict → bool) (data : pydict) : MN pyval :=
  s ← get_state;
  match List.filter p (get_table n s.(tables)) with
  | [row] =>
      write (λ t, set_table n ((λ r, if p r then dupdate r data else r) <$> get_table n t) t);;
      mret (col row "id")
  | l => raise (RuntimeError (pretty (length l) +:+ " found, expecting one"))
  end.

(** ** Saving and restoring *)

(** [__save_datastores]: the rows, with the ids of the rows they refer to. *)
Definition save_datastores : MN unit :=
  s ← get_state;
  match s.(original_datastores) with
  | Some _ => mret tt
  | None => modify (set_originals (Some s.(tables)))
  end.

(** [__restore_datastores] *)
Definition restore_datastores : MN unit :=
  s ← get_state;
  match s.(original_datastores) with
  | None => mret tt
  | Some o =>
      delete_where TLagg (λ _, true);;
      delete_where TInterfaces (λ _, true);;
      delete_where TVlan (λ _, true);;
      forM o.(interfaces) (λ i, insert TInterfaces i;; mret tt);;
      forM o.(alias) (λ i, insert TAlias i;; mret tt);;
      forM o.(bridge) (λ i, insert TBridge i;; mret tt);;
      forM o.(vlan) (λ i, insert TVlan i;; mret tt);;
      forM o.(lagg) (λ i, insert TLagg i;; mret tt);;
      forM o.(laggmembers) (λ i, insert TMembers i;; mret tt);;
      modify (set_originals None)
  end.

(** ** Applying, confirming and taking back *)

(** [sync] *)
Definition sync : MN unit := λ s,
  let '(r, o) := sync_os s.(tables) s.(os) in
  (r, mkNet s.(tables) s.(original_datastores) s.(rollback_timer) s.(timers) s.(next_timer) o).

Definition set_capabilities (on : bool) (name : string) : MN unit := λ s,
  let '(r, o) := capabilities_os on name s.(os) in
  (r, mkNet s.(tables) s.(original_datastores) s.(rollback_timer) s.(timers) s.(next_timer) o).

(** [if self._rollback_timer: self._rollback_timer.cancel()], and forgetting it. *)
Definition cancel_timer : MN unit :=
  modify (λ s, mkNet s.(tables) s.(original_datastores) None
    (match s.(rollback_timer) with Some (i, _) => delete i s.(timers) | None => s.(timers) end) s.(next_timer) s.(os)).

Definition rollback : MN unit :=
  cancel_timer;;
  restore_datastores;;
  sync.

Definition checkin : MN unit :=
  cancel_timer;;
  modify (set_originals None).

(** [loop.call_later] *)
Definition start_timer (due : Z) : MN unit :=
  modify (λ s, mkNet s.(tables) s.(original_datastores) (Some (s.(next_timer), due)) (<[s.(next_timer) := due]> s.(timers))
    (S s.(next_timer)) s.(os)).

(** [checkin_waiting] *)
Definition checkin_waiting (now : Z) (s : Net O) : option Z :=
  match s.(rollback_timer) with
  | Some (_, due) => let remaining := (due - now)%Z in if Z.ltb 0 remaining then Some remaining else None
  | None => None
  end.

Definition has_pending_changes (s : Net O) : bool :=
  match s.(original_datastores) with Some _ => true | None => false end.

(** [__check_failover_disabled] *)
Definition check_failover_disabled : MN unit :=
  if env.(is_freenas) || env.(failover_single) || env.(failover_disabled) then mret tt
  else raise (CallError "Disable failover before performing interfaces changes." EFAULT PNone).

(** ** What an interface looks like *)

Inductive InterfaceType : Type := BRIDGE | LINK_AGGREGATION | PHYSICAL | UNKNOWN | VLAN.

Definition type_name (t : InterfaceType) : string :=
  match t with
  | BRIDGE => "BRIDGE" | LINK_AGGREGATION => "LINK_AGGREGATION" | PHYSICAL => "PHYSICAL"
  | UNKNOWN => "UNKNOWN" | VLAN => "VLAN"
  end.

(** [type] of interface/type_freebsd.py *)
Definition type_of (name : string) (cloned : bool) : InterfaceType :=
  if PyStr.startswith name "bridge" then BRIDGE
  else if PyStr.startswith name "lagg" then LINK_AGGREGATION
  else if PyStr.startswith name "vlan" then VLAN
  else if negb cloned then PHYSICAL else UNKNOWN.

(** [int(v)] *)
Definition int_of (v : pyval) : outcome exn pyval :=
  match v with
  | PInt z => Ret (PInt z)
  | PBool b => Ret (PInt (Z.b2z b))
  | PStr s => match py_int s with
              | Some z => Ret (PInt z)
              | None => Raise (ValueError ("invalid literal for int() with base 10: " +:+ repr_str s))
              end
  | _ => Raise (TypeError "int() argument must be a string, a bytes-like object or a real number")
  end.

Definition alias_entry (ty : string) (address netmask : pyval) : pyval :=
  PDict [("type", PStr ty); ("address", address); ("netmask", netmask)].

(** [if row[address]: l.append({..., 'netmask': int(row[netmask])})] *)
Definition add_alias (ty : string) (row : pydict) (address : string) (netmask : option string) (l : list pyval) :
    outcome exn (list pyval) :=
  if truthy (col row address) then
    n ← (match netmask with Some k => int_of (col row k) | None => Ret (PInt 32) end);
    Ret (l ++ [alias_entry ty (col row address) n])
  else Ret l.

(** The aliases of an interface: those of its row, then those of its alias rows. *)
Definition row_aliases (config : pydict) (arows : list pydict) : outcome exn (list pyval) :=
  l ← (if truthy (col config "int_dhcp") then Ret [] else add_alias "INET" config "int_ipv4address" (Some "int_v4netmaskbit") []);
  l ← (if truthy (col config "int_ipv6auto") then Ret l else add_alias "INET6" config "int_ipv6address" (Some "int_v6netmaskbit") l);
  foldO (λ l a, l ← add_alias "INET" a "alias_v4address" (Some "alias_v4netmaskbit") l;
                add_alias "INET6" a "alias_v6address" (Some "alias_v6netmaskbit") l) l arows.

Definition row_failover (config : pydict) (arows : list pydict) : outcome exn (list pyval * list pyval) :=
  b ← add_alias "INET" config "int_ipv4address_b" (Some "int_v4netmaskbit") [];
  v ← add_alias "INET" config "int_vip" None [];
  b ← foldO (λ l a, add_alias "INET" a "alias_v4address_b" (Some "alias_v4netmaskbit") l) b arows;
  v ← foldO (λ l a, add_alias "INET" a "alias_vip" None l) v arows;
  Ret (b, v).

Definition upper_char (c : ascii) : ascii :=
  let n := Ascii.nat_of_ascii c in if ((97 <=? n) && (n <=? 122))%nat then Ascii.ascii_of_nat (n - 32) else c.

(** The attributes of each kind of virtual interface. *)
Definition type_attrs (t : Tables) (itype : InterfaceType) (name : string) (config : pydict) : pydict :=
  match itype with
  | BRIDGE =>
      match List.filter (eq_col "interface" (col config "id")) t.(bridge) with
      | b :: _ => [("bridge_members", col b "members")]
      | [] => [("bridge_members", PList [])]
      end
  | LINK_AGGREGATION =>
      match List.filter (eq_col "lagg_interface" (col config "id")) t.(lagg) with
      | l :: _ =>
          [("lag_protocol", match col l "lagg_protocol" with PStr p => PStr (PyStr.map_chars upper_char p) | v => v end);
           ("lag_ports", PList ((λ m, col m "lagg_physnic") <$>
              List.filter (eq_col "lagg_interfacegroup" (col l "id")) t.(laggmembers)))]
      | [] => [("lag_ports", PList [])]
      end
  | VLAN =>
      match List.filter (eq_col "vlan_vint" (PStr name)) t.(vlan) with
      | v :: _ => [("vlan_parent_interface", col v "vlan_pint"); ("vlan_tag", col v "vlan_tag"); ("vlan_pcp", col v "vlan_pcp")]
      | [] => [("vlan_parent_interface", PNone); ("vlan_tag", PNone); ("vlan_pcp", PNone)]
      end
  | _ => []
  end.

(** [iface_extend] *)
Definition iface_extend (t : Tables) (state : pydict) (configs : list (string * pydict)) (fake : bool) : outcome exn pydict :=
  name ← item (PDict state) "name";
  let name := py_str name in
  let itype := type_of name (truthy (col state "cloned")) in
  let iface : pydict :=
    [("id", PStr name); ("name", PStr name); ("fake", PBool fake); ("type", PStr (type_name itype)); ("state", PDict state);
     ("aliases", PList []); ("ipv4_dhcp", PBool (match configs with [] => true | _ => false end)); ("ipv6_auto", PBool false);
     ("description", PNone); ("options", PStr ""); ("mtu", PNone)] in
  let iface := if env.(is_freenas) then iface else
    dupdate iface [("failover_critical", PBool false); ("failover_vhid", PNone); ("failover_group", PNone);
                   ("failover_aliases", PList []); ("failover_virtual_aliases", PList [])] in
  match dget configs name with
  | None | Some [] => Ret iface
  | Some config =>
      let iface := dupdate iface
        [("ipv4_dhcp", col config "int_dhcp"); ("ipv6_auto", col config "int_ipv6auto"); ("description", col config "int_name");
         ("options", col config "int_options"); ("mtu", col config "int_mtu");
         ("disable_offload_capabilities", col config "int_disable_offload_capabilities")] in
      let arows := List.filter (eq_col "alias_interface" (col config "id")) t.(alias) in
      iface ← (if env.(is_freenas) then Ret iface else
        '(b, v) ← row_failover config arows;
        Ret (dupdate iface [("failover_critical", col config "int_critical"); ("failover_vhid", col config "int_vhid");
                            ("failover_group", col config "int_group"); ("failover_aliases", PList b);
                            ("failover_virtual_aliases", PList v)]));
      let iface := dupdate iface (type_attrs t itype name config) in
      aliases ← row_aliases config arows;
      Ret (dset iface "aliases" (PList aliases))
  end.

(** The state of an interface that is not there. *)
Definition fake_state (name : pyval) : pydict :=
  [("name", name); ("aliases", PList []); ("link_address", PStr ""); ("cloned", PBool true); ("mtu", PInt 1500);
   ("flags", PList []); ("nd6_flags", PList []); ("capabilities", PList []); ("link_state", PStr "");
   ("media_type", PStr ""); ("media_subtype", PStr ""); ("active_media_type", PStr ""); ("active_media_subtype", PStr "");
   ("supported_media", PList []); ("media_options", PList []); ("carp_config", PList [])].

Definition configs_of (t : Tables) : list (string * pydict) :=
  foldl (λ d r, dset d (py_str (col r "int_interface")) r) [] t.(interfaces).

(** [query], before its filters: the interfaces by name. *)
Definition query_all (t : Tables) : outcome exn (list (string * pydict)) :=
  let configs := configs_of t in
  data ← foldO (λ data h,
    if (truthy (col h.2 "cloned") && negb (dhas configs h.1)) ||
       (negb env.(is_freenas) && bool_decide (h.1 ∈ env.(internal_interfaces))) then Ret data
    else i ← iface_extend t h.2 configs false; Ret (dset data h.1 i)) [] env.(host);
  foldO (λ data c,
    if dhas data c.1 then Ret data
    else i ← iface_extend t (fake_state (col c.2 "int_interface")) configs true; Ret (dset data c.1 i)) data configs.

Definition query : MN (list (string * pydict)) := λ s, (query_all s.(tables), s).

(** [_get_instance] *)
Definition get_instance (oid : string) : MN pydict :=
  ifaces ← query;
  match dget ifaces oid with
  | Some i => mret i
  | None => raise (OtherError "InstanceNotFound")
  end.

(** [__check_dhcp_or_aliases] *)
Definition check_dhcp_or_aliases : MN unit :=
  ifaces ← query;
  if existsb (λ kv, truthy (col kv.2 "ipv4_dhcp") || truthy (col kv.2 "ipv6_auto") || truthy (col kv.2 "aliases")) ifaces then mret tt
  else raise (CallError ("At least one interface configured with either IPv4 DHCP, IPv6 auto or a static IP" +:+
    " is required.") EFAULT PNone).

(** [commit] *)
Definition commit (now : Z) (rollback_ : bool) (checkin_timeout : Z) : MN unit :=
  check_failover_disabled;;
  check_dhcp_or_aliases;;
  try_except sync (λ e, (if rollback_ then rollback else mret tt);; raise e);;
  if rollback_ && negb (Z.eqb checkin_timeout 0) then start_timer (now + checkin_timeout)
  else modify (set_originals None).

(** ** Writing an interface *)

(** [__convert_interface_datastore] *)
Definition convert_interface (data : pydict) : outcome exn pydict :=
  dhcp ← item (PDict data) "ipv4_dhcp";
  ipv6auto ← item (PDict data) "ipv6_auto";
  let get k := col data k in
  let or_ v d := if truthy v then v else d in
  let passwd :=
    if negb (truthy (get "failover_pass")) && truthy (get "failover_vhid")
    then PStr (env.(random_string) (if env.(is_freebsd) then 16 else 8))
    else from_option (λ v, v) (PStr "") (dget data "failover_pass") in
  Ret [("name", or_ (get "description") (PStr "")); ("dhcp", dhcp); ("ipv6auto", ipv6auto); ("vhid", get "failover_vhid");
       ("pass", passwd); ("critical", or_ (get "failover_critical") (PBool false)); ("group", get "failover_group");
       ("options", from_option (λ v, v) (PStr "") (dget data "options")); ("mtu", or_ (get "mtu") PNone);
       ("disable_offload_capabilities", or_ (get "disable_offload_capabilities") (PBool false))].

(** [data.get(k) or []] as a list of dicts *)
Definition list_or_empty (v : pyval) : outcome exn (list pyval) := if truthy v then py_iter v else Ret [].

Inductive AliasField : Type := FieldA | FieldB | FieldV.

(** The columns of the interface and of an alias row for an address. *)
Definition address_fields (field : AliasField) (version : Z) : string * string * option string :=
  if Z.eqb version 4 then
    match field with
    | FieldA => ("ipv4address", "v4address", Some "v4netmaskbit")
    | FieldB => ("ipv4address_b", "v4address_b", Some "v4netmaskbit")
    | FieldV => ("vip", "vip", None)
    end
  else ("ipv6address", "v6address", Some "v6netmaskbit").

(** One turn of the loop of [__convert_aliases_to_datastore]. *)
Definition convert_alias (data : pydict) (acc : pydict * list (string * pydict)) (fi : AliasField * pyval) :
    outcome exn (pydict * list (string * pydict)) :=
  let '(iface, aliases) := acc in
  address ← item fi.2 "address";
  netmask ← item fi.2 "netmask";
  let cidr := py_str address +:+ "/" +:+ py_str netmask in
  '(version, addr, prefixlen) ← ip_interface cidr;
  let '(iface_addrfield, alias_addrfield, netfield) := address_fields fi.1 version in
  let auto := if Z.eqb version 4 then "ipv4_dhcp" else "ipv6_auto" in
  let with_mask d := match netfield with Some f => dset d f (PInt prefixlen) | None => d end in
  if truthy (col iface iface_addrfield) || truthy (col data auto) then
    Ret (iface, dset aliases cidr (with_mask [(alias_addrfield, PStr addr)]))
  else Ret (with_mask (dset iface iface_addrfield (PStr addr)), aliases).

(** [__convert_aliases_to_datastore] *)
Definition convert_aliases (data : pydict) : outcome exn (pydict * list (string * pydict)) :=
  a ← (x ← item (PDict data) "aliases"; py_iter x);
  b ← list_or_empty (col data "failover_aliases");
  v ← list_or_empty (col data "failover_virtual_aliases");
  foldO (convert_alias data)
    ([("ipv4address", PStr ""); ("ipv4address_b", PStr ""); ("v4netmaskbit", PStr ""); ("ipv6address", PStr "");
      ("v6netmaskbit", PStr ""); ("vip", PStr "")], [])
    (((λ x, (FieldA, x)) <$> a) ++ ((λ x, (FieldB, x)) <$> b) ++ ((λ x, (FieldV, x)) <$> v)).

Definition insert_alias (interface_id : pyval) (a : pydict) : MN unit :=
  insert TAlias (prefixed "alias_" (("interface", interface_id) :: a));; mret tt.

(** [__create_interface_datastore] up to the id it yields, and the rest of it. *)
Definition create_row (data attrs : pydict) : MN (pyval * list (string * pydict)) :=
  '(interface_attrs, aliases) ← lift (convert_aliases data);
  row ← lift (convert_interface data);
  interface_id ← insert TInterfaces (prefixed "int_" (row ++ dupdate interface_attrs attrs));
  mret (interface_id, aliases).

Definition create_aliases (interface_id : pyval) (aliases : list (string * pydict)) : MN unit :=
  forM aliases (λ a, insert_alias interface_id a.2).

(** The columns of a member of an aggregation that are reset. *)
Definition reset_port : pydict :=
  prefixed "int_"
    [("dhcp", PBool false); ("ipv4address", PStr ""); ("ipv4address_b", PStr ""); ("v4netmaskbit", PStr "");
     ("ipv6auto", PBool false); ("ipv6address", PStr ""); ("v6netmaskbit", PStr ""); ("vip", PStr "");
     ("vhid", PNone); ("critical", PBool false); ("group", PNone); ("mtu", PNone)].

(** [__set_lag_ports] *)
Definition set_lag_port (lag_id : pyval) (idx : nat) (port : pyval) : MN unit :=
  insert TMembers [("lagg_interfacegroup", lag_id); ("lagg_ordernum", PInt (Z.of_nat idx)); ("lagg_physnic", port)];;
  s ← get_state;
  match List.filter (eq_col "int_interface" port) s.(tables).(interfaces) with
  | [] => mret tt
  | r :: _ =>
      update_where TInterfaces (eq_col "id" (col r "id")) (dupdate r reset_port);;
      delete_where TAlias (eq_col "alias_interface" (col r "id"))
  end.

Fixpoint set_lag_ports (lag_id : pyval) (idx : nat) (ports : list pyval) : MN unit :=
  match ports with
  | [] => mret tt
  | p :: ports => set_lag_port lag_id idx p;; set_lag_ports lag_id (S idx) ports
  end.

(** [with contextlib.suppress(Exception): datastore.delete(table, id)] *)
Definition suppress_delete (n : TableName) (id : pyval) : MN unit :=
  if truthy id then try_except (delete_where n (eq_col "id" id)) (λ _, mret tt) else mret tt.

(** [except Exception: (undo); raise] *)
Definition or_undo {A} (m : MN A) (undo : MN unit) : MN A := try_except m (λ e, undo;; raise e).

(** ** Validation *)

(** [validate_name] of interface/type_freebsd.py *)
Definition validate_name (t : InterfaceType) (name : string) : outcome exn unit :=
  match t with
  | BRIDGE =>
      if PyStr.startswith name "bridge" && PyStr.isdigit (PyStr.drop 6 name) then Ret tt
      else Raise (ValueError ("Bridge interface must start with " +:+ dq +:+ "bridge" +:+ dq +:+ " followed by an unique number."))
  | LINK_AGGREGATION =>
      if PyStr.startswith name "lagg" && PyStr.isdigit (PyStr.drop 4 name) then
        if (5 <? String.length name)%nat && bool_decide (String.get 4 name = Some "0"%char)
        then Raise (ValueError ("Link aggregation interface name cannot start with " +:+ dq +:+ "lagg0" +:+ dq +:+ "."))
        else Ret tt
      else Raise (ValueError ("Link aggregation interface must start with " +:+ dq +:+ "lagg" +:+ dq +:+ " followed by an unique number."))
  | VLAN =>
      if PyStr.startswith name "vlan" && PyStr.isdigit (PyStr.drop 4 name) then Ret tt
      else Raise (ValueError ("VLAN interface must start with " +:+ dq +:+ "vlan" +:+ dq +:+ " followed by an unique number."))
  | _ => Ret tt
  end.

(** Dicts from interfaces to the interface that uses them: the last entry counts. *)
Fixpoint used_by (u : list (pyval * string)) (m : pyval) : option string :=
  match u with
  | [] => None
  | (k, v) :: u => match used_by u m with Some w => Some w | None => if py_eq k m then Some v else None end
  end.

Definition members_used (prefix key : string) (ifaces : list (string * pydict)) : outcome exn (list (pyval * string)) :=
  foldO (λ u kv,
    if PyStr.startswith kv.1 prefix then
      ports ← list_or_empty (col kv.2 key);
      Ret (u ++ ((λ p, (p, kv.1)) <$> ports))
    else Ret u) [] ifaces.

Definition vlans_used (ifaces : list (string * pydict)) : outcome exn (list (pyval * string)) :=
  foldO (λ u kv,
    if PyStr.startswith kv.1 "vlan" then p ← item (PDict kv.2) "vlan_parent_interface"; Ret (u ++ [(p, kv.1)])
    else Ret u) [] ifaces.

Definition known (ifaces : list (string * pydict)) (m : pyval) : option pydict :=
  match m with PStr n => dget ifaces n | _ => None end.

Definition in_use (m : pyval) (user : string) : string := "Interface " +:+ py_str m +:+ " is currently in use by " +:+ user +:+ ".".

Notation verrs := (list ValidationError).

(** One member of a bridge. *)
Definition check_bridge_member (schema_name : string) (ifaces : list (string * pydict))
    (bridge_used lag_used vlan_used : list (pyval * string)) (i : nat) (m : pyval) (verrors : verrs) : outcome exn verrs :=
  let field := schema_name +:+ ".bridge_members." +:+ pretty i in
  if negb (hashable m) then Raise (TypeError "unhashable type")
  else Ret
    match known ifaces m with
    | None => VErrors.add verrors field "Not a valid interface." EINVAL
    | Some _ =>
        match used_by bridge_used m, used_by lag_used m, used_by vlan_used m with
        | Some u, _, _ | None, Some u, _ | None, None, Some u => VErrors.add verrors field (in_use m u) EINVAL
        | None, None, None => verrors
        end
    end.

(** One port of an aggregation. *)
Definition check_lag_port (schema_name : string) (ifaces : list (string * pydict)) (lag_used vlan_used : list (pyval * string))
    (i : nat) (m : pyval) (verrors : verrs) : outcome exn verrs :=
  let field := schema_name +:+ ".lag_ports." +:+ pretty i in
  match known ifaces m with
  | None => Ret (VErrors.add verrors field "Not a valid interface." EINVAL)
  | Some iface =>
      cloned ← (state ← item (PDict iface) "state"; item state "cloned");
      Ret (if truthy cloned then
             VErrors.add verrors field "Only physical interfaces are allowed to be a member of Link Aggregation." EINVAL
           else match used_by lag_used m, used_by vlan_used m with
                | Some u, _ | None, Some u => VErrors.add verrors field (in_use m u) EINVAL
                | None, None => verrors
                end)
  end.

Fixpoint foldi {A B} (f : nat → A → B → outcome exn B) (i : nat) (l : list A) (b : B) : outcome exn B :=
  match l with
  | [] => Ret b
  | x :: l => b ← f i x b; foldi f (S i) l b
  end.

(** The name of a new virtual interface. *)
Definition check_name (schema_name : string) (t : InterfaceType) (data : pydict) (verrors : verrs) : verrs :=
  match dget data "name" with
  | Some n => match validate_name t (py_str n) with
              | Ret _ => verrors
              | Raise (ValueError msg) => VErrors.add verrors (schema_name +:+ ".name") msg EINVAL
              | Raise _ => verrors
              end
  | None => verrors
  end.

(** [__validate_aliases]: the first network in use that overlaps. *)
Definition used_networks (version : Z) (ifaces : list (string * pydict)) : outcome exn (list Network) :=
  foldO (λ acc kv,
    l ← (x ← item (PDict kv.2) "aliases"; py_iter x);
    foldO (λ acc a,
      ty ← item a "type";
      if py_eq ty (PStr (if Z.eqb version 4 then "INET" else "INET6")) then
        address ← item a "address"; netmask ← item a "netmask";
        n ← ip_network (py_str address +:+ "/" +:+ py_str netmask);
        Ret (acc ++ [n])
      else Ret acc) acc l) [] ifaces.

Definition validate_aliases (schema_name : string) (data : pydict) (ifaces : list (string * pydict)) (verrors : verrs) :
    outcome exn verrs :=
  l ← list_or_empty (col data "aliases");
  foldi (λ i a verrors,
    address ← item a "address"; netmask ← item a "netmask";
    n ← ip_network (py_str address +:+ "/" +:+ py_str netmask);
    used ← used_networks (net_version n) ifaces;
    Ret (if existsb (λ u, overlaps u n) used
         then VErrors.add verrors (schema_name +:+ ".aliases." +:+ pretty i)
                ("The network " +:+ net_str n +:+ " is already in use by another interface.") EINVAL
         else verrors)) 0 l verrors.

(** [validation_attrs], without the messages that are the same for all. *)
Definition validation_attrs : list (string * string) :=
  [("aliases", "Active node IP address"); ("failover_aliases", "Standby node IP address");
   ("failover_virtual_aliases", "Virtual IP address"); ("failover_group", "Failover group number");
   ("mtu", "MTU"); ("ipv4_dhcp", "DHCP"); ("ipv6_auto", "Autconfig for IPv6")].

Definition len_of (v : option pyval) : outcome exn nat :=
  match v with
  | None => Ret 0
  | Some (PList l) => Ret (length l)
  | Some _ => Raise (TypeError "object has no len()")
  end.

(** The checks of each type of interface. *)
Definition check_type (schema_name : string) (data : pydict) (itype : string) (ifaces : list (string * pydict)) (verrors : verrs) :
    outcome exn verrs :=
  bridge_used ← members_used "bridge" "bridge_members" ifaces;
  vlan_used ← vlans_used ifaces;
  lag_used ← members_used "lagg" "lag_ports" ifaces;
  if String.eqb itype "PHYSICAL" then
    name ← item (PDict data) "name";
    Ret (match used_by lag_used name with
         | None => verrors
         | Some lag_name =>
             foldl (λ verrors kv,
               if truthy (col data kv.1)
               then VErrors.add verrors (schema_name +:+ "." +:+ kv.1)
                      ("Interface in use by " +:+ lag_name +:+ ". " +:+ kv.2 +:+ " cannot be changed.") EINVAL
               else verrors) verrors validation_attrs
         end)
  else if String.eqb itype "BRIDGE" then
    let verrors := check_name schema_name BRIDGE data verrors in
    let verrors := if truthy (col data "disable_offload_capabilities")
      then VErrors.add verrors (schema_name +:+ ".disable_offload_capabilities")
             "Offloading capabilities is not supported for bridge interfaces" EINVAL
      else verrors in
    members ← list_or_empty (col data "bridge_members");
    foldi (check_bridge_member schema_name ifaces bridge_used lag_used vlan_used) 0 members verrors
  else if String.eqb itype "LINK_AGGREGATION" then
    let verrors := check_name schema_name LINK_AGGREGATION data verrors in
    proto ← item (PDict data) "lag_protocol";
    let verrors := if bool_decide (py_str proto ∈ env.(supported_protocols)) then verrors
      else VErrors.add verrors (schema_name +:+ ".lag_protocol")
             (env.(platform) +:+ " does not support LAG protocol " +:+ py_str proto) EINVAL in
    let verrors := if truthy (col data "lag_ports") then verrors
      else VErrors.add verrors (schema_name +:+ ".lag_ports") "This field cannot be empty." EINVAL in
    ports ← py_iter (col data "lag_ports");
    foldi (check_lag_port schema_name ifaces lag_used vlan_used) 0 ports verrors
  else if String.eqb itype "VLAN" then
    let verrors := check_name schema_name VLAN data verrors in
    let parent := col data "vlan_parent_interface" in
    let field := schema_name +:+ ".vlan_parent_interface" in
    Ret (match known ifaces parent with
         | None => VErrors.add verrors field "Not a valid interface." EINVAL
         | Some parent_iface =>
             match used_by lag_used parent with
             | Some u => VErrors.add verrors field (in_use parent u) EINVAL
             | None =>
                 if PyStr.startswith (py_str parent) "bridge" then VErrors.add verrors field "Bridge interfaces are not allowed." EINVAL
                 else
                   match col data "mtu", col parent_iface "mtu" with
                   | PInt mtu, PInt pm =>
                       if negb (Z.eqb mtu 0) && Z.ltb (if Z.eqb pm 0 then 1500 else pm) mtu
                       then VErrors.add verrors (schema_name +:+ ".mtu") "VLAN MTU cannot be bigger than parent interface." EINVAL
                       else verrors
                   | PInt mtu, _ =>
                       if negb (Z.eqb mtu 0) && Z.ltb 1500 mtu
                       then VErrors.add verrors (schema_name +:+ ".mtu") "VLAN MTU cannot be bigger than parent interface." EINVAL
                       else verrors
                   | _, _ => verrors
                   end
             end
         end)
  else Ret verrors.

(** The checks for a pair of controllers; the source goes through a set of the
    attributes that are missing, here they are in the order of [validation_attrs]. *)
Definition check_failover (schema_name : string) (data : pydict) (itype : string) (update : option pydict) (verrors : verrs) :
    outcome exn verrs :=
  if negb env.(failover_single) && negb env.(failover_disabled) then
    Raise (CallError "Failover needs to be disabled to perform network configuration changes." EFAULT PNone)
  else
    a ← len_of (dget data "aliases"); b ← len_of (dget data "failover_aliases"); v ← len_of (dget data "failover_virtual_aliases");
    let verrors := if Nat.eqb a b && Nat.eqb b v then verrors
      else VErrors.add verrors (schema_name +:+ ".failover_aliases")
             "The number of active, standby and virtual IP addresses must be the same." EINVAL in
    verrors ←
      (if match update with None => true | Some _ => String.eqb itype "PHYSICAL" end then
         let attrs := List.filter (λ kv, negb (bool_decide (kv.1 ∈ ["mtu"; "ipv4_dhcp"; "ipv6_auto"]))) validation_attrs in
         let verrors :=
           if existsb (λ kv, truthy (col data kv.1)) attrs then
             foldl (λ verrors kv, if truthy (col data kv.1) then verrors
               else VErrors.add verrors (schema_name +:+ "." +:+ kv.1) (kv.2 +:+ " is required when configuring HA") EINVAL) verrors attrs
           else verrors in
         VErrors.check verrors ≫= λ _, Ret verrors
       else Ret verrors);
    let vhid := truthy (col data "failover_vhid") in
    let group := truthy (col data "failover_group") in
    let verrors := if negb vhid && group
      then VErrors.add verrors (schema_name +:+ ".failover_vhid") "Removing only the VHID is not allowed." EINVAL else verrors in
    let verrors := if negb group && vhid
      then VErrors.add verrors (schema_name +:+ ".failover_group") "Removing only the failover group is not allowed." EINVAL else verrors in
    let verrors :=
      match update with
      | None =>
          if String.eqb itype "LINK_AGGREGATION" && truthy (col data "failover_critical") && py_eq (col data "lag_protocol") (PStr "FAILOVER")
          then VErrors.add verrors (schema_name +:+ ".failover_critical")
                 ("A lagg using " +:+ dq +:+ "Failover" +:+ dq +:+ " protocol is not allowed to be marked critical for failover.") EINVAL
          else verrors
      | Some _ => verrors
      end in
    match update with
    | None => Ret verrors
    | Some u =>
        new ← item (PDict data) "failover_vhid";
        if py_eq (col u "failover_vhid") new then Ret verrors
        else
          name ← item (PDict data) "name";
          let used := env.(scan_vrrp) (py_str name) in
          Ret (if match new with PInt z => bool_decide (z ∈ used) | _ => false end
               then VErrors.add verrors (schema_name +:+ ".failover_vhid")
                      ("The following VHIDs are already in use: " +:+ join ", " (pretty <$> used) +:+ ".") EINVAL
               else verrors)
    end.

(** [_common_validation]: the errors, and [data] without what is not licensed. *)
Definition common_validation (verrors : verrs) (schema_name : string) (data : pydict) (itype : string) (update : option pydict)
    (all : list (string * pydict)) : outcome exn (verrs * pydict) :=
  let ifaces := match update with
    | Some u => List.filter (λ kv, negb (py_eq (col kv.2 "id") (col u "id"))) all
    | None => all
    end in
  let others k := existsb (λ kv, truthy (col kv.2 k) && negb (truthy (col kv.2 "fake"))) ifaces in
  let verrors := match dget data "name" with
    | Some n => match known ifaces n with
                | Some _ => VErrors.add verrors (schema_name +:+ ".name") "Interface name is already in use." EINVAL
                | None => verrors
                end
    | None => verrors
    end in
  let verrors := if truthy (col data "ipv4_dhcp") && others "ipv4_dhcp"
    then VErrors.add verrors (schema_name +:+ ".ipv4_dhcp") "Only one interface can be used for DHCP." EINVAL else verrors in
  let verrors := if truthy (col data "ipv6_auto") && others "ipv6_auto"
    then VErrors.add verrors (schema_name +:+ ".ipv6_auto") "Only one interface can have IPv6 autoconfiguration enabled." EINVAL
    else verrors in
  let verrors := match col data "options" with
    | PStr o => if PyStr.nonempty o && env.(re_mtu) o
                then VErrors.add verrors (schema_name +:+ ".options") "MTU should be placed in its own field." EINVAL else verrors
    | _ => verrors
    end in
  verrors ← validate_aliases schema_name data ifaces verrors;
  verrors ← check_type schema_name data itype ifaces verrors;
  if env.(failover_licensed) then
    verrors ← check_failover schema_name data itype update verrors; Ret (verrors, data)
  else
    Ret (verrors, foldl (λ d k, ddel d k) data
      ["failover_critical"; "failover_group"; "failover_aliases"; "failover_vhid"; "failover_virtual_aliases"]).


(** ** Creating *)

(** [get_next]: the loop ends because every turn passes an existing name. *)
Fixpoint next_number (fuel : nat) (prefix : string) (number : nat) (names : list string) : outcome exn string :=
  match fuel with
  | 0 => Raise (RuntimeError "no free number")
  | S fuel =>
      let name := prefix +:+ pretty number in
      if bool_decide (name ∈ names) then next_number fuel prefix (S number) names else Ret name
  end.

Definition get_next (prefix : string) (start : nat) : MN string := λ s,
  let names := List.filter (λ n, PyStr.startswith n prefix) ((λ r, py_str (col r "int_interface")) <$> s.(tables).(interfaces)) in
  (next_number (S (length names)) prefix start names, s).

(** [get_next_name] of interface/type_freebsd.py *)
Definition get_next_name (t : InterfaceType) : MN string :=
  match t with
  | BRIDGE => get_next "bridge" 2
  | LINK_AGGREGATION => get_next "lagg" 0
  | VLAN => get_next "vlan" 0
  | _ => raise (ValueError "Invalid interface type")
  end.

(** [data.get('name') or get_next_name(type)] *)
Definition name_for (t : InterfaceType) (data : pydict) : MN string :=
  if truthy (col data "name") then mret (py_str (col data "name")) else get_next_name t.

Definition required_attrs (type : string) : list string :=
  if String.eqb type "BRIDGE" then ["bridge_members"]
  else if String.eqb type "LINK_AGGREGATION" then ["lag_protocol"; "lag_ports"]
  else ["vlan_parent_interface"; "vlan_tag"].

Definition get_item (d : pydict) (k : string) : MN pyval := lift (item (PDict d) k).

Definition lower_of (v : pyval) : outcome exn pyval :=
  match v with
  | PStr s => Ret (PStr (PyStr.lower s))
  | _ => Raise (AttributeError "object has no attribute 'lower'")
  end.

(** The rows of a new interface of each type. *)
Definition create_bridge (data : pydict) : MN string :=
  name ← name_for BRIDGE data;
  '(interface_id, aliases) ← create_row data [("interface", PStr name)];
  or_undo
    (create_aliases interface_id aliases;;
     members ← get_item data "bridge_members";
     insert TBridge [("interface", interface_id); ("members", members)];; mret tt)
    (suppress_delete TInterfaces interface_id);;
  mret name.

Definition create_lagg (data : pydict) : MN string :=
  name ← name_for LINK_AGGREGATION data;
  '(interface_id, aliases) ← create_row data [("interface", PStr name)];
  or_undo
    (create_aliases interface_id aliases;;
     protocol ← get_item data "lag_protocol";
     protocol ← lift (lower_of protocol);
     lag_id ← insert TLagg [("lagg_interface", interface_id); ("lagg_protocol", protocol)];
     or_undo (ports ← get_item data "lag_ports"; ports ← lift (py_iter ports); set_lag_ports lag_id 0 ports)
       (suppress_delete TLagg lag_id))
    (suppress_delete TInterfaces interface_id);;
  mret name.

Definition create_vlan (data : pydict) : MN string :=
  name ← name_for VLAN data;
  '(interface_id, aliases) ← create_row data [("interface", PStr name)];
  or_undo
    (create_aliases interface_id aliases;;
     pint ← get_item data "vlan_parent_interface";
     tag ← get_item data "vlan_tag";
     insert TVlan (prefixed "vlan_" [("vint", PStr name); ("pint", pint); ("tag", tag); ("pcp", col data "vlan_pcp")]);; mret tt)
    (suppress_delete TInterfaces interface_id);;
  mret name.

(** [do_create] *)
Definition do_create (data : pydict) : MN pydict :=
  check_failover_disabled;;
  type ← get_item data "type";
  let type := py_str type in
  let verrors := foldl (λ verrors i, if dhas data i then verrors
    else VErrors.add verrors ("interface_create." +:+ i) "This field is required" EINVAL) [] (required_attrs type) in
  lift (VErrors.check verrors);;
  all ← query;
  '(verrors, data) ← lift (common_validation verrors "interface_create" data type None all);
  lift (VErrors.check verrors);;
  save_datastores;;
  name ← (if String.eqb type "BRIDGE" then create_bridge data
          else if String.eqb type "LINK_AGGREGATION" then create_lagg data
          else create_vlan data);
  (if truthy (col data "disable_offload_capabilities") then set_capabilities false name else mret tt);;
  get_instance name.

(** ** Updating *)

(** The old aliases of an interface by their text, with the row of each. *)
Definition old_aliases (arows : list pydict) : list (string * pyval) :=
  foldl (λ d r,
    foldl (λ d nm,
      if truthy (col r nm.1) then
        dset d (py_str (col r nm.1) +:+ "/" +:+ match nm.2 with Some m => py_str (col r m) | None => "32" end) (col r "id")
      else d) d
      [("alias_v4address", Some "alias_v4netmaskbit"); ("alias_v4address_b", Some "alias_v4netmaskbit");
       ("alias_v6address", Some "alias_v6netmaskbit"); ("alias_vip", None)]) [] arows.

(** The difference between the aliases wanted and those there are (sets in the
    source, here in the order of the rows). *)
Definition update_aliases (id : pyval) (aliases : list (string * pydict)) : MN unit :=
  s ← get_state;
  let old := old_aliases (List.filter (eq_col "alias_interface" id) s.(tables).(alias)) in
  forM (List.filter (λ a, negb (dhas old a.1)) aliases) (λ a, insert_alias id a.2);;
  forM (List.filter (λ o, negb (dhas aliases o.1)) old) (λ o,
    if truthy o.2 then delete_where TAlias (eq_col "id" o.2) else mret tt).

(** The tables of each type of virtual interface; [data] is what the caller gave. *)
Definition update_type (iface new data config : pydict) : MN unit :=
  let type := py_str (col iface "type") in
  if String.eqb type "BRIDGE" then
    match dget data "bridge_members" with
    | Some members => update_where TBridge (eq_col "interface" (col config "id")) [("members", members)];; mret tt
    | None => mret tt
    end
  else if String.eqb type "LINK_AGGREGATION" then
    protocol ← get_item new "lag_protocol";
    protocol ← lift (lower_of protocol);
    lag_id ← update_where TLagg (eq_col "lagg_interface" (col config "id")) [("lagg_protocol", protocol)];
    match dget data "lag_ports" with
    | Some ports =>
        delete_where TMembers (eq_col "lagg_interfacegroup" lag_id);;
        ports ← lift (py_iter ports);
        set_lag_ports lag_id 0 ports
    | None => mret tt
    end
  else if String.eqb type "VLAN" then
    name ← get_item new "name"; pint ← get_item new "vlan_parent_interface";
    tag ← get_item new "vlan_tag"; pcp ← get_item new "vlan_pcp";
    update_where TVlan (eq_col "vlan_vint" (col iface "name"))
      (prefixed "vlan_" [("vint", name); ("pint", pint); ("tag", tag); ("pcp", pcp)]);; mret tt
  else mret tt.

(** [link_address_update] *)
Definition link_address (iface : pydict) : outcome exn pydict :=
  state ← item (PDict iface) "state";
  a ← item state "link_address";
  Ret [(if env.(node_b) then "int_link_address_b" else "int_link_address", a)].

(** The capabilities that other services need disabled. *)
Definition check_capabilities (oid : string) (iface new : pydict) (verrors : verrs) : outcome exn verrs :=
  if negb env.(is_freenas) && env.(failover_licensed) &&
     negb (py_eq (col iface "disable_offload_capabilities") (col new "disable_offload_capabilities")) then
    v ← item (PDict new) "disable_offload_capabilities";
    Ret (if negb (truthy v) && bool_decide (py_str (col iface "name") ∈ env.(evil_nics))
         then VErrors.add verrors "interface_update.disable_offload_capabilities"
                ("Capabilities for " +:+ oid +:+ " cannot be enabled as there are Jail/VM(s) which need them disabled.") EINVAL
         else verrors)
  else Ret verrors.

(** An interface that has a row. *)
Definition update_existing (iface new data config : pydict) (interface_attrs : pydict) (aliases : list (string * pydict)) : MN unit :=
  name ← get_item new "name";
  (if py_eq (col config "int_interface") name then mret tt
   else update_where TInterfaces (eq_col "id" (col config "id")) [("int_interface", name)];; mret tt);;
  link ← lift (link_address iface);
  update_where TInterfaces (eq_col "id" (col config "id")) link;;
  update_type iface new data config;;
  let new := if truthy (col config "int_pass") then dset new "failover_pass" (col config "int_pass") else new in
  row ← lift (convert_interface new);
  update_where TInterfaces (eq_col "id" (col config "id")) (prefixed "int_" (row ++ interface_attrs));;
  update_aliases (col config "id") aliases.

(** [do_update] *)
Definition do_update (oid : string) (data : pydict) : MN pydict :=
  check_failover_disabled;;
  iface ← get_instance oid;
  let new := dupdate iface data in
  all ← query;
  '(verrors, new) ← lift (common_validation [] "interface_update" new (py_str (col iface "type")) (Some iface) all);
  verrors ← lift (check_capabilities oid iface new verrors);
  lift (VErrors.check verrors);;
  save_datastores;;
  s ← get_state;
  (match List.filter (eq_col "int_interface" (PStr oid)) s.(tables).(interfaces) with
   | [] =>
       '(interface_id, aliases) ← create_row new [("interface", col iface "name")];
       or_undo
         (create_aliases interface_id aliases;;
          s ← get_state;
          match List.filter (eq_col "id" interface_id) s.(tables).(interfaces) with
          | [] => raise IndexError
          | config :: _ =>
              link ← lift (link_address iface);
              update_where TInterfaces (eq_col "id" (col config "id")) link;;
              update_type iface new data config
          end)
         (suppress_delete TInterfaces interface_id)
   | config :: _ =>
       '(interface_attrs, aliases) ← lift (convert_aliases new);
       update_existing iface new data config interface_attrs aliases
   end);;
  (if py_eq (col new "disable_offload_capabilities") (col iface "disable_offload_capabilities") then mret tt
   else v ← get_item new "disable_offload_capabilities";
        set_capabilities (negb (truthy v)) (py_str (col iface "name")));;
  name ← get_item new "name";
  get_instance (py_str name).

(** ** Deleting *)

(** [delete_network_interface]: the ports of an aggregation are deleted with it. *)
Fixpoint delete_network_interface (fuel : nat) (oid : pyval) : MN unit :=
  match fuel with
  | 0 => raise (RuntimeError "maximum recursion depth exceeded")
  | S fuel =>
      s ← get_state;
      let owned := List.filter (eq_col "int_interface" oid) s.(tables).(interfaces) in
      let laggs := List.filter (λ l, bool_decide (col l "lagg_interface" ∈ ids owned)) s.(tables).(lagg) in
      forM laggs (λ l,
        s ← get_state;
        forM (List.filter (eq_col "lagg_interfacegroup" (col l "id")) s.(tables).(laggmembers)) (λ m,
          delete_network_interface fuel (col m "lagg_physnic"));;
        delete_where TLagg (eq_col "id" (col l "id")));;
      delete_where TVlan (eq_col "vlan_pint" oid);;
      delete_where TVlan (eq_col "vlan_vint" oid);;
      delete_where TInterfaces (eq_col "int_interface" oid)
  end.

(** [do_delete] *)
Definition do_delete (fuel : nat) (oid : string) : MN string :=
  check_failover_disabled;;
  iface ← get_instance oid;
  save_datastores;;
  (if py_eq (col iface "type") (PStr "LINK_AGGREGATION") then
     all ← query;
     let vlans := List.filter (λ kv, py_eq (col kv.2 "type") (PStr "VLAN") && py_eq (col kv.2 "vlan_parent_interface") (col iface "id")) all in
     match vlans with
     | [] => mret tt
     | _ => raise (CallError ("The following VLANs depend on this interface: " +:+ join ", " ((λ kv, py_str (col kv.2 "name")) <$> vlans)) EFAULT PNone)
     end
   else mret tt);;
  delete_network_interface fuel (PStr oid);;
  mret oid.

(** ** Calls and timers *)

(** What can happen to the service: a call of a client, or a timer that is due. *)
Inductive Call : Type :=
| Create (data : pydict)
| Update (oid : string) (data : pydict)
| Delete (fuel : nat) (oid : string)
| Commit (rollback_ : bool) (checkin_timeout : Z)
| Checkin
| Rollback
| Timer (i : nat).

Definition forget_timer (i : nat) (s : Net O) : Net O :=
  mkNet s.(tables) s.(original_datastores) s.(rollback_timer) (delete i s.(timers)) s.(next_timer) s.(os).

(** The task of a timer that is due is [rollback]; others do not run. *)
Definition fire (now : Z) (i : nat) : MN unit :=
  s ← get_state;
  match s.(timers) !! i with
  | Some due => if Z.leb due now then modify (forget_timer i);; rollback else mret tt
  | None => mret tt
  end.

Definition perform (now : Z) (c : Call) : MN unit :=
  match c with
  | Create data => do_create data;; mret tt
  | Update oid data => do_update oid data;; mret tt
  | Delete fuel oid => do_delete fuel oid;; mret tt
  | Commit rollback_ timeout => commit now rollback_ timeout
  | Checkin => checkin
  | Rollback => rollback
  | Timer i => fire now i
  end.

(** The calls that make changes final: a check in, and a commit that succeeds and
    needs no check in. *)
Definition accepted (now : Z) (c : Call) (s : Net O) : bool :=
  match c with
  | Checkin => true
  | Commit rollback_ timeout =>
      match (commit now rollback_ timeout s).1 with
      | Ret _ => negb (rollback_ && negb (Z.eqb timeout 0))
      | Raise _ => false
      end
  | _ => false
  end.

(** A history, with the tables as they were when changes were last made final. *)
Fixpoint history (h : list (Z * Call)) (base : Tables) (s : Net O) : Tables * Net O :=
  match h with
  | [] => (base, s)
  | (now, c) :: h =>
      let s' := (perform now c s).2 in
      history h (if accepted now c s then s'.(tables) else base) s'
  end.

Definition start (t : Tables) (o : O) : Net O := mkNet t None None ∅ 0 o.

End service.
