(* ===== verification/InterfaceFacts.v ===== *)
(** * Network interfaces: pending changes, free names, addresses *)

From S2P Require Import Prelude PyValue Schema Filter Rows Interface.

(** ** Sound tables *)

Lemma sound_spec t :
  sound t = true ↔
  (keyed t.(interfaces) = true ∧ keyed t.(alias) = true ∧ keyed t.(bridge) = true ∧ keyed t.(vlan) = true ∧
   keyed t.(lagg) = true ∧ keyed t.(laggmembers) = true) ∧
  fk "alias_interface" t.(interfaces) t.(alias) ∧ fk "interface" t.(interfaces) t.(bridge) ∧
  fk "lagg_interface" t.(interfaces) t.(lagg) ∧ fk "lagg_interfacegroup" t.(lagg) t.(laggmembers).
Proof. unfold sound, fk. simpl. rewrite !andb_true_iff. tauto. Qed.


Section service.
Context {O : Type} (sync_os : Tables → O → outcome exn unit * O) (env : Env).
Context (capabilities_os : bool → string → O → outcome exn unit * O).
Context `{ip : !IpAddress}.
Implicit Types (s : Net O) (t : Tables).

(** ** Restoring *)

Lemma write_sound (f : Tables → Tables) s : sound (f s.(tables)) = true → write f s = (Ret tt, set_tables (f s.(tables)) s).
Proof. unfold write. by intros ->. Qed.

Lemma insert_row n r t s z :
  dget r "id" = Some (PInt z) → sound (set_table n (get_table n t ++ [r]) t) = true →
  Interface.insert n r (set_tables t s) = (Ret (PInt z), set_tables (set_table n (get_table n t ++ [r]) t) s).
Proof.
  intros Hid Hs. unfold Interface.insert, mbind, M_bind, get_state. simpl. rewrite Hid. simpl. rewrite (dset_same _ _ _ Hid).
  rewrite write_sound by (by destruct n). by destruct n.
Qed.

(** Rows that are put back one after the other. *)
Lemma insert_rows n l t s :
  keyed l = true → (∀ pre post, l = pre ++ post → sound (set_table n pre t) = true) →
  forM l (λ i, Interface.insert n i;; mret tt) (set_tables (set_table n [] t) s) = (Ret tt, set_tables (set_table n l t) s).
Proof.
  intros Hk Hs. cut (∀ post pre, l = pre ++ post →
    forM post (λ i, Interface.insert n i;; mret tt) (set_tables (set_table n pre t) s) = (Ret tt, set_tables (set_table n l t) s));
    [intros H; by apply H|].
  induction post as [|r post IH]; intros pre Hl; cbn [forM].
  - rewrite app_nil_r in Hl. by subst.
  - assert (∃ z, dget r "id" = Some (PInt z)) as [z Hz] by (apply (keyed_row l); [done|rewrite Hl; set_solver]).
    assert (Hl' : l = (pre ++ [r]) ++ post) by (by rewrite <-app_assoc).
    assert (Hset : ∀ l1 l2, set_table n l2 (set_table n l1 t) = set_table n l2 t) by (by destruct n).
    assert (Hget : get_table n (set_table n pre t) = pre) by (by destruct n).
    unfold mbind, M_bind. rewrite (insert_row n r _ s z Hz); rewrite Hget, Hset; [|by eapply Hs]. simpl. by rewrite IH.
Qed.

Lemma delete_all n t s :
  sound (cascade (set_table n [] t)) = true →
  delete_where n (λ _, true) (set_tables t s) = (Ret tt, set_tables (cascade (set_table n [] t)) s).
Proof.
  intros Hs. unfold delete_where. rewrite write_sound; cbn [tables set_tables]; rewrite rows_filter_none; done.
Qed.

Ltac solve_sound := apply sound_spec; simpl; repeat split; eauto with rows.

(** Restoring gives back the tables that were saved, whatever they are now. *)
Lemma restore_tables t o s :
  sound t = true → sound o = true → s.(original_datastores) = Some o →
  restore_datastores (set_tables t s) = (Ret tt, set_originals None (set_tables o s)).
Proof.
  intros Ht Ho Hs. apply sound_spec in Ho as ((Ki & Ka & Kb & Kv & Kl & Km) & Fa & Fb & Fl & Fm).
  apply sound_spec in Ht as ((Ti & Ta & Tb & Tv & Tl & Tm) & Ga & Gb & Gl & Gm).
  unfold restore_datastores. rewrite (bind_ret _ _ _ (set_tables t s) (set_tables t s)) by done.
  cbn [original_datastores set_tables]. rewrite Hs.
  erewrite bind_ret; [|apply delete_all; solve_sound].
  erewrite bind_ret; [|apply delete_all; solve_sound].
  erewrite bind_ret; [|apply delete_all; solve_sound].
  unfold cascade. cbn [set_table interfaces alias bridge vlan lagg laggmembers].
  rewrite !(rows_filter_none (refers _ [])) by apply refers_nil.
  erewrite bind_ret; [|apply (insert_rows TInterfaces _ (mkTables [] [] [] [] [] [])); [done|intros ? ? E; rewrite E in Ki; solve_sound]].
  erewrite bind_ret; [|apply (insert_rows TAlias _ (mkTables o.(interfaces) [] [] [] [] [])); [done|intros ? ? E; rewrite E in Fa, Ka; solve_sound]].
  erewrite bind_ret; [|apply (insert_rows TBridge _ (mkTables o.(interfaces) o.(alias) [] [] [] [])); [done|intros ? ? E; rewrite E in Fb, Kb; solve_sound]].
  erewrite bind_ret; [|apply (insert_rows TVlan _ (mkTables o.(interfaces) o.(alias) o.(bridge) [] [] [])); [done|intros ? ? E; rewrite E in Kv; solve_sound]].
  erewrite bind_ret; [|apply (insert_rows TLagg _ (mkTables o.(interfaces) o.(alias) o.(bridge) o.(vlan) [] [])); [done|intros ? ? E; rewrite E in Fl, Kl; solve_sound]].
  erewrite bind_ret; [|apply (insert_rows TMembers _ (mkTables o.(interfaces) o.(alias) o.(bridge) o.(vlan) o.(lagg) [])); [done|intros ? ? E; rewrite E in Fm, Km; solve_sound]].
  by destruct o.
Qed.

(** ** Pending changes *)

(** With pending changes, [base] is what was saved; without, it is what there is. *)
Definition pending (base : Tables) (s : Net O) : Prop :=
  sound s.(tables) = true ∧ sound base = true ∧ s.(original_datastores) = Some base.

Definition settled_or_pending (base : Tables) (s : Net O) : Prop :=
  sound s.(tables) = true ∧ sound base = true ∧ from_option (λ o, o = base) (s.(tables) = base) s.(original_datastores).

Lemma pending_inv base s : pending base s → settled_or_pending base s.
Proof. intros (? & ? & Ho). split_and!; [done..|]. by rewrite Ho. Qed.

Section any.
Context (P : Net O → Prop).

Lemma keeps_lift {A} (o : outcome exn A) : keeps P (lift o).
Proof. by intros s. Qed.

Lemma keeps_query : keeps P (query env).
Proof. by intros s. Qed.

Lemma keeps_get_next prefix n : keeps P (get_next prefix n).
Proof. by intros s. Qed.

Lemma keeps_get_instance oid : keeps P (get_instance env oid).
Proof. unfold get_instance. apply keeps_bind; [apply keeps_query|]. keeps_tac. Qed.

Lemma keeps_check_failover_disabled : keeps P (check_failover_disabled env).
Proof. unfold check_failover_disabled. keeps_tac. Qed.

Lemma keeps_check_dhcp_or_aliases : keeps P (check_dhcp_or_aliases env).
Proof. unfold check_dhcp_or_aliases. apply keeps_bind; [apply keeps_query|]. keeps_tac. Qed.

Lemma keeps_get_item d k : keeps P (get_item d k).
Proof. by intros s. Qed.

Lemma keeps_name_for ty d : keeps P (name_for ty d).
Proof. unfold name_for, get_next_name. destruct (truthy _), ty; by intros s. Qed.
End any.

Hint Resolve keeps_lift keeps_query keeps_get_next keeps_get_instance keeps_check_failover_disabled
  keeps_check_dhcp_or_aliases keeps_get_item keeps_name_for : keeps.

Section base.
Context (base : Tables).

Lemma keeps_write f : keeps (pending base) (write f).
Proof. intros s (Ht & Hb & Ho). unfold write. destruct (sound (f _)) eqn:E; [|done]. by repeat split. Qed.

Lemma keeps_insert n d : keeps (pending base) (Interface.insert n d).
Proof.
  intros s Hs. unfold Interface.insert. rewrite (bind_ret _ _ s s s) by done. revert s Hs.
  cut (∀ s0 : Net O, keeps (pending base) (write (set_table n (get_table n (tables s0) ++
    [dset d "id" (from_option (λ v, v) (PInt (1 + max_id (get_table n (tables s0)))) (dget d "id"))]));;
    mret (from_option (λ v, v) (PInt (1 + max_id (get_table n (tables s0)))) (dget d "id")))); [intros H s; apply H|].
  intros s0. apply keeps_bind; [apply keeps_write|]. intros _. apply keeps_ret.
Qed.

Lemma keeps_delete_where n p : keeps (pending base) (delete_where n p).
Proof. apply keeps_write. Qed.

Hint Resolve keeps_write keeps_insert keeps_delete_where : keeps.

Lemma keeps_update_where n p d : keeps (pending base) (update_where n p d).
Proof. unfold update_where. keeps_tac. Qed.

Hint Resolve keeps_update_where : keeps.

Lemma keeps_set_capabilities on name : keeps (pending base) (set_capabilities capabilities_os on name).
Proof. intros s Hs. unfold set_capabilities. by destruct (capabilities_os _ _ _). Qed.

Lemma keeps_set_lag_ports id ports : ∀ i, keeps (pending base) (set_lag_ports id i ports).
Proof.
  induction ports as [|p ports IH]; intros i; cbn [set_lag_ports]; [apply keeps_ret|].
  apply keeps_bind; [unfold set_lag_port; keeps_tac|]. intros _. apply IH.
Qed.

Lemma keeps_suppress_delete n id : keeps (pending base) (suppress_delete n id).
Proof. unfold suppress_delete. keeps_tac. Qed.

Lemma keeps_or_undo {A} (m : M (Net O) exn A) undo : keeps (pending base) m → keeps (pending base) undo → keeps (pending base) (or_undo m undo).
Proof. intros Hm Hu. unfold or_undo. apply keeps_try; [done|]. intros e. apply keeps_bind; [done|]. keeps_tac. Qed.

Lemma keeps_create_row data attrs : keeps (pending base) (create_row env data attrs).
Proof. unfold create_row. keeps_tac. Qed.

Lemma keeps_create_aliases id aliases : keeps (pending base) (create_aliases id aliases).
Proof. unfold create_aliases, insert_alias. keeps_tac. Qed.

Hint Resolve keeps_set_capabilities keeps_set_lag_ports keeps_suppress_delete keeps_or_undo keeps_create_row keeps_create_aliases : keeps.

Lemma keeps_create_bridge data : keeps (pending base) (create_bridge env data).
Proof. unfold create_bridge. keeps_tac. Qed.

Lemma keeps_create_lagg data : keeps (pending base) (create_lagg env data).
Proof. unfold create_lagg. keeps_tac; repeat (apply keeps_or_undo; keeps_tac). Qed.

Lemma keeps_create_vlan data : keeps (pending base) (create_vlan env data).
Proof. unfold create_vlan. keeps_tac; repeat (apply keeps_or_undo; keeps_tac). Qed.

Lemma keeps_update_type iface new data config : keeps (pending base) (update_type iface new data config).
Proof. unfold update_type. keeps_tac. Qed.

Lemma keeps_update_aliases id aliases : keeps (pending base) (update_aliases id aliases).
Proof. unfold update_aliases, insert_alias. keeps_tac. Qed.

Lemma keeps_update_existing iface new data config attrs aliases :
  keeps (pending base) (update_existing env iface new data config attrs aliases).
Proof. unfold update_existing. keeps_tac; auto using keeps_update_type, keeps_update_aliases. Qed.

Lemma keeps_delete_network_interface fuel : ∀ oid, keeps (pending base) (delete_network_interface fuel oid).
Proof. induction fuel as [|fuel IH]; intros oid; cbn [delete_network_interface]; keeps_tac. Qed.

(** After [__save_datastores] what was there is saved. *)
Lemma keeps_save {A} (k : unit → M (Net O) exn A) :
  (∀ u, keeps (pending base) (k u)) → keeps (settled_or_pending base) (save_datastores ≫= k).
Proof.
  intros Hk s (Ht & Hb & Ho). apply pending_inv. unfold save_datastores, mbind, M_bind, get_state. simpl.
  destruct (original_datastores s) as [o|] eqn:E; simpl in *; subst; apply Hk; by repeat split.
Qed.

(** Up to [__save_datastores], and from there with [pending]. *)
Ltac to_save :=
  repeat first
    [ progress intros
    | simple apply keeps_save
    | match goal with
      | |- keeps (settled_or_pending _) (_ ≫= _) => apply keeps_bind; [solve [auto with keeps nocore]|]
      | |- keeps (settled_or_pending _) (match ?x with _ => _ end) => destruct x
      end ].

Lemma keeps_do_create data : keeps (settled_or_pending base) (do_create env capabilities_os data).
Proof. unfold do_create. to_save. keeps_tac; auto using keeps_create_bridge, keeps_create_lagg, keeps_create_vlan. Qed.

Lemma keeps_do_update oid data : keeps (settled_or_pending base) (do_update env capabilities_os oid data).
Proof.
  unfold do_update. to_save. keeps_tac; try apply keeps_update_existing.
  apply keeps_or_undo; keeps_tac; apply keeps_update_type.
Qed.

Lemma keeps_do_delete fuel oid : keeps (settled_or_pending base) (do_delete env fuel oid).
Proof. unfold do_delete. to_save. keeps_tac; auto using keeps_delete_network_interface. Qed.
End base.

(** Rolling back, with or without pending changes: the tables are [base], and it is
    [base] that is applied. *)
Lemma rollback_spec base s :
  settled_or_pending base s →
  (rollback sync_os s).1 = (sync_os base s.(os)).1 ∧
  (rollback sync_os s).2.(tables) = base ∧ (rollback sync_os s).2.(original_datastores) = None ∧
  (rollback sync_os s).2.(rollback_timer) = None ∧ (rollback sync_os s).2.(os) = (sync_os base s.(os)).2.
Proof.
  intros (Ht & Hb & Ho). unfold rollback, cancel_timer.
  set (c := λ s : Net O, mkNet s.(tables) s.(original_datastores) None _ s.(next_timer) s.(os)).
  rewrite (bind_ret (modify c) _ s tt (c s)) by done.
  assert (∃ s', restore_datastores (c s) = (Ret tt, s') ∧ s'.(tables) = base ∧ s'.(original_datastores) = None ∧
    s'.(rollback_timer) = None ∧ s'.(os) = s.(os)) as (s' & Hr & Ht' & Ho' & Hrt & Hos).
  { destruct (original_datastores s) as [o|] eqn:E.
    - simpl in Ho. subst o. exists (set_originals None (set_tables base (c s))). split; [|done].
      replace (c s) with (set_tables s.(tables) (c s)) at 1 by done. by apply restore_tables.
    - exists (c s). split; [|done]. unfold restore_datastores. rewrite (bind_ret get_state _ (c s) (c s) (c s)) by done. simpl. by rewrite E. }
  rewrite (bind_ret _ _ _ _ _ Hr). unfold sync. rewrite Ht', Hos. by destruct (sync_os base (os s)).
Qed.

Lemma keeps_rollback base : keeps (settled_or_pending base) (rollback sync_os).
Proof.
  intros s Hs. destruct (rollback_spec base s Hs) as (_ & Ht & Ho & _). destruct Hs as (_ & Hb & _).
  split_and!; [by rewrite Ht|done|by rewrite Ho].
Qed.

Lemma keeps_sync base : keeps (settled_or_pending base) (sync sync_os).
Proof. intros s Hs. unfold sync. by destruct (sync_os _ _). Qed.

(** A commit that is not final keeps what was saved. *)
Lemma commit_triple base now rb timeout :
  triple (settled_or_pending base) (commit sync_os env now rb timeout)
    (λ _ s, if rb && negb (Z.eqb timeout 0) then settled_or_pending base s
            else sound s.(tables) = true ∧ s.(original_datastores) = None)
    (λ _, settled_or_pending base).
Proof.
  unfold commit. eapply triple_bind; [apply keeps_triple, keeps_check_failover_disabled|intros ?; cbn beta].
  eapply triple_bind; [apply keeps_triple, keeps_check_dhcp_or_aliases|intros ?; cbn beta].
  eapply triple_bind.
  - apply keeps_triple, keeps_try; [apply keeps_sync|]. intros e. apply keeps_bind; [|keeps_tac].
    destruct rb; [apply keeps_rollback|keeps_tac].
  - intros ?. destruct (rb && _); apply triple_modify; [done|]. intros s (Ht & _). by split.
Qed.

Lemma keeps_fire base now i : keeps (settled_or_pending base) (fire sync_os now i).
Proof.
  unfold fire. keeps_tac; apply keeps_rollback.
Qed.

Lemma perform_inv base now c s :
  settled_or_pending base s →
  settled_or_pending (if accepted sync_os env now c s then (perform sync_os env capabilities_os now c s).2.(tables) else base)
    (perform sync_os env capabilities_os now c s).2.
Proof.
  intros Hs. assert (∀ t : Tables, sound t = true → ∀ s', tables s' = t → original_datastores s' = None → settled_or_pending t s') as Hnew.
  { intros t Ht s' <- Ho. split_and!; [done..|]. by rewrite Ho. }
  destruct c as [data|oid data|fuel oid|rb timeout| | |i]; cbn [accepted perform].
  - revert s Hs. apply keeps_bind; [apply keeps_do_create|intros; apply keeps_ret].
  - revert s Hs. apply keeps_bind; [apply keeps_do_update|intros; apply keeps_ret].
  - revert s Hs. apply keeps_bind; [apply keeps_do_delete|intros; apply keeps_ret].
  - pose proof (commit_triple base now rb timeout s Hs) as Hc. destruct (commit _ _ _ _ _ s) as [[[]|e] s']; cbn [fst snd]; [|done].
    destruct (rb && _); [done|]. destruct Hc. by apply Hnew.
  - destruct Hs as (Ht & _). by apply Hnew.
  - by apply keeps_rollback.
  - by apply keeps_fire.
Qed.

Lemma history_inv h : ∀ base s,
  settled_or_pending base s → let '(base', s') := history sync_os env capabilities_os h base s in settled_or_pending base' s'.
Proof. induction h as [|[now c] h IH]; intros base s Hs; cbn [history]; [done|]. apply IH. by apply perform_inv. Qed.

(** C6. Pending changes to interfaces can be taken back completely, after any history
    of calls that create, update and delete interfaces (whether they succeed or fail
    half way), commits, check-ins, rollbacks and timers that run out, from tables
    whose keys are consistent: [rollback] leaves all six tables exactly as they were
    when changes were last made final, it is those tables that it applies to the
    system and whose outcome it returns, and nothing is pending afterwards; and when
    nothing is pending before, there is nothing to take back. *)
Theorem rollback_restores_accepted (t0 : Tables) (o0 : O) (h : list (Z * Call)) :
  sound t0 = true →
  let '(base, s) := history sync_os env capabilities_os h t0 (start t0 o0) in
  let '(r, s') := rollback sync_os s in
  s'.(tables) = base ∧ has_pending_changes s' = false ∧ checkin_waiting 0 s' = None ∧
  (r, s'.(os)) = sync_os base s.(os) ∧ sound s.(tables) = true ∧
  (has_pending_changes s = false → s.(tables) = base).
Proof.
  intros Ht. pose proof (history_inv h t0 (start t0 o0)) as Hs. destruct (history _ _ _ h t0 _) as [base s].
  specialize (Hs ltac:(by repeat split)). pose proof (rollback_spec base s Hs) as (Hr & Htab & Ho & Hrt & Hos).
  destruct (rollback sync_os s) as [r s']. simpl in *. unfold has_pending_changes, checkin_waiting. rewrite Ho, Hrt.
  split_and!; try done.
  - subst r. rewrite Hos. by destruct (sync_os base (os s)).
  - apply Hs.
  - destruct Hs as (_ & _ & Hp). by destruct (original_datastores s).
Qed.

End service.

(** ** Free names *)

Section names.
Context {O : Type}.

Lemma next_number_spec prefix names : ∀ fuel n,
  (∃ k, n ≤ k < n + fuel ∧ prefix +:+ pretty k ∉ names) →
  ∃ k, next_number fuel prefix n names = Ret (prefix +:+ pretty k) ∧ n ≤ k ∧ prefix +:+ pretty k ∉ names ∧
    ∀ j, n ≤ j < k → prefix +:+ pretty j ∈ names.
Proof.
  induction fuel as [|fuel IH]; intros n (k & Hk & Hfree); [lia|]. cbn [next_number].
  destruct (bool_decide _) eqn:E.
  - apply bool_decide_eq_true in E. destruct (IH (S n)) as (k' & Hr & Hle & Hf & Hmin).
    { exists k. split; [|done]. destruct (decide (k = n)); [by subst|lia]. }
    exists k'. split_and!; [done|lia|done|]. intros j Hj. destruct (decide (j = n)); [by subst|]. apply Hmin. lia.
  - apply bool_decide_eq_false in E. exists n. split_and!; [done|lia|done|lia].
Qed.

#[local] Instance pretty_nat_names_inj (prefix : string) : Inj (=) (=) (λ k : nat, prefix +:+ pretty k).
Proof. intros a b H. simplify_eq. by apply (inj pretty). Qed.

(** Of more numbers than there are names, one is free. *)
Lemma free_number prefix (names : list string) n : ∃ k, n ≤ k < n + S (length names) ∧ prefix +:+ pretty k ∉ names.
Proof.
  destruct (decide (Exists (λ k, prefix +:+ pretty k ∉ names) (seq n (S (length names))))) as [H|H].
  - apply Exists_exists in H as (k & Hk & Hf). exists k. rewrite elem_of_seq in Hk. by split.
  - exfalso. apply not_Exists_Forall in H; [|apply _].
    assert (Hsub : ((λ k : nat, prefix +:+ pretty k) <$> seq n (S (length names))) ⊆ names).
    { intros x. rewrite list_elem_of_fmap. intros (k & -> & Hk). rewrite Forall_forall in H. by apply dec_stable, H. }
    apply NoDup_submseteq in Hsub; [|apply NoDup_fmap_2, NoDup_seq; apply _].
    apply submseteq_length in Hsub. rewrite length_fmap, length_seq in Hsub. lia.
Qed.

(** The loop that names a new interface ends, without an error and without a
    change: the name is the prefix with the first number from [start] on that no row
    of the interfaces has. *)
Theorem get_next_free prefix (start : nat) (s : Net O) :
  let used name := name ∈ ((λ r, py_str (col r "int_interface")) <$> s.(tables).(interfaces)) in
  ∃ k, get_next prefix start s = (Ret (prefix +:+ pretty k), s) ∧ start ≤ k ∧ ~ used (prefix +:+ pretty k) ∧
    ∀ j, start ≤ j < k → used (prefix +:+ pretty j).
Proof.
  intros used. unfold get_next. set (names := List.filter _ _).
  destruct (next_number_spec prefix names (S (length names)) start (free_number prefix names start)) as (k & Hr & Hle & Hf & Hmin).
  assert (Hin : ∀ j : nat, prefix +:+ pretty j ∈ names ↔ used (prefix +:+ pretty j)).
  { intros j. unfold names. rewrite list_elem_of_In, filter_In, <-list_elem_of_In. split; [tauto|]. intros Hu. split; [done|]. apply PyStr.startswith_app. }
  exists k. rewrite Hr. split_and!; [done|done|by rewrite <-Hin|]. intros j Hj. by apply Hin, Hmin.
Qed.

End names.

(** ** Addresses *)

Section addresses.
Context (env : Env) `{ip : !IpAddress}.

(** The text and the canonical entry of an address. *)
Definition alias_cidr (a : pydict) : string := py_str (col a "address") +:+ "/" +:+ py_str (col a "netmask").

Definition canonical (a : pydict) : option pyval :=
  match ip_interface (alias_cidr a) with
  | Ret (v, addr, prefixlen) => Some (alias_entry (if Z.eqb v 4 then "INET" else "INET6") (PStr addr) (PInt prefixlen))
  | Raise _ => None
  end.

(** The rows that hold the addresses: columns of the interface's, and alias rows. *)
Definition address_row (row iface : pydict) : pydict := prefixed "int_" (row ++ iface).
Definition alias_row (interface_id : pyval) (a : string * pydict) : pydict := prefixed "alias_" (("interface", interface_id) :: a.2).

Lemma dget_prefixed p (d : pydict) k : dget (prefixed p d) (p +:+ k) = dget d k.
Proof.
  unfold prefixed. induction d as [|[k' v] d IH]; simpl; [done|]. destruct (decide (k' = k)) as [->|Hne].
  - by rewrite decide_True.
  - rewrite decide_False; [done|]. intros E. by apply (inj (String.append p)) in E.
Qed.

Lemma col_prefixed p (d : pydict) k : col (prefixed p d) (p +:+ k) = col d k.
Proof. unfold col. by rewrite dget_prefixed. Qed.

(** The slot of a version in the interface's row and in the alias rows. *)
Definition slot (v4 : bool) : string * string * string := if v4 then ("INET", "ipv4address", "v4netmaskbit") else ("INET6", "ipv6address", "v6netmaskbit").

Definition entry_of (v4 : bool) (addr : string) (p : Z) : pyval := alias_entry (slot v4).1.1 (PStr addr) (PInt p).

(** What a slot of the interface's row holds: nothing, or an address. *)
Definition holds (auto v4 : bool) (iface : pydict) (e : list pyval) : Prop :=
  (col iface (slot v4).1.2 = PStr "" ∧ e = []) ∨
  (∃ addr p, auto = false ∧ addr ≠ "" ∧ col iface (slot v4).1.2 = PStr addr ∧ col iface (slot v4).2 = PInt p ∧ e = [entry_of v4 addr p]).

Definition alias_holds (a : string * pydict) (e : pyval) : Prop :=
  ∃ (v4 : bool) addr p, addr ≠ "" ∧ e = entry_of v4 addr p ∧
    a.2 = [(if v4 then "v4address" else "v6address", PStr addr); ((slot v4).2, PInt p)].

(** What the loop has stored of the addresses [pre]. *)
Definition stored (data : pydict) (pre : list pydict) (acc : pydict * list (string * pydict)) : Prop :=
  ∃ e4 e6 ea,
    holds (truthy (col data "ipv4_dhcp")) true acc.1 e4 ∧ holds (truthy (col data "ipv6_auto")) false acc.1 e6 ∧
    Forall2 alias_holds acc.2 ea ∧ (∀ k, k ∈ dkeys acc.2 → k ∈ alias_cidr <$> pre) ∧
    (Some <$> (e4 ++ e6 ++ ea)) ≡ₚ (canonical <$> pre).

Lemma truthy_str x : truthy (PStr x) = bool_decide (x ≠ "").
Proof. by destruct x. Qed.

Lemma holds_other auto v4 iface e a b :
  holds auto v4 iface e → holds auto v4 (dset (dset iface (slot (negb v4)).1.2 a) (slot (negb v4)).2 b) e.
Proof. unfold holds. destruct v4; simpl; rewrite !col_dset_ne by done; done. Qed.

Lemma holds_new (v4 : bool) iface addr p :
  addr ≠ "" → holds false v4 (dset (dset iface (slot v4).1.2 (PStr addr)) (slot v4).2 (PInt p)) [entry_of v4 addr p].
Proof.
  intros Ha. right. exists addr, p. destruct v4; simpl; rewrite !col_dset, col_dset_ne, col_dset by done; done.
Qed.

Definition alias_columns (v4 : bool) (addr : string) (p : Z) : pydict :=
  [(if v4 then "v4address" else "v6address", PStr addr); ((slot v4).2, PInt p)].

(** One turn of the loop. *)
Lemma convert_alias_eq (data : pydict) iface aliases (a : pydict) v addr p :
  dhas a "address" = true → dhas a "netmask" = true → ip_interface (alias_cidr a) = Ret (v, addr, p) →
  let v4 := Z.eqb v 4 in
  convert_alias data (iface, aliases) (FieldA, PDict a) =
  Ret (if truthy (col iface (slot v4).1.2) || truthy (col data (if v4 then "ipv4_dhcp" else "ipv6_auto"))
       then (iface, dset aliases (alias_cidr a) (alias_columns v4 addr p))
       else (dset (dset iface (slot v4).1.2 (PStr addr)) (slot v4).2 (PInt p), aliases)).
Proof.
  intros Ha Hm Hc v4. unfold dhas in Ha, Hm.
  destruct (dget a "address") as [ad|] eqn:Ea; [|done]. destruct (dget a "netmask") as [nm|] eqn:En; [|done].
  assert (alias_cidr a = py_str ad +:+ "/" +:+ py_str nm) as Hcidr by (unfold alias_cidr, col; by rewrite Ea, En).
  rewrite Hcidr in *. unfold convert_alias, item. cbn [snd fst]. rewrite Ea, En. unfold mbind, outcome_bind. rewrite Hc.
  unfold address_fields, v4. by destruct (Z.eqb v 4), (truthy _ || truthy _).
Qed.

Lemma alias_row_added (aliases : list (string * pydict)) (ea : list pyval) k (v4 : bool) addr p :
  Forall2 alias_holds aliases ea → k ∉ dkeys aliases → addr ≠ "" →
  Forall2 alias_holds (dset aliases k (alias_columns v4 addr p)) (ea ++ [entry_of v4 addr p]).
Proof.
  intros H Hk Ha. rewrite dset_fresh by done. apply Forall2_app; [done|]. constructor; [|constructor]. by exists v4, addr, p.
Qed.

(** One more address: in its slot when that is free, else in an alias row. *)
Lemma stored_step (data : pydict) pre acc (a : pydict) :
  (∀ x v addr p, ip_interface x = Ret (v, addr, p) → addr ≠ "") →
  stored data pre acc → dhas a "address" = true → dhas a "netmask" = true → is_Some (canonical a) → alias_cidr a ∉ alias_cidr <$> pre →
  ∃ acc', convert_alias data acc (FieldA, PDict a) = Ret acc' ∧ stored data (pre ++ [a]) acc'.
Proof.
  intros Hip Hst Ha Hm [e Hc] Hfresh. destruct acc as [iface aliases]. pose proof Hc as Hcan. revert Hc. unfold canonical.
  destruct (ip_interface (alias_cidr a)) as [[[v addr] p]|] eqn:Ei; [|done]. intros He.
  rewrite (convert_alias_eq data iface aliases a v addr p Ha Hm Ei). specialize (Hip _ _ _ _ Ei).
  assert (e = entry_of (Z.eqb v 4) addr p) as -> by (by destruct (Z.eqb v 4); simplify_eq). clear He Ei.
  revert Hcan. generalize (Z.eqb v 4). intros v4 Hcan. destruct Hst as (e4 & e6 & ea & H4 & H6 & Hea & Hkeys & Hperm). cbn [fst snd] in *.
  eexists. split; [done|]. unfold stored. rewrite !fmap_app. cbn [fmap list_fmap]. rewrite Hcan.
  destruct (truthy (col iface (slot v4).1.2) || _) eqn:Hfree.
  - exists e4, e6, (ea ++ [entry_of v4 addr p]). cbn [fst snd]. split_and!; [done|done| |intros k|].
    + apply alias_row_added; auto.
    + rewrite elem_of_app. unfold dkeys. destruct (decide (k = alias_cidr a)) as [->|Hne]; [set_solver|].
      rewrite dset_fresh by (intros ?; by apply Hfresh, Hkeys). rewrite fmap_app, elem_of_app. cbn. set_solver.
    + rewrite <-Hperm, !fmap_app. cbn. by rewrite !app_assoc.
  - apply orb_false_iff in Hfree as [Hslot Hauto].
    assert (holds_free : ∀ au e', holds au v4 iface e' → e' = []).
    { intros au e' [[_ ->]|(ad & q & _ & Hne & Hcol & _)]; [done|]. rewrite Hcol, truthy_str in Hslot. by apply bool_decide_eq_false, dec_stable in Hslot. }
    destruct v4.
    + rewrite (holds_free _ _ H4) in Hperm. exists [entry_of true addr p], e6, ea. cbn [fst snd]. rewrite Hauto.
      split_and!; [by apply holds_new|by apply (holds_other _ false)|done|set_solver|]. cbn in *. rewrite <-Hperm. by rewrite Permutation_cons_append.
    + rewrite (holds_free _ _ H6) in Hperm. exists e4, [entry_of false addr p], ea. cbn [fst snd]. rewrite Hauto.
      split_and!; [by apply (holds_other _ true)|by apply holds_new|done|set_solver|]. rewrite <-Hperm, !fmap_app. cbn.
      by rewrite <-Permutation_middle, Permutation_cons_append.
Qed.

(** Reading back. *)
Lemma add_alias_slot (auto v4 : bool) iface config e l :
  holds auto v4 iface e → (∀ k, k ∈ [(slot v4).1.2; (slot v4).2] → col config ("int_" +:+ k) = col iface k) →
  (if auto then Ret l else add_alias (slot v4).1.1 config ("int_" +:+ (slot v4).1.2) (Some ("int_" +:+ (slot v4).2)) l) = Ret (l ++ e).
Proof.
  intros He Hc. unfold add_alias. rewrite !Hc by set_solver. destruct He as [[-> ->]|(addr & p & -> & Ha & -> & -> & ->)].
  - rewrite app_nil_r. by destruct auto.
  - rewrite truthy_str, bool_decide_eq_true_2 by done. done.
Qed.

Lemma add_alias_row interface_id a e l :
  alias_holds a e →
  (l1 ← add_alias "INET" (alias_row interface_id a) "alias_v4address" (Some "alias_v4netmaskbit") l;
   add_alias "INET6" (alias_row interface_id a) "alias_v6address" (Some "alias_v6netmaskbit") l1) = Ret (l ++ [e]).
Proof.
  destruct a as [k cols]. intros ([] & addr & p & Ha & -> & Hcols); simpl in Hcols; subst; unfold add_alias, alias_row, col; cbn;
    destruct addr; done.
Qed.

Lemma alias_rows_read interface_id aliases ea : ∀ l,
  Forall2 alias_holds aliases ea →
  foldO (λ l a, l ← add_alias "INET" a "alias_v4address" (Some "alias_v4netmaskbit") l;
                add_alias "INET6" a "alias_v6address" (Some "alias_v6netmaskbit") l) l (alias_row interface_id <$> aliases) = Ret (l ++ ea).
Proof.
  intros l H. revert l. induction H as [|a e aliases ea Ha _ IH]; intros l; cbn [fmap list_fmap foldO]; [by rewrite app_nil_r|].
  rewrite (add_alias_row _ _ _ _ Ha). cbn. rewrite IH. by rewrite <-app_assoc.
Qed.

(** The columns of [__convert_interface_datastore] are apart from those of the addresses. *)
Lemma convert_interface_cols data row iface :
  convert_interface env data = Ret row →
  col (address_row row iface) "int_dhcp" = col data "ipv4_dhcp" ∧ col (address_row row iface) "int_ipv6auto" = col data "ipv6_auto" ∧
  ∀ k, k ∈ ["ipv4address"; "v4netmaskbit"; "ipv6address"; "v6netmaskbit"] → col (address_row row iface) ("int_" +:+ k) = col iface k.
Proof.
  unfold convert_interface, item. destruct (dget data "ipv4_dhcp") as [d4|] eqn:E4; [|done]. destruct (dget data "ipv6_auto") as [d6|] eqn:E6; [|done].
  cbn -[random_string truthy]. intros [= <-]. unfold col. rewrite E4, E6. split_and!; [done|done|].
  intros k Hk. unfold address_row. rewrite dget_prefixed. set_unfold in Hk. by destruct Hk as [-> |[-> |[-> |[-> |[]]]]].
Qed.

Lemma stored_read data row interface_id pre acc :
  stored data pre acc → convert_interface env data = Ret row →
  ∃ l, row_aliases (address_row row acc.1) (alias_row interface_id <$> acc.2) = Ret l ∧ (Some <$> l) ≡ₚ (canonical <$> pre).
Proof.
  intros (e4 & e6 & ea & H4 & H6 & Hea & _ & Hperm) Hrow. destruct (convert_interface_cols data row acc.1 Hrow) as (Hd & Hv & Hk).
  exists (e4 ++ e6 ++ ea). split; [|done]. unfold row_aliases. rewrite Hd, Hv.
  assert (∀ v4 k, k ∈ [(slot v4).1.2; (slot v4).2] → col (address_row row acc.1) ("int_" +:+ k) = col acc.1 k) as Hs
    by (intros [] k Hin; apply Hk; set_solver).
  pose proof (add_alias_slot _ true acc.1 _ e4 [] H4 (Hs true)) as R4.
  pose proof (add_alias_slot _ false acc.1 _ e6 e4 H6 (Hs false)) as R6.
  change ("int_" +:+ (slot true).1.2) with "int_ipv4address" in R4. change ("int_" +:+ (slot true).2) with "int_v4netmaskbit" in R4.
  change ("int_" +:+ (slot false).1.2) with "int_ipv6address" in R6. change ("int_" +:+ (slot false).2) with "int_v6netmaskbit" in R6.
  cbn [slot fst app] in R4, R6. rewrite R4. cbn [mbind outcome_bind]. rewrite R6. cbn [mbind outcome_bind].
  rewrite (alias_rows_read _ _ _ _ Hea). by rewrite <-app_assoc.
Qed.

Lemma stored_fold data l : ∀ pre acc,
  (∀ x v addr p, ip_interface x = Ret (v, addr, p) → addr ≠ "") →
  NoDup (alias_cidr <$> pre ++ l) → (∀ a, a ∈ l → dhas a "address" = true ∧ dhas a "netmask" = true ∧ is_Some (canonical a)) →
  stored data pre acc →
  ∃ acc', foldO (convert_alias data) acc ((λ a, (FieldA, PDict a)) <$> l) = Ret acc' ∧ stored data (pre ++ l) acc'.
Proof.
  induction l as [|a l IH]; intros pre acc Hip Hn Hl Hst; cbn [fmap list_fmap foldO].
  - exists acc. by rewrite app_nil_r.
  - destruct (Hl a) as (Ha & Hm & Hc); [set_solver|].
    destruct (stored_step data pre acc a Hip Hst Ha Hm Hc) as (acc1 & -> & Hst1).
    { rewrite fmap_app in Hn. apply NoDup_app in Hn as (_ & Hd & _). intros Hin. apply (Hd _ Hin). set_solver. }
    destruct (IH (pre ++ [a]) acc1) as (acc' & Hr & Hst'); [done|by rewrite <-app_assoc|set_solver|done|].
    exists acc'. rewrite <-app_assoc in Hst'. done.
Qed.

(** The addresses an interface is given are those it is shown with: splitting them
    between the interface's own row (the first of each version, when it is not
    configured automatically) and alias rows, and reading them back from those rows,
    gives every address once, with its canonical text and its prefix length, and
    nothing else; with any mix of versions and either kind of automatic configuration. *)
Theorem aliases_roundtrip (data row : pydict) (l : list pydict) interface_id :
  (∀ x v addr p, ip_interface x = Ret (v, addr, p) → addr ≠ "") →
  dget data "aliases" = Some (PList (PDict <$> l)) →
  truthy (col data "failover_aliases") = false → truthy (col data "failover_virtual_aliases") = false →
  (∀ a, a ∈ l → dhas a "address" = true ∧ dhas a "netmask" = true ∧ is_Some (canonical a)) →
  NoDup (alias_cidr <$> l) → convert_interface env data = Ret row →
  ∃ iface aliases out,
    convert_aliases data = Ret (iface, aliases) ∧
    row_aliases (address_row row iface) (alias_row interface_id <$> aliases) = Ret out ∧
    (Some <$> out) ≡ₚ (canonical <$> l).
Proof.
  intros Hip Hd Hb Hv Hl Hn Hrow.
  destruct (stored_fold data l []
    ([("ipv4address", PStr ""); ("ipv4address_b", PStr ""); ("v4netmaskbit", PStr ""); ("ipv6address", PStr "");
      ("v6netmaskbit", PStr ""); ("vip", PStr "")], [])) as ([iface aliases] & Hf & Hst); [done..| |].
  { exists [], [], []. split_and!; [by left|by left|constructor|set_solver|done]. }
  destruct (stored_read data row interface_id _ _ Hst Hrow) as (out & Hr & Hp).
  exists iface, aliases, out. split_and!; [|done|done]. unfold convert_aliases, list_or_empty, item. rewrite Hd, Hb, Hv.
  cbn -[convert_alias foldO]. rewrite app_nil_r, <-list_fmap_compose. done.
Qed.

End addresses.

(** ** A host with two interfaces *)

Module Demo.

(** Addresses by their text; a colon makes version 6. *)
#[local] Instance text_addresses : IpAddress := {|
  Network := string;
  ip_network := λ x, Ret x;
  net_version := λ x, if PyStr.contains x ":" then 6%Z else 4%Z;
  net_str := λ x, x;
  overlaps := λ a b, String.eqb a b;
  ip_interface := λ x, match PyStr.split "/"%char x with
                       | [String c a; n] => match py_int n with
                                   | Some p => Ret (if PyStr.contains a ":" then 6%Z else 4%Z, String c a, p)
                                   | None => Raise (ValueError "netmask")
                                   end
                       | _ => Raise (ValueError "address")
                       end |}.

Definition state (name : string) : pydict := [("name", PStr name); ("cloned", PBool false); ("link_address", PStr "00:00:00:00:00:01"); ("mtu", PInt 1500)].

Definition env : Env := {|
  host := [("em0", state "em0"); ("em1", state "em1")];
  is_freenas := true; internal_interfaces := []; failover_licensed := false; failover_single := true; failover_disabled := false;
  is_freebsd := true; supported_protocols := ["LACP"; "FAILOVER"]; platform := "FreeBSD"; scan_vrrp := λ _, [];
  random_string := λ _, "secret"; re_mtu := λ _, false; evil_nics := []; node_b := false |}.

Definition row (id : Z) (name : string) : pydict :=
  [("id", PInt id); ("int_interface", PStr name); ("int_name", PStr ""); ("int_dhcp", PBool true); ("int_ipv6auto", PBool false);
   ("int_ipv4address", PStr ""); ("int_v4netmaskbit", PStr ""); ("int_ipv6address", PStr ""); ("int_v6netmaskbit", PStr "")].

Definition t0 : Tables := mkTables [row 1 "em0"] [] [] [] [] [].

(** The system is the log of the tables applied to it. *)
Definition sync_os (t : Tables) (o : list Tables) : outcome exn unit * list Tables := (Ret tt, o ++ [t]).
Definition capabilities_os (on : bool) (name : string) (o : list Tables) : outcome exn unit * list Tables := (Ret tt, o).

Definition vlan_of (tag : Z) (aliases : list pydict) : pydict :=
  [("type", PStr "VLAN"); ("ipv4_dhcp", PBool false); ("ipv6_auto", PBool false); ("aliases", PList (PDict <$> aliases));
   ("vlan_parent_interface", PStr "em0"); ("vlan_tag", PInt tag); ("disable_offload_capabilities", PBool false)].

Definition alias_of (address : string) (netmask : Z) : pydict := [("type", PStr "INET"); ("address", PStr address); ("netmask", PInt netmask)].

Definition lagg_of (ports : list string) : pydict :=
  [("type", PStr "LINK_AGGREGATION"); ("ipv4_dhcp", PBool false); ("ipv6_auto", PBool false); ("aliases", PList []);
   ("lag_protocol", PStr "LACP"); ("lag_ports", PList (PStr <$> ports))].

Notation run h := (history sync_os env capabilities_os h t0 (start t0 [])).

(** A new interface, an aggregation, a deletion: all pending. *)
Definition changes : list (Z * Call) :=
  [(0%Z, Create (vlan_of 10 [alias_of "10.0.0.1" 24; alias_of "10.0.0.2" 24]));
   (1%Z, Create (lagg_of ["em1"]));
   (2%Z, Commit true 60);
   (3%Z, Delete 5 "vlan0")].

(** The changes are pending, and taken back completely. *)
Lemma rollback_restores_accepted_witness :
  has_pending_changes (run changes).2 = true ∧ (run changes).1 = t0 ∧ (run changes).2.(tables) ≠ t0 ∧
  let '(base, s) := run changes in
  let '(r, s') := rollback sync_os s in
  s'.(tables) = base ∧ has_pending_changes s' = false ∧ checkin_waiting 0 s' = None ∧
  (r, s'.(os)) = sync_os base s.(os) ∧ sound s.(tables) = true ∧
  (has_pending_changes s = false → s.(tables) = base).
Proof.
  split; [by vm_compute|]. split; [by vm_compute|]. split; [by vm_compute|].
  apply rollback_restores_accepted. by vm_compute.
Defined.

(** Addresses of both versions, beyond the first of each. *)
Definition dual : list pydict := [alias_of "10.0.0.1" 24; alias_of "fd00::1" 64; alias_of "10.0.1.1" 24; alias_of "fd01::1" 64].
Definition dual_row : pydict := match convert_interface env (vlan_of 10 dual) with Ret r => r | Raise _ => [] end.

Lemma aliases_roundtrip_witness :
  ∃ iface aliases out,
    convert_aliases (vlan_of 10 dual) = Ret (iface, aliases) ∧ length aliases = 2 ∧
    row_aliases (address_row dual_row iface) (alias_row (PInt 2) <$> aliases) = Ret out ∧
    (Some <$> out) ≡ₚ (canonical <$> dual).
Proof.
  destruct (aliases_roundtrip env (vlan_of 10 dual) dual_row dual (PInt 2)) as (iface & aliases & out & Hc & Hr & Hp).
  - intros x v addr p. cbn. destruct (PyStr.split _ _) as [|[|c a] [|n []]]; try done. destruct (py_int n); [|done]. by intros [= <- <- <-].
  - done.
  - done.
  - done.
  - intros a Ha. unfold dual in Ha. set_unfold in Ha.
    destruct Ha as [-> |[-> |[-> |[-> |[]]]]]; (split; [by vm_compute|split; [by vm_compute|]]); vm_compute; eauto.
  - vm_compute. apply (bool_decide_unpack _). by vm_compute.
  - by vm_compute.
  - exists iface, aliases, out. split; [done|]. split; [|done]. revert Hc. vm_compute. by intros [= <- <-].
Defined.

(** The second commit does not cancel the timer of the first: it runs out at 60,
    when the confirmation is due at 90, and takes back what the second one applied. *)
Example commit_leaves_timer :
  let h := [(0%Z, Create (vlan_of 10 [])); (0%Z, Commit true 60); (20%Z, Create (vlan_of 20 [])); (30%Z, Commit true 60)] in
  checkin_waiting 59 (run h).2 = Some 31%Z ∧
  (run (h ++ [(60%Z, Timer 0)])).2.(tables) = t0 ∧ checkin_waiting 60 (run (h ++ [(60%Z, Timer 0)])).2 = None.
Proof. by vm_compute. Qed.

(** After a check in too: changes made since are taken back, though never committed. *)
Example timer_after_checkin :
  let h := [(0%Z, Create (vlan_of 10 [])); (0%Z, Commit true 60); (10%Z, Commit true 60); (20%Z, Checkin); (30%Z, Create (vlan_of 20 []))] in
  let s := (run h).2 in
  length s.(tables).(vlan) = 2 ∧ checkin_waiting 30 s = None ∧ length (run (h ++ [(60%Z, Timer 0)])).2.(tables).(vlan) = 1.
Proof. by vm_compute. Qed.

(** One column holds the prefix length of both controllers: that of the standby one
    replaces that of the active one. *)
Example standby_mask_overwrites :
  match convert_aliases (dset (vlan_of 10 [alias_of "10.0.0.1" 24]) "failover_aliases" (PList [PDict (alias_of "10.0.0.2" 16)])) with
  | Ret (iface, _) => col iface "ipv4address" = PStr "10.0.0.1" ∧ col iface "v4netmaskbit" = PInt 16
  | Raise _ => False
  end.
Proof. by vm_compute. Qed.

End Demo.
