(* ===== verification/Pwenc.v ===== *)
(** * Encrypted values: plugins/pwenc.py and the column types of sqlalchemy.py

    The secret of the system lives in a file and in a cache of the class; values are
    padded, encrypted with AES in counter mode and printed in base64.  The column
    types of the database are the functions that turn a value into what is stored
    and back. *)

From S2P Require Import Prelude PyValue Base64 Rows.

Definition PWENC_BLOCK_SIZE : nat := 32.
Definition PWENC_PADDING : ascii := "{".
Definition PWENC_CHECK : string := "Donuts!".

(** [n * PWENC_PADDING] *)
Fixpoint padding (n : nat) : string := match n with 0 => "" | S n => String PWENC_PADDING (padding n) end.

Definition pad (x : string) : string :=
  x +:+ padding (PWENC_BLOCK_SIZE - String.length x mod PWENC_BLOCK_SIZE).

(** [x.rstrip(PWENC_PADDING)] *)
Fixpoint rstrip_padding (x : string) : string :=
  match x with
  | "" => ""
  | String c x => match rstrip_padding x with "" => if Ascii.eqb c PWENC_PADDING then "" else String c "" | y => String c y end
  end.

Record Pwenc : Type := mkPwenc {
  secret_file : option string;
  secret : option string;
  (** the rows of system.settings *)
  settings : list pydict;
  (** the encrypted columns of the database, by table and field *)
  passwords : list (string * string * list string);
}.

Section pwenc.
(** [AES.new(secret, AES.MODE_CTR, counter=Counter.new(64, prefix=nonce))] with
    [encrypt] and [decrypt]; a secret of a wrong length raises [ValueError]. *)
Context (aes_encrypt aes_decrypt : string → string → string → outcome exn string).
Notation MP := (M Pwenc exn).

Definition set_secret (v : option string) (s : Pwenc) : Pwenc := mkPwenc s.(secret_file) v s.(settings) s.(passwords).

(** [get_secret], [reset_secret_cache] *)
Definition get_secret : MP string :=
  s ← get_state;
  match s.(secret) with
  | Some v => mret v
  | None =>
      match s.(secret_file) with
      | Some v => modify (set_secret (Some v));; mret v
      | None => raise FileNotFoundError
      end
  end.

Definition reset_secret_cache : MP unit := modify (set_secret None).

(** [encrypt], with the nonce that is drawn *)
Definition encrypt (nonce data : string) : MP string :=
  secret ← get_secret;
  match aes_encrypt secret nonce (pad data) with
  | Ret c => mret (b64encode (nonce +:+ c))
  | Raise e => raise e
  end.

Definition decrypt_raising (encrypted : string) : MP string :=
  match b64decode encrypted with
  | Raise _ => raise (OtherError "binascii.Error")
  | Ret encrypted =>
      secret ← get_secret;
      match aes_decrypt secret (String.substring 0 8 encrypted) (PyStr.drop 8 encrypted) with
      | Raise e => raise e
      | Ret data =>
          match utf8_decode (rstrip_padding data) with
          | Some t => mret t
          | None => raise (OtherError "UnicodeDecodeError")
          end
      end
  end.

(** [decrypt] *)
Definition decrypt (encrypted : string) (raise_ : bool) : MP string :=
  if String.eqb encrypted "" then mret ""
  else try_except (decrypt_raising encrypted) (λ e, if raise_ then raise e else mret "").

(** [datastore.config] of system.settings, and what [datastore.insert] of an empty
    dict stores *)
Definition settings_config : MP pydict :=
  s ← get_state;
  match s.(settings) with
  | r :: _ => mret r
  | [] => raise MatchNotFound
  end.

Definition insert_settings : MP unit :=
  modify (λ s, mkPwenc s.(secret_file) s.(secret) (s.(settings) ++ [[("id", PInt (1 + max_id s.(settings))); ("stg_pwenc_check", PStr "")]]) s.(passwords)).

Definition update_settings (id : pyval) (data : pydict) : MP unit :=
  modify (λ s, mkPwenc s.(secret_file) s.(secret) ((λ r, if eq_col "id" id r then dupdate r data else r) <$> s.(settings)) s.(passwords)).

(** The columns that [generate_secret] empties. *)
Definition reset_columns : list (string * string) :=
  [("directoryservice_activedirectory", "ad_bindpw"); ("directoryservice_ldap", "ldap_bindpw"); ("services_dynamicdns", "ddns_password");
   ("services_webdav", "webdav_password"); ("services_ups", "ups_monpwd"); ("system_email", "em_pass")].

Definition reset_column (c : string * string) (s : Pwenc) : Pwenc :=
  mkPwenc s.(secret_file) s.(secret) s.(settings)
    ((λ e : string * string * list string, if bool_decide (e.1 = c) then (c, (λ _, "") <$> e.2) else e) <$> s.(passwords)).

(** [generate_secret], with the bytes of [os.urandom] *)
Definition generate_secret (urandom nonce : string) (reset_passwords : bool) : MP unit :=
  modify (λ s, mkPwenc (Some urandom) s.(secret) s.(settings) s.(passwords));;
  reset_secret_cache;;
  row ← settings_config;
  check ← encrypt nonce PWENC_CHECK;
  update_settings (col row "id") [("stg_pwenc_check", PStr check)];;
  if reset_passwords then forM reset_columns (λ c, modify (reset_column c)) else mret tt.

(** [check] *)
Definition check : MP bool :=
  row ← try_except settings_config (λ e,
    match e with
    | IndexError | MatchNotFound => insert_settings;; settings_config
    | _ => raise e
    end);
  t ← decrypt (match col row "stg_pwenc_check" with PStr t => t | _ => "" end) false;
  mret (String.eqb t PWENC_CHECK).

(** [setup] *)
Definition setup (urandom nonce : string) : MP unit :=
  ok ← check;
  if (ok : bool) then mret tt else generate_secret urandom nonce true.

(** ** Column types *)

(** [EncryptedText] *)
Definition text_bind (nonce : string) (v : option string) : MP (option string) :=
  match v with
  | None => mret None
  | Some "" => mret (Some "")
  | Some t => c ← encrypt nonce t; mret (Some c)
  end.

Definition text_result (v : option string) : MP (option string) :=
  match v with
  | None => mret None
  | Some "" => mret (Some "")
  | Some c => t ← decrypt c false; mret (Some t)
  end.

(** [JSON]; the empty value of the type, and what json prints and reads *)
Context (empty : option pyval) (json_print : pyval → string) (json_parse : string → outcome exn pyval).

Definition json_bind (nonce : string) (encrypted : bool) (v : pyval) : MP string :=
  let v := match v, empty with PNone, Some e => e | _, _ => v end in
  if encrypted then encrypt nonce (json_print v) else mret (json_print v).

Definition json_result (encrypted : bool) (value : string) : MP pyval :=
  try_except
    (text ← (if encrypted then decrypt value true else mret value);
     match json_parse text with Ret v => mret v | Raise e => raise e end)
    (λ _, mret (default PNone empty)).

End pwenc.

(** [MultiSelectField] *)
Definition multiselect_bind (v : option (list string)) : option string := join "," <$> v.
Definition multiselect_result (v : option string) : list string :=
  match v with Some t => if PyStr.nonempty t then PyStr.split "," t else [] | None => [] end.

(** [Time]; [parse_time] of isodate and [isoformat] *)
Definition time_bind {T} (parse_time : string → outcome exn T) (isoformat : T → string) (v : option (string + T)) : outcome exn (option string) :=
  match v with
  | None => Ret None
  | Some (inl s) => t ← parse_time s; Ret (Some (isoformat t))
  | Some (inr t) => Ret (Some (isoformat t))
  end.

Definition time_result {T} (parse_time : string → outcome exn T) (midnight : T) (v : option string) : T :=
  match v with
  | Some s => match parse_time s with Ret t => t | Raise _ => midnight end
  | None => midnight
  end.
