(* ===== verification/PwencFacts.v ===== *)
(** * Encrypted values: theorems *)

From S2P Require Import Prelude PyValue Base64 Rows Pwenc.

(** ** Padding *)

Lemma rstrip_app_padding x n : rstrip_padding (x +:+ padding n) = rstrip_padding x.
Proof.
  induction x as [|c x IH].
  - change (rstrip_padding (padding n) = ""). induction n as [|n IH]; [done|]. cbn [padding rstrip_padding]. by rewrite IH.
  - change (String c x +:+ padding n) with (String c (x +:+ padding n)). cbn [rstrip_padding]. by rewrite IH.
Qed.

(** What is stripped is padding. *)
Lemma rstrip_spec x : ∃ n, x = rstrip_padding x +:+ padding n.
Proof.
  induction x as [|c x [n IH]]; [by exists 0|]. cbn [rstrip_padding]. destruct (rstrip_padding x) as [|d y] eqn:E.
  - destruct (Ascii.eqb_spec c PWENC_PADDING) as [->|Hc].
    + exists (S n). by rewrite IH.
    + exists n. by rewrite IH.
  - exists n. change (String c x = String c (String d y +:+ padding n)). by rewrite <-IH.
Qed.

Lemma utf8_valid_snoc x : (x < 128)%Z → ∀ n l, length l ≤ n → utf8_valid (l ++ [x]) = true → utf8_valid l = true.
Proof.
  intros Hx. assert (Hcont : continuation x = false) by (unfold continuation; destruct (Z.leb_spec 128 x); [lia|done]).
  assert (Hx1 : (x <? 128)%Z = true) by lia.
  induction n as [|n IH]; intros [|a l] Hl; try done; [cbn in Hl; lia|]. cbn [app utf8_valid]. cbn [length] in Hl.
  destruct (a <? 128)%Z; [apply IH; lia|].
  destruct ((194 <=? a)%Z && (a <=? 223)%Z).
  { destruct l as [|b l]; cbn [app]; [by rewrite Hcont|]. cbn [length] in Hl. rewrite !andb_true_iff. intros [? ?]. split; [done|]. apply IH; [lia|done]. }
  destruct ((224 <=? a)%Z && (a <=? 239)%Z).
  { destruct l as [|b [|c l]]; cbn [app]; [done|by rewrite Hcont, !andb_false_r|]. cbn [length] in Hl. rewrite !andb_true_iff.
    intros [H ?]. split; [done|]. apply IH; [lia|done]. }
  destruct ((240 <=? a)%Z && (a <=? 244)%Z); [|done].
  destruct l as [|b [|c [|d l]]]; cbn [app]; [done|done|by rewrite Hcont, !andb_false_r|]. cbn [length] in Hl. rewrite !andb_true_iff.
  intros [H ?]. split; [done|]. apply IH; [lia|done].
Qed.

Lemma list_ascii_app a b : String.list_ascii_of_string (a +:+ b) = String.list_ascii_of_string a ++ String.list_ascii_of_string b.
Proof. induction a as [|c a IH]; [done|]. change (c :: String.list_ascii_of_string (a +:+ b) = c :: (String.list_ascii_of_string a ++ String.list_ascii_of_string b)). by rewrite IH. Qed.

(** Text without its trailing padding is text. *)
Lemma utf8_rstrip x : utf8_decode x = Some x → utf8_decode (rstrip_padding x) = Some (rstrip_padding x).
Proof.
  unfold utf8_decode. destruct (rstrip_spec x) as [n Hn]. remember (rstrip_padding x) as y eqn:E. clear E. rewrite Hn. clear Hn x. intros H.
  assert (Hv : utf8_valid (byte_of <$> String.list_ascii_of_string (y +:+ padding n)) = true) by (by destruct (utf8_valid _)). clear H.
  revert Hv. rewrite list_ascii_app, fmap_app. induction n as [|n IH]; [change (byte_of <$> String.list_ascii_of_string (padding 0)) with (@nil Z); rewrite app_nil_r; by intros ->|].
  assert (Hs : byte_of <$> String.list_ascii_of_string (padding (S n)) = (byte_of <$> String.list_ascii_of_string (padding n)) ++ [123%Z]).
  { clear IH. induction n as [|n IH]; [done|]. 
    transitivity (byte_of PWENC_PADDING :: ((byte_of <$> String.list_ascii_of_string (padding n)) ++ [123%Z])); [by rewrite <-IH|done]. }
  rewrite Hs, (assoc_L app). intros Hv. apply IH. eapply (utf8_valid_snoc 123); [lia|reflexivity|done].
Qed.

(** ** Decrypting *)

Definition key_of (s : Pwenc) : option string := match s.(secret) with Some k => Some k | None => s.(secret_file) end.

Lemma drop_nonce n a b : String.length a = n → PyStr.drop n (a +:+ b) = b.
Proof. intros <-. induction a as [|c a IH]; [by destruct b|done]. Qed.

Lemma substring_app n a b : String.length a = n → String.substring 0 n (a +:+ b) = a.
Proof. intros <-. induction a as [|c a IH]; [by destruct b|]. change (String c (String.substring 0 (String.length a) (a +:+ b)) = String c a). by rewrite IH. Qed.

Lemma b64encode_nonempty s : s ≠ "" → b64encode s ≠ "".
Proof. destruct s as [|a [|b [|c s]]]; [done|..]; intros _; discriminate. Qed.

Lemma rstrip_id x : PyStr.endswith x "{" = false → rstrip_padding x = x.
Proof.
  induction x as [|c x IH]; [done|]. cbn [PyStr.endswith]. intros [Hc Hx]%orb_false_iff. cbn [rstrip_padding]. rewrite (IH Hx).
  destruct x; [|done]. by destruct (Ascii.eqb_spec c PWENC_PADDING) as [->|].
Qed.

Section laws.
Context (aes_encrypt aes_decrypt : string → string → string → outcome exn string).
(** With a secret of 32 bytes and a nonce of 8 (the prefix of a counter of 64 bits) a
    text is encrypted, and decrypting gives it back. *)
Context (aes_ok : ∀ k nonce p, String.length k = PWENC_BLOCK_SIZE → String.length nonce = 8 →
  ∃ c, aes_encrypt k nonce p = Ret c ∧ aes_decrypt k nonce c = Ret p).
Notation encrypt := (encrypt aes_encrypt).
Notation decrypt := (decrypt aes_decrypt).

Lemma get_secret_spec s k : key_of s = Some k → get_secret s = (Ret k, set_secret (Some k) s).
Proof.
  unfold key_of, get_secret, mbind, M_bind, get_state. destruct s as [f c st pw]. cbn. destruct c as [c|]; [by intros [= ->]|]. by intros ->.
Qed.

Lemma encrypt_spec s k nonce data :
  key_of s = Some k → String.length k = PWENC_BLOCK_SIZE → String.length nonce = 8 →
  ∃ c, encrypt nonce data s = (Ret c, set_secret (Some k) s) ∧ c ≠ "" ∧
    ∀ s', key_of s' = Some k → decrypt_raising aes_decrypt c s' =
      (match utf8_decode (rstrip_padding data) with Some t => Ret t | None => Raise (OtherError "UnicodeDecodeError") end, set_secret (Some k) s').
Proof.
  intros Hk Hl Hn. destruct (aes_ok k nonce (pad data) Hl Hn) as (c & He & Hd). exists (b64encode (nonce +:+ c)). split_and!.
  - unfold Pwenc.encrypt, mbind, M_bind. by rewrite (get_secret_spec s k), He.
  - destruct nonce as [|x nonce]; [done|]. by apply b64encode_nonempty.
  - intros s' Hk'. unfold decrypt_raising. rewrite b64_roundtrip. unfold mbind, M_bind. rewrite (get_secret_spec s' k) by done.
    rewrite drop_nonce, substring_app, Hd by done. unfold pad. rewrite rstrip_app_padding. by destruct (utf8_decode _).
Qed.

Lemma decrypt_encrypt_spec s k nonce data raise_ :
  key_of s = Some k → String.length k = PWENC_BLOCK_SIZE → String.length nonce = 8 → utf8_decode data = Some data →
  ∃ c s', encrypt nonce data s = (Ret c, s') ∧ c ≠ "" ∧ decrypt c raise_ s' = (Ret (rstrip_padding data), s').
Proof.
  intros Hk Hl Hn Hu. destruct (encrypt_spec s k nonce data Hk Hl Hn) as (c & He & Hc & Hd). exists c, (set_secret (Some k) s). split_and!; [done|done|].
  unfold Pwenc.decrypt. rewrite (proj2 (String.eqb_neq c "")) by done. unfold try_except. rewrite Hd by done. by rewrite utf8_rstrip.
Qed.

(** C36. What is encrypted is decrypted again: with a secret of 32 bytes and a nonce of
    8, for every text, [decrypt] gives back the text without the braces it ends with
    (they are taken for padding), so a text that does not end with a brace comes back
    as it was. *)
Theorem decrypt_encrypt s k nonce data raise_ :
  key_of s = Some k → String.length k = PWENC_BLOCK_SIZE → String.length nonce = 8 → utf8_decode data = Some data →
  ∃ c s', encrypt nonce data s = (Ret c, s') ∧ decrypt c raise_ s' = (Ret (rstrip_padding data), s') ∧
    (PyStr.endswith data "{" = false → decrypt c raise_ s' = (Ret data, s')).
Proof.
  intros Hk Hl Hn Hu. destruct (decrypt_encrypt_spec s k nonce data raise_ Hk Hl Hn Hu) as (c & s' & He & _ & Hd). exists c, s'.
  split_and!; [done|done|]. intros Hb. by rewrite Hd, rstrip_id.
Qed.

(** Encrypted JSON comes back: no JSON text ends with an opening brace. *)
Theorem encrypted_json_roundtrip empty json_print json_parse s k nonce v :
  key_of s = Some k → String.length k = PWENC_BLOCK_SIZE → String.length nonce = 8 →
  utf8_decode (json_print v) = Some (json_print v) → PyStr.endswith (json_print v) "{" = false →
  json_parse (json_print v) = Ret v → v ≠ PNone →
  ∃ c s', json_bind aes_encrypt empty json_print nonce true v s = (Ret c, s') ∧
    json_result aes_decrypt empty json_parse true c s' = (Ret v, s').
Proof.
  intros Hk Hl Hn Hu Hb Hp Hv. destruct (decrypt_encrypt_spec s k nonce (json_print v) true Hk Hl Hn Hu) as (c & s' & He & _ & Hd).
  exists c, s'. rewrite (rstrip_id _ Hb) in Hd. split.
  - unfold json_bind. by destruct v.
  - unfold json_result, try_except, mbind, M_bind. by rewrite Hd, Hp.
Qed.

(** ** The secret of the system *)

(** Decrypting without raising returns, reads at most the secret, and gives the same
    again. *)
Lemma decrypt_returns c s : ∃ t s', decrypt c false s = (Ret t, s') ∧ decrypt c false s' = (Ret t, s') ∧
  s'.(settings) = s.(settings) ∧ s'.(secret_file) = s.(secret_file) ∧ s'.(passwords) = s.(passwords).
Proof.
  unfold Pwenc.decrypt. destruct (String.eqb c ""); [by exists "", s|]. unfold try_except, decrypt_raising. destruct (b64decode c) as [e|]; [|by exists "", s].
  unfold mbind, M_bind. destruct (key_of s) as [k|] eqn:Hk.
  - rewrite (get_secret_spec s k Hk). pose proof (get_secret_spec (set_secret (Some k) s) k eq_refl) as Hg.
    destruct (aes_decrypt k _ _) as [d|] eqn:Ea; [destruct (utf8_decode (rstrip_padding d)) as [t|] eqn:Eu|]; [exists t|exists ""|exists ""]; exists (set_secret (Some k) s).
    all: rewrite Hg, ?Ea, ?Eu; done.
  - assert (Hg : get_secret s = (Raise FileNotFoundError, s)).
    { unfold get_secret, mbind, M_bind, get_state. unfold key_of in Hk. destruct (secret s); [done|]. by rewrite Hk. }
    rewrite Hg. exists "", s. rewrite Hg. done.
Qed.

Lemma check_spec s r l : s.(settings) = r :: l →
  check aes_decrypt s =
    let '(o, s') := decrypt (match col r "stg_pwenc_check" with PStr t => t | _ => "" end) false s in
    (match o with Ret t => Ret (String.eqb t PWENC_CHECK) | Raise e => Raise e end, s').
Proof.
  intros Hr. unfold check, try_except, settings_config, mbind, M_bind, get_state. cbn. rewrite Hr. cbn [mret M_ret].
  by destruct (decrypt _ false s) as [[t|e] s'].
Qed.

Lemma check_twice s r l : s.(settings) = r :: l → ∃ b s', check aes_decrypt s = (Ret b, s') ∧ check aes_decrypt s' = (Ret b, s') ∧
  s'.(settings) = r :: l ∧ s'.(secret_file) = s.(secret_file) ∧ s'.(passwords) = s.(passwords).
Proof.
  intros Hr. destruct (decrypt_returns (match col r "stg_pwenc_check" with PStr t => t | _ => "" end) s) as (t & s' & H1 & H2 & Hs & Hf & Hp).
  exists (String.eqb t PWENC_CHECK), s'. rewrite (check_spec s r l Hr), (check_spec s' r l), H1, H2 by (by rewrite Hs). split_and!; try done. by rewrite Hs.
Qed.

(** Settings that were missing are stored first. *)
Lemma check_settings s : keyed s.(settings) = true → ∃ s1 r l z, s1.(settings) = r :: l ∧ dget r "id" = Some (PInt z) ∧
  check aes_decrypt s = check aes_decrypt s1 ∧ s1.(secret_file) = s.(secret_file) ∧ s1.(passwords) = s.(passwords) ∧ s1.(secret) = s.(secret).
Proof.
  destruct s as [f c [|r l] pw]; cbn [settings secret_file passwords]; intros Hk.
  - eexists (mkPwenc f c [[("id", PInt 1); ("stg_pwenc_check", PStr "")]] pw), _, _, _. split_and!; reflexivity.
  - destruct (keyed_row (r :: l) r Hk ltac:(left)) as [z Hz]. by exists (mkPwenc f c (r :: l) pw), r, l, z.
Qed.

Lemma reset_columns_frame cs : ∀ s, ∃ pw, (forM cs (λ c, modify (reset_column c)) : M Pwenc exn unit) s = (Ret tt, mkPwenc s.(secret_file) s.(secret) s.(settings) pw).
Proof.
  induction cs as [|c cs IH]; intros s; [by exists s.(passwords); destruct s|].
  destruct (IH (reset_column c s)) as [pw Hpw]. exists pw. exact Hpw.
Qed.

Lemma generate_secret_spec u n s r l z :
  s.(settings) = r :: l → dget r "id" = Some (PInt z) → String.length u = PWENC_BLOCK_SIZE → String.length n = 8 →
  ∃ s', generate_secret aes_encrypt u n true s = (Ret tt, s') ∧ check aes_decrypt s' = (Ret true, s') ∧ s'.(secret_file) = Some u ∧ s'.(secret) = Some u ∧
    ∃ r' l', s'.(settings) = r' :: l'.
Proof.
  destruct s as [f c0 st pw0]. cbn [settings]. intros -> Hz Hu Hn. set (s := mkPwenc f c0 (r :: l) pw0). set (s1 := mkPwenc (Some u) None (r :: l) pw0).
  destruct (encrypt_spec s1 u n PWENC_CHECK eq_refl Hu Hn) as (c & He & Hc & Hd).
  set (r' := dupdate r [("stg_pwenc_check", PStr c)]).
  assert (Hu1 : ∃ l', (update_settings (col r "id") [("stg_pwenc_check", PStr c)] (set_secret (Some u) s1)) = (Ret tt, mkPwenc (Some u) (Some u) (r' :: l') s.(passwords))).
  { eexists. unfold update_settings, modify, eq_col, col. cbn [set_secret settings s1 secret secret_file passwords fmap list_fmap].
    rewrite Hz. cbn [from_option]. replace (py_eq (PInt z) (PInt z)) with true by (symmetry; cbn; apply Z.eqb_refl). reflexivity. }
  destruct Hu1 as [l' Hup]. destruct (reset_columns_frame reset_columns (mkPwenc (Some u) (Some u) (r' :: l') s.(passwords))) as [pw Hpw].
  exists (mkPwenc (Some u) (Some u) (r' :: l') pw). split_and!; [|
    |done|done|by exists r', l'].
  - transitivity ((check ← encrypt n PWENC_CHECK; update_settings (col r "id") [("stg_pwenc_check", PStr check)];;
                   forM reset_columns (λ c, modify (reset_column c))) s1); [reflexivity|].
    unfold mbind, M_bind. by rewrite He, Hup, Hpw.
  - rewrite (check_spec _ r' l') by reflexivity. assert (col r' "stg_pwenc_check" = PStr c) as -> by (unfold r'; cbn [dupdate foldl fst snd]; apply col_dset).
    unfold Pwenc.decrypt. rewrite (proj2 (String.eqb_neq c "")) by done. unfold try_except. rewrite Hd by done. reflexivity.
Qed.

(** A text that is not empty was decrypted with the secret, and every state with that
    secret decrypts it so. *)
Lemma decrypt_nonempty c s t s' : decrypt c false s = (Ret t, s') → t ≠ "" →
  ∃ k, key_of s = Some k ∧ s' = set_secret (Some k) s ∧ ∀ s2, key_of s2 = Some k → decrypt c false s2 = (Ret t, set_secret (Some k) s2).
Proof.
  unfold Pwenc.decrypt. destruct (String.eqb c ""); [intros [= <- <-]; done|]. unfold try_except, decrypt_raising.
  destruct (b64decode c) as [e|]; [|intros [= <- <-]; done]. unfold mbind, M_bind. destruct (key_of s) as [k|] eqn:Hk.
  - rewrite (get_secret_spec s k Hk). intros H Ht. exists k. split; [done|]. destruct (aes_decrypt k _ _) as [d|] eqn:Ea; [|injection H as <- <-; done].
    destruct (utf8_decode (rstrip_padding d)) as [t'|] eqn:Eu; [|injection H as <- <-; done]. injection H as <- <-. split; [done|].
    intros s2 H2. by rewrite (get_secret_spec s2 k H2), Ea, Eu.
  - unfold get_secret at 1, mbind, M_bind, get_state. unfold key_of in Hk. destruct (secret s); [done|]. rewrite Hk. intros [= <- <-]. done.
Qed.

Lemma check_true s r l s' : s.(settings) = r :: l → check aes_decrypt s = (Ret true, s') →
  ∃ k, key_of s = Some k ∧ s' = set_secret (Some k) s ∧
    ∀ s2, s2.(settings) = r :: l → key_of s2 = Some k → check aes_decrypt s2 = (Ret true, set_secret (Some k) s2).
Proof.
  intros Hr. rewrite (check_spec s r l Hr). destruct (decrypt _ false s) as [[t|e] s1] eqn:E; [|done]. intros H. injection H as H <-. apply String.eqb_eq in H as ->.
  destruct (decrypt_nonempty _ _ _ _ E ltac:(done)) as (k & Hk & -> & Hd). exists k. split_and!; try done.
  intros s2 Hr2 Hk2. by rewrite (check_spec s2 r l Hr2), Hd.
Qed.

(** A process starts with an empty cache; afterwards the cache holds what the file
    holds. *)
Definition cache_coherent (s : Pwenc) : Prop := s.(secret) = None ∨ s.(secret) = s.(secret_file).

Lemma coherent_file s k : cache_coherent s → key_of s = Some k → s.(secret_file) = Some k.
Proof. unfold cache_coherent, key_of. intros [->| ->]; [done|]. by destruct (secret_file s). Qed.

(** After a check that passed, a process that starts anew passes it with the secret in
    the file. *)
Lemma check_restart s r l s' : s.(settings) = r :: l → cache_coherent s → check aes_decrypt s = (Ret true, s') →
  check aes_decrypt (set_secret None s') = (Ret true, s').
Proof.
  intros Hr Hc H. destruct (check_true s r l s' Hr H) as (k & Hk & -> & Hd). pose proof (coherent_file s k Hc Hk) as Hf.
  rewrite Hd; [by destruct s|by destruct s|]. by destruct s.
Qed.

(** C37. At every start the check of the secret is settled: [setup] returns, afterwards
    the stored check value decrypts with the secret that is in the file (a process that
    starts with an empty cache reads the file and passes the check), and a later start,
    in the same process or in a new one, finds it so and leaves everything alone.  A
    secret that passes the check is never replaced and no password is dropped; one that
    does not is replaced, in the file, by the bytes that were drawn. *)
Theorem setup_settles u n s :
  keyed s.(settings) = true → cache_coherent s → String.length u = PWENC_BLOCK_SIZE → String.length n = 8 →
  ∃ s', setup aes_encrypt aes_decrypt u n s = (Ret tt, s') ∧
    (check aes_decrypt (set_secret None s')).1 = Ret true ∧
    (∀ u' n', setup aes_encrypt aes_decrypt u' n' s' = (Ret tt, s') ∧ setup aes_encrypt aes_decrypt u' n' (set_secret None s') = (Ret tt, s')) ∧
    ((check aes_decrypt s).1 = Ret true → s'.(secret_file) = s.(secret_file) ∧ s'.(passwords) = s.(passwords)) ∧
    ((check aes_decrypt s).1 ≠ Ret true → s'.(secret_file) = Some u).
Proof.
  intros Hk Hco Hu Hn. destruct (check_settings s Hk) as (s1 & r & l & z & Hr & Hz & Hc & Hf & Hp & Hs). unfold setup, mbind, M_bind. rewrite Hc.
  destruct (check_twice s1 r l Hr) as (b & s2 & H1 & H2 & Hs2 & Hf2 & Hp2). rewrite H1. destruct b.
  - exists s2. assert (Hco1 : cache_coherent s1) by (unfold cache_coherent; by rewrite Hs, Hf).
    rewrite H2, (check_restart s1 r l s2 Hr Hco1 H1). split_and!; try done. intros _. split; congruence.
  - destruct (generate_secret_spec u n s2 r l z Hs2 Hz Hu Hn) as (s3 & Hg & Hch & Hf3 & Hc3 & r' & l' & Hr'). exists s3.
    assert (Hco3 : cache_coherent s3) by (right; congruence). rewrite Hch, (check_restart s3 r' l' s3 Hr' Hco3 Hch). split_and!; try done.
Qed.
End laws.

(** ** A cipher *)

Module Demo.

(** Adding the nonce and the secret to the bytes, position by position. *)
Fixpoint zip_bytes (f : Z → Z → Z) (key data : string) : string :=
  match data, key with
  | String c data, String k key => String (of_byte (f (byte_of c) (byte_of k) mod 256)) (zip_bytes f key data)
  | _, _ => data
  end.

Definition aes_encrypt (k nonce p : string) : outcome exn string := Ret (zip_bytes Z.add (nonce +:+ k) p).
Definition aes_decrypt (k nonce c : string) : outcome exn string := Ret (zip_bytes Z.sub (nonce +:+ k) c).

Lemma aes_ok k nonce p : String.length k = PWENC_BLOCK_SIZE → String.length nonce = 8 →
  ∃ c, aes_encrypt k nonce p = Ret c ∧ aes_decrypt k nonce c = Ret p.
Proof.
  intros _ _. eexists. split; [done|]. unfold aes_decrypt. f_equal. generalize (nonce +:+ k). clear. induction p as [|c p IH]; intros key; [by destruct key|].
  destruct key as [|x key]; [done|]. cbn [zip_bytes]. rewrite IH. f_equal.
  rewrite byte_of_of by (apply Z.mod_pos_bound; lia). rewrite <-(of_byte_of c) at 2. f_equal. pose proof (byte_of_bound c).
  rewrite Zminus_mod_idemp_l, Z.add_simpl_r. by apply Z.mod_small.
Qed.

Definition secret1 : string := "0123456789abcdef0123456789abcdef".
Definition start : Pwenc := mkPwenc (Some secret1) None [] [("system_email", "em_pass", ["x"])].

Lemma decrypt_encrypt_witness : ∃ c s', encrypt aes_encrypt "noncenon" "pass" start = (Ret c, s') ∧ decrypt aes_decrypt c false s' = (Ret "pass", s').
Proof.
  destruct (decrypt_encrypt aes_encrypt aes_decrypt aes_ok start secret1 "noncenon" "pass" false) as (c & s' & He & Hd & _); try reflexivity.
  by exists c, s'.
Defined.

Lemma setup_settles_witness : ∃ s', setup aes_encrypt aes_decrypt secret1 "noncenon" start = (Ret tt, s') ∧ (check aes_decrypt (set_secret None s')).1 = Ret true.
Proof.
  destruct (setup_settles aes_encrypt aes_decrypt aes_ok secret1 "noncenon" start) as (s' & H1 & H2 & _); try reflexivity; [by left|]. by exists s'.
Defined.

(** A password that ends with a brace is read back without it. *)
Example brace_lost : ∃ c s', encrypt aes_encrypt "noncenon" "pass{" start = (Ret c, s') ∧ decrypt aes_decrypt c false s' = (Ret "pass", s').
Proof. eexists _, _. split; [vm_compute; reflexivity|vm_compute; reflexivity]. Qed.

(** A list of one empty choice is stored as no choice, and one with a comma as two. *)
Example multiselect_lossy : multiselect_result (multiselect_bind (Some [""])) = [] ∧ multiselect_result (multiselect_bind (Some ["a,b"])) = ["a"; "b"].
Proof. by vm_compute. Qed.

(** A secret file that is lost empties the passwords of the services. *)
Example setup_resets : (setup aes_encrypt aes_decrypt secret1 "noncenon" start).2.(passwords) = [("system_email", "em_pass", [""])].
Proof. by vm_compute. Qed.

End Demo.
