(* ===== verification/Zettarepl.v ===== *)
(** * The replication engine: plugins/zettarepl.py and plugins/zettarepl_/state.py

    What the service keeps about the tasks that the process zettarepl runs: their
    states, held tasks, errors and last snapshots, the messages of the process that
    change them, and the parts of a definition that are computed from a task.  The
    states hold values that may be dates ([Ejson.eval]) where they are saved and
    loaded; where the services only pass them on they are [pyval]s. *)

From S2P Require Import Prelude PyValue PyTime Schema SchemaResolve Filter PyNum Ejson CronSchedule Rows.

(** [make_sentence] of utils/string.py *)
Definition make_sentence (s : string) : string :=
  if negb (PyStr.nonempty s) then s
  else if existsb (PyStr.endswith s) ["."; "!"; "?"] then s
  else s +:+ ".".

Definition or_else {A} (d : A) (o : option A) : A := from_option (λ v, v) d o.

(** ** Parts of a definition *)

Definition lifetime_seconds (value : Z) (unit : string) : outcome exn Z :=
  if String.eqb unit "HOUR" then Ret (value * 3600)%Z
  else if String.eqb unit "DAY" then Ret (value * 86400)%Z
  else if String.eqb unit "WEEK" then Ret (value * 7 * 86400)%Z
  else if String.eqb unit "MONTH" then Ret (value * 30 * 86400)%Z
  else if String.eqb unit "YEAR" then Ret (value * 365 * 86400)%Z
  else Raise (ValueError ("Invalid lifetime unit: " +:+ repr_str unit)).

Definition lifetime_iso8601 (value unit : pyval) : outcome exn pyval :=
  match value with
  | PInt v => s ← lifetime_seconds v (py_str unit); Ret (PStr ("PT" +:+ py_str (PInt s) +:+ "S"))
  | _ => Raise (TypeError "unsupported type for timedelta component")
  end.

Definition replication_task_exclude (task : pydict) : outcome exn pyval :=
  exclude ← py_iter (col task "exclude");
  if truthy (col task "recursive") && negb (truthy (col task "replicate")) then
    sources ← py_iter (col task "source_datasets");
    Ret (PList (exclude ++ ((λ ds, PStr (py_str ds +:+ "/.system")) <$> List.filter (λ ds, negb (PyStr.contains (py_str ds) "/")) sources)))
  else Ret (PList exclude).

(** [k.replace("_", "-")] *)
Definition dashes (k : string) : string := PyStr.map_chars (λ c, if Ascii.eqb c "_" then "-"%char else c) k.

Definition zettarepl_schedule (schedule : pyval) : outcome exn pyval :=
  match schedule with
  | PDict d =>
      let d := (λ kv, (dashes kv.1, kv.2)) <$> d in
      dom ← item (PDict d) "dom";
      let d := dset (ddel d "dom") "day-of-month" dom in
      dow ← item (PDict d) "dow";
      Ret (PDict (dset (ddel d "dow") "day-of-week" dow))
  | _ => Raise (AttributeError "items")
  end.

(** [_hold_task_reason]: none when the pool is there. *)
Definition hold_task_reason (pools : list pydict) (dataset : string) : option string :=
  let pool := or_else "" (head (PyStr.split "/" dataset)) in
  match last (List.filter (eq_col "name" (PStr pool)) pools) with
  | None => Some ("Pool " +:+ pool +:+ " does not exist")
  | Some p =>
      if py_eq (col p "status") (PStr "OFFLINE") then Some ("Pool " +:+ pool +:+ " is offline")
      else if negb (truthy (col p "is_decrypted")) then Some ("Pool " +:+ pool +:+ " is locked")
      else None
  end.

Section transport.
(** [keychaincredential.get_of_type] *)
Context (get_of_type : pyval → string → outcome exn pydict).

Definition is_call_error (e : exn) : bool := match e with CallError _ _ _ => true | _ => false end.
Definition error_text (e : exn) : string := match e with CallError m _ _ => m | _ => "" end.

(** [_define_ssh_transport] *)
Definition define_ssh_transport (credentials : pydict) : outcome exn pydict :=
  attributes ← item (PDict credentials) "attributes";
  key ← item attributes "private_key";
  key_pair ← match get_of_type key "SSH_KEY_PAIR" with
             | Ret p => Ret p
             | Raise e => if is_call_error e
                 then Raise (CallError ("Error while querying SSH key pair for credentials " +:+ py_str (col credentials "id") +:+ ": " +:+ error_text e) EFAULT PNone)
                 else Raise e
             end;
  host ← item attributes "host";
  port ← item attributes "port";
  username ← item attributes "username";
  key_attributes ← item (PDict key_pair) "attributes";
  private_key ← item key_attributes "private_key";
  host_key ← item attributes "remote_host_key";
  timeout ← item attributes "connect_timeout";
  Ret [("hostname", host); ("port", port); ("username", username); ("private-key", private_key); ("host-key", host_key); ("connect-timeout", timeout)].

Definition when_given (k : string) (v : pyval) (d : pydict) : pydict := match v with PNone => d | _ => dset d k v end.

(** [_define_transport], with the fields of netcat of the task *)
Definition define_transport (transport : string) (ssh_credentials : pyval) (task : pydict) : outcome exn pydict :=
  if bool_decide (transport ∈ ["SSH"; "SSH+NETCAT"]) then
    match ssh_credentials with
    | PNone => Raise (CallError ("You should pass SSH credentials for " +:+ transport +:+ " transport") EFAULT PNone)
    | _ =>
        credentials ← get_of_type ssh_credentials "SSH_CREDENTIALS";
        ssh ← define_ssh_transport credentials;
        let d := ("type", PStr "ssh") :: ssh in
        if String.eqb transport "SSH+NETCAT" then
          match col task "netcat_active_side" with
          | PStr side =>
              let d := dset (dset d "type" (PStr "ssh+netcat")) "active-side" (PStr (PyStr.lower side)) in
              let d := when_given "active-side-listen-address" (col task "netcat_active_side_listen_address") d in
              let d := when_given "active-side-min-port" (col task "netcat_active_side_port_min") d in
              let d := when_given "active-side-max-port" (col task "netcat_active_side_port_max") d in
              Ret (when_given "passive-side-connect-address" (col task "netcat_passive_side_connect_address") d)
          | _ => Raise (AttributeError "lower")
          end
        else Ret d
    end
  else Ret [("type", PStr "local")].
End transport.

(** ** Messages of the process *)

Inductive DefinitionError : Type :=
| PeriodicSnapshotTaskDefinitionError (task_id text : string)
| ReplicationTaskDefinitionError (task_id text : string)
| OtherDefinitionError.

Record Progress : Type := mkProgress { p_dataset : string; p_snapshot : string; p_sent : Z; p_total : Z; p_bytes : Z; p_bytes_total : Z }.

Inductive Message : Type :=
| DefinitionErrors (errors : list DefinitionError)
| PeriodicSnapshotTaskStart (task_id : string)
| PeriodicSnapshotTaskSuccess (task_id : string)
| PeriodicSnapshotTaskError (task_id err : string)
| ReplicationTaskScheduled (task_id : string) (waiting_reason : pyval)
| ReplicationTaskStart (task_id : string)
| ReplicationTaskLog (task_id log : string)
| ReplicationTaskSnapshotStart (task_id : string) (p : Progress)
| ReplicationTaskSnapshotProgress (task_id : string) (p : Progress)
| ReplicationTaskSnapshotSuccess (task_id dataset snapshot : string)
| ReplicationTaskDataProgress (task_id dataset : string) (src_size dst_size : Z)
| ReplicationTaskSuccess (task_id : string) (warnings : pyval)
| ReplicationTaskError (task_id err : string).

(** ** The state of the tasks: state.py *)

(** What the service uses of the values it keeps: values without dates, dicts, and
    equality with a text and of dicts. *)
Class StateValue (V : Type) : Type := {
  of_py : pyval → V;
  of_dict : list (string * V) → V;
  as_dict : V → option (list (string * V));
  same_text : V → string → bool;
  same_dict : list (string * V) → list (string * V) → bool;
}.

#[global] Instance pyval_state : StateValue pyval := {
  of_py v := v;
  of_dict := PDict;
  as_dict v := match v with PDict d => Some d | _ => None end;
  same_text v t := py_eq v (PStr t);
  same_dict a b := py_eq (PDict a) (PDict b);
}.

Notation vdict V := (list (string * V)).

Record ZState (V : Type) : Type := mkZ {
  state : list (string * vdict V);
  error : option (vdict V);
  definition_errors : list (string * vdict V);
  hold_tasks : list (string * vdict V);
  last_snapshot : list (string * V);
  serializable_state : gmap Z (vdict V);
  (** the calls of the hook [zettarepl.state_change] *)
  events : list (string * vdict V);
  (** the queues of the jobs that wait for a replication, with its id, and the ids of
      the replications for which a job was started *)
  channels : list (string * list Message);
  started : list Z;
}.
Arguments mkZ {V}.
Arguments state {V}.
Arguments error {V}.
Arguments definition_errors {V}.
Arguments hold_tasks {V}.
Arguments last_snapshot {V}.
Arguments serializable_state {V}.
Arguments events {V}.
Arguments channels {V}.
Arguments started {V}.

Section setters.
Context {V : Type}.

Definition set_z_state v (z : ZState V) : ZState V := mkZ v z.(error) z.(definition_errors) z.(hold_tasks) z.(last_snapshot) z.(serializable_state) z.(events) z.(channels) z.(started).
Definition set_z_error v (z : ZState V) : ZState V := mkZ z.(state) v z.(definition_errors) z.(hold_tasks) z.(last_snapshot) z.(serializable_state) z.(events) z.(channels) z.(started).
Definition set_z_definition_errors v (z : ZState V) : ZState V := mkZ z.(state) z.(error) v z.(hold_tasks) z.(last_snapshot) z.(serializable_state) z.(events) z.(channels) z.(started).
Definition set_z_hold_tasks v (z : ZState V) : ZState V := mkZ z.(state) z.(error) z.(definition_errors) v z.(last_snapshot) z.(serializable_state) z.(events) z.(channels) z.(started).
Definition set_z_last_snapshot v (z : ZState V) : ZState V := mkZ z.(state) z.(error) z.(definition_errors) z.(hold_tasks) v z.(serializable_state) z.(events) z.(channels) z.(started).
Definition set_z_serializable v (z : ZState V) : ZState V := mkZ z.(state) z.(error) z.(definition_errors) z.(hold_tasks) z.(last_snapshot) v z.(events) z.(channels) z.(started).
Definition add_z_event v (z : ZState V) : ZState V := mkZ z.(state) z.(error) z.(definition_errors) z.(hold_tasks) z.(last_snapshot) z.(serializable_state) (z.(events) ++ [v]) z.(channels) z.(started).
Definition set_z_channels v (z : ZState V) : ZState V := mkZ z.(state) z.(error) z.(definition_errors) z.(hold_tasks) z.(last_snapshot) z.(serializable_state) z.(events) v z.(started).
Definition add_z_started v (z : ZState V) : ZState V := mkZ z.(state) z.(error) z.(definition_errors) z.(hold_tasks) z.(last_snapshot) z.(serializable_state) z.(events) z.(channels) (z.(started) ++ [v]).

Definition z_init : ZState V := mkZ [] None [] [] [] ∅ [] [] [].
End setters.

Definition is_replication (task_id : string) : bool := PyStr.startswith task_id "replication_task_".

(** [int(task_id.split("_")[-1])] *)
Definition task_number (task_id : string) : outcome exn Z :=
  match py_int (or_else "" (last (PyStr.split "_" task_id))) with
  | Some z => Ret z
  | None => Raise (ValueError "invalid literal for int() with base 10")
  end.

Section state_service.
Context {V : Type} `{!StateValue V}.
Notation MZ := (M (ZState V) exn).

(** The jobs of [replication.run] in the order of their ids. *)
Context (jobs : list pydict).

(** [_get_state_context]: the last job of every task *)
Definition state_context : outcome exn (list (string * pyval)) :=
  foldO (λ acc j,
    args ← item (PDict j) "arguments";
    args ← py_iter args;
    match args with
    | [] => Ret acc
    | v :: _ =>
        match v with
        | PStr s => match py_int s with Some z => Ret (dset acc ("replication_task_" +:+ py_str (PInt z)) (PDict j)) | None => Ret acc end
        | _ => match as_int v with
               | Some z => Ret (dset acc ("replication_task_" +:+ py_str (PInt z)) (PDict j))
               | None => Raise (TypeError "int() argument must be a string, a bytes-like object or a real number")
               end
        end
    end) [] jobs.

Definition known_tasks_ids (z : ZState V) : list string :=
  remove_dups (dkeys z.(state) ++ dkeys z.(definition_errors) ++ dkeys z.(hold_tasks)).

(** [_get_task_state] *)
Definition get_task_state (context : list (string * pyval)) (z : ZState V) (task_id : string) : vdict V :=
  match z.(error), dget z.(definition_errors) task_id, dget z.(hold_tasks) task_id with
  | Some (x :: e), _, _ => x :: e
  | _, Some e, _ => e
  | _, _, Some h => h
  | _, _, _ =>
      let st := or_else [] (dget z.(state) task_id) in
      if is_replication task_id
      then dset (dset st "job" (of_py (or_else PNone (dget context task_id)))) "last_snapshot" (or_else (of_py PNone) (dget z.(last_snapshot) task_id))
      else st
  end.

(** [get_state] *)
Definition get_state_dict (z : ZState V) : outcome exn (vdict V) :=
  match z.(error) with
  | Some (x :: e) => Ret [("error", of_dict (x :: e))]
  | _ =>
      context ← state_context;
      Ret [("tasks", of_dict ((λ id, (id, of_dict (get_task_state context z id))) <$> known_tasks_ids z))]
  end.

Definition liftZ {A} (o : outcome exn A) : MZ A := λ z, (o, z).

(** [_notify_state_change] *)
Definition notify_state_change (task_id : string) : MZ unit :=
  context ← liftZ state_context;
  modify (λ z, add_z_event (task_id, get_task_state context z task_id) z).

(** [old_error != self.error] *)
Definition same_error (a b : option (vdict V)) : bool :=
  match a, b with Some a, Some b => same_dict a b | None, None => true | _, _ => false end.

Definition set_error (e : option (vdict V)) : MZ unit :=
  z ← get_state;
  modify (set_z_error e);;
  if same_error z.(error) e then mret tt else forM (known_tasks_ids z) notify_state_change.

Definition set_definition_errors (errors : list (string * vdict V)) : MZ unit :=
  z ← get_state;
  modify (set_z_definition_errors errors);;
  forM (remove_dups (dkeys z.(definition_errors) ++ dkeys errors)) notify_state_change.

(** [notify_definition], with the ids of the tasks of the definition *)
Definition notify_definition (snapshot_ids replication_ids : list string) (holds : list (string * vdict V)) : MZ unit :=
  z ← get_state;
  modify (set_z_hold_tasks holds);;
  forM (remove_dups (dkeys z.(hold_tasks) ++ dkeys holds)) notify_state_change;;
  let task_ids := ((λ k, "periodic_snapshot_" +:+ k) <$> snapshot_ids) ++ ((λ k, "replication_" +:+ k) <$> replication_ids) ++ dkeys holds in
  modify (λ z, set_z_state (List.filter (λ e, bool_decide (e.1 ∈ task_ids)) z.(state)) z);;
  modify (λ z, set_z_last_snapshot (List.filter (λ e, bool_decide (e.1 ∈ task_ids)) z.(last_snapshot)) z);;
  modify (λ z, set_z_serializable (filter (λ e, "replication_task_" +:+ py_str (PInt e.1) ∈ task_ids) z.(serializable_state)) z).

Definition record (task_id k : string) (v : V) : MZ unit :=
  n ← liftZ (task_number task_id);
  modify (λ z, set_z_serializable (<[n := dset (or_else [] (z.(serializable_state) !! n)) k v]> z.(serializable_state)) z).

Definition field_of (st : vdict V) (k : string) : outcome exn V :=
  match dget st k with Some v => Ret v | None => Raise (KeyError k) end.

(** [set_state] *)
Definition set_state (task_id : string) (st : vdict V) : MZ unit :=
  modify (λ z, set_z_state (dset z.(state) task_id st) z);;
  (if is_replication task_id then
     v ← liftZ (field_of st "state");
     if same_text v "ERROR" || same_text v "FINISHED" then record task_id "state" (of_dict st) else mret tt
   else mret tt);;
  notify_state_change task_id.

(** [set_last_snapshot] *)
Definition set_last_snapshot (task_id : string) (snapshot : V) : MZ unit :=
  modify (λ z, set_z_last_snapshot (dset z.(last_snapshot) task_id snapshot) z);;
  (if is_replication task_id then record task_id "last_snapshot" snapshot else mret tt);;
  notify_state_change task_id.

(** *** Reading the messages: [_observer_queue_reader] *)

(** [datetime.utcnow()] *)
Context (now : V).

Definition simple_state (name : string) : vdict V := [("state", of_py (PStr name)); ("datetime", now)].

Definition error_state (text : string) : vdict V := simple_state "ERROR" ++ [("error", of_py (PStr (make_sentence text)))].

Definition progress_state (p : Progress) : vdict V :=
  simple_state "RUNNING" ++
  [("progress", of_dict [("dataset", of_py (PStr p.(p_dataset))); ("snapshot", of_py (PStr p.(p_snapshot))); ("snapshots_sent", of_py (PInt p.(p_sent)));
     ("snapshots_total", of_py (PInt p.(p_total))); ("bytes_sent", of_py (PInt p.(p_bytes))); ("bytes_total", of_py (PInt p.(p_bytes_total)));
     ("current", of_py (PInt p.(p_bytes))); ("total", of_py (PInt p.(p_bytes_total)))])].

Definition errors_by_task (errors : list DefinitionError) : list (string * vdict V) :=
  foldl (λ acc e, match e with
                  | PeriodicSnapshotTaskDefinitionError id t => dset acc ("periodic_snapshot_" +:+ id) (error_state t)
                  | ReplicationTaskDefinitionError id t => dset acc ("replication_" +:+ id) (error_state t)
                  | OtherDefinitionError => acc
                  end) [] errors.

(** [for channel in self.replication_jobs_channels[message.task_id]: channel.put(message)] *)
Definition put_channels (task_id : string) (m : Message) : MZ unit :=
  modify (λ z, set_z_channels ((λ c, if String.eqb c.1 task_id then (c.1, c.2 ++ [m]) else c) <$> z.(channels)) z).

Definition read_message (m : Message) : MZ unit :=
  match m with
  | DefinitionErrors errors => set_definition_errors (errors_by_task errors)
  | PeriodicSnapshotTaskStart id => set_state ("periodic_snapshot_" +:+ id) (simple_state "RUNNING")
  | PeriodicSnapshotTaskSuccess id => set_state ("periodic_snapshot_" +:+ id) (simple_state "FINISHED")
  | PeriodicSnapshotTaskError id e => set_state ("periodic_snapshot_" +:+ id) (error_state e)
  | ReplicationTaskScheduled id reason =>
      z ← get_state;
      if from_option (λ v, same_text v "RUNNING") false (dget (or_else [] (dget z.(state) ("replication_" +:+ id))) "state") then mret tt
      else set_state ("replication_" +:+ id) (simple_state "WAITING" ++ [("reason", of_py reason)])
  | ReplicationTaskStart id =>
      set_state ("replication_" +:+ id) (simple_state "RUNNING");;
      z ← get_state;
      if existsb (λ c, String.eqb c.1 id) z.(channels) then mret tt
      else match py_int (PyStr.drop 5 id) with
           | Some n => modify (add_z_started n)
           | None => raise (ValueError "invalid literal for int() with base 10")
           end
  | ReplicationTaskLog id _ => put_channels id m
  | ReplicationTaskSnapshotStart id p =>
      set_state ("replication_" +:+ id) (progress_state (mkProgress p.(p_dataset) p.(p_snapshot) p.(p_sent) p.(p_total) 0 0));;
      put_channels id m
  | ReplicationTaskSnapshotProgress id p =>
      set_state ("replication_" +:+ id) (progress_state p);;
      put_channels id m
  | ReplicationTaskSnapshotSuccess id dataset snapshot =>
      set_last_snapshot ("replication_" +:+ id) (of_py (PStr (dataset +:+ "@" +:+ snapshot)));;
      put_channels id m
  | ReplicationTaskDataProgress id dataset src dst =>
      z ← get_state;
      match dget z.(state) ("replication_" +:+ id) with
      | None => mret tt
      | Some st =>
          v ← liftZ (field_of st "state");
          match same_text v "RUNNING", dget st "progress" with
          | true, Some p =>
              match as_dict p with
              | Some p =>
                  set_state ("replication_" +:+ id) (dset st "progress" (of_dict (dupdate p
                    [("root_dataset", of_py (PStr dataset)); ("src_size", of_py (PInt src)); ("dst_size", of_py (PInt dst))])))
              | None => raise (AttributeError "update")
              end
          | _, _ => mret tt
          end
      end;;
      put_channels id m
  | ReplicationTaskSuccess id warnings =>
      set_state ("replication_" +:+ id) (simple_state "FINISHED" ++ [("warnings", of_py warnings)]);;
      put_channels id m
  | ReplicationTaskError id e =>
      set_state ("replication_" +:+ id) (error_state e);;
      put_channels id m
  end.

(** A turn of the reader: whatever goes wrong is logged. *)
Definition observe (m : Message) : MZ unit := try_except (read_message m) (λ _, mret tt).

(** The loop of [run_replication_task] over what its queue gives: the outcome of the
    job, or none while it waits. *)
Fixpoint job_result (queue : list Message) : option (outcome exn unit) :=
  match queue with
  | [] => None
  | ReplicationTaskSuccess _ _ :: _ => Some (Ret tt)
  | ReplicationTaskError _ e :: _ => Some (Raise (CallError (make_sentence e) EFAULT PNone))
  | _ :: queue => job_result queue
  end.

End state_service.

(** *** Saving and loading

    [client/ejson.py] writes and reads the states, which hold [datetime]s. *)

Fixpoint of_pyval (v : pyval) : eval :=
  match v with
  | PNone => ENone
  | PBool b => EBool b
  | PInt z => EInt z
  | PStr s => EStr s
  | PList l => EList (of_pyval <$> l)
  | PDict d => EDict ((λ kv, (kv.1, of_pyval kv.2)) <$> d)
  end.

Definition eval_int (v : eval) : option Z :=
  match v with EBool b => Some (Z.b2z b) | EInt z => Some z | _ => None end.

(** [==] of dates: a naive one equals no aware one. *)
Definition datetime_eq (a b : DateTime) : bool :=
  match a.(tz), b.(tz) with
  | None, None => Z.eqb a.(fields) b.(fields)
  | Some x, Some y => Z.eqb (a.(fields) - x) (b.(fields) - y)
  | _, _ => false
  end.

(** [==] *)
Fixpoint eval_eq (x y : eval) {struct x} : bool :=
  match x, y with
  | ENone, ENone => true
  | (EBool _ | EInt _), _ => match eval_int x, eval_int y with Some a, Some b => Z.eqb a b | _, _ => false end
  | EStr a, EStr b => String.eqb a b
  | EList a, EList b =>
      (fix go a b := match a, b with
        | [], [] => true
        | u :: a, v :: b => eval_eq u v && go a b
        | _, _ => false
        end) a b
  | EDict a, EDict b =>
      (length a =? length b)%nat &&
      (fix go a := match a with
        | [] => true
        | (k, u) :: a => match dget b k with Some v => eval_eq u v | None => false end && go a
        end) a
  | EDate a, EDate b => bool_decide (a = b)
  | ETime a, ETime b => bool_decide (a = b)
  | EDateTime a, EDateTime b => datetime_eq a b
  | _, _ => false
  end.

#[global] Instance eval_state : StateValue eval := {
  of_py := of_pyval;
  of_dict := EDict;
  as_dict v := match v with EDict d => Some d | _ => None end;
  same_text v t := match v with EStr s => String.eqb s t | _ => false end;
  same_dict a b := eval_eq (EDict a) (EDict b);
}.

Section storage.
(** The text of a JSON tree and back: [json] of the standard library. *)
Context (json_print : pyval → string) (json_parse : string → outcome exn pyval).

(** [load_state], a row of storage.replication; the state in a state is a dict, as
    [flush_state] wrote it. *)
Definition load_row (r : pydict) : M (ZState eval) exn unit :=
  st ← liftZ (j ← json_parse (py_str (col r "state")); loads j);
  let id := "replication_task_" +:+ py_str (col r "id") in
  there ← liftZ (eval_in "last_snapshot" st);
  (if there : bool then
     v ← liftZ (eval_item st "last_snapshot"); modify (λ z, set_z_last_snapshot (dset z.(last_snapshot) id v) z)
   else mret tt);;
  there ← liftZ (eval_in "state" st);
  if there : bool then
    v ← liftZ (eval_item st "state");
    match v with EDict v => modify (λ z, set_z_state (dset z.(state) id v) z) | _ => mret tt end
  else mret tt.

Definition load_state (rows : list pydict) : M (ZState eval) exn unit := forM rows load_row.

(** A turn of the loop of [flush_state], on the rows: a row that is gone is passed
    over. *)
Definition flush_entry (n : Z) (d : vdict eval) : M (list pydict) exn unit :=
  j ← (λ rows, (dumps (EDict d), rows));
  modify (fmap (λ r, if py_eq (col r "id") (PInt n) then dset r "state" (PStr (json_print j)) else r)).

(** [flush_state], while no task reports anything. *)
Definition flush_state (z : ZState eval) : M (list pydict) exn unit :=
  forM (map_to_list z.(serializable_state)) (λ e, flush_entry e.1 e.2).
End storage.
