(* ===== verification/ZettareplFacts.v ===== *)
(** * The state of zettarepl's tasks over a restart

    What [flush_state] writes to the rows of the replications, what [ejson] makes of the
    dates in it, and what [load_state] reads back. *)

From S2P Require Import Prelude PyValue PyTime Filter PyNum Ejson EjsonFacts CronSchedule Rows Zettarepl.

Definition repl_id (n : Z) : string := "replication_task_" +:+ py_str (PInt n).

Lemma repl_id_inj n m : repl_id n = repl_id m → n = m.
Proof. by intros H%(inj _). Qed.

(** ** What ejson makes of a state *)

(** A time that the encoder and the decoder handle exactly to the millisecond: within
    seventy years of 1970. *)
Definition moment (us : Z) : bool := Z.ltb (Z.abs (epoch_milliseconds us)) (1000 * 2 ^ 32).

(** Values whose datetimes are naive, as [datetime.utcnow()] gives them. *)
Fixpoint storable (v : eval) : bool :=
  match v with
  | ENone | EBool _ | EInt _ | EStr _ => true
  | EList l => forallb storable l
  | EDict d => plain_dict d && forallb (λ kv, storable kv.2) d
  | EDate _ | ETime _ => false
  | EDateTime dt => bool_decide (dt.(tz) = None) && moment dt.(fields)
  end.

(** A naive datetime as it comes back: aware, in UTC, and cut to milliseconds, which are
    counted twice. *)
Definition reread (us : Z) : DateTime :=
  let ms := epoch_milliseconds us in mkDT ((ms + ms mod 1000) * 1000) (Some 0%Z).

Fixpoint restored (v : eval) : eval :=
  match v with
  | EList l => EList (restored <$> l)
  | EDict d => EDict ((λ kv, (kv.1, restored kv.2)) <$> d)
  | EDateTime dt => EDateTime (reread dt.(fields))
  | _ => v
  end.

Notation restored_items := (fmap (λ kv : string * eval, (kv.1, restored kv.2))).

Lemma dget_restored d k : dget (restored_items d) k = restored <$> dget d k.
Proof. induction d as [|[k' v] d IH]; [done|]. cbn. by case_decide. Qed.

Lemma plain_restored d : plain_dict (restored_items d) = plain_dict d.
Proof.
  destruct d as [|[k1 v1] [|[k2 v2] [|kv3 d]]]; [done|done| |done].
  pose proof (dget_restored [(k1, v1); (k2, v2)] "$type") as Ht.
  assert (dhas (restored_items [(k1, v1); (k2, v2)]) "$value" = dhas [(k1, v1); (k2, v2)] "$value") as Hv.
  { unfold dhas. rewrite dget_restored. by destruct (dget [(k1, v1); (k2, v2)] "$value"). }
  unfold plain_dict. cbn [fmap list_fmap fst snd] in Ht, Hv |- *. rewrite Ht, Hv.
  by destruct (dget [(k1, v1); (k2, v2)] "$type") as [[]|].
Qed.

Lemma datetime_restored dt :
  dt.(tz) = None → moment dt.(fields) = true → (dumps (EDateTime dt) ≫= loads) = Ret (EDateTime (reread dt.(fields))).
Proof.
  destruct dt as [us tz0]. cbn [tz fields]. intros -> Hm%Z.ltb_lt. cbn [dumps]. unfold encode_datetime. cbn [tz mbind outcome_bind fields].
  exact (decode_adds_milliseconds (epoch_milliseconds us) Hm).
Qed.

(** [loads(dumps(v))] *)
Lemma storable_back v : storable v = true → (dumps v ≫= loads) = Ret (restored v).
Proof.
  induction v as [| | | |l IH|d IH| | |dt] using eval_ind'; cbn [storable]; try done.
  - intros Hp%forallb_Forall. cbn [dumps].
    assert (∃ js, mapO dumps l = Ret js ∧ mapO loads js = Ret (restored <$> l)) as (js & H1 & H2).
    { induction l as [|x l IHl]; [by exists []|].
      apply Forall_cons in IH as [Hx IH], Hp as [Hpx Hp].
      destruct (IHl IH Hp) as (js & Hjs & Hback). specialize (Hx Hpx).
      apply outcome_bind_Ret in Hx as (j & Hj & Hx). exists (j :: js). csimpl.
      by rewrite Hj, Hx, Hjs, Hback. }
    rewrite H1. csimpl. by rewrite H2.
  - intros [Hd Hp%forallb_Forall]%andb_true_iff. cbn [dumps].
    assert (∃ js, mapO (λ kv, j ← dumps kv.2; Ret (kv.1, j)) d = Ret js ∧
      mapO (λ kv, v ← loads kv.2; Ret (kv.1, v)) js = Ret (restored_items d)) as (js & H1 & H2).
    { clear Hd. induction d as [|[k x] d IHd]; [by exists []|].
      apply Forall_cons in IH as [Hx IH], Hp as [Hpx Hp].
      destruct (IHd IH Hp) as (js & Hjs & Hback). specialize (Hx Hpx).
      apply outcome_bind_Ret in Hx as (j & Hj & Hx). exists ((k, j) :: js). csimpl in *.
      by rewrite Hj, Hjs; csimpl; rewrite Hx, Hback. }
    rewrite H1. csimpl. rewrite H2. csimpl. rewrite object_hook_plain; [done|]. by rewrite plain_restored.
  - intros [Htz%bool_decide_eq_true Hm]%andb_true_iff. by apply datetime_restored.
Qed.

(** ** The entries of the service *)

Definition field_ok (kv : string * eval) : bool :=
  match kv.2 with
  | EStr _ => String.eqb kv.1 "last_snapshot"
  | EDict v => String.eqb kv.1 "state" && storable kv.2
  | _ => false
  end.

(** An entry of [serializable_state] has a last snapshot, a state or both. *)
Definition entry_ok (d : vdict eval) : bool := forallb field_ok d.

Lemma entry_key d k : entry_ok d = true → k ∈ dkeys d → k ∈ ["last_snapshot"; "state"].
Proof.
  intros Hd (kv & -> & Hin)%list_elem_of_fmap. pose proof (forallb_elem _ _ _ Hd Hin) as H. unfold field_ok in H.
  destruct kv.2; try done.
  - apply String.eqb_eq in H as ->. set_solver.
  - apply andb_true_iff in H as [->%String.eqb_eq _]. set_solver.
Qed.

Lemma entry_storable d : entry_ok d = true → storable (EDict d) = true.
Proof.
  intros Hd. cbn [storable]. apply andb_true_iff. split.
  - assert (dget d "$type" = None) as Ht by (apply dget_None; intros Hk%(entry_key d); [set_solver|done]).
    destruct d as [|[k1 v1] [|kv2 [|kv3 d]]]; [done| |by unfold plain_dict; rewrite Ht|done].
    cbn. pose proof (entry_key _ k1 Hd ltac:(by left)) as Hk. rewrite bool_decide_eq_false_2; [done|]. set_solver.
  - apply forallb_Forall. apply forallb_Forall in Hd. eapply Forall_impl; [exact Hd|].
    intros [k v]. unfold field_ok. cbn. destruct v; try done. by intros [_ ?]%andb_true_iff.
Qed.

Lemma entry_snapshot d : entry_ok d = true → restored <$> dget d "last_snapshot" = dget d "last_snapshot".
Proof.
  intros Hd. destruct (dget d "last_snapshot") as [v|] eqn:Hv; [|done].
  apply dget_elem_of in Hv. pose proof (forallb_elem _ _ _ Hd Hv) as H. cbn in H. by destruct v.
Qed.

Lemma entry_dset d k v : entry_ok d = true → field_ok (k, v) = true → entry_ok (dset d k v) = true.
Proof.
  unfold entry_ok. intros Hd Hv. induction d as [|[k' v'] d IH]; cbn [dset forallb] in *; [by rewrite Hv|].
  apply andb_true_iff in Hd as [Hv2 Hd]. case_decide; cbn [forallb]; [subst; by rewrite Hv, Hd|by rewrite Hv2, IH].
Qed.

Definition entries_ok (z : ZState eval) : Prop := ∀ n d, z.(serializable_state) !! n = Some d → entry_ok d = true.

Section keeps.
Context (jobs : list pydict).

Lemma liftZ_ok {A} (o : outcome exn A) : keeps entries_ok (liftZ o).
Proof. by intros z. Qed.
Hint Resolve liftZ_ok : keeps.

Lemma notify_ok id : keeps entries_ok (notify_state_change jobs id).
Proof. unfold notify_state_change. keeps_tac; by apply keeps_modify. Qed.
Hint Resolve notify_ok : keeps.

Lemma record_ok id k v : field_ok (k, v) = true → keeps entries_ok (record id k v).
Proof.
  intros Hv. unfold record. keeps_tac. apply keeps_modify. intros z Hz n d. cbn.
  intros [[_ <-]|[_ Hd]]%lookup_insert_Some; [|by eapply Hz]. apply entry_dset; [|done].
  destruct (z.(serializable_state) !! a) as [d'|] eqn:Hd; [by eapply Hz|done].
Qed.

Lemma set_state_ok id st :
  (∀ t, dget st "state" = Some (EStr t) → t ∈ ["ERROR"; "FINISHED"] → storable (EDict st) = true) →
  keeps entries_ok (set_state jobs id st).
Proof.
  intros Hst. unfold set_state, field_of. apply keeps_bind; [by apply keeps_modify|intros _].
  apply keeps_bind; [|intros _; apply notify_ok]. destruct (is_replication id); [|apply keeps_ret].
  destruct (dget st "state") as [v|] eqn:Hv; [|by intros z Hz].
  intros z Hz. unfold mbind, M_bind, liftZ. cbn [fst snd].
  destruct (same_text v "ERROR" || same_text v "FINISHED") eqn:Hs; [|done].
  apply record_ok; [|done]. cbn. destruct v; try done. apply (Hst s); [done|]. cbn in Hs.
  apply orb_true_iff in Hs as [->%String.eqb_eq | ->%String.eqb_eq]; set_solver.
Qed.

Lemma set_running_ok id st t :
  dget st "state" = Some (EStr t) → t ∉ ["ERROR"; "FINISHED"] → keeps entries_ok (set_state jobs id st).
Proof. intros Hv Ht. apply set_state_ok. intros t' Hv'. rewrite Hv in Hv'. by injection Hv' as <-. Qed.

Lemma put_channels_ok id m : keeps entries_ok (put_channels id m).
Proof. unfold put_channels. by apply keeps_modify. Qed.

Lemma set_errors_ok errors : keeps entries_ok (set_definition_errors jobs errors).
Proof. unfold set_definition_errors. keeps_tac; by apply keeps_modify. Qed.

Lemma set_error_ok e : keeps entries_ok (set_error jobs e).
Proof. unfold set_error. keeps_tac; by apply keeps_modify. Qed.

Lemma set_last_snapshot_ok id t : keeps entries_ok (set_last_snapshot jobs id (EStr t)).
Proof. unfold set_last_snapshot. keeps_tac; (by apply keeps_modify) || by apply record_ok. Qed.

Hint Resolve put_channels_ok set_errors_ok set_last_snapshot_ok : keeps.

(** The warnings of a replication are texts. *)
Definition message_ok (m : Message) : bool :=
  match m with ReplicationTaskSuccess _ w => storable (of_pyval w) | _ => true end.

Lemma observe_ok now m :
  moment now = true → message_ok m = true → keeps entries_ok (observe jobs (EDateTime (naive now)) m).
Proof.
  intros Hnow Hm. unfold observe. apply keeps_try; [|keeps_tac].
  assert (∀ t, storable (EDict (error_state (EDateTime (naive now)) t)) = true) as Herr by (intros t; cbn; by rewrite Hnow).
  destruct m as [errors|id|id|id e|id reason|id|id log|id p|id p|id ds snap|id ds src dst|id w|id e]; cbn [read_message message_ok] in *.
  11: { apply keeps_bind; [apply keeps_get_state|intros z0]. apply keeps_bind; [|intros _; apply put_channels_ok].
    destruct (dget z0.(state) _) as [st|]; [|apply keeps_ret]. intros z Hz. unfold field_of, liftZ, mbind, M_bind. cbn [fst snd].
    destruct (dget st "state") as [x|] eqn:Hx; [|done].
    destruct (same_text x "RUNNING") eqn:Hr; [|by destruct (dget st "progress")].
    destruct (dget st "progress") as [p|]; [|done]. destruct (as_dict p); [|done].
    destruct x as [| | |t| | | | |]; try done. apply (String.eqb_eq t) in Hr.
    apply (set_running_ok _ _ t); [by rewrite dget_dset_ne|rewrite Hr; set_solver|done]. }
  all: keeps_tac; try by apply keeps_modify.
  all: try (by apply set_state_ok; intros).
  all: try (eapply set_running_ok; [reflexivity|set_solver]).
  - apply set_state_ok. intros. cbn. by rewrite Hnow.
  - apply set_last_snapshot_ok.
  - apply set_state_ok. intros. cbn. by rewrite Hnow, Hm.
Qed.

Lemma notify_definition_ok snaps repls holds : keeps entries_ok (notify_definition jobs snaps repls holds).
Proof.
  unfold notify_definition. keeps_tac; try by apply keeps_modify.
  apply keeps_modify. intros z Hz n d [Hd _]%map_lookup_filter_Some. by eapply Hz.
Qed.
End keeps.

(** The states a service reaches: messages of the process at any times, new definitions,
    errors, and states that were loaded. *)
Inductive z_run (json_parse : string → outcome exn pyval) : ZState eval → Prop :=
| run_init : z_run json_parse z_init
| run_observe jobs now m z : z_run json_parse z → moment now = true → message_ok m = true →
    z_run json_parse (observe jobs (EDateTime (naive now)) m z).2
| run_definition jobs snaps repls holds z : z_run json_parse z → z_run json_parse (notify_definition jobs snaps repls holds z).2
| run_error jobs e z : z_run json_parse z → z_run json_parse (set_error jobs e z).2
| run_load rows z : z_run json_parse z → z_run json_parse (load_state json_parse rows z).2.

Lemma load_state_entries json_parse rows : keeps entries_ok (load_state json_parse rows).
Proof. unfold load_state, load_row, liftZ. keeps_tac; by apply keeps_modify || apply keeps_read. Qed.

Lemma z_run_ok json_parse z : z_run json_parse z → entries_ok z.
Proof.
  induction 1 as [|jobs now m z _ IH Hn Hm|jobs snaps repls holds z _ IH|jobs e z _ IH|rows z _ IH].
  - intros n d. cbn. by rewrite lookup_empty.
  - by apply observe_ok.
  - by apply notify_definition_ok.
  - by apply set_error_ok.
  - by apply load_state_entries.
Qed.

Section restart.
Context (json_print : pyval → string) (json_parse : string → outcome exn pyval).

(** What a row's text holds. *)
Definition stored_in (r : pydict) (st : vdict eval) : Prop :=
  (j ← json_parse (py_str (col r "state")); loads j) = Ret (EDict st).

(** Loading a row sets the entries of its task only. *)
Lemma load_row_spec r n st z : col r "id" = PInt n → stored_in r st → ∃ z', load_row json_parse r z = (Ret tt, z') ∧
  (∀ m, m ≠ n → dget z'.(last_snapshot) (repl_id m) = dget z.(last_snapshot) (repl_id m) ∧ dget z'.(state) (repl_id m) = dget z.(state) (repl_id m)) ∧
  dget z'.(last_snapshot) (repl_id n) = match dget st "last_snapshot" with Some v => Some v | None => dget z.(last_snapshot) (repl_id n) end ∧
  dget z'.(state) (repl_id n) = match dget st "state" with Some (EDict v) => Some v | _ => dget z.(state) (repl_id n) end.
Proof.
  intros Hid Hl. unfold stored_in in Hl. unfold load_row, mbind at 1, M_bind at 1, liftZ. rewrite Hl, Hid. fold (repl_id n).
  set (z1 := match dget st "last_snapshot" with Some v => set_z_last_snapshot (dset z.(last_snapshot) (repl_id n) v) z | None => z end).
  set (z2 := match dget st "state" with Some (EDict v) => set_z_state (dset z1.(state) (repl_id n) v) z1 | _ => z1 end).
  exists z2. split_and!.
  - unfold z2, z1, mbind, M_bind, eval_in, eval_item, dhas, modify. destruct (dget st "last_snapshot") as [v|]; cbn; by destruct (dget st "state") as [[]|].
  - intros m Hm. assert (repl_id n ≠ repl_id m) by (intros ?%repl_id_inj; done).
    unfold z2, z1. destruct (dget st "last_snapshot"), (dget st "state") as [[]|]; cbn; by rewrite ?dget_dset_ne.
  - unfold z2, z1. destruct (dget st "last_snapshot"), (dget st "state") as [[]|]; cbn; by rewrite ?dget_dset.
  - unfold z2, z1. destruct (dget st "last_snapshot"), (dget st "state") as [[]|]; cbn; by rewrite ?dget_dset.
Qed.

Lemma keyed_cons r rows n : keyed (r :: rows) = true → col r "id" = PInt n → keyed rows = true ∧ PInt n ∉ ids rows.
Proof.
  intros Hk Hid. unfold keyed, ids in *. rewrite fmap_cons, Hid in Hk. apply andb_true_iff in Hk as [Hnd Hi].
  apply bool_decide_eq_true, NoDup_cons in Hnd as [Hni Hnd]. cbn in Hi. split; [|done]. by rewrite bool_decide_eq_true_2, Hi.
Qed.

(** Loading all rows, with what each of them holds. *)
Lemma load_state_spec rows : ∀ z, keyed rows = true → Forall (λ r, ∃ st, stored_in r st) rows →
  ∃ z', load_state json_parse rows z = (Ret tt, z') ∧
    (∀ n, PInt n ∉ ids rows → dget z'.(last_snapshot) (repl_id n) = dget z.(last_snapshot) (repl_id n) ∧ dget z'.(state) (repl_id n) = dget z.(state) (repl_id n)) ∧
    (∀ r n st, r ∈ rows → col r "id" = PInt n → stored_in r st →
      dget z'.(last_snapshot) (repl_id n) = match dget st "last_snapshot" with Some v => Some v | None => dget z.(last_snapshot) (repl_id n) end ∧
      dget z'.(state) (repl_id n) = match dget st "state" with Some (EDict v) => Some v | _ => dget z.(state) (repl_id n) end).
Proof.
  induction rows as [|r rows IH]; intros z Hk Hl.
  { exists z. split_and!; [done|done|]. by intros r n st Hr%not_elem_of_nil. }
  apply Forall_cons in Hl as [[st Hst] Hl]. destruct (keyed_row _ r Hk ltac:(left)) as [n Hn].
  assert (Hid : col r "id" = PInt n) by (unfold col; by rewrite Hn).
  destruct (keyed_cons r rows n Hk Hid) as [Hk' Hni]. destruct (load_row_spec r n st z Hid Hst) as (z1 & H1 & Hother & Hlast & Hstate).
  destruct (IH z1 Hk' Hl) as (z2 & H2 & Hframe & Hrows). exists z2. split_and!.
  - unfold load_state in *. cbn [forM]. unfold mbind, M_bind. by rewrite H1.
  - intros m. unfold ids. rewrite fmap_cons, not_elem_of_cons, Hid. intros [Hne Hm]. destruct (Hframe m Hm) as [-> ->]. apply Hother. congruence.
  - intros r0 m st0 [->|Hr0]%elem_of_cons Hm Hst0.
    + assert (m = n) as -> by congruence. unfold stored_in in *. assert (st0 = st) as -> by congruence. destruct (Hframe n Hni) as [-> ->]. by split.
    + assert (Hne : m ≠ n). { intros ->. apply Hni. rewrite <-Hm. by apply (list_elem_of_fmap_2 (λ r, col r "id")). }
      destruct (Hrows r0 m st0 Hr0 Hm Hst0) as [-> ->]. destruct (Hother m Hne) as [-> ->]. done.
Qed.

(** A row with what is flushed to it. *)
Definition flushed (l : list (Z * vdict eval)) (r : pydict) : pydict :=
  match col r "id" with
  | PInt n => match (list_to_map l : gmap Z (vdict eval)) !! n with
              | Some d => match dumps (EDict d) with Ret j => dset r "state" (PStr (json_print j)) | Raise _ => r end
              | None => r
              end
  | _ => r
  end.

Lemma flush_entry_run n d j rows :
  dumps (EDict d) = Ret j →
  flush_entry json_print n d rows =
    (Ret tt, (λ r, if py_eq (col r "id") (PInt n) then dset r "state" (PStr (json_print j)) else r) <$> rows).
Proof. intros Hj. unfold flush_entry, mbind, M_bind, modify. by rewrite Hj. Qed.

Lemma flush_spec l rows :
  NoDup l.*1 → Forall (λ e, ∃ j, dumps (EDict e.2) = Ret j) l → keyed rows = true →
  forM l (λ e, flush_entry json_print e.1 e.2) rows = (Ret tt, flushed l <$> rows).
Proof.
  revert rows. induction l as [|[n d] l IH]; intros rows Hnd Hj Hk; cbn [forM].
  { cbn. f_equal. rewrite <-(list_fmap_id rows) at 1. apply list_fmap_ext. intros _ r _. unfold flushed. by destruct (col r "id"). }
  apply Forall_cons in Hj as [[j Hj] Hjs]. cbn [snd] in Hj. rewrite fmap_cons in Hnd. apply NoDup_cons in Hnd as [Hn Hnd].
  unfold mbind at 1, M_bind at 1. cbn [fst snd]. rewrite (flush_entry_run n d j rows Hj).
  set (up := λ r : pydict, if py_eq (col r "id") (PInt n) then dset r "state" (PStr (json_print j)) else r).
  assert (∀ r, col (up r) "id" = col r "id") as Hup by (intros r; unfold up; case_match; [by rewrite col_dset_ne|done]).
  rewrite IH; [|done|done|].
  2: { unfold keyed, ids in *. rewrite <-list_fmap_compose. rewrite (list_fmap_ext _ (λ r, col r "id")); [done|]. intros _ r _. apply Hup. }
  f_equal. rewrite <-list_fmap_compose. apply list_fmap_ext. intros i r Hr. unfold compose, flushed. rewrite Hup.
  apply list_elem_of_lookup_2 in Hr. destruct (keyed_row _ r Hk Hr) as [m Hm]. assert (col r "id" = PInt m) as Hid by (unfold col; by rewrite Hm).
  rewrite Hid, list_to_map_cons. unfold up. rewrite Hid. cbn [py_eq as_int].
  destruct (Z.eqb_spec m n) as [-> |Hne].
  - rewrite lookup_insert_eq, Hj. assert ((list_to_map l : gmap Z (vdict eval)) !! n = None) as -> by by apply not_elem_of_list_to_map_1.
    done.
  - by rewrite lookup_insert_ne by done.
Qed.
End restart.


Module Demo.

Definition json_print (j : pyval) : string := py_repr j.

(** The replication 2 sent a snapshot and finished at 0.123 seconds past a full one. *)
Definition finished_at : Z := 1600000000123000.
Definition before : ZState eval :=
  (observe [] (EDateTime (naive finished_at)) (ReplicationTaskSuccess "task_2" (PList []))
    (observe [] (EDateTime (naive finished_at)) (ReplicationTaskSnapshotSuccess "task_2" "tank" "auto-1") z_init).2).2.

Definition entry : vdict eval :=
  [("last_snapshot", EStr "tank@auto-1");
   ("state", EDict [("state", EStr "FINISHED"); ("datetime", EDateTime (naive finished_at)); ("warnings", EList [])])].

Definition tree : pyval :=
  PDict [("last_snapshot", PStr "tank@auto-1");
         ("state", PDict [("state", PStr "FINISHED"); ("datetime", PDict [("$date", PInt 1600000000123)]); ("warnings", PList [])])].

Definition json_parse (t : string) : outcome exn pyval := Ret (if String.eqb t "{}" then PDict [] else tree).

Definition rows : list pydict := [[("id", PInt 1); ("state", PStr "{}")]; [("id", PInt 2); ("state", PStr "{}")]].

Lemma before_entry : before.(serializable_state) = {[ 2%Z := entry ]}.
Proof. vm_compute. reflexivity. Qed.


(** After a restart the entries are empty: the first result of a task that is flushed
    replaces the stored state, and the last snapshot is gone from the row though the
    service still has it. *)
Definition restarted : ZState eval := (load_state json_parse (flush_state json_print before rows).2 z_init).2.
Definition finished_again : ZState eval := (set_state [] "replication_task_2" [("state", EStr "FINISHED")] restarted).2.

Example restart_forgets_snapshot :
  dget finished_again.(last_snapshot) "replication_task_2" = Some (EStr "tank@auto-1") ∧
  finished_again.(serializable_state) !! 2%Z = Some [("state", EDict [("state", EStr "FINISHED")])].
Proof. by vm_compute. Qed.

End Demo.
