(* ===== verification/Replication.v ===== *)
(** * Snapshot and replication tasks: plugins/snapshot.py and plugins/replication.py

    Two tables of tasks and the table that binds periodic snapshot tasks to
    replication tasks; what the services check and store; and the definition that
    plugins/zettarepl.py computes from the tables and hands to its process. *)

From S2P Require Import Prelude PyValue Schema SchemaResolve Filter PyNum Validators ValidatorsFacts PyPath Rows Zettarepl.

Notation verrs := (list ValidationError).

(** ** State *)

Record Tasks : Type := mkTasks {
  (** storage_task, storage_replication and the table between them; the columns are
      without the prefixes *)
  snaps : list pydict;
  repls : list pydict;
  binds : list pydict;
  z : ZState pyval;
  (** the process and its queue of commands were made; the last definition that the
      process was given, and the runs that were asked of it *)
  process : bool;
  queue : bool;
  given : option pydict;
  asked : list (string * string);
}.

Notation MT := (M Tasks exn).

(** What other services answer at the time of a call. *)
Record World : Type := mkWorld {
  (** pool.filesystem_choices, vmware.query, keychaincredential *)
  filesystem_choices : list string;
  vmware : list pydict;
  get_of_type : pyval → string → outcome exn pydict;
  credential_row : pyval → pyval;
  (** pool.query, replication.config, the time zone *)
  pools : list pydict;
  max_parallel : pyval;
  timezone : pyval;
  (** the jobs of replication.run, the clock and the current directory *)
  jobs : list pydict;
  utcnow : pyval;
  cwd : string;
  (** [Definition.from_data] of zettarepl raises for a definition *)
  check_definition : pydict → outcome exn unit;
  (** the process that was started is alive; the text of an exception *)
  alive : bool;
  text_of : exn → string;
}.

(** *** The tables *)

Definition sound (s : Tasks) : bool :=
  forallb keyed [s.(snaps); s.(repls); s.(binds)] &&
  forallb (refers "replication_id" s.(repls)) s.(binds) &&
  forallb (refers "task_id" s.(snaps)) s.(binds).

Definition set_snaps l s := mkTasks l s.(repls) s.(binds) s.(z) s.(process) s.(queue) s.(given) s.(asked).
Definition set_repls l s := mkTasks s.(snaps) l s.(binds) s.(z) s.(process) s.(queue) s.(given) s.(asked).
Definition set_binds l s := mkTasks s.(snaps) s.(repls) l s.(z) s.(process) s.(queue) s.(given) s.(asked).
Definition set_z v s := mkTasks s.(snaps) s.(repls) s.(binds) v s.(process) s.(queue) s.(given) s.(asked).
Definition set_process b q d s := mkTasks s.(snaps) s.(repls) s.(binds) s.(z) b q d s.(asked).
Definition set_given d s := mkTasks s.(snaps) s.(repls) s.(binds) s.(z) s.(process) s.(queue) d s.(asked).
Definition ask a s := mkTasks s.(snaps) s.(repls) s.(binds) s.(z) s.(process) s.(queue) s.(given) (s.(asked) ++ [a]).

(** [ondelete='CASCADE'] *)
Definition cascade (s : Tasks) : Tasks :=
  set_binds (List.filter (λ b, refers "replication_id" s.(repls) b && refers "task_id" s.(snaps) b) s.(binds)) s.

Definition write (f : Tasks → Tasks) : MT unit := λ s,
  if sound (f s) then (Ret tt, f s) else (Raise (OtherError "IntegrityError"), s).

Definition snap_defaults : pydict :=
  [("dataset", PStr ""); ("recursive", PBool false); ("lifetime_value", PInt 2); ("lifetime_unit", PStr "WEEK"); ("begin", PStr "09:00:00");
   ("end", PStr "18:00:00"); ("enabled", PBool true); ("exclude", PList []); ("naming_schema", PStr "auto-%Y-%m-%d_%H-%M");
   ("minute", PStr "00"); ("hour", PStr "*"); ("daymonth", PStr "*"); ("month", PStr "*"); ("dayweek", PStr "*"); ("allow_empty", PBool true)].

Definition repl_defaults : pydict :=
  [("target_dataset", PStr ""); ("recursive", PBool false); ("compression", PStr "LZ4"); ("speed_limit", PNone);
   ("schedule_begin", PStr "00:00:00"); ("schedule_end", PStr "23:45:00"); ("enabled", PBool true); ("direction", PStr "PUSH");
   ("transport", PStr "SSH"); ("ssh_credentials", PNone); ("netcat_active_side", PNone); ("netcat_active_side_port_min", PNone);
   ("netcat_active_side_port_max", PNone); ("source_datasets", PList []); ("exclude", PList []); ("naming_schema", PList []);
   ("auto", PBool true); ("schedule_minute", PStr "00"); ("schedule_hour", PStr "*"); ("schedule_daymonth", PStr "*");
   ("schedule_month", PStr "*"); ("schedule_dayweek", PStr "*"); ("retention_policy", PStr "NONE"); ("lifetime_unit", PStr "WEEK");
   ("lifetime_value", PInt 2); ("large_block", PBool true); ("embed", PBool false); ("compressed", PBool true); ("retries", PInt 5);
   ("restrict_schedule_minute", PStr "00"); ("restrict_schedule_hour", PStr "*"); ("restrict_schedule_daymonth", PStr "*");
   ("restrict_schedule_month", PStr "*"); ("restrict_schedule_dayweek", PStr "*"); ("restrict_schedule_begin", PStr "00:00:00");
   ("restrict_schedule_end", PStr "23:45:00"); ("netcat_active_side_listen_address", PNone); ("netcat_passive_side_connect_address", PNone);
   ("logging_level", PNone); ("name", PStr ""); ("state", PStr "{}"); ("properties", PBool true); ("properties_exclude", PList []);
   ("encryption_key", PNone); ("encryption_key_format", PNone); ("encryption_key_location", PNone)].

(** The columns of a row begin with the primary key. *)
Definition new_row (l : list pydict) (data : pydict) : pydict := ("id", PInt (1 + max_id l)) :: ddel data "id".

(** [datastore.insert], [datastore.update] and [datastore.delete] *)
Definition insert_snap (data : pydict) : MT pyval :=
  s ← get_state;
  write (set_snaps (s.(snaps) ++ [new_row s.(snaps) (with_defaults snap_defaults data)]));;
  mret (PInt (1 + max_id s.(snaps))).

Definition insert_repl (data : pydict) : MT pyval :=
  s ← get_state;
  write (set_repls (s.(repls) ++ [new_row s.(repls) (with_defaults repl_defaults data)]));;
  mret (PInt (1 + max_id s.(repls))).

Definition insert_bind (data : pydict) : MT unit :=
  s ← get_state;
  write (set_binds (s.(binds) ++ [new_row s.(binds) data])).

Definition updated (id : pyval) (data : pydict) (l : list pydict) : list pydict :=
  (λ r, if eq_col "id" id r then dupdate r data else r) <$> l.

Definition one_row (id : pyval) (l : list pydict) : outcome exn unit :=
  match List.filter (eq_col "id" id) l with
  | [_] => Ret tt
  | l => Raise (RuntimeError (pretty (length l) +:+ " found, expecting one"))
  end.

Definition liftT {A} (o : outcome exn A) : MT A := λ s, (o, s).

Definition update_snap (id : pyval) (data : pydict) : MT unit :=
  s ← get_state;
  liftT (one_row id s.(snaps));;
  write (λ s, set_snaps (updated id data s.(snaps)) s).

Definition update_repl (id : pyval) (data : pydict) : MT unit :=
  s ← get_state;
  liftT (one_row id s.(repls));;
  write (λ s, set_repls (updated id data s.(repls)) s).

Definition without (k : string) (v : pyval) (l : list pydict) : list pydict := List.filter (λ r, negb (eq_col k v r)) l.

Definition delete_snap (id : pyval) : MT unit := write (λ s, cascade (set_snaps (without "id" id s.(snaps)) s)).
Definition delete_repl (id : pyval) : MT unit := write (λ s, cascade (set_repls (without "id" id s.(repls)) s)).

Section services.
Context (w : World).

Definition on_z {A} (m : M (ZState pyval) exn A) : MT A := λ s, let '(o, v) := m s.(z) in (o, set_z v s).

(** *** Periodic snapshot tasks *)

(** The state of a task in what [zettarepl.get_state] answers *)
Definition state_of (st : pydict) (task_id : string) : pyval :=
  match dget st "error" with
  | Some e => e
  | None =>
      match dget st "tasks" with
      | Some (PDict tasks) => or_else (PDict [("state", PStr "PENDING")]) (dget tasks task_id)
      | _ => PNone
      end
  end.

Definition in_vmware (data : pydict) (vm : pydict) : outcome exn bool :=
  if py_eq (col vm "filesystem") (col data "dataset") then Ret true
  else if truthy (col data "recursive") then is_child w.(cwd) (py_str (col vm "filesystem")) (py_str (col data "dataset"))
  else Ret false.

(** [extend] *)
Definition extend_snap (st : pydict) (data : pydict) : outcome exn pydict :=
  data ← Cron.convert_db_format_to_schedule data "schedule" "" true;
  sync ← anyO (in_vmware data) w.(vmware);
  Ret (dset (dset data "vmware_sync" (PBool sync)) "state" (state_of st ("periodic_snapshot_task_" +:+ py_str (col data "id")))).

Definition query_snaps : MT (list pydict) := λ s,
  (st ← get_state_dict w.(jobs) s.(z); mapO (extend_snap st) s.(snaps), s).

Definition does_not_exist (name : string) (id : pyval) : exn := ValidationErrorExn (mkVE "None" (name +:+ " " +:+ py_str id +:+ " does not exist") ENOENT).

Definition get_by_id (name : string) (id : pyval) (l : list pydict) : outcome exn pydict :=
  match List.filter (eq_col "id" id) l with r :: _ => Ret r | [] => Raise (does_not_exist name id) end.

Definition get_snap (id : pyval) : MT pydict := l ← query_snaps; liftT (get_by_id "PeriodicSnapshotTask" id l).

Definition texts (v : pyval) : outcome exn (list string) := match py_iter v with Ret l => Ret (py_str <$> l) | Raise e => Raise e end.

(** Adds the errors of the elements, with their positions. *)
Fixpoint add_each {A} (bad : A → bool) (field msg : string) (i : nat) (l : list A) (v : verrs) : verrs :=
  match l with
  | [] => v
  | x :: l => add_each bad field msg (S i) l (if bad x then VErrors.add v (field +:+ "." +:+ pretty i) msg EINVAL else v)
  end.

Definition quoted (t : string) : string := String (Ascii.ascii_of_nat 34) (t +:+ String (Ascii.ascii_of_nat 34) "").

Definition fail_if (b : bool) (field msg : string) (v : verrs) : verrs := if b then VErrors.add v field msg EINVAL else v.

(** [PeriodicSnapshotTaskService._validate] *)
Definition validate_snap (data : pydict) : outcome exn verrs :=
  exclude ← texts (col data "exclude");
  let dataset := py_str (col data "dataset") in
  let v := fail_if (negb (bool_decide (dataset ∈ w.(filesystem_choices)))) "dataset" "ZFS dataset or zvol not found" [] in
  let v := fail_if (negb (truthy (col data "recursive")) && truthy (col data "exclude")) "exclude"
             "Excluding datasets or zvols is not necessary for non-recursive periodic snapshot tasks" v in
  Ret (add_each (λ x, negb (PyStr.startswith x (dataset +:+ "/"))) "exclude"
         "Excluded dataset or zvol should be a child or other descendant of selected dataset" 0 exclude v).

(** *** Replication tasks *)

(** [k.replace("task_", "")] *)
Fixpoint drop_sub (fuel : nat) (sub s : string) : string :=
  match fuel, s with
  | S fuel, String c s' => if PyStr.startswith s sub then drop_sub fuel sub (PyStr.drop (String.length sub) s) else String c (drop_sub fuel sub s')
  | _, _ => s
  end.

Definition untask (k : string) : string := drop_sub (String.length k) "task_" k.

(** The rows of the relationship, as the datastore gives them. *)
Definition raw_task (t : pydict) : pydict := (λ kv : string * pyval, if String.eqb kv.1 "id" then kv else ("task_" +:+ kv.1, kv.2)) <$> t.

Definition row_of (id : pyval) (l : list pydict) : option pydict := head (List.filter (eq_col "id" id) l).

Definition bound_rows (s : Tasks) (id : pyval) : list pydict :=
  omap (λ b : pydict, match row_of (col b "task_id") s.(snaps) with Some t => Some (raw_task t) | None => None end)
    (List.filter (eq_col "replication_id" id) s.(binds)).

Definition datastore_repl (s : Tasks) (r : pydict) : pydict :=
  dset (dset r "ssh_credentials" (w.(credential_row) (col r "ssh_credentials")))
    "periodic_snapshot_tasks" (PList (PDict <$> bound_rows s (col r "id"))).

Definition extend_task (t : pyval) : outcome exn pyval :=
  match t with
  | PDict d => d ← Cron.convert_db_format_to_schedule ((λ kv, (untask kv.1, kv.2)) <$> d) "schedule" "" true; Ret (PDict d)
  | _ => Raise (AttributeError "items")
  end.

(** [extend] *)
Definition extend_repl (st : pydict) (data : pydict) : outcome exn pydict :=
  tasks ← py_iter (col data "periodic_snapshot_tasks");
  tasks ← mapO extend_task tasks;
  let data := dset data "periodic_snapshot_tasks" (PList tasks) in
  let data := if py_eq (col data "direction") (PStr "PUSH")
    then dset (dset data "also_include_naming_schema" (col data "naming_schema")) "naming_schema" (PList []) else data in
  let data := if py_eq (col data "direction") (PStr "PULL") then dset data "also_include_naming_schema" (PList []) else data in
  data ← Cron.convert_db_format_to_schedule data "schedule" "schedule_" true;
  data ← Cron.convert_db_format_to_schedule data "restrict_schedule" "restrict_schedule_" true;
  match state_of st ("replication_task_" +:+ py_str (col data "id")) with
  | PDict task => Ret (dset (dset data "state" (PDict (ddel task "job"))) "job" (or_else PNone (dget task "job")))
  | _ => Raise (AttributeError "pop")
  end.

Definition query_repls : MT (list pydict) := λ s,
  (st ← get_state_dict w.(jobs) s.(z); mapO (extend_repl st) (datastore_repl s <$> s.(repls)), s).

Definition get_repl (id : pyval) : MT pydict := l ← query_repls; liftT (get_by_id "Replication" id l).

(** [compress] *)
Definition compress (data : pydict) : outcome exn pydict :=
  let data := if py_eq (col data "direction") (PStr "PUSH") then dset data "naming_schema" (col data "also_include_naming_schema") else data in
  let data := ddel data "also_include_naming_schema" in
  data ← Cron.convert_schedule_to_db_format data "schedule" "schedule_" true;
  data ← Cron.convert_schedule_to_db_format data "restrict_schedule" "restrict_schedule_" true;
  Ret (ddel data "periodic_snapshot_tasks").

(** [_query_periodic_snapshot_tasks] *)
Fixpoint find_tasks (tasks : list pydict) (i : nat) (wanted : list pyval) (v : verrs) : verrs * list pydict :=
  match wanted with
  | [] => (v, [])
  | id :: wanted =>
      match List.find (eq_col "id" id) tasks with
      | Some t => let '(v, l) := find_tasks tasks (S i) wanted v in (v, t :: l)
      | None => find_tasks tasks (S i) wanted (VErrors.add v (pretty i) "This snapshot task does not exist" EINVAL)
      end
  end.

(** The checks of [_validate] for each direction; [tasks] are the snapshot tasks that
    were found. *)
Definition check_push (data : pydict) (tasks : list pydict) (v : verrs) : verrs :=
  let v := fail_if (truthy (col data "naming_schema")) "naming_schema" "This field has no sense for push replication" v in
  let v := fail_if (match tasks with [] => true | _ => false end && negb (truthy (col data "also_include_naming_schema"))) "periodic_snapshot_tasks"
    ("You must at least either bind a periodic snapshot task or provide " +:+ quoted "Also Include Naming Schema" +:+ " for push replication task") v in
  fail_if (match col data "schedule" with PNone => true | _ => false end && truthy (col data "auto") && negb (truthy (col data "periodic_snapshot_tasks"))) "auto"
    "Push replication that runs automatically must be either bound to a periodic snapshot task or have a schedule" v.

Definition check_pull (data : pydict) (v : verrs) : verrs :=
  let v := fail_if (match col data "schedule" with PNone => true | _ => false end && truthy (col data "auto")) "auto"
    "Pull replication that runs automatically must have a schedule" v in
  let v := fail_if (truthy (col data "periodic_snapshot_tasks")) "periodic_snapshot_tasks" "Pull replication can't be bound to a periodic snapshot task" v in
  let v := fail_if (negb (truthy (col data "naming_schema"))) "naming_schema" "Naming schema is required for pull replication" v in
  let v := fail_if (truthy (col data "also_include_naming_schema")) "also_include_naming_schema" "This field has no sense for pull replication" v in
  fail_if (truthy (col data "hold_pending_snapshots")) "hold_pending_snapshots"
    "Pull replication tasks can't hold pending snapshots because they don't do source retention" v.

Definition is_none (v : pyval) : bool := match v with PNone => true | _ => false end.

Definition netcat_fields : list string :=
  ["netcat_active_side_listen_address"; "netcat_active_side_port_min"; "netcat_active_side_port_max"; "netcat_passive_side_connect_address"].

Definition check_transport (data : pydict) (v : verrs) : outcome exn verrs :=
  let given k := negb (is_none (col data k)) in
  v ← (if py_eq (col data "transport") (PStr "SSH+NETCAT") then
         let v := fail_if (negb (given "netcat_active_side")) "netcat_active_side" "You must choose active side for SSH+netcat replication" v in
         wrong ← (if given "netcat_active_side_port_min" && given "netcat_active_side_port_max"
                  then py_lt (col data "netcat_active_side_port_max") (col data "netcat_active_side_port_min") else Ret false);
         let v := fail_if wrong "netcat_active_side_port_max" "Please specify value greater or equal than netcat_active_side_port_min" v in
         let v := fail_if (given "compression") "compression" "Compression is not supported for SSH+netcat replication" v in
         Ret (fail_if (given "speed_limit") "speed_limit" "Speed limit is not supported for SSH+netcat replication" v)
       else
         Ret (foldl (λ v k, fail_if (given k) k "This field only has sense for SSH+netcat replication" v) v ("netcat_active_side" :: netcat_fields)));
  if py_eq (col data "transport") (PStr "LOCAL") then
    let v := fail_if (given "ssh_credentials") "ssh_credentials" "Remote credentials have no sense for local replication" v in
    let v := fail_if (given "compression") "compression" "Compression has no sense for local replication" v in
    Ret (fail_if (given "speed_limit") "speed_limit" "Speed limit has no sense for local replication" v)
  else if negb (given "ssh_credentials") then Ret (VErrors.add v "ssh_credentials" "SSH Credentials are required for non-local replication" EINVAL)
  else match w.(get_of_type) (col data "ssh_credentials") "SSH_CREDENTIALS" with
       | Ret _ => Ret v
       | Raise e => if is_call_error e then Ret (VErrors.add v "ssh_credentials" (error_text e) EINVAL) else Raise e
       end.

(** What a bound snapshot task excludes has to be excluded, too. *)
Definition check_excluded (data : pydict) (i : nat) (source : string) (task : pydict) (v : verrs) : outcome exn verrs :=
  let dataset := py_str (col task "dataset") in
  inside ← is_child w.(cwd) source dataset;
  excluded ← texts (col task "exclude");
  mine ← texts (col data "exclude");
  if negb inside then Ret v
  else if truthy (col data "recursive") then
    foldO (λ v x,
      below ← is_child w.(cwd) x source;
      Ret (fail_if (below && negb (bool_decide (x ∈ mine))) "exclude"
             ("You should exclude " +:+ repr_str x +:+ " as bound periodic snapshot task dataset " +:+ repr_str dataset +:+ " does") v)) v excluded
  else Ret (fail_if (bool_decide (source ∈ excluded)) ("source_datasets." +:+ pretty i)
              ("Dataset " +:+ repr_str source +:+ " is excluded by bound periodic snapshot task for dataset " +:+ repr_str dataset) v).

Fixpoint check_sources (data : pydict) (tasks : list pydict) (i : nat) (sources : list string) (v : verrs) : outcome exn verrs :=
  match sources with
  | [] => Ret v
  | source :: sources =>
      v ← foldO (λ v task, check_excluded data i source task v) v tasks;
      check_sources data tasks (S i) sources v
  end.

Definition check_common (data : pydict) (sources exclude : list string) (v : verrs) : verrs :=
  let v := fail_if (negb (truthy (col data "recursive")) && truthy (col data "exclude")) "exclude"
    "Excluding child datasets is only supported for recursive replication" v in
  let v := add_each (λ x, negb (existsb (λ ds, PyStr.startswith x (ds +:+ "/")) sources)) "exclude"
    "This dataset is not a child of any of source datasets" 0 exclude v in
  let v := if truthy (col data "replicate") then
      let v := fail_if (negb (truthy (col data "recursive"))) "recursive" "This option is required for full filesystem replication" v in
      let v := fail_if (truthy (col data "exclude")) "exclude" "This option is not supported for full filesystem replication" v in
      fail_if (negb (truthy (col data "properties"))) "properties" "This option is required for full filesystem replication" v
    else v in
  let v := if truthy (col data "encryption") then
      foldl (λ v k, fail_if (is_none (col data k)) k "This property is required when remote dataset encryption is enabled" v) v
        ["encryption_key"; "encryption_key_format"; "encryption_key_location"]
    else v in
  let v := if truthy (col data "schedule")
    then fail_if (negb (truthy (col data "auto"))) "schedule" "You can't have schedule for replication that does not run automatically" v
    else fail_if (truthy (col data "only_matching_schedule")) "only_matching_schedule" "You can't have only-matching-schedule without schedule" v in
  if py_eq (col data "retention_policy") (PStr "CUSTOM") then
    let v := fail_if (is_none (col data "lifetime_value")) "lifetime_value" "This field is required for custom retention policy" v in
    fail_if (is_none (col data "lifetime_unit")) "lifetime_value" "This field is required for custom retention policy" v
  else
    let v := fail_if (negb (is_none (col data "lifetime_value"))) "lifetime_value" "This field has no sense for specified retention policy" v in
    fail_if (negb (is_none (col data "lifetime_unit"))) "lifetime_unit" "This field has no sense for specified retention policy" v.

Definition check_enabled (data : pydict) (tasks : list pydict) (v : verrs) : verrs :=
  if truthy (col data "enabled")
  then add_each (λ t, negb (truthy (col t "enabled"))) "periodic_snapshot_tasks"
         "You can't bind disabled periodic snapshot task to enabled replication task" 0 tasks v
  else v.

(** [ReplicationService._validate]; [data] has the keys of the schema. *)
Definition validate_repl (data : pydict) (id : option pyval) : MT verrs :=
  l ← query_repls;
  let others := match id with Some id => List.filter (λ r, negb (eq_col "id" id r)) l | None => l end in
  let v := fail_if (existsb (eq_col "name" (col data "name")) others) "name" "Object with this name already exists" [] in
  '(v, tasks) ← (if py_eq (col data "direction") (PStr "PUSH") then
                   wanted ← liftT (py_iter (col data "periodic_snapshot_tasks"));
                   found ← query_snaps;
                   let '(e, tasks) := find_tasks found 0 wanted [] in
                   mret (check_push data tasks (VErrors.add_child v "periodic_snapshot_tasks" e), tasks)
                 else mret (v, []));
  let v := if py_eq (col data "direction") (PStr "PULL") then check_pull data v else v in
  v ← liftT (check_transport data v);
  sources ← liftT (texts (col data "source_datasets"));
  exclude ← liftT (texts (col data "exclude"));
  v ← liftT (check_sources data tasks 0 sources v);
  mret (check_enabled data tasks (check_common data sources exclude v)).

(** *** The definition for the process *)

Definition enabled_rows (l : list pydict) : list pydict := List.filter (eq_col "enabled" (PBool true)) l.

Definition task_key (r : pydict) : string := "task_" +:+ py_str (col r "id").

(** The definitions and the reasons to hold tasks that were collected so far. *)
Definition Collected : Type := (list (string * string) * pydict)%type.

Definition define_snap (acc : Collected) (t : pydict) : outcome exn Collected :=
  let '(holds, tasks) := acc in
  match hold_task_reason w.(pools) (py_str (col t "dataset")) with
  | Some reason => Ret (dset holds ("periodic_snapshot_task_" +:+ py_str (col t "id")) reason, tasks)
  | None =>
      lifetime ← lifetime_iso8601 (col t "lifetime_value") (col t "lifetime_unit");
      schedule ← zettarepl_schedule (col t "schedule");
      Ret (holds, dset tasks (task_key t)
        (PDict [("dataset", col t "dataset"); ("recursive", col t "recursive"); ("exclude", col t "exclude"); ("lifetime", lifetime);
                ("naming-schema", col t "naming_schema"); ("schedule", schedule); ("allow-empty", col t "allow_empty")]))
  end.

(** The first reason to hold a replication, on the side of this system. *)
Definition repl_hold_reason (t : pydict) : outcome exn (option string) :=
  push ← (if py_eq (col t "direction") (PStr "PUSH") then
            sources ← texts (col t "source_datasets");
            Ret (head (omap (hold_task_reason w.(pools)) sources))
          else Ret None);
  Ret (match push with
       | Some r => Some r
       | None => if py_eq (col t "direction") (PStr "PULL") then hold_task_reason w.(pools) (py_str (col t "target_dataset")) else None
       end).

Definition lower (v : pyval) : pyval := PStr (PyStr.lower (py_str v)).

Definition properties_excluded (v : pyval) : outcome exn pyval :=
  l ← py_iter v;
  Ret (PList (foldl (λ l p, if existsb (py_eq (PStr p)) l then l else l ++ [PStr p]) l ["mountpoint"; "sharenfs"; "sharesmb"])).

Definition optional_fields (t : pydict) (d : pydict) : outcome exn pydict :=
  let d := if truthy (col t "encryption")
    then dset d "encryption" (PDict [("key", col t "encryption_key"); ("key-format", lower (col t "encryption_key_format"));
                                     ("key-location", col t "encryption_key_location")]) else d in
  let d := if truthy (col t "naming_schema") then dset d "naming-schema" (col t "naming_schema") else d in
  let d := if truthy (col t "also_include_naming_schema") then dset d "also-include-naming-schema" (col t "also_include_naming_schema") else d in
  d ← (if is_none (col t "schedule") then Ret d else s ← zettarepl_schedule (col t "schedule"); Ret (dset d "schedule" s));
  d ← (if is_none (col t "restrict_schedule") then Ret d else s ← zettarepl_schedule (col t "restrict_schedule"); Ret (dset d "restrict-schedule" s));
  d ← (if is_none (col t "lifetime_value") || is_none (col t "lifetime_unit") then Ret d
       else l ← lifetime_iso8601 (col t "lifetime_value") (col t "lifetime_unit"); Ret (dset d "lifetime" l));
  let d := if is_none (col t "compression") then d else dset d "compression" (lower (col t "compression")) in
  Ret (when_given "speed-limit" (col t "speed_limit") d).

Definition repl_definition (t : pydict) (transport : pydict) : outcome exn pydict :=
  exclude ← replication_task_exclude t;
  properties_exclude ← properties_excluded (col t "properties_exclude");
  tasks ← py_iter (col t "periodic_snapshot_tasks");
  ids ← mapO (λ p, id ← item p "id"; Ret (PStr ("task_" +:+ py_str id))) tasks;
  optional_fields t
    [("direction", lower (col t "direction")); ("transport", PDict transport); ("source-dataset", col t "source_datasets");
     ("target-dataset", col t "target_dataset"); ("recursive", col t "recursive"); ("exclude", exclude); ("properties", col t "properties");
     ("properties-exclude", properties_exclude); ("replicate", col t "replicate"); ("periodic-snapshot-tasks", PList ids); ("auto", col t "auto");
     ("only-matching-schedule", col t "only_matching_schedule"); ("allow-from-scratch", col t "allow_from_scratch"); ("readonly", lower (col t "readonly"));
     ("hold-pending-snapshots", col t "hold_pending_snapshots"); ("retention-policy", lower (col t "retention_policy"));
     ("large-block", col t "large_block"); ("embed", col t "embed"); ("compressed", col t "compressed"); ("retries", col t "retries");
     ("logging-level", if truthy (col t "logging_level") then lower (col t "logging_level") else PStr "notset")].

Definition define_repl (acc : Collected) (t : pydict) : outcome exn Collected :=
  let '(holds, tasks) := acc in
  let hold reason := Ret (dset holds ("replication_task_" +:+ py_str (col t "id")) reason, tasks) in
  reason ← repl_hold_reason t;
  match reason with
  | Some reason => hold reason
  | None =>
      let credentials := match col t "ssh_credentials" with PDict d => col d "id" | _ => PNone end in
      match define_transport w.(get_of_type) (py_str (col t "transport")) credentials t with
      | Raise e => if is_call_error e then hold (error_text e) else Raise e
      | Ret transport => d ← repl_definition t transport; Ret (holds, dset tasks (task_key t) (PDict d))
      end
  end.

Record Definition_ : Type := mkDefinition { d_snaps : pydict; d_repls : pydict; d_holds : list (string * pydict) }.

Definition definition_dict (d : Definition_) : pydict :=
  [("max-parallel-replication-tasks", w.(max_parallel)); ("timezone", w.(timezone)); ("periodic-snapshot-tasks", PDict d.(d_snaps));
   ("replication-tasks", PDict d.(d_repls))].

(** [get_definition] *)
Definition get_definition : MT Definition_ :=
  snaps ← query_snaps;
  '(holds, tasks) ← liftT (foldO define_snap ([], []) (enabled_rows snaps));
  repls ← query_repls;
  '(holds, repl_tasks) ← liftT (foldO define_repl (holds, []) (enabled_rows repls));
  let holds := (λ h, (h.1, [("state", PStr "HOLD"); ("datetime", w.(utcnow)); ("reason", PStr (make_sentence h.2))])) <$> holds in
  let d := mkDefinition tasks repl_tasks holds in
  liftT (w.(check_definition) (definition_dict d));;
  mret d.

Definition set_error_state (e : exn) : MT unit :=
  on_z (set_error w.(jobs) (Some [("state", PStr "ERROR"); ("datetime", w.(utcnow)); ("error", PStr (make_sentence (w.(text_of) e)))])).

Definition notify (d : Definition_) : MT unit := on_z (notify_definition w.(jobs) (dkeys d.(d_snaps)) (dkeys d.(d_repls)) d.(d_holds)).

(** [ZettareplService.start] and [stop] *)
Definition start : MT unit :=
  d ← try_except get_definition (λ e, set_error_state e;; raise (CallError ("Internal error: " +:+ w.(text_of) e) EFAULT PNone));
  on_z (set_error w.(jobs) None);;
  s ← get_state;
  if s.(process) && w.(alive) then mret tt
  else
    modify (set_process true true (Some (definition_dict d)));;
    notify d.

Definition stop : MT unit := modify (λ s, set_process false s.(queue) None s).

Definition is_empty (d : Definition_) : bool := match d.(d_snaps), d.(d_repls) with [], [] => true | _, _ => false end.

(** [update_tasks] *)
Definition update_tasks : MT unit :=
  d ← try_except (d ← get_definition; mret (Some d)) (λ e, set_error_state e;; mret None);
  match d with
  | None => mret tt
  | Some d =>
      on_z (set_error w.(jobs) None);;
      (if is_empty d then stop else start;; modify (set_given (Some (definition_dict d))));;
      notify d
  end.

(** *** Operations on periodic snapshot tasks *)

Definition snap_create (data : pydict) : MT pydict :=
  v ← liftT (validate_snap data);
  liftT (VErrors.check (VErrors.add_child [] "periodic_snapshot_create" v));;
  data ← liftT (Cron.convert_schedule_to_db_format data "schedule" "" true);
  id ← insert_snap data;
  update_tasks;;
  get_snap id.

(** The ids of the tasks bound to a replication, as a query gives them *)
Definition bound_ids (r : pydict) : list pyval :=
  match col r "periodic_snapshot_tasks" with
  | PList l => (λ t, match t with PDict d => col d "id" | _ => PNone end) <$> l
  | _ => []
  end.

Definition snap_update (id : pyval) (data : pydict) : MT pydict :=
  old ← get_snap id;
  let new := dupdate old data in
  v ← liftT (validate_snap new);
  let v := VErrors.add_child [] "periodic_snapshot_update" v in
  v ← (if truthy (col new "enabled") then mret v
       else
         l ← query_repls;
         mret (match List.filter (λ r, existsb (py_eq id) (bound_ids r)) (enabled_rows l) with
               | r :: _ => VErrors.add v "periodic_snapshot_update.enabled"
                   ("You can't disable this periodic snapshot task because it is bound to enabled replication task " +:+ py_repr (col r "id")) EINVAL
               | [] => v
               end));
  liftT (VErrors.check v);;
  new ← liftT (Cron.convert_schedule_to_db_format new "schedule" "" true);
  let new := ddel (ddel new "vmware_sync") "state" in
  update_snap id new;;
  update_tasks;;
  get_snap id.

(** The replications that a snapshot task is the last task of. *)
Definition last_task_of (id : pyval) (l : list pydict) : list pydict :=
  List.filter (λ r,
    eq_col "direction" (PStr "PUSH") r && eq_col "also_include_naming_schema" (PList []) r && eq_col "enabled" (PBool true) r &&
    match bound_ids r with [t] => py_eq t id | _ => false end) l.

Definition snap_delete (id : pyval) : MT unit :=
  l ← query_repls;
  match last_task_of id l with
  | r :: _ => raise (CallError ("You are deleting the last periodic snapshot task bound to enabled replication task " +:+ py_repr (col r "name") +:+
                " which will break it. Please, disable that replication task first.") EFAULT PNone)
  | [] => delete_snap id;; update_tasks
  end.

Definition not_running : exn := CallError "Replication service is not running" EFAULT PNone.

Definition put_run (class_name : string) (id : pyval) : MT unit :=
  s ← get_state;
  if s.(queue) then modify (ask (class_name, "task_" +:+ py_str id)) else raise not_running.

Definition snap_run (id : pyval) : MT unit :=
  task ← get_snap id;
  if negb (truthy (col task "enabled")) then raise (CallError "Task is not enabled" EFAULT PNone)
  else put_run "PeriodicSnapshotTask" (col task "id").

(** *** Operations on replication tasks *)

(** [_set_periodic_snapshot_tasks] *)
Definition set_periodic_snapshot_tasks (id : pyval) (tasks : list pyval) : MT unit :=
  write (λ s, set_binds (without "replication_id" id s.(binds)) s);;
  forM tasks (λ t, insert_bind [("replication_id", id); ("task_id", t)]).

Definition repl_create (data : pydict) : MT pydict :=
  v ← validate_repl data None;
  liftT (VErrors.check (VErrors.add_child [] "replication_create" v));;
  tasks ← liftT (py_iter (col data "periodic_snapshot_tasks"));
  data ← liftT (compress data);
  id ← insert_repl data;
  set_periodic_snapshot_tasks id tasks;;
  update_tasks;;
  get_repl id.

Definition repl_update (id : pyval) (data : pydict) : MT pydict :=
  old ← get_repl id;
  new ← liftT (if truthy (col old "ssh_credentials")
               then c ← item (col old "ssh_credentials") "id"; Ret (dset old "ssh_credentials" c) else Ret old);
  let new := dset new "periodic_snapshot_tasks" (PList (bound_ids new)) in
  let new := dupdate new data in
  v ← validate_repl new (Some id);
  liftT (VErrors.check (VErrors.add_child [] "replication_update" v));;
  tasks ← liftT (py_iter (col new "periodic_snapshot_tasks"));
  new ← liftT (compress new);
  update_repl id (ddel (ddel new "state") "job");;
  set_periodic_snapshot_tasks id tasks;;
  update_tasks;;
  get_repl id.

Definition repl_delete (id : pyval) : MT unit := delete_repl id;; update_tasks.

(** [run], up to the point where the job waits for messages; the queue of the job is
    the last of the task's channels. *)
Definition repl_run (id : pyval) (really_run : bool) : MT unit :=
  (if really_run then
     task ← get_repl id;
     if negb (truthy (col task "enabled")) then raise (CallError "Task is not enabled" EFAULT PNone)
     else
       st ← liftT (item (col task "state") "state");
       if py_eq st (PStr "RUNNING") then raise (CallError "Task is already running" EFAULT PNone)
       else if py_eq st (PStr "HOLD") then raise (CallError "Task is on hold" EFAULT PNone)
       else put_run "ReplicationTask" id
   else mret tt);;
  on_z (modify (λ v, set_z_channels (v.(channels) ++ [("task_" +:+ py_str id, [])]) v)).

Definition list_naming_schemas : MT (list pyval) :=
  snaps ← query_snaps;
  repls ← query_repls;
  more ← liftT (mapO (λ r, a ← py_iter (col r "naming_schema"); b ← py_iter (col r "also_include_naming_schema"); Ret (a ++ b)) repls);
  mret (sorted_by (key_leb false) (remove_dups (((λ t, col t "naming_schema") <$> snaps) ++ concat more))).

(** *** Attachments of a path: the two delegates *)

Definition in_mnt (dataset : string) : string := PosixPath.join2 "/mnt" dataset.

Definition snap_attachments (path : string) (enabled : bool) : MT (list pydict) :=
  l ← query_snaps;
  liftT (filterO (λ t, is_child w.(cwd) (in_mnt (py_str (col t "dataset"))) path) (List.filter (eq_col "enabled" (PBool enabled)) l)).

Definition repl_attached (path : string) (r : pydict) : outcome exn bool :=
  if py_eq (col r "direction") (PStr "PUSH") then
    sources ← texts (col r "source_datasets");
    anyO (λ d, is_child w.(cwd) (in_mnt d) path) sources
  else if py_eq (col r "direction") (PStr "PULL") then is_child w.(cwd) (in_mnt (py_str (col r "target_dataset"))) path
  else Ret false.

Definition repl_attachments (path : string) (enabled : bool) : MT (list pydict) :=
  l ← query_repls;
  liftT (filterO (repl_attached path) (List.filter (eq_col "enabled" (PBool enabled)) l)).

Definition snaps_detach (attachments : list pydict) : MT unit := forM attachments (λ a, delete_snap (col a "id"));; update_tasks.
Definition repls_detach (attachments : list pydict) : MT unit := forM attachments (λ a, delete_repl (col a "id"));; update_tasks.

Definition snaps_toggle (attachments : list pydict) (enabled : bool) : MT unit :=
  forM attachments (λ a, update_snap (col a "id") [("enabled", PBool enabled)]);; update_tasks.
Definition repls_toggle (attachments : list pydict) (enabled : bool) : MT unit :=
  forM attachments (λ a, update_repl (col a "id") [("enabled", PBool enabled)]);; update_tasks.

(** *** Events: [on_zettarepl_state_changed] of both files *)

Definition task_event (id : string) (fields : pydict) : option (outcome exn (string * Z * pydict)) :=
  let event name := n ← task_number id; Ret (name, n, [("state", PDict fields)]) in
  if PyStr.startswith id "periodic_snapshot_task_" then Some (event "pool.snapshottask.query")
  else if PyStr.startswith id "replication_task_" then Some (event "replication.query")
  else None.

End services.

(** ** Calls *)

Inductive Call : Type :=
| SnapCreate (data : pydict)
| SnapUpdate (id : pyval) (data : pydict)
| SnapDelete (id : pyval)
| SnapRun (id : pyval)
| ReplCreate (data : pydict)
| ReplUpdate (id : pyval) (data : pydict)
| ReplDelete (id : pyval)
| ReplRun (id : pyval) (really_run : bool)
| UpdateTasks
| Observe (m : Message).

Definition perform (w : World) (c : Call) : MT unit :=
  match c with
  | SnapCreate data => snap_create w data;; mret tt
  | SnapUpdate id data => snap_update w id data;; mret tt
  | SnapDelete id => snap_delete w id
  | SnapRun id => snap_run w id
  | ReplCreate data => repl_create w data;; mret tt
  | ReplUpdate id data => repl_update w id data;; mret tt
  | ReplDelete id => repl_delete w id
  | ReplRun id really_run => repl_run w id really_run
  | UpdateTasks => update_tasks w
  | Observe m => on_z (observe w.(jobs) w.(utcnow) m)
  end.

(** Calls one after the other, each in the world of its time. *)
Definition run (calls : list (World * Call)) (s : Tasks) : Tasks := foldl (λ s wc, (perform wc.1 wc.2 s).2) s calls.
