(* ===== verification/ReplicationFacts.v ===== *)
(** * Snapshot and replication tasks: what the operations change

    What a query says of a row, which parts of the state an operation leaves alone,
    and the invariant of the tables. *)

From S2P Require Import Prelude PyValue Schema SchemaResolve Filter PyNum Validators ValidatorsFacts PyPath Rows Zettarepl Replication.

(** ** Conversions of schedules leave the other keys alone *)

Definition cron_fields (begin_end : bool) : list (string * string) := Cron.columns ++ if begin_end then Cron.times else [].

(** Keys that are neither the schedule nor one of its columns. *)
Definition apart (name prefix k : string) : bool :=
  negb (String.eqb k name) && forallb (λ f, negb (String.eqb k (prefix +:+ f.2))) (cron_fields true).

Lemma apart_name name prefix k : apart name prefix k = true → name ≠ k.
Proof. unfold apart. intros [H _]%andb_true_iff ->. by rewrite String.eqb_refl in H. Qed.

Lemma apart_column name prefix k f : apart name prefix k = true → f ∈ Cron.columns ++ Cron.times → prefix +:+ f.2 ≠ k.
Proof.
  unfold apart. intros [_ H]%andb_true_iff Hf <-. pose proof (forallb_elem _ _ _ H Hf) as H1. cbn beta in H1. by rewrite String.eqb_refl in H1.
Qed.

Section frames.
Context (name prefix k : string) (Hk : apart name prefix k = true).

Lemma fill_frame schedule fields : ∀ d d', (∀ f, f ∈ fields → f ∈ Cron.columns ++ Cron.times) → Cron.fill prefix fields schedule d = Ret d' → dget d' k = dget d k.
Proof.
  induction fields as [|[f db] fields IH]; intros d d' Hf; cbn [Cron.fill]; [by intros [= <-]|].
  destruct (Cron.v_in _ _) as [[]|]; cbn [mbind outcome_bind]; [| |done].
  - destruct (Cron.v_item _ _) as [v|]; cbn [mbind outcome_bind]; [|done]. intros ->%IH; [|intros; apply Hf; by right].
    apply dget_dset_ne, (apart_column _ _ _ _ Hk (Hf (f, db) ltac:(left))).
  - apply IH. intros; apply Hf; by right.
Qed.

Lemma to_db_frame d d' : Cron.convert_schedule_to_db_format d name prefix true = Ret d' → dget d' k = dget d k.
Proof.
  unfold Cron.convert_schedule_to_db_format. cbn match. destruct (dget d name) as [v|]; [|by intros [= <-]].
  assert (Hd : dget (ddel d name) k = dget d k) by (apply dget_ddel_ne, (apart_name _ _ _ Hk)).
  destruct (Cron.is_None v); [|intros H; rewrite (fill_frame _ _ _ _ (λ f H, H) H); done].
  revert Hd. generalize (ddel d name). intros acc <- H. assert (Hall : ∀ f, f ∈ Cron.columns ++ Cron.times → prefix +:+ f.2 ≠ k) by (intros; by eapply apart_column).
  revert H Hall. generalize (Cron.columns ++ Cron.times). intros fields [= <-]. revert acc. induction fields as [|f fields IH]; intros acc Hall; [done|].
  cbn [foldl]. rewrite IH by (intros; apply Hall; by right). apply dget_dset_ne, Hall. left.
Qed.

Lemma collect_frame show d d' f : f ∈ Cron.columns ++ Cron.times → Cron.collect name prefix show d f = Ret d' → dget d' k = dget d k.
Proof.
  intros Hf. pose proof (apart_name _ _ _ Hk) as Hn. pose proof (apart_column _ _ _ _ Hk Hf) as Hc. unfold Cron.collect.
  destruct (dget d _) as [v|]; [|by intros [= <-]]. destruct (Cron.is_None v); [|destruct (dget (ddel d _) name) as [[]|]]; try done; intros [= <-]; by rewrite ?dget_dset_ne, ?dget_ddel_ne.
Qed.

Lemma collect_all_frame show fields : ∀ d d', (∀ f, f ∈ fields → f ∈ Cron.columns ++ Cron.times) → Cron.collect_all name prefix show fields d = Ret d' → dget d' k = dget d k.
Proof.
  induction fields as [|f fields IH]; intros d d' Hf; cbn [Cron.collect_all]; [by intros [= <-]|].
  destruct (Cron.collect name prefix show d f) as [d1|] eqn:E; cbn [mbind outcome_bind]; [|done].
  intros ->%IH; [|intros; apply Hf; by right]. eapply collect_frame; [apply Hf; left|done].
Qed.

Lemma from_db_frame d d' : Cron.convert_db_format_to_schedule d name prefix true = Ret d' → dget d' k = dget d k.
Proof.
  unfold Cron.convert_db_format_to_schedule. destruct (Cron.collect_all _ _ _ Cron.columns _) as [d1|] eqn:E; cbn [mbind outcome_bind]; [|done].
  assert (H1 : ∀ f, f ∈ Cron.columns → f ∈ Cron.columns ++ Cron.times) by (intros; apply elem_of_app; by left).
  assert (H2 : ∀ f, f ∈ Cron.times → f ∈ Cron.columns ++ Cron.times) by (intros; apply elem_of_app; by right).
  intros H. rewrite (collect_all_frame _ _ _ _ H2 H), (collect_all_frame _ _ _ _ H1 E). apply dget_dset_ne, (apart_name _ _ _ Hk).
Qed.
End frames.

(** They keep the keys distinct. *)
Lemma to_db_NoDup d d' name prefix : NoDup (dkeys d) → Cron.convert_schedule_to_db_format d name prefix true = Ret d' → NoDup (dkeys d').
Proof.
  intros Hn. unfold Cron.convert_schedule_to_db_format. destruct (dget d name) as [v|]; [|by intros [= <-]].
  assert (Hd : NoDup (dkeys (ddel d name))) by by apply ddel_NoDup. revert Hd. generalize (ddel d name). generalize (Cron.columns ++ Cron.times). intros fields acc.
  destruct (Cron.is_None v).
  { intros Hd [= <-]. revert acc Hd. induction fields as [|f fields IH]; intros acc Hd; [done|]. cbn [foldl]. by apply IH, dset_NoDup. }
  revert acc; induction fields as [|[f db] fields IH]; intros acc Hd; cbn [Cron.fill]; [by intros [= <-]|].
  destruct (Cron.v_in _ _) as [[]|]; cbn [mbind outcome_bind]; [|by apply IH|done].
  destruct (Cron.v_item _ _) as [x|]; cbn [mbind outcome_bind]; [by apply IH, dset_NoDup|done].
Qed.

Lemma collect_all_NoDup name prefix show fields : ∀ d d', NoDup (dkeys d) → Cron.collect_all name prefix show fields d = Ret d' → NoDup (dkeys d').
Proof.
  induction fields as [|f fields IH]; intros d d' Hd; cbn [Cron.collect_all]; [by intros [= <-]|].
  destruct (Cron.collect name prefix show d f) as [d1|] eqn:E; cbn [mbind outcome_bind]; [|done]. apply IH. revert E. unfold Cron.collect.
  destruct (dget d _) as [v|]; [|by intros [= <-]]. destruct (Cron.is_None v); [|destruct (dget (ddel d _) name) as [[]|]]; try done; intros [= <-]; auto using dset_NoDup, ddel_NoDup.
Qed.

Lemma from_db_NoDup d d' name prefix : NoDup (dkeys d) → Cron.convert_db_format_to_schedule d name prefix true = Ret d' → NoDup (dkeys d').
Proof.
  intros Hn. unfold Cron.convert_db_format_to_schedule. destruct (Cron.collect_all _ _ _ Cron.columns _) as [d1|] eqn:E; cbn [mbind outcome_bind]; [|done].
  apply collect_all_NoDup. eapply collect_all_NoDup; [|done]. by apply dset_NoDup.
Qed.

(** Facts about given keys, by computation. *)
Ltac by_decide := apply (bool_decide_unpack _); vm_compute; exact Logic.I.

(** ** What only reads *)

Notation Tables := (list pydict * list pydict * list pydict)%type.
Definition tabs (s : Tasks) : Tables := (s.(snaps), s.(repls), s.(binds)).
Definition fixed (t : Tables) (s : Tasks) : Prop := tabs s = t.

Section reads.
Context (w : World) (t : Tables).

Lemma keeps_liftT {A} (o : outcome exn A) : keeps (fixed t) (liftT o).
Proof. by intros s. Qed.
Lemma keeps_query_snaps : keeps (fixed t) (query_snaps w).
Proof. by intros s. Qed.
Lemma keeps_query_repls : keeps (fixed t) (query_repls w).
Proof. by intros s. Qed.
Lemma keeps_on_z {A} (m : M (ZState pyval) exn A) : keeps (fixed t) (on_z m).
Proof. intros s Hs. unfold on_z. by destruct (m (z s)). Qed.
Lemma keeps_modify_tabs (f : Tasks → Tasks) : (∀ s, tabs (f s) = tabs s) → keeps (fixed t) (modify f : M Tasks exn unit).
Proof. intros Hf s Hs. unfold modify, fixed in *. cbn. by rewrite Hf. Qed.
End reads.

#[export] Hint Resolve keeps_liftT keeps_query_snaps keeps_query_repls keeps_on_z : keeps.
#[export] Hint Extern 1 (keeps (fixed _) (modify _)) => (apply keeps_modify_tabs; intros; reflexivity) : keeps.

Lemma keeps_get_definition w t : keeps (fixed t) (get_definition w).
Proof. unfold get_definition. keeps_tac. Qed.
#[export] Hint Resolve keeps_get_definition : keeps.

Lemma keeps_notify w t d : keeps (fixed t) (notify w d).
Proof. unfold notify. keeps_tac. Qed.
Lemma keeps_set_error_state w t e : keeps (fixed t) (set_error_state w e).
Proof. unfold set_error_state. keeps_tac. Qed.
#[export] Hint Resolve keeps_notify keeps_set_error_state : keeps.

Lemma keeps_start w t : keeps (fixed t) (start w).
Proof. unfold start. keeps_tac. Qed.
Lemma keeps_stop t : keeps (fixed t) stop.
Proof. unfold stop. keeps_tac. Qed.
#[export] Hint Resolve keeps_start keeps_stop : keeps.

Lemma keeps_update_tasks w t : keeps (fixed t) (update_tasks w).
Proof. unfold update_tasks. keeps_tac. Qed.
Lemma keeps_get_snap w t id : keeps (fixed t) (get_snap w id).
Proof. unfold get_snap. keeps_tac. Qed.
Lemma keeps_get_repl w t id : keeps (fixed t) (get_repl w id).
Proof. unfold get_repl. keeps_tac. Qed.
Lemma keeps_validate_repl w t data id : keeps (fixed t) (validate_repl w data id).
Proof. unfold validate_repl. keeps_tac. Qed.
#[export] Hint Resolve keeps_update_tasks keeps_get_snap keeps_get_repl keeps_validate_repl : keeps.

(** ** What a query says of a row *)

Definition headed (r : pydict) : Prop := ∃ z d, r = ("id", PInt z) :: d.

(** The snapshot tasks bound to a replication. *)
Definition tasks_of (B : list pydict) (id : pyval) : list pyval := (λ b, col b "task_id") <$> List.filter (eq_col "replication_id" id) B.

Definition seen (B : list pydict) (r x : pydict) : Prop :=
  (∀ k, k ∈ ["id"; "enabled"; "direction"; "name"] → col x k = col r k) ∧ (NoDup (dkeys r) → NoDup (dkeys x)) ∧
  bound_ids x = tasks_of B (col r "id") ∧
  (col r "direction" = PStr "PUSH" → col x "also_include_naming_schema" = col r "naming_schema" ∧ col x "naming_schema" = PList []) ∧
  (col r "direction" = PStr "PULL" → col x "also_include_naming_schema" = PList [] ∧ col x "naming_schema" = col r "naming_schema").

Lemma col_frame (d d' : pydict) k : dget d' k = dget d k → col d' k = col d k.
Proof. unfold col. by intros ->. Qed.

Lemma extend_task_id t x : headed t → extend_task (PDict (raw_task t)) = Ret x → ∃ d, x = PDict d ∧ col d "id" = col t "id".
Proof.
  intros (n & d & ->). unfold extend_task. destruct (Cron.convert_db_format_to_schedule _ _ _ _) as [d'|] eqn:E; cbn [mbind outcome_bind]; [|done].
  intros [= <-]. exists d'. split; [done|]. apply (from_db_frame _ _ "id") in E; [|done]. apply col_frame in E. by rewrite E.
Qed.

Lemma row_of_ref b S : keyed S = true → refers "task_id" S b = true → ∃ r, row_of (col b "task_id") S = Some r ∧ r ∈ S ∧ col r "id" = col b "task_id".
Proof.
  unfold refers. intros Hk Hr. apply bool_decide_eq_true in Hr. unfold ids in Hr. apply list_elem_of_fmap in Hr as (r & Hr & Hin).
  destruct (keyed_row S r Hk Hin) as [n Hn]. assert (Hc : col r "id" = PInt n) by (unfold col; by rewrite Hn).
  rewrite Hr, Hc. unfold row_of. destruct (List.filter (eq_col "id" (PInt n)) S) as [|r' l] eqn:E.
  - assert (Hf : r ∈ List.filter (eq_col "id" (PInt n)) S) by (apply filter_elem; split; [done|]; unfold eq_col; rewrite Hc; cbn; apply Z.eqb_refl).
    rewrite E in Hf. by apply not_elem_of_nil in Hf.
  - assert (Hf : r' ∈ List.filter (eq_col "id" (PInt n)) S) by (rewrite E; left). apply filter_elem in Hf as [Hr' He].
    exists r'. split_and!; [done|done|]. rewrite (keyed_same S r' r (PInt n) Hk Hr' Hin He); [done|]. unfold eq_col. rewrite Hc. cbn. apply Z.eqb_refl.
Qed.

Lemma bound_rows_ids s id l : keyed s.(snaps) = true → forallb (refers "task_id" s.(snaps)) s.(binds) = true → (∀ r, r ∈ s.(snaps) → headed r) →
  mapO extend_task (PDict <$> bound_rows s id) = Ret l →
  (λ t, match t with PDict d => col d "id" | _ => PNone end) <$> l = tasks_of s.(binds) id.
Proof.
  intros Hk Hf Hh. unfold bound_rows, tasks_of. revert l. induction s.(binds) as [|b B IH]; intros l; [by intros [= <-]|].
  cbn [forallb] in Hf. apply andb_true_iff in Hf as [Hb Hf]. specialize (IH Hf). cbn [List.filter]. destruct (eq_col "replication_id" id b); [|apply IH].
  destruct (row_of_ref b _ Hk Hb) as (r & Hr & Hin & Hid). cbn [omap list_omap]. rewrite Hr.
  change (PDict <$> (raw_task r :: ?x)) with (PDict (raw_task r) :: (PDict <$> x)). cbn [mapO].
  destruct (extend_task _) as [x|] eqn:E; cbn [mbind outcome_bind]; [|done]. destruct (mapO _ _) as [xs|] eqn:Es; cbn [mbind outcome_bind]; [|done].
  intros [= <-]. destruct (extend_task_id _ _ (Hh r Hin) E) as (d & -> & Hd). cbn. f_equal; [by rewrite Hd|]. by apply IH.
Qed.

(** Both schedules of a replication. *)
Definition apart_repl (k : string) : bool := apart "schedule" "schedule_" k && apart "restrict_schedule" "restrict_schedule_" k.

Lemma extend_repl_spec w s st r x : keyed s.(snaps) = true → forallb (refers "task_id" s.(snaps)) s.(binds) = true → (∀ t, t ∈ s.(snaps) → headed t) →
  extend_repl st (datastore_repl w s r) = Ret x → seen s.(binds) r x.
Proof.
  intros Hk Hf Hh. unfold extend_repl.
  assert (Hp : col (datastore_repl w s r) "periodic_snapshot_tasks" = PList (PDict <$> bound_rows s (col r "id"))) by (apply col_dset).
  rewrite Hp. cbn [py_iter mbind outcome_bind]. destruct (mapO extend_task _) as [tasks|] eqn:Et; cbn [mbind outcome_bind]; [|done].
  apply (bound_rows_ids s) in Et; [|done..].
  set (d1 := dset (datastore_repl w s r) "periodic_snapshot_tasks" (PList tasks)).
  assert (H1 : ∀ k, k ∉ ["periodic_snapshot_tasks"; "ssh_credentials"] → col d1 k = col r k).
  { intros k. rewrite !not_elem_of_cons. intros (? & ? & _). unfold d1, datastore_repl. by rewrite !col_dset_ne by done. }
  assert (N1 : NoDup (dkeys r) → NoDup (dkeys d1)) by (intros; unfold d1, datastore_repl; by repeat apply dset_NoDup).
  assert (Hdir : col d1 "direction" = col r "direction") by (apply H1; by_decide).
  set (d2 := if py_eq (col d1 "direction") (PStr "PUSH") then _ else d1).
  set (d3 := if py_eq (col d2 "direction") (PStr "PULL") then _ else d2).
  assert (H3 : ∀ k, k ∉ ["also_include_naming_schema"; "naming_schema"] → col d3 k = col d1 k).
  { intros k. rewrite !not_elem_of_cons. intros (? & ? & _). unfold d3, d2. repeat (destruct (py_eq _ _); rewrite ?col_dset_ne by done); done. }
  assert (N3 : NoDup (dkeys r) → NoDup (dkeys d3)) by (intros Hn; unfold d3, d2; repeat destruct (py_eq _ _); auto using dset_NoDup).
  destruct (Cron.convert_db_format_to_schedule d3 _ _ _) as [d4|] eqn:E4; cbn [mbind outcome_bind]; [|done].
  destruct (Cron.convert_db_format_to_schedule d4 _ _ _) as [d5|] eqn:E5; cbn [mbind outcome_bind]; [|done].
  assert (H5 : ∀ k, apart_repl k = true → col d5 k = col d3 k).
  { intros k [Ha Hb]%andb_true_iff. apply col_frame. rewrite (from_db_frame _ _ _ Hb _ _ E5). apply (from_db_frame _ _ _ Ha _ _ E4). }
  destruct (state_of st _) as [| | | | |task]; try done. intros [= <-].
  assert (H6 : ∀ k, apart_repl k = true → k ∉ ["state"; "job"] → col (dset (dset d5 "state" (PDict (ddel task "job"))) "job" (or_else PNone (dget task "job"))) k = col d3 k).
  { intros k Ha. rewrite !not_elem_of_cons. intros (? & ? & _). rewrite !col_dset_ne by done. by apply H5. }
  split; [|split; [|split; [|split]]].
  - intros k Hin. rewrite H6, H3, H1; [done|..]; revert k Hin; apply Forall_forall; by_decide.
  - intros Hn. do 2 apply dset_NoDup. eapply from_db_NoDup; [|exact E5]. eapply from_db_NoDup; [|exact E4]. by apply N3.
  - unfold bound_ids. rewrite H6, H3 by by_decide. unfold d1. by rewrite col_dset.
  - intros Hd. rewrite !H6 by by_decide. assert (E2 : d2 = dset (dset d1 "also_include_naming_schema" (col d1 "naming_schema")) "naming_schema" (PList [])) by (unfold d2; by rewrite Hdir, Hd).
    assert (E3 : d3 = d2) by (unfold d3; rewrite E2, !col_dset_ne, Hdir, Hd by done; done). rewrite E3, E2. rewrite col_dset_ne, !col_dset by done. split; [|done]. apply H1. by_decide.
  - intros Hd. rewrite !H6 by by_decide. assert (E2 : d2 = d1) by (unfold d2; by rewrite Hdir, Hd).
    assert (E3 : d3 = dset d1 "also_include_naming_schema" (PList [])) by (unfold d3; rewrite E2, Hdir, Hd; done). rewrite E3, col_dset, col_dset_ne by done. split; [done|]. apply H1. by_decide.
Qed.

Lemma query_repls_spec w s l : keyed s.(snaps) = true → forallb (refers "task_id" s.(snaps)) s.(binds) = true → (∀ t, t ∈ s.(snaps) → headed t) →
  (query_repls w s).1 = Ret l → Forall2 (seen s.(binds)) s.(repls) l.
Proof.
  intros Hk Hf Hh. unfold query_repls. cbn [fst]. destruct (get_state_dict _ _) as [st|]; cbn [mbind outcome_bind]; [|done].
  rewrite mapO_Ret, Forall2_fmap_l. intros H. eapply Forall2_impl; [exact H|]. intros r x Hx. by eapply extend_repl_spec.
Qed.
