(* ===== verification/ReplicationInv.v ===== *)
(** * Snapshot and replication tasks: the invariant of the tables

    Which states the services can reach: what validation guarantees, what storing the
    bindings of a replication does, and that every call keeps the invariant. *)

From S2P Require Import Prelude PyValue Schema SchemaResolve Filter PyNum Validators ValidatorsFacts PyPath Rows Zettarepl Replication ReplicationFacts.

(** ** The invariant *)

Definition is_bool (v : pyval) : bool := match v with PBool _ => true | _ => false end.
Definition is_list (v : pyval) : bool := match v with PList _ => true | _ => false end.
Definition is_direction (v : pyval) : Prop := v = PStr "PUSH" ∨ v = PStr "PULL".

Definition enabled (r : pydict) : bool := truthy (col r "enabled").
Definition pair_of (b : pydict) : pyval * pyval := (col b "replication_id", col b "task_id").

Definition sound3 (S R B : list pydict) : Prop :=
  (keyed S = true ∧ keyed R = true ∧ keyed B = true) ∧ fk "replication_id" R B ∧ fk "task_id" S B.

Lemma tasks_sound_spec s : sound s = true ↔ sound3 s.(snaps) s.(repls) s.(binds).
Proof. unfold sound, sound3, fk. simpl. rewrite !andb_true_iff. tauto. Qed.

Record tasks_ok (S R B : list pydict) : Prop := mkTasksOk {
  ok_sound : sound3 S R B;
  ok_snaps : ∀ t, t ∈ S → headed t ∧ NoDup (dkeys t);
  ok_repls : ∀ r, r ∈ R → headed r ∧ NoDup (dkeys r) ∧ is_bool (col r "enabled") = true ∧ is_direction (col r "direction") ∧
    is_list (col r "naming_schema") = true;
  ok_pairs : NoDup (pair_of <$> B);
  (** an enabled replication is bound to enabled tasks only *)
  ok_enabled : ∀ r, r ∈ R → enabled r = true → ∀ t, t ∈ S → col t "id" ∈ tasks_of B (col r "id") → enabled t = true;
  (** and has snapshots to send *)
  ok_sends : ∀ r, r ∈ R → enabled r = true → col r "direction" = PStr "PUSH" →
    tasks_of B (col r "id") ≠ [] ∨ truthy (col r "naming_schema") = true;
  ok_pull : ∀ r, r ∈ R → col r "direction" = PStr "PULL" → tasks_of B (col r "id") = [];
}.

Definition ok (s : Tasks) : Prop := tasks_ok s.(snaps) s.(repls) s.(binds).

(** ** What validation guarantees *)

Lemma fail_if_nil b field msg v : fail_if b field msg v = [] → b = false ∧ v = [].
Proof. unfold fail_if. destruct b; [|done]. intros H. by apply app_nil in H as [_ ?]. Qed.

Lemma add_each_nil {A} (bad : A → bool) field msg l : ∀ i v, add_each bad field msg i l v = [] → v = [] ∧ ∀ x, x ∈ l → bad x = false.
Proof.
  induction l as [|x l IH]; intros i v; cbn [add_each]; [intros ->; split; [done|]; by intros ? ?%not_elem_of_nil|].
  intros [H Hl]%IH. destruct (bad x) eqn:E; [by apply app_nil in H as [_ ?]|]. split; [done|]. intros y [->|Hy]%elem_of_cons; auto.
Qed.

Lemma fold_fail_nil {A} (f : A → bool) (g h : A → string) l : ∀ v, foldl (λ v k, fail_if (f k) (g k) (h k) v) v l = [] → v = [].
Proof. induction l as [|x l IH]; intros v; [done|]. cbn [foldl]. intros [_ ?]%IH%fail_if_nil. done. Qed.

Lemma foldO_nil {A} (f : verrs → A → outcome exn verrs) l : (∀ v x, f v x = Ret [] → v = []) → ∀ v, foldO f v l = Ret [] → v = [].
Proof.
  intros Hf. induction l as [|x l IH]; intros v; cbn [foldO]; [by intros [= ->]|]. destruct (f v x) as [v1|] eqn:E; cbn [mbind outcome_bind]; [|done].
  intros ->%IH. by eapply Hf.
Qed.

Ltac nil_tac := repeat match goal with
  | H : fail_if _ _ _ _ = [] |- _ => apply fail_if_nil in H as [? H]
  | H : foldl _ _ _ = [] |- _ => apply fold_fail_nil in H
  | H : VErrors.add _ _ _ _ = [] |- _ => apply app_nil in H as [_ H]
  | H : Ret _ = Ret _ |- _ => injection H as H
  end.

Lemma check_transport_nil w data v : check_transport w data v = Ret [] → v = [].
Proof.
  unfold check_transport. destruct (py_eq _ (PStr "SSH+NETCAT")).
  - match goal with |- context [if ?b then py_lt ?x ?y else ?r] => destruct (if b then py_lt x y else r) as [wrong|] end; cbn [mbind outcome_bind]; [|done].
    destruct (py_eq _ (PStr "LOCAL")); [intros H; by nil_tac|]. destruct (negb _); [intros H; by nil_tac|].
    destruct (get_of_type _ _ _); [intros H; by nil_tac|]. destruct (is_call_error _); [intros H; by nil_tac|done].
  - cbn [mbind outcome_bind].
    destruct (py_eq _ (PStr "LOCAL")); [intros H; by nil_tac|]. destruct (negb _); [intros H; by nil_tac|].
    destruct (get_of_type _ _ _); [intros H; by nil_tac|]. destruct (is_call_error _); [intros H; by nil_tac|done].
Qed.

Lemma check_excluded_nil w data i source task v : check_excluded w data i source task v = Ret [] → v = [].
Proof.
  unfold check_excluded. destruct (is_child _ _ _) as [inside|]; cbn [mbind outcome_bind]; [|done].
  destruct (texts (col task "exclude")) as [ex|]; cbn [mbind outcome_bind]; [|done]. destruct (texts _) as [mine|]; cbn [mbind outcome_bind]; [|done].
  destruct (negb inside); [by intros [= ->]|]. destruct (truthy _); [|intros H; by nil_tac].
  apply foldO_nil. intros v' x. destruct (is_child _ _ _); cbn [mbind outcome_bind]; [|done]. intros H. by nil_tac.
Qed.

Lemma check_sources_nil w data tasks sources : ∀ i v, check_sources w data tasks i sources v = Ret [] → v = [].
Proof.
  induction sources as [|x l IH]; intros i v; cbn [check_sources]; [by intros [= ->]|].
  destruct (foldO _ _ _) as [v1|] eqn:E; cbn [mbind outcome_bind]; [|done]. intros ->%IH. apply foldO_nil in E; [done|]. intros; by eapply check_excluded_nil.
Qed.

Lemma check_common_nil data sources exclude v : check_common data sources exclude v = [] → v = [].
Proof.
  unfold check_common. intros H. destruct (py_eq _ (PStr "CUSTOM")); nil_tac; (destruct (truthy (col data "schedule")); nil_tac);
    (destruct (truthy (col data "encryption")); nil_tac); (destruct (truthy (col data "replicate")); nil_tac).
  all: apply add_each_nil in H as [H _]; nil_tac; done.
Qed.

Lemma find_tasks_nil found wanted : ∀ i v v' l, find_tasks found i wanted v = (v', l) → v' = [] →
  v = [] ∧ Forall2 (λ id t, List.find (eq_col "id" id) found = Some t) wanted l.
Proof.
  induction wanted as [|id wanted IH]; intros i v v' l; cbn [find_tasks]; [intros [= <- <-]; by split|].
  destruct (List.find _ _) as [t|] eqn:E.
  - destruct (find_tasks found (S i) wanted v) as [v1 l1] eqn:E1. intros [= <- <-] ->. destruct (IH _ _ _ _ E1 eq_refl). split; [done|by constructor].
  - intros H ->. destruct (IH _ _ _ _ H eq_refl) as [Hv _]. by apply app_nil in Hv as [_ ?].
Qed.

Lemma query_snaps_spec w s l : (query_snaps w s).1 = Ret l →
  Forall2 (λ t x, (∀ k, k ∈ ["id"; "enabled"] → col x k = col t k) ∧ (NoDup (dkeys t) → NoDup (dkeys x))) s.(snaps) l.
Proof.
  unfold query_snaps. cbn [fst]. destruct (get_state_dict _ _) as [st|]; cbn [mbind outcome_bind]; [|done].
  rewrite mapO_Ret. intros H. eapply Forall2_impl; [exact H|]. intros t x. unfold extend_snap.
  destruct (Cron.convert_db_format_to_schedule t _ _ _) as [d|] eqn:E; cbn [mbind outcome_bind]; [|done].
  destruct (anyO _ _) as [sync|]; cbn [mbind outcome_bind]; [|done]. intros [= <-]. split.
  - intros k Hk. assert (Ha : k ≠ "state" ∧ k ≠ "vmware_sync" ∧ apart "schedule" "" k = true) by (revert k Hk; apply Forall_forall; by_decide).
    destruct Ha as (? & ? & Ha). rewrite !col_dset_ne by congruence. apply col_frame. by eapply from_db_frame.
  - intros Hn. do 2 apply dset_NoDup. by eapply from_db_NoDup.
Qed.

(** What is known of data that passed validation, over the snapshot tasks [S]. *)
Definition validated (S : list pydict) (data : pydict) : Prop :=
  (col data "direction" = PStr "PUSH" → ∃ wanted, py_iter (col data "periodic_snapshot_tasks") = Ret wanted ∧
     (∀ v, v ∈ wanted → ∃ t, t ∈ S ∧ py_eq (col t "id") v = true ∧ (enabled data = true → enabled t = true)) ∧
     (wanted ≠ [] ∨ truthy (col data "also_include_naming_schema") = true)) ∧
  (col data "direction" = PStr "PULL" → truthy (col data "periodic_snapshot_tasks") = false).

Lemma validate_spec w data id s : is_direction (col data "direction") →
  (validate_repl w data id s).1 = Ret [] → validated s.(snaps) data.
Proof.
  intros Hdir. unfold validate_repl, mbind, M_bind. unfold query_repls at 1. destruct (_ ≫= _) as [l|]; [|done].
  set (v0 := fail_if _ "name" _ []). destruct Hdir as [Hd|Hd]; rewrite Hd.
  - change (py_eq (PStr "PUSH") (PStr "PUSH")) with true. change (py_eq (PStr "PUSH") (PStr "PULL")) with false. cbn match.
    destruct (py_iter _) as [wanted|] eqn:Ew; [|done]. unfold liftT at 1. cbn beta iota. pose proof (query_snaps_spec w s) as Hq. unfold query_snaps in *.
    destruct (_ ≫= _) as [found|]; [|done]. specialize (Hq found eq_refl). destruct (find_tasks found 0 wanted []) as [e tasks] eqn:Ef. cbn [mret M_ret]. unfold liftT.
    destruct (check_transport _ _ _) as [v1|] eqn:E1; [|done]. destruct (texts _) as [sources|]; [|done]. destruct (texts _) as [exclude|]; [|done].
    destruct (check_sources _ _ _ _ _ _) as [v2|] eqn:E2; [|done]. intros [= H]. split; [intros _|by rewrite Hd]. unfold check_enabled in H.
    assert (Hen : (enabled data = true → ∀ t, t ∈ tasks → enabled t = true) ∧ check_common data sources exclude v2 = []).
    { unfold enabled. destruct (truthy (col data "enabled")); [|done]. apply add_each_nil in H as [H Ha]. split; [|done]. intros _ t Ht. by apply negb_false_iff, Ha. }
    destruct Hen as [Hen Hc]. apply check_common_nil in Hc as ->. apply check_sources_nil in E2 as ->. apply check_transport_nil in E1.
    unfold check_push in E1. nil_tac. rewrite VErrors.add_child_app in E1. apply app_nil in E1 as [_ E1]. apply fmap_nil_inv in E1.
    destruct (find_tasks_nil _ _ _ _ _ _ Ef E1) as [_ Hf]. exists wanted. split; [done|]. split.
    + intros v Hv. apply list_elem_of_lookup in Hv as [i Hi]. destruct (Forall2_lookup_l _ _ _ _ _ Hf Hi) as (x & Hx & Hfind).
      apply find_some in Hfind as [Hin Heq]. apply list_elem_of_In, list_elem_of_lookup in Hin as [j Hj].
      destruct (Forall2_lookup_r _ _ _ _ _ Hq Hj) as (t & Ht & Hcol & _). exists t. split; [by apply list_elem_of_lookup; exists j|].
      unfold eq_col in Heq. rewrite Hcol in Heq by by_decide. split; [done|]. intros He. unfold enabled. rewrite <-Hcol by by_decide.
      apply (Hen He). apply list_elem_of_lookup. by exists i.
    + destruct tasks; [|left; intros ->; by inversion Hf]. right. cbn in *. match goal with H : negb _ = false |- _ => by apply negb_false_iff in H end.
  - change (py_eq (PStr "PULL") (PStr "PUSH")) with false. change (py_eq (PStr "PULL") (PStr "PULL")) with true. cbn match. cbn [mret M_ret]. unfold liftT.
    destruct (check_transport _ _ _) as [v1|] eqn:E1; [|done]. destruct (texts _) as [sources|]; [|done]. destruct (texts _) as [exclude|]; [|done].
    destruct (check_sources _ _ _ _ _ _) as [v2|] eqn:E2; [|done]. intros [= H]. split; [by rewrite Hd|intros _]. unfold check_enabled in H.
    assert (Hc : check_common data sources exclude v2 = []) by (destruct (truthy (col data "enabled")); [by apply add_each_nil in H as [H _]|done]).
    apply check_common_nil in Hc as ->. apply check_sources_nil in E2 as ->. apply check_transport_nil in E1. unfold check_pull in E1. by nil_tac.
Qed.

(** ** Storing the bindings of a replication *)

Lemma write_ok f s : sound (f s) = true → write f s = (Ret tt, f s).
Proof. unfold write. by intros ->. Qed.

Lemma insert_bind_ok S R B id v s : tabs s = (S, R, B) → sound3 S R B → id ∈ ids R → v ∈ ids S →
  ∃ b s', insert_bind [("replication_id", id); ("task_id", v)] s = (Ret tt, s') ∧ tabs s' = (S, R, B ++ [b]) ∧ pair_of b = (id, v) ∧ sound3 S R (B ++ [b]).
Proof.
  unfold tabs. intros [= HS HR HB] ((HkS & HkR & HkB) & HfR & HfS) Hid Hv. set (b := new_row B [("replication_id", id); ("task_id", v)]).
  assert (Hs : sound3 S R (B ++ [b])).
  { split; [split_and!; [done|done|by apply keyed_new]|]. unfold fk in *. rewrite !forallb_app, HfR, HfS. cbn [forallb andb]. rewrite !andb_true_r.
    unfold refers, b, new_row, col. cbn. by rewrite !bool_decide_eq_true_2. }
  exists b, (set_binds (B ++ [b]) s). split_and!; [|cbn; congruence|done|done].
  unfold insert_bind, mbind, M_bind, get_state. rewrite HB. apply write_ok, tasks_sound_spec. cbn. by rewrite HS, HR.
Qed.

Lemma insert_binds_ok S R id wanted : ∀ B s, tabs s = (S, R, B) → sound3 S R B → id ∈ ids R → (∀ v, v ∈ wanted → v ∈ ids S) →
  ∃ news s', forM wanted (λ t, insert_bind [("replication_id", id); ("task_id", t)]) s = (Ret tt, s') ∧ tabs s' = (S, R, B ++ news) ∧
    sound3 S R (B ++ news) ∧ pair_of <$> news = (λ v, (id, v)) <$> wanted.
Proof.
  induction wanted as [|v wanted IH]; intros B s Ht Hs Hid Hw.
  - exists [], s. rewrite app_nil_r. split_and!; try done. 
  - destruct (insert_bind_ok S R B id v s Ht Hs Hid (Hw v ltac:(left))) as (b & s1 & H1 & Ht1 & Hb & Hs1).
    destruct (IH (B ++ [b]) s1 Ht1 Hs1 Hid ltac:(intros; apply Hw; by right)) as (news & s2 & H2 & Ht2 & Hs2 & Hp).
    exists (b :: news), s2. rewrite <-app_assoc in Ht2, Hs2. split_and!; [|done|done|].
    + cbn [forM]. unfold mbind, M_bind. by rewrite H1.
    + rewrite !fmap_cons, Hb, Hp. done.
Qed.

Lemma set_periodic_ok S R B id wanted s : tabs s = (S, R, B) → sound3 S R B → id ∈ ids R → (∀ v, v ∈ wanted → v ∈ ids S) →
  ∃ news s', set_periodic_snapshot_tasks id wanted s = (Ret tt, s') ∧ tabs s' = (S, R, without "replication_id" id B ++ news) ∧
    sound3 S R (without "replication_id" id B ++ news) ∧ pair_of <$> news = (λ v, (id, v)) <$> wanted.
Proof.
  intros Ht Hs Hid Hw. set (B1 := without "replication_id" id B).
  assert (Hs1 : sound3 S R B1).
  { destruct Hs as ((? & ? & HkB) & HfR & HfS). unfold B1, without. split; [split_and!; [done|done|by apply keyed_filter]|].
    unfold fk in *. rewrite !forallb_forall in *. split; intros b [Hb _]%filter_In; auto. }
  assert (Hw1 : write (λ s, set_binds (without "replication_id" id s.(binds)) s) s = (Ret tt, set_binds B1 s)).
  { unfold tabs in Ht. injection Ht as HS HR HB. unfold write. rewrite HB. fold B1. cbn beta. assert (sound (set_binds B1 s) = true) as -> by (apply tasks_sound_spec; cbn; by rewrite HS, HR). done. }
  destruct (insert_binds_ok S R id wanted B1 (set_binds B1 s)) as (news & s' & H & Ht' & Hs' & Hp); [|done..|].
  { unfold tabs in *. cbn. congruence. }
  exists news, s'. split_and!; [|done|done|done]. unfold set_periodic_snapshot_tasks, mbind, M_bind. by rewrite Hw1.
Qed.

(** What is bound afterwards. *)
Lemma pairs_tasks B id : tasks_of B id = snd <$> List.filter (λ p, py_eq p.1 id) (pair_of <$> B).
Proof.
  unfold tasks_of, eq_col. induction B as [|b B IH]; [done|]. cbn [List.filter fmap list_fmap pair_of fst]. destruct (py_eq _ _); [|done].
  cbn [fmap list_fmap snd]. f_equal. exact IH.
Qed.

Lemma tasks_of_set B news id wanted n : id = PInt n → pair_of <$> news = (λ v, (id, v)) <$> wanted →
  tasks_of (without "replication_id" id B ++ news) id = wanted.
Proof.
  intros -> Hp. rewrite pairs_tasks, fmap_app, Hp, List.filter_app, fmap_app. 
  assert (E1 : List.filter (λ p, py_eq p.1 (PInt n)) (pair_of <$> without "replication_id" (PInt n) B) = []).
  { unfold without, eq_col. induction B as [|b B IH]; [done|]. cbn [List.filter]. destruct (py_eq (col b "replication_id") (PInt n)) eqn:E; [done|]. cbn. by rewrite E. }
  rewrite E1. cbn [fmap list_fmap app]. clear. induction wanted as [|v wanted IH]; [done|]. cbn [fmap list_fmap List.filter fst].
  replace (py_eq (PInt n) (PInt n)) with true by (symmetry; cbn; apply Z.eqb_refl). cbn [fmap list_fmap snd]. f_equal. exact IH.
Qed.

Lemma tasks_of_other B news id other wanted n m : id = PInt n → other = PInt m → n ≠ m → pair_of <$> news = (λ v, (id, v)) <$> wanted →
  tasks_of (without "replication_id" id B ++ news) other = tasks_of B other.
Proof.
  intros -> -> Hne Hp. rewrite pairs_tasks, fmap_app, Hp, List.filter_app, fmap_app. rewrite pairs_tasks.
  assert (E2 : List.filter (λ p, py_eq p.1 (PInt m)) ((λ v, (PInt n, v)) <$> wanted) = []).
  { clear -Hne. induction wanted as [|v wanted IH]; [done|]. cbn [fmap list_fmap List.filter fst].
    replace (py_eq (PInt n) (PInt m)) with false by (symmetry; cbn; by apply Z.eqb_neq). exact IH. }
  rewrite E2. cbn [fmap list_fmap]. rewrite app_nil_r. f_equal. unfold without, eq_col. clear -Hne. induction B as [|b B IH]; [done|]. cbn [List.filter].
  destruct (py_eq (col b "replication_id") (PInt n)) eqn:E; cbn [negb fmap list_fmap List.filter pair_of fst].
  - destruct (py_eq (col b "replication_id") (PInt m)) eqn:E'; [|exact IH]. exfalso. apply Hne.
    destruct (col b "replication_id"); try done; cbn in E, E'; apply Z.eqb_eq in E, E'; congruence.
  - destruct (py_eq _ (PInt m)); [f_equal|]; exact IH.
Qed.

(** A stored replication [r'], with what it is bound to. *)
Record stored (S : list pydict) (r' : pydict) (wanted : list pyval) : Prop := mkStored {
  st_row : headed r' ∧ NoDup (dkeys r') ∧ is_bool (col r' "enabled") = true ∧ is_direction (col r' "direction") ∧ is_list (col r' "naming_schema") = true;
  st_nodup : NoDup wanted;
  st_bound : ∀ v, v ∈ wanted → ∃ t, t ∈ S ∧ col t "id" = v ∧ (enabled r' = true → enabled t = true);
  st_push : col r' "direction" = PStr "PUSH" → wanted ≠ [] ∨ truthy (col r' "naming_schema") = true;
  st_pull : col r' "direction" = PStr "PULL" → wanted = [];
}.

Lemma headed_id r : headed r → ∃ n, col r "id" = PInt n.
Proof. intros (n & d & ->). by exists n. Qed.

Lemma pairs_set B news id wanted n : id = PInt n → NoDup (pair_of <$> B) → NoDup wanted → pair_of <$> news = (λ v, (id, v)) <$> wanted →
  NoDup (pair_of <$> (without "replication_id" id B ++ news)).
Proof.
  intros -> HB Hw Hp. rewrite fmap_app, Hp. apply NoDup_app. split_and!.
  - eapply sublist_NoDup; [exact HB|]. apply fmap_sublist. unfold without. clear. induction B as [|b B IH]; [done|]. cbn [List.filter]. destruct (negb _); by constructor.
  - intros p (b & -> & [_ Hb]%filter_elem)%list_elem_of_fmap (v & E & _)%list_elem_of_fmap. unfold pair_of in E. injection E as E _. unfold eq_col in Hb.
    rewrite E in Hb. cbn in Hb. by rewrite Z.eqb_refl in Hb.
  - apply NoDup_fmap_2; [|done]. by intros ? ? [= ->].
Qed.

Lemma stored_ok S R R' B r' wanted news : tasks_ok S R B → stored S r' wanted →
  (∀ r, r ∈ R' → r = r' ∨ (r ∈ R ∧ col r "id" ≠ col r' "id")) →
  pair_of <$> news = (λ v, (col r' "id", v)) <$> wanted →
  sound3 S R' (without "replication_id" (col r' "id") B ++ news) →
  tasks_ok S R' (without "replication_id" (col r' "id") B ++ news).
Proof.
  intros Hok [Hrow Hnd Hb Hpush Hpull] HR' Hp Hs. destruct (headed_id r') as [n Hn]; [apply Hrow|].
  assert (Hown : tasks_of (without "replication_id" (col r' "id") B ++ news) (col r' "id") = wanted) by (by eapply tasks_of_set).
  assert (Hother : ∀ r, r ∈ R → col r "id" ≠ col r' "id" → tasks_of (without "replication_id" (col r' "id") B ++ news) (col r "id") = tasks_of B (col r "id")).
  { intros r Hr Hne. destruct (headed_id r) as [m Hm]; [apply (ok_repls _ _ _ Hok r Hr)|]. eapply tasks_of_other; [done|done| |done]. congruence. }
  split.
  - done.
  - apply (ok_snaps _ _ _ Hok).
  - intros r [->|[Hr _]]%HR'; [done|by apply (ok_repls _ _ _ Hok)].
  - eapply pairs_set; [done|apply (ok_pairs _ _ _ Hok)|done|done].
  - intros r [->|[Hr Hne]]%HR' He t Ht.
    + rewrite Hown. intros (t' & Ht' & Hid & Hen)%Hb. destruct Hs as ((Hk & _) & _). destruct (headed_id t) as [i Hi]; [apply (ok_snaps _ _ _ Hok t Ht)|].
      rewrite (keyed_same S t t' (PInt i) Hk Ht Ht'); [by apply Hen|unfold eq_col; rewrite Hi; cbn; apply Z.eqb_refl|unfold eq_col; rewrite Hid, Hi; cbn; apply Z.eqb_refl].
    + rewrite (Hother r Hr Hne). by apply (ok_enabled _ _ _ Hok r Hr He).
  - intros r [->|[Hr Hne]]%HR' He Hd; [rewrite Hown; by apply Hpush|]. rewrite (Hother r Hr Hne). by apply (ok_sends _ _ _ Hok).
  - intros r [->|[Hr Hne]]%HR' Hd; [rewrite Hown; by apply Hpull|]. rewrite (Hother r Hr Hne). by apply (ok_pull _ _ _ Hok).
Qed.

(** ** Operations *)

Definition ok3 (t : Tables) : Prop := tasks_ok t.1.1 t.1.2 t.2.

Lemma ok_fixed t s : ok3 t → fixed t s → ok s.
Proof. intros Ht <-. exact Ht. Qed.

(** A step that only reads, and what it returns. *)
Lemma read_bind {A B} (m : M Tasks exn A) (k : A → M Tasks exn B) t (φ : A → Prop) :
  ok3 t → keeps (fixed t) m → (∀ s, fixed t s → match (m s).1 with Ret a => φ a | Raise _ => True end) →
  (∀ a, φ a → ∀ s, fixed t s → ok (k a s).2) → ∀ s, fixed t s → ok ((m ≫= k) s).2.
Proof.
  intros Ht Hm Hφ Hk s Hs. specialize (Hm s Hs). specialize (Hφ s Hs). unfold mbind, M_bind. destruct (m s) as [[a|e] s']; cbn in *; [by apply Hk|by eapply ok_fixed].
Qed.

Lemma read_only {A} (m : M Tasks exn A) t : ok3 t → keeps (fixed t) m → ∀ s, fixed t s → ok (m s).2.
Proof. intros Ht Hm s Hs. eapply ok_fixed; [exact Ht|]. by apply Hm. Qed.

(** The keys of a task that the invariant is about. *)
Definition kept_keys : list string := ["id"; "enabled"; "direction"; "name"].

Lemma compress_spec d d' : compress d = Ret d' → (NoDup (dkeys d) → NoDup (dkeys d')) ∧ (∀ k, k ∈ kept_keys → dget d' k = dget d k) ∧
  (col d "direction" = PStr "PUSH" → dget d' "naming_schema" = Some (col d "also_include_naming_schema")) ∧
  (col d "direction" = PStr "PULL" → dget d' "naming_schema" = dget d "naming_schema").
Proof.
  unfold compress. set (d0 := if py_eq _ _ then _ else d). destruct (Cron.convert_schedule_to_db_format _ "schedule" _ _) as [d1|] eqn:E1; cbn [mbind outcome_bind]; [|done].
  destruct (Cron.convert_schedule_to_db_format d1 _ _ _) as [d2|] eqn:E2; cbn [mbind outcome_bind]; [|done]. intros [= <-].
  assert (Hfr : ∀ k, apart_repl k = true → k ≠ "periodic_snapshot_tasks" → k ≠ "also_include_naming_schema" → dget (ddel d2 "periodic_snapshot_tasks") k = dget d0 k).
  { intros k [Ha Hb]%andb_true_iff ? ?. rewrite dget_ddel_ne by done. rewrite (to_db_frame _ _ _ Hb _ _ E2), (to_db_frame _ _ _ Ha _ _ E1). by rewrite dget_ddel_ne. }
  split_and!.
  - intros Hn. apply ddel_NoDup. eapply to_db_NoDup; [|exact E2]. eapply to_db_NoDup; [|exact E1]. apply ddel_NoDup. unfold d0. destruct (py_eq _ _); [by apply dset_NoDup|done].
  - intros k Hk. assert (Ha : apart_repl k = true ∧ k ≠ "periodic_snapshot_tasks" ∧ k ≠ "also_include_naming_schema" ∧ k ≠ "naming_schema") by (revert k Hk; apply Forall_forall; by_decide).
    destruct Ha as (? & ? & ? & ?). rewrite Hfr by done. unfold d0. destruct (py_eq _ _); [by rewrite dget_dset_ne by congruence|done].
  - intros Hd. rewrite Hfr by by_decide. unfold d0. rewrite Hd. apply dget_dset.
  - intros Hd. rewrite Hfr by by_decide. unfold d0. by rewrite Hd.
Qed.

(** The data of a call, as the schema of the method leaves it. *)
Definition task_list (v : pyval) : Prop := ∃ l, v = PList l ∧ NoDup l ∧ forallb is_int l = true.

Record repl_data_ok (data : pydict) : Prop := mkReplDataOk {
  rd_keys : NoDup (dkeys data);
  rd_id : "id" ∉ dkeys data;
  rd_enabled : ∀ v, dget data "enabled" = Some v → is_bool v = true;
  rd_direction : ∀ v, dget data "direction" = Some v → is_direction v;
  rd_naming : ∀ v, dget data "naming_schema" = Some v → is_list v = true;
  rd_also : ∀ v, dget data "also_include_naming_schema" = Some v → is_list v = true;
  rd_tasks : ∀ v, dget data "periodic_snapshot_tasks" = Some v → task_list v;
}.

Definition full (data : pydict) : Prop :=
  ∀ k, k ∈ ["enabled"; "direction"; "naming_schema"; "also_include_naming_schema"; "periodic_snapshot_tasks"] → dhas data k = true.

(** What validated data says about the row [r'] that is made from it. *)
Lemma stored_of S B R d d' r' l : tasks_ok S R B → validated S d → compress d = Ret d' →
  is_bool (col d "enabled") = true → is_direction (col d "direction") → is_list (col d "naming_schema") = true → is_list (col d "also_include_naming_schema") = true →
  col d "periodic_snapshot_tasks" = PList l → NoDup l → forallb is_int l = true →
  headed r' → NoDup (dkeys r') → col r' "enabled" = col d "enabled" → col r' "direction" = col d "direction" → col r' "naming_schema" = col d' "naming_schema" →
  stored S r' l.
Proof.
  intros Hok [Hpush Hpull] Hc Hen Hdir Hnam Halso Hl Hnd Hint Hh Hn E1 E2 E3. destruct (compress_spec d d' Hc) as (_ & _ & Cpush & Cpull).
  assert (Hnaming : is_list (col r' "naming_schema") = true).
  { rewrite E3. unfold col at 1. destruct Hdir as [Hd|Hd]; [by rewrite (Cpush Hd)|rewrite (Cpull Hd)]. exact Hnam. }
  assert (Hl' : py_iter (col d "periodic_snapshot_tasks") = Ret l) by (by rewrite Hl).
  split.
  - rewrite E1, E2. done.
  - done.
  - intros v Hv. destruct Hdir as [Hd|Hd].
    + destruct (Hpush Hd) as (wanted & Hw & Hbound & _). rewrite Hl' in Hw. injection Hw as <-. destruct (Hbound v Hv) as (t & Ht & Heq & He).
      exists t. split; [done|]. destruct (headed_id t) as [n Hid]; [apply (ok_snaps _ _ _ Hok t Ht)|]. pose proof (forallb_elem _ _ _ Hint Hv) as Hi.
      rewrite Hid in Heq |- *. destruct v; try done. cbn in Heq. apply Z.eqb_eq in Heq as ->. split; [done|]. unfold enabled. rewrite E1. exact He.
    + specialize (Hpull Hd). rewrite Hl in Hpull. destruct l; [by apply not_elem_of_nil in Hv|done].
  - rewrite E2. intros Hd. destruct (Hpush Hd) as (wanted & Hw & _ & Hsome). rewrite Hl' in Hw. injection Hw as <-. destruct Hsome as [?|Ht]; [by left|right].
    rewrite E3. unfold col at 1. by rewrite (Cpush Hd).
  - rewrite E2. intros Hd. specialize (Hpull Hd). rewrite Hl in Hpull. by destruct l.
Qed.

Lemma child_nil name v : VErrors.check (VErrors.add_child [] name v) = Ret tt → v = [].
Proof. rewrite VErrors.add_child_app. destruct v; [done|]. by intros [= H]. Qed.

(** The end of a call that changed the tables. *)
Lemma finish_ok {A} w (m : M Tasks exn A) s : ok s → (∀ t, keeps (fixed t) m) → ok ((update_tasks w;; m) s).2.
Proof.
  intros Hs Hm. apply (read_only _ (tabs s)); [exact Hs| |done]. apply keeps_bind; [apply keeps_update_tasks|intros; apply Hm].
Qed.

(** The row and its bindings are stored; the rest only reads. *)
Lemma store_bindings {A} w S R R' B r' id wanted (m : M Tasks exn A) s : tasks_ok S R B → stored S r' wanted →
  (∀ r, r ∈ R' → r = r' ∨ (r ∈ R ∧ col r "id" ≠ col r' "id")) → r' ∈ R' → id = col r' "id" →
  tabs s = (S, R', B) → sound3 S R' B → (∀ t, keeps (fixed t) m) →
  ok ((set_periodic_snapshot_tasks id wanted;; update_tasks w;; m) s).2.
Proof.
  intros Hok Hst HR' Hin -> Ht Hs Hm. destruct (set_periodic_ok S R' B (col r' "id") wanted s Ht Hs) as (news & s' & H & Ht' & Hs' & Hp).
  - by apply (list_elem_of_fmap_2 (λ r, col r "id")).
  - intros v Hv. destruct (st_bound _ _ _ Hst v Hv) as (t & Hin' & <- & _). by apply (list_elem_of_fmap_2 (λ r, col r "id")).
  - rewrite (bind_ret _ _ _ _ _ H). apply finish_ok; [|done]. unfold ok, tabs in *. injection Ht' as -> -> ->. by eapply stored_ok.
Qed.

Lemma full_col data k : full data → k ∈ ["enabled"; "direction"; "naming_schema"; "also_include_naming_schema"; "periodic_snapshot_tasks"] → dget data k = Some (col data k).
Proof. intros Hf Hk. specialize (Hf k Hk). unfold dhas in Hf. unfold col. by destruct (dget data k). Qed.

Lemma new_row_NoDup l d : NoDup (dkeys d) → NoDup (dkeys (new_row l d)).
Proof.
  intros Hn. unfold new_row, dkeys. cbn. constructor; [|by apply ddel_NoDup]. apply dget_None. by apply dget_ddel.
Qed.

Lemma new_row_col l d k : k ≠ "id" → col (new_row l d) k = col d k.
Proof. intros Hk. unfold new_row, col. cbn. rewrite decide_False by congruence. by rewrite dget_ddel_ne by congruence. Qed.

Lemma insert_repl_spec data s :
  let s' := set_repls (s.(repls) ++ [new_row s.(repls) (with_defaults repl_defaults data)]) s in
  insert_repl data s = if sound s' then (Ret (PInt (1 + max_id s.(repls))), s') else (Raise (OtherError "IntegrityError"), s).
Proof. cbn zeta. unfold insert_repl, mbind, M_bind, get_state, write. by destruct (sound _). Qed.

Lemma repl_create_ok w data s : repl_data_ok data → full data → ok s → ok (repl_create w data s).2.
Proof.
  intros Hd Hf Hs. set (t := tabs s). assert (Ht : ok3 t) by exact Hs. assert (Hfx : fixed t s) by done. clearbody t. clear Hs. revert s Hfx.
  pose proof (full_col data) as Hcol. destruct (rd_tasks _ Hd _ (Hcol "periodic_snapshot_tasks" Hf ltac:(by_decide))) as (l & Hl & Hnd & Hint).
  pose proof (rd_direction _ Hd _ (Hcol "direction" Hf ltac:(by_decide))) as Hdir. pose proof (rd_enabled _ Hd _ (Hcol "enabled" Hf ltac:(by_decide))) as Hen.
  pose proof (rd_naming _ Hd _ (Hcol "naming_schema" Hf ltac:(by_decide))) as Hnam. pose proof (rd_also _ Hd _ (Hcol "also_include_naming_schema" Hf ltac:(by_decide))) as Halso.
  unfold repl_create. apply (read_bind _ _ _ (λ v, v = [] → validated t.1.1 data) Ht); [apply keeps_validate_repl| |].
  { intros s Hs. destruct (validate_repl _ _ _ s).1 as [v|] eqn:E; [|done]. intros ->. rewrite <-Hs. by eapply validate_spec. }
  intros v Hv. apply (read_bind _ _ _ (λ _, v = []) Ht); [apply keeps_liftT| |].
  { intros s Hs. cbn. destruct (VErrors.check _) as [[]|] eqn:E; [|done]. by apply child_nil in E. }
  intros _ ->. specialize (Hv eq_refl). rewrite Hl. cbn [py_iter]. apply (read_bind _ _ _ (λ x, x = l) Ht); [apply keeps_liftT|by intros|]. intros ? ->.
  apply (read_bind _ _ _ (λ d', compress data = Ret d') Ht); [apply keeps_liftT|intros s _; cbn; by destruct (compress data)|]. intros d' Hc.
  destruct (compress_spec data d' Hc) as (Cn & Ck & Cpush & Cpull). intros s Hs. unfold mbind at 1, M_bind at 1. rewrite insert_repl_spec. cbn zeta.
  set (r' := new_row s.(repls) (with_defaults repl_defaults d')). destruct (sound _) eqn:Hsound; [|by eapply ok_fixed].
  assert (Hr' : ∀ k v, dget d' k = Some v → k ≠ "id" → col r' k = v).
  { intros k x Hk Hne. unfold r'. rewrite new_row_col by done. unfold with_defaults, col. by rewrite (dget_app_l _ _ _ x). }
  destruct t as [[S R] B]. unfold fixed, tabs in Hs. injection Hs as HS HR HB. unfold ok3 in Ht. cbn [fst snd] in Ht, Hv.
  eapply (store_bindings w S R (R ++ [r']) B r'); [exact Ht| | | | | | |intros; apply keeps_get_repl].
  - eapply (stored_of S B R data d' r' l); try done.
    + by eexists _, _.
    + apply new_row_NoDup, with_defaults_NoDup; [by_decide|]. apply Cn, Hd.
    + apply Hr'; [|done]. rewrite Ck by by_decide. apply Hcol; [done|by_decide].
    + apply Hr'; [|done]. rewrite Ck by by_decide. apply Hcol; [done|by_decide].
    + destruct (dget d' "naming_schema") as [x|] eqn:E; [rewrite (Hr' _ _ E) by done; unfold col; by rewrite E|].
      exfalso. destruct Hdir as [Hdd|Hdd]; [discriminate (Cpush Hdd)|]. specialize (Cpull Hdd). rewrite (Hcol "naming_schema" Hf) in Cpull by by_decide. discriminate Cpull.
  - intros r [Hr|Hr]%elem_of_app; [right|left; by apply list_elem_of_singleton in Hr]. split; [done|]. intros Heq.
    destruct (headed_id r) as [n Hn]; [apply (ok_repls _ _ _ Ht r Hr)|]. pose proof (max_id_ge R r n Hr Hn). rewrite Hn in Heq. unfold r', new_row, col in Heq. cbn in Heq.
    injection Heq as Heq. rewrite HR in Heq. lia.
  - apply elem_of_app. right. by apply list_elem_of_singleton.
  - unfold r', new_row, col. done.
  - unfold tabs. cbn. by rewrite HS, HR, HB.
  - apply tasks_sound_spec in Hsound. cbn in Hsound. by rewrite HS, HR, HB in Hsound.
Qed.

(** ** Changing a replication *)

Lemma col_some d k : col d k ≠ PNone → dget d k = Some (col d k).
Proof. unfold col. by destruct (dget d k). Qed.

Lemma is_bool_some d k : is_bool (col d k) = true → dget d k = Some (col d k).
Proof. intros H. apply col_some. by intros E; rewrite E in H. Qed.

Lemma is_list_some d k : is_list (col d k) = true → dget d k = Some (col d k).
Proof. intros H. apply col_some. by intros E; rewrite E in H. Qed.

Lemma direction_some d : is_direction (col d "direction") → dget d "direction" = Some (col d "direction").
Proof. intros H. apply col_some. by intros E; rewrite E in H; destruct H. Qed.

Lemma headed_dset r k v : headed r → (k = "id" → is_int v = true) → headed (dset r k v).
Proof.
  intros (n & d & ->) Hv. unfold dset. case_decide as E; [|by eexists _, _]. specialize (Hv (eq_sym E)). destruct v; try done. by eexists _, _.
Qed.

Lemma headed_dupdate r d : headed r → NoDup (dkeys d) → (∀ v, dget d "id" = Some v → is_int v = true) → headed (dupdate r d).
Proof.
  intros Hr Hn Hd. assert (Hin : ∀ k v, (k, v) ∈ d → k = "id" → is_int v = true) by (intros k v Hk ->; apply Hd; by apply elem_of_dget). clear Hn Hd.
  unfold dupdate. revert r Hr Hin. induction d as [|[k v] d IH]; intros r Hr Hin; [done|]. cbn [foldl]. apply IH; [|intros; eapply Hin; [by right|done]].
  apply headed_dset; [done|]. eapply Hin. left.
Qed.

Lemma py_eq_int a n : is_int a = true → py_eq a (PInt n) = true → a = PInt n.
Proof. destruct a; try done. cbn. by intros _ ->%Z.eqb_eq. Qed.

Lemma refers_int k T b : keyed T = true → refers k T b = true → is_int (col b k) = true.
Proof.
  unfold keyed, refers. intros [_ Hi]%andb_true_iff Hr%bool_decide_eq_true. by apply (forallb_elem _ _ _ Hi).
Qed.

Lemma bound_ints S R B b : sound3 S R B → b ∈ B → is_int (col b "replication_id") = true ∧ is_int (col b "task_id") = true.
Proof.
  intros ((HkS & HkR & _) & HfR & HfS) Hb. unfold fk in *.
  split; [apply (refers_int _ R), (forallb_elem _ _ _ HfR Hb)|apply (refers_int _ S), (forallb_elem _ _ _ HfS Hb)]; done.
Qed.

Lemma tasks_of_elem B id v : v ∈ tasks_of B id ↔ ∃ b, b ∈ B ∧ eq_col "replication_id" id b = true ∧ col b "task_id" = v.
Proof.
  unfold tasks_of. rewrite list_elem_of_fmap. split; [intros (b & -> & [? ?]%filter_elem); eauto|].
  intros (b & ? & ? & <-). exists b. split; [done|]. by apply filter_elem.
Qed.

Lemma tasks_of_NoDup B n : (∀ b, b ∈ B → is_int (col b "replication_id") = true) → NoDup (pair_of <$> B) → NoDup (tasks_of B (PInt n)).
Proof.
  induction B as [|b B IH]; intros Hi Hp; [constructor|]. rewrite fmap_cons in Hp. apply NoDup_cons in Hp as [Hni Hp].
  specialize (IH ltac:(intros; apply Hi; by right) Hp). unfold tasks_of in *. cbn [List.filter]. destruct (eq_col _ _ b) eqn:E; [|done]. cbn [fmap list_fmap].
  constructor; [|done]. intros (b' & Hb' & Hin & E')%tasks_of_elem. apply Hni. apply list_elem_of_fmap. exists b'. split; [|done]. unfold pair_of.
  apply py_eq_int in E; [|apply Hi; left]. apply py_eq_int in Hin; [|apply Hi; by right]. congruence.
Qed.

Lemma tasks_of_list S R B n : tasks_ok S R B → task_list (PList (tasks_of B (PInt n))).
Proof.
  intros Hok. exists (tasks_of B (PInt n)). split_and!; [done| |].
  - apply tasks_of_NoDup; [|apply (ok_pairs _ _ _ Hok)]. intros b Hb. by apply (bound_ints _ _ _ b (ok_sound _ _ _ Hok)).
  - apply forallb_forall. intros v Hv%list_elem_of_In. apply tasks_of_elem in Hv as (b & Hb & _ & <-). by apply (bound_ints _ _ _ b (ok_sound _ _ _ Hok)).
Qed.

(** What the new values of a replication are. *)
Lemma merged_ok S R B r old new data : tasks_ok S R B → r ∈ R → seen B r old → (∀ k, k ≠ "ssh_credentials" → col new k = col old k) → NoDup (dkeys new) → repl_data_ok data →
  let n := dupdate (dset new "periodic_snapshot_tasks" (PList (bound_ids new))) data in
  NoDup (dkeys n) ∧ col n "id" = col r "id" ∧ is_bool (col n "enabled") = true ∧ is_direction (col n "direction") ∧
  is_list (col n "naming_schema") = true ∧ is_list (col n "also_include_naming_schema") = true ∧ task_list (col n "periodic_snapshot_tasks").
Proof.
  intros Hok Hr (Hk & _ & Hb & Hpush & Hpull) Hnew Hn Hd. cbn zeta. destruct (ok_repls _ _ _ Hok r Hr) as (Hh & _ & Hen & Hdir & Hnam).
  assert (Hlists : is_list (col new "naming_schema") = true ∧ is_list (col new "also_include_naming_schema") = true).
  { rewrite !Hnew by done. destruct Hdir as [E|E]; [destruct (Hpush E) as [-> ->]|destruct (Hpull E) as [-> ->]]; done. }
  assert (Hbound : bound_ids new = tasks_of B (col r "id")) by (rewrite <-Hb; unfold bound_ids; by rewrite Hnew by done).
  split_and!; [by apply dupdate_NoDup, dset_NoDup| | | | | |]; rewrite col_dupdate by apply Hd.
  - destruct (dget data "id") eqn:E; [|rewrite col_dset_ne, Hnew by done; apply Hk; by_decide].
    exfalso. apply (rd_id _ Hd). apply dget_elem_of in E. unfold dkeys. apply (list_elem_of_fmap_2 fst) in E. done.
  - destruct (dget data "enabled") eqn:E; [by apply (rd_enabled _ Hd)|]. rewrite col_dset_ne, Hnew, Hk by by_decide. done.
  - destruct (dget data "direction") eqn:E; [by apply (rd_direction _ Hd)|]. rewrite col_dset_ne, Hnew, Hk by by_decide. done.
  - destruct (dget data "naming_schema") eqn:E; [by apply (rd_naming _ Hd)|]. rewrite col_dset_ne by done. apply Hlists.
  - destruct (dget data "also_include_naming_schema") eqn:E; [by apply (rd_also _ Hd)|]. rewrite col_dset_ne by done. apply Hlists.
  - destruct (dget data "periodic_snapshot_tasks") eqn:E; [by apply (rd_tasks _ Hd)|]. rewrite col_dset, Hbound.
    destruct (headed_id r Hh) as [m ->]. by eapply tasks_of_list.
Qed.

Lemma get_by_id_spec name id l x : get_by_id name id l = Ret x → x ∈ l ∧ eq_col "id" id x = true.
Proof.
  unfold get_by_id. destruct (List.filter _ l) as [|y l'] eqn:E; [done|]. intros [= <-]. apply filter_elem. rewrite E. left.
Qed.

Lemma query_repls_ok w s l : ok s → (query_repls w s).1 = Ret l → Forall2 (seen s.(binds)) s.(repls) l.
Proof.
  intros Hok. destruct (ok_sound _ _ _ Hok) as ((? & _) & _ & Hf). apply query_repls_spec; [done|done|]. intros t Ht. apply (ok_snaps _ _ _ Hok t Ht).
Qed.

Lemma get_repl_spec w id s : ok s → match (get_repl w id s).1 with Ret x => ∃ r, r ∈ s.(repls) ∧ eq_col "id" id r = true ∧ seen s.(binds) r x | Raise _ => True end.
Proof.
  intros Hok. pose proof (query_repls_ok w s) as Hq. unfold get_repl, mbind, M_bind. unfold query_repls in *. cbn [fst] in *. destruct (_ ≫= _) as [l|]; [|done].
  specialize (Hq l Hok eq_refl). unfold liftT. cbn [fst]. destruct (get_by_id _ _ _) as [x|] eqn:E; [|done]. apply get_by_id_spec in E as [Hx He].
  apply list_elem_of_lookup in Hx as [i Hi]. destruct (Forall2_lookup_r _ _ _ _ _ Hq Hi) as (r & Hr & Hseen). exists r.
  split_and!; [apply list_elem_of_lookup; by exists i| |done]. unfold eq_col in *. destruct Hseen as [Hk _]. rewrite <-Hk by by_decide. done.
Qed.

Lemma update_repl_cases id data s : let s' := set_repls (updated id data s.(repls)) s in
  (update_repl id data s = (Ret tt, s') ∧ sound s' = true) ∨ (∃ e, update_repl id data s = (Raise e, s)).
Proof.
  cbn zeta. unfold update_repl, mbind, M_bind, get_state, liftT, write. destruct (one_row _ _) as [[]|]; [|by right; eexists].
  destruct (sound _) eqn:E; [by left|by right; eexists].
Qed.

Lemma updated_elem id data l r : r ∈ updated id data l → ∃ x, x ∈ l ∧ r = if eq_col "id" id x then dupdate x data else x.
Proof. intros (x & -> & Hx)%list_elem_of_fmap. by exists x. Qed.

Lemma updated_in id data l x : x ∈ l → eq_col "id" id x = true → dupdate x data ∈ updated id data l.
Proof. intros Hx E. apply list_elem_of_fmap. exists x. by rewrite E. Qed.

Lemma credentials_same old new : (if truthy (col old "ssh_credentials") then c ← item (col old "ssh_credentials") "id"; Ret (dset old "ssh_credentials" c) else Ret old) = Ret new →
  (∀ k, k ≠ "ssh_credentials" → col new k = col old k) ∧ (NoDup (dkeys old) → NoDup (dkeys new)).
Proof.
  destruct (truthy _); [|by intros [= <-]]. destruct (item _ _) as [c|]; cbn [mbind outcome_bind]; [|done]. intros [= <-].
  split; [intros; by rewrite col_dset_ne|apply dset_NoDup].
Qed.

Lemma repl_update_ok w n data s : repl_data_ok data → ok s → ok (repl_update w (PInt n) data s).2.
Proof.
  intros Hd Hs. set (t := tabs s). assert (Ht : ok3 t) by exact Hs. assert (Hfx : fixed t s) by done. clearbody t. clear Hs. revert s Hfx.
  unfold repl_update. apply (read_bind _ _ _ (λ old, ∃ r, r ∈ t.1.2 ∧ eq_col "id" (PInt n) r = true ∧ seen t.2 r old) Ht); [apply keeps_get_repl| |].
  { intros s Hs. unfold fixed in Hs. subst t. apply get_repl_spec, Ht. }
  intros old (r & Hr & Hid & Hseen). destruct (ok_repls _ _ _ Ht r Hr) as (Hh & Hnr & _).
  apply (read_bind _ _ _ (λ new, (∀ k, k ≠ "ssh_credentials" → col new k = col old k) ∧ NoDup (dkeys new)) Ht); [apply keeps_liftT| |].
  { intros s _. cbn [fst liftT]. destruct (if truthy _ then _ else _) as [new|] eqn:E; [|done]. apply credentials_same in E as [? Hn]. split; [done|]. by apply Hn, Hseen. }
  intros new [Hnew Hn]. destruct (merged_ok _ _ _ _ _ _ _ Ht Hr Hseen Hnew Hn Hd) as (Hnn & Hnid & Hen & Hdir & Hnam & Halso & l & Hl & Hnd & Hint).
  set (d := dupdate _ data) in *. clearbody d.
  apply (read_bind _ _ _ (λ v, v = [] → validated t.1.1 d) Ht); [apply keeps_validate_repl| |].
  { intros s Hs. destruct (validate_repl _ _ _ s).1 as [v|] eqn:E; [|done]. intros ->. rewrite <-Hs. by eapply validate_spec. }
  intros v Hv. apply (read_bind _ _ _ (λ _, v = []) Ht); [apply keeps_liftT| |].
  { intros s Hs. cbn. destruct (VErrors.check _) as [[]|] eqn:E; [|done]. by apply child_nil in E. }
  intros _ ->. specialize (Hv eq_refl). rewrite Hl. cbn [py_iter]. apply (read_bind _ _ _ (λ x, x = l) Ht); [apply keeps_liftT|by intros|]. intros ? ->.
  apply (read_bind _ _ _ (λ d', compress d = Ret d') Ht); [apply keeps_liftT|intros s _; cbn; by destruct (compress d)|]. intros d' Hc.
  destruct (compress_spec d d' Hc) as (Cn & Ck & Cpush & Cpull). intros s Hs. unfold mbind at 1, M_bind at 1.
  set (d'' := ddel (ddel d' "state") "job"). destruct (update_repl_cases (PInt n) d'' s) as [[-> Hsound]|[e ->]]; [|by eapply ok_fixed].
  destruct t as [[S R] B]. unfold fixed, tabs in Hs. injection Hs as HS HR HB. unfold ok3 in Ht. cbn [fst snd] in *.
  set (r' := dupdate r d''). assert (Hnd'' : NoDup (dkeys d'')) by (by apply ddel_NoDup, ddel_NoDup, Cn).
  assert (Hr' : ∀ k v, dget d' k = Some v → k ∉ ["state"; "job"] → col r' k = v).
  { intros k v Hk. rewrite !not_elem_of_cons. intros (? & ? & _). unfold r'. rewrite col_dupdate by done. unfold d''. by rewrite !dget_ddel_ne, Hk by done. }
  destruct (headed_id r Hh) as [m Hm]. assert (m = n) as ->. { unfold eq_col in Hid. rewrite Hm in Hid. by apply Z.eqb_eq in Hid. }
  assert (Hidd : dget d' "id" = Some (PInt n)). { rewrite Ck by by_decide. rewrite col_some; [by rewrite Hnid, Hm|]. by rewrite Hnid, Hm. }
  assert (Hr'id : col r' "id" = PInt n) by (apply Hr'; [done|by_decide]).
  assert (Hnaming : ∃ x, dget d' "naming_schema" = Some x).
  { destruct Hdir as [E|E]; [rewrite (Cpush E)|rewrite (Cpull E), is_list_some by done]; eauto. }
  eapply (store_bindings w S R (updated (PInt n) d'' R) B r'); [exact Ht| | | | | | |intros; apply keeps_get_repl].
  - eapply (stored_of S B R d d' r' l); try done.
    + apply headed_dupdate; [done|done|]. unfold d''. rewrite !dget_ddel_ne, Hidd by done. by intros ? [= <-].
    + by apply dupdate_NoDup.
    + apply Hr'; [|by_decide]. rewrite Ck by by_decide. by apply is_bool_some.
    + apply Hr'; [|by_decide]. rewrite Ck by by_decide. by apply direction_some.
    + destruct Hnaming as [x Hx]. rewrite (Hr' _ _ Hx) by by_decide. unfold col. by rewrite Hx.
  - intros r0 (x & Hx & ->)%updated_elem. destruct (ok_sound _ _ _ Ht) as ((_ & HkR & _) & _). destruct (eq_col "id" (PInt n) x) eqn:E.
    + left. unfold r'. f_equal. by eapply keyed_same.
    + right. split; [done|]. rewrite Hr'id. intros E'. unfold eq_col in E. rewrite E' in E. cbn in E. by rewrite Z.eqb_refl in E.
  - by apply updated_in.
  - done.
  - unfold tabs. cbn. by rewrite HS, HR, HB.
  - apply tasks_sound_spec in Hsound. cbn in Hsound. by rewrite HS, HR, HB in Hsound.
Qed.

(** ** Deleting *)

Definition surviving (S R B : list pydict) : list pydict := List.filter (λ b, refers "replication_id" R b && refers "task_id" S b) B.

Lemma surviving_tasks S R B r v : r ∈ R → headed r → sound3 S R (surviving S R B) → (∀ b, b ∈ B → is_int (col b "replication_id") = true) →
  v ∈ tasks_of (surviving S R B) (col r "id") ↔ v ∈ tasks_of B (col r "id") ∧ v ∈ ids S.
Proof.
  intros Hr Hh Hs Hi. destruct (headed_id r Hh) as [n Hn]. rewrite !tasks_of_elem. unfold surviving. split.
  - intros (b & [Hb [_ Hb']%andb_true_iff]%filter_elem & E & <-). split; [by exists b|]. unfold refers in Hb'. by apply bool_decide_eq_true in Hb'.
  - intros [(b & Hb & E & <-) Hv]. exists b. split_and!; [|done|done]. apply filter_elem. split; [done|]. unfold refers. rewrite andb_true_iff, !bool_decide_eq_true. split; [|done].
    unfold eq_col in E. rewrite Hn in E. apply py_eq_int in E; [|by apply Hi]. rewrite E, <-Hn. by apply (list_elem_of_fmap_2 (λ r, col r "id")).
Qed.

Lemma cascade_ok S R B S' R' : tasks_ok S R B → (∀ t, t ∈ S' → t ∈ S) → (∀ r, r ∈ R' → r ∈ R) → sound3 S' R' (surviving S' R' B) →
  (∀ r, r ∈ R' → enabled r = true → col r "direction" = PStr "PUSH" → truthy (col r "naming_schema") = false → ∃ v, v ∈ tasks_of B (col r "id") ∧ v ∈ ids S') →
  tasks_ok S' R' (surviving S' R' B).
Proof.
  intros Hok HS HR Hs Hleft.
  assert (Hi : ∀ b, b ∈ B → is_int (col b "replication_id") = true) by (intros b Hb; by apply (bound_ints _ _ _ b (ok_sound _ _ _ Hok))).
  assert (Hv : ∀ r v, r ∈ R' → v ∈ tasks_of (surviving S' R' B) (col r "id") ↔ v ∈ tasks_of B (col r "id") ∧ v ∈ ids S').
  { intros r v Hr. apply surviving_tasks; [done| |done|done]. by apply (ok_repls _ _ _ Hok), HR. }
  split.
  - done.
  - intros t Ht. by apply (ok_snaps _ _ _ Hok), HS.
  - intros r Hr. by apply (ok_repls _ _ _ Hok), HR.
  - eapply sublist_NoDup; [apply (ok_pairs _ _ _ Hok)|]. apply fmap_sublist. unfold surviving. clear. induction B as [|b B IH]; [done|]. cbn [List.filter]. destruct (_ && _); by constructor.
  - intros r Hr He t Ht [Hb _]%Hv; [|done]. by apply (ok_enabled _ _ _ Hok r (HR r Hr) He t (HS t Ht)).
  - intros r Hr He Hd. destruct (truthy (col r "naming_schema")) eqn:E; [by right|left]. destruct (Hleft r Hr He Hd E) as (v & Hv1 & Hv2).
    intros Hnil. assert (Hin : v ∈ tasks_of (surviving S' R' B) (col r "id")) by by apply Hv. rewrite Hnil in Hin. by apply not_elem_of_nil in Hin.
  - intros r Hr Hd. pose proof (ok_pull _ _ _ Hok r (HR r Hr) Hd) as Hnil. destruct (tasks_of (surviving S' R' B) (col r "id")) as [|v l] eqn:E; [done|].
    assert (Hin : v ∈ tasks_of (surviving S' R' B) (col r "id")) by (rewrite E; left). apply Hv in Hin as [Hin _]; [|done]. rewrite Hnil in Hin. by apply not_elem_of_nil in Hin.
Qed.

Lemma write_cases f s : (write f s = (Ret tt, f s) ∧ sound (f s) = true) ∨ (∃ e, write f s = (Raise e, s)).
Proof. unfold write. destruct (sound _) eqn:E; [by left|by right; eexists]. Qed.

Lemma without_elem k v l r : r ∈ without k v l → r ∈ l.
Proof. intros [? _]%filter_elem. done. Qed.

(** A row that is still there has its id there. *)
Lemma bound_in_snaps S R B id v : sound3 S R B → v ∈ tasks_of B id → v ∈ ids S.
Proof.
  intros (_ & _ & HfS) (b & Hb & _ & <-)%tasks_of_elem. unfold fk in HfS. pose proof (forallb_elem _ _ _ HfS Hb) as H. unfold refers in H. by apply bool_decide_eq_true in H.
Qed.

Lemma finish_unit w s : ok s → ok (update_tasks w s).2.
Proof. intros Hs. apply (read_only _ (tabs s)); [exact Hs|apply keeps_update_tasks|done]. Qed.

Lemma repl_delete_ok w id s : ok s → ok (repl_delete w id s).2.
Proof.
  intros Hs. unfold repl_delete, mbind, M_bind. unfold delete_repl. destruct (write_cases (λ s, cascade (set_repls (without "id" id (repls s)) s)) s) as [[-> Hsound]|[e ->]]; [|done].
  apply finish_unit. apply tasks_sound_spec in Hsound. unfold ok, cascade in *. cbn in *. apply (cascade_ok _ _ _ _ _ Hs); [done|apply without_elem|done|].
  intros r Hr%without_elem He Hd Hn. destruct (ok_sends _ _ _ Hs r Hr He Hd) as [Ht|Ht]; [|by rewrite Ht in Hn].
  destruct (tasks_of (binds s) (col r "id")) as [|v l] eqn:E; [done|]. exists v. split; [left|]. eapply bound_in_snaps; [apply (ok_sound _ _ _ Hs)|]. rewrite E. left.
Qed.

Lemma not_last (l : list pyval) n : NoDup l → l ≠ [] → l ≠ [PInt n] → ∃ v, v ∈ l ∧ v ≠ PInt n.
Proof.
  intros Hn H1 H2. destruct l as [|a l]; [done|]. destruct (decide (a = PInt n)) as [->|Ha]; [|exists a; split; [left|done]].
  destruct l as [|b l]; [done|]. exists b. split; [right; left|]. intros ->. apply NoDup_cons in Hn as [Hn _]. apply Hn. left.
Qed.

Lemma snap_delete_ok w n s : ok s → ok (snap_delete w (PInt n) s).2.
Proof.
  intros Hs. pose proof (query_repls_ok w s) as Hq. unfold snap_delete, mbind, M_bind. unfold query_repls in *. cbn [fst] in Hq. destruct (_ ≫= _) as [l|]; [|done].
  specialize (Hq l Hs eq_refl). destruct (last_task_of (PInt n) l) as [|r0 l0] eqn:El; [|done].
  unfold delete_snap. destruct (write_cases (λ s, cascade (set_snaps (without "id" (PInt n) (snaps s)) s)) s) as [[-> Hsound]|[e ->]]; [|done].
  apply finish_unit. apply tasks_sound_spec in Hsound. unfold ok, cascade in *. cbn in *. apply (cascade_ok _ _ _ _ _ Hs); [apply without_elem|done|done|].
  intros r Hr He Hd Hn. destruct (ok_sends _ _ _ Hs r Hr He Hd) as [Ht|Ht]; [|by rewrite Ht in Hn].
  destruct (ok_repls _ _ _ Hs r Hr) as (Hh & _ & Hbool & _ & Hlist). destruct (headed_id r Hh) as [m Hm].
  destruct (not_last (tasks_of (binds s) (col r "id")) n) as (v & Hv & Hne).
  - rewrite Hm. destruct (tasks_of_list _ _ _ m Hs) as (? & [= <-] & ? & _). done.
  - done.
  - intros Hlast. apply list_elem_of_lookup in Hr as [i Hi]. destruct (Forall2_lookup_l _ _ _ _ _ Hq Hi) as (x & Hx & Hk & _ & Hb & Hpush & _).
    assert (Hin : x ∈ last_task_of (PInt n) l); [|rewrite El in Hin; by apply not_elem_of_nil in Hin].
    apply filter_elem. split; [apply list_elem_of_lookup; by exists i|]. destruct (Hpush Hd) as [Ha _]. rewrite Hb, Hlast. unfold eq_col. rewrite Ha, !Hk, Hd by by_decide.
    unfold enabled in He. destruct (col r "naming_schema") as [| | | | [|]|]; try done. destruct (col r "enabled") as [|[]| | | |]; try done. cbn. by rewrite Z.eqb_refl.
  - exists v. split; [done|]. pose proof (bound_in_snaps _ _ _ _ _ (ok_sound _ _ _ Hs) Hv) as (t & -> & Hin)%list_elem_of_fmap.
    apply (list_elem_of_fmap_2 (λ r, col r "id")). apply filter_elem. split; [done|]. destruct (headed_id t) as [k Hk]; [apply (ok_snaps _ _ _ Hs t Hin)|].
    unfold eq_col. rewrite Hk in *. cbn. apply negb_true_iff, Z.eqb_neq. congruence.
Qed.

(** ** Periodic snapshot tasks *)

Record snap_data_ok (data : pydict) : Prop := mkSnapDataOk { sd_keys : NoDup (dkeys data); sd_id : "id" ∉ dkeys data }.

(** The snapshot tasks change, the bindings and the replications do not. *)
Lemma snaps_ok S S' R B : tasks_ok S R B → sound3 S' R B → (∀ t, t ∈ S' → headed t ∧ NoDup (dkeys t)) →
  (∀ r, r ∈ R → enabled r = true → ∀ t, t ∈ S' → col t "id" ∈ tasks_of B (col r "id") → enabled t = true) → tasks_ok S' R B.
Proof.
  intros Hok Hs Ht He. split; [done|done|apply (ok_repls _ _ _ Hok)|apply (ok_pairs _ _ _ Hok)|done|apply (ok_sends _ _ _ Hok)|apply (ok_pull _ _ _ Hok)].
Qed.

Lemma insert_snap_spec data s :
  let s' := set_snaps (s.(snaps) ++ [new_row s.(snaps) (with_defaults snap_defaults data)]) s in
  insert_snap data s = if sound s' then (Ret (PInt (1 + max_id s.(snaps))), s') else (Raise (OtherError "IntegrityError"), s).
Proof. cbn zeta. unfold insert_snap, mbind, M_bind, get_state, write. by destruct (sound _). Qed.

Lemma snap_create_ok w data s : snap_data_ok data → ok s → ok (snap_create w data s).2.
Proof.
  intros Hd Hs. set (t := tabs s). assert (Ht : ok3 t) by exact Hs. assert (Hfx : fixed t s) by done. clearbody t. clear Hs. revert s Hfx.
  unfold snap_create. apply (read_bind _ _ _ (λ _, True) Ht); [apply keeps_liftT|intros s _; by destruct (liftT _ s).1|]. intros v _.
  apply (read_bind _ _ _ (λ _, True) Ht); [apply keeps_liftT|intros s _; by destruct (liftT _ s).1|]. intros _ _.
  apply (read_bind _ _ _ (λ d, NoDup (dkeys d)) Ht); [apply keeps_liftT| |].
  { intros s _. cbn [liftT fst]. destruct (Cron.convert_schedule_to_db_format _ _ _ _) as [d|] eqn:E; [|done]. eapply to_db_NoDup; [apply Hd|done]. }
  intros d Hn s Hs. unfold mbind at 1, M_bind at 1. rewrite insert_snap_spec. cbn zeta. destruct (sound _) eqn:Hsound; [|by eapply ok_fixed].
  apply finish_ok; [|intros; apply keeps_get_snap]. assert (Hok : ok s) by (by eapply ok_fixed). apply tasks_sound_spec in Hsound. unfold ok in *. cbn in *.
  set (t' := new_row _ _) in *. apply (snaps_ok _ _ _ _ Hok Hsound).
  - intros t0 [Ht0|Ht0]%elem_of_app; [by apply (ok_snaps _ _ _ Hok)|]. apply list_elem_of_singleton in Ht0 as ->. split; [by eexists _, _|].
    apply new_row_NoDup, with_defaults_NoDup; [by_decide|done].
  - intros r Hr He t0 [Ht0|Ht0]%elem_of_app Hb; [by apply (ok_enabled _ _ _ Hok r Hr He)|]. apply list_elem_of_singleton in Ht0 as ->. exfalso.
    pose proof (bound_in_snaps _ _ _ _ _ (ok_sound _ _ _ Hok) Hb) as (x & Heq & Hx)%list_elem_of_fmap. change (col t' "id") with (PInt (1 + max_id (snaps s))) in Heq.
    pose proof (max_id_ge _ x _ Hx (eq_sym Heq)). lia.
Qed.

Lemma get_snap_spec w id s : match (get_snap w id s).1 with
  | Ret x => ∃ t, t ∈ s.(snaps) ∧ eq_col "id" id t = true ∧ (∀ k, k ∈ ["id"; "enabled"] → col x k = col t k) ∧ (NoDup (dkeys t) → NoDup (dkeys x))
  | Raise _ => True end.
Proof.
  pose proof (query_snaps_spec w s) as Hq. unfold get_snap, mbind, M_bind. unfold query_snaps in *. cbn [fst] in *. destruct (_ ≫= _) as [l|]; [|done].
  specialize (Hq l eq_refl). unfold liftT. cbn [fst]. destruct (get_by_id _ _ _) as [x|] eqn:E; [|done]. apply get_by_id_spec in E as [Hx He].
  apply list_elem_of_lookup in Hx as [i Hi]. destruct (Forall2_lookup_r _ _ _ _ _ Hq Hi) as (t & Ht & Hk & Hn). exists t.
  split_and!; [apply list_elem_of_lookup; by exists i| |done|done]. unfold eq_col in *. rewrite <-Hk by by_decide. done.
Qed.

Lemma update_snap_cases id data s : let s' := set_snaps (updated id data s.(snaps)) s in
  (update_snap id data s = (Ret tt, s') ∧ sound s' = true) ∨ (∃ e, update_snap id data s = (Raise e, s)).
Proof.
  cbn zeta. unfold update_snap, mbind, M_bind, get_state, liftT, write. destruct (one_row _ _) as [[]|]; [|by right; eexists].
  destruct (sound _) eqn:E; [by left|by right; eexists].
Qed.

(** No enabled replication is bound to a task that may be disabled. *)
Definition unbound (t : Tables) (id : pyval) : Prop := ∀ r, r ∈ t.1.2 → enabled r = true → id ∉ tasks_of t.2 (col r "id").

Lemma no_bound_spec w n l s : ok s → (query_repls w s).1 = Ret l →
  List.filter (λ r, existsb (py_eq (PInt n)) (bound_ids r)) (enabled_rows l) = [] → unbound (tabs s) (PInt n).
Proof.
  intros Hs Hq Hnone r Hr He Hb. pose proof (query_repls_ok w s l Hs Hq) as Hl. cbn [tabs fst snd] in *. destruct (ok_repls _ _ _ Hs r Hr) as (_ & _ & Hbool & _).
  apply list_elem_of_lookup in Hr as [i Hi]. destruct (Forall2_lookup_l _ _ _ _ _ Hl Hi) as (x & Hx & Hk & _ & Hbx & _).
  assert (Hin : x ∈ List.filter (λ r, existsb (py_eq (PInt n)) (bound_ids r)) (enabled_rows l)); [|rewrite Hnone in Hin; by apply not_elem_of_nil in Hin].
  apply filter_elem. split.
  - apply filter_elem. split; [apply list_elem_of_lookup; by exists i|]. unfold eq_col. rewrite Hk by by_decide. unfold enabled in He. by destruct (col r "enabled") as [|[]| | | |].
  - apply existsb_exists. exists (PInt n). split; [rewrite Hbx; by apply list_elem_of_In|]. cbn. apply Z.eqb_refl.
Qed.

Lemma updated_snap_ok s n d : ok s → NoDup (dkeys d) → dget d "id" = Some (PInt n) → sound (set_snaps (updated (PInt n) d s.(snaps)) s) = true →
  (truthy (or_else PNone (dget d "enabled")) = true ∨ unbound (tabs s) (PInt n)) → ok (set_snaps (updated (PInt n) d s.(snaps)) s).
Proof.
  intros Hok Hn Hid Hsound Hen. apply tasks_sound_spec in Hsound. unfold ok in *. cbn in *. apply (snaps_ok _ _ _ _ Hok Hsound).
  - intros t (x & Hx & ->)%updated_elem. destruct (ok_snaps _ _ _ Hok x Hx) as [Hh Hnx]. destruct (eq_col _ _ x); [|done].
    split; [|by apply dupdate_NoDup]. apply headed_dupdate; [done|done|]. rewrite Hid. by intros ? [= <-].
  - intros r Hr He t (x & Hx & ->)%updated_elem. destruct (eq_col _ _ x) eqn:E; [|by apply (ok_enabled _ _ _ Hok r Hr He)]. rewrite col_dupdate, Hid by done. intros Hb.
    destruct Hen as [Hen|Hun]; [|by destruct (Hun r Hr He)]. unfold enabled. rewrite col_dupdate by done. by destruct (dget d "enabled").
Qed.

Lemma snap_update_ok w n data s : snap_data_ok data → ok s → ok (snap_update w (PInt n) data s).2.
Proof.
  intros Hd Hs. set (t := tabs s). assert (Ht : ok3 t) by exact Hs. assert (Hfx : fixed t s) by done. clearbody t. clear Hs. revert s Hfx.
  unfold snap_update. apply (read_bind _ _ _ (λ old, ∃ x, x ∈ t.1.1 ∧ eq_col "id" (PInt n) x = true ∧ col old "id" = col x "id" ∧ NoDup (dkeys old)) Ht); [apply keeps_get_snap| |].
  { intros s Hs. unfold fixed in Hs. subst t. pose proof (get_snap_spec w (PInt n) s) as H. destruct (get_snap _ _ _).1 as [old|]; [|done].
    destruct H as (x & Hx & E & Hk & Hn). exists x. split_and!; [done|done|apply Hk; by_decide|apply Hn, (ok_snaps _ _ _ Ht x Hx)]. }
  intros old (x & Hx & E & Hid & Hn). set (new := dupdate old data).
  assert (Hnid : dget new "id" = Some (PInt n)).
  { assert (Hc : col new "id" = PInt n); [|rewrite col_some; by rewrite Hc]. unfold new. rewrite col_dupdate by apply Hd.
    rewrite (proj2 (dget_None _ _) (sd_id _ Hd)), Hid. destruct (headed_id x) as [m Hm]; [apply (ok_snaps _ _ _ Ht x Hx)|].
    unfold eq_col in E. rewrite Hm in *. by apply Z.eqb_eq in E as ->. }
  assert (Hnn : NoDup (dkeys new)) by by apply dupdate_NoDup. clearbody new.
  apply (read_bind _ _ _ (λ _, True) Ht); [apply keeps_liftT|intros s _; by destruct (liftT _ s).1|]. intros v0 _.
  apply (read_bind _ _ _ (λ v, v = [] → truthy (col new "enabled") = true ∨ unbound t (PInt n)) Ht); [destruct (truthy _); keeps_tac| |].
  { intros s Hs. unfold fixed in Hs. subst t. destruct (truthy (col new "enabled")); [by left|]. pose proof (no_bound_spec w n) as Hnb.
    unfold mbind, M_bind. destruct (query_repls w s) as [[l|] s'] eqn:Eq; [|done]. cbn [mret M_ret fst].
    destruct (List.filter _ _) as [|r l'] eqn:Ef; [intros _; right; eapply Hnb; [exact Ht|by rewrite Eq|done]|]. intros [_ H]%app_nil. done. }
  intros v Hv. apply (read_bind _ _ _ (λ _, v = []) Ht); [apply keeps_liftT| |].
  { intros s Hs. cbn [liftT fst]. unfold VErrors.check. by destruct v. }
  intros _ ->. specialize (Hv eq_refl).
  apply (read_bind _ _ _ (λ d, NoDup (dkeys d) ∧ ∀ k, k ∈ ["id"; "enabled"] → dget d k = dget new k) Ht); [apply keeps_liftT| |].
  { intros s _. cbn [liftT fst]. destruct (Cron.convert_schedule_to_db_format _ _ _ _) as [d|] eqn:Ed; [|done]. split; [by eapply to_db_NoDup|].
    intros k Hk. eapply (to_db_frame "schedule" ""); [|done]. revert k Hk. apply Forall_forall. by_decide. }
  intros d [Hdn Hdk] s Hs. unfold mbind at 1, M_bind at 1. unfold fixed in Hs. subst t.
  destruct (update_snap_cases (PInt n) (ddel (ddel d "vmware_sync") "state") s) as [[-> Hsound]|[e ->]]; [|done].
  apply finish_ok; [|intros; apply keeps_get_snap]. apply updated_snap_ok; [done|by apply ddel_NoDup, ddel_NoDup| |done|].
  - rewrite !dget_ddel_ne by done. by rewrite Hdk by by_decide.
  - rewrite !dget_ddel_ne by done. rewrite Hdk by by_decide. exact Hv.
Qed.

(** ** Calls *)

(** The arguments of a call are what the schema of the method lets through. *)
Definition call_ok (c : Call) : Prop :=
  match c with
  | SnapCreate data => snap_data_ok data
  | SnapUpdate id data => is_int id = true ∧ snap_data_ok data
  | SnapDelete id => is_int id = true
  | ReplCreate data => repl_data_ok data ∧ full data
  | ReplUpdate id data => is_int id = true ∧ repl_data_ok data
  | _ => True
  end.

Lemma bind_unit_ok {A} (m : MT A) s : ok (m s).2 → ok ((m;; mret tt) s).2.
Proof. unfold mbind, M_bind. by destruct (m s) as [[a|e] s']. Qed.

Lemma keeps_put_run c id t : keeps (fixed t) (put_run c id).
Proof. unfold put_run. keeps_tac. Qed.
Lemma keeps_snap_run w id t : keeps (fixed t) (snap_run w id).
Proof. unfold snap_run. pose proof keeps_put_run. keeps_tac. Qed.
Lemma keeps_repl_run w id b t : keeps (fixed t) (repl_run w id b).
Proof. unfold repl_run. pose proof keeps_put_run. keeps_tac. Qed.

Lemma tasks_perform_ok w c s : call_ok c → ok s → ok (perform w c s).2.
Proof.
  intros Hc Hs. destruct c; cbn [perform call_ok] in *.
  - by apply bind_unit_ok, snap_create_ok.
  - destruct Hc as [Hi Hd]. destruct id; try done. by apply bind_unit_ok, snap_update_ok.
  - destruct id; try done. by apply snap_delete_ok.
  - apply (read_only _ (tabs s)); [exact Hs|apply keeps_snap_run|done].
  - destruct Hc. by apply bind_unit_ok, repl_create_ok.
  - destruct Hc as [Hi Hd]. destruct id; try done. by apply bind_unit_ok, repl_update_ok.
  - by apply repl_delete_ok.
  - apply (read_only _ (tabs s)); [exact Hs|apply keeps_repl_run|done].
  - by apply finish_unit.
  - apply (read_only _ (tabs s)); [exact Hs|apply keeps_on_z|done].
Qed.

Lemma tasks_run_ok calls : ∀ s, Forall (λ wc, call_ok wc.2) calls → ok s → ok (run calls s).
Proof.
  unfold run. induction calls as [|wc calls IH]; intros s Hc Hs; [done|]. apply Forall_cons in Hc as [Hc1 Hc]. cbn [foldl]. apply IH; [done|]. by apply tasks_perform_ok.
Qed.

(** C9. Over every sequence of calls that create, change, delete and run snapshot and
    replication tasks, of the process's messages and of failures, and whatever the other
    services answer at each call: the keys of the three tables stay sound, no pair is
    bound twice, an enabled replication is bound to enabled snapshot tasks only, an
    enabled push replication has a bound task or a naming schema to send from, and a pull
    replication is bound to none. *)
Theorem replication_tasks_stay_bound calls s : Forall (λ wc, call_ok wc.2) calls → ok s →
  ok (run calls s) ∧
  ∀ r t b, r ∈ (run calls s).(repls) → t ∈ (run calls s).(snaps) → b ∈ (run calls s).(binds) →
    col b "replication_id" = col r "id" → col b "task_id" = col t "id" → truthy (col r "enabled") = true → truthy (col t "enabled") = true.
Proof.
  intros Hc Hs. pose proof (tasks_run_ok calls s Hc Hs) as Hok. split; [done|]. intros r t b Hr Ht Hb Hbr Hbt He.
  apply (ok_enabled _ _ _ Hok r Hr He t Ht). apply tasks_of_elem. exists b. split_and!; [done| |done].
  destruct (headed_id r) as [n Hn]; [apply (ok_repls _ _ _ Hok r Hr)|]. unfold eq_col. rewrite Hbr, Hn. cbn. apply Z.eqb_refl.
Qed.
