(* ===== verification/ReplicationDemo.v ===== *)
(** * Snapshot and replication tasks: a small system

    A world with one pool, tasks in it, the witnesses of the theorems, and the calls
    whose outcome surprises. *)

From S2P Require Import Prelude PyValue Schema SchemaResolve Filter PyNum Validators ValidatorsFacts PyPath Rows Zettarepl Replication ReplicationFacts ReplicationInv.

Definition demo_world : World :=
  mkWorld ["tank"; "tank/work"; "tank/temp"] [] (λ _ _, Raise (CallError "No such credentials" EFAULT PNone)) (λ _, PNone)
    [[("name", PStr "tank"); ("status", PStr "ONLINE"); ("is_decrypted", PBool true)]] (PInt 4) (PStr "UTC") [] (PStr "now") "/root" (λ _, Ret tt) true
    (λ _, "error").

Definition demo_schedule : pyval :=
  PDict [("minute", PStr "00"); ("hour", PStr "*"); ("dom", PStr "*"); ("month", PStr "*"); ("dow", PStr "*"); ("begin", PStr "00:00"); ("end", PStr "23:59")].

Definition snap_data (dataset : string) : pydict :=
  [("dataset", PStr dataset); ("recursive", PBool true); ("exclude", PList []); ("lifetime_value", PInt 2); ("lifetime_unit", PStr "WEEK");
   ("naming_schema", PStr "auto-%Y-%m-%d_%H-%M"); ("schedule", demo_schedule); ("allow_empty", PBool true); ("enabled", PBool true)].

Definition repl_data (name : string) (tasks : list pyval) (also : list pyval) : pydict :=
  [("name", PStr name); ("direction", PStr "PUSH"); ("transport", PStr "LOCAL"); ("ssh_credentials", PNone); ("netcat_active_side", PNone);
   ("netcat_active_side_listen_address", PNone); ("netcat_active_side_port_min", PNone); ("netcat_active_side_port_max", PNone);
   ("netcat_passive_side_connect_address", PNone); ("source_datasets", PList [PStr "tank/work"]); ("target_dataset", PStr "backup/work");
   ("recursive", PBool true); ("exclude", PList []); ("properties", PBool true); ("properties_exclude", PList []); ("replicate", PBool false);
   ("encryption", PBool false); ("encryption_key", PNone); ("encryption_key_format", PNone); ("encryption_key_location", PNone);
   ("periodic_snapshot_tasks", PList tasks); ("naming_schema", PList []); ("also_include_naming_schema", PList also); ("auto", PBool true);
   ("schedule", PNone); ("restrict_schedule", PNone); ("only_matching_schedule", PBool false); ("allow_from_scratch", PBool false);
   ("readonly", PStr "SET"); ("hold_pending_snapshots", PBool false); ("retention_policy", PStr "NONE"); ("lifetime_value", PNone);
   ("lifetime_unit", PNone); ("compression", PNone); ("speed_limit", PNone); ("large_block", PBool true); ("embed", PBool false);
   ("compressed", PBool true); ("retries", PInt 5); ("logging_level", PNone); ("enabled", PBool true)].

Definition nothing : Tasks := mkTasks [] [] [] z_init false false None [].

Definition demo_calls : list (World * Call) :=
  (λ c, (demo_world, c)) <$> [SnapCreate (snap_data "tank/work"); ReplCreate (repl_data "backup" [PInt 1] [])].

Definition two : Tasks := run demo_calls nothing.

Example demo_two :
  length two.(snaps) = 1 ∧ length two.(repls) = 1 ∧ (λ b, (col b "replication_id", col b "task_id")) <$> two.(binds) = [(PInt 1, PInt 1)] ∧
  two.(process) = true.
Proof. by vm_compute. Qed.

Example demo_guards :
  (perform demo_world (SnapDelete (PInt 1)) two).1 = Raise (CallError ("You are deleting the last periodic snapshot task bound to enabled replication task 'backup' which will break it. Please, disable that replication task first.") EFAULT PNone) ∧
  (perform demo_world (SnapUpdate (PInt 1) [("enabled", PBool false)]) two).1 = Raise (ValidationErrors [mkVE "periodic_snapshot_update.enabled" "You can't disable this periodic snapshot task because it is bound to enabled replication task 1" EINVAL]).
Proof. by vm_compute. Qed.

Lemma nothing_ok : ok nothing.
Proof.
  unfold ok. split; try (intros ? Hr; by apply not_elem_of_nil in Hr); [|constructor]. by vm_compute.
Qed.

Lemma data_ok name tasks also : NoDup tasks → forallb is_int tasks = true → repl_data_ok (repl_data name tasks also) ∧ full (repl_data name tasks also).
Proof.
  intros Hn Hi. split; [|intros k Hk; revert k Hk; by apply Forall_forall; repeat constructor].
  split; [change (dkeys (repl_data name tasks also)) with (dkeys (repl_data "" [] [])); by_decide|
          change (dkeys (repl_data name tasks also)) with (dkeys (repl_data "" [] [])); by_decide|..]; intros v; cbn; intros [= <-]; try done; [by left|].
  by exists tasks.
Qed.

(** The two tasks of the demo are created from nothing. *)
Lemma replication_tasks_stay_bound_witness :
  (Forall (λ wc, call_ok wc.2) demo_calls ∧ ok nothing) ∧ ok two ∧ length two.(binds) = 1.
Proof.
  assert (Hc : Forall (λ wc, call_ok wc.2) demo_calls).
  { apply Forall_cons; split; [split; by_decide|]. apply Forall_cons; split; [|apply Forall_nil; exact Logic.I]. apply (data_ok "backup" [PInt 1] []); [by_decide|done]. }
  split; [split; [exact Hc|apply nothing_ok]|]. split; [|by vm_compute].
  exact (proj1 (replication_tasks_stay_bound demo_calls nothing Hc nothing_ok)).
Defined.

(** A replication with a naming schema of its own: the only snapshot task that triggers it
    may be deleted, and what is left is refused by the checks. *)
Definition with_schema : Tasks :=
  run ((λ c, (demo_world, c)) <$> [SnapCreate (snap_data "tank/work"); ReplCreate (repl_data "backup" [PInt 1] [PStr "auto-%Y-%m-%d_%H-%M"]); SnapDelete (PInt 1)]) nothing.

Example trigger_lost :
  with_schema.(snaps) = [] ∧ with_schema.(binds) = [] ∧
  (λ r, (col r "enabled", col r "auto")) <$> with_schema.(repls) = [(PBool true, PBool true)] ∧
  (perform demo_world (ReplUpdate (PInt 1) []) with_schema).1 =
    Raise (ValidationErrors [mkVE "replication_update.auto" "Push replication that runs automatically must be either bound to a periodic snapshot task or have a schedule" EINVAL]).
Proof. by vm_compute. Qed.

(** The delegate of a path disables a snapshot task without asking which replications it
    is bound to. *)
Example toggled_apart :
  match snap_attachments demo_world "/mnt/tank/work" true two with
  | (Ret l, s) => (λ r, col r "enabled") <$> (snaps_toggle demo_world l false s).2.(snaps) = [PBool false] ∧
                  (λ r, col r "enabled") <$> (snaps_toggle demo_world l false s).2.(repls) = [PBool true]
  | _ => False
  end.
Proof. by vm_compute. Qed.
