(* ===== verification/Service.v ===== *)
(** * Service base classes: service.py

    The decorator [throttle], [CompoundService], the configuration services with
    their get-or-insert, and the CRUD services.  What a plugin adds, its
    [do_create], [do_update] and [do_delete], and the other services it calls are
    arguments.  [_get_or_insert] gives up the event loop at every call, so it is a
    step relation of the tasks that run it. *)

From S2P Require Import Prelude PyValue Schema Filter Datastore DatastoreWrite.

(** ** throttle *)

Module Throttle.

(** [last_calls], a [defaultdict] of zeros. *)
Notation LastCalls := (list (pyval * Z)).

Fixpoint last_call (l : LastCalls) (key : pyval) : Z :=
  match l with
  | [] => 0
  | (k, t) :: l => if py_eq k key then t else last_call l key
  end.

Fixpoint set_last (l : LastCalls) (key : pyval) (now : Z) : LastCalls :=
  match l with
  | [] => [(key, now)]
  | (k, t) :: l => if py_eq k key then (k, now) :: l else (k, t) :: set_last l key now
  end.

Section throttle.
Context (throttle_period : Z).

(** [_register_call] at the time [now]. *)
Definition register_call (key : pyval) (now : Z) (l : LastCalls) : bool * LastCalls :=
  if Z.ltb throttle_period (now - last_call l key) then (true, set_last l key now) else (false, l).

(** [_should_throttle]; [condition] is the answer of the condition, when there is one. *)
Definition should_throttle (condition : option (bool * pyval)) (now : Z) (l : LastCalls) :
    (bool * pyval) * LastCalls :=
  match condition with
  | Some (true, _) => ((false, PNone), l)
  | Some (false, key) => let '(ok, l) := register_call key now l in ((negb ok, key), l)
  | None => let '(ok, l) := register_call PNone now l in ((negb ok, PNone), l)
  end.

(** The [while True] loop: it looks at the clock at the times [nows] and is let
    through at the first at which the call registers. *)
Fixpoint wait_turn (key : pyval) (nows : list Z) (l : LastCalls) : option Z * LastCalls :=
  match nows with
  | [] => (None, l)
  | now :: nows =>
      match register_call key now l with
      | (true, l) => (Some now, l)
      | (false, l) => wait_turn key nows l
      end
  end.
End throttle.
End Throttle.

(** ** _service_change *)

Definition ESERVICESTARTFAILURE : Z := 202.

Section service_change.
Context {S : Type}.
(** [service.query] of one service, [etc.generate] and [service.<verb>] *)
Context (service_query : string → M S exn pyval) (etc_generate : string → M S exn unit)
  (service_verb : string → string → M S exn bool).

Definition service_change (service verb : string) : M S exn unit :=
  row ← service_query service;
  match row with
  | PDict d =>
      match dget d "state" with
      | Some (PStr state) =>
          etc_generate "rc";;
          if String.eqb (PyStr.lower state) "running" then
            started ← service_verb verb service;
            if started : bool then mret tt
            else raise (CallError ("The " +:+ service +:+ " service failed to start")
                          ESERVICESTARTFAILURE (PList [PStr service]))
          else mret tt
      | Some _ => raise (AttributeError "object has no attribute 'lower'")
      | None => raise (KeyError "state")
      end
  | _ => raise (TypeError "indices must be integers or slices, not str")
  end.
End service_change.

(** ** CompoundService *)

(** A part: its name, its configuration and its public callables. *)
Record Part : Type := mkPart { part_name : string; part_config : pydict; part_methods : list string }.

(** [_part_config] *)
Definition compared_config (p : Part) : pydict :=
  List.filter (λ kv, negb (PyStr.startswith kv.1 "__") && negb (PyStr.startswith kv.1 "datastore") &&
                     negb (PyStr.startswith kv.1 "event")) p.(part_config).

(** The loop over the methods of one part; [base] are the attributes of every
    service. *)
Fixpoint add_methods (base : list string) (p : string) (names : list string) (acc : list (string * string)) :
    outcome exn (list (string * string)) :=
  match names with
  | [] => Ret acc
  | n :: names =>
      if PyStr.startswith n "_" then add_methods base p names acc
      else if bool_decide (n ∈ base) then Raise (KeyError n)
      else match dget acc n with
           | Some other => Raise (RuntimeError ("Duplicate method name " +:+ n +:+ " for service parts " +:+ other +:+
                                                " and " +:+ p))
           | None => add_methods base p names (acc ++ [(n, p)])
           end
  end.

Fixpoint add_parts (base : list string) (parts : list Part) (acc : list (string * string)) :
    outcome exn (list (string * string)) :=
  match parts with
  | [] => Ret acc
  | p :: parts => acc ← add_methods base p.(part_name) p.(part_methods) acc; add_parts base parts acc
  end.

(** [CompoundService.__init__]: which part each method comes from. *)
Definition compound_init (base : list string) (parts : list Part) : outcome exn (list (string * string)) :=
  match parts with
  | [] => Raise IndexError
  | first :: rest =>
      match List.find (λ p, negb (py_eq (PDict (compared_config p)) (PDict (compared_config first)))) rest with
      | Some p => Raise (RuntimeError ("Service parts configs for " +:+ p.(part_name) +:+ " and " +:+
                                       first.(part_name) +:+ " do not match"))
      | None => add_parts base parts []
      end
  end.

(** ** ConfigService._get_or_insert *)

Module GetOrInsert.

(** Where a call is: before its first query, waiting for the lock, about to query
    again under the lock, about to insert, about to query the inserted row, and
    finished with a row or an exception. *)
Inductive pc : Type :=
| Start
| Waiting
| Locked
| Inserting
| Reading
| Done (row : pyval)
| Failed (e : exn).

Record Task : Type := mkTask { datastore : string; at_ : pc }.

(** The rows of each datastore, who holds [get_or_insert_lock], and the tasks. *)
Record State : Type := mkState {
  table_rows : string → list pyval;
  holder : option nat;
  tasks : list Task;
}.

(** [datastore.config]: the first row. *)
Definition config (s : State) (ds : string) : option pyval := head (s.(table_rows) ds).

Definition goto (s : State) (i : nat) (t : Task) (p : pc) (h : option nat) : State :=
  mkState s.(table_rows) h (<[i := mkTask t.(datastore) p]> s.(tasks)).

Definition add_row (s : State) (ds : string) (row : pyval) : State :=
  mkState (λ d, if decide (d = ds) then s.(table_rows) d ++ [row] else s.(table_rows) d) s.(holder) s.(tasks).

(** One stretch of the call of task [i] between two awaits; [row] is what an
    insert of an empty dict adds, and an insert may raise. *)
Inductive step (s : State) : State → Prop :=
| config_found i t row :
    s.(tasks) !! i = Some t → t.(at_) = Start → config s t.(datastore) = Some row →
    step s (goto s i t (Done row) s.(holder))
| config_missing i t :
    s.(tasks) !! i = Some t → t.(at_) = Start → config s t.(datastore) = None →
    step s (goto s i t Waiting s.(holder))
| lock_acquired i t :
    s.(tasks) !! i = Some t → t.(at_) = Waiting → s.(holder) = None →
    step s (goto s i t Locked (Some i))
| locked_found i t row :
    s.(tasks) !! i = Some t → t.(at_) = Locked → config s t.(datastore) = Some row →
    step s (goto s i t (Done row) None)
| locked_missing i t :
    s.(tasks) !! i = Some t → t.(at_) = Locked → config s t.(datastore) = None →
    step s (goto s i t Inserting s.(holder))
| inserted i t row :
    s.(tasks) !! i = Some t → t.(at_) = Inserting →
    step s (goto (add_row s t.(datastore) row) i t Reading s.(holder))
| insert_failed i t e :
    s.(tasks) !! i = Some t → t.(at_) = Inserting →
    step s (goto s i t (Failed e) None)
| read_back i t row :
    s.(tasks) !! i = Some t → t.(at_) = Reading → config s t.(datastore) = Some row →
    step s (goto s i t (Done row) None)
| read_missing i t :
    s.(tasks) !! i = Some t → t.(at_) = Reading → config s t.(datastore) = None →
    step s (goto s i t (Failed MatchNotFound) None)
| call_made ds :
    step s (mkState s.(table_rows) s.(holder) (s.(tasks) ++ [mkTask ds Start])).

Definition initial (table_rows : string → list pyval) : State := mkState table_rows None [].

Definition reachable (rows : string → list pyval) : State → Prop := rtc step (initial rows).
End GetOrInsert.

(** ** CRUDService *)

Module CRUD.

Record ServiceConfig : Type := mkSC {
  namespace : string;
  datastore : option string;
  datastore_prefix : string;
  datastore_extend : option string;
  datastore_extend_context : option string;
  event_send : bool;
  verbose_name : string;
}.

(** [get_options] *)
Definition get_options (cfg : ServiceConfig) (o : QueryOptions) : QueryOptions :=
  mkQO o.(relationships) cfg.(datastore_extend) cfg.(datastore_extend_context) cfg.(datastore_prefix)
    o.(extra) o.(Datastore.order_by) o.(Datastore.select) o.(count) o.(Datastore.get)
    o.(Datastore.offset) o.(Datastore.limit) o.(force_sql_filters).

(** The options without [PAGINATION_OPTS]: [count], [get], [limit] and [offset]. *)
Definition without_pagination (o : QueryOptions) : QueryOptions :=
  mkQO o.(relationships) o.(extend) o.(extend_context) o.(prefix) o.(extra) o.(Datastore.order_by)
    o.(Datastore.select) false false 0 0 o.(force_sql_filters).

(** The options [filter_list] reads. *)
Definition filter_options (o : QueryOptions) : Options :=
  mkOpts o.(Datastore.select) o.(Datastore.get) o.(count) o.(Datastore.order_by) o.(Datastore.offset) o.(Datastore.limit).

Definition of_result (r : Result) : pyval :=
  match r with RList l => PList l | REntry v => v | RCount n => PInt (Z.of_nat n) end.

Section query.
Context {D : Type} `{!Database D} (meta : Metadata) (limit_ fuel : nat) (d : D).
Context (re_match : pyval → pyval → outcome exn bool) (getattr : pyval → pyval → outcome exn pyval).

Definition query (cfg : ServiceConfig) (filters : list pyval) (options : QueryOptions) : outcome exn pyval :=
  match cfg.(datastore) with
  | None => Raise NotImplementedError
  | Some ds =>
      let options := get_options cfg options in
      if negb options.(force_sql_filters) && bool_decide (is_Some options.(extend)) then
        result ← Datastore.query meta limit_ d fuel ds [] (without_pagination options);
        result ← py_iter result;
        of_result <$> filter_list re_match getattr result filters (filter_options options)
      else Datastore.query meta limit_ d fuel ds filters options
  end.
End query.

(** The state of a plugin, the hooks called and the events sent. *)
Record CrudState (S : Type) : Type := mkCS { inner : S; hooks : list (string * pyval); sent : list SentEvent }.
Arguments mkCS {S}. Arguments inner {S}. Arguments hooks {S}. Arguments sent {S}.

Section methods.
Context {S : Type} (cfg : ServiceConfig).
Context (do_create : pyval → M S exn pyval) (do_update : pyval → pyval → M S exn pyval)
  (do_delete : pyval → list pyval → M S exn pyval).

Notation MC := (M (CrudState S) exn).

(** [middleware._call] of a method of the plugin *)
Definition call_plugin (m : M S exn pyval) : MC pyval := λ s,
  let '(r, x) := m s.(inner) in (r, mkCS x s.(hooks) s.(sent)).

Definition call_hook (name : string) (rv : pyval) : MC unit :=
  modify (λ s, mkCS s.(inner) (s.(hooks) ++ [(name, rv)]) s.(sent)).

Definition send_event (type : string) (kwargs : pydict) : MC unit :=
  modify (λ s, mkCS s.(inner) s.(hooks) (s.(sent) ++ [mkSent (cfg.(namespace) +:+ ".query") type kwargs])).

(** [if isinstance(rv, dict) and 'id' in rv: send_event(...)] *)
Definition send_row (type : string) (rv : pyval) : MC unit :=
  match rv with
  | PDict d => match dget d "id" with
               | Some id => send_event type [("id", id); ("fields", rv)]
               | None => mret tt
               end
  | _ => mret tt
  end.

Definition create (data : pyval) : MC pyval :=
  rv ← call_plugin (do_create data);
  call_hook (cfg.(namespace) +:+ ".post_create") rv;;
  (if cfg.(event_send) then send_row "ADDED" rv else mret tt);;
  mret rv.

Definition update (id data : pyval) : MC pyval :=
  rv ← call_plugin (do_update id data);
  call_hook (cfg.(namespace) +:+ ".post_update") rv;;
  (if cfg.(event_send) then send_row "CHANGED" rv else mret tt);;
  mret rv.

Definition delete (id : pyval) (args : list pyval) : MC pyval :=
  rv ← call_plugin (do_delete id args);
  call_hook (cfg.(namespace) +:+ ".post_delete") rv;;
  (if cfg.(event_send) then send_event "CHANGED" [("id", id); ("cleared", PBool true)] else mret tt);;
  mret rv.
End methods.

Section helpers.
Context (cfg : ServiceConfig).
(** [middleware.call(f'{namespace}.query', filters, options)] *)
Context (call_query : list pyval → QueryOptions → outcome exn pyval).

Definition sql_options : QueryOptions := mkQO true None None "" [] [] [] false false 0 0 true.

(** [_get_instance]; the attribute of the error is [None]. *)
Definition get_instance (id : pyval) : outcome exn pyval :=
  instance ← call_query [PList [PStr "id"; PStr "="; id]] sql_options;
  if truthy instance then
    match instance with
    | PList (x :: _) => Ret x
    | PDict _ => Raise (KeyError "0")
    | _ => Raise (TypeError "object is not subscriptable")
    end
  else Raise (ValidationErrorExn (mkVE "None" (cfg.(verbose_name) +:+ " " +:+ py_str id +:+ " does not exist") ENOENT)).

(** [_ensure_unique] *)
Definition ensure_unique (verrors : list ValidationError) (schema_name field_name : string) (value : pyval)
    (id : option pyval) : outcome exn (list ValidationError) :=
  instance ← call_query
    (PList [PStr field_name; PStr "="; value] ::
     match id with Some id => [PList [PStr "id"; PStr "!="; id]] | None => [] end) default_options;
  Ret (if truthy instance then
         VErrors.add verrors (join "." (List.filter PyStr.nonempty [schema_name; field_name]))
           ("Object with this " +:+ field_name +:+ " already exists") EINVAL
       else verrors).
End helpers.

(** *** check_dependencies *)

Definition EBUSY : Z := 16.

(** An entry of [core.get_services]. *)
Record ServiceInfo : Type := mkSI { si_name : string; si_type : string; si_datastore : string; si_prefix : string }.

Section dependencies.
(** The services by name, [datastore.query] and [<service>.query] *)
Context (services : list ServiceInfo).
Context (ds_query : string → list pyval → outcome exn pyval) (svc_query : string → list pyval → outcome exn pyval).

(** The dict from datastores to services: a later service replaces an earlier one. *)
Definition service_of : list (string * ServiceInfo) :=
  foldl (λ m s, if String.eqb s.(si_datastore) "" then m else dset m s.(si_datastore) s) [] services.

(** What is reported of the objects that refer to the id. *)
Definition dependency_data (service : option ServiceInfo) (fk : string) (objects : pyval) : outcome exn pydict :=
  match service with
  | None => Ret [("objects", objects)]
  | Some s =>
      let query_col := if negb (String.eqb s.(si_prefix) "") && PyStr.startswith fk s.(si_prefix)
                       then PyStr.drop (String.length s.(si_prefix)) fk else fk in
      if String.eqb s.(si_type) "config" then Ret [("key", PStr query_col)]
      else if String.eqb s.(si_type) "crud" then
        objs ← py_iter objects;
        ids ← mapO (λ o, item o "id") objs;
        found ← svc_query s.(si_name) [PList [PStr "id"; PStr "in"; PList ids]];
        Ret [("objects", found)]
      else Ret [("objects", objects)]
  end.

(** One turn of the loop. *)
Definition check_backref (id : pyval) (ignored : list string) (dependencies : pydict) (ref : string * string) :
    outcome exn pydict :=
  let '(datastore, fk) := ref in
  if bool_decide (datastore ∈ ignored) then Ret dependencies
  else
    let service := dget service_of datastore in
    if match service with Some s => bool_decide (s.(si_name) ∈ ignored) | None => false end then Ret dependencies
    else
      objects ← ds_query datastore [PList [PStr fk; PStr "="; id]];
      if truthy objects then
        data ← dependency_data service fk objects;
        Ret (dset dependencies datastore
               (PDict (dupdate [("datastore", PStr datastore);
                                ("service", match service with Some s => PStr s.(si_name) | None => PNone end)] data)))
      else Ret dependencies.

Definition check_dependencies (backrefs : list (string * string)) (id : pyval) (ignored : list string) :
    outcome exn unit :=
  dependencies ← foldO (check_backref id ignored) [] backrefs;
  match dependencies with
  | [] => Ret tt
  | _ => Raise (CallError "This object is being used by other objects" EBUSY
                  (PDict [("dependencies", PList dependencies.*2)]))
  end.
End dependencies.

(** *** SharingTaskService *)

Section sharing.
Context (cfg : ServiceConfig) (path_field locked_field : string).
Context (call_extend : string → list pyval → outcome exn pyval)
  (path_in_locked_datasets : pyval → pyval → outcome exn bool).

Definition sharing_get_options (o : QueryOptions) : QueryOptions :=
  let o := get_options cfg o in
  mkQO o.(relationships) (Some (cfg.(namespace) +:+ ".sharing_task_extend"))
    (Some (cfg.(namespace) +:+ ".sharing_task_extend_context")) o.(prefix) o.(extra) o.(Datastore.order_by)
    o.(Datastore.select) o.(count) o.(Datastore.get) o.(Datastore.offset) o.(Datastore.limit) o.(force_sql_filters).

(** [sharing_task_extend] *)
Definition sharing_task_extend (data context : pyval) : outcome exn pyval :=
  args ← match cfg.(datastore_extend_context) with
         | Some _ => ctx ← item context "service_extend"; Ret [data; ctx]
         | None => Ret [data]
         end;
  data ← match cfg.(datastore_extend) with
         | Some method => call_extend method args
         | None => Ret data
         end;
  locked ← (datasets ← item context "locked_datasets"; path ← item data path_field;
            path_in_locked_datasets path datasets);
  match data with
  | PDict d => Ret (PDict (dset d locked_field (PBool locked)))
  | _ => Raise (TypeError "object does not support item assignment")
  end.
End sharing.
End CRUD.
