(* ===== verification/ServiceFacts.v ===== *)
(** * Theorems on the service base classes

    Throttled calls are spaced; get-or-insert adds at most one row to each
    datastore however its calls interleave, and never gets stuck; a CRUD query
    filtered by the database and one filtered in Python agree when the [extend]
    method leaves the filtered fields alone; [select] hides the other fields from
    the filters of an extended query; an object in use is not released. *)

From S2P Require Import Prelude PyValue Schema Filter FilterFacts Datastore DatastoreFacts DatastoreDemo DatastoreWrite Service.

(** ** throttle *)

Module ThrottleFacts.
Import Throttle.

Lemma py_eq_refl k : hashable k = true → py_eq k k = true.
Proof. destruct k; try done; intros _; cbn; [apply Z.eqb_refl|apply Z.eqb_refl|apply String.eqb_refl]. Qed.

(** Keys that are equal to a third one are equal. *)
Lemma py_eq_share k0 k k' :
  hashable k = true → hashable k' = true → py_eq k0 k' = true → py_eq k0 k = py_eq k' k.
Proof.
  destruct k0, k, k'; try done; cbn; intros _ _; rewrite ?Z.eqb_eq, ?String.eqb_eq; intros <-; done.
Qed.

Lemma py_eq_flip k k' : hashable k = true → hashable k' = true → py_eq k' k = true → py_eq k k' = true.
Proof. intros Hk Hk' He. by rewrite <-(py_eq_share k' k' k), py_eq_refl. Qed.

Lemma last_set l k k' now :
  hashable k = true → hashable k' = true →
  last_call (set_last l k' now) k = if py_eq k' k then now else last_call l k.
Proof.
  intros Hk Hk'. induction l as [|[k0 t] l IH]; cbn [set_last last_call]; [done|].
  destruct (py_eq k0 k') eqn:H0; cbn [last_call].
  - rewrite (py_eq_share k0 k k') by done. by destruct (py_eq k' k).
  - rewrite IH. destruct (py_eq k0 k) eqn:H1, (py_eq k' k) eqn:H2; try done.
    by rewrite (py_eq_share k0 k' k), py_eq_flip in H0.
Qed.

(** The times at which the calls with the key [k] registered. *)
Fixpoint accepted (period : Z) (k : pyval) (calls : list (pyval * Z)) (l : LastCalls) : list Z :=
  match calls with
  | [] => []
  | (k', now) :: calls =>
      match register_call period k' now l with
      | (true, l) => if py_eq k' k then now :: accepted period k calls l else accepted period k calls l
      | (false, l) => accepted period k calls l
      end
  end.

(** Registered calls with the same key are more than the throttle period
    apart, whatever calls with other keys come in between, and the first one is
    more than a period after the start of the monotonic clock. *)
Theorem throttle_spaces_calls period k calls l :
  hashable k = true → Forall (λ c, hashable c.1 = true) calls →
  Sorted (λ a b, period < b - a)%Z (last_call l k :: accepted period k calls l).
Proof.
  intros Hk Hcalls. revert l. induction Hcalls as [|[k' now] calls Hk' Hcalls IH]; intros l; cbn [accepted].
  { repeat constructor. }
  unfold register_call. destruct (Z.ltb_spec period (now - last_call l k')) as [Hlt|Hge]; [|apply IH].
  specialize (IH (set_last l k' now)). rewrite last_set in IH by done.
  destruct (py_eq k' k) eqn:He; [|done]. constructor; [done|]. constructor.
  assert (last_call l k = last_call l k') as ->; [|done].
  clear -He Hk Hk'. induction l as [|[k0 t] l IH]; [done|]. cbn.
  assert (py_eq k0 k = py_eq k0 k') as ->; [|by rewrite IH].
  destruct (py_eq k0 k') eqn:H0; [by rewrite (py_eq_share k0 k k')|].
  destruct (py_eq k0 k) eqn:H1; [|done].
  by rewrite (py_eq_share k0 k' k), py_eq_flip in H0.
Qed.

Lemma throttle_witness :
  accepted 2 (PStr "a") [(PStr "a", 10); (PStr "b", 11); (PStr "a", 12); (PStr "a", 13)]%Z [] = [10; 13]%Z ∧
  Sorted (λ a b, 2 < b - a)%Z [0; 10; 13]%Z.
Proof.
  split; [reflexivity|].
  apply (throttle_spaces_calls 2 (PStr "a") [(PStr "a", 10); (PStr "b", 11); (PStr "a", 12); (PStr "a", 13)]%Z []);
    [reflexivity|repeat constructor].
Defined.
End ThrottleFacts.

(** ** _get_or_insert *)

Module GetOrInsertFacts.
Import GetOrInsert.

Definition in_lock (p : pc) : bool := match p with Locked | Inserting | Reading => true | _ => false end.

(** What holds of a task, given the rows of its datastore. *)
Definition task_ok (rows : string → list pyval) (t : Task) : Prop :=
  match t.(at_) with
  | Inserting => rows t.(datastore) = []
  | Reading => rows t.(datastore) ≠ []
  | Done row => rows t.(datastore) = [row]
  | _ => True
  end.

Record inv (s : State) : Prop := {
  inv_rows ds : length (s.(table_rows) ds) ≤ 1;
  inv_lock i t : s.(tasks) !! i = Some t → in_lock t.(at_) = true ↔ s.(holder) = Some i;
  inv_holder i : s.(holder) = Some i → is_Some (s.(tasks) !! i);
  inv_task i t : s.(tasks) !! i = Some t → task_ok s.(table_rows) t;
}.

Lemma config_Some s ds row : inv s → config s ds = Some row → s.(table_rows) ds = [row].
Proof.
  intros Hinv Hc. pose proof (inv_rows s Hinv ds) as Hl. unfold config in Hc.
  destruct (s.(table_rows) ds) as [|x [|]]; cbn in *; [done|congruence|lia].
Qed.

Lemma config_None s ds : config s ds = None → s.(table_rows) ds = [].
Proof. unfold config. by destruct (s.(table_rows) ds). Qed.

(** A step that moves task [i] and leaves the rows alone. *)
Lemma goto_inv s i t p h :
  inv s → s.(tasks) !! i = Some t →
  (in_lock p = true → h = Some i) →
  (in_lock p = false → h = if in_lock t.(at_) then None else s.(holder)) →
  (in_lock t.(at_) = true ∨ s.(holder) = None ∨ h = s.(holder)) →
  task_ok s.(table_rows) (mkTask t.(datastore) p) →
  inv (goto s i t p h).
Proof.
  intros Hinv Hi Hin Hout Hown Hok. pose proof (inv_lock s Hinv i t Hi) as Hlock.
  pose proof (lookup_lt_Some _ _ _ Hi) as Hlt. split; cbn.
  - apply Hinv.
  - intros j tj. destruct (decide (i = j)) as [<-|Hne].
    + rewrite list_lookup_insert_eq by done. intros [= <-]. cbn.
      destruct (in_lock p) eqn:Hp; [by rewrite (Hin eq_refl)|]. rewrite (Hout eq_refl).
      destruct (in_lock t.(at_)); [done|]. rewrite <-Hlock. done.
    + rewrite list_lookup_insert_ne by done. intros Hj. rewrite (inv_lock s Hinv j tj Hj).
      destruct (in_lock p); [rewrite (Hin eq_refl)|rewrite (Hout eq_refl)];
        destruct (in_lock t.(at_)); destruct_or!; rewrite ?Hown in *; naive_solver.
  - intros j Hj. destruct (decide (i = j)) as [<-|Hne]; [rewrite list_lookup_insert_eq by done; eauto|].
    rewrite list_lookup_insert_ne by done. apply (inv_holder s Hinv). destruct (in_lock p); [specialize (Hin eq_refl); congruence|].
    specialize (Hout eq_refl). destruct (in_lock t.(at_)); congruence.
  - intros j tj. destruct (decide (i = j)) as [<-|Hne].
    + rewrite list_lookup_insert_eq by done. by intros [= <-].
    + rewrite list_lookup_insert_ne by done. apply (inv_task s Hinv).
Qed.

(** The row of an insert: no other task is past the lock. *)
Lemma insert_inv s i t row :
  inv s → s.(tasks) !! i = Some t → t.(at_) = Inserting →
  inv (goto (add_row s t.(datastore) row) i t Reading s.(holder)).
Proof.
  intros Hinv Hi Hat. pose proof (inv_task s Hinv i t Hi) as Hempty. unfold task_ok in Hempty. rewrite Hat in Hempty.
  assert (s.(holder) = Some i) as Hh by (apply (inv_lock s Hinv i t Hi); by rewrite Hat).
  pose proof (lookup_lt_Some _ _ _ Hi) as Hlt. split; cbn.
  - intros ds. case_decide as Hd; [subst; by rewrite Hempty|apply Hinv].
  - intros j tj. destruct (decide (i = j)) as [<-|Hne].
    + rewrite list_lookup_insert_eq by done. by intros [= <-].
    + rewrite list_lookup_insert_ne by done. apply (inv_lock s Hinv).
  - intros j Hj. assert (i = j) as <- by congruence. by rewrite list_lookup_insert_eq.
  - intros j tj. destruct (decide (i = j)) as [<-|Hne].
    + rewrite list_lookup_insert_eq by done. intros [= <-]. unfold task_ok. cbn.
      rewrite decide_True by done. by rewrite Hempty.
    + rewrite list_lookup_insert_ne by done. intros Hj. pose proof (inv_task s Hinv j tj Hj) as Hok.
      pose proof (inv_lock s Hinv j tj Hj) as Hlj. unfold task_ok in *.
      destruct tj.(at_); try done; try (by rewrite Hh in Hlj; naive_solver).
      case_decide as Hd; [by rewrite Hd, Hempty in Hok|done].
Qed.

Lemma step_inv s s' : inv s → step s s' → inv s'.
Proof.
  intros Hinv Hstep. destruct Hstep as [i t row Hi Hat Hc|i t Hi Hat Hc|i t Hi Hat Hh|i t row Hi Hat Hc|i t Hi Hat Hc
    |i t row Hi Hat|i t e Hi Hat|i t row Hi Hat Hc|i t Hi Hat Hc|ds].
  - apply goto_inv; rewrite ?Hat; auto; [done|]. by apply config_Some.
  - apply goto_inv; rewrite ?Hat; auto; done.
  - apply goto_inv; rewrite ?Hat; auto; done.
  - apply goto_inv; rewrite ?Hat; auto; [done|]. by apply config_Some.
  - assert (s.(holder) = Some i) as Hh by (apply (inv_lock s Hinv i t Hi); by rewrite Hat).
    apply goto_inv; rewrite ?Hat; auto; [done|]. by apply config_None.
  - by apply insert_inv.
  - apply goto_inv; rewrite ?Hat; auto; done.
  - apply goto_inv; rewrite ?Hat; auto; [done|]. by apply config_Some.
  - apply goto_inv; rewrite ?Hat; auto; done.
  - split; cbn; [apply Hinv| | |].
    + intros i t [[_ Hi]|[-> <-]]%lookup_snoc_Some; [by apply (inv_lock s Hinv)|].
      split; [done|]. intros Hh%(inv_holder s Hinv)%lookup_lt_is_Some. lia.
    + intros i [t Ht]%(inv_holder s Hinv). exists t. by apply lookup_app_l_Some.
    + intros i t [[_ Hi]|[_ <-]]%lookup_snoc_Some; [by apply (inv_task s Hinv i)|done].
Qed.

Lemma reachable_inv rows s : (∀ ds, length (rows ds) ≤ 1) → reachable rows s → inv s.
Proof.
  intros Hrows Hr. assert (inv (initial rows)) as H0 by (split; cbn; [done|by intros i|by intros i|by intros i]).
  revert H0. unfold reachable in Hr. induction Hr as [s|s1 s2 s3 Hstep Hr IH]; [done|].
  intros H0. apply IH. by eapply step_inv.
Qed.

Definition finished (p : pc) : bool := match p with Done _ | Failed _ => true | _ => false end.

(** A task that is not finished, or the one that holds the lock, can go on. *)
Lemma task_steps s i t :
  inv s → s.(tasks) !! i = Some t → finished t.(at_) = false → (t.(at_) = Waiting → s.(holder) = None) →
  ∃ s', step s s' ∧ length s'.(tasks) = length s.(tasks).
Proof.
  intros Hinv Hi Hfin Hw.
  assert (∀ s' p h, step s (goto s' i t p h) → s'.(tasks) = s.(tasks) →
    ∃ s', step s s' ∧ length s'.(tasks) = length s.(tasks)) as Hgo.
  { intros s' p h Hs Ht. eexists. split; [exact Hs|]. cbn. by rewrite length_insert, Ht. }
  destruct t.(at_) eqn:Hat; try done.
  - destruct (config s t.(datastore)) as [row|] eqn:Hc; eapply Hgo; [by eapply config_found|done|by eapply config_missing|done].
  - eapply Hgo; [by apply lock_acquired; auto|done].
  - destruct (config s t.(datastore)) as [row|] eqn:Hc; eapply Hgo; [by eapply locked_found|done|by eapply locked_missing|done].
  - eapply Hgo; [by apply (inserted s i t PNone)|done].
  - destruct (config s t.(datastore)) as [row|] eqn:Hc; eapply Hgo; [by eapply read_back|done|by eapply read_missing|done].
Qed.

(** C15. However the calls interleave, get-or-insert leaves at most one row in each
    datastore that started with at most one; every finished call has that row, and
    the query after an insert always finds it. *)
Theorem get_or_insert_once rows s :
  (∀ ds, length (rows ds) ≤ 1) → reachable rows s →
  (∀ ds, length (s.(table_rows) ds) ≤ 1) ∧
  (∀ i t row, s.(tasks) !! i = Some t → t.(at_) = Done row → s.(table_rows) t.(datastore) = [row]) ∧
  (∀ i t, s.(tasks) !! i = Some t → t.(at_) = Reading → config s t.(datastore) ≠ None).
Proof.
  intros Hrows Hr%reachable_inv; [|done]. split_and!.
  - apply Hr.
  - intros i t row Hi Hat. pose proof (inv_task s Hr i t Hi) as Hok. unfold task_ok in Hok. by rewrite Hat in Hok.
  - intros i t Hi Hat. pose proof (inv_task s Hr i t Hi) as Hok. unfold task_ok in Hok. rewrite Hat in Hok.
    unfold config. by destruct (s.(table_rows) _).
Qed.

(** Get-or-insert never gets stuck: while a call is unfinished some call can
    take a step, since whoever holds the lock can. *)
Theorem get_or_insert_progress rows s i t :
  (∀ ds, length (rows ds) ≤ 1) → reachable rows s →
  s.(tasks) !! i = Some t → finished t.(at_) = false →
  ∃ s', step s s' ∧ length s'.(tasks) = length s.(tasks).
Proof.
  intros Hrows Hr%reachable_inv Hi Hfin; [|done].
  destruct (s.(holder)) as [j|] eqn:Hh; [|by eapply task_steps].
  destruct (inv_holder s Hr j Hh) as [tj Hj]. apply (inv_lock s Hr j tj Hj) in Hh as Hin.
  apply (task_steps s j tj); [done|done|by destruct tj.(at_)|by intros Hat; rewrite Hat in Hin].
Qed.

(** *** Witnesses *)

Definition no_rows (ds : string) : list pyval := [].

Definition two_calls : State :=
  mkState no_rows None [mkTask "system.settings" Start; mkTask "system.settings" Waiting].

Lemma two_calls_reachable : reachable no_rows two_calls.
Proof.
  eapply rtc_l; [apply (call_made _ "system.settings")|]. eapply rtc_l; [apply (call_made _ "system.settings")|].
  eapply rtc_l; [by apply (config_missing _ 1 (mkTask "system.settings" Start))|]. apply rtc_refl.
Qed.

Lemma get_or_insert_once_witness :
  length (no_rows "system.settings") ≤ 1 ∧ length (two_calls.(table_rows) "system.settings") ≤ 1.
Proof.
  split; [cbn; lia|].
  apply (get_or_insert_once no_rows two_calls ltac:(intros ds; cbn; lia) two_calls_reachable).
Defined.

Lemma get_or_insert_progress_witness :
  ∃ s', step two_calls s' ∧ length s'.(tasks) = 2.
Proof.
  apply (get_or_insert_progress no_rows two_calls 1 (mkTask "system.settings" Waiting)
    ltac:(intros ds; cbn; lia) two_calls_reachable eq_refl eq_refl).
Defined.
End GetOrInsertFacts.

(** ** CRUD queries *)

Module CRUDFacts.
Import CRUD.

Section query.
Context {D : Type} `{!Database D} (meta : Metadata) (limit_ fuel : nat) (d : D).
Context (rows : D → Table → list Row) (truth : SqlExpr → Row → option bool).
Context (laws : sql_laws rows truth).
Context (re_match : pyval → pyval → outcome exn bool) (getattr : pyval → pyval → outcome exn pyval).

Notation crud_query := (CRUD.query meta limit_ fuel d re_match getattr).

(** The options of a call that asks for everything, with or without
    [force_sql_filters]. *)
Definition all_options (force : bool) : QueryOptions := mkQO false None None "" [] [] [] false false 0 0 force.

(** [force_sql_filters] does not change the answer of a service: when its
    [extend] method turns the item of each row into [ext r] and the fields that
    the filters name are the same there, filtering in SQL before extending and
    filtering the extended items in Python give the same list. *)
Theorem force_sql_filters_same cfg name t m ext q :
  cfg.(datastore) = Some name → cfg.(datastore_extend) = Some m → cfg.(datastore_extend_context) = None →
  0 < fuel → 0 < limit_ → handle_removed_tables name false = None → get_table meta name = Ret t →
  NoDup (item_names t cfg.(datastore_prefix)) → forallb (complete t) (rows d t) = true →
  forallb (λ cl, forallb (cond_ok t cfg.(datastore_prefix) (rows d t)) (conds cl)) q = true →
  (∀ r, r ∈ rows d t → call_method m [PDict (item_of t cfg.(datastore_prefix) r)] = Ret (PDict (ext r)) ∧
     shows_all t cfg.(datastore_prefix) q r (ext r)) →
  ∃ l, crud_query cfg (conjunct_filters q) (all_options true) = Ret (PList l) ∧
       crud_query cfg (conjunct_filters q) (all_options false) = Ret (PList l).
Proof using laws.
  intros Hds Hext Hctx Hf Hl Hstub Ht Hnd Hrows Hq Hm.
  destruct (conjuncts_exprs t _ _ q Hq Hnd) as [Hws Hsup]. unfold CRUD.query. rewrite Hds.
  set (sel := λ r, forallb (λ e, true_on truth e r) (conjunct_expr t cfg.(datastore_prefix) <$> q)).
  exists ((λ r, PDict (ext r)) <$> List.filter sel (rows d t)).
  assert (∀ force rs, rs ⊆ rows d t →
    mapO (λ r, extended (get_options cfg (all_options force)) (item_of t cfg.(datastore_prefix) r)) rs =
      Ret ((λ r, PDict (ext r)) <$> rs)) as Hmap.
  { intros force rs. assert (∀ it, extended (get_options cfg (all_options force)) it = call_method m [PDict it]) as He
      by (intros it; unfold extended; cbn [get_options extend]; by rewrite Hext).
    induction rs as [|r rs IH]; intros Hsub; [done|]. cbn [mapO]. rewrite He.
    rewrite (proj1 (Hm r ltac:(set_solver))), IH by set_solver. done. }
  assert (∀ force filters ws, filters_to_queryset (mkRef [] t) cfg.(datastore_prefix) [] filters = Ret ws →
    forallb supported ws = true →
    Datastore.query meta limit_ d fuel name filters (get_options cfg (all_options force)) =
      Ret (PList ((λ r, PDict (ext r)) <$> List.filter (λ r, forallb (λ e, true_on truth e r) ws) (rows d t)))) as Hquery.
  { intros force filters ws Hfw Hsw.
    rewrite (query_extended meta limit_ d rows truth laws fuel name t _ filters ws); try done.
    - change (Datastore.prefix (get_options cfg (all_options force))) with cfg.(datastore_prefix).
      rewrite Hmap; [done|]. intros r Hr. apply list_elem_of_In in Hr. apply filter_In in Hr as [Hr _].
      by apply list_elem_of_In.
    - unfold bare, get_options. by rewrite Hctx. }
  split.
  - cbn [negb force_sql_filters get_options all_options andb]. by rewrite (Hquery true _ _ Hws Hsup).
  - change (negb (force_sql_filters (get_options cfg (all_options false)))) with true.
    change (extend (get_options cfg (all_options false))) with cfg.(datastore_extend). rewrite Hext.
    rewrite bool_decide_eq_true_2 by eauto. cbn [andb].
    change (without_pagination (get_options cfg (all_options false))) with (get_options cfg (all_options false)).
    rewrite (Hquery false [] []) by done. cbn [forallb]. rewrite filter_true.
    unfold mbind, outcome_bind. cbn [py_iter].
    pose proof (filter_items d rows truth laws re_match getattr ext t _ q Hrows Hnd Hq (λ r Hr, proj2 (Hm r Hr))) as Hfl.
    change (filter_options (get_options cfg (all_options false))) with (mkOpts [] false false [] 0 0).
    by rewrite Hfl.
Qed.

(** ** select *)

(** The items of a query with [select] have only the selected names. *)
Definition only (names : list string) (v : pyval) : Prop :=
  ∃ data, v = PDict data ∧ ∀ k, k ∉ names → dget data k = None.

Lemma dget_filter (p : string → bool) (data : pydict) k :
  p k = false → dget (List.filter (λ kv, p kv.1) data) k = None.
Proof.
  intros Hp. induction data as [|[k' v] data IH]; [done|]. cbn. destruct (p k') eqn:Hk'; [|done].
  cbn. rewrite decide_False; [done|congruence].
Qed.

Lemma serialize_only aliases t opts ctx row rels v :
  opts.(Datastore.select) ≠ [] → serialize limit_ aliases t opts ctx row rels = Ret v → only opts.(Datastore.select) v.
Proof.
  intros Hsel (data & _ & (data' & _ & H)%outcome_bind_Ret)%outcome_bind_Ret.
  destruct opts.(Datastore.select) as [|n names]; [done|]. destruct data' as [| | | | |dd]; try done.
  injection H as <-. eexists. split; [done|]. intros k Hk.
  apply (dget_filter (λ k', @bool_decide (k' ∈ n :: names) (decide_rel elem_of k' (n :: names)))). by apply bool_decide_eq_false.
Qed.

Lemma query_only name o res :
  o.(Datastore.select) ≠ [] → o.(count) = false → o.(Datastore.get) = false → handle_removed_tables name false = None →
  Datastore.query meta limit_ d fuel name [] o = Ret res →
  ∃ l, res = PList l ∧ Forall (only o.(Datastore.select)) l.
Proof.
  intros Hsel Hcount Hget Hstub. destruct fuel as [|n]; [done|]. cbn [Datastore.query].
  rewrite Hget, Hstub, Hcount. intros (t & _ & Hq)%outcome_bind_Ret.
  apply outcome_bind_Ret in Hq as (aliases & _ & Hq). apply outcome_bind_Ret in Hq as (ws & _ & Hq).
  unfold run_query in Hq. rewrite Hget in Hq.
  apply outcome_bind_Ret in Hq as (ord & _ & Hq). apply outcome_bind_Ret in Hq as (rs & _ & Hq).
  apply outcome_bind_Ret in Hq as (rels & _ & Hq). apply outcome_bind_Ret in Hq as (l & Hser & [= <-]).
  exists l. split; [done|]. apply outcome_bind_Ret in Hser as (ctx & _ & Hser%mapO_Ret).
  eapply Forall2_Forall_r; [exact Hser|]. apply Forall_forall. intros rr _ v. by apply serialize_only.
Qed.

(** In a service with an [extend] method a query that selects fields finds
    nothing when it filters on the equality of another field: [select] is not
    among the options taken away from the inner query, so the field is gone when
    the filters are applied. *)
Theorem select_hides_filtered_field cfg name o n v res :
  cfg.(datastore) = Some name → is_Some cfg.(datastore_extend) → o.(force_sql_filters) = false →
  handle_removed_tables name false = None →
  o.(Datastore.select) ≠ [] → n ∉ o.(Datastore.select) → o.(count) = false → o.(Datastore.get) = false →
  o.(Datastore.order_by) = [] → n ≠ "" → PyStr.count dot n = 0 → v ≠ PNone →
  Datastore.query meta limit_ d fuel name [] (without_pagination (get_options cfg o)) = Ret res →
  crud_query cfg [PList [PStr n; PStr "="; v]] o = Ret (PList []).
Proof.
  intros Hds Hext Hforce Hstub Hsel Hn Hcount Hget Hord Hn0 Hdot Hv Hres. unfold CRUD.query. rewrite Hds.
  cbn [get_options force_sql_filters extend]. rewrite Hforce, bool_decide_eq_true_2 by done. cbn [negb andb].
  fold (get_options cfg o). rewrite Hres.
  destruct (query_only name (without_pagination (get_options cfg o)) res Hsel eq_refl eq_refl Hstub Hres) as (l & -> & Hl).
  unfold mbind, outcome_bind. cbn [py_iter]. cbn [without_pagination get_options Datastore.select] in Hl.
  assert (filter_loop re_match getattr [PList [PStr n; PStr "="; v]] (filter_options (get_options cfg o)) l = Ret (inl [])) as Hloop.
  { clear Hres. induction Hl as [|x l (data & -> & Hd) Hl IH]; [done|]. cbn [filter_loop]. unfold valid. cbn [allO].
    assert (one_filter re_match getattr (PDict data) (PList [PStr n; PStr "="; v]) = Ret false) as ->; [|done].
    unfold one_filter, filterop. cbn. rewrite get_simple by done. cbn. rewrite (Hd n Hn). cbn. by destruct v. }
  unfold filter_list. rewrite Hloop. unfold mbind, outcome_bind, finish, filter_options, get_options.
  cbn [o_count o_get Filter.order_by Filter.offset Filter.limit count Datastore.get Datastore.order_by
       Datastore.offset Datastore.limit].
  rewrite Hcount, Hord, Hget. cbn. unfold slice_from, slice_to. repeat case_match; cbn; by rewrite ?drop_nil, ?take_nil.
Qed.
End query.

(** ** check_dependencies *)

Section dependencies.
Context (services : list ServiceInfo).
Context (ds_query : string → list pyval → outcome exn pyval) (svc_query : string → list pyval → outcome exn pyval).

(** The references that the caller asked not to look at. *)
Definition skipped (ignored : list string) (datastore : string) : bool :=
  bool_decide (datastore ∈ ignored) ||
  match dget (service_of services) datastore with Some s => bool_decide (s.(si_name) ∈ ignored) | None => false end.

(** No object refers to the id through [ref]. *)
Definition unused (id : pyval) (ref : string * string) : Prop :=
  ∃ o, ds_query ref.1 [PList [PStr ref.2; PStr "="; id]] = Ret o ∧ truthy o = false.

Lemma dset_nonempty {A} (m : list (string * A)) k v : dset m k v ≠ [].
Proof. destruct m as [|[k' v'] m]; cbn; [done|]. by case_decide. Qed.

(** A turn of the loop either finds nothing or records something. *)
Lemma check_backref_spec id ignored deps ref deps' :
  check_backref services ds_query svc_query id ignored deps ref = Ret deps' →
  (deps' = deps ∧ (skipped ignored ref.1 = true ∨ unused id ref)) ∨ deps' ≠ [].
Proof.
  destruct ref as [ds fk]. unfold check_backref, skipped. cbn [fst snd].
  case_bool_decide as Hd; [intros [= <-]; by left; split; [|left]|].
  destruct (match dget _ ds with Some s => _ | None => false end) eqn:Hs; [intros [= <-]; by left; split; [|left]|].
  intros (objs & Ho & H)%outcome_bind_Ret. destruct (truthy objs) eqn:Ht.
  - apply outcome_bind_Ret in H as (data & _ & [= <-]). right. apply dset_nonempty.
  - injection H as <-. left. split; [done|]. right. by exists objs.
Qed.

Lemma check_backref_unused id ignored deps ref :
  skipped ignored ref.1 = true ∨ unused id ref →
  check_backref services ds_query svc_query id ignored deps ref = Ret deps.
Proof.
  destruct ref as [ds fk]. unfold check_backref, skipped, unused. cbn [fst snd].
  case_bool_decide; [done|]. destruct (match dget _ ds with Some s => _ | None => false end); [done|].
  intros [?|(o & -> & Ht)]; [done|]. unfold mbind, outcome_bind. by rewrite Ht.
Qed.

Lemma dependencies_spec backrefs id ignored deps deps' :
  foldO (check_backref services ds_query svc_query id ignored) deps backrefs = Ret deps' →
  deps' = [] → deps = [] ∧ Forall (λ ref, skipped ignored ref.1 = true ∨ unused id ref) backrefs.
Proof.
  revert deps. induction backrefs as [|ref refs IH]; intros deps; cbn [foldO]; [by intros [= ->]|].
  intros (deps1 & H1 & Hf)%outcome_bind_Ret Hnil. destruct (IH _ Hf Hnil) as [-> Hrefs].
  destruct (check_backref_spec _ _ _ _ _ H1) as [[<- Href]|Hne]; [|done]. split; [done|]. by constructor.
Qed.

Lemma check_dependencies_spec backrefs id ignored :
  check_dependencies services ds_query svc_query backrefs id ignored = Ret tt ↔
  ∀ ref, ref ∈ backrefs → skipped ignored ref.1 = true ∨ unused id ref.
Proof.
  rewrite <-Forall_forall. unfold check_dependencies. split.
  - intros (deps & Hf & H)%outcome_bind_Ret. destruct deps as [|x deps]; [|done].
    by apply (dependencies_spec _ _ _ _ _ Hf).
  - intros Hall. assert (∀ deps, foldO (check_backref services ds_query svc_query id ignored) deps backrefs = Ret deps) as ->.
    { induction Hall as [|ref refs Href Hrefs IH]; intros deps; cbn [foldO]; [done|].
      rewrite check_backref_unused by done. apply IH. }
    done.
Qed.
End dependencies.

(** The references of [get_backrefs]: the columns of every table whose key names
    the table and says nothing of deletion. *)
Lemma get_backrefs_spec meta name t refs :
  get_table meta name = Ret t → get_backrefs meta name = Ret refs →
  ∀ k t' col fk fks, (k, t') ∈ meta.(tables) → col ∈ t'.(c) → col.(foreign_keys) = fk :: fks →
    fk.(fk_table) = t.(t_name) → fk.(ondelete) = None →
    (replace_first "_" "." t'.(t_name),
     if PyStr.endswith col.(c_name) "_id" then drop_last3 col.(c_name) else col.(c_name)) ∈ refs.
Proof.
  unfold get_backrefs. intros -> [= <-] k t' col fk fks Ht Hcol Hfk Hname Hod.
  apply list_elem_of_In, in_flat_map. exists (k, t'). split; [by apply list_elem_of_In|].
  apply in_flat_map. exists col. split; [by apply list_elem_of_In|].
  rewrite Hfk, Hname, String.eqb_refl, Hod. by left.
Qed.

(** An object passes [check_dependencies] exactly when no reference to its
    table, other than the ignored ones, finds an object that refers to it; and
    every foreign key to the table that is not cascaded or cleared on deletion is
    such a reference. *)
Theorem check_dependencies_complete services ds_query svc_query meta name t refs id ignored :
  get_table meta name = Ret t → get_backrefs meta name = Ret refs →
  (check_dependencies services ds_query svc_query refs id ignored = Ret tt ↔
   ∀ ref, ref ∈ refs → skipped services ignored ref.1 = true ∨ unused ds_query id ref) ∧
  ∀ k t' col fk fks, (k, t') ∈ meta.(tables) → col ∈ t'.(c) → col.(foreign_keys) = fk :: fks →
    fk.(fk_table) = t.(t_name) → fk.(ondelete) = None →
    (replace_first "_" "." t'.(t_name),
     if PyStr.endswith col.(c_name) "_id" then drop_last3 col.(c_name) else col.(c_name)) ∈ refs.
Proof.
  intros Ht Hrefs. split; [apply check_dependencies_spec|by apply (get_backrefs_spec meta name)].
Qed.

(** ** Events of a CRUD service *)

(** An event is sent exactly when the method returned, with its result. *)
Lemma create_event {S} (cfg : ServiceConfig) (do_create : pyval → M S exn pyval) data rv d id s x :
  do_create data s.(inner) = (Ret rv, x) → rv = PDict d → dget d "id" = Some id → cfg.(event_send) = true →
  create cfg do_create data s =
    (Ret rv, mkCS x (s.(hooks) ++ [(cfg.(namespace) +:+ ".post_create", rv)])
       (s.(sent) ++ [mkSent (cfg.(namespace) +:+ ".query") "ADDED" [("id", id); ("fields", rv)]])).
Proof.
  intros Hc -> Hid Hev. unfold create, call_plugin, mbind, M_bind. rewrite Hc, Hev. cbn. by rewrite Hid.
Qed.

Lemma create_raises {S} (cfg : ServiceConfig) (do_create : pyval → M S exn pyval) data e s x :
  do_create data s.(inner) = (Raise e, x) → create cfg do_create data s = (Raise e, mkCS x s.(hooks) s.(sent)).
Proof. intros Hc. unfold create, call_plugin, mbind, M_bind. by rewrite Hc. Qed.

(** ** Witnesses *)

(** The users of [DatastoreDemo] with an [extend] method that adds a field. *)
#[local] Instance ext_database : Database MemDB := {
  fetchall := @fetchall MemDB mem_database;
  fetch_count := @fetch_count MemDB mem_database;
  call_method m args :=
    match args with
    | [PDict it] => Ret (PDict (it ++ [("builtin", PBool false)]))
    | _ => Raise (TypeError m)
    end;
  set_iter l := l;
}.

Lemma ext_laws : @sql_laws MemDB ext_database mem_rows mem_truth.
Proof. destruct mem_laws. by split. Qed.

Definition user_config : ServiceConfig :=
  mkSC "user" (Some "account.bsdusers") "bsdusr_" (Some "user.user_extend") None true "User".

Definition user_ext (r : Row) : pydict := item_of users_table "bsdusr_" r ++ [("builtin", PBool false)].

Lemma force_sql_filters_same_witness :
  ∃ l, @CRUD.query MemDB ext_database demo_meta 5 5 demo_db (λ _ _, Ret false) (λ _ _, Ret PNone) user_config
         (conjunct_filters demo_conjuncts) (all_options true) = Ret (PList l) ∧
       @CRUD.query MemDB ext_database demo_meta 5 5 demo_db (λ _ _, Ret false) (λ _ _, Ret PNone) user_config
         (conjunct_filters demo_conjuncts) (all_options false) = Ret (PList l).
Proof.
  apply (force_sql_filters_same (Database0 := ext_database) demo_meta 5 5 demo_db mem_rows mem_truth ext_laws
    (λ _ _, Ret false) (λ _ _, Ret PNone) user_config "account.bsdusers" users_table "user.user_extend" user_ext
    demo_conjuncts); try (vm_compute; reflexivity); try lia.
  - apply (bool_decide_unpack _). vm_compute. exact I.
  - intros r Hr. split; [reflexivity|]. cbn in Hr.
    apply elem_of_cons in Hr as [-> |[-> |[-> |[]%elem_of_nil]%elem_of_cons]%elem_of_cons];
      repeat constructor; vm_compute; reflexivity.
Defined.

Definition select_username : QueryOptions := mkQO true None None "" [] [] ["username"] false false 0 0 false.

Lemma select_hides_filtered_field_witness :
  @CRUD.query MemDB ext_database demo_meta 5 5 demo_db (λ _ _, Ret false) (λ _ _, Ret PNone) user_config
    [PList [PStr "uid"; PStr "="; PInt 0]] select_username = Ret (PList []).
Proof.
  apply (select_hides_filtered_field (Database0 := ext_database) demo_meta 5 5 demo_db (λ _ _, Ret false) (λ _ _, Ret PNone)
    user_config "account.bsdusers" select_username "uid" (PInt 0)
    (PList [PDict [("username", PStr "root")]; PDict [("username", PStr "operator")]; PDict [("username", PStr "ann")]]));
    try discriminate; try (vm_compute; reflexivity).
  - by exists "user.user_extend".
  - apply (bool_decide_unpack _). vm_compute. exact I.
Defined.

Definition cert_table : Table := mkTable "system_certificate" [mkColumn "id" true [] false None Integer].
Definition ftp_table : Table :=
  mkTable "services_ftp" [mkColumn "id" true [] false None Integer;
    mkColumn "ftp_ssltls_certificate_id" false [mkFK "system_certificate" "id" None] true None Integer].
Definition cert_meta : Metadata :=
  mkMeta [("system_certificate", cert_table); ("services_ftp", ftp_table)] [].

Lemma check_dependencies_complete_witness :
  get_backrefs cert_meta "system.certificate" = Ret [("services.ftp", "ftp_ssltls_certificate")] ∧
  (check_dependencies [] (λ _ _, Ret (PList [PInt 1])) (λ _ _, Ret PNone)
     [("services.ftp", "ftp_ssltls_certificate")] (PInt 7) [] = Ret tt ↔
   ∀ ref, ref ∈ [("services.ftp", "ftp_ssltls_certificate")] →
     skipped [] [] ref.1 = true ∨ unused (λ _ _, Ret (PList [PInt 1])) (PInt 7) ref).
Proof.
  split; [vm_compute; reflexivity|].
  apply (check_dependencies_complete [] (λ _ _, Ret (PList [PInt 1])) (λ _ _, Ret PNone) cert_meta "system.certificate"
    cert_table [("services.ftp", "ftp_ssltls_certificate")] (PInt 7) []); vm_compute; reflexivity.
Defined.
End CRUDFacts.
