(* ===== verification/ApiKey.v ===== *)
(** * API keys: plugins/api_key.py

    A CRUD service over the table account_api_key.  A key is shown once, when it is
    made: its id, a dash and a random secret, of which the table holds a hash.  The
    hash functions of passlib and the clock are arguments, and so is the choice of
    each random character. *)

From S2P Require Import Prelude PyValue Schema Filter Datastore DatastoreWrite Service.

(** [APIKeyModel] *)
Definition api_key_table : Table :=
  mkTable "account_api_key"
    [mkColumn "id" true [] false None Integer;
     mkColumn "name" false [] false None SaString;
     mkColumn "key" false [] false None SaString;
     mkColumn "created_at" false [] false None Other].

Definition api_key_config : CRUD.ServiceConfig :=
  CRUD.mkSC "api_key" (Some "account.api_key") "" (Some "api_key.item_extend") None true "ApiKey".

(** [item.pop("key")] *)
Definition item_extend (item : pyval) : outcome exn pyval :=
  match item with
  | PDict d => if dhas d "key" then Ret (PDict (ddel d "key")) else Raise (KeyError "key")
  | _ => Raise (AttributeError "object has no attribute 'pop'")
  end.

(** [string.ascii_letters + string.digits] *)
Definition alphabet : string := "abcdefghijklmnopqrstuvwxyzABCDEFGHIJKLMNOPQRSTUVWXYZ0123456789".

(** [_generate]: [choice i] is the index of the character chosen at position [i]. *)
Definition generate (choice : nat → nat) : string :=
  String.string_of_list_ascii
    ((λ i, from_option (λ c, c) "a"%char (String.get (choice i mod String.length alphabet) alphabet)) <$> seq 0 64).

(** [_serve] *)
Definition serve (data : pyval) (key : option string) : outcome exn pyval :=
  match key with
  | None => Ret data
  | Some key =>
      id ← item data "id";
      match data with
      | PDict d => Ret (PDict (dset d "key" (PStr (py_str id +:+ "-" +:+ key))))
      | _ => Raise (TypeError "object is not iterable")
      end
  end.

Section api_key.
Context {D : Type} `{!Database D, !DatabaseWrite D} (meta : Metadata) (limit_ fuel : nat).
Context (re_match : pyval → pyval → outcome exn bool) (getattr : pyval → pyval → outcome exn pyval).
(** [pbkdf2_sha256.encrypt] and [pbkdf2_sha256.verify] *)
Context (encrypt : string → string) (verify : string → string → bool).

Notation MW := (M (DS D) exn).

(** [_validate] *)
Definition validate (schema_name : string) (data : pyval) (id : option pyval) : MW unit := λ s,
  (name ← item data "name";
   verrors ← CRUD.ensure_unique
     (CRUD.query meta limit_ fuel s.(db) re_match getattr api_key_config) [] schema_name "name" name id;
   VErrors.check verrors, s).

(** [_get_instance] *)
Definition get_instance (id : pyval) : MW pyval := λ s,
  (CRUD.get_instance api_key_config (CRUD.query meta limit_ fuel s.(db) re_match getattr api_key_config) id, s).

Definition do_create (data : pydict) (key : string) (utcnow : pyval) : MW pyval :=
  validate "api_key_create" (PDict data) None;;
  let data := dset data "key" (PStr (encrypt key)) in
  let data := dset data "created_at" utcnow in
  id ← insert meta "account.api_key" data default_write;
  lift (serve (PDict (dset data "id" id)) (Some key)).

Definition do_update (id : pyval) (data : pydict) (key : string) : MW pyval :=
  let reset := from_option (λ v, v) (PBool false) (dget data "reset") in
  let data := ddel data "reset" in
  old ← get_instance id;
  new ← lift (match old with
              | PDict old => Ret (dupdate old data)
              | _ => Raise (AttributeError "object has no attribute 'update'")
              end);
  validate "api_key_update" (PDict new) (Some id);;
  let '(key, new) := if truthy reset then (Some key, dset new "key" (PStr (encrypt key))) else (None, new) in
  update meta limit_ fuel "account.api_key" (id_or_filters id) new default_write;;
  instance ← get_instance id;
  lift (serve instance key).

Definition do_delete (id : pyval) : MW pyval :=
  delete meta "account.api_key" (id_or_filters id) default_write.

(** [key.split("-", 1)] and [int(key_id)]: [None] when either raises
    [ValueError]. *)
Definition parse_key (key : string) : option (Z * string) :=
  match PyStr.split1 "-" key with
  | Some (key_id, key) => (λ z, (z, key)) <$> py_int key_id
  | None => None
  end.

Definition authenticate (key : string) : MW pyval :=
  match parse_key key with
  | None => mret PNone
  | Some (key_id, key) =>
      found ← try_except
        (λ s, (Some <$> query meta limit_ s.(db) fuel "account.api_key" [PList [PStr "id"; PStr "="; PInt key_id]]
                 (mkQO true None None "" [] [] [] false true 0 0 false), s))
        (λ e, match e with MatchNotFound => mret None | _ => raise e end);
      match found with
      | None => mret PNone
      | Some db_key =>
          hash ← lift (item db_key "key");
          match hash with
          | PStr hash => mret (if verify key hash then db_key else PNone)
          | _ => raise (TypeError "hash must be unicode or bytes")
          end
      end
  end.
End api_key.
