(* ===== verification/ApiKeyFacts.v ===== *)
(** * Theorems on API keys

    The key that is shown when it is made authenticates as its row until it is
    deleted, and nothing else does. *)

From S2P Require Import Prelude PyValue Schema Filter PyNum Datastore DatastoreFacts DatastoreDemo DatastoreWrite DatastoreWriteFacts Service ApiKey.

(** A deletion removes the selected rows. *)
Definition delete_law {D} `{!DatabaseWrite D} (rows : D → Table → list Row) (truth : SqlExpr → Row → option bool) : Prop :=
  ∀ t ws sync d res d', execute_write (DeleteWhere t.(t_name) ws) sync d = (Ret res, d') →
    rows d' t = List.filter (λ r, negb (forallb (λ e, bool_decide (truth e r = Some true)) ws)) (rows d t).

Definition api_row_ok (r : Row) : bool :=
  complete api_key_table r && is_pint (cell_at r "id") && is_pstr (cell_at r "key").

Definition has_id (z : Z) (r : Row) : bool := bool_decide (cell_at r "id" = PInt z).

Lemma parse_served z key : (0 ≤ z)%Z → parse_key (pretty z +:+ "-" +:+ key) = Some (z, key).
Proof.
  intros Hz. unfold parse_key. change ("-" +:+ key) with (String "-" key). rewrite (proj2 (PyStr.split1_Some "-" _ (pretty z) key)); [by rewrite py_int_pretty|]. split; [done|].
  destruct z as [|p|p]; [done| |lia]. apply count_in_digits; [done|apply pretty_pos_digits].
Qed.

Section api_key.
Context {D : Type} `{!Database D, !DatabaseWrite D} (meta : Metadata) (limit_ fuel : nat).
Context (re_match : pyval → pyval → outcome exn bool) (getattr : pyval → pyval → outcome exn pyval).
Context (encrypt : string → string) (verify : string → string → bool).
Context (rows : D → Table → list Row) (truth : SqlExpr → Row → option bool).
Context (laws : sql_laws rows truth) (wlaws : write_laws rows truth) (dlaw : delete_law rows truth).
Context (Htable : get_table meta "account.api_key" = Ret api_key_table).
Context (Hmodel : dget meta.(models) "account_api_key" = Some []).
Context (Hlimit : 0 < limit_) (Hfuel : 0 < fuel).
Implicit Types (s : DS D).

Notation keys s := (rows s.(db) api_key_table).
Notation authenticate := (authenticate meta limit_ fuel verify).
Notation do_create := (do_create meta limit_ fuel re_match getattr encrypt).

Definition api_id : Column := mkColumn "id" true [] false None Integer.

Lemma id_selects z r :
  api_row_ok r = true →
  forallb (λ e, bool_decide (truth e r = Some true)) [SqlBin SqlEq (mkColRef [] api_id) (PInt z)] = has_id z r.
Proof using laws.
  intros Hok. unfold api_row_ok in Hok. rewrite !andb_true_iff in Hok. destruct Hok as [[Hc Hi] _]. cbn [forallb].
  rewrite andb_true_r. destruct (cell_at r "id") as [| |i| | |] eqn:Hid; try done.
  rewrite (law_bin _ _ laws SqlEq (mkColRef [] api_id) (PInt z) r (PInt i)); try done.
  - unfold has_id. rewrite Hid. cbn. destruct (Z.eqb_spec i z) as [-> |]; [by rewrite !bool_decide_eq_true_2|].
    rewrite !bool_decide_eq_false_2; congruence.
  - pose proof (complete_get api_key_table r api_id Hc ltac:(by left)) as Hg. cbn in Hg. rewrite Hid in Hg. done.
Qed.

(** The rows that [authenticate] looks at. *)
Lemma query_by_id z s :
  forallb api_row_ok (keys s) = true →
  query meta limit_ s.(db) fuel "account.api_key" [PList [PStr "id"; PStr "="; PInt z]]
    (mkQO true None None "" [] [] [] false true 0 0 false) =
  pick true ((λ r, PDict (item_of api_key_table "" r)) <$> List.filter (has_id z) (keys s)).
Proof using laws Htable Hmodel Hlimit Hfuel.
  intros Hok. rewrite (query_bare meta limit_ s.(db) rows truth laws fuel "account.api_key" api_key_table
    (mkQO true None None "" [] [] [] false true 0 0 false) _ [SqlBin SqlEq (mkColRef [] api_id) (PInt z)]); try done.
  - cbn [get prefix]. do 2 f_equal. apply filter_ext_elem. intros r Hr. apply id_selects. by apply (forallb_elem _ _ _ Hok).
  - intros _. unfold flat_table. rewrite !andb_true_iff. split; [split; [done|]|done]. cbn. by rewrite Hmodel.
  - apply forallb_Forall. apply forallb_Forall in Hok. eapply Forall_impl; [exact Hok|].
    intros r Hr. unfold api_row_ok in Hr. rewrite !andb_true_iff in Hr. apply Hr.
  - apply (bool_decide_unpack _). vm_compute. exact I.
Qed.

(** What [authenticate] answers. *)
Lemma authenticate_spec key s :
  forallb api_row_ok (keys s) = true →
  authenticate key s =
  (Ret (match parse_key key with
        | None => PNone
        | Some (z, secret) =>
            match List.filter (has_id z) (keys s) with
            | [] => PNone
            | r :: _ => match cell_at r "key" with
                        | PStr hash => if verify secret hash then PDict (item_of api_key_table "" r) else PNone
                        | _ => PNone
                        end
            end
        end), s).
Proof using laws Htable Hmodel Hlimit Hfuel.
  intros Hok. unfold ApiKey.authenticate. destruct (parse_key key) as [[z secret]|]; [|done].
  unfold try_except, mbind at 1, M_bind at 1. rewrite query_by_id by done.
  destruct (List.filter (has_id z) (keys s)) as [|r rs] eqn:Hf; [done|]. cbn [fmap list_fmap pick outcome_fmap].
  unfold lift, mbind, M_bind.
  change (item (PDict (item_of api_key_table "" r)) "key") with (@Ret exn pyval (cell_at r "key")).
  assert (is_pstr (cell_at r "key") = true) as Hs.
  { assert (In r (keys s)) as Hin by (apply (filter_In (has_id z)); rewrite Hf; by left).
    apply list_elem_of_In, (forallb_elem _ _ _ Hok) in Hin. unfold api_row_ok in Hin. rewrite !andb_true_iff in Hin. apply Hin. }
  by destruct (cell_at r "key").
Qed.

(** What is written for a new key. *)
Definition new_values (name hash : string) (utcnow : pyval) : pydict :=
  [("name", PStr name); ("key", PStr hash); ("created_at", utcnow)].

Lemma insert_key name hash utcnow s res d' :
  execute_write (InsertInto api_key_table (new_values name hash utcnow)) true s.(db) = (Ret res, d') →
  dget s.(events) "account.api_key" = None →
  insert meta "account.api_key" (new_values name hash utcnow) default_write s =
    (Ret (PInt res.(last_insert_rowid)), mkDS d' s.(events) s.(registered) s.(sent)).
Proof using Htable Hmodel.
  intros Hw Hev. unfold insert. change (handle_removed_tables_insert "account.api_key") with (@None pyval). cbv beta iota.
  unfold lift at 1. rewrite Htable, (bind_Ret_s _ _ s api_key_table s) by done. unfold lift at 1.
  assert (extract_relationships meta api_key_table default_write.(w_prefix) (new_values name hash utcnow) =
    Ret (new_values name hash utcnow, [])) as ->.
  { unfold extract_relationships, get_relationships. cbn [t_name api_key_table]. by rewrite Hmodel. }
  rewrite (bind_Ret_s _ _ s (new_values name hash utcnow, []) s) by done.
  change (foldl column_default _ _) with (new_values name hash utcnow).
  rewrite (bind_Ret_s _ _ s (mkColRef [] api_id) s) by done.
  set (s1 := mkDS d' s.(events) s.(registered) s.(sent)).
  rewrite (bind_Ret_s _ _ s res s1) by (unfold execute; cbn; by rewrite Hw).
  rewrite (bind_Ret_s _ _ s1 (PInt res.(last_insert_rowid)) s1), (bind_Ret_s _ _ s1 tt s1) by done.
  rewrite (bind_Ret_s _ _ s1 tt s1); [done|]. cbn [default_write send_events].
  unfold send_insert_events, registrations, gets, mbind, M_bind. cbn. by rewrite Hev.
Qed.

(** The row it adds. *)
Lemma inserted_key name hash utcnow s res d' :
  execute_write (InsertInto api_key_table (new_values name hash utcnow)) true s.(db) = (Ret res, d') →
  ∃ r, rows d' api_key_table = keys s ++ [r] ∧ api_row_ok r = true ∧
    cell_at r "id" = PInt res.(last_insert_rowid) ∧ cell_at r "name" = PStr name ∧ cell_at r "key" = PStr hash.
Proof using wlaws.
  intros Hw. destruct (law_insert _ _ wlaws _ _ _ _ _ _ Hw) as (r & Hr & Hcells). exists r. split; [done|].
  pose proof (Hcells api_id ltac:(by left)) as H1.
  pose proof (Hcells (mkColumn "name" false [] false None SaString) ltac:(by right; left)) as H2.
  pose proof (Hcells (mkColumn "key" false [] false None SaString) ltac:(by right; right; left)) as H3.
  pose proof (Hcells (mkColumn "created_at" false [] false None Other) ltac:(by right; right; right; left)) as H4.
  cbn in H1, H2, H3, H4. unfold api_row_ok, complete, cell_at. cbn. by rewrite H1, H2, H3, H4.
Qed.

Lemma delete_key z s res d' :
  execute_write (DeleteWhere "account_api_key" [SqlBin SqlEq (mkColRef [] api_id) (PInt z)]) true s.(db) = (Ret res, d') →
  dget s.(events) "account.api_key" = None →
  do_delete meta (PInt z) s = (Ret (PBool true), mkDS d' s.(events) s.(registered) s.(sent)).
Proof using Htable.
  intros Hw Hev. unfold do_delete, delete. change (handle_removed_tables_delete "account.api_key") with (@None pyval).
  cbv beta iota. unfold lift at 1. rewrite Htable, (bind_Ret_s _ _ s api_key_table s) by done.
  rewrite (bind_Ret_s _ _ s [SqlBin SqlEq (mkColRef [] api_id) (PInt z)] s) by done.
  set (s1 := mkDS d' s.(events) s.(registered) s.(sent)).
  rewrite (bind_Ret_s _ _ s res s1) by (unfold execute; cbn; by rewrite Hw).
  rewrite (bind_Ret_s _ _ s1 tt s1); [done|]. cbn [id_or_filters default_write send_events].
  unfold send_delete_events, registrations, gets, mbind, M_bind. cbn. by rewrite Hev.
Qed.

(** C22. The life of an API key: creating one under a free name returns a text that
    authenticates as the new row; any other secret with its id is refused unless
    the hash takes it for the same one; and once the row is deleted no text with
    that id authenticates. *)
Theorem api_key_lifecycle name key utcnow s res d1 :
  (∀ k, verify k (encrypt k) = true) → forallb api_row_ok (keys s) = true →
  validate meta limit_ fuel re_match getattr "api_key_create" (PDict [("name", PStr name)]) None s = (Ret tt, s) →
  execute_write (InsertInto api_key_table (new_values name (encrypt key) utcnow)) true s.(db) = (Ret res, d1) →
  (0 ≤ res.(last_insert_rowid))%Z → forallb (λ r, negb (has_id res.(last_insert_rowid) r)) (keys s) = true →
  dget s.(events) "account.api_key" = None →
  let id := res.(last_insert_rowid) in
  let text := pretty id +:+ "-" +:+ key in
  ∃ s1 served row,
    do_create [("name", PStr name)] key utcnow s = (Ret (PDict served), s1) ∧ dget served "key" = Some (PStr text) ∧
    authenticate text s1 = (Ret (PDict row), s1) ∧ dget row "id" = Some (PInt id) ∧ dget row "name" = Some (PStr name) ∧
    (∀ secret, verify secret (encrypt key) = false → authenticate (pretty id +:+ "-" +:+ secret) s1 = (Ret PNone, s1)) ∧
    (∀ res' d2, execute_write (DeleteWhere "account_api_key" [SqlBin SqlEq (mkColRef [] api_id) (PInt id)]) true s1.(db) =
       (Ret res', d2) →
     ∃ s2, do_delete meta (PInt id) s1 = (Ret (PBool true), s2) ∧
       ∀ secret, authenticate (pretty id +:+ "-" +:+ secret) s2 = (Ret PNone, s2)).
Proof using laws wlaws dlaw Htable Hmodel Hlimit Hfuel.
  intros Hverify Hok Hval Hins Hpos Hfresh Hev id text.
  destruct (inserted_key _ _ _ _ _ _ Hins) as (r & Hr & Hrow & Hid & Hname & Hkey).
  set (s1 := mkDS d1 s.(events) s.(registered) s.(sent)).
  assert (forallb api_row_ok (keys s1) = true) as Hok1 by (cbn; rewrite Hr, forallb_app, Hok; cbn; by rewrite Hrow).
  assert (List.filter (has_id id) (keys s1) = [r]) as Hf.
  { cbn. rewrite Hr, List.filter_app, filter_none; cbn.
    - unfold has_id. by rewrite Hid, bool_decide_eq_true_2.
    - intros x Hx. by apply negb_true_iff, (forallb_elem _ _ _ Hfresh Hx). }
  assert (∀ secret, authenticate (pretty id +:+ "-" +:+ secret) s1 =
    (Ret (if verify secret (encrypt key) then PDict (item_of api_key_table "" r) else PNone), s1)) as Hauth.
  { intros secret. rewrite authenticate_spec, parse_served, Hf, Hkey by done. done. }
  exists s1, (dset (dset (new_values name (encrypt key) utcnow) "id" (PInt id)) "key" (PStr text)), (item_of api_key_table "" r).
  split_and!.
  - unfold ApiKey.do_create. rewrite (bind_Ret_s _ _ s tt s) by done.
    rewrite (bind_Ret_s _ _ s (PInt id) s1) by (by apply insert_key). done.
  - done.
  - unfold text. by rewrite Hauth, Hverify.
  - change (Some (cell_at r "id") = Some (PInt id)). by rewrite Hid.
  - change (Some (cell_at r "name") = Some (PStr name)). by rewrite Hname.
  - intros secret Hs. by rewrite Hauth, Hs.
  - intros res' d2 Hdel. set (s2 := mkDS d2 s1.(events) s1.(registered) s1.(sent)). exists s2.
    split; [by apply (delete_key id s1 res')|]. intros secret.
    pose proof (dlaw api_key_table _ _ _ _ _ Hdel) as Hrows.
    assert (∀ x, x ∈ keys s2 → x ∈ keys s1 ∧ has_id id x = false) as Hgone.
    { cbn. rewrite Hrows. intros x Hx%list_elem_of_In. apply filter_In in Hx as [Hx Hsel]. apply list_elem_of_In in Hx.
      split; [done|]. apply negb_true_iff in Hsel. rewrite <-Hsel. symmetry. apply id_selects. by apply (forallb_elem _ _ _ Hok1). }
    rewrite authenticate_spec, parse_served, filter_none; [done| |done|].
    + intros x Hx. by apply Hgone.
    + apply forallb_Forall, Forall_forall. intros x Hx. apply (forallb_elem _ _ _ Hok1). by apply Hgone.
Qed.
End api_key.

(** ** Witness *)

(** The in-memory database, with the service's own [item_extend]. *)
#[local] Instance key_database : Database MemDB := {
  fetchall := @fetchall MemDB mem_database;
  fetch_count := @fetch_count MemDB mem_database;
  call_method m args :=
    match args with
    | [it] => if String.eqb m "api_key.item_extend" then item_extend it else Raise (TypeError m)
    | _ => Raise (TypeError m)
    end;
  set_iter l := l;
}.

Lemma key_laws : @sql_laws MemDB key_database mem_rows mem_truth.
Proof. destruct mem_laws. by split. Qed.

Lemma mem_delete_law : delete_law mem_rows mem_truth.
Proof. intros t ws sync d res d' [= <- <-]. unfold mem_rows at 1. by rewrite dget_dset. Qed.

Definition key_meta : Metadata := mkMeta [("account_api_key", api_key_table)] [("account_api_key", [])].

(** Two keys, made in turn; the second under the name "backup". *)
Definition key_db : MemDB :=
  [("account_api_key", [new_row api_key_table (new_values "replication" "h:first" PNone) 1])].

Lemma api_key_lifecycle_witness :
  ∃ s1 served row,
    do_create key_meta 5 5 (λ _ _, Ret false) (λ _ _, Ret PNone) (λ k, "h:" +:+ k) [("name", PStr "backup")] "s3cret" PNone
      (mkDS key_db [] [] []) = (Ret (PDict served), s1) ∧
    dget served "key" = Some (PStr "2-s3cret") ∧
    authenticate key_meta 5 5 (λ k h, String.eqb ("h:" +:+ k) h) "2-s3cret" s1 = (Ret (PDict row), s1) ∧
    dget row "name" = Some (PStr "backup").
Proof.
  destruct (api_key_lifecycle (Database0 := key_database) key_meta 5 5 (λ _ _, Ret false) (λ _ _, Ret PNone)
    (λ k, "h:" +:+ k) (λ k h, String.eqb ("h:" +:+ k) h) mem_rows mem_truth key_laws mem_write_laws mem_delete_law
    eq_refl eq_refl ltac:(lia) ltac:(lia) "backup" "s3cret" PNone (mkDS key_db [] [] []) (mkWR 1 2)
    (dset key_db "account_api_key"
      (mem_rows key_db api_key_table ++ [new_row api_key_table (new_values "backup" "h:s3cret" PNone) 2])))
    as (s1 & served & row & H1 & H2 & H3 & _ & H5 & _); try (vm_compute; reflexivity).
  - intros k. apply String.eqb_refl.
  - cbn. lia.
  - exists s1, served, row. done.
Defined.
