(* ===== verification/Restore.v ===== *)
(** * The shutdown restore: ix_system_rollback.py

    A plan staged by [system.rollback.execute] is consumed late in shutdown:
    everything is checked, the datasets are unmounted, what appeared since the
    capture is destroyed, every recorded snapshot is rolled back, and only then
    the origin boot environment is activated.

    The programs the script runs (zfs, bectl, mount, umount) are outside the
    repository: [spawn] stands for them, any function of the command line
    and of the system's state [Sys].  [trace] records every command with its exit
    code, so the theorems speak about what was run and in which order. *)

From S2P Require Import Prelude PyValue.

(** ** Constants *)

Definition PLAN_PATH : string := "/data/system-rollback.pending".
Definition RUNNING_PATH : string := "/data/system-rollback.running".
Definition FAILED_PATH : string := "/data/system-rollback.failed".

Definition ZFS : string := "/sbin/zfs".
Definition BECTL : string := "/sbin/bectl".
Definition MOUNT : string := "/sbin/mount".
Definition UMOUNT : string := "/sbin/umount".

Definition at_sign : ascii := "@"%char.
Definition slash : ascii := "/"%char.

(** ** The plan *)

Record Plan : Type := mkPlan {
  window_id : Z;
  origin_be : string;
  origin_realname : string;
  origin_dataset : string;
  roots : list string;
  snapshots : list string;
}.

(** The JSON object a plan is stored as. *)
Definition plan_json (p : Plan) : pyval :=
  PDict [("version", PInt 1); ("window_id", PInt p.(window_id)); ("origin_be", PStr p.(origin_be));
         ("origin_realname", PStr p.(origin_realname)); ("origin_dataset", PStr p.(origin_dataset));
         ("roots", PList (PStr <$> p.(roots))); ("snapshots", PList (PStr <$> p.(snapshots)))].

Definition wrong_type (key : string) : exn :=
  RestoreError ("restore plan field " +:+ repr_str key +:+ " has the wrong type").

(** [isinstance(plan.get(key), int | str | list)] *)
Definition int_field (d : pydict) (key : string) : outcome exn Z :=
  match dget d key ≫= as_int with Some z => Ret z | None => Raise (wrong_type key) end.
Definition str_field (d : pydict) (key : string) : outcome exn string :=
  match dget d key with Some (PStr s) => Ret s | _ => Raise (wrong_type key) end.
Definition list_field (d : pydict) (key : string) : outcome exn (list pyval) :=
  match dget d key with Some (PList l) => Ret l | _ => Raise (wrong_type key) end.

(** [c in '\r\n\0'] *)
Definition is_unsafe_char (c : ascii) : bool :=
  let n := Ascii.nat_of_ascii c in ((n =? 13) || (n =? 10) || (n =? 0))%nat.

Definition safe (s : string) : bool :=
  negb (String.eqb s "") && negb (PyStr.startswith s "-") &&
  negb (existsb is_unsafe_char (String.list_ascii_of_string s)).

Definition safe_value (v : pyval) : outcome exn string :=
  match v with
  | PStr s => if safe s then Ret s else Raise (RestoreError ("unsafe restore-plan value: " +:+ py_repr v))
  | _ => Raise (RestoreError ("unsafe restore-plan value: " +:+ py_repr v))
  end.

Definition bad_snapshot (s : string) : exn :=
  RestoreError ("restore plan contains an invalid snapshot name: " +:+ repr_str s).

(** [snapshot.rsplit('@', 1)] of a name with exactly one [@] and both parts. *)
Definition split_snapshot (s : string) : outcome exn (string * string) :=
  if (PyStr.count at_sign s =? 1)%nat then
    match PyStr.rsplit1 at_sign s with
    | Some (dataset, suffix) =>
        if String.eqb dataset "" || String.eqb suffix "" then Raise (bad_snapshot s)
        else Ret (dataset, suffix)
    | None => Raise (bad_snapshot s)
    end
  else Raise (bad_snapshot s).

(** [dataset == root or dataset.startswith(f'{root}/')] *)
Definition under (root dataset : string) : bool :=
  String.eqb dataset root || PyStr.startswith dataset (root +:+ "/").

Definition check (b : bool) (msg : string) : outcome exn unit :=
  if b then Ret tt else Raise (RestoreError msg).

Definition ROLLBACK_NAME : string := "freecore-rollback-".

(** [validate_plan] *)
Definition validate_plan (plan : pyval) : outcome exn Plan :=
  match plan with
  | PDict d =>
      version ← int_field d "version";
      window_id ← int_field d "window_id";
      origin_be ← str_field d "origin_be";
      origin_realname ← str_field d "origin_realname";
      origin_dataset ← str_field d "origin_dataset";
      roots ← list_field d "roots";
      snapshots ← list_field d "snapshots";
      _ ← check (Z.eqb version 1 && Z.leb 1 window_id) "restore plan version or window id is invalid";
      _ ← check (negb (String.eqb origin_be "") && negb (String.eqb origin_realname "") &&
                 negb (String.eqb origin_dataset "")) "restore plan has no origin boot environment";
      _ ← check (truthy (PList roots) && truthy (PList snapshots)) "restore plan has no roots or snapshots";
      _ ← mapO safe_value [PStr origin_be; PStr origin_realname; PStr origin_dataset];
      roots ← mapO safe_value roots;
      snapshots ← mapO safe_value snapshots;
      _ ← check (bool_decide (NoDup roots) && bool_decide (NoDup snapshots))
            "restore plan contains duplicate roots or snapshots";
      parts ← mapO split_snapshot snapshots;
      let captured := parts.*1 in
      _ ← check (match remove_dups parts.*2 with
                 | [suffix] => PyStr.startswith suffix ROLLBACK_NAME
                 | _ => false
                 end) "restore snapshots do not share the coordinated rollback name";
      _ ← mapO (λ root, check (bool_decide (root ∈ captured))
                  ("restore root " +:+ repr_str root +:+ " has no recorded snapshot")) roots;
      _ ← mapO (λ dataset, check (existsb (λ root, under root dataset) roots)
                  ("snapshot dataset " +:+ repr_str dataset +:+ " is outside the recorded roots"))
            (remove_dups captured);
      Ret (mkPlan window_id origin_be origin_realname origin_dataset roots snapshots)
  | _ => Raise (RestoreError "restore plan is not an object")
  end.

(** ** Sets of datasets *)

Definition dataset_depth (name : string) : nat := PyStr.count slash name.

(** [sorted(l, key=lambda name: (depth(name), name), reverse=True)] *)
Definition depth_geb (key : string → nat) (x y : string) : bool :=
  (key y <? key x)%nat || ((key x =? key y)%nat && String.leb y x).
Definition sorted_deepest (key : string → nat) (l : list string) : list string :=
  sorted_by (depth_geb key) l.

Definition intersect (a b : list string) : list string := List.filter (λ x, bool_decide (x ∈ b)) a.
Definition minus (a b : list string) : list string := List.filter (λ x, negb (bool_decide (x ∈ b))) a.

(** [topmost_datasets] *)
Definition topmost_datasets (datasets : list string) : list string :=
  sorted_deepest dataset_depth
    (List.filter (λ dataset,
       negb (existsb (λ other, negb (String.eqb other dataset) &&
                               PyStr.startswith dataset (other +:+ "/")) datasets)) datasets).

(** [snapshot.rsplit('@', 1)[0]] *)
Definition snapshot_dataset (s : string) : string :=
  match PyStr.rsplit1 at_sign s with Some (dataset, _) => dataset | None => s end.

(** ** The system *)

Record process : Type := mkProcess {
  returncode : Z;
  stdout : string;
  stderr : string;
}.

(** A row of the window table, as far as [mark_consumed] writes it. *)
Record Row : Type := mkRow {
  row_closed_reason : option string;
  row_snapshots : list string;
}.

(** What a state file holds: JSON, or bytes that do not parse. *)
Definition content : Type := option pyval.

Record St (Sys : Type) : Type := mkSt {
  sys : Sys;
  (** the commands that were run, each with its exit code and what it printed *)
  calls : list (list string * Z * string);
  db : gmap Z Row;
  log_lines : list string;
  files : gmap string content;
}.
Arguments mkSt {Sys} sys calls db log_lines files.
Arguments sys {Sys} s.
Arguments calls {Sys} s.
Arguments db {Sys} s.
Arguments log_lines {Sys} s.
Arguments files {Sys} s.

(** The commands with their exit codes. *)
Definition trace {Sys : Type} (s : St Sys) : list (list string * Z) := s.(calls).*1.

Section restore.
Context {Sys : Type} (spawn : list string → Sys → outcome exn process * Sys) (exn_text : exn → string).
Notation St := (St Sys).

Definition log (message : string) : M St exn unit :=
  modify (λ s, mkSt s.(sys) s.(calls) s.(db) (s.(log_lines) ++ [message]) s.(files)).

(** [subprocess.run] *)
Definition spawn_m (argv : list string) : M St exn process := λ s,
  let '(o, sys') := spawn argv s.(sys) in
  let rc := match o with Ret p => p.(returncode) | Raise _ => (-1)%Z end in
  let out := match o with Ret p => p.(stdout) | Raise _ => "" end in
  (o, mkSt sys' (s.(calls) ++ [(argv, rc, out)]) s.(db) s.(log_lines) s.(files)).

(** [run_command] *)
Definition run_command (argv : list string) (check : bool) : M St exn process :=
  p ← spawn_m argv;
  if check && negb (Z.eqb p.(returncode) 0) then
    let detail :=
      if PyStr.nonempty (PyStr.strip p.(stderr)) then PyStr.strip p.(stderr)
      else if PyStr.nonempty (PyStr.strip p.(stdout)) then PyStr.strip p.(stdout)
      else "exit " +:+ pretty p.(returncode) in
    raise (RestoreError (join " " argv +:+ ": " +:+ detail))
  else mret p.

Definition command (argv : list string) : M St exn process := run_command argv true.

Definition require (b : bool) (msg : string) : M St exn unit :=
  if b then mret tt else raise (RestoreError msg).

Definition of_outcome {A} (o : outcome exn A) : M St exn A := λ s, (o, s).

(** [list_datasets] *)
Definition list_datasets (root : string) : M St exn (list string) :=
  p ← command [ZFS; "list"; "-H"; "-r"; "-o"; "name"; "-t"; "filesystem,volume"; root];
  let datasets := List.filter PyStr.nonempty (PyStr.strip <$> PyStr.lines p.(stdout)) in
  require (bool_decide (root ∈ datasets)) ("restore root " +:+ repr_str root +:+ " is no longer present") ;;
  mret datasets.

(** [mounted_zfs_datasets] *)
Definition mounted_zfs_datasets : M St exn (list string) :=
  p ← command [MOUNT; "-p"];
  mret (omap (λ line, match PyStr.split_ws line with
                      | f0 :: _ :: f2 :: _ => if String.eqb f2 "zfs" then Some f0 else None
                      | _ => None
                      end) (PyStr.lines p.(stdout))).

(** [mark_consumed]: its exceptions only reach the log. *)
Definition mark_consumed (plan : Plan) (snapshots : list string) : M St exn unit :=
  s ← get_state;
  match s.(db) !! plan.(window_id) with
  | Some _ =>
      modify (λ s, mkSt s.(sys) s.(calls)
        (<[plan.(window_id) := mkRow (Some "consumed") snapshots]> s.(db)) s.(log_lines) s.(files))
  | None =>
      log ("WARNING: unable to mark the 15.0 rollback window consumed: rollback window row " +:+
           pretty plan.(window_id) +:+ " was not found")
  end.

(** The names and datasets [bectl list -H] shows. *)
Definition boot_environments (out : string) : list string :=
  List.filter (λ f, negb (String.eqb f "-"))
    (mjoin ((λ line, let fields := PyStr.split (Ascii.ascii_of_nat 9) line in
                     [default "" (fields !! 0); default "-" (fields !! 5)]) <$> PyStr.lines out)).

(** The checks of [execute_plan], before the first destructive command; the
    result is the set of datasets under the roots. *)
Definition preflight (plan : Plan) : M St exn (list string) :=
  let captured := snapshot_dataset <$> plan.(snapshots) in
  forM plan.(snapshots) (λ snapshot,
    p ← command [ZFS; "list"; "-H"; "-o"; "name"; "-t"; "snapshot"; snapshot];
    require (String.eqb (PyStr.strip p.(stdout)) snapshot)
      ("recorded snapshot " +:+ repr_str snapshot +:+ " is no longer present")) ;;
  origin ← command [BECTL; "list"; "-H"];
  let bes := boot_environments origin.(stdout) in
  require (bool_decide (plan.(origin_be) ∈ bes) || bool_decide (plan.(origin_realname) ∈ bes))
    ("origin boot environment " +:+ repr_str plan.(origin_be) +:+ " is no longer present") ;;
  listed ← mapM_M list_datasets plan.(roots);
  let current := remove_dups (mjoin listed) in
  let missing := minus captured current in
  require (match missing with [] => true | _ => false end)
    ("captured datasets are missing: " +:+ py_repr (PList (PStr <$> sorted_str (remove_dups missing)))) ;;
  let extra := minus current captured in
  let unsafe := List.filter (λ d, existsb (λ c, PyStr.startswith c (d +:+ "/")) captured) extra in
  require (match unsafe with [] => true | _ => false end)
    ("uncaptured datasets are parents of captured state: " +:+ py_repr (PList (PStr <$> sorted_str unsafe))) ;;
  mret current.

(** The destructive part: unmount, destroy what is new, roll back, activate. *)
Definition restore (plan : Plan) (current : list string) : M St exn unit :=
  let captured := snapshot_dataset <$> plan.(snapshots) in
  mounted ← mounted_zfs_datasets;
  forM (sorted_deepest dataset_depth (intersect current mounted))
    (λ dataset, command [UMOUNT; "-f"; dataset] ;; mret tt) ;;
  mounted ← mounted_zfs_datasets;
  let still := intersect current mounted in
  require (match still with [] => true | _ => false end)
    ("recorded datasets are still mounted: " +:+ py_repr (PList (PStr <$> sorted_str still))) ;;
  forM (topmost_datasets (minus current captured))
    (λ dataset, command [ZFS; "destroy"; "-r"; dataset] ;; mret tt) ;;
  forM (sorted_deepest (λ name, dataset_depth (snapshot_dataset name)) plan.(snapshots))
    (λ snapshot, command [ZFS; "rollback"; "-r"; snapshot] ;; mret tt) ;;
  command [BECTL; "activate"; plan.(origin_be)] ;;
  mret tt.

(** The cleanup after the activation: commands are run with [check=False]. *)
Definition destroy_consumed (snapshot : string) : M St exn (list string) :=
  p ← run_command [ZFS; "destroy"; snapshot] false;
  if Z.eqb p.(returncode) 0 then mret []
  else
    log ("WARNING: unable to destroy consumed rollback snapshot " +:+ repr_str snapshot +:+ ": " +:+
         PyStr.strip p.(stderr)) ;;
    mret [snapshot].

Definition release_pin (plan : Plan) (property : string) : M St exn unit :=
  p ← run_command [ZFS; "set"; property; plan.(origin_dataset)] false;
  if Z.eqb p.(returncode) 0 then mret tt
  else log ("WARNING: unable to release the origin boot-environment keep pin " +:+ repr_str property +:+ ": " +:+
            PyStr.strip p.(stderr)).

Definition after_activation (plan : Plan) : M St exn unit :=
  mark_consumed plan plan.(snapshots) ;;
  remaining ← mapM_M destroy_consumed plan.(snapshots);
  forM ["beadm:keep=False"; "bectl:keep=False"] (release_pin plan) ;;
  mark_consumed plan (mjoin remaining) ;;
  log ("restored " +:+ pretty (length plan.(snapshots)) +:+ " snapshot(s); activated boot environment " +:+
       repr_str plan.(origin_be)).

(** [execute_plan] *)
Definition execute_plan (plan : pyval) : M St exn unit :=
  plan ← of_outcome (validate_plan plan);
  current ← preflight plan;
  restore plan current ;;
  after_activation plan.

(** ** The state files *)

Definition with_files (f : gmap string content → gmap string content) : M St exn unit :=
  modify (λ s, mkSt s.(sys) s.(calls) s.(db) s.(log_lines) (f s.(files))).

Definition exists_file (path : string) (s : St) : bool :=
  match s.(files) !! path with Some _ => true | None => false end.

(** [os.replace] *)
Definition os_replace (src dst : string) : M St exn unit :=
  s ← get_state;
  match s.(files) !! src with
  | Some c => with_files (λ fs, <[dst := c]> (delete src fs))
  | None => raise FileNotFoundError
  end.

(** [json.load(open(path))] *)
Definition load_json (path : string) : M St exn pyval :=
  s ← get_state;
  match s.(files) !! path with
  | Some (Some v) => mret v
  | Some None => raise (ValueError "JSONDecodeError")
  | None => raise FileNotFoundError
  end.

(** The record of a failed attempt; [now] is the time of the failure. *)
Definition failure_record (now : string) (plan : option pyval) (e : exn) : pyval :=
  let base := match plan with Some (PDict d) => d | _ => [("version", PInt 1)] end in
  PDict (dupdate base [("failed_at", PStr now); ("error", PStr (exn_text e))]).

(** The [except] clause of [consume_plan]. *)
Definition record_failure (now : string) (plan : option pyval) (e : exn) : M St exn bool :=
  with_files <[FAILED_PATH := Some (failure_record now plan e)]> ;;
  with_files (delete RUNNING_PATH) ;;
  log ("ROLLBACK RESTORE FAILED; the current boot environment remains selected: " +:+ exn_text e) ;;
  raise e.

(** The [try] statement of [consume_plan]: loading the plan and executing it. *)
Definition run_plan (now : string) : M St exn bool := λ s0,
  match load_json RUNNING_PATH s0 with
  | (Raise e, s1) => record_failure now None e s1
  | (Ret plan, s1) =>
      match execute_plan plan s1 with
      | (Raise e, s2) => record_failure now (Some plan) e s2
      | (Ret _, s2) => (with_files (delete RUNNING_PATH) ;; mret true) s2
      end
  end.

(** [consume_plan] *)
Definition consume_plan (now : string) : M St exn bool :=
  s ← get_state;
  if negb (exists_file PLAN_PATH s) then mret false
  else if exists_file RUNNING_PATH s || exists_file FAILED_PATH s then
    raise (RestoreError "a previous rollback restore state file already exists")
  else
    os_replace PLAN_PATH RUNNING_PATH ;;
    run_plan now.

(** [main] *)
Definition main (now : string) (s : St) : Z * St :=
  match consume_plan now s with
  | (Ret _, s') => (0%Z, s')
  | (Raise _, s') => (1%Z, s')
  end.

End restore.
