(* ===== verification/RestoreFacts.v ===== *)
(** * Properties of the shutdown restore *)

From S2P Require Import Prelude PyValue Restore.

Notation cmd := (list string * Z)%type (only parsing).

(** ** What a computation runs

    [runs m Q X]: from every state, [m] appends commands to the trace and leaves
    the state files alone; they satisfy [Q] with the result when it returns and
    [X] when it raises. *)
Section runs.
Context {Sys : Type} (spawn : list string → Sys → outcome exn process * Sys).
Notation St := (St Sys).

Definition runs {A} (m : M St exn A) (Q : A → list cmd → Prop) (X : list cmd → Prop) : Prop :=
  ∀ s, ∃ t, trace (m s).2 = trace s ++ t ∧ (m s).2.(files) = s.(files) ∧
    match (m s).1 with Ret a => Q a t | Raise _ => X t end.

Lemma runs_ret {A} (a : A) (Q : A → list cmd → Prop) X : Q a [] → runs (mret a) Q X.
Proof. intros HQ s. exists []. by rewrite app_nil_r. Qed.

Lemma runs_raise {A} e (Q : A → list cmd → Prop) (X : list cmd → Prop) : X [] → runs (raise e) Q X.
Proof. intros HX s. exists []. by rewrite app_nil_r. Qed.

Lemma runs_bind {A B} (m : M St exn A) (k : A → M St exn B) Q X (R : B → list cmd → Prop) (Y : list cmd → Prop) :
  runs m Q X →
  (∀ t, X t → Y t) →
  (∀ a t1, Q a t1 → runs (k a) (λ b t2, R b (t1 ++ t2)) (λ t2, Y (t1 ++ t2))) →
  runs (m ≫= k) R Y.
Proof.
  intros Hm HX Hk s. unfold mbind, M_bind. destruct (Hm s) as (t1 & Ht1 & Hf1 & H1).
  destruct (m s) as [[a|e] s1]; simpl in *.
  - destruct (Hk a t1 H1 s1) as (t2 & Ht2 & Hf2 & H2). exists (t1 ++ t2).
    rewrite Ht2, Ht1, Hf2, (assoc_L (++)). split_and!; [done|done|].
    by destruct (k a s1) as [[]].
  - exists t1. split_and!; auto.
Qed.

Lemma runs_conseq {A} (m : M St exn A) (Q Q' : A → list cmd → Prop) (X X' : list cmd → Prop) :
  runs m Q' X' → (∀ a t, Q' a t → Q a t) → (∀ t, X' t → X t) → runs m Q X.
Proof.
  intros Hm HQ HX s. destruct (Hm s) as (t & Ht & Hf & H). exists t. split_and!; [done|done|].
  destruct ((m s).1); auto.
Qed.

(** Modifying the log or the database runs nothing. *)
Lemma runs_modify f (Q : unit → list cmd → Prop) X :
  (∀ s, trace (f s) = trace s ∧ files (f s) = files s) → Q tt [] → runs (modify f : M St exn unit) Q X.
Proof. intros Hf HQ s. exists []. destruct (Hf s) as [Ht Hs]. by rewrite app_nil_r. Qed.

Lemma runs_log msg (Q : unit → list cmd → Prop) X : Q tt [] → runs (log msg : M St exn unit) Q X.
Proof. apply runs_modify. done. Qed.

Lemma runs_require b msg (Q : unit → list cmd → Prop) (X : list cmd → Prop) :
  (b = true → Q tt []) → (b = false → X []) → runs (require b msg : M St exn unit) Q X.
Proof. destruct b; simpl; intros HQ HX; [apply runs_ret; auto|apply runs_raise; auto]. Qed.

Lemma runs_spawn argv (Q : process → list cmd → Prop) (X : list cmd → Prop) :
  (∀ p, Q p [(argv, p.(returncode))]) → X [(argv, (-1)%Z)] → runs (spawn_m spawn argv) Q X.
Proof.
  intros HQ HX s. unfold spawn_m. destruct (spawn argv (sys s)) as [[p|e] sys']; unfold trace; simpl; rewrite fmap_app; eauto.
Qed.

(** A checked command returns with exit code 0 or raises. *)
Lemma runs_command argv (Q : process → list cmd → Prop) (X : list cmd → Prop) :
  (∀ p, Q p [(argv, 0%Z)]) → (∀ rc, rc ≠ 0%Z → X [(argv, rc)]) → runs (command spawn argv) Q X.
Proof.
  intros HQ HX. unfold command, run_command.
  eapply (runs_bind _ _ (λ p t, t = [(argv, p.(returncode))]) (λ t, t = [(argv, (-1)%Z)])).
  - by apply runs_spawn.
  - intros t ->. by apply HX.
  - intros p t ->. simpl. destruct (Z.eqb_spec p.(returncode) 0) as [H0|H0]; simpl.
    + apply runs_ret. simpl. by rewrite H0.
    + apply runs_raise. by apply HX.
Qed.

Lemma runs_unchecked argv (Q : process → list cmd → Prop) (X : list cmd → Prop) :
  (∀ p, Q p [(argv, p.(returncode))]) → X [(argv, (-1)%Z)] → runs (run_command spawn argv false) Q X.
Proof.
  intros HQ HX. unfold run_command.
  eapply (runs_bind _ _ (λ p t, t = [(argv, p.(returncode))]) (λ t, t = [(argv, (-1)%Z)])).
  - by apply runs_spawn.
  - by intros t ->.
  - intros p t ->. simpl. by apply runs_ret.
Qed.

(** A loop: its trace is the concatenation of the traces of its turns, up to
    the first that raises. *)
Lemma runs_forM {A} (l : list A) (f : A → M St exn unit) (Q : A → list cmd → Prop) (X : A → list cmd → Prop) :
  (∀ x, x ∈ l → runs (f x) (λ _, Q x) (X x)) →
  runs (forM l f) (λ _ t, ∃ ts, t = mjoin ts ∧ Forall2 Q l ts)
    (λ t, ∃ l1 x l2 ts u, l = l1 ++ x :: l2 ∧ t = mjoin ts ++ u ∧ Forall2 Q l1 ts ∧ X x u).
Proof.
  induction l as [|x l IH]; intros Hf; cbn [forM].
  - apply runs_ret. by exists [].
  - eapply runs_bind; [apply Hf; by left| |].
    + intros t Ht. exists [], x, l, [], t. done.
    + intros [] t1 H1. eapply runs_conseq; [apply IH; intros; apply Hf; by right| |].
      * intros [] t2 (ts & -> & H2). exists (t1 :: ts). split; [done|by constructor].
      * intros t2 (l1 & y & l2 & ts & u & -> & -> & H2 & Hu).
        exists (x :: l1), y, l2, (t1 :: ts), u. split_and!; [done| |by constructor|done].
        simpl. by rewrite (assoc_L (++)).
Qed.

Lemma runs_mapM {A B} (l : list A) (f : A → M St exn B) (P : list cmd → Prop) (X : list cmd → Prop) :
  P [] → (∀ t1 t2, P t1 → P t2 → P (t1 ++ t2)) → (∀ t1 t2, P t1 → X t2 → X (t1 ++ t2)) →
  (∀ x, x ∈ l → runs (f x) (λ _, P) X) → runs (mapM_M f l) (λ _, P) X.
Proof.
  intros Hnil Happ HX. induction l as [|x l IH]; intros Hf; cbn [mapM_M]; [by apply runs_ret|].
  eapply runs_bind; [apply Hf; by left|done|]. intros y t1 H1.
  eapply (runs_bind _ _ (λ _, P) X); [apply IH; intros; apply Hf; by right|auto|].
  intros ys t2 H2. apply runs_ret. rewrite app_nil_r. auto.
Qed.
End runs.

(** ** The commands of a restore *)

(** A command that only reads. *)
Definition reads (argv : list string) : bool :=
  match argv with
  | prog :: sub :: _ => String.eqb prog MOUNT || String.eqb sub "list"
  | _ => false
  end.

Definition all_reads (t : list cmd) : Prop := Forall (λ c, reads c.1 = true) t.
Definition all_ok (t : list cmd) : Prop := Forall (λ c, c.2 = 0%Z) t.

Definition list_cmd (sn : string) : list string := [ZFS; "list"; "-H"; "-o"; "name"; "-t"; "snapshot"; sn].
Definition rollback_cmd (sn : string) : list string := [ZFS; "rollback"; "-r"; sn].
Definition activate_cmd (be : string) : list string := [BECTL; "activate"; be].

Section plan.
Context (plan : Plan).
Notation captured := (snapshot_dataset <$> plan.(snapshots)).

(** The checks passed: all read-only, all with exit code 0, every snapshot seen;
    no new dataset is or contains a captured one. *)
Record checked (current : list string) (t : list cmd) : Prop := {
  ck_reads : all_reads t;
  ck_ok : all_ok t;
  ck_listed : ∀ sn, sn ∈ plan.(snapshots) → (list_cmd sn, 0%Z) ∈ t;
  ck_current : ∀ d, d ∈ captured → d ∈ current;
  ck_extra : ∀ d c, d ∈ current → d ∉ captured → c ∈ captured → under d c = false;
}.

(** What the destructive part may run before the activation. *)
Definition allowed (current : list string) (argv : list string) : Prop :=
  argv = [MOUNT; "-p"] ∨
  (∃ d, d ∈ current ∧ argv = [UMOUNT; "-f"; d]) ∨
  (∃ d, d ∈ current ∧ d ∉ captured ∧ argv = [ZFS; "destroy"; "-r"; d]) ∨
  (∃ sn, sn ∈ plan.(snapshots) ∧ argv = rollback_cmd sn).

Definition all_allowed (current : list string) (t : list cmd) : Prop := Forall (λ c, allowed current c.1) t.

(** Every recorded snapshot was rolled back, nothing failed. *)
Record restored (current : list string) (t : list cmd) : Prop := {
  rs_allowed : all_allowed current t;
  rs_ok : all_ok t;
  rs_rollback : ∀ sn, sn ∈ plan.(snapshots) → (rollback_cmd sn, 0%Z) ∈ t;
}.

(** The cleanup after the activation. *)
Definition cleanup_cmd (argv : list string) : Prop :=
  (∃ sn, sn ∈ plan.(snapshots) ∧ argv = [ZFS; "destroy"; sn]) ∨
  (∃ prop, argv = [ZFS; "set"; prop; plan.(origin_dataset)]).
Definition all_cleanup (t : list cmd) : Prop := Forall (λ c, cleanup_cmd c.1) t.

(** The trace of the destructive part and what follows it. *)
Definition restore_shape (current : list string) (t : list cmd) : Prop :=
  all_allowed current t ∨
  ∃ pre rc post, t = pre ++ (activate_cmd plan.(origin_be), rc) :: post ∧
    restored current pre ∧ all_cleanup post.
End plan.

(** Elements of the sorted and filtered sets. *)
Lemma elem_of_topmost d l : d ∈ topmost_datasets l → d ∈ l.
Proof.
  unfold topmost_datasets, sorted_deepest. rewrite elem_of_sorted_by, !list_elem_of_In, List.filter_In. tauto.
Qed.

Lemma elem_of_minus d a b : d ∈ minus a b ↔ d ∈ a ∧ d ∉ b.
Proof.
  unfold minus. rewrite list_elem_of_In, List.filter_In, <- list_elem_of_In, negb_true_iff.
  by rewrite bool_decide_eq_false.
Qed.

Lemma elem_of_intersect d a b : d ∈ intersect a b ↔ d ∈ a ∧ d ∈ b.
Proof. unfold intersect. by rewrite list_elem_of_In, List.filter_In, <- list_elem_of_In, bool_decide_eq_true. Qed.

Lemma filter_nil {A} (p : A → bool) l x : List.filter p l = [] → x ∈ l → p x = false.
Proof.
  intros H Hx. destruct (p x) eqn:E; [|done]. assert (In x (List.filter p l)) as Hin.
  { apply List.filter_In. split; [by apply list_elem_of_In|done]. }
  by rewrite H in Hin.
Qed.

Lemma existsb_false_forall {A} (p : A → bool) l :
  existsb p l = false → ∀ x, x ∈ l → p x = false.
Proof.
  intros H x Hx. destruct (p x) eqn:E; [|done]. rewrite <- H. symmetry. apply List.existsb_exists.
  exists x. split; [by apply list_elem_of_In|done].
Qed.

Section restore.
Context {Sys : Type} (spawn : list string → Sys → outcome exn process * Sys).
Notation runs := (runs (Sys := Sys)).

(** One checked command of a kind [P], as a statement of a loop. *)
Lemma runs_step (P : list cmd → Prop) argv :
  P [] → (∀ t1 t2, P t1 → P t2 → P (t1 ++ t2)) → (∀ rc, P [(argv, rc)]) →
  runs (command spawn argv ;; mret tt) (λ _ t, t = [(argv, 0%Z)]) P.
Proof.
  intros Hnil Happ HP. eapply (runs_bind _ _ (λ _ t, t = [(argv, 0%Z)]) P).
  - apply runs_command; [done|]. intros rc _. apply HP.
  - done.
  - intros p t ->. by apply runs_ret.
Qed.

(** A loop of checked commands: on success, exactly these commands with exit
    code 0; otherwise commands of the loop. *)
Lemma runs_loop {A} (l : list A) (argv : A → list string) (P : list string → Prop) :
  (∀ x, x ∈ l → P (argv x)) →
  runs (forM l (λ x, command spawn (argv x) ;; mret tt))
    (λ _ t, t = (λ x, (argv x, 0%Z)) <$> l) (λ t, Forall (λ c, P c.1) t).
Proof.
  intros HP. eapply runs_conseq.
  - apply (runs_forM l _ (λ x t, t = [(argv x, 0%Z)]) (λ x t, Forall (λ c, P c.1) t)).
    intros x Hx. apply runs_step; [constructor|by apply Forall_app_2|].
    intros rc. constructor; [by apply HP|constructor].
  - intros _ t (ts & -> & H). induction H as [|x t l ts -> H IH]; [done|].
    csimpl. f_equal. apply IH. intros y Hy. apply HP. by right.
  - intros t (l1 & x & l2 & ts & u & -> & -> & H & Hu). apply Forall_app_2; [|done].
    clear Hu. assert (∀ y, y ∈ l1 → P (argv y)) as HP1 by (intros y Hy; apply HP, elem_of_app; by left).
    clear HP. induction H as [|y t l1 ts -> H IH]; [constructor|]. simpl.
    constructor; [apply HP1; by left|]. apply IH. intros z Hz. apply HP1. by right.
Qed.

Lemma list_datasets_runs root :
  runs (list_datasets spawn root) (λ _ t, all_reads t ∧ all_ok t) all_reads.
Proof.
  unfold list_datasets. eapply runs_bind.
  - apply (runs_command spawn _ (λ _ t, all_reads t ∧ all_ok t) all_reads); intros; repeat constructor.
  - done.
  - intros p t1 [Hr Ho]. eapply (runs_bind _ _ (λ _ t, t = []) (λ t, t = [])).
    + by apply runs_require.
    + intros t ->. by rewrite app_nil_r.
    + intros [] t ->. apply runs_ret. rewrite !app_nil_r. done.
Qed.

Lemma mounted_runs :
  runs (mounted_zfs_datasets spawn) (λ _ t, t = [([MOUNT; "-p"], 0%Z)]) (λ t, ∃ rc, t = [([MOUNT; "-p"], rc)]).
Proof.
  unfold mounted_zfs_datasets. eapply (runs_bind _ _ (λ _ t, t = [([MOUNT; "-p"], 0%Z)])).
  - apply (runs_command spawn _ _ (λ t, ∃ rc, t = [([MOUNT; "-p"], rc)])); eauto.
  - done.
  - intros p t ->. by apply runs_ret.
Qed.

Definition good_reads (t : list cmd) : Prop := all_reads t ∧ all_ok t.

Lemma good_reads_app t1 t2 : good_reads t1 → good_reads t2 → good_reads (t1 ++ t2).
Proof. intros [] []. split; by apply Forall_app_2. Qed.

Lemma all_reads_app t1 t2 : good_reads t1 → all_reads t2 → all_reads (t1 ++ t2).
Proof. intros [] ?. by apply Forall_app_2. Qed.

(** The first loop of the checks. *)
Lemma snapshots_listed_runs l msg :
  runs (forM l (λ sn, p ← command spawn (list_cmd sn); require (String.eqb (PyStr.strip p.(stdout)) sn) (msg sn)))
    (λ _ t, good_reads t ∧ ∀ sn, sn ∈ l → (list_cmd sn, 0%Z) ∈ t) all_reads.
Proof.
  eapply runs_conseq.
  - apply (runs_forM l _ (λ sn t, t = [(list_cmd sn, 0%Z)]) (λ _, all_reads)). intros sn _.
    eapply (runs_bind _ _ (λ _ t, t = [(list_cmd sn, 0%Z)]) all_reads).
    + apply runs_command; [done|]. intros rc _. repeat constructor.
    + done.
    + intros p t ->. apply runs_require; [done|]. intros _. repeat constructor.
  - intros _ t (ts & -> & H). induction H as [|sn t l ts -> H [IH1 IH2]]; simpl.
    + split; [split; constructor|]. by intros sn ?%elem_of_nil.
    + split; [apply (good_reads_app [_]); [repeat constructor|done]|].
      intros sn' [->|Hin]%elem_of_cons; [by left|right; auto].
  - intros t (l1 & sn & l2 & ts & u & -> & -> & H & Hu). apply all_reads_app; [|done].
    induction H as [|x t l1 ts -> H IH]; [split; constructor|].
    apply (good_reads_app [_]); [repeat constructor|done].
Qed.

(** A check that runs no command, at the end of read-only ones. *)
Lemma runs_require_then {A} b msg (k : M (St Sys) exn A) (Q : A → list cmd → Prop) (X : list cmd → Prop) :
  X [] → (b = true → runs k Q X) → runs (require b msg ;; k) Q X.
Proof.
  intros HX Hk. eapply (runs_bind _ _ (λ _ t, t = [] ∧ b = true) (λ t, t = [])).
  - apply runs_require; auto.
  - by intros t ->.
  - intros [] t [-> Hb]. apply Hk. done.
Qed.

Lemma preflight_runs plan :
  runs (preflight spawn plan) (checked plan) all_reads.
Proof.
  unfold preflight. eapply runs_bind; [apply snapshots_listed_runs|done|]. intros [] t1 [H1 Hl].
  eapply (runs_bind _ _ (λ _ t, good_reads t) all_reads).
  { apply runs_command; intros; repeat constructor. }
  { intros t Ht. by apply all_reads_app. }
  intros p t2 H2. apply runs_require_then.
  { rewrite app_nil_r. apply all_reads_app; [done|by destruct H2]. }
  intros _. eapply (runs_bind _ _ (λ _ t, good_reads t) all_reads).
  { apply runs_mapM; [repeat constructor|apply good_reads_app|apply all_reads_app|].
    intros root _. apply list_datasets_runs. }
  { intros t Ht. by do 2 (apply all_reads_app; [done|]). }
  intros listed t3 H3.
  assert (good_reads (t1 ++ t2 ++ t3)) as Hg by (by repeat apply good_reads_app).
  apply runs_require_then.
  { rewrite app_nil_r. by destruct Hg. }
  intros Hmiss. apply runs_require_then.
  { rewrite app_nil_r. by destruct Hg. }
  intros Hunsafe. apply runs_ret. rewrite app_nil_r. destruct Hg as [Hr Ho]. split; [done|done| | |].
  - intros sn Hsn. apply elem_of_app. left. by apply Hl.
  - intros d Hd. destruct (decide (d ∈ remove_dups (mjoin listed))) as [|Hn]; [done|].
    assert (d ∈ minus (snapshot_dataset <$> plan.(snapshots)) (remove_dups (mjoin listed))) as Hm
      by (by apply elem_of_minus).
    destruct (minus (snapshot_dataset <$> plan.(snapshots)) (remove_dups (mjoin listed)));
      [by apply elem_of_nil in Hm|done].
  - intros d c Hd Hnd Hc. unfold under. apply orb_false_iff. split.
    + apply String.eqb_neq. by intros ->.
    + match type of Hunsafe with context [List.filter ?p ?l] =>
        assert (List.filter p l = []) as Hf by (by destruct (List.filter p l)) end.
      pose proof (filter_nil _ _ d Hf) as Hex. simpl in Hex.
      by apply (existsb_false_forall _ _ (Hex (proj2 (elem_of_minus _ _ _) (conj Hd Hnd)))).
Qed.

Lemma all_allowed_app plan current t1 t2 :
  all_allowed plan current t1 → all_allowed plan current t2 → all_allowed plan current (t1 ++ t2).
Proof. apply Forall_app_2. Qed.

Lemma loop_allowed {A} plan current (l : list A) (argv : A → list string) :
  (∀ x, x ∈ l → allowed plan current (argv x)) →
  all_allowed plan current ((λ x, (argv x, 0%Z)) <$> l) ∧ all_ok ((λ x, (argv x, 0%Z)) <$> l).
Proof.
  intros H. unfold all_allowed, all_ok. rewrite !Forall_fmap. split; [by apply Forall_forall|].
  apply Forall_forall. done.
Qed.

Lemma restore_runs plan current :
  runs (restore spawn plan current)
    (λ _ t, ∃ pre, t = pre ++ [(activate_cmd plan.(origin_be), 0%Z)] ∧ restored plan current pre)
    (restore_shape plan current).
Proof.
  set (A := all_allowed plan current).
  assert (∀ rc, A [([MOUNT; "-p"], rc)]) as Hmount by (intros rc; repeat constructor).
  assert (∀ t, A t → restore_shape plan current t) as HA by (by left).
  unfold restore. eapply runs_bind; [apply mounted_runs|intros t [rc ->]; apply HA, Hmount|].
  intros mounted t1 ->.
  eapply runs_bind.
  { apply (runs_loop _ (λ d, [UMOUNT; "-f"; d]) (allowed plan current)).
    intros d Hd. right; left. exists d. split; [|done].
    unfold sorted_deepest in Hd. rewrite elem_of_sorted_by, elem_of_intersect in Hd. tauto. }
  { intros t Ht. apply HA, all_allowed_app; [apply Hmount|done]. }
  intros [] t2 ->. set (t2 := _ <$> sorted_deepest dataset_depth (intersect current mounted)).
  assert (A t2 ∧ all_ok t2) as [HA2 Ho2].
  { apply loop_allowed. intros d Hd. right; left. exists d. split; [|done].
    unfold sorted_deepest in Hd. rewrite elem_of_sorted_by, elem_of_intersect in Hd. tauto. }
  eapply runs_bind; [apply mounted_runs| |].
  { intros t [rc ->]. apply HA. repeat apply all_allowed_app; [apply Hmount|done|apply Hmount]. }
  intros mounted' t3 ->. apply runs_require_then.
  { apply HA. rewrite app_nil_r. repeat apply all_allowed_app; [apply Hmount|done|apply Hmount]. }
  intros _. eapply runs_bind.
  { apply (runs_loop _ (λ d, [ZFS; "destroy"; "-r"; d]) (allowed plan current)).
    intros d [Hd Hn]%elem_of_topmost%elem_of_minus. right; right; left. eauto. }
  { intros t Ht. apply HA. repeat apply all_allowed_app; [apply Hmount|done|apply Hmount|done]. }
  intros [] t4 ->. set (t4 := _ <$> topmost_datasets _).
  assert (A t4 ∧ all_ok t4) as [HA4 Ho4].
  { apply loop_allowed. intros d [Hd Hn]%elem_of_topmost%elem_of_minus. right; right; left. eauto. }
  eapply runs_bind.
  { apply (runs_loop _ rollback_cmd (allowed plan current)). intros sn Hsn. right; right; right.
    exists sn. split; [|done]. unfold sorted_deepest in Hsn. by rewrite elem_of_sorted_by in Hsn. }
  { intros t Ht. apply HA. repeat apply all_allowed_app; [apply Hmount|done|apply Hmount|done|done]. }
  intros [] t5 ->. set (t5 := _ <$> sorted_deepest _ plan.(snapshots)).
  assert (A t5 ∧ all_ok t5) as [HA5 Ho5].
  { apply loop_allowed. intros sn Hsn. right; right; right. exists sn. split; [|done].
    unfold sorted_deepest in Hsn. by rewrite elem_of_sorted_by in Hsn. }
  set (m := [([MOUNT; "-p"], 0%Z)]). assert (all_ok m) as Hm by (repeat constructor).
  assert (restored plan current (m ++ t2 ++ m ++ t4 ++ t5)) as Hres.
  { split.
    - repeat apply all_allowed_app; try done; apply Hmount.
    - repeat apply Forall_app_2; done.
    - intros sn Hsn. rewrite !elem_of_app. do 4 right. unfold t5. apply list_elem_of_fmap.
      exists sn. split; [done|]. unfold sorted_deepest. by rewrite elem_of_sorted_by. }
  eapply (runs_bind _ _ (λ _ t, t = [(activate_cmd plan.(origin_be), 0%Z)])
    (λ t, ∃ rc, t = [(activate_cmd plan.(origin_be), rc)])).
  { apply runs_command; eauto. }
  { intros t [rc ->]. right. exists (m ++ t2 ++ m ++ t4 ++ t5), rc, []. split_and!; [|done|constructor].
    by rewrite <- !(assoc_L (++)). }
  intros p t ->. apply runs_ret. rewrite app_nil_r. exists (m ++ t2 ++ m ++ t4 ++ t5).
  split; [|done]. by rewrite <- !(assoc_L (++)).
Qed.

Lemma cleanup_app plan t1 t2 : all_cleanup plan t1 → all_cleanup plan t2 → all_cleanup plan (t1 ++ t2).
Proof. apply Forall_app_2. Qed.

Lemma mark_consumed_runs plan sns :
  runs (mark_consumed plan sns : M (St Sys) exn unit) (λ _ t, t = []) (λ t, t = []).
Proof.
  intros s. exists []. unfold mark_consumed, mbind, M_bind, get_state. simpl.
  destruct (db s !! window_id plan); simpl; by rewrite app_nil_r.
Qed.

Lemma after_activation_runs plan :
  runs (after_activation spawn plan) (λ _, all_cleanup plan) (all_cleanup plan).
Proof.
  assert (all_cleanup plan []) as Hnil by constructor.
  unfold after_activation. eapply runs_bind; [apply mark_consumed_runs|by intros t ->|].
  intros [] t ->. eapply (runs_bind _ _ (λ _, all_cleanup plan) (all_cleanup plan)).
  { apply runs_mapM; [done|apply cleanup_app|apply cleanup_app|]. intros sn Hsn. unfold destroy_consumed.
    assert (∀ rc, all_cleanup plan [([ZFS; "destroy"; sn], rc)]) as Hc.
    { intros rc. constructor; [left; eauto|constructor]. }
    eapply (runs_bind _ _ (λ _, all_cleanup plan) (all_cleanup plan)); [apply runs_unchecked; auto|done|].
    intros p t Ht. destruct (Z.eqb _ 0); [apply runs_ret; by rewrite app_nil_r|].
    eapply (runs_bind _ _ (λ _ t, t = []) (λ t, t = [])); [by apply runs_log| |].
    - intros u ->. by rewrite app_nil_r.
    - intros [] u ->. apply runs_ret. by rewrite app_nil_r. }
  { done. }
  intros remaining t Ht. eapply (runs_bind _ _ (λ _, all_cleanup plan) (all_cleanup plan)).
  { eapply runs_conseq.
    - apply (runs_forM _ _ (λ _, all_cleanup plan) (λ _, all_cleanup plan)). intros prop _. unfold release_pin.
      assert (∀ rc, all_cleanup plan [([ZFS; "set"; prop; plan.(origin_dataset)], rc)]) as Hc.
      { intros rc. constructor; [right; eauto|constructor]. }
      eapply (runs_bind _ _ (λ _, all_cleanup plan) (all_cleanup plan)); [apply runs_unchecked; auto|done|].
      intros p u Hu. destruct (Z.eqb _ 0); [apply runs_ret|apply runs_log]; by rewrite app_nil_r.
    - intros _ u (ts & -> & H). induction H; [done|]. simpl. by apply cleanup_app.
    - intros u (l1 & x & l2 & ts & v & _ & -> & H & Hv). apply cleanup_app; [|done].
      induction H; [done|]. simpl. by apply cleanup_app. }
  { intros u Hu. by repeat apply cleanup_app. }
  intros [] u Hu. eapply runs_bind; [apply mark_consumed_runs| |].
  { intros v ->. by repeat apply cleanup_app. }
  intros [] v ->. apply runs_log. by repeat apply cleanup_app.
Qed.

(** The whole trace of [execute_plan], whatever its outcome: read-only checks,
    then what the destructive part may run. *)
Definition plan_shape (v : pyval) (t : list cmd) : Prop :=
  all_reads t ∨
  ∃ plan current t1 t2, validate_plan v = Ret plan ∧ t = t1 ++ t2 ∧
    checked plan current t1 ∧ restore_shape plan current t2.

Lemma restore_after_runs plan current :
  runs (restore spawn plan current ;; after_activation spawn plan) (λ _, restore_shape plan current) (restore_shape plan current).
Proof.
  eapply runs_bind; [apply restore_runs|done|]. intros [] t (pre & -> & Hres).
  assert (∀ post, all_cleanup plan post → restore_shape plan current ((pre ++ [(activate_cmd plan.(origin_be), 0%Z)]) ++ post)) as Hs.
  { intros post Hpost. right. exists pre, 0%Z, post. by rewrite <- (assoc_L (++)). }
  eapply runs_conseq; [apply after_activation_runs|auto|auto].
Qed.

Lemma execute_plan_runs v : runs (execute_plan spawn v) (λ _, plan_shape v) (plan_shape v).
Proof.
  unfold execute_plan. eapply (runs_bind _ _ (λ plan t, t = [] ∧ validate_plan v = Ret plan) (λ t, t = [])).
  { intros s. exists []. unfold of_outcome. simpl. rewrite app_nil_r. split_and!; [done|done|].
    by destruct (validate_plan v). }
  { intros t ->. left. constructor. }
  intros plan t [-> Hv]. eapply runs_bind; [apply preflight_runs|by left|].
  intros current t1 H1. eapply runs_conseq; [apply restore_after_runs| |]; intros; right; by exists plan, current, t1, t.
Qed.

Lemma execute_plan_shape v s t :
  trace (execute_plan spawn v s).2 = trace s ++ t → plan_shape v t.
Proof.
  intros Ht. destruct (execute_plan_runs v s) as (t' & Ht' & _ & H).
  rewrite Ht in Ht'. apply app_inv_head in Ht' as <-. by destruct (execute_plan spawn v s).1.
Qed.

Lemma reads_activate be t rc : all_reads t → (activate_cmd be, rc) ∉ t.
Proof. intros H Hin. unfold all_reads in H. rewrite Forall_forall in H. by specialize (H _ Hin). Qed.

Lemma allowed_activate plan current be t rc : all_allowed plan current t → (activate_cmd be, rc) ∉ t.
Proof.
  intros H Hin. unfold all_allowed in H. rewrite Forall_forall in H. specialize (H _ Hin). unfold allowed in H.
  by destruct H as [?|[(?&?&?)|[(?&?&?&?)|(?&?&?)]]].
Qed.

Lemma cleanup_activate plan be t rc : all_cleanup plan t → (activate_cmd be, rc) ∉ t.
Proof.
  intros H Hin. unfold all_cleanup in H. rewrite Forall_forall in H. specialize (H _ Hin).
  by destruct H as [(?&?&?)|(?&?)].
Qed.

(** ** What the commands printed *)

Notation called := (list string * Z * string)%type (only parsing).

(** Commands are only added to the record. *)
Definition extends (c0 : list called) (s : St Sys) : Prop := ∃ t, s.(calls) = c0 ++ t.

Lemma extends_spawn c0 argv : keeps (extends c0) (spawn_m spawn argv).
Proof.
  intros s [t Ht]. unfold spawn_m. destruct (spawn argv (sys s)) as [o sys']. simpl.
  eexists. simpl. rewrite Ht, <- (assoc_L (++)). reflexivity.
Qed.

Lemma extends_command c0 argv b : keeps (extends c0) (run_command spawn argv b).
Proof. unfold run_command. pose proof (extends_spawn c0). keeps_tac. Qed.

Lemma extends_log c0 msg : keeps (extends c0) (log msg).
Proof. by intros s Hs. Qed.

Lemma extends_mark c0 plan sns : keeps (extends c0) (mark_consumed plan sns).
Proof. unfold mark_consumed. pose proof (extends_log c0). keeps_tac. Qed.

Lemma extends_preflight c0 plan : keeps (extends c0) (preflight spawn plan).
Proof. unfold preflight, list_datasets, require, command. pose proof (extends_command c0). keeps_tac. Qed.

Lemma extends_restore_after c0 plan current : keeps (extends c0) (restore spawn plan current ;; after_activation spawn plan).
Proof.
  unfold restore, after_activation, mounted_zfs_datasets, destroy_consumed, release_pin, require, command.
  pose proof (extends_command c0). pose proof (extends_log c0). pose proof (extends_mark c0). keeps_tac.
Qed.

(** A listing that was accepted printed the name of the snapshot. *)
Lemma listing_accepted sn msg s u s' :
  (p ← command spawn (list_cmd sn); require (String.eqb (PyStr.strip p.(stdout)) sn) msg) s = (Ret u, s') →
  ∃ out, s'.(calls) = s.(calls) ++ [(list_cmd sn, 0%Z, out)] ∧ PyStr.strip out = sn.
Proof.
  intros (p & s1 & Hc & Hr)%M_bind_Ret. unfold command, run_command in Hc. apply M_bind_Ret in Hc as (q & s2 & Hs & Hq).
  unfold spawn_m in Hs. destruct (spawn (list_cmd sn) (sys s)) as [o sys']. injection Hs as -> <-.
  destruct (Z.eqb_spec (returncode q) 0) as [H0|H0]; [|done]. injection Hq as <- <-.
  unfold require in Hr. destruct (String.eqb_spec (PyStr.strip (stdout q)) sn) as [Hn|]; [|done]. injection Hr as _ <-.
  exists (stdout q). simpl. by rewrite H0.
Qed.

(** The first loop of the checks: every listing was accepted. *)
Lemma listings_accepted l (msg : string → string) s u s' :
  forM l (λ sn, p ← command spawn (list_cmd sn); require (String.eqb (PyStr.strip p.(stdout)) sn) (msg sn)) s = (Ret u, s') →
  ∃ t, s'.(calls) = s.(calls) ++ t ∧ ∀ sn, sn ∈ l → ∃ out, (list_cmd sn, 0%Z, out) ∈ t ∧ PyStr.strip out = sn.
Proof.
  revert s. induction l as [|sn l IH]; intros s; cbn [forM].
  - intros [= _ <-]. exists []. rewrite app_nil_r. split; [done|]. by intros sn ?%elem_of_nil.
  - intros ([] & s1 & (out & H1 & Ho)%listing_accepted & (t & Ht & Hl)%IH)%M_bind_Ret.
    exists ((list_cmd sn, 0%Z, out) :: t). split; [by rewrite Ht, H1, <- (assoc_L (++))|].
    intros sn' [->|Hin]%elem_of_cons; [exists out; split; [by left|done]|].
    destruct (Hl sn' Hin) as (out' & Hin' & ?). exists out'. split; [by right|done].
Qed.

Lemma preflight_accepted plan s current s1 :
  preflight spawn plan s = (Ret current, s1) →
  ∃ t, s1.(calls) = s.(calls) ++ t ∧ ∀ sn, sn ∈ plan.(snapshots) → ∃ out, (list_cmd sn, 0%Z, out) ∈ t ∧ PyStr.strip out = sn.
Proof.
  intros Hp. unfold preflight in Hp. apply M_bind_Ret in Hp as ([] & s0 & (t & Ht & Hl)%listings_accepted & Hp).
  assert (extends (calls s0) s1) as [t' Ht'].
  { match type of Hp with ?m s0 = _ => assert (keeps (extends (calls s0)) m) as Hk end.
    { unfold list_datasets, require, command. pose proof (extends_command (calls s0)). keeps_tac. }
    specialize (Hk s0 (ex_intro _ [] (eq_sym (app_nil_r _)))). by rewrite Hp in Hk. }
  exists (t ++ t'). split; [by rewrite Ht', Ht, (assoc_L (++))|].
  intros sn Hsn. destruct (Hl sn Hsn) as (out & Hin & ?). exists out. rewrite elem_of_app. auto.
Qed.

(** The commands of [execute_plan] with what they printed: nothing but reads, or
    accepted checks followed by the destructive part. *)
Lemma execute_plan_calls v s t :
  calls (execute_plan spawn v s).2 = calls s ++ t →
  all_reads t.*1 ∨ ∃ plan current t1 t2, validate_plan v = Ret plan ∧ t = t1 ++ t2 ∧
    checked plan current t1.*1 ∧ restore_shape plan current t2.*1 ∧
    ∀ sn, sn ∈ plan.(snapshots) → ∃ out, (list_cmd sn, 0%Z, out) ∈ t1 ∧ PyStr.strip out = sn.
Proof.
  unfold execute_plan, of_outcome. unfold mbind at 1, M_bind at 1. destruct (validate_plan v) as [plan|e]; cbn [snd].
  2:{ intros Ht. left. rewrite <- (app_nil_r (calls s)) in Ht at 1. apply app_inv_head in Ht as <-. constructor. }
  unfold mbind at 1, M_bind at 1. destruct (preflight_runs plan s) as (u1 & Hu1 & _ & H1).
  pose proof (extends_preflight (calls s) plan s (ex_intro _ [] (eq_sym (app_nil_r _)))) as [t1 Ht1].
  destruct (preflight spawn plan s) as [[current|e] s1] eqn:Hp; cbn [snd fst] in *.
  - destruct (preflight_accepted plan s current s1 Hp) as (t1' & Ht1' & Hl). rewrite Ht1 in Ht1'. apply app_inv_head in Ht1' as <-.
    destruct (restore_after_runs plan current s1) as (u2 & Hu2 & _ & H2).
    pose proof (extends_restore_after (calls s1) plan current s1 (ex_intro _ [] (eq_sym (app_nil_r _)))) as [t2 Ht2].
    assert (u1 = t1.*1) as ->.
    { unfold trace in Hu1. rewrite Ht1, fmap_app in Hu1. by apply app_inv_head in Hu1. }
    assert (u2 = t2.*1) as ->.
    { unfold trace in Hu2. rewrite Ht2, fmap_app in Hu2. by apply app_inv_head in Hu2. }
    intros Ht. right. exists plan, current, t1, t2. rewrite Ht2, Ht1, <- (assoc_L (++)) in Ht. apply app_inv_head in Ht as <-.
    split_and!; try done. by destruct ((restore spawn plan current ;; after_activation spawn plan) s1).1.
  - intros Ht. left. rewrite Ht1 in Ht. apply app_inv_head in Ht as <-. unfold trace in Hu1. rewrite Ht1, fmap_app in Hu1.
    by apply app_inv_head in Hu1 as ->.
Qed.

(** C2. The origin boot environment is activated only after a complete restore:
    whatever the programs answer and however the run ends, when [bectl activate] is run
    then every command before it succeeded; they are first a part that only reads, in
    which the listing of every recorded snapshot printed exactly its name, and then a
    part in which every recorded snapshot was rolled back; and the environment is the
    one of the plan. *)
Theorem activates_only_after_restore v s t be rc out :
  calls (execute_plan spawn v s).2 = calls s ++ t → (activate_cmd be, rc, out) ∈ t →
  ∃ plan t1 t2 t3, validate_plan v = Ret plan ∧ be = plan.(origin_be) ∧
    t = t1 ++ t2 ++ (activate_cmd be, rc, out) :: t3 ∧ all_reads t1.*1 ∧ all_ok (t1 ++ t2).*1 ∧
    ∀ sn, sn ∈ plan.(snapshots) →
      (∃ o, (list_cmd sn, 0%Z, o) ∈ t1 ∧ PyStr.strip o = sn) ∧ ∃ o, (rollback_cmd sn, 0%Z, o) ∈ t2.
Proof.
  intros [Hr|(plan & current & t1 & t2 & Hv & -> & [] & Hs & Hl)]%execute_plan_calls Hin.
  { destruct (reads_activate be _ rc Hr). by apply (list_elem_of_fmap_2 fst) in Hin. }
  apply elem_of_app in Hin as [Hin|Hin].
  { destruct (reads_activate be _ rc ck_reads0). by apply (list_elem_of_fmap_2 fst) in Hin. }
  pose proof (list_elem_of_fmap_2 fst _ _ Hin) as Hin1. cbn [fst] in Hin1.
  destruct Hs as [Ha|(pre & rc' & post & Hs & [] & Hc)]; [by destruct (allowed_activate _ _ _ _ _ Ha Hin1)|].
  apply fmap_app_inv in Hs as (u1 & u2 & Hu1 & Hu2 & Hs). symmetry in Hu2. apply fmap_cons_inv in Hu2 as ([[a r] o] & u3 & Ha & Hu3 & Hu2).
  cbn [fst] in Ha. injection Ha as Ha Hr. subst t2 u2 pre post a rc'.
  apply elem_of_app in Hin as [Hin|[Heq|Hin]%elem_of_cons].
  - apply (list_elem_of_fmap_2 fst) in Hin. by destruct (allowed_activate _ _ _ _ _ rs_allowed0 Hin).
  - injection Heq as -> -> ->. exists plan, t1, u1, u3. split_and!; try done.
    + rewrite fmap_app. by apply Forall_app_2.
    + intros sn Hsn. split; [by apply Hl|]. apply rs_rollback0 in Hsn.
      apply list_elem_of_fmap in Hsn as ([[a' r'] o'] & Heq & Hin). cbn [fst] in Heq. injection Heq as <- <-. by exists o'.
  - apply (list_elem_of_fmap_2 fst) in Hin. by destruct (cleanup_activate _ _ _ _ Hc Hin).
Qed.

(** C16. The recursive destroys spare what was captured: a dataset that
    [zfs destroy -r] is given is neither a captured dataset nor an ancestor of
    one. *)
Theorem destroys_only_new v s t d rc :
  trace (execute_plan spawn v s).2 = trace s ++ t → ([ZFS; "destroy"; "-r"; d], rc) ∈ t →
  ∃ plan, validate_plan v = Ret plan ∧
    ∀ sn, sn ∈ plan.(snapshots) → under d (snapshot_dataset sn) = false.
Proof.
  intros [Hr|(plan & current & t1 & t2 & Hv & -> & [] & Hs)]%execute_plan_shape Hin.
  { unfold all_reads in Hr. rewrite Forall_forall in Hr. by specialize (Hr _ Hin). }
  exists plan. split; [done|]. intros sn Hsn.
  assert (∀ t, all_allowed plan current t → ([ZFS; "destroy"; "-r"; d], rc) ∈ t →
    under d (snapshot_dataset sn) = false) as Hall.
  { intros u Hu Hin'. unfold all_allowed in Hu. rewrite Forall_forall in Hu. specialize (Hu _ Hin').
    destruct Hu as [?|[(?&?&?)|[(d'&Hd&Hn&[= ->])|(?&?&?)]]]; try done.
    apply ck_extra0; [done|done|]. by apply list_elem_of_fmap_2. }
  apply elem_of_app in Hin as [Hin|Hin].
  { unfold all_reads in ck_reads0. rewrite Forall_forall in ck_reads0. by specialize (ck_reads0 _ Hin). }
  destruct Hs as [Ha|(pre & rc' & post & -> & [] & Hc)]; [eauto|].
  apply elem_of_app in Hin as [Hin|[Heq|Hin]%elem_of_cons]; [eauto|done|].
  unfold all_cleanup in Hc. rewrite Forall_forall in Hc. specialize (Hc _ Hin).
  by destruct Hc as [(?&?&?)|(?&?)].
Qed.

(** Everything is checked before the first destructive command: the trace
    starts with read-only commands, and if anything follows them then all of
    them succeeded and each recorded snapshot was listed among them. *)
Theorem checks_before_destruction v s t :
  trace (execute_plan spawn v s).2 = trace s ++ t →
  ∃ t1 t2, t = t1 ++ t2 ∧ all_reads t1 ∧
    (t2 = [] ∨ ∃ plan, validate_plan v = Ret plan ∧ all_ok t1 ∧
       ∀ sn, sn ∈ plan.(snapshots) → (list_cmd sn, 0%Z) ∈ t1).
Proof.
  intros [Hr|(plan & current & t1 & t2 & Hv & -> & [] & Hs)]%execute_plan_shape.
  - exists t, []. rewrite app_nil_r. auto.
  - exists t1, t2. split_and!; [done|done|]. right. exists plan. done.
Qed.

(** ** The state files *)

Context (exn_text : exn → string).
Notation consume_plan := (consume_plan spawn exn_text).

Lemma execute_plan_files v s : (execute_plan spawn v s).2.(files) = s.(files).
Proof. by destruct (execute_plan_runs v s) as (t & _ & H & _). Qed.

(** A failed attempt leaves its record in place of the running plan. *)
Lemma record_failure_files now plan e (s : St Sys) :
  s.(files) !! PLAN_PATH = None →
  let '(o, s') := record_failure exn_text now plan e s in
  o = Raise e ∧ ¬ is_Some (s'.(files) !! PLAN_PATH) ∧ ¬ is_Some (s'.(files) !! RUNNING_PATH) ∧
  ∃ d, s'.(files) !! FAILED_PATH = Some (Some (PDict d)) ∧ dget d "error" = Some (PStr (exn_text e)).
Proof.
  intros Hp. unfold record_failure, with_files, log, modify, mbind, M_bind, raise. simpl.
  split; [done|]. split_and!.
  - rewrite lookup_delete_ne, lookup_insert_ne, Hp by done. by intros [? ?].
  - rewrite lookup_delete_eq. by intros [? ?].
  - eexists. rewrite lookup_delete_ne, lookup_insert_eq by done. split; [done|]. simpl. apply dget_dset.
Qed.

Lemma load_json_state path (s : St Sys) : (load_json path s).2 = s.
Proof.
  unfold load_json, mbind, M_bind, get_state. by destruct (files s !! path) as [[v|]|].
Qed.

Definition has_file (path : string) (s : St Sys) : Prop := is_Some (s.(files) !! path).

(** [consume_plan] settles the attempt: the pending plan is consumed exactly
    once, no [.running] file stays behind, and a [.failed] record with the error
    appears exactly when the run failed.  With no pending plan, or with an earlier
    attempt on record, nothing is run and no file changes. *)
Theorem consume_plan_settles now s :
  match consume_plan now s with
  | (Ret false, s') => ¬ has_file PLAN_PATH s ∧ s' = s
  | (Ret true, s') =>
      has_file PLAN_PATH s ∧ ¬ has_file PLAN_PATH s' ∧ ¬ has_file RUNNING_PATH s' ∧ ¬ has_file FAILED_PATH s'
  | (Raise e, s') =>
      (has_file PLAN_PATH s ∧ (has_file RUNNING_PATH s ∨ has_file FAILED_PATH s) ∧ s' = s) ∨
      (has_file PLAN_PATH s ∧ ¬ has_file PLAN_PATH s' ∧ ¬ has_file RUNNING_PATH s' ∧
       ∃ d, s'.(files) !! FAILED_PATH = Some (Some (PDict d)) ∧ dget d "error" = Some (PStr (exn_text e)))
  end.
Proof.
  unfold Restore.consume_plan, has_file, exists_file, mbind, M_bind, get_state.
  destruct (files s !! PLAN_PATH) as [c|] eqn:Hp; simpl; [|split; [by intros [? ?]|done]].
  destruct (files s !! RUNNING_PATH) as [?|] eqn:Hr; simpl; [left; eauto|].
  destruct (files s !! FAILED_PATH) as [?|] eqn:Hf; simpl; [left; eauto|].
  unfold os_replace, mbind, M_bind, get_state. rewrite Hp. simpl.
  set (s1 := mkSt _ _ _ _ _).
  assert (s1.(files) !! PLAN_PATH = None) as Hp1.
  { unfold s1; simpl. by rewrite lookup_insert_ne, lookup_delete_eq by done. }
  unfold run_plan. destruct (load_json RUNNING_PATH s1) as [[plan|e] s2] eqn:Hl.
  - assert (s2 = s1) as ->.
    { pose proof (load_json_state RUNNING_PATH s1) as Hs. by rewrite Hl in Hs. }
    pose proof (execute_plan_files plan s1) as He. destruct (execute_plan spawn plan s1) as [[[]|e] s3].
    + unfold with_files, modify, mbind, M_bind. simpl in *. rewrite He. unfold s1; simpl. split_and!; [eauto| | |].
      * rewrite lookup_delete_ne, lookup_insert_ne, lookup_delete_eq by done. by intros [? ?].
      * rewrite lookup_delete_eq. by intros [? ?].
      * rewrite lookup_delete_ne, lookup_insert_ne, lookup_delete_ne by done. rewrite Hf. by intros [? ?].
    + assert (s3.(files) !! PLAN_PATH = None) as Hp3 by (simpl in He; rewrite He; exact Hp1).
      pose proof (record_failure_files now (Some plan) e s3 Hp3) as Hfail.
      destruct (record_failure exn_text now (Some plan) e s3) as [o s'].
      destruct Hfail as (-> & ? & ? & ?). right. eauto.
  - assert (s2 = s1) as ->.
    { pose proof (load_json_state RUNNING_PATH s1) as Hs. by rewrite Hl in Hs. }
    pose proof (record_failure_files now None e s1 Hp1) as Hfail.
    destruct (record_failure exn_text now None e s1) as [o s'].
    destruct Hfail as (-> & ? & ? & ?). right. eauto.
Qed.
End restore.

(** ** Valid plans *)

Record plan_ok (p : Plan) : Prop := {
  po_window : (1 ≤ p.(window_id))%Z;
  po_safe : Forall (λ s, safe s = true) ([p.(origin_be); p.(origin_realname); p.(origin_dataset)]
                                         ++ p.(roots) ++ p.(snapshots));
  po_roots : p.(roots) ≠ [] ∧ NoDup p.(roots);
  po_snapshots : p.(snapshots) ≠ [] ∧ NoDup p.(snapshots);
  po_name : ∃ suffix, PyStr.startswith suffix ROLLBACK_NAME = true ∧
    ∀ sn, sn ∈ p.(snapshots) → split_snapshot sn = Ret (snapshot_dataset sn, suffix);
  po_captured : ∀ root, root ∈ p.(roots) → ∃ sn, sn ∈ p.(snapshots) ∧ snapshot_dataset sn = root;
  po_inside : ∀ sn, sn ∈ p.(snapshots) → ∃ root, root ∈ p.(roots) ∧ under root (snapshot_dataset sn) = true;
}.

Lemma split_snapshot_dataset sn ds suffix :
  split_snapshot sn = Ret (ds, suffix) → snapshot_dataset sn = ds.
Proof.
  unfold split_snapshot, snapshot_dataset. destruct (_ =? _)%nat; [|done].
  destruct (PyStr.rsplit1 at_sign sn) as [[a b]|]; [|done].
  destruct (_ || _); [done|]. by intros [= -> ->].
Qed.

Lemma safe_values l : Forall (λ s, safe s = true) l → mapO safe_value (PStr <$> l) = Ret l.
Proof. induction 1 as [|s l Hs Hl IH]; [done|]. csimpl. rewrite Hs. simpl. by rewrite IH. Qed.

Lemma safe_values_inv l ss : mapO safe_value l = Ret ss → l = PStr <$> ss ∧ Forall (λ s, safe s = true) ss.
Proof.
  intros H%mapO_Ret. induction H as [|v s l ss Hv H [-> IH]]; [done|].
  unfold safe_value in Hv. destruct v; try done. destruct (safe _) eqn:E; [|done].
  injection Hv as ->. split; [done|by constructor].
Qed.

Lemma check_Ret b msg u : check b msg = Ret u ↔ b = true.
Proof. destruct b, u; done. Qed.

Lemma mapO_check {A} (p : A → bool) (msg : A → string) l us :
  mapO (λ x, check (p x) (msg x)) l = Ret us → ∀ x, x ∈ l → p x = true.
Proof.
  intros H%mapO_Ret. induction H as [|x u l us Hx H IH]; intros y; [by intros ?%elem_of_nil|].
  apply check_Ret in Hx. intros [->|Hy]%elem_of_cons; auto.
Qed.

Lemma mapO_check_ok {A} (p : A → bool) (msg : A → string) l :
  (∀ x, x ∈ l → p x = true) → mapO (λ x, check (p x) (msg x)) l = Ret (replicate (length l) tt).
Proof.
  induction l as [|x l IH]; intros H; [done|]. simpl. rewrite (H x) by left. simpl.
  rewrite IH; [done|]. intros y Hy. apply H. by right.
Qed.

Lemma remove_dups_const {A} `{EqDecision A} (x : A) l :
  l ≠ [] → (∀ y, y ∈ l → y = x) → remove_dups l = [x].
Proof.
  intros Hl Hx. induction l as [|y l IH]; [done|]. simpl.
  rewrite (Hx y) by left. destruct l as [|z l]; [done|].
  case_decide as Hd; [apply IH; [done|]; intros w Hw; apply Hx; by right|].
  destruct Hd. rewrite <- (Hx z); [left|]. right; left.
Qed.

Lemma remove_dups_single {A} `{EqDecision A} (x : A) l : remove_dups l = [x] → ∀ y, y ∈ l → y = x.
Proof. intros H y Hy. apply elem_of_remove_dups in Hy. rewrite H in Hy. by apply list_elem_of_singleton in Hy. Qed.

Lemma under_exists roots d : existsb (λ root, under root d) roots = true ↔ ∃ root, root ∈ roots ∧ under root d = true.
Proof. rewrite List.existsb_exists. by setoid_rewrite list_elem_of_In. Qed.

(** The parts of the snapshot names of a plan. *)
Lemma mapO_split l parts :
  mapO split_snapshot l = Ret parts →
  parts.*1 = snapshot_dataset <$> l ∧
  Forall2 (λ sn x, split_snapshot sn = Ret (snapshot_dataset sn, x)) l parts.*2.
Proof.
  intros H%mapO_Ret. induction H as [|sn [ds x] l parts Hsn H [IH1 IH2]]; [done|].
  pose proof (split_snapshot_dataset _ _ _ Hsn) as Hds. csimpl. rewrite IH1, Hds.
  split; [done|]. constructor; [by rewrite Hds|done].
Qed.

Lemma validate_plan_sound v p : validate_plan v = Ret p → plan_ok p.
Proof.
  unfold validate_plan. destruct v as [| | | | |d]; try done.
  intros (version & _ & H)%outcome_bind_Ret. apply outcome_bind_Ret in H as (wid & _ & H).
  apply outcome_bind_Ret in H as (be & _ & H). apply outcome_bind_Ret in H as (rn & _ & H).
  apply outcome_bind_Ret in H as (ds & _ & H). apply outcome_bind_Ret in H as (rs & _ & H).
  apply outcome_bind_Ret in H as (sns & _ & H).
  apply outcome_bind_Ret in H as (_ & [_ Hw%Z.leb_le]%check_Ret%andb_true_iff & H).
  apply outcome_bind_Ret in H as (_ & _ & H).
  apply outcome_bind_Ret in H as (_ & [Hrs Hsns]%check_Ret%andb_true_iff & H).
  apply outcome_bind_Ret in H as (ss & Ho & H).
  apply outcome_bind_Ret in H as (roots & [-> Hsr]%safe_values_inv & H).
  apply outcome_bind_Ret in H as (snaps & [-> Hss]%safe_values_inv & H).
  apply outcome_bind_Ret in H as (_ & Hnd%check_Ret & H). apply andb_true_iff in Hnd as [Hnr Hns].
  apply outcome_bind_Ret in H as (parts & [Hp1 Hp2]%mapO_split & H).
  apply outcome_bind_Ret in H as (_ & Hname%check_Ret & H).
  apply outcome_bind_Ret in H as (us1 & Hroots & H).
  apply outcome_bind_Ret in H as (us2 & Hinside & [= <-]).
  apply bool_decide_eq_true in Hnr, Hns.
  apply safe_values_inv in Ho as [Ho Hso]. destruct ss as [|s1 [|s2 [|s3 []]]]; try done.
  injection Ho as -> -> ->.
  pose proof (mapO_check _ _ _ _ Hroots) as Hr. pose proof (mapO_check _ _ _ _ Hinside) as Hi.
  simpl in Hr, Hi. rewrite Hp1 in *. split; simpl; [done| | | | | |].
  - change (Forall (λ s, safe s = true) ([s1; s2; s3] ++ roots ++ snaps)). rewrite !Forall_app. done.
  - split; [|done]. by intros ->.
  - split; [|done]. by intros ->.
  - destruct (remove_dups parts.*2) as [|x [|]] eqn:Ed; try done. exists x. split; [done|].
    intros sn [i Hi']%list_elem_of_lookup. destruct (Forall2_lookup_l _ _ _ _ _ Hp2 Hi') as (y & Hy & Hsn).
    rewrite Hsn. do 2 f_equal. apply (remove_dups_single x parts.*2 Ed).
    apply list_elem_of_lookup. eauto.
  - intros root Hroot. specialize (Hr root Hroot). apply bool_decide_eq_true in Hr.
    apply list_elem_of_fmap in Hr as (sn & -> & Hsn). eauto.
  - intros sn Hsn. apply under_exists, Hi, elem_of_remove_dups. by apply list_elem_of_fmap_2.
Qed.

Lemma validate_plan_ok p : plan_ok p → validate_plan (plan_json p) = Ret p.
Proof.
  intros []. pose proof po_safe0 as Hs. apply Forall_app in Hs as [Hs3 [Hsr Hss]%Forall_app].
  destruct po_roots0 as [Hr1 Hr2]. destruct po_snapshots0 as [Hs1 Hs2].
  destruct po_name0 as (suffix & Hx & Hsplit).
  unfold validate_plan, plan_json. simpl.
  assert (∀ s, safe s = true → String.eqb s "" = false) as Hne.
  { intros s. unfold safe. by destruct (String.eqb s ""). }
  apply Forall_cons in Hs3 as [H1 Hs3]. apply Forall_cons in Hs3 as [H2 Hs3]. apply Forall_cons in Hs3 as [H3 _].
  rewrite (proj2 (Z.leb_le 1 (window_id p))) by done. simpl.
  rewrite !Hne by done. simpl.
  assert (∀ l : list string, l ≠ [] → truthy (PList (PStr <$> l)) = true) as Htr by (intros [|]; done).
  pose proof (Htr _ Hr1) as Ht1. pose proof (Htr _ Hs1) as Ht2. simpl in Ht1, Ht2. rewrite Ht1, Ht2. simpl.
  rewrite H1, H2, H3. simpl. rewrite !safe_values by done. simpl.
  rewrite !bool_decide_true by done. simpl.
  assert (mapO split_snapshot (snapshots p) = Ret ((λ sn, (snapshot_dataset sn, suffix)) <$> snapshots p)) as ->.
  { apply mapO_Ret. apply Forall2_fmap_r, Forall_Forall2_diag, Forall_forall. auto. }
  assert (remove_dups ((λ sn, (snapshot_dataset sn, suffix)) <$> snapshots p).*2 = [suffix]) as Hrd.
  { rewrite <- list_fmap_compose. apply remove_dups_const; [by destruct (snapshots p)|].
    by intros y (sn & -> & _)%list_elem_of_fmap. }
  cbn [mbind outcome_bind]. rewrite Hrd, <- !list_fmap_compose. simpl. rewrite Hx. simpl. rewrite mapO_check_ok.
  2: { intros d Hd. rewrite elem_of_remove_dups in Hd. apply list_elem_of_fmap in Hd as (sn & -> & Hsn). simpl.
       apply under_exists. by apply po_inside0. }
  rewrite mapO_check_ok; [by destruct p|].
  intros root Hroot. apply bool_decide_eq_true. destruct (po_captured0 root Hroot) as (sn & Hsn & <-).
  apply list_elem_of_fmap. by exists sn.
Qed.

(** [validate_plan] accepts a stored plan exactly when it is safe and
    coordinated: a positive window id, non-empty values that cannot be taken for
    options, roots and snapshots without duplicates, all snapshots under one
    [freecore-rollback-] name, each root captured and each captured dataset
    inside a root. *)
Theorem validate_plan_iff p : validate_plan (plan_json p) = Ret p ↔ plan_ok p.
Proof. split; [apply validate_plan_sound|apply validate_plan_ok]. Qed.

(** ** Witnesses

    A system with one captured dataset, one jail created since, and programs
    that succeed. *)

Definition demo_plan : Plan :=
  mkPlan 1 "13.3-U1.2" "13.3-U1.2" "boot-pool/ROOT/13.3-U1.2" ["tank/.system"]
    ["tank/.system@freecore-rollback-20260810053536"].

Definition nl : string := String (Ascii.ascii_of_nat 10) "".

Definition demo_out (argv : list string) : string :=
  match argv with
  | [_; "list"; "-H"; "-o"; "name"; "-t"; "snapshot"; sn] => sn +:+ nl
  | [_; "list"; "-H"] => "13.3-U1.2" +:+ nl
  | _ :: "list" :: _ => "tank/.system" +:+ nl +:+ "tank/.system/new" +:+ nl
  | _ => ""
  end.

Definition demo_spawn (argv : list string) (_ : unit) : outcome exn process * unit :=
  (Ret (mkProcess 0 (demo_out argv) ""), tt).

Definition demo_state : St unit :=
  mkSt tt [] {[1%Z := mkRow None demo_plan.(snapshots)]} [] {[PLAN_PATH := Some (plan_json demo_plan)]}.

Definition demo_trace : list (list string * Z) :=
  trace (execute_plan demo_spawn (plan_json demo_plan) demo_state).2.

Definition demo_calls : list (list string * Z * string) :=
  calls (execute_plan demo_spawn (plan_json demo_plan) demo_state).2.

Lemma activates_witness :
  ∃ plan t1 t2 t3, validate_plan (plan_json demo_plan) = Ret plan ∧ "13.3-U1.2" = plan.(origin_be) ∧
    demo_calls = t1 ++ t2 ++ (activate_cmd "13.3-U1.2", 0%Z, "") :: t3 ∧ all_reads t1.*1 ∧ all_ok (t1 ++ t2).*1 ∧
    ∀ sn, sn ∈ plan.(snapshots) →
      (∃ o, (list_cmd sn, 0%Z, o) ∈ t1 ∧ PyStr.strip o = sn) ∧ ∃ o, (rollback_cmd sn, 0%Z, o) ∈ t2.
Proof.
  apply (activates_only_after_restore demo_spawn (plan_json demo_plan) demo_state demo_calls).
  - reflexivity.
  - apply list_elem_of_In. vm_compute. tauto.
Defined.

Lemma destroys_witness :
  ∃ plan, validate_plan (plan_json demo_plan) = Ret plan ∧
    ∀ sn, sn ∈ plan.(snapshots) → under "tank/.system/new" (snapshot_dataset sn) = false.
Proof.
  apply (destroys_only_new demo_spawn (plan_json demo_plan) demo_state demo_trace "tank/.system/new" 0).
  - reflexivity.
  - apply list_elem_of_In. vm_compute. tauto.
Defined.

Lemma checks_witness :
  ∃ t1 t2, demo_trace = t1 ++ t2 ∧ all_reads t1 ∧
    (t2 = [] ∨ ∃ plan, validate_plan (plan_json demo_plan) = Ret plan ∧ all_ok t1 ∧
       ∀ sn, sn ∈ plan.(snapshots) → (list_cmd sn, 0%Z) ∈ t1).
Proof.
  apply (checks_before_destruction demo_spawn (plan_json demo_plan) demo_state demo_trace). reflexivity.
Defined.
