(* ===== verification/Rollback.v ===== *)
(** * The return-to-13.3 window: plugins/system_rollback.py

    [SystemRollbackService] records a rollback window (a snapshot set of
    the system dataset and of iocage, and a pinned boot environment), decides
    whether a return is on offer, stages it, and tears the window down.

    Everything it does goes through [middleware.call], the file system and a few
    programs.  [Host] lists those operations over an abstract state [H]: a
    query is a function of the state, an effect may change it, and any of them may
    raise.  The laws a theorem needs of them are hypotheses of that theorem. *)

From S2P Require Import Prelude PyValue Filter Restore.

(** ** Constants *)

Definition SNAPSHOT_PREFIX : string := "freecore-rollback".
Definition CD_UPGRADE_SENTINEL : string := "/data/cd-upgrade".
Definition ARRIVAL_PATH_MARKER : string := "/data/system-rollback.arrival".
Definition CAPTURE_FAILED_ALERT : string := "SystemRollbackCaptureFailed".
Definition ARRIVAL_PATHS : list string := ["cd_upgrade"; "unknown"].
Definition FREECORE_RELEASE_PREFIX : string := "FreeCORE-".
Definition CLOSED_REASONS : list string := ["pool_upgraded"; "consumed"; "removed"; "origin_not_13_3"].
Definition RESTORE_PLAN_PATH : string := "/data/system-rollback.pending".
Definition RESTORE_RUNNING_PATH : string := "/data/system-rollback.running".
Definition RESTORE_FAILED_PATH : string := "/data/system-rollback.failed".
Definition ROLLBACK_SHUTDOWN_TIMEOUT : Z := 900.
Definition SHUTDOWN_TIMEOUT_SYSCTL : string := "kern.init_shutdown_timeout".
Definition WORKLOAD_JOB_PREFIXES : list string := ["jail."; "plugin."; "vm."].

(** ** Dates

    [datetime.utcfromtimestamp] and [strftime('%Y%m%d%H%M%S')] on seconds since
    the epoch, in the years 1 to 9999. *)
Module Clock.

Definition utcfromtimestamp (epoch : Z) : outcome exn Z :=
  if (Z.leb (-62135596800) epoch && Z.leb epoch 253402300799)%bool then Ret epoch
  else Raise (ValueError "year is out of range").

(** The civil date of a day number, by eras of 400 years that start in March. *)
Definition civil (days : Z) : Z * Z * Z :=
  (let z := days + 719468 in
   let era := z / 146097 in
   let doe := z mod 146097 in
   let yoe := (doe - doe / 1460 + doe / 36524 - doe / 146096) / 365 in
   let doy := doe - (365 * yoe + yoe / 4 - yoe / 100) in
   let mp := (5 * doy + 2) / 153 in
   let d := doy - (153 * mp + 2) / 5 + 1 in
   let m := if mp <? 10 then mp + 3 else mp - 9 in
   (yoe + era * 400 + (if m <=? 2 then 1 else 0), m, d))%Z.

Fixpoint digits (width : nat) (z : Z) : string :=
  match width with
  | 0 => ""
  | S w => digits w (z / 10) +:+ String (Ascii.ascii_of_nat (48 + Z.to_nat (z mod 10))) ""
  end.

Definition strftime (epoch : Z) : string :=
  let '(y, m, d) := civil (epoch / 86400) in
  let s := (epoch mod 86400)%Z in
  digits 4 y +:+ digits 2 m +:+ digits 2 d +:+
  digits 2 (s / 3600) +:+ digits 2 (s / 60 mod 60) +:+ digits 2 (s mod 60).

End Clock.

(** ** Records *)

Record PoolFlags : Type := mkFlags { guid : string; features_upgraded : bool }.

(** [RollbackWindowModel] *)
Record Window : Type := mkWindow {
  w_id : Z;
  w_origin_be : string;
  w_arrival_path : string;
  w_captured_at : Z;
  w_system_dataset : string;
  w_snapshots : list string;
  w_pool_state : list (string * PoolFlags);
  w_closed_reason : option string;
}.

Record BootEnv : Type := mkBE {
  be_id : string;
  be_realname : string;
  be_activated : bool;
  be_keep : bool;
  be_rawspace : option Z;
}.

Record ZDataset : Type := mkDataset { ds_id : string; ds_origin : string }.
Record ZSnapshot : Type := mkSnapshot {
  sn_name : string;
  sn_dataset : string;
  sn_used : Z;
  sn_createtxg : Z;
}.
Record Pool : Type := mkPool { pool_id : Z; pool_name : string; pool_guid : string }.
Record ActiveJob : Type := mkActiveJob { aj_id : Z; aj_method : string; aj_state : string }.
Record VM : Type := mkVM { vm_id : Z; vm_name : string }.

(** ** What the plugin calls *)

Class Host (H : Type) : Type := {
  (* datastore.query / insert / update on the window table, ordered by id *)
  datastore_query : H → outcome exn (list Window);
  datastore_insert : Window → M H exn unit;
  datastore_update : Z → option (list string) → option string → M H exn unit;
  (* bootenv.query, bootenv.set_attribute(.., {'keep': ..}), boot.pool_name *)
  bootenv_query : H → outcome exn (list BootEnv);
  set_keep : string → bool → M H exn unit;
  boot_pool_name : H → outcome exn string;
  (* zfs.dataset.query by prefix; the children of the active iocage roots *)
  dataset_query : string → H → outcome exn (list ZDataset);
  iocage_children : H → outcome exn (list (list string));
  (* zfs.snapshot.query / create (recursive) / delete *)
  snapshot_query : H → outcome exn (list ZSnapshot);
  snapshot_create : string → string → M H exn unit;
  snapshot_delete : string → M H exn unit;
  (* systemdataset.config()['basename'], empty when there is none *)
  systemdataset_basename : H → outcome exn string;
  (* zfs.pool.query(name)['guid'], zfs.pool.is_upgraded, pool.query, pool.is_upgraded *)
  zfs_pool_guid : string → H → outcome exn (option string);
  zfs_pool_upgraded : string → H → outcome exn bool;
  pool_query : H → outcome exn (list Pool);
  pool_is_upgraded : Z → H → outcome exn bool;
  (* alert.oneshot_create / oneshot_delete *)
  oneshot_create : string → M H exn unit;
  oneshot_delete : string → M H exn unit;
  (* files *)
  path_exists : string → H → bool;
  read_file : string → H → outcome exn string;
  unlink : string → M H exn unit;
  mkstemp : M H exn string;
  write_json : string → pyval → M H exn unit;
  replace : string → string → M H exn unit;
  (* reading the release of a boot environment *)
  mkdtemp : M H exn string;
  mount_ro : string → string → M H exn unit;
  umount : string → M H exn unit;
  rmdir : string → M H exn unit;
  (* workloads *)
  get_jobs : H → outcome exn (list ActiveJob);
  running_vms : H → outcome exn (list VM);
  vm_stop : Z → M H exn (option string);
  iocage_set_up : H → outcome exn bool;
  jail_stop_on_shutdown : M H exn unit;
  jails_up : H → outcome exn (list string);
  (* sysctl(8) and system.reboot *)
  sysctl_get : string → H → outcome exn string;
  sysctl_set : string → Z → M H exn unit;
  reboot : M H exn unit;
}.

Section rollback.
Context {H : Type} `{Host H} (exn_text : exn → string).

(** The service object: the host, its cache of releases, and the progress of the
    running job. *)
Record Service : Type := mkService {
  host : H;
  origin_releases : list (string * option string);
  progress : list (Z * string);
}.

Definition query {A} (q : H → outcome exn A) : M Service exn A := λ s, (q s.(host), s).
Definition call {A} (op : M H exn A) : M Service exn A := λ s,
  let '(o, h) := op s.(host) in (o, mkService h s.(origin_releases) s.(progress)).
Definition set_progress (percent : Z) (description : string) : M Service exn unit :=
  modify (λ s, mkService s.(host) s.(origin_releases) (s.(progress) ++ [(percent, description)])).

(** [try: m; except Exception: (log)], with the value when there is one. *)
Definition attempt {A} (m : M Service exn A) : M Service exn (option A) :=
  try_except_if is_exception (a ← m; mret (Some a)) (λ _, mret None).

(** ** Reading the window *)

(** [config] *)
Definition config : M Service exn (option Window) :=
  windows ← query datastore_query;
  mret (head windows).

Definition is_freecore_release (release : option string) : bool :=
  match release with
  | Some r => PyStr.nonempty r && PyStr.startswith r FREECORE_RELEASE_PREFIX
  | None => false
  end.

(** [f.read(256).strip() or None] *)
Definition release_of_file (text : string) : option string :=
  let r := PyStr.strip (String.substring 0 256 text) in
  if PyStr.nonempty r then Some r else None.

(** The mount, read, unmount of [origin_release]: the release read survives a
    failure to clean up. *)
Definition read_release (realname : string) : M Service exn (option string) :=
  boot_pool ← attempt (query boot_pool_name);
  match boot_pool with
  | None => mret None
  | Some boot_pool =>
      mountpoint ← attempt (call mkdtemp);
      match mountpoint with
      | None => mret None
      | Some mountpoint =>
          try_finally
            (mounted ← attempt (call (mount_ro (boot_pool +:+ "/ROOT/" +:+ realname) mountpoint));
             match mounted with
             | None => mret None
             | Some _ =>
                 text ← attempt (query (read_file (mountpoint +:+ "/etc/version")));
                 attempt (call (umount mountpoint)) ;;
                 mret (text ≫= release_of_file)
             end)
            (attempt (call (rmdir mountpoint)) ;; mret tt)
      end
  end.

(** [origin_release] with its cache *)
Definition origin_release (realname : string) : M Service exn (option string) :=
  s ← get_state;
  match dget s.(origin_releases) realname with
  | Some release => mret release
  | None =>
      release ← read_release realname;
      modify (λ s, mkService s.(host) (dset s.(origin_releases) realname release) s.(progress)) ;;
      mret release
  end.

(** [bootenv.query([['id', '=', be]])] *)
Definition bootenv_by_id (be : string) : M Service exn (list BootEnv) :=
  bes ← query bootenv_query;
  mret (List.filter (λ b, String.eqb b.(be_id) be) bes).

(** [origin_is_freecore] *)
Definition origin_is_freecore (origin_be : string) : M Service exn bool :=
  origin ← bootenv_by_id origin_be;
  match origin with
  | [] => mret false
  | b :: _ => release ← origin_release b.(be_realname); mret (is_freecore_release release)
  end.

(** [points_at_freecore] *)
Definition points_at_freecore (window : Window) : M Service exn bool :=
  r ← attempt (origin_is_freecore window.(w_origin_be));
  mret (default false r).

(** ** Pools *)

(** [zfs_pool_is_upgraded] *)
Definition zfs_pool_is_upgraded (name : string) : M Service exn bool :=
  r ← attempt (query (zfs_pool_upgraded name));
  mret (default false r).

(** [pool_state] *)
Definition pool_state : M Service exn (list (string * PoolFlags)) :=
  boot_pool ← query boot_pool_name;
  state ← (if PyStr.nonempty boot_pool then
             g ← query (zfs_pool_guid boot_pool);
             match g with
             | Some g => up ← zfs_pool_is_upgraded boot_pool; mret [(boot_pool, mkFlags g up)]
             | None => mret []
             end
           else mret []);
  pools ← query pool_query;
  flags ← mapM_M (λ p, up ← query (pool_is_upgraded p.(pool_id));
                        mret (p.(pool_name), mkFlags p.(pool_guid) up)) pools;
  mret (dupdate state flags).

(** The loop of [pools_upgraded_since_capture]. *)
Definition upgraded_since (current : list (string * PoolFlags)) (before : string * PoolFlags) : bool :=
  match dget current before.1 with
  | None => false
  | Some after =>
      if PyStr.nonempty before.2.(guid) && PyStr.nonempty after.(guid) &&
         negb (String.eqb before.2.(guid) after.(guid)) then false
      else negb before.2.(features_upgraded) && after.(features_upgraded)
  end.

Definition pools_upgraded_since_capture (window : Window) : M Service exn bool :=
  match window.(w_pool_state) with
  | [] => mret false
  | recorded => current ← pool_state; mret (existsb (upgraded_since current) recorded)
  end.

(** ** Datasets and snapshots *)

(** [name.split('@', 1)[0]] and [name.split('@', 1)[1]] *)
Definition snap_dataset (name : string) : string := PyStr.before at_sign name.
Definition snap_suffix (name : string) : option string := snd <$> PyStr.split1 at_sign name.

(** [iocage_datasets] *)
Definition iocage_datasets : M Service exn (list string) :=
  children ← query iocage_children;
  mret (List.filter (λ name, PyStr.endswith name "/iocage") (mjoin children)).

(** [recorded_iocage_datasets] *)
Definition recorded_iocage_datasets (window : Window) : list string :=
  let datasets := remove_dups (omap (λ name,
    match PyStr.split1 at_sign name with
    | Some (dataset, _) => if under window.(w_system_dataset) dataset then None else Some dataset
    | None => None
    end) window.(w_snapshots)) in
  sorted_str (List.filter (λ dataset,
    negb (existsb (λ other, negb (String.eqb other dataset) &&
                            PyStr.startswith dataset (other +:+ "/")) datasets)) datasets).

(** [zfs.snapshot.query([['name', '$', f'@{suffix}']])], names only *)
Definition snapshots_named (suffix : string) : M Service exn (list string) :=
  sns ← query snapshot_query;
  mret (List.filter (λ name, PyStr.endswith name ("@" +:+ suffix)) (sn_name <$> sns)).

(** The snapshots that exist under the suffixes of [names]. *)
Definition present_snapshots (names : list string) : M Service exn (list string) :=
  found ← mapM_M snapshots_named (remove_dups (omap snap_suffix names));
  mret (mjoin found).

(** [missing_snapshots] *)
Definition missing_snapshots (window : Window) : M Service exn (list string) :=
  match window.(w_snapshots) with
  | [] => mret ["<recorded snapshot list is empty>"]
  | recorded =>
      present ← present_snapshots recorded;
      mret (sorted_str (remove_dups (minus recorded present)))
  end.

(** ** [available] *)

Record Availability : Type := mkAvail { available_ : bool; reason : option string }.

Definition unavailable (reason : string) : Availability := mkAvail false (Some reason).

Definition closed_as (reason : string) : string :=
  match reason with
  | "pool_upgraded" => "pool_upgraded"
  | "removed" => "removed"
  | "origin_not_13_3" => "origin_not_13_3"
  | _ => "no_window"
  end.

Definition available : M Service exn Availability :=
  window ← config;
  match window with
  | None => mret (unavailable "no_window")
  | Some window =>
      match window.(w_closed_reason) with
      | Some r => mret (unavailable (closed_as r))
      | None =>
          if String.eqb window.(w_arrival_path) "cd_upgrade" then mret (unavailable "iso_install")
          else
            origin ← bootenv_by_id window.(w_origin_be);
            match origin with
            | [] => mret (unavailable "origin_be_missing")
            | origin :: _ =>
                release ← origin_release origin.(be_realname);
                if is_freecore_release release then mret (unavailable "origin_not_13_3")
                else if negb origin.(be_keep) then mret (unavailable "origin_be_unpinned")
                else
                  upgraded ← pools_upgraded_since_capture window;
                  if upgraded : bool then mret (unavailable "pool_upgraded")
                  else
                    missing ← missing_snapshots window;
                    match missing with
                    | _ :: _ => mret (unavailable "snapshots_missing")
                    | [] =>
                        current ← query systemdataset_basename;
                        if negb (String.eqb current window.(w_system_dataset))
                        then mret (unavailable "system_dataset_changed")
                        else
                          iocage ← iocage_datasets;
                          let recorded := recorded_iocage_datasets window in
                          if forallb (λ d, bool_decide (d ∈ recorded)) iocage &&
                             forallb (λ d, bool_decide (d ∈ iocage)) recorded
                          then mret (mkAvail true None)
                          else mret (unavailable "iocage_changed")
                    end
            end
      end
  end.

(** ** [origin_boot_environment] *)

(** The order of [sorted(candidates, reverse=True)]: newest first. *)
Definition candidate_geb (a b : Z * string) : bool :=
  Z.ltb b.1 a.1 || (Z.eqb a.1 b.1 && String.leb b.2 a.2).

Definition origin_boot_environment : M Service exn (option string) :=
  bes ← query bootenv_query;
  match List.filter be_activated bes with
  | [] => mret None
  | current :: _ =>
      boot_pool ← query boot_pool_name;
      let prefix := boot_pool +:+ "/ROOT/" in
      let running := prefix +:+ current.(be_realname) in
      datasets ← query (dataset_query prefix);
      bes ← query bootenv_query;
      let boot_environments := dupdate [] ((λ b, (b.(be_realname), b.(be_id))) <$> bes) in
      let before_switch :=
        match List.find (λ d, String.eqb d.(ds_id) running) datasets with
        | Some d =>
            match PyStr.split1 at_sign d.(ds_origin) with
            | Some (origin_dataset, _) => Some origin_dataset
            | None => None
            end
        | None => None
        end in
      match before_switch with
      | Some origin_dataset =>
          if negb (PyStr.startswith origin_dataset prefix) || String.eqb origin_dataset running
          then mret None
          else mret (dget boot_environments (PyStr.drop (String.length prefix) origin_dataset))
      | None =>
          sns ← query snapshot_query;
          let created_txg := dupdate [] ((λ sn, (sn.(sn_name), sn.(sn_createtxg))) <$>
            List.filter (λ sn, String.eqb sn.(sn_dataset) running) sns) in
          let candidates := omap (λ d,
            if String.eqb d.(ds_id) running then None
            else match PyStr.split1 at_sign d.(ds_origin) with
                 | Some (o, _) =>
                     if String.eqb o running
                     then Some (default 0%Z (dget created_txg d.(ds_origin)),
                                PyStr.drop (String.length prefix) d.(ds_id))
                     else None
                 | None => None
                 end) datasets in
          mret (head (omap (λ c, dget boot_environments c.2) (sorted_by candidate_geb candidates)))
      end
  end.

(** ** Snapshot sets *)

(** [snapshot_names] *)
Definition snapshot_names (roots : list string) (snapshot_name : string) : M Service exn (list string) :=
  match roots with
  | [] => mret []
  | _ =>
      names ← snapshots_named snapshot_name;
      mret (sorted_str (List.filter (λ name, existsb (λ root, under root (snap_dataset name)) roots) names))
  end.

(** [destroy_snapshots]: the names still standing afterwards. *)
Definition destroy_one (present : list string) (name : string) : M Service exn (list string) :=
  if bool_decide (name ∈ present) then
    done ← attempt (call (snapshot_delete name));
    mret (match done with Some _ => [] | None => [name] end)
  else mret [].

Definition destroy_snapshots (names : list string) : M Service exn (list string) :=
  match names with
  | [] => mret []
  | _ =>
      present ← present_snapshots names;
      remaining ← mapM_M (destroy_one present) (sorted_str names);
      mret (mjoin remaining)
  end.

(** The loop of [take_snapshots]: the roots snapshotted, and the exception that
    stopped it. *)
Fixpoint create_snapshots (snapshot_name : string) (created roots : list string) :
    M Service exn (list string * option exn) :=
  match roots with
  | [] => mret (created, None)
  | root :: roots => λ s,
      match call (snapshot_create root snapshot_name) s with
      | (Ret _, s') => create_snapshots snapshot_name (created ++ [root]) roots s'
      | (Raise e, s') => (Ret (created, Some e), s')
      end
  end.

(** [take_snapshots] *)
Definition take_snapshots (roots : list string) (snapshot_name : string) : M Service exn (list string) :=
  '(created, failed) ← create_snapshots snapshot_name [] roots;
  match failed with
  | Some e =>
      if is_exception e then
        names ← snapshot_names created snapshot_name;
        destroy_snapshots names ;;
        raise e
      else raise e
  | None => snapshot_names created snapshot_name
  end.

(** ** [capture] *)

(** [detect_arrival_path] *)
Definition detect_arrival_path : M Service exn string :=
  s ← get_state;
  mret (if path_exists CD_UPGRADE_SENTINEL s.(host) then "cd_upgrade" else "unknown").

(** Recording the window; a failure takes the snapshots and the pin back. *)
Definition record_window (window : Window) : M Service exn unit :=
  try_except_if is_exception
    (call (set_keep window.(w_origin_be) true) ;;
     call (datastore_insert window))
    (λ e, destroy_snapshots window.(w_snapshots) ;;
          attempt (call (set_keep window.(w_origin_be) false)) ;;
          raise e).

(** [capture]; [utcnow] is the clock of the host. *)
Definition capture (utcnow : Z) (arrival_path : option string) (captured_epoch : option Z) :
    M Service exn (option Window) :=
  window ← config;
  match window with
  | Some window => mret (Some window)
  | None =>
      origin ← origin_boot_environment;
      match origin with
      | None => mret None
      | Some origin_be =>
          freecore ← origin_is_freecore origin_be;
          if freecore : bool then mret None
          else
            system_dataset ← query systemdataset_basename;
            if negb (PyStr.nonempty system_dataset) then mret None
            else
              arrival_path ← (match arrival_path with Some p => mret p | None => detect_arrival_path end);
              captured_at ← (match captured_epoch with
                             | Some epoch => λ s, (Clock.utcfromtimestamp epoch, s)
                             | None => mret utcnow
                             end);
              let snapshot_name := SNAPSHOT_PREFIX +:+ "-" +:+ Clock.strftime captured_at in
              iocage ← iocage_datasets;
              pools ← pool_state;
              snapshots ← take_snapshots (system_dataset :: iocage) snapshot_name;
              record_window (mkWindow 0 origin_be arrival_path captured_at system_dataset snapshots pools None) ;;
              config
      end
  end.

(** ** [capture_on_boot] *)

Definition capture_failed_alert : M Service exn unit :=
  attempt (call (oneshot_create CAPTURE_FAILED_ALERT)) ;; mret tt.
Definition clear_capture_failed_alert : M Service exn unit :=
  attempt (call (oneshot_delete CAPTURE_FAILED_ALERT)) ;; mret tt.

(** The arrival path and the timestamp of a marker; [None] when it is malformed. *)
Definition parse_marker (arrival_marker : string) : option (string * option Z) :=
  let accepted p epoch := if bool_decide (p ∈ ARRIVAL_PATHS) then Some (p, epoch) else None in
  match PyStr.split_ws arrival_marker with
  | [p] => accepted p None
  | [p; t] =>
      match py_int t with
      | Some epoch =>
          if Z.leb epoch 0 then None
          else match Clock.utcfromtimestamp epoch with
               | Ret _ => accepted p (Some epoch)
               | Raise _ => None
               end
      | None => None
      end
  | _ => None
  end.

(** The part of [capture_on_boot] after the marker has been consumed. *)
Definition capture_arrival (utcnow : Z) (arrival_marker : string) : M Service exn (option Window) :=
  match parse_marker arrival_marker with
  | None =>
      capture_failed_alert ;;
      raise (CallError "Automatic rollback arrival marker is invalid" EFAULT PNone)
  | Some (arrival_path, captured_epoch) =>
      if String.eqb arrival_path "cd_upgrade" then clear_capture_failed_alert ;; mret None
      else
        between ← attempt (origin ← origin_boot_environment;
                           match origin with
                           | Some origin_be => origin_is_freecore origin_be
                           | None => mret false
                           end);
        if default false between then clear_capture_failed_alert ;; mret None
        else
          window ← try_except_if is_exception (capture utcnow (Some arrival_path) captured_epoch)
                     (λ e, capture_failed_alert ;; raise e);
          match window with
          | None =>
              capture_failed_alert ;;
              raise (CallError "Automatic rollback window could not be captured" EFAULT PNone)
          | Some window => clear_capture_failed_alert ;; mret (Some window)
          end
  end.

Definition capture_on_boot (utcnow : Z) : M Service exn (option Window) := λ s,
  match read_file ARRIVAL_PATH_MARKER s.(host) with
  | Raise FileNotFoundError => (Ret None, s)
  | Raise e => (attempt (call (unlink ARRIVAL_PATH_MARKER)) ;; capture_failed_alert ;; raise e) s
  | Ret text =>
      (try_except_if is_exception (call (unlink ARRIVAL_PATH_MARKER)) (λ e, capture_failed_alert ;; raise e) ;;
       capture_arrival utcnow (PyStr.strip (String.substring 0 64 text))) s
  end.

(** ** Closing a window *)

(** [cleanup] from the point where the window is known to be closed. *)
Definition tear_down (window : Window) : M Service exn (option Window) :=
  let closed_reason := window.(w_closed_reason) in
  origin ← attempt (bootenv_by_id window.(w_origin_be));
  let origin_pinned := match origin with
    | None => true
    | Some (b :: _) => b.(be_keep)
    | Some [] => false
    end in
  if negb origin_pinned && match window.(w_snapshots) with [] => true | _ => false end then mret (Some window)
  else
    (if origin_pinned then attempt (call (set_keep window.(w_origin_be) false)) ;; mret tt else mret tt) ;;
    remaining ← destroy_snapshots window.(w_snapshots);
    call (datastore_update window.(w_id) (Some remaining) closed_reason) ;;
    config.

(** [cleanup] *)
Definition cleanup : M Service exn (option Window) :=
  window ← config;
  match window with
  | None => mret None
  | Some window =>
      match window.(w_closed_reason) with
      | Some _ => tear_down window
      | None =>
          freecore ← points_at_freecore window;
          if negb freecore then mret (Some window)
          else
            call (datastore_update window.(w_id) None (Some "origin_not_13_3")) ;;
            reread ← config;
            match reread with
            | Some window => tear_down window
            | None => raise (TypeError "'NoneType' object is not subscriptable")
            end
      end
  end.

(** [close] *)
Definition close (reason : string) : M Service exn (option Window) :=
  window ← config;
  match window with
  | None => mret None
  | Some w =>
      match w.(w_closed_reason) with
      | Some _ => mret window
      | None => call (datastore_update w.(w_id) None (Some reason)) ;; cleanup
      end
  end.

(** ** [space] and [remove] *)

Record Space : Type := mkSpace {
  snapshot_count : nat;
  snapshot_bytes_lower_bound : Z;
  origin_be_bytes_estimate : option Z;
  origin_be_pinned : bool;
  cleanup_pending : bool;
}.

Definition space : M Service exn (option Space) :=
  window ← config;
  match window with
  | None => mret None
  | Some window =>
      let recorded := window.(w_snapshots) in
      found ← mapM_M (λ suffix,
        sns ← query snapshot_query;
        mret (List.filter (λ sn, PyStr.endswith sn.(sn_name) ("@" +:+ suffix) &&
                                 bool_decide (sn.(sn_name) ∈ recorded)) sns))
        (remove_dups (omap snap_suffix recorded));
      let counted := mjoin found in
      origin ← bootenv_by_id window.(w_origin_be);
      let pinned := match origin with b :: _ => b.(be_keep) | [] => false end in
      mret (Some (mkSpace (length counted) (foldr Z.add 0%Z (sn_used <$> counted))
        (head origin ≫= be_rawspace) pinned
        (negb (length counted =? 0)%nat || pinned)))
  end.

(** [remove] *)
Definition remove : M Service exn (option Window) :=
  window ← config;
  match window with
  | None => set_progress 100 "No captured return exists" ;; mret None
  | Some w =>
      set_progress 10 "Closing the captured return" ;;
      window ← (match w.(w_closed_reason) with
                | None => close "removed"
                | Some _ => cleanup
                end);
      held ← space;
      (match held with
       | Some held =>
           if held.(cleanup_pending)
           then set_progress 100 "The return is closed; some retained state still needs cleanup"
           else set_progress 100 "The captured return was removed"
       | None => set_progress 100 "The captured return was removed"
       end) ;;
      mret window
  end.

(** ** [execute] *)

Definition call_error (msg : string) : exn := CallError msg EFAULT PNone.

(** [ensure_no_active_workload_jobs] *)
Definition ensure_no_active_workload_jobs : M Service exn unit :=
  active_jobs ← query get_jobs;
  let active_jobs := List.filter (λ j,
    existsb (PyStr.startswith j.(aj_method)) WORKLOAD_JOB_PREFIXES) active_jobs in
  match active_jobs with
  | [] => mret tt
  | _ => raise (call_error ("Rollback was not staged because VM or jail jobs are still active: " +:+
           join ", " ((λ j, j.(aj_method) +:+ " (job " +:+ pretty j.(aj_id) +:+ ", " +:+
                            PyStr.lower j.(aj_state) +:+ ")") <$> active_jobs) +:+
           ". Wait for them to finish or abort them, then retry."))
  end.

(** [stop_vm] *)
Definition stop_vm (vm : VM) : M Service exn unit :=
  err ← call (vm_stop vm.(vm_id));
  match err with
  | Some e => if PyStr.nonempty e
              then raise (call_error ("Failed to stop VM " +:+ repr_str vm.(vm_name) +:+ ": " +:+ e))
              else mret tt
  | None => mret tt
  end.

(** [quiesce_workloads]; the virtual machines are stopped one after the other. *)
Definition quiesce_workloads : M Service exn unit :=
  ensure_no_active_workload_jobs ;;
  vms ← query running_vms;
  (match vms with
   | [] => mret tt
   | _ => set_progress 20 ("Stopping " +:+ pretty (length vms) +:+ " running VM(s)") ;; forM vms stop_vm
   end) ;;
  remaining ← query running_vms;
  (match remaining with
   | [] => mret tt
   | _ => raise (call_error ("Rollback was not staged because these VMs are still running: " +:+
            join ", " (vm_name <$> remaining)))
   end) ;;
  set_up ← query iocage_set_up;
  (if set_up : bool then
     set_progress 35 "Stopping active jails" ;;
     call jail_stop_on_shutdown ;;
     up ← query jails_up;
     match up with
     | [] => mret tt
     | _ => raise (call_error ("Rollback was not staged because these jails are still running: " +:+ join ", " up))
     end
   else mret tt) ;;
  ensure_no_active_workload_jobs.

(** [reserve_shutdown_timeout] *)
Definition reserve_shutdown_timeout : M Service exn (option Z) :=
  previous ← try_except_if is_exception
    (out ← query (sysctl_get SHUTDOWN_TIMEOUT_SYSCTL);
     match py_int (PyStr.strip out) with
     | Some z => mret z
     | None => raise (ValueError ("invalid literal for int() with base 10: " +:+ repr_str (PyStr.strip out)))
     end)
    (λ e, raise (call_error ("Unable to read " +:+ SHUTDOWN_TIMEOUT_SYSCTL +:+ ": " +:+ exn_text e)));
  if Z.leb ROLLBACK_SHUTDOWN_TIMEOUT previous then mret None
  else
    try_except_if is_exception (call (sysctl_set SHUTDOWN_TIMEOUT_SYSCTL ROLLBACK_SHUTDOWN_TIMEOUT))
      (λ e, raise (call_error ("Unable to reserve the rollback shutdown window: " +:+ exn_text e))) ;;
    mret (Some previous).

(** [restore_shutdown_timeout] *)
Definition restore_shutdown_timeout (previous : option Z) : M Service exn unit :=
  match previous with
  | None => mret tt
  | Some previous => attempt (call (sysctl_set SHUTDOWN_TIMEOUT_SYSCTL previous)) ;; mret tt
  end.

(** [os.unlink] with [except FileNotFoundError: pass] *)
Definition unlink_if_exists (path : string) : M Service exn unit :=
  try_except (call (unlink path))
    (λ e, match e with FileNotFoundError => mret tt | _ => raise e end).

(** [stage_restore_plan] *)
Definition stage_restore_plan (plan : Plan) : M Service exn unit :=
  temporary ← call mkstemp;
  try_finally
    (call (write_json temporary (plan_json plan)) ;;
     call (replace temporary RESTORE_PLAN_PATH))
    (unlink_if_exists temporary).

(** The plan [execute] stages for a window. *)
Definition plan_of (boot_pool : string) (window : Window) (origin : BootEnv) : Plan :=
  mkPlan window.(w_id) window.(w_origin_be) origin.(be_realname)
    (boot_pool +:+ "/ROOT/" +:+ origin.(be_realname))
    (window.(w_system_dataset) :: recorded_iocage_datasets window)
    (sorted_deepest (λ name, PyStr.count slash (snap_dataset name)) window.(w_snapshots)).

(** Staging the plan and rebooting; a failure takes both preparations back (a job that
    is aborted meanwhile raises [CancelledError], which is not caught). *)
Definition stage_and_reboot (plan : Plan) (previous : option Z) : M Service exn unit :=
  try_except_if is_exception
    (stage_restore_plan plan ;; call reboot)
    (λ e, unlink_if_exists RESTORE_PLAN_PATH ;;
          restore_shutdown_timeout previous ;;
          raise e).

(** [execute] *)
Definition execute : M Service exn bool :=
  s ← get_state;
  match List.find (λ path, path_exists path s.(host))
          [RESTORE_PLAN_PATH; RESTORE_RUNNING_PATH; RESTORE_FAILED_PATH] with
  | Some path =>
      raise (call_error ("A rollback restore state file already exists at " +:+ repr_str path +:+
        "; inspect and resolve that attempt before starting another one."))
  | None =>
      availability ← available;
      if negb availability.(available_) then
        raise (call_error ("Rollback is not available: " +:+ default "None" availability.(reason)))
      else
        window ← config;
        match window with
        | None => raise (TypeError "'NoneType' object is not subscriptable")
        | Some window =>
            origin ← bootenv_by_id window.(w_origin_be);
            match origin with
            | [] => raise (call_error "Rollback is not available: origin_be_missing")
            | origin :: _ =>
                boot_pool ← query boot_pool_name;
                let plan := plan_of boot_pool window origin in
                set_progress 10 "Rollback preconditions passed; quiescing VM and jail workloads" ;;
                quiesce_workloads ;;
                set_progress 50 "Workloads stopped; reserving the shutdown restore window" ;;
                previous ← reserve_shutdown_timeout;
                stage_and_reboot plan previous ;;
                set_progress 100 "Restore staged; the system is rebooting into the origin boot environment" ;;
                mret true
            end
        end
  end.

End rollback.
