(* ===== verification/RollbackFacts.v ===== *)
(** * Properties of the rollback window

    The laws of the host a theorem relies on are stated as predicates on its
    operations; each theorem names those it uses. *)

From S2P Require Import Prelude PyValue Filter Restore RestoreFacts Rollback.

(** ** Frames

    A property of the host that the effects of an operation keep is kept by the
    operation. *)
Section frame.
Context {H : Type} `{Host H} (P : H → Prop).
Notation Service := (Service (H := H)).

(** [op] keeps [P] on the host. *)
Definition preserves {A} (op : M H exn A) : Prop := ∀ h, P h → P (op h).2.

(** The effects of reading the release of a boot environment. *)
Record mount_preserves : Prop := {
  mp_mkdtemp : preserves mkdtemp;
  mp_mount : ∀ d m, preserves (mount_ro d m);
  mp_umount : ∀ m, preserves (umount m);
  mp_rmdir : ∀ m, preserves (rmdir m);
}.

(** The effects of a capture. *)
Record capture_preserves : Prop := {
  cp_mount : mount_preserves;
  cp_create : ∀ d n, preserves (snapshot_create d n);
  cp_delete : ∀ n, preserves (snapshot_delete n);
  cp_keep : ∀ be b, preserves (set_keep be b);
  cp_insert : ∀ w, preserves (datastore_insert w);
  cp_alert : ∀ a, preserves (oneshot_create a);
  cp_clear : ∀ a, preserves (oneshot_delete a);
}.

Notation kept m := (keeps (λ s : Service, P s.(host)) m).

Lemma kept_query {A} (q : H → outcome exn A) : kept (query q).
Proof. by intros s Hs. Qed.

Lemma kept_call {A} (op : M H exn A) : preserves op → kept (call op).
Proof.
  intros Hop s Hs. unfold call. specialize (Hop _ Hs). by destruct (op (host s)) as [o h].
Qed.

Lemma kept_attempt {A} (m : M Service exn A) : kept m → kept (attempt m).
Proof. intros Hm. unfold attempt. keeps_tac. Qed.

Hint Resolve kept_query kept_call kept_attempt : keeps.

Lemma kept_config : kept config.
Proof. unfold config. keeps_tac. Qed.
Hint Resolve kept_config : keeps.

Lemma kept_bootenv_by_id be : kept (bootenv_by_id be).
Proof. unfold bootenv_by_id. keeps_tac. Qed.
Hint Resolve kept_bootenv_by_id : keeps.

Section mount.
Context (Hm : mount_preserves).

Lemma kept_read_release rn : kept (read_release rn).
Proof using Hm.
  destruct Hm. unfold read_release. keeps_tac.
Qed.
Hint Resolve kept_read_release : keeps.

Lemma kept_origin_release rn : kept (origin_release rn).
Proof using Hm. unfold origin_release. keeps_tac. Qed.
Hint Resolve kept_origin_release : keeps.

Lemma kept_origin_is_freecore be : kept (origin_is_freecore be).
Proof using Hm. unfold origin_is_freecore. keeps_tac. Qed.
Hint Resolve kept_origin_is_freecore : keeps.

Lemma kept_points_at_freecore w : kept (points_at_freecore w).
Proof using Hm. unfold points_at_freecore. keeps_tac. Qed.
Hint Resolve kept_points_at_freecore : keeps.

Lemma kept_pool_state : kept pool_state.
Proof. unfold pool_state, zfs_pool_is_upgraded. keeps_tac. Qed.
Hint Resolve kept_pool_state : keeps.

Lemma kept_iocage_datasets : kept iocage_datasets.
Proof. unfold iocage_datasets. keeps_tac. Qed.
Hint Resolve kept_iocage_datasets : keeps.

Lemma kept_snapshots_named n : kept (snapshots_named n).
Proof. unfold snapshots_named. keeps_tac. Qed.
Hint Resolve kept_snapshots_named : keeps.

Lemma kept_present_snapshots ns : kept (present_snapshots ns).
Proof. unfold present_snapshots. keeps_tac. Qed.
Hint Resolve kept_present_snapshots : keeps.

Lemma kept_available : kept available.
Proof using Hm.
  unfold available, pools_upgraded_since_capture, missing_snapshots. keeps_tac.
Qed.
End mount.

Hint Resolve kept_pool_state kept_iocage_datasets kept_snapshots_named kept_present_snapshots
  kept_origin_is_freecore : keeps.

Lemma kept_origin_boot_environment : kept origin_boot_environment.
Proof. unfold origin_boot_environment. keeps_tac. Qed.
Hint Resolve kept_origin_boot_environment : keeps.

Lemma kept_snapshot_names rs n : kept (snapshot_names rs n).
Proof. unfold snapshot_names. keeps_tac. Qed.
Hint Resolve kept_snapshot_names : keeps.

Lemma kept_destroy_snapshots ns : (∀ n, preserves (snapshot_delete n)) → kept (destroy_snapshots ns).
Proof. intros Hd. unfold destroy_snapshots, destroy_one. keeps_tac. Qed.

Lemma kept_create_snapshots n created rs :
  (∀ d m, preserves (snapshot_create d m)) → kept (create_snapshots n created rs).
Proof.
  intros Hc. revert created. induction rs as [|r rs IH]; intros created; cbn [create_snapshots]; [apply keeps_ret|].
  intros s Hs. pose proof (kept_call (snapshot_create r n) (Hc r n) s Hs) as Hs'.
  destruct (call (snapshot_create r n) s) as [[[]|e] s']; [by apply IH|done].
Qed.
Hint Resolve kept_destroy_snapshots kept_create_snapshots : keeps.

Section capture.
Context (Hc : capture_preserves).

Lemma kept_capture now ap ep : kept (capture now ap ep).
Proof using Hc.
  destruct Hc. unfold capture, take_snapshots, record_window, detect_arrival_path. keeps_tac.
Qed.
Hint Resolve kept_capture : keeps.

Lemma kept_capture_arrival now marker : kept (capture_arrival now marker).
Proof using Hc.
  destruct Hc. unfold capture_arrival, capture_failed_alert, clear_capture_failed_alert. keeps_tac.
  apply kept_attempt. keeps_tac.
Qed.
End capture.
End frame.

(** ** The arrival marker *)

Section boot.
Context {H : Type} `{Host H}.
Notation Service := (Service (H := H)).

Definition no_marker (h : H) : Prop := read_file ARRIVAL_PATH_MARKER h = Raise FileNotFoundError.

(** A capture is attempted at most once per arrival: the marker is consumed
    before anything else, so whatever the outcome of the first [capture_on_boot],
    every later one finds no marker and changes nothing.  The host must delete a
    file it unlinks, and nothing a capture does may create the marker. *)
Theorem capture_on_boot_once (s : Service) text h now :
  read_file ARRIVAL_PATH_MARKER s.(host) = Ret text →
  unlink ARRIVAL_PATH_MARKER s.(host) = (Ret tt, h) → no_marker h →
  capture_preserves no_marker →
  let s' := (capture_on_boot now s).2 in
  ∀ now', capture_on_boot now' s' = (Ret None, s').
Proof.
  intros Hr Hu Hn Hc s' now'.
  assert (no_marker s'.(host)) as Hs'.
  { unfold s', capture_on_boot. rewrite Hr. unfold mbind, M_bind, try_except_if, try_except, call. rewrite Hu. simpl.
    by apply (kept_capture_arrival no_marker Hc). }
  unfold capture_on_boot. unfold no_marker in Hs'. by rewrite Hs'.
Qed.
End boot.

(** ** [available] *)

Section available.
Context {H : Type} `{Host H}.
Notation Service := (Service (H := H)).

(** Two hosts whose records read the same. *)
Record same_view (h h' : H) : Prop := {
  sv_windows : datastore_query h' = datastore_query h;
  sv_bootenvs : bootenv_query h' = bootenv_query h;
  sv_boot_pool : boot_pool_name h' = boot_pool_name h;
  sv_snapshots : snapshot_query h' = snapshot_query h;
  sv_sysds : systemdataset_basename h' = systemdataset_basename h;
  sv_iocage : iocage_children h' = iocage_children h;
}.

#[local] Instance same_view_po : PreOrder same_view.
Proof.
  split; [by intros h; split|]. intros h1 h2 h3 [] []. split; congruence.
Qed.

(** Mounting a boot environment read-only on a temporary directory leaves the
    records alone. *)
Definition mount_neutral : Prop := ∀ h0 : H, mount_preserves (same_view h0).

Lemma query_inv {A} (q : H → outcome exn A) (s s' : Service) o :
  query q s = (o, s') → o = q s.(host) ∧ s' = s.
Proof. by intros [= <- <-]. Qed.

Lemma config_inv (s s' : Service) w :
  config s = (Ret w, s') → s' = s ∧ ∃ ws, datastore_query s.(host) = Ret ws ∧ w = head ws.
Proof.
  unfold config. intros (ws & s1 & [Hq ->]%query_inv & [= <- <-])%M_bind_Ret. eauto.
Qed.

Lemma bootenv_inv be (s s' : Service) bs :
  bootenv_by_id be s = (Ret bs, s') →
  s' = s ∧ ∃ bes, bootenv_query s.(host) = Ret bes ∧ bs = List.filter (λ b, String.eqb b.(be_id) be) bes.
Proof.
  unfold bootenv_by_id. intros (bes & s1 & [Hq ->]%query_inv & [= <- <-])%M_bind_Ret. eauto.
Qed.

Lemma snapshots_named_inv n (s s' : Service) names :
  snapshots_named n s = (Ret names, s') →
  s' = s ∧ ∃ sns, snapshot_query s.(host) = Ret sns ∧
    names = List.filter (λ name, PyStr.endswith name ("@" +:+ n)) (sn_name <$> sns).
Proof.
  unfold snapshots_named. intros (sns & s1 & [Hq ->]%query_inv & [= <- <-])%M_bind_Ret. eauto.
Qed.

Lemma present_inv names (s s' : Service) present :
  present_snapshots names s = (Ret present, s') →
  s' = s ∧ ∀ name, name ∈ present → ∃ sns, snapshot_query s.(host) = Ret sns ∧ name ∈ (sn_name <$> sns).
Proof.
  unfold present_snapshots. intros (found & s1 & Hf & [= <- <-])%M_bind_Ret.
  revert found s1 Hf. induction (remove_dups (omap snap_suffix names)) as [|n ns IH]; intros found s1; cbn [mapM_M].
  - intros [= <- <-]. split; [done|]. by intros name ?%elem_of_nil.
  - intros (l & s2 & [-> (sns & Hs & ->)]%snapshots_named_inv & H2)%M_bind_Ret.
    apply M_bind_Ret in H2 as (ls & s3 & H3 & [= <- <-]). destruct (IH ls s3 H3) as [-> IH']. split; [done|].
    intros name. cbn [mjoin list_join]. rewrite elem_of_app. intros [Hin|Hin]; [|auto].
    exists sns. split; [done|]. rewrite list_elem_of_In, List.filter_In, <- list_elem_of_In in Hin. tauto.
Qed.

Lemma missing_nil w (s s' : Service) :
  missing_snapshots w s = (Ret [], s') →
  s' = s ∧ w.(w_snapshots) ≠ [] ∧
  ∀ n, n ∈ w.(w_snapshots) → ∃ sns, snapshot_query s.(host) = Ret sns ∧ n ∈ (sn_name <$> sns).
Proof.
  unfold missing_snapshots. destruct (w_snapshots w) as [|n0 ns] eqn:E; [done|].
  intros (present & s1 & [-> Hp]%present_inv & [= Hm <-])%M_bind_Ret. split_and!; [done|done|].
  intros n Hn. apply Hp. destruct (decide (n ∈ present)) as [|Hno]; [done|].
  assert (n ∈ sorted_str (remove_dups (minus (n0 :: ns) present))) as Hin.
  { unfold sorted_str. rewrite elem_of_sorted_by, elem_of_remove_dups. by apply elem_of_minus. }
  simpl in Hin. rewrite Hm in Hin. by apply elem_of_nil in Hin.
Qed.

(** What "available" promises. *)
Record return_on_offer (h : H) (w : Window) : Prop := {
  ro_window : ∃ ws, datastore_query h = Ret (w :: ws);
  ro_open : w.(w_closed_reason) = None;
  ro_arrival : w.(w_arrival_path) ≠ "cd_upgrade";
  ro_origin : ∃ bes b, bootenv_query h = Ret bes ∧ b ∈ bes ∧
    b.(be_id) = w.(w_origin_be) ∧ b.(be_keep) = true ∧
    ∃ (s1 s2 : Service) release, same_view h s1.(host) ∧
      origin_release b.(be_realname) s1 = (Ret release, s2) ∧ is_freecore_release release = false;
  ro_pools : w.(w_pool_state) = [] ∨
    ∃ (s1 s2 : Service) current, same_view h s1.(host) ∧ pool_state s1 = (Ret current, s2) ∧
      ∀ before, before ∈ w.(w_pool_state) → upgraded_since current before = false;
  ro_snapshots : w.(w_snapshots) ≠ [] ∧
    ∀ n, n ∈ w.(w_snapshots) → ∃ sns, snapshot_query h = Ret sns ∧ n ∈ (sn_name <$> sns);
  ro_sysds : systemdataset_basename h = Ret w.(w_system_dataset);
  ro_iocage : ∃ children, iocage_children h = Ret children ∧
    ∀ d, d ∈ recorded_iocage_datasets w ↔ (d ∈ mjoin children ∧ PyStr.endswith d "/iocage" = true);
}.

Lemma pools_inv w (s s' : Service) :
  pools_upgraded_since_capture w s = (Ret false, s') →
  w.(w_pool_state) = [] ∨ ∃ current, pool_state s = (Ret current, s') ∧
    ∀ before, before ∈ w.(w_pool_state) → upgraded_since current before = false.
Proof.
  unfold pools_upgraded_since_capture. destruct (w_pool_state w) as [|p ps]; [by left|].
  intros (current & s1 & Hp & [= Hex <-])%M_bind_Ret. right. exists current. split; [done|].
  intros before Hb. by apply (existsb_false_forall (upgraded_since current) (p :: ps)).
Qed.

Lemma iocage_inv (s s' : Service) l :
  iocage_datasets s = (Ret l, s') → s' = s ∧ ∃ children, iocage_children s.(host) = Ret children ∧
    ∀ d, d ∈ l ↔ d ∈ mjoin children ∧ PyStr.endswith d "/iocage" = true.
Proof.
  unfold iocage_datasets. intros (cs & s1 & [Hq ->]%query_inv & [= <- <-])%M_bind_Ret. split; [done|].
  exists cs. split; [done|]. intros d. by rewrite list_elem_of_In, List.filter_In, <- list_elem_of_In.
Qed.

Lemma subsets_eq (a b : list string) :
  forallb (λ d, bool_decide (d ∈ b)) a && forallb (λ d, bool_decide (d ∈ a)) b = true →
  ∀ d, d ∈ b ↔ d ∈ a.
Proof.
  rewrite andb_true_iff, !forallb_forall. intros [H1 H2] d. rewrite (list_elem_of_In b), (list_elem_of_In a).
  split; intros Hd.
  - apply list_elem_of_In. apply H2 in Hd. by apply bool_decide_eq_true in Hd.
  - apply list_elem_of_In. apply H1 in Hd. by apply bool_decide_eq_true in Hd.
Qed.

(** A return that [available] offers can be made: the window is open and
    did not come from an ISO, its boot environment exists, is pinned and does not
    carry a FreeCORE release, no pool was upgraded since the capture, every
    recorded snapshot exists, the system dataset is the recorded one and the
    iocage datasets are exactly the recorded ones.  The records are not
    changed by asking. *)
Theorem available_sound (s s' : Service) :
  mount_neutral → available s = (Ret (mkAvail true None), s') →
  ∃ w, return_on_offer s.(host) w ∧ same_view s.(host) s'.(host).
Proof.
  intros Hmn Hav.
  assert (same_view s.(host) s'.(host)) as Hview.
  { pose proof (kept_available (same_view s.(host)) (Hmn s.(host)) s) as Hk. rewrite Hav in Hk. by apply Hk. }
  unfold available in Hav.
  apply M_bind_Ret in Hav as (ow & s1 & [-> (ws & Hws & ->)]%config_inv & Hav).
  destruct ws as [|w ws]; [done|]. simpl in Hav. exists w. split; [|done].
  destruct (w_closed_reason w) eqn:Hopen; [done|].
  destruct (String.eqb_spec (w_arrival_path w) "cd_upgrade") as [|Harr]; [done|].
  apply M_bind_Ret in Hav as (bs & s1 & [-> (bes & Hbes & ->)]%bootenv_inv & Hav).
  destruct (List.filter _ bes) as [|b bs] eqn:Hf; [done|].
  assert (b ∈ bes ∧ be_id b = w_origin_be w) as [Hb Hid].
  { assert (In b (b :: bs)) as Hin by (by left). rewrite <- Hf in Hin.
    apply List.filter_In in Hin as [Hin Heq%String.eqb_eq]. by rewrite list_elem_of_In. }
  apply M_bind_Ret in Hav as (release & s1 & Hrel & Hav).
  assert (same_view s.(host) s1.(host)) as Hv1.
  { pose proof (kept_origin_release (same_view s.(host)) (Hmn s.(host)) (be_realname b) s) as Hk.
    rewrite Hrel in Hk. by apply Hk. }
  destruct (is_freecore_release release) eqn:Hfc; [done|].
  destruct (be_keep b) eqn:Hkeep; [|done]. simpl in Hav.
  apply M_bind_Ret in Hav as (up & s2 & Hup & Hav). destruct up; [done|].
  assert (same_view s.(host) s2.(host)) as Hv2.
  { etrans; [exact Hv1|]. unfold pools_upgraded_since_capture in Hup.
    destruct (w_pool_state w); [by injection Hup as <-|].
    apply M_bind_Ret in Hup as (cur & s3 & Hps & [= _ <-]).
    pose proof (kept_pool_state (same_view s1.(host)) s1) as Hk. rewrite Hps in Hk. by apply Hk. }
  apply M_bind_Ret in Hav as (missing & s3 & Hmiss & Hav). destruct missing; [|done].
  apply missing_nil in Hmiss as (-> & Hne & Hsn).
  apply M_bind_Ret in Hav as (cur & s4 & [Hcur ->]%query_inv & Hav).
  destruct (String.eqb_spec cur (w_system_dataset w)) as [->|]; [|done]. simpl in Hav.
  apply M_bind_Ret in Hav as (ioc & s5 & [-> (cs & Hcs & Hioc)]%iocage_inv & Hav).
  destruct (_ && _) eqn:Hsub in Hav; [|done]. pose proof (subsets_eq _ _ Hsub) as Hset.
  destruct Hv2. split; [eauto|done|done| | | | |].
  - exists bes, b. split_and!; [done|done|done|done|]. exists s, s1, release. done.
  - destruct (pools_inv w s1 s2 Hup) as [|(current & Hps & Hall)]; [by left|]. right. eauto 10.
  - split; [done|]. intros n Hn. destruct (Hsn n Hn) as (sns & Hq & Hin). exists sns. by rewrite <- sv_snapshots0.
  - by rewrite <- sv_sysds0.
  - exists cs. rewrite <- sv_iocage0. split; [done|]. intros d. by rewrite Hset, Hioc.
Qed.

(** ** [cleanup] on an open window *)

(** [cleanup] never ends an open return to 13.3: on an open window whose
    boot environment does not carry a FreeCORE release it returns the window
    and leaves every record as it is, also when the release cannot be read. *)
Theorem cleanup_keeps_open_window (s : Service) w ws s1 :
  mount_neutral → datastore_query s.(host) = Ret (w :: ws) → w.(w_closed_reason) = None →
  points_at_freecore w s = (Ret false, s1) →
  cleanup s = (Ret (Some w), s1) ∧ same_view s.(host) s1.(host).
Proof.
  intros Hmn Hw Hopen Hp. split.
  - unfold cleanup, config, query, mbind, M_bind. rewrite Hw. simpl. rewrite Hopen, Hp. done.
  - pose proof (kept_points_at_freecore (same_view s.(host)) (Hmn s.(host)) w s) as Hk.
    rewrite Hp in Hk. by apply Hk.
Qed.
End available.

(** ** Tearing a window down *)

Section teardown.
Context {H : Type} `{Host H}.
Notation Service := (Service (H := H)).

(** The names of the snapshots that exist. *)
Definition existing (h : H) (ns : list string) : Prop :=
  ∃ sns, snapshot_query h = Ret sns ∧ ns = sn_name <$> sns.

(** The window of the table after an update. *)
Definition updated (id : Z) (snapshots : option (list string)) (reason : option string) (w : Window) : Window :=
  if Z.eqb w.(w_id) id then
    mkWindow w.(w_id) w.(w_origin_be) w.(w_arrival_path) w.(w_captured_at) w.(w_system_dataset)
      (default w.(w_snapshots) snapshots) w.(w_pool_state) reason
  else w.

(** What deleting a snapshot, setting the pin and updating the table do: a
    deleted snapshot is gone, none appears, and the table changes by updates
    only. *)
Record teardown_laws : Prop := {
  td_delete : ∀ n h ns, existing h ns → ∃ ns', existing (snapshot_delete n h).2 ns' ∧
    (∀ m, m ∈ ns' → m ∈ ns) ∧ ((snapshot_delete n h).1 = Ret tt → n ∉ ns');
  td_delete_table : ∀ n h, datastore_query (snapshot_delete n h).2 = datastore_query h;
  td_keep : ∀ be b h, snapshot_query (set_keep be b h).2 = snapshot_query h ∧
    datastore_query (set_keep be b h).2 = datastore_query h;
  td_update : ∀ id sns r h, snapshot_query (datastore_update id sns r h).2 = snapshot_query h ∧
    ((datastore_update id sns r h).1 = Ret tt →
     ∀ ws, datastore_query h = Ret ws →
     datastore_query (datastore_update id sns r h).2 = Ret (updated id sns r <$> ws));
}.

Lemma attempt_call {A} (op : M H exn A) (s : Service) :
  attempt (call op) s =
    (match (op s.(host)).1 with
     | Ret a => Ret (Some a)
     | Raise e => if is_exception e then Ret None else Raise e
     end, mkService (op s.(host)).2 s.(origin_releases) s.(progress)).
Proof.
  unfold attempt, try_except_if, try_except, call, mbind, M_bind.
  destruct (op (host s)) as [[a|e] h]; [done|]. simpl. by destruct (is_exception e).
Qed.

(** An attempt that is not cancelled. *)
Lemma attempt_call_Ret {A} (op : M H exn A) (s s' : Service) o :
  attempt (call op) s = (Ret o, s') →
  s' = mkService (op s.(host)).2 s.(origin_releases) s.(progress) ∧
  o = match (op s.(host)).1 with Ret a => Some a | Raise _ => None end.
Proof.
  rewrite attempt_call. destruct (op (host s)).1 as [a|e]; [by intros [= <- <-]|]. destruct (is_exception e); [by intros [= <- <-]|done].
Qed.

(** A recorded name that exists is found by the query for its suffix. *)
Lemma present_complete names (s s' : Service) present ns n :
  present_snapshots names s = (Ret present, s') → existing s.(host) ns →
  n ∈ names → is_Some (snap_suffix n) → n ∈ ns → n ∈ present.
Proof.
  unfold present_snapshots. intros (found & s1 & Hf & [= <- <-])%M_bind_Ret (sns & Hs & ->) Hn [x Hx] Hin.
  assert (x ∈ remove_dups (omap snap_suffix names)) as Hxin.
  { rewrite elem_of_remove_dups, list_elem_of_omap. eauto. }
  revert found Hf. induction (remove_dups (omap snap_suffix names)) as [|y ys IH]; intros found; cbn [mapM_M].
  { by apply elem_of_nil in Hxin. }
  intros (l & s2 & [-> (sns' & Hs' & ->)]%snapshots_named_inv & H2)%M_bind_Ret.
  apply M_bind_Ret in H2 as (ls & s3 & H3 & [= <- <-]). cbn [mjoin list_join]. rewrite elem_of_app.
  apply elem_of_cons in Hxin as [->|Hxin]; [left|right; by apply IH].
  rewrite Hs in Hs'. injection Hs' as <-.
  rewrite list_elem_of_In, List.filter_In, <- list_elem_of_In. split; [done|].
  unfold snap_suffix in Hx. apply fmap_Some in Hx as ([a b] & [-> _]%PyStr.split1_Some & ->). simpl.
  apply (PyStr.endswith_app a (String at_sign b)).
Qed.

Lemma destroy_loop (L : teardown_laws) present l (s s' : Service) rem ns :
  mapM_M (destroy_one present) l s = (Ret rem, s') → existing s.(host) ns →
  ∃ ns', existing s'.(host) ns' ∧ (∀ m, m ∈ ns' → m ∈ ns) ∧
    datastore_query s'.(host) = datastore_query s.(host) ∧
    (∀ n, n ∈ mjoin rem → n ∈ l) ∧
    (∀ n, n ∈ l → n ∈ ns' → n ∈ present → n ∈ mjoin rem).
Proof.
  revert s rem ns. induction l as [|n l IH]; intros s rem ns; cbn [mapM_M].
  { intros [= <- <-] Hns. exists ns. split_and!; try done; by intros ? ?%elem_of_nil. }
  intros (r1 & s1 & H1 & H2)%M_bind_Ret Hns. apply M_bind_Ret in H2 as (rs & s2 & H2 & [= <- <-]).
  assert (∃ ns1, existing s1.(host) ns1 ∧ (∀ m, m ∈ ns1 → m ∈ ns) ∧
    datastore_query s1.(host) = datastore_query s.(host) ∧ (∀ m, m ∈ r1 → m = n) ∧
    (n ∈ ns1 → n ∈ present → n ∈ r1)) as (ns1 & He1 & Hsub1 & Ht1 & Hr1 & Hn1).
  { unfold destroy_one in H1. case_bool_decide as Hp.
    - apply M_bind_Ret in H1 as (o & s3 & H3 & [= <- <-]). apply attempt_call_Ret in H3 as [-> ->].
      destruct (td_delete L n (host s) ns Hns) as (ns1 & He1 & Hsub1 & Hgone). simpl.
      exists ns1. split_and!; [done|done|apply (td_delete_table L)| |].
      + intros m. destruct (snapshot_delete n (host s)).1; [by intros ?%elem_of_nil|].
        by intros ?%list_elem_of_singleton.
      + intros Hin _. destruct ((snapshot_delete n (host s)).1) as [[]|]; [by destruct Hgone|by left].
    - injection H1 as <- <-. exists ns. split_and!; try done; by intros ? ?%elem_of_nil. }
  destruct (IH s1 rs ns1 H2 He1) as (ns' & He & Hsub & Ht & Hr & Hn). exists ns'. split_and!.
  - done.
  - auto.
  - by rewrite Ht.
  - intros m. cbn [mjoin list_join]. rewrite elem_of_app. intros [Hm|Hm]; [rewrite (Hr1 m Hm); left|right; auto].
  - intros m Hm Hex Hpr. cbn [mjoin list_join]. rewrite elem_of_app.
    apply elem_of_cons in Hm as [->|Hm]; [left; auto|right; auto].
Qed.

Lemma destroy_snapshots_spec (L : teardown_laws) names (s s' : Service) rem ns :
  destroy_snapshots names s = (Ret rem, s') → existing s.(host) ns →
  (∀ n, n ∈ names → is_Some (snap_suffix n)) →
  ∃ ns', existing s'.(host) ns' ∧ (∀ m, m ∈ ns' → m ∈ ns) ∧
    datastore_query s'.(host) = datastore_query s.(host) ∧
    (∀ n, n ∈ rem → n ∈ names) ∧ (∀ n, n ∈ names → n ∈ ns' → n ∈ rem).
Proof.
  unfold destroy_snapshots. destruct names as [|n0 names0].
  { intros [= <- <-] Hns _. exists ns. split_and!; try done; by intros ? ?%elem_of_nil. }
  set (names := n0 :: names0) in *.
  intros (present & s1 & Hp & H2)%M_bind_Ret Hns Hsfx.
  apply M_bind_Ret in H2 as (rs & s2 & H2 & [= <- <-]).
  destruct (present_inv _ _ _ _ Hp) as [-> _].
  destruct (destroy_loop L _ _ _ _ _ _ H2 Hns) as (ns' & He & Hsub & Ht & Hr & Hn).
  unfold sorted_str in *. exists ns'. split_and!; [done|done|done| |].
  - intros n Hin. by apply Hr, elem_of_sorted_by in Hin.
  - intros n Hin Hex. apply Hn; [by apply elem_of_sorted_by|done|].
    eapply present_complete; eauto.
Qed.

(** Tearing a window down forgets nothing: when [cleanup] returns on a
    closed window, every recorded snapshot that still exists is still recorded,
    nothing new is, and the reason of the closure is kept; a later pass will
    retry exactly what is left. *)
Theorem cleanup_forgets_nothing (s s' : Service) w ws ns r :
  teardown_laws → datastore_query s.(host) = Ret (w :: ws) → is_Some w.(w_closed_reason) →
  existing s.(host) ns → (∀ n, n ∈ w.(w_snapshots) → is_Some (snap_suffix n)) →
  cleanup s = (Ret r, s') →
  ∃ w' ns', r = Some w' ∧ w'.(w_id) = w.(w_id) ∧ w'.(w_closed_reason) = w.(w_closed_reason) ∧
    existing s'.(host) ns' ∧
    (∀ n, n ∈ w'.(w_snapshots) → n ∈ w.(w_snapshots)) ∧
    (∀ n, n ∈ w.(w_snapshots) → n ∈ ns' → n ∈ w'.(w_snapshots)).
Proof.
  intros L Hw [reason Hr] Hns Hsfx Hc. unfold cleanup in Hc.
  apply M_bind_Ret in Hc as (ow & s1 & [-> (ws0 & Hws & ->)]%config_inv & Hc).
  rewrite Hw in Hws. injection Hws as <-. simpl in Hc. rewrite Hr in Hc.
  unfold tear_down in Hc. apply M_bind_Ret in Hc as (origin & s1 & Ho & Hc).
  assert (s1 = s) as ->.
  { revert Ho. unfold attempt, try_except_if, try_except, bootenv_by_id, query, mbind, M_bind.
    destruct (bootenv_query (host s)) as [|e]; [by intros [= _ <-]|]. destruct (is_exception e); by intros [= _ <-]. }
  destruct (negb _ && _) eqn:Edone.
  { injection Hc as <- <-. exists w, ns. split_and!; eauto. }
  apply M_bind_Ret in Hc as ([] & s2 & Hk & Hc).
  assert (existing s2.(host) ns ∧ datastore_query s2.(host) = Ret (w :: ws)) as [Hns2 Hw2].
  { match type of Hk with (if ?b then _ else _) _ = _ => destruct b end.
    - apply M_bind_Ret in Hk as (o & s3 & H3 & [= <-]). apply attempt_call_Ret in H3 as [-> _]. simpl.
      destruct (td_keep L (w_origin_be w) false (host s)) as [Hq Ht].
      split; [|by rewrite Ht]. destruct Hns as (sns & Hs & ->). exists sns. by rewrite Hq.
    - injection Hk as <-. done. }
  apply M_bind_Ret in Hc as (rem & s3 & Hd & Hc).
  destruct (destroy_snapshots_spec L _ _ _ _ _ Hd Hns2 Hsfx) as (ns' & He & Hsub & Ht & Hrem & Hleft).
  apply M_bind_Ret in Hc as (u & s4 & Hu & Hc). unfold call in Hu.
  destruct (td_update L (w_id w) (Some rem) (w_closed_reason w) (host s3)) as [Hq Htab].
  destruct (datastore_update _ _ _ (host s3)) as [o h]. simpl in *. injection Hu as -> <-.
  apply config_inv in Hc as [-> (ws1 & Hws1 & ->)]. simpl in *.
  rewrite Ht, Hw2 in Htab. destruct u. specialize (Htab eq_refl _ eq_refl).
  rewrite Htab in Hws1. injection Hws1 as <-.
  eexists _, ns'. split; [done|]. unfold updated. rewrite Z.eqb_refl. simpl. split_and!; try done.
  destruct He as (sns & Hs & ->). exists sns. by rewrite Hq.
Qed.
End teardown.
