(* ===== verification/RollbackPlan.v ===== *)
(** * From capture to restore

    What [take_snapshots] records is what [execute] turns into a plan and what
    the shutdown script accepts: the two programs agree on the window. *)

From S2P Require Import Prelude PyValue Filter Restore RestoreFacts Rollback RollbackFacts.

(** ** Datasets as paths *)

Lemma under_spec root d : under root d = true ↔ d = root ∨ ∃ t, d = root +:+ String slash t.
Proof.
  unfold under. rewrite orb_true_iff, String.eqb_eq, PyStr.startswith_spec.
  split; (intros [->|[t ->]]; [by left|right]); exists t; by rewrite PyStr.app_assoc.
Qed.

Lemma under_refl d : under d d = true.
Proof. apply under_spec. by left. Qed.

Lemma under_trans a b c : under a b = true → under b c = true → under a c = true.
Proof.
  rewrite !under_spec. intros [->|[t ->]] [->|[u ->]]; eauto. right.
  exists (t +:+ String slash u). by rewrite PyStr.app_assoc, PyStr.app_cons.
Qed.

(** Two prefixes of one string are comparable. *)
Lemma app_eq_app a x b y : a +:+ x = b +:+ y →
  (∃ u, b = a +:+ u ∧ x = u +:+ y) ∨ (∃ u, a = b +:+ u ∧ y = u +:+ x).
Proof.
  revert b; induction a as [|c a IH]; intros b.
  - intros Hx. left. by exists b.
  - destruct b as [|c' b]; [intros Hx; right; by exists (String c a)|].
    rewrite !PyStr.app_cons. intros [= -> Hx].
    destruct (IH b Hx) as [(u & -> & ->)|(u & -> & ->)]; [left|right]; exists u; by rewrite PyStr.app_cons.
Qed.

Lemma under_comparable a b d :
  under a d = true → under b d = true → under a b = true ∨ under b a = true.
Proof.
  rewrite !under_spec. intros Ha Hb.
  assert (∃ x, d = a +:+ x ∧ (x = "" ∨ ∃ t, x = String slash t)) as (x & Hx & Hx').
  { destruct Ha as [->|[t ->]]; [exists ""; split; [by rewrite PyStr.app_nil_r|by left]|eauto]. }
  assert (∃ y, d = b +:+ y ∧ (y = "" ∨ ∃ t, y = String slash t)) as (y & Hy & Hy').
  { destruct Hb as [->|[t ->]]; [exists ""; split; [by rewrite PyStr.app_nil_r|by left]|eauto]. }
  rewrite Hx in Hy. destruct (app_eq_app _ _ _ _ Hy) as [(u & -> & ->)|(u & -> & ->)]; [left|right].
  - destruct u as [|c u]; [left; by rewrite PyStr.app_nil_r|right].
    rewrite PyStr.app_cons in Hx'. destruct Hx' as [|[t Ht]]; [done|]. injection Ht as -> _. eauto.
  - destruct u as [|c u]; [left; by rewrite PyStr.app_nil_r|right].
    rewrite PyStr.app_cons in Hy'. destruct Hy' as [|[t Ht]]; [done|]. injection Ht as -> _. eauto.
Qed.

Lemma under_antisym a b : under a b = true → under b a = true → a = b.
Proof.
  rewrite !under_spec. intros [->|[t ->]]; [done|]. intros [Hl|[u Hl]]; apply (f_equal String.length) in Hl;
    rewrite !PyStr.length_app in Hl; simpl in Hl; lia.
Qed.

(** A proper ancestor, as the code writes it. *)
Lemma proper_under other d :
  negb (String.eqb other d) && PyStr.startswith d (other +:+ "/") = true ↔ other ≠ d ∧ under other d = true.
Proof.
  rewrite andb_true_iff, negb_true_iff, String.eqb_neq. unfold under. rewrite orb_true_iff, String.eqb_eq.
  split; [tauto|]. intros [Hne [->|Hs]]; done.
Qed.

(** ** Snapshot names *)

Lemma split1_at d suffix : PyStr.count at_sign d = 0 →
  PyStr.split1 at_sign (d +:+ String at_sign suffix) = Some (d, suffix).
Proof. intros Hd. by apply PyStr.split1_Some. Qed.

Lemma split_snapshot_ok d suffix :
  d ≠ "" → suffix ≠ "" → PyStr.count at_sign d = 0 → PyStr.count at_sign suffix = 0 →
  split_snapshot (d +:+ String at_sign suffix) = Ret (d, suffix) ∧
  snapshot_dataset (d +:+ String at_sign suffix) = d ∧ snap_dataset (d +:+ String at_sign suffix) = d.
Proof.
  intros Hd Hs Hcd Hcs.
  assert (PyStr.count at_sign (d +:+ String at_sign suffix) = 1) as Hc.
  { rewrite PyStr.count_app, Hcd. cbn [PyStr.count]. by rewrite decide_True, Hcs. }
  pose proof (split1_at d suffix Hcd) as Hsp.
  unfold split_snapshot, snapshot_dataset, snap_dataset, PyStr.before.
  rewrite Hc, PyStr.rsplit1_split1, Hsp by done. simpl.
  rewrite (proj2 (String.eqb_neq _ _) Hd), (proj2 (String.eqb_neq _ _) Hs). done.
Qed.

(** ** Windows that a capture records *)

(** The roots of a capture: none is inside another. *)
Record roots_ok (sysds : string) (iocage : list string) : Prop := {
  rk_nodup : NoDup iocage;
  rk_sys : ∀ r, r ∈ iocage → under sysds r = false ∧ under r sysds = false;
  rk_disjoint : ∀ r r', r ∈ iocage → r' ∈ iocage → under r r' = true → r = r';
  rk_safe : Forall (λ s, safe s = true) (sysds :: iocage);
}.

(** The snapshots of one coordinated name under the roots. *)
Record window_ok (w : Window) (suffix : string) (iocage : list string) : Prop := {
  wo_roots : roots_ok w.(w_system_dataset) iocage;
  wo_name : PyStr.startswith suffix ROLLBACK_NAME = true ∧ PyStr.count at_sign suffix = 0;
  wo_nodup : NoDup w.(w_snapshots);
  wo_snapshot : ∀ n, n ∈ w.(w_snapshots) → safe n = true ∧ ∃ d, n = d +:+ String at_sign suffix ∧
    d ≠ "" ∧ PyStr.count at_sign d = 0 ∧ ∃ root, root ∈ w.(w_system_dataset) :: iocage ∧ under root d = true;
  wo_captured : ∀ root, root ∈ w.(w_system_dataset) :: iocage →
    PyStr.count at_sign root = 0 ∧ (root +:+ String at_sign suffix) ∈ w.(w_snapshots);
}.

Section window.
Context (w : Window) (suffix : string) (iocage : list string) (W : window_ok w suffix iocage).

Lemma wo_split n : n ∈ w.(w_snapshots) → ∃ d, PyStr.split1 at_sign n = Some (d, suffix) ∧
  split_snapshot n = Ret (d, suffix) ∧ snapshot_dataset n = d ∧ snap_dataset n = d ∧
  ∃ root, root ∈ w.(w_system_dataset) :: iocage ∧ under root d = true.
Proof using W.
  intros Hn. destruct W. destruct (wo_snapshot0 n Hn) as (_ & d & -> & Hd & Hc & root & Hr & Hu).
  destruct wo_name0 as [Hsx Hcs]. assert (suffix ≠ "") as Hne by (by intros ->).
  exists d. destruct (split_snapshot_ok d suffix Hd Hne Hc Hcs) as (H1 & H2 & H3).
  split_and!; [by apply split1_at|done|done|done|eauto].
Qed.

(** The datasets recorded outside the system dataset. *)
Lemma elem_of_recorded d :
  d ∈ remove_dups (omap (λ name,
    match PyStr.split1 at_sign name with
    | Some (dataset, _) => if under w.(w_system_dataset) dataset then None else Some dataset
    | None => None
    end) w.(w_snapshots)) ↔
  under w.(w_system_dataset) d = false ∧ ∃ n, n ∈ w.(w_snapshots) ∧ snap_dataset n = d.
Proof using W.
  rewrite elem_of_remove_dups, list_elem_of_omap. split.
  - intros (n & Hn & Hd). destruct (wo_split n Hn) as (d' & Hs & _ & _ & Hsd & _). rewrite Hs in Hd.
    destruct (under _ d') eqn:E; [done|]. injection Hd as <-. split; [done|]. exists n. done.
  - intros (Hu & n & Hn & <-). exists n. split; [done|].
    destruct (wo_split n Hn) as (d' & Hs & _ & _ & Hsd & _). rewrite Hs, <- Hsd. by rewrite Hu.
Qed.

(** A recorded dataset outside the system dataset is under an iocage root. *)
Lemma recorded_root d n :
  under w.(w_system_dataset) d = false → n ∈ w.(w_snapshots) → snap_dataset n = d →
  ∃ r, r ∈ iocage ∧ under r d = true.
Proof using W.
  intros Hu Hn <-. destruct (wo_split n Hn) as (d' & _ & _ & _ & Hsd & root & Hr & Hur).
  rewrite Hsd in *. apply elem_of_cons in Hr as [->|Hr]; [congruence|eauto].
Qed.

(** [recorded_iocage_datasets] recovers the captured iocage roots. *)
Lemma recorded_iocage_spec d : d ∈ recorded_iocage_datasets w ↔ d ∈ iocage.
Proof using W.
  unfold recorded_iocage_datasets, sorted_str. rewrite elem_of_sorted_by, list_elem_of_In, List.filter_In,
    <- list_elem_of_In, elem_of_recorded, negb_true_iff.
  pose proof W as []. pose proof wo_roots0 as [].
  assert (∀ r, r ∈ iocage → under w.(w_system_dataset) r = false ∧
    ∃ n, n ∈ w.(w_snapshots) ∧ snap_dataset n = r) as Hroot.
  { intros r Hr. split; [by apply rk_sys0|]. destruct (wo_captured0 r) as [Hc Hin]; [by right|].
    exists (r +:+ String at_sign suffix). split; [done|]. unfold snap_dataset, PyStr.before. by rewrite split1_at. }
  split.
  - intros [[Hu (n & Hn & Hd)] Htop]. destruct (recorded_root d n Hu Hn Hd) as (r & Hr & Hur).
    destruct (decide (r = d)) as [->|Hne]; [done|].
    assert (negb (String.eqb r d) && PyStr.startswith d (r +:+ "/") = false) as Hf.
    { apply (existsb_false_forall _ _ Htop r). apply elem_of_recorded. auto. }
    by rewrite (proj2 (proper_under r d)) in Hf.
  - intros Hd. split; [by apply Hroot|]. apply not_true_iff_false. intros Hex.
    apply List.existsb_exists in Hex as (o & Ho%list_elem_of_In & Hp%proper_under).
    apply elem_of_recorded in Ho as (Huo & n & Hn & Hsn). destruct Hp as [Hne Hod].
    destruct (recorded_root o n Huo Hn Hsn) as (r & Hr & Hur).
    assert (r = d) as -> by (apply rk_disjoint0; eauto using under_trans).
    destruct Hne. by apply under_antisym.
Qed.

Lemma recorded_iocage_nodup : NoDup (recorded_iocage_datasets w).
Proof.
  unfold recorded_iocage_datasets, sorted_str. rewrite sorted_by_perm.
  apply NoDup_ListNoDup, List.NoDup_filter, NoDup_ListNoDup, NoDup_remove_dups.
Qed.
End window.

Lemma staged_plan_ok w suffix iocage bp origin :
  window_ok w suffix iocage → (1 ≤ w.(w_id))%Z →
  safe w.(w_origin_be) = true → safe origin.(be_realname) = true →
  safe (bp +:+ "/ROOT/" +:+ origin.(be_realname)) = true →
  plan_ok (plan_of bp w origin).
Proof.
  intros W Hid Hs1 Hs2 Hs3. pose proof W as []. pose proof wo_roots0 as [].
  assert (∀ n, n ∈ sorted_deepest (λ name, PyStr.count slash (snap_dataset name)) w.(w_snapshots) ↔
    n ∈ w.(w_snapshots)) as Hsort by (intros n; unfold sorted_deepest; apply elem_of_sorted_by).
  assert (∀ r, r ∈ w.(w_system_dataset) :: recorded_iocage_datasets w ↔ r ∈ w.(w_system_dataset) :: iocage) as Hroots.
  { intros r. rewrite !elem_of_cons. by rewrite (recorded_iocage_spec w suffix iocage W). }
  assert (∃ n, n ∈ w.(w_snapshots)) as [n0 Hn0].
  { eexists. apply (wo_captured0 w.(w_system_dataset)). by left. }
  split; simpl.
  - done.
  - do 3 (constructor; [done|]). apply (Forall_app_2 _ (_ :: _)).
    + apply Forall_forall. intros r Hr%Hroots. rewrite Forall_forall in rk_safe0. auto.
    + apply Forall_forall. intros n Hn%Hsort. by apply wo_snapshot0.
  - split; [done|]. constructor; [|apply recorded_iocage_nodup].
    intros Hin%(recorded_iocage_spec w suffix iocage W). destruct (rk_sys0 _ Hin) as [Hu _].
    by rewrite under_refl in Hu.
  - split.
    + intros Hnil. apply Hsort in Hn0. rewrite Hnil in Hn0. by apply elem_of_nil in Hn0.
    + unfold sorted_deepest. by rewrite sorted_by_perm.
  - exists suffix. split; [tauto|]. intros n Hn%Hsort.
    destruct (wo_split w suffix iocage W n Hn) as (d & _ & Hsp & Hsd & _). by rewrite Hsp, Hsd.
  - intros root Hr%Hroots. destruct (wo_captured0 root Hr) as [_ Hin].
    exists (root +:+ String at_sign suffix). split; [by apply Hsort|].
    destruct (wo_split w suffix iocage W _ Hin) as (d & Hs & _ & Hsd & _). rewrite Hsd.
    rewrite split1_at in Hs by (by apply wo_captured0). by injection Hs as ->.
  - intros n Hn%Hsort. destruct (wo_split w suffix iocage W n Hn) as (d & _ & _ & Hsd & _ & root & Hr & Hu).
    exists root. rewrite Hsd. split; [by apply Hroots|done].
Qed.

(** ** The name of a capture *)

Lemma count_digits w z : PyStr.count at_sign (Clock.digits w z) = 0.
Proof.
  revert z; induction w as [|w IH]; intros z; cbn [Clock.digits]; [done|].
  rewrite PyStr.count_app, IH. cbn [PyStr.count]. rewrite decide_False; [done|].
  intros Heq. apply (f_equal Ascii.nat_of_ascii) in Heq.
  pose proof (Z.mod_pos_bound z 10). rewrite Ascii.nat_ascii_embedding in Heq; [|lia].
  change (Ascii.nat_of_ascii at_sign) with 64 in Heq. lia.
Qed.

Definition capture_name (captured_at : Z) : string := SNAPSHOT_PREFIX +:+ "-" +:+ Clock.strftime captured_at.

Lemma capture_name_ok t :
  PyStr.startswith (capture_name t) ROLLBACK_NAME = true ∧ PyStr.count at_sign (capture_name t) = 0.
Proof.
  split; [apply (PyStr.startswith_app ROLLBACK_NAME (Clock.strftime t))|]. unfold capture_name.
  rewrite !PyStr.count_app. unfold Clock.strftime. destruct (Clock.civil _) as [[y m] d].
  by rewrite !PyStr.count_app, !count_digits.
Qed.

(** ** [take_snapshots] *)

Section take.
Context {H : Type} `{Host H}.
Notation Service := (Service (H := H)).

(** The names of snapshots: a dataset and a name, [@] between them only. *)
Definition snapshot_name_ok (n : string) : Prop :=
  safe n = true ∧ ∃ d x, n = d +:+ String at_sign x ∧ d ≠ "" ∧ PyStr.count at_sign d = 0 ∧ PyStr.count at_sign x = 0.

(** What ZFS does about snapshots: listing them works, their names are well
    formed and unique, and creating one makes it exist and removes none. *)
Record zfs_laws : Prop := {
  zl_query : ∀ h : H, ∃ ns, existing h ns ∧ NoDup ns ∧ ∀ n, n ∈ ns → snapshot_name_ok n;
  zl_create : ∀ r n (h h' : H) ns ns', snapshot_create r n h = (Ret tt, h') → existing h ns → existing h' ns' →
    (r +:+ String at_sign n) ∈ ns' ∧ ∀ m, m ∈ ns → m ∈ ns';
}.

Definition exists_snapshot (h : H) (n : string) : Prop := ∃ ns, existing h ns ∧ n ∈ ns.

Lemma existing_inj (h : H) ns ns' : existing h ns → existing h ns' → ns = ns'.
Proof. intros (? & H1 & ->) (? & H2 & ->). congruence. Qed.

Lemma create_snapshots_spec (L : zfs_laws) name created rs (s s' : Service) created' :
  create_snapshots name created rs s = (Ret (created', None), s') →
  (∀ r, r ∈ created → exists_snapshot s.(host) (r +:+ String at_sign name)) →
  created' = created ++ rs ∧ ∀ r, r ∈ created ++ rs → exists_snapshot s'.(host) (r +:+ String at_sign name).
Proof.
  revert created s. induction rs as [|r rs IH]; intros created s; cbn [create_snapshots].
  { intros [= <- <-] Hc. by rewrite app_nil_r. }
  unfold call. destruct (snapshot_create r name (host s)) as [[[]|e] h] eqn:E; [|done].
  intros Hrest Hc. destruct (zl_query L (host s)) as (ns & Hns & _). destruct (zl_query L h) as (ns' & Hns' & _).
  destruct (zl_create L _ _ _ _ _ _ E Hns Hns') as [Hnew Hold].
  destruct (IH _ _ Hrest) as [-> Hex]; [|by rewrite <- (assoc_L (++)) in *].
  intros r' Hr'. exists ns'. split; [done|]. apply elem_of_app in Hr' as [Hr'|Hr'%list_elem_of_singleton].
  - destruct (Hc r' Hr') as (ns0 & Hns0 & Hin). rewrite (existing_inj _ _ _ Hns Hns0) in Hold. auto.
  - by subst.
Qed.

Lemma take_snapshots_window (L : zfs_laws) sysds iocage t (s s' : Service) snaps w :
  roots_ok sysds iocage → (∀ r, r ∈ sysds :: iocage → PyStr.count at_sign r = 0) →
  take_snapshots (sysds :: iocage) (capture_name t) s = (Ret snaps, s') →
  w.(w_system_dataset) = sysds → w.(w_snapshots) = snaps →
  window_ok w (capture_name t) iocage.
Proof.
  intros Hroots Hat Ht Hsys Hsn. unfold take_snapshots in Ht.
  apply M_bind_Ret in Ht as ([created [e|]] & s1 & Hc & Ht).
  { destruct (is_exception e); [|done]. apply M_bind_Ret in Ht as (? & ? & _ & Ht). by apply M_bind_Ret in Ht as (? & ? & _ & ?). }
  destruct (create_snapshots_spec L _ _ _ _ _ _ Hc) as [-> Hex]; [by intros r ?%elem_of_nil|].
  simpl in Ht, Hex. apply M_bind_Ret in Ht as (names & s2 & [-> (sns & Hq & ->)]%snapshots_named_inv & [= Hsnaps <-]).
  destruct (zl_query L (host s1)) as (ns & Hns & Hnd & Hwf).
  pose proof Hns as (sns' & Hq' & ->). rewrite Hq in Hq'. injection Hq' as <-.
  set (name := capture_name t) in *. pose proof (capture_name_ok t) as Hname. fold name in Hname.
  assert (∀ n, n ∈ snaps ↔ n ∈ (sn_name <$> sns) ∧ PyStr.endswith n ("@" +:+ name) = true ∧
    existsb (λ root, under root (snap_dataset n)) (sysds :: iocage) = true) as Hin.
  { intros n. rewrite <- Hsnaps. unfold sorted_str.
    rewrite elem_of_sorted_by, list_elem_of_In, !List.filter_In, <- list_elem_of_In. tauto. }
  split.
  - by rewrite Hsys.
  - done.
  - rewrite Hsn, <- Hsnaps. unfold sorted_str. rewrite sorted_by_perm.
    by do 2 apply NoDup_ListNoDup, List.NoDup_filter, NoDup_ListNoDup.
  - intros n. rewrite Hsn, Hsys. intros (Hn & Hend & Hu)%Hin.
    destruct (Hwf n Hn) as [Hsafe (d & x & -> & Hd & Hcd & Hcx)]. split; [done|]. exists d.
    apply PyStr.endswith_spec in Hend as [a Ha].
    assert (PyStr.split1 at_sign (d +:+ String at_sign x) = Some (d, x)) as Hs by (by apply split1_at).
    assert (d = a ∧ x = name) as [-> ->].
    { assert (PyStr.count at_sign a = 0) as Hca.
      { assert (PyStr.count at_sign (d +:+ String at_sign x) = 1) as H1.
        { rewrite PyStr.count_app, Hcd. cbn [PyStr.count]. by rewrite decide_True, Hcx. }
        rewrite Ha, PyStr.count_app in H1. change ("@" +:+ name) with (String at_sign name) in H1.
        cbn [PyStr.count] in H1. rewrite decide_True in H1 by done. lia. }
      change ("@" +:+ name) with (String at_sign name) in Ha. rewrite Ha, split1_at in Hs by done.
      by injection Hs. }
    split_and!; [done|done|done|]. unfold snap_dataset, PyStr.before in Hu. rewrite Hs in Hu.
    by apply under_exists in Hu.
  - intros root. rewrite Hsys, Hsn. intros Hr. split; [by apply Hat|]. apply Hin.
    destruct (Hex root Hr) as (ns & Hns2 & Hr'). rewrite (existing_inj _ _ _ Hns2 Hns) in Hr'.
    split_and!; [done|apply PyStr.endswith_app|].
    unfold snap_dataset, PyStr.before. rewrite split1_at by (by apply Hat).
    apply under_exists. exists root. split; [done|apply under_refl].
Qed.

(** C29. The plan that [execute] stages for a captured window is accepted by the
    shutdown script: from the snapshots [take_snapshots] recorded, whatever else
    exists on the pools, the roots are recovered exactly, and [validate_plan]
    reads the plan back as it was written. *)
Theorem captured_plan_valid sysds iocage t (s s' : Service) snaps w bp origin :
  zfs_laws → roots_ok sysds iocage → (∀ r, r ∈ sysds :: iocage → PyStr.count at_sign r = 0) →
  take_snapshots (sysds :: iocage) (capture_name t) s = (Ret snaps, s') →
  w.(w_system_dataset) = sysds → w.(w_snapshots) = snaps → (1 ≤ w.(w_id))%Z →
  Forall (λ x, safe x = true)
    [w.(w_origin_be); origin.(be_realname); bp +:+ "/ROOT/" +:+ origin.(be_realname)] →
  validate_plan (plan_json (plan_of bp w origin)) = Ret (plan_of bp w origin) ∧
  ∀ r, r ∈ (plan_of bp w origin).(roots) ↔ r ∈ sysds :: iocage.
Proof.
  intros L Hroots Hat Ht Hsys Hsn Hid Hsafe.
  pose proof (take_snapshots_window L sysds iocage t s s' snaps w Hroots Hat Ht Hsys Hsn) as W.
  rewrite !Forall_cons in Hsafe. destruct Hsafe as (Hs1 & Hs2 & Hs3 & _). split.
  - apply validate_plan_ok. by eapply staged_plan_ok.
  - intros r. simpl. rewrite !elem_of_cons, Hsys. by rewrite (recorded_iocage_spec w _ _ W).
Qed.
End take.
