(* ===== verification/RollbackTheorems.v ===== *)
(** * Failure paths of the rollback window, and a host on which the laws hold *)

From S2P Require Import Prelude PyValue Filter Restore RestoreFacts Rollback RollbackFacts RollbackPlan.

(** ** A failed capture leaves nothing behind *)

Section record.
Context {H : Type} `{Host H}.
Notation Service := (Service (H := H)).

(** Deleting a snapshot works, and a failed insert changes nothing. *)
Record undo_laws : Prop := {
  ul_teardown : teardown_laws (H := H);
  ul_query : ∀ h : H, ∃ ns, existing h ns;
  ul_delete : ∀ n (h : H), (snapshot_delete n h).1 = Ret tt;
  ul_insert : ∀ w (h : H), snapshot_query (datastore_insert w h).2 = snapshot_query h ∧
    ((datastore_insert w h).1 ≠ Ret tt → datastore_query (datastore_insert w h).2 = datastore_query h);
}.

Lemma present_returns (L : undo_laws) names (s : Service) :
  ∃ present, present_snapshots names s = (Ret present, s).
Proof.
  assert (∀ l, ∃ found, mapM_M snapshots_named l s = (Ret found, s)) as Hm.
  { assert (∀ n, ∃ l, snapshots_named n s = (Ret l, s)) as Hn.
    { intros n. destruct (ul_query L (host s)) as (ns & sns & Hs & _).
      unfold snapshots_named, query, mbind, M_bind. rewrite Hs. by eexists. }
    induction l as [|n l [found IH]]; cbn [mapM_M]; [by eexists|].
    destruct (Hn n) as [l0 Hl0]. unfold mbind, M_bind. rewrite Hl0, IH. by eexists. }
  unfold present_snapshots, mbind, M_bind. destruct (Hm (remove_dups (omap snap_suffix names))) as [found ->].
  by eexists.
Qed.

Lemma destroy_loop_returns (L : undo_laws) present l (s : Service) :
  ∃ rem s', mapM_M (destroy_one present) l s = (Ret rem, s') ∧ mjoin rem = [].
Proof.
  revert s; induction l as [|n l IH]; intros s; cbn [mapM_M]; [by eexists [], s|].
  assert (∃ s1, destroy_one present n s = (Ret [], s1)) as [s1 H1].
  { unfold destroy_one. case_bool_decide; [|by eexists].
    unfold mbind, M_bind. rewrite attempt_call, (ul_delete L). by eexists. }
  destruct (IH s1) as (rem & s2 & H2 & Hrem). exists ([] :: rem), s2.
  unfold mbind, M_bind. rewrite H1, H2. done.
Qed.

Lemma destroy_snapshots_returns (L : undo_laws) names (s : Service) :
  ∃ s', destroy_snapshots names s = (Ret [], s').
Proof.
  unfold destroy_snapshots. destruct names as [|n ns]; [by eexists|].
  destruct (present_returns L (n :: ns) s) as [present Hp].
  destruct (destroy_loop_returns L present (sorted_str (n :: ns)) s) as (rem & s' & Hl & Hrem).
  exists s'. unfold mbind, M_bind. rewrite Hp, Hl. by rewrite <- Hrem.
Qed.

(** A capture is all or nothing: when pinning the boot environment or
    recording the window fails (and is not cancelled), none of the snapshots taken for it exists any
    more and the table is as it was, so a retry starts afresh. *)
Theorem record_window_all_or_nothing (s s' : Service) w e :
  undo_laws → (∀ n, n ∈ w.(w_snapshots) → is_Some (snap_suffix n)) → is_exception e = true →
  record_window w s = (Raise e, s') →
  datastore_query s'.(host) = datastore_query s.(host) ∧
  ∃ ns, existing s'.(host) ns ∧ ∀ n, n ∈ w.(w_snapshots) → n ∉ ns.
Proof.
  intros L Hsfx Hex Hr. pose proof (ul_teardown L) as T.
  assert (∃ s1 e1, datastore_query s1.(host) = datastore_query s.(host) ∧
    (destroy_snapshots w.(w_snapshots) ;; attempt (call (set_keep w.(w_origin_be) false)) ;; (raise e1 : M Service exn unit)) s1
    = (Raise e, s')) as (s1 & e1 & Ht1 & Hr1).
  { unfold record_window, try_except_if, try_except in Hr. unfold mbind at 1, M_bind at 1 in Hr. unfold call in Hr.
    destruct (td_keep T (w_origin_be w) true (host s)) as [_ Hk].
    destruct (set_keep (w_origin_be w) true (host s)) as [[[]|e1] h1]; simpl in *.
    - destruct (ul_insert L w h1) as [_ Hins].
      destruct (datastore_insert w h1) as [[[]|e1] h2]; simpl in *; [done|].
      destruct (is_exception e1) eqn:He1; [|injection Hr as <- _; congruence].
      eexists _, e1. split; [|exact Hr]. simpl. by rewrite Hins, Hk.
    - destruct (is_exception e1) eqn:He1; [|injection Hr as <- _; congruence].
      eexists _, e1. split; [|exact Hr]. done. }
  destruct (destroy_snapshots_returns L w.(w_snapshots) s1) as [s2 H2].
  destruct (ul_query L (host s1)) as [ns1 Hns1].
  destruct (destroy_snapshots_spec T _ _ _ _ _ H2 Hns1 Hsfx) as (ns' & He & _ & Ht & _ & Hleft).
  assert (s' = mkService (set_keep (w_origin_be w) false s2.(host)).2 s2.(origin_releases) s2.(progress)) as ->.
  { unfold mbind, M_bind in Hr1. rewrite H2, attempt_call in Hr1. simpl in Hr1.
    destruct (set_keep _ _ (host s2)).1 as [[]|e2]; [by injection Hr1|]. destruct (is_exception e2); by injection Hr1. }
  simpl.
  destruct (td_keep T (w_origin_be w) false (host s2)) as [Hq Hk]. split; [by rewrite Hk, Ht|].
  exists ns'. split; [|intros n Hn Hin; by apply (elem_of_nil n), (Hleft n)].
  destruct He as (sns & Hs & ->). exists sns. by rewrite Hq.
Qed.
End record.

(** ** A failed [execute] stages nothing *)

Section execute.
Context {H : Type} `{Host H} (exn_text : exn → string).
Notation Service := (Service (H := H)).

Definition no_plan (h : H) : Prop := path_exists RESTORE_PLAN_PATH h = false.

(** Stopping workloads, mounting and [sysctl] do not create the plan file; after
    deleting it, or finding that it is not there, it is not there. *)
Record staging_laws : Prop := {
  sg_mount : mount_preserves no_plan;
  sg_vm : ∀ i, preserves no_plan (vm_stop i);
  sg_jail : preserves no_plan jail_stop_on_shutdown;
  sg_sysctl : ∀ k z, preserves no_plan (sysctl_set k z);
  sg_unlink : ∀ h o h', unlink RESTORE_PLAN_PATH h = (o, h') → o = Ret tt ∨ o = Raise FileNotFoundError → no_plan h';
}.

(** The two ways a plan can stay behind: deleting it failed with [e], or the job was
    cancelled while it staged the plan or called for the reboot. *)
Definition delete_failed (e : exn) (s' : Service) : Prop :=
  e ≠ FileNotFoundError ∧ ∃ h, unlink RESTORE_PLAN_PATH h = (Raise e, s'.(host)).
Definition cancelled_staging (e : exn) (s' : Service) : Prop :=
  e = CancelledError ∧ ∃ plan s1, (stage_restore_plan plan ;; call reboot) s1 = (Raise CancelledError, s').

Notation kept m := (keeps (λ s : Service, no_plan s.(host)) m).

Lemma kept_set_progress z d : kept (set_progress z d).
Proof. by intros s Hs. Qed.

Lemma kept_quiesce : staging_laws → kept quiesce_workloads.
Proof.
  intros []. unfold quiesce_workloads, ensure_no_active_workload_jobs, stop_vm.
  pose proof kept_set_progress. pose proof (@kept_query H no_plan). pose proof (@kept_call H no_plan).
  keeps_tac.
Qed.

Lemma kept_reserve : staging_laws → kept (reserve_shutdown_timeout exn_text).
Proof.
  intros []. unfold reserve_shutdown_timeout.
  pose proof (@kept_query H no_plan). pose proof (@kept_call H no_plan). keeps_tac.
Qed.

Lemma kept_restore_timeout p : staging_laws → kept (restore_shutdown_timeout p).
Proof.
  intros []. unfold restore_shutdown_timeout. pose proof (@kept_call H no_plan).
  pose proof (@kept_attempt H no_plan). keeps_tac.
Qed.

Lemma unlink_plan_outcome (s s' : Service) o :
  staging_laws → unlink_if_exists RESTORE_PLAN_PATH s = (o, s') →
  (o = Ret tt ∧ no_plan s'.(host)) ∨ ∃ e, o = Raise e ∧ delete_failed e s'.
Proof.
  intros L. unfold unlink_if_exists, try_except, call. pose proof (sg_unlink L (host s)) as Hu.
  destruct (unlink RESTORE_PLAN_PATH (host s)) as [[[]|e] h] eqn:E; simpl.
  - intros [= <- <-]. left. split; [done|]. by eapply Hu; [|left].
  - destruct (decide (e = FileNotFoundError)) as [->|He].
    + intros [= <- <-]. left. split; [done|]. by eapply Hu; [|right].
    + intros Ho. right. exists e. assert (o = Raise e ∧ s' = mkService h (origin_releases s) (progress s)) as [-> ->].
      { destruct e; try done; by injection Ho as <- <-. }
      split; [done|]. split; [done|]. by exists (host s).
Qed.

Lemma stage_fails plan prev (s s' : Service) e :
  staging_laws → stage_and_reboot plan prev s = (Raise e, s') →
  no_plan s'.(host) ∨ delete_failed e s' ∨ cancelled_staging e s'.
Proof.
  intros L. unfold stage_and_reboot, try_except_if, try_except.
  destruct ((stage_restore_plan plan ;; call reboot) s) as [[[]|e0] s0] eqn:E; [done|].
  destruct (is_exception e0) eqn:He0.
  - unfold mbind, M_bind. destruct (unlink_if_exists RESTORE_PLAN_PATH s0) as [o s1] eqn:Eu.
    destruct (unlink_plan_outcome _ _ _ L Eu) as [[-> H1]|(e1 & -> & Hd)].
    + pose proof (kept_restore_timeout prev L s1 H1) as H2. intros Hx. left.
      destruct (restore_shutdown_timeout prev s1) as [[[]|e2] s2]; simpl in *; by injection Hx as _ <-.
    + intros [= <- <-]. by right; left.
  - intros [= <- <-]. right; right. destruct e0; try done. split; [done|]. by exists plan, s.
Qed.

(** A job that is aborted while it waits for the answer to the reboot leaves the plan
    as it was staged. *)
Lemma cancelled_reboot_keeps_plan plan prev (s s1 : Service) h :
  stage_restore_plan plan s = (Ret tt, s1) → reboot s1.(host) = (Raise CancelledError, h) →
  stage_and_reboot plan prev s = (Raise CancelledError, mkService h s1.(origin_releases) s1.(progress)).
Proof. intros Hs Hr. unfold stage_and_reboot, try_except_if, try_except, mbind, M_bind, call. by rewrite Hs, Hr. Qed.

(** A computation that keeps [no_plan], followed by one that, when it raises, leaves
    [no_plan] or a state that is excused. *)
Lemma bind_no_plan {A B} (X : exn → Service → Prop) (m : M Service exn A) (k : A → M Service exn B) (s s' : Service) e :
  kept m → no_plan s.(host) →
  (∀ a s1, no_plan s1.(host) → k a s1 = (Raise e, s') → no_plan s'.(host) ∨ X e s') →
  (m ≫= k) s = (Raise e, s') → no_plan s'.(host) ∨ X e s'.
Proof.
  intros Hm Hs Hk. unfold mbind, M_bind. specialize (Hm s Hs).
  destruct (m s) as [[a|e0] s1]; [by apply Hk|]. intros [= _ <-]. by left.
Qed.

(** C30. [execute] fails closed: when it raises (a state file of an earlier attempt, an
    unavailable return, a workload that does not stop, an abort before the plan is
    staged, the staging or the reboot itself), either it changed nothing, or no restore
    plan is left for the shutdown hook; but for two cases: deleting the plan itself
    failed, with an error other than that it is not there, which is then what is raised,
    and the job was cancelled while it staged the plan or waited for the answer to the
    reboot, which [except Exception] does not catch. *)
Theorem execute_fails_closed (s s' : Service) e :
  staging_laws → execute exn_text s = (Raise e, s') →
  s' = s ∨ no_plan s'.(host) ∨ delete_failed e s' ∨ cancelled_staging e s'.
Proof.
  intros L. pose proof (sg_mount L) as Hm.
  unfold execute. unfold mbind at 1, M_bind at 1, get_state. cbn [List.find].
  destruct (path_exists RESTORE_PLAN_PATH (host s)) eqn:Hp; [intros [= _ <-]; by left|].
  destruct (path_exists RESTORE_RUNNING_PATH (host s)); [intros [= _ <-]; by left|].
  destruct (path_exists RESTORE_FAILED_PATH (host s)); [intros [= _ <-]; by left|].
  intros Hx. right. revert Hx. set (X e s' := delete_failed e s' ∨ cancelled_staging e s').
  apply (bind_no_plan X); [by apply kept_available|done|].
  intros av s1 H1. destruct (available_ av); [|intros [= _ <-]; by left]. simpl.
  apply (bind_no_plan X); [apply kept_config|done|]. intros [w|] s2 H2; [|intros [= _ <-]; by left].
  apply (bind_no_plan X); [apply kept_bootenv_by_id|done|]. intros [|b bs] s3 H3; [intros [= _ <-]; by left|].
  apply (bind_no_plan X); [apply kept_query|done|]. intros bp s4 H4.
  apply (bind_no_plan X); [apply kept_set_progress|done|]. intros [] s5 H5.
  apply (bind_no_plan X); [by apply kept_quiesce|done|]. intros [] s6 H6.
  apply (bind_no_plan X); [apply kept_set_progress|done|]. intros [] s7 H7.
  apply (bind_no_plan X); [by apply kept_reserve|done|]. intros prev s8 H8.
  unfold mbind at 1, M_bind at 1. intros Hst.
  destruct (stage_and_reboot _ prev s8) as [[[]|e0] s9] eqn:E; [done|].
  injection Hst as -> <-. by eapply stage_fails.
Qed.
End execute.
