(* ===== verification/RollbackDemo.v ===== *)
(** * A host for the rollback window

    A small concrete host (one data pool, a 13.3 and a FreeCORE boot
    environment) on which the laws hold: the hypotheses of the theorems can be
    met, and the operations can be run. *)

From S2P Require Import Prelude PyValue Filter Restore RestoreFacts Rollback RollbackFacts RollbackPlan RollbackTheorems.

Record Demo : Type := mkDemo {
  d_windows : list Window;
  d_keep : bool;
  d_snaps : list string;
  d_files : list (string * string);
  d_timeout : Z;
  d_insert_fails : bool;
}.

Definition d_bes (d : Demo) : list BootEnv :=
  [mkBE "13.3" "13.3-U1.2" false d.(d_keep) (Some 1000%Z); mkBE "15.0" "15.0-RC1" true false None].

Definition d_upd (f : Demo → Demo) : M Demo exn unit := modify f.

Definition d_file (f : list (string * string) → list (string * string)) (d : Demo) : Demo :=
  mkDemo d.(d_windows) d.(d_keep) d.(d_snaps) (f d.(d_files)) d.(d_timeout) d.(d_insert_fails).

Definition with_id (i : Z) (w : Window) : Window :=
  mkWindow i w.(w_origin_be) w.(w_arrival_path) w.(w_captured_at) w.(w_system_dataset) w.(w_snapshots)
    w.(w_pool_state) w.(w_closed_reason).

Definition d_insert (w : Window) : M Demo exn unit := λ d,
  if d.(d_insert_fails) then (Raise (OtherError "database is locked"), d)
  else (Ret tt, mkDemo (d.(d_windows) ++ [with_id (1 + Z.of_nat (length d.(d_windows))) w])
                  d.(d_keep) d.(d_snaps) d.(d_files) d.(d_timeout) false).

Definition d_unlink (p : string) : M Demo exn unit := λ d,
  if dhas d.(d_files) p
  then (Ret tt, d_file (List.filter (λ kv, negb (String.eqb kv.1 p))) d)
  else (Raise FileNotFoundError, d).

(** A pool holds only well-formed snapshot names, each once. *)
Definition name_okb (n : string) : bool :=
  safe n && (PyStr.count at_sign n =? 1)%nat &&
  match PyStr.split1 at_sign n with Some (d, _) => PyStr.nonempty d | None => false end.

Definition listed (d : Demo) : list string := remove_dups (List.filter name_okb d.(d_snaps)).

Definition d_create (r n : string) : M Demo exn unit := λ d,
  let name := r +:+ String at_sign n in
  if name_okb name
  then (Ret tt, mkDemo d.(d_windows) d.(d_keep) (d.(d_snaps) ++ [name]) d.(d_files) d.(d_timeout) d.(d_insert_fails))
  else (Raise (OtherError "invalid name"), d).

#[local] Instance demo_host : Host Demo := {
  datastore_query d := Ret d.(d_windows);
  datastore_insert := d_insert;
  datastore_update id sns r := d_upd (λ d, mkDemo (updated id sns r <$> d.(d_windows)) d.(d_keep) d.(d_snaps)
    d.(d_files) d.(d_timeout) d.(d_insert_fails));
  bootenv_query d := Ret (d_bes d);
  set_keep _ b := d_upd (λ d, mkDemo d.(d_windows) b d.(d_snaps) d.(d_files) d.(d_timeout) d.(d_insert_fails));
  boot_pool_name _ := Ret "boot-pool";
  dataset_query _ _ := Ret [mkDataset "boot-pool/ROOT/13.3-U1.2" "boot-pool/ROOT/15.0-RC1@2026";
                            mkDataset "boot-pool/ROOT/15.0-RC1" ""];
  iocage_children _ := Ret [["tank/iocage"; "tank/home"]];
  snapshot_query d := Ret ((λ n, mkSnapshot n (snap_dataset n) 10 1) <$> listed d);
  snapshot_create := d_create;
  snapshot_delete n := d_upd (λ d, mkDemo d.(d_windows) d.(d_keep) (minus d.(d_snaps) [n])
    d.(d_files) d.(d_timeout) d.(d_insert_fails));
  systemdataset_basename _ := Ret "tank/.system";
  zfs_pool_guid _ _ := Ret (Some "11");
  zfs_pool_upgraded _ _ := Ret false;
  pool_query _ := Ret [mkPool 1 "tank" "22"];
  pool_is_upgraded _ _ := Ret false;
  oneshot_create _ := mret tt;
  oneshot_delete _ := mret tt;
  path_exists p d := dhas d.(d_files) p;
  read_file p d := match dget d.(d_files) p with Some t => Ret t | None => Raise FileNotFoundError end;
  unlink := d_unlink;
  mkstemp := mret "/data/.system-rollback-x";
  write_json p _ := d_upd (d_file (λ fs, dset fs p "{}"));
  replace src dst := d_upd (d_file (λ fs, dset (ddel fs src) dst "{}"));
  mkdtemp := mret "/tmp/freecore-rollback-origin.x";
  mount_ro _ _ := mret tt;
  umount _ := mret tt;
  rmdir _ := mret tt;
  get_jobs _ := Ret [];
  running_vms _ := Ret [];
  vm_stop _ := mret None;
  iocage_set_up _ := Ret true;
  jail_stop_on_shutdown := mret tt;
  jails_up _ := Ret [];
  sysctl_get _ d := Ret (pretty d.(d_timeout));
  sysctl_set _ z := d_upd (λ d, mkDemo d.(d_windows) d.(d_keep) d.(d_snaps) d.(d_files) z d.(d_insert_fails));
  reboot := raise (OtherError "reboot failed");
}.

(** ** The laws *)

Lemma demo_mount (P : Demo → Prop) : mount_preserves P.
Proof. split; intros; intros h Hh; exact Hh. Qed.

Lemma demo_capture (P : Demo → Prop) :
  (∀ d d', d'.(d_files) = d.(d_files) → P d → P d') → capture_preserves P.
Proof.
  intros HP.
  split; [apply demo_mount|intros r n|intros n|intros be b|intros w|intros a|intros a]; intros d Hd; try exact Hd.
  - simpl. unfold d_create. destruct (name_okb _); [by apply (HP d)|done].
  - by apply (HP d).
  - by apply (HP d).
  - simpl. unfold d_insert. destruct (d_insert_fails d); [done|by apply (HP d)].
Qed.

Lemma demo_existing d : existing d (listed d).
Proof.
  eexists. split; [reflexivity|]. rewrite <- list_fmap_compose. symmetry. apply list_fmap_id.
Qed.

Lemma demo_existing_eq d ns : existing d ns → ns = listed d.
Proof. intros Hns. by eapply existing_inj; [|apply demo_existing]. Qed.

Lemma elem_of_listed n d : n ∈ listed d ↔ n ∈ d.(d_snaps) ∧ name_okb n = true.
Proof. unfold listed. rewrite elem_of_remove_dups, list_elem_of_In, List.filter_In, <- list_elem_of_In. done. Qed.

Lemma demo_teardown : teardown_laws (H := Demo).
Proof.
  split.
  - intros n d ns ->%demo_existing_eq. eexists. split; [apply demo_existing|]. simpl. split.
    + intros m. rewrite !elem_of_listed. simpl. rewrite elem_of_minus. tauto.
    + intros _. rewrite elem_of_listed. simpl. rewrite elem_of_minus. intros [[_ Hm] _]. apply Hm. by left.
  - done.
  - done.
  - intros id sns r d. split; [done|]. intros _ ws [= <-]. done.
Qed.

Lemma name_okb_spec n : name_okb n = true → snapshot_name_ok n.
Proof.
  unfold name_okb. rewrite !andb_true_iff, Nat.eqb_eq. intros [[Hs Hc] Hsp].
  destruct (PyStr.split1 at_sign n) as [[d x]|] eqn:E; [|done].
  apply PyStr.split1_Some in E as [-> Hd]. split; [done|]. exists d, x.
  split_and!; [done| |done|].
  - intros ->. done.
  - rewrite PyStr.count_app in Hc. cbn [PyStr.count] in Hc. rewrite decide_True in Hc by done. lia.
Qed.

Lemma demo_zfs : zfs_laws (H := Demo).
Proof.
  split.
  - intros d. exists (listed d). split_and!; [apply demo_existing|apply NoDup_remove_dups|].
    intros n [_ Hn]%elem_of_listed. by apply name_okb_spec.
  - intros r n d d' ns ns' Hc ->%demo_existing_eq ->%demo_existing_eq. simpl in Hc. unfold d_create in Hc.
    destruct (name_okb _) eqn:E; [|done]. injection Hc as <-. split.
    + apply elem_of_listed. simpl. split; [|done]. apply elem_of_app. right. by left.
    + intros m. rewrite !elem_of_listed. simpl. rewrite elem_of_app. tauto.
Qed.

Lemma demo_undo : undo_laws (H := Demo).
Proof.
  split.
  - apply demo_teardown.
  - intros d. eexists. apply demo_existing.
  - done.
  - intros w d. simpl. unfold d_insert. by destruct (d_insert_fails d).
Qed.

Lemma demo_staging : staging_laws (H := Demo).
Proof.
  split; [apply demo_mount|..]; intros; try (intros h0 Hh; exact Hh).
  match goal with H : unlink _ _ = _ |- _ => revert H end. simpl. unfold d_unlink, no_plan. simpl.
  destruct (dhas (d_files h) RESTORE_PLAN_PATH) eqn:E; intros [= _ <-]; simpl; [|done].
  unfold dhas. destruct (dget _ _) as [t|] eqn:Eg; [|done].
  apply dget_elem_of, list_elem_of_In, List.filter_In in Eg as [_ Eg]. by rewrite String.eqb_refl in Eg.
Qed.

Lemma demo_mount_neutral : mount_neutral (H := Demo).
Proof. intros h0. apply demo_mount. Qed.

(** ** Runs *)

Definition demo0 : Demo := mkDemo [] false ["tank/data@daily"] [(ARRIVAL_PATH_MARKER, "unknown 1786365336")] 210 false.
Definition service (d : Demo) : Service := mkService d [("13.3-U1.2", Some "TrueNAS-13.3-U1.2")] [].

Definition captured : Service := (capture_on_boot 0 (service demo0)).2.
Definition captured_window : Window :=
  match (config captured).1 with Ret (Some w) => w | _ => mkWindow 0 "" "" 0 "" [] [] None end.

Lemma capture_on_boot_once_witness :
  d_windows captured.(host) = [captured_window] ∧
  w_snapshots captured_window = ["tank/.system@freecore-rollback-20260810123536";
                                 "tank/iocage@freecore-rollback-20260810123536"] ∧
  ∀ now', capture_on_boot now' captured = (Ret None, captured).
Proof.
  split; [vm_compute; reflexivity|]. split; [vm_compute; reflexivity|].
  apply (capture_on_boot_once (service demo0) "unknown 1786365336"
    (d_file (λ _, []) demo0) 0).
  - reflexivity.
  - reflexivity.
  - reflexivity.
  - apply demo_capture. intros d d' Hf. unfold no_marker. simpl. by rewrite Hf.
Defined.

Lemma available_sound_witness :
  ∃ w, return_on_offer captured.(host) w ∧ same_view captured.(host) (available captured).2.(host).
Proof.
  apply (available_sound captured (available captured).2 demo_mount_neutral). vm_compute. reflexivity.
Defined.

Lemma cleanup_keeps_open_witness :
  cleanup captured = (Ret (Some captured_window), captured) ∧ same_view captured.(host) captured.(host).
Proof.
  apply (cleanup_keeps_open_window captured captured_window [] captured demo_mount_neutral);
    vm_compute; reflexivity.
Defined.

Definition closed_service : Service :=
  (call (datastore_update 1 None (Some "removed")) captured).2.
Definition closed_window : Window := updated 1 None (Some "removed") captured_window.

Lemma cleanup_forgets_nothing_witness :
  ∃ w' ns', (cleanup closed_service).1 = Ret (Some w') ∧ w'.(w_id) = 1%Z ∧
    w'.(w_closed_reason) = Some "removed" ∧ existing (cleanup closed_service).2.(host) ns' ∧
    (∀ n, n ∈ w'.(w_snapshots) → n ∈ closed_window.(w_snapshots)) ∧
    (∀ n, n ∈ closed_window.(w_snapshots) → n ∈ ns' → n ∈ w'.(w_snapshots)).
Proof.
  destruct (cleanup_forgets_nothing closed_service (cleanup closed_service).2 closed_window []
    (listed closed_service.(host)) (Some (updated 1 (Some []) (Some "removed") closed_window)) demo_teardown)
    as (w' & ns' & Hr & Hid & Hreason & Hex & H1 & H2).
  - vm_compute. reflexivity.
  - eexists. vm_compute. reflexivity.
  - apply demo_existing.
  - assert (Forall (λ n, is_Some (snap_suffix n)) closed_window.(w_snapshots)) as Hall.
    { vm_compute. repeat constructor; by eexists. }
    by rewrite Forall_forall in Hall.
  - vm_compute. reflexivity.
  - exists w', ns'. rewrite <- Hr. split_and!; done.
Defined.

Definition failing : Service :=
  service (mkDemo [] false captured_window.(w_snapshots) [] 210 true).

Lemma record_window_witness :
  (record_window captured_window failing).1 = Raise (OtherError "database is locked") ∧
  datastore_query (record_window captured_window failing).2.(host) = Ret [] ∧
  ∃ ns, existing (record_window captured_window failing).2.(host) ns ∧
    ∀ n, n ∈ captured_window.(w_snapshots) → n ∉ ns.
Proof.
  assert ((record_window captured_window failing).1 = Raise (OtherError "database is locked")) as Hr
    by (vm_compute; reflexivity).
  split; [exact Hr|].
  apply (record_window_all_or_nothing failing (record_window captured_window failing).2 captured_window
    (OtherError "database is locked") demo_undo).
  - assert (Forall (λ n, is_Some (snap_suffix n)) captured_window.(w_snapshots)) as Hall.
    { vm_compute. repeat constructor; by eexists. }
    by rewrite Forall_forall in Hall.
  - reflexivity.
  - rewrite <- Hr. apply surjective_pairing.
Defined.

Lemma execute_fails_closed_witness :
  (execute (λ _, "") captured).1 = Raise (OtherError "reboot failed") ∧
  let s' := (execute (λ _, "") captured).2 in
  s' = captured ∨ no_plan s'.(host) ∨ delete_failed (OtherError "reboot failed") s' ∨ cancelled_staging (OtherError "reboot failed") s'.
Proof.
  assert ((execute (λ _, "") captured).1 = Raise (OtherError "reboot failed")) as Hr
    by (vm_compute; reflexivity).
  split; [exact Hr|].
  apply (execute_fails_closed (λ _, "") captured (execute (λ _, "") captured).2 (OtherError "reboot failed")
    demo_staging).
  rewrite <- Hr. apply surjective_pairing.
Defined.

Definition demo_origin : BootEnv := mkBE "13.3" "13.3-U1.2" false true (Some 1000%Z).

Lemma demo_roots : roots_ok "tank/.system" ["tank/iocage"].
Proof.
  split.
  - apply NoDup_singleton.
  - intros r ->%list_elem_of_singleton. done.
  - intros r r' ->%list_elem_of_singleton ->%list_elem_of_singleton. done.
  - repeat constructor.
Qed.

Lemma captured_plan_valid_witness :
  validate_plan (plan_json (plan_of "boot-pool" captured_window demo_origin)) =
    Ret (plan_of "boot-pool" captured_window demo_origin) ∧
  ∀ r, r ∈ (plan_of "boot-pool" captured_window demo_origin).(roots) ↔ r ∈ ["tank/.system"; "tank/iocage"].
Proof.
  apply (captured_plan_valid "tank/.system" ["tank/iocage"] 1786365336 (service demo0)
    (take_snapshots ["tank/.system"; "tank/iocage"] (capture_name 1786365336) (service demo0)).2
    captured_window.(w_snapshots) captured_window "boot-pool" demo_origin demo_zfs demo_roots).
  - intros r. rewrite !elem_of_cons, elem_of_nil. intros [->|[->|[]]]; reflexivity.
  - vm_compute. reflexivity.
  - vm_compute. reflexivity.
  - reflexivity.
  - vm_compute. discriminate.
  - repeat constructor.
Defined.
