(* ===== verification/Auth.v ===== *)
(** * Sessions and tokens: plugins/auth.py

    [TokenManager] and [SessionManager] keep dicts of objects that are also
    referenced from elsewhere: a [Token] sits in the dict of its manager and in
    the credentials of the session it authenticated, and using the session
    mutates it.  [Auth] is therefore a heap of tokens, the dict from token
    strings to references, the dict of sessions and the connections that are
    authenticated.  The monotonic clock is an argument [now] of each call. *)

From S2P Require Import Prelude PyValue Filter.

(** ** Objects *)

Notation tref := nat (only parsing).

Record Token : Type := mkToken {
  token : string;
  ttl : Z;
  attributes : pydict;
  last_used_at : Z;
}.

(** The classes of [SessionManagerCredentials]. *)
Inductive Credentials : Type :=
| UnixSocket
| RootTcpSocket
| LoginPassword
| ApiKey
| TokenCredentials (t : tref).

Record Session : Type := mkSession {
  origin : string;
  credentials : Credentials;
  created_at : Z;
}.

(** What a connection's request tells: the socket family, the peer (the server
    listens on an IPv4 port, so [peername] is a pair), and the headers nginx adds. *)
Record App : Type := mkApp {
  session_id : string;
  af_unix : bool;
  peer_addr : string;
  peer_port : Z;
  real_addr : option string;
  real_port : option string;
}.

Record SessionEvent : Type := mkSessionEvent { se_type : string; se_fields : pydict }.

Record Auth : Type := mkAuth {
  heap : gmap tref Token;
  tokens : gmap string tref;
  sessions : gmap string Session;
  authenticated : gset string;
  session_events : list SessionEvent;
}.

Definition with_heap (f : gmap tref Token → gmap tref Token) (a : Auth) : Auth :=
  mkAuth (f a.(heap)) a.(tokens) a.(sessions) a.(authenticated) a.(session_events).
Definition with_tokens (f : gmap string tref → gmap string tref) (a : Auth) : Auth :=
  mkAuth a.(heap) (f a.(tokens)) a.(sessions) a.(authenticated) a.(session_events).
Definition with_sessions (f : gmap string Session → gmap string Session) (a : Auth) : Auth :=
  mkAuth a.(heap) a.(tokens) (f a.(sessions)) a.(authenticated) a.(session_events).
Definition set_authenticated (app : App) (b : bool) (a : Auth) : Auth :=
  mkAuth a.(heap) a.(tokens) a.(sessions)
    (if b then {[app.(session_id)]} ∪ a.(authenticated) else a.(authenticated) ∖ {[app.(session_id)]})
    a.(session_events).
Definition send_session_event (type : string) (fields : pydict) (a : Auth) : Auth :=
  mkAuth a.(heap) a.(tokens) a.(sessions) a.(authenticated) (a.(session_events) ++ [mkSessionEvent type fields]).

(** ** [Token] and [TokenManager] *)

(** [Token.is_valid] *)
Definition is_valid (now : Z) (t : Token) : bool := Z.ltb now (t.(last_used_at) + t.(ttl)).

(** [Token.notify_used] *)
Definition notify_used (now : Z) (t : Token) : Token := mkToken t.(token) t.(ttl) t.(attributes) now.

Definition ref_valid (now : Z) (a : Auth) (r : tref) : bool :=
  match a.(heap) !! r with Some t => is_valid now t | None => false end.

(** The tokens of the dict that [is_valid] rejects. *)
Definition expired_tokens (now : Z) (a : Auth) : list Token :=
  omap (λ kv, t ← a.(heap) !! kv.2; guard (is_valid now t = false);; Some t) (map_to_list a.(tokens)).

(** [TokenManager.prune]: [pop(token.token, None)] for each of them. *)
Definition prune (now : Z) (a : Auth) : Auth :=
  with_tokens (λ m, foldr (λ t, delete t.(token)) m (expired_tokens now a)) a.

(** [TokenManager.create]; [fresh_token] is the random string. *)
Definition create (now : Z) (fresh_token : string) (ttl : Z) (attrs : pydict) (a : Auth) : tref * Auth :=
  let a := prune now a in
  let r := fresh (dom a.(heap)) in
  (r, with_tokens <[fresh_token := r]> (with_heap <[r := mkToken fresh_token ttl attrs now]> a)).

(** [self.tokens.pop(token.token)]: [KeyError] when the dict has no such key. *)
Definition pop_token (tok : string) : M Auth exn unit :=
  a ← get_state;
  match a.(tokens) !! tok with
  | None => raise (KeyError tok)
  | Some _ => modify (with_tokens (delete tok))
  end.

(** [TokenManager.get] *)
Definition get_token_object (now : Z) (tok : string) : M Auth exn (option tref) :=
  a ← get_state;
  match r ← a.(tokens) !! tok; t ← a.(heap) !! r; Some (r, t) with
  | None => mret None
  | Some (r, t) =>
      if is_valid now t then mret (Some r)
      else pop_token t.(token) ;; mret None
  end.

(** What [TokenManager.destroy] may be given: the dict is keyed by strings, and a
    [Token] object is equal to no string. *)
Inductive TokenKey : Type := KeyString (s : string) | KeyObject (t : tref).

(** [TokenManager.destroy] *)
Definition destroy (k : TokenKey) (a : Auth) : Auth :=
  match k with
  | KeyString s => with_tokens (delete s) a
  | KeyObject _ => a
  end.

(** ** Credentials *)

Definition credentials_is_valid (now : Z) (c : Credentials) (a : Auth) : bool :=
  match c with TokenCredentials r => ref_valid now a r | _ => true end.

Definition credentials_notify_used (now : Z) (c : Credentials) (a : Auth) : Auth :=
  match c with TokenCredentials r => with_heap (alter (notify_used now) r) a | _ => a end.

(** [TokenSessionManagerCredentials.logout]: [destroy(self.token)] *)
Definition credentials_logout (c : Credentials) (a : Auth) : Auth :=
  match c with TokenCredentials r => destroy (KeyObject r) a | _ => a end.

(** ** Origins *)

Definition colon : ascii := ":"%char.

(** [SessionManager._get_origin] *)
Definition real_peer (app : App) : string * Z :=
  if bool_decide (app.(peer_addr) ∈ ["127.0.0.1"; "::1"]) then
    match app.(real_addr), app.(real_port) ≫= py_int with
    | Some addr, Some port => (addr, port)
    | _, _ => (app.(peer_addr), app.(peer_port))
    end
  else (app.(peer_addr), app.(peer_port)).

Definition format_origin (addr : string) (port : Z) : string :=
  if PyStr.contains addr ":" then "[" +:+ addr +:+ "]:" +:+ pretty port
  else addr +:+ ":" +:+ pretty port.

Definition get_origin (app : App) : string :=
  if app.(af_unix) then "UNIX_SOCKET"
  else let '(addr, port) := real_peer app in format_origin addr port.

(** [host.strip("[]")] *)
Definition is_bracket (c : ascii) : bool := Ascii.eqb c "[" || Ascii.eqb c "]".

Fixpoint lstrip_brackets (s : string) : string :=
  match s with
  | String c s' => if is_bracket c then lstrip_brackets s' else s
  | "" => ""
  end.

Fixpoint rstrip_brackets (s : string) : string :=
  match s with
  | "" => ""
  | String c s' =>
      match rstrip_brackets s' with
      | "" => if is_bracket c then "" else String c ""
      | t => String c t
      end
  end.

(** [is_internal_session]; a malformed origin raises [ValueError]. *)
Definition is_internal_origin (o : string) : outcome exn bool :=
  if String.eqb o "UNIX_SOCKET" then Ret true
  else
    match PyStr.rsplit1 colon o with
    | None => Raise (ValueError "not enough values to unpack (expected 2, got 1)")
    | Some (host, port) =>
        let host := lstrip_brackets (rstrip_brackets host) in
        match py_int port with
        | None => Raise (ValueError ("invalid literal for int() with base 10: " +:+ repr_str port))
        | Some port =>
            if bool_decide (host ∈ ["127.0.0.1"; "::1"]) then Ret true
            else Ret (bool_decide (host ∈ ["169.254.10.1"; "169.254.10.2"; "169.254.10.20"; "169.254.10.80"])
                      && Z.leb port 1024)
        end
    end.

Definition is_internal_session (s : Session) : outcome exn bool := is_internal_origin s.(origin).

(** ** [Session.dump] *)

Definition class_name (c : Credentials) : string :=
  match c with
  | UnixSocket => "UnixSocket" | RootTcpSocket => "RootTcpSocket" | LoginPassword => "LoginPassword"
  | ApiKey => "ApiKey" | TokenCredentials _ => "Token"
  end.

Definition is_upper (c : ascii) : bool :=
  let n := Ascii.nat_of_ascii c in ((65 <=? n) && (n <=? 90))%nat.
Definition upper_char (c : ascii) : ascii :=
  let n := Ascii.nat_of_ascii c in
  if ((97 <=? n) && (n <=? 122))%nat then Ascii.ascii_of_nat (n - 32) else c.

(** [re.sub("([A-Z])", "_\\1", s)] *)
Fixpoint underscore (s : string) : string :=
  match s with
  | "" => ""
  | String c s' => if is_upper c then String "_" (String c (underscore s')) else String c (underscore s')
  end.

Fixpoint lstrip_underscore (s : string) : string :=
  match s with
  | String c s' => if Ascii.eqb c "_" then lstrip_underscore s' else s
  | "" => ""
  end.

Definition credentials_name (c : Credentials) : string :=
  PyStr.map_chars upper_char (lstrip_underscore (underscore (class_name c))).

(** [utcnow] is the wall clock at [now]. *)
Definition session_dump (utcnow now : Z) (s : Session) : pydict :=
  [("origin", PStr s.(origin)); ("credentials", PStr (credentials_name s.(credentials)));
   ("created_at", PInt (utcnow - (now - s.(created_at))))].

(** ** [SessionManager] *)

Definition login_session (utcnow now : Z) (app : App) (c : Credentials) : M Auth exn unit :=
  a ← get_state;
  if bool_decide (app.(session_id) ∈ a.(authenticated)) then
    match a.(sessions) !! app.(session_id) with
    | Some s => modify (with_sessions <[app.(session_id) := mkSession s.(origin) c s.(created_at)]>)
    | None => raise (KeyError app.(session_id))
    end
  else
    let session := mkSession (get_origin app) c now in
    modify (with_sessions <[app.(session_id) := session]>) ;;
    modify (set_authenticated app true) ;;
    match is_internal_session session with
    | Raise e => raise e
    | Ret true => mret tt
    | Ret false =>
        modify (send_session_event "ADDED"
          (("id", PStr app.(session_id)) :: session_dump utcnow now session))
    end.

Definition logout_session (app : App) : M Auth exn unit :=
  a ← get_state;
  (match a.(sessions) !! app.(session_id) with
   | None => mret tt
   | Some s =>
       modify (with_sessions (delete app.(session_id))) ;;
       modify (credentials_logout s.(credentials)) ;;
       match is_internal_session s with
       | Raise e => raise e
       | Ret true => mret tt
       | Ret false => modify (send_session_event "REMOVED" [("id", PStr app.(session_id))])
       end
   end) ;;
  modify (set_authenticated app false).

(** [SessionManager._app_on_message] *)
Definition app_on_message (now : Z) (app : App) : M Auth exn unit :=
  a ← get_state;
  match a.(sessions) !! app.(session_id) with
  | None => modify (set_authenticated app false)
  | Some s =>
      if credentials_is_valid now s.(credentials) a
      then modify (credentials_notify_used now s.(credentials))
      else logout_session app
  end.

(** [SessionManager._app_on_close] *)
Definition app_on_close (app : App) : M Auth exn unit := logout_session app.

(** ** [AuthService] *)

Section service.
(** [crypt] is crypt(3), [None] for NULL; [users] maps a name to its
    [bsdusr_unixhash]; [otp_verify] is [pyotp]'s check of a token against the
    configured secret. *)
Context (crypt : string → string → option string) (users : string → option string).
Context (otp_verify : option string → bool) (api_key_authenticate : string → bool).

(** The part of [auth.twofactor.config] and [auth.webauthn.config] that is read. *)
Context (twofactor_enabled webauthn_enabled : bool).

(** [check_password] *)
Definition check_password (username password : string) : outcome exn bool :=
  match users username with
  | None => Ret false
  | Some hash =>
      if bool_decide (hash ∈ ["x"; "*"]) then Ret false
      else match crypt password hash with
           | None => Raise (OtherError "crypt() returned NULL")
           | Some h => Ret (String.eqb h hash)
           end
  end.

(** [check_user] *)
Definition check_user (username password : string) : outcome exn bool :=
  if String.eqb username "root" then check_password username password else Ret false.

(** [TwoFactorAuthService.verify] *)
Definition twofactor_verify (otp : option string) : outcome exn bool :=
  if twofactor_enabled then Ret (otp_verify otp)
  else Raise (CallError "Please enable Two Factor Authentication first." EFAULT PNone).

(** [AuthService.login] *)
Definition login (utcnow now : Z) (app : App) (username password : string) (otp : option string) :
    M Auth exn bool :=
  match check_user username password with
  | Raise e => raise e
  | Ret valid =>
      let valid :=
        if twofactor_enabled then
          match twofactor_verify otp with Ret b => Ret (valid && b) | Raise e => Raise e end
        else Ret (if webauthn_enabled then false else valid) in
      match valid with
      | Raise e => raise e
      | Ret true => login_session utcnow now app LoginPassword ;; mret true
      | Ret false => mret false
      end
  end.

(** [AuthService.login_with_api_key] *)
Definition login_with_api_key (utcnow now : Z) (app : App) (api_key : string) : M Auth exn bool :=
  if api_key_authenticate api_key then login_session utcnow now app ApiKey ;; mret true
  else mret false.

(** [AuthService.logout] *)
Definition logout (app : App) : M Auth exn bool := logout_session app ;; mret true.

(** [AuthService.token] *)
Definition token_login (utcnow now : Z) (app : App) (tok : string) : M Auth exn bool :=
  t ← get_token_object now tok;
  match t with
  | None => mret false
  | Some r => login_session utcnow now app (TokenCredentials r) ;; mret true
  end.

(** [AuthService.generate_token] *)
Definition generate_token (now : Z) (fresh_token : string) (ttl : option Z) (attrs : pydict) : M Auth exn string := λ a,
  let '(_, a) := create now fresh_token (default 600%Z ttl) attrs a in
  (Ret fresh_token, a).

(** [AuthService.get_token] *)
Definition get_token (token_id : string) (a : Auth) : option pydict :=
  r ← a.(tokens) !! token_id; t ← a.(heap) !! r; Some [("attributes", PDict t.(attributes))].

End service.

(** [AuthService.sessions]: the sessions in the order of their creation. *)
Definition list_sessions (re_match : pyval → pyval → outcome exn bool)
    (getattr : pyval → pyval → outcome exn pyval)
    (utcnow now : Z) (filters : list pyval) (opts : Options) (a : Auth) : outcome exn Result :=
  let sorted := sorted_by (λ x y, Z.leb x.2.(created_at) y.2.(created_at)) (map_to_list a.(sessions)) in
  rows ← mapO (λ kv, internal ← is_internal_session kv.2;
                     Ret (PDict ([("id", PStr kv.1); ("internal", PBool internal)] ++
                                 session_dump utcnow now kv.2))) sorted;
  filter_list re_match getattr rows filters opts.

(** ** Two factor configuration *)

Record TwoFactor : Type := mkTwoFactor {
  tf_enabled : bool;
  otp_digits : Z;
  window : Z;
  interval : Z;
  ssh : bool;
  console : bool;
  secret : option string;
}.

Record TwoFactorUpdate : Type := mkTwoFactorUpdate {
  u_enabled : option bool;
  u_otp_digits : option Z;
  u_window : option Z;
  u_interval : option Z;
  u_services : option (bool * bool);
}.

Definition dquote : string := String (Ascii.ascii_of_nat 34) "".

(** [two_factor_extend] *)
Definition two_factor_extend (services : option bool * option bool) : bool * bool :=
  (default false services.1, default false services.2).

(** [TwoFactorAuthService.do_update]: the configuration stored. *)
Definition twofactor_update (webauthn_enabled consolemenu : bool) (new_secret : string)
    (data : TwoFactorUpdate) (old : TwoFactor) : outcome exn TwoFactor :=
  let services := default (old.(ssh), old.(console)) data.(u_services) in
  let enabled := default old.(tf_enabled) data.(u_enabled) in
  if negb enabled && webauthn_enabled then
    Raise (CallError ("Two-Factor authentication cannot be disabled while WebAuthn is enabled — it is " +:+
      "the fallback login path when security keys are unavailable. Disable WebAuthn first.") EFAULT PNone)
  else if services.2 && consolemenu then
    Raise (CallError ("Console OTP cannot be enabled while " +:+ dquote +:+
      "Show Text Console without Password Prompt" +:+ dquote +:+
      " is active (System -> Advanced) — the passwordless console menu bypasses the " +:+
      "login prompt entirely. Disable it first.") EFAULT PNone)
  else
    let secret := match old.(secret) with
      | Some s => if PyStr.nonempty s then Some s else if enabled then Some new_secret else Some s
      | None => if enabled then Some new_secret else None
      end in
    Ret (mkTwoFactor enabled (default old.(otp_digits) data.(u_otp_digits)) (default old.(window) data.(u_window))
      (default old.(interval) data.(u_interval)) services.1 services.2 secret).

(** [renew_secret] *)
Definition renew_secret (new_secret : string) (old : TwoFactor) : outcome exn TwoFactor :=
  if old.(tf_enabled) then
    Ret (mkTwoFactor true old.(otp_digits) old.(window) old.(interval) old.(ssh) old.(console) (Some new_secret))
  else Raise (CallError "Please enable Two Factor Authentication first." EFAULT PNone).

(** ** [check_permission]: connections of root over loopback *)

(** [data.splitlines()] on bytes. *)
Fixpoint splitlines (s : string) : list string :=
  match s with
  | "" => []
  | String "010" s' => "" :: splitlines s'
  | String "013" s' =>
      match s' with
      | String "010" s'' => "" :: splitlines s''
      | _ => "" :: splitlines s'
      end
  | String c s' => PyStr.push c (splitlines s')
  end.

(** A line of sockstat(1): the user first, the remote end in the last but one
    column (the third from the end on Linux). *)
Definition owned_by_root (is_linux : bool) (remote line : string) : outcome exn bool :=
  let cols := PyStr.split_ws line in
  let back := if is_linux then 3 else 2 in
  if (length cols <? back)%nat then Raise IndexError
  else Ret (bool_decide (cols !! (length cols - back) = Some remote) && bool_decide (cols !! 0 = Some "root")).

Definition check_permission (is_linux : bool) (sockstat : string) (utcnow now : Z) (app : App) :
    M Auth exn unit :=
  if app.(af_unix) then login_session utcnow now app UnixSocket
  else if negb (PyStr.startswith app.(peer_addr) "127." || String.eqb app.(peer_addr) "::1") then mret tt
  else
    let remote := app.(peer_addr) +:+ ":" +:+ pretty app.(peer_port) in
    match anyO (owned_by_root is_linux remote) (tail (splitlines (PyStr.strip sockstat))) with
    | Raise e => raise e
    | Ret true => login_session utcnow now app RootTcpSocket
    | Ret false => mret tt
    end.
