(* ===== verification/AuthFacts.v ===== *)
(** * Theorems on sessions and tokens

    An origin written by [get_origin] is always read back by
    [is_internal_session]; in every state the service can reach, the connections
    marked as authenticated are those that have a session, so that no handler
    raises; a token ends the sessions it authenticated when it expires and is
    refreshed by their messages; a password alone does not log in when a second
    factor is configured. *)

From S2P Require Import Prelude PyValue Filter PyNum Auth.

(** ** Origins *)

Lemma format_origin_read addr port :
  ∃ host, is_internal_origin (format_origin addr port) =
    Ret (bool_decide (host ∈ ["127.0.0.1"; "::1"]) ||
         bool_decide (host ∈ ["169.254.10.1"; "169.254.10.2"; "169.254.10.20"; "169.254.10.80"]) && Z.leb port 1024).
Proof.
  assert (PyStr.count colon (pretty port) = 0) as Hport.
  { apply count_absent. eapply str_forall_imp, pretty_Z_chars. intros c Hc. by apply number_char_plain. }
  assert (∃ h, format_origin addr port = h +:+ String colon (pretty port)) as [h Hh].
  { unfold format_origin. destruct (PyStr.contains addr ":").
    - exists ("[" +:+ addr +:+ "]"). by rewrite !PyStr.app_assoc.
    - by exists addr. }
  rewrite Hh. unfold is_internal_origin.
  assert (String.eqb (h +:+ String colon (pretty port)) "UNIX_SOCKET" = false) as ->.
  { apply String.eqb_neq. intros Heq. apply (f_equal (PyStr.count colon)) in Heq.
    rewrite PyStr.count_app in Heq. replace (PyStr.count colon "UNIX_SOCKET") with 0 in Heq by done.
    cbn [PyStr.count] in Heq. rewrite decide_True in Heq by done. lia. }
  rewrite rsplit1_app, py_int_pretty by done.
  exists (lstrip_brackets (rstrip_brackets h)). by case_bool_decide.
Qed.

(** [is_internal_session] reads every origin [_get_origin] writes. *)
Lemma get_origin_read app : ∃ b, is_internal_origin (get_origin app) = Ret b.
Proof.
  unfold get_origin. destruct (af_unix app); [by exists true|].
  destruct (real_peer app) as [addr port]. destruct (format_origin_read addr port) as [h ->]. eauto.
Qed.

(** ** The invariant *)

Record Inv (a : Auth) : Prop := {
  inv_authenticated : a.(authenticated) = dom a.(sessions);
  inv_tokens s r : a.(tokens) !! s = Some r → ∃ t, a.(heap) !! r = Some t ∧ t.(token) = s;
  inv_refs i s r : a.(sessions) !! i = Some s → s.(credentials) = TokenCredentials r → is_Some (a.(heap) !! r);
  inv_origins i s : a.(sessions) !! i = Some s → ∃ b, is_internal_session s = Ret b;
}.

(** A handler that returns, in a state that keeps the invariant. *)
Definition total {A} (P : Auth → Prop) (m : M Auth exn A) : Prop := triple P m (λ _, Inv) (λ _ _, False).

Definition good_credentials (c : Credentials) (a : Auth) : Prop :=
  match c with TokenCredentials r => is_Some (a.(heap) !! r) | _ => True end.

Lemma login_session_total u n app c : total (λ a, Inv a ∧ good_credentials c a) (login_session u n app c).
Proof.
  intros a [Ha Hc]. unfold login_session, get_state, modify, mbind, M_bind, raise; simpl.
  case_bool_decide as Hin.
  - rewrite (inv_authenticated a Ha) in Hin. apply elem_of_dom in Hin as [s Hs]. rewrite Hs. destruct Ha as [A T R O].
    split; simpl.
    + rewrite A. apply elem_of_dom_2 in Hs. set_solver.
    + done.
    + intros i s' r [[<- <-]|[_ Hs']]%lookup_insert_Some; [|by eauto]. simpl. intros ->. done.
    + intros i s' [[<- <-]|[_ Hs']]%lookup_insert_Some; [apply (O _ _ Hs)|by eauto].
  - destruct (get_origin_read app) as [b Hb]. unfold is_internal_session; simpl. rewrite Hb.
    destruct Ha as [A T R O].
    cut (Inv (set_authenticated app true (with_sessions <[session_id app:=mkSession (get_origin app) c n]> a))).
    { intros HI. destruct b; [done|]. by destruct HI. }
    split; simpl.
    + rewrite A. set_solver.
    + done.
    + intros i s' r [[<- <-]|[_ Hs']]%lookup_insert_Some; [|by eauto]. simpl. intros ->. done.
    + intros i s' [[<- <-]|[_ Hs']]%lookup_insert_Some; [by exists b|by eauto].
Qed.

Lemma login_session_authenticates u n app c a a' :
  login_session u n app c a = (Ret tt, a') → app.(session_id) ∈ a'.(authenticated).
Proof.
  unfold login_session, get_state, modify, mbind, M_bind, raise; simpl. case_bool_decide as Hin.
  - destruct (a.(sessions) !! _); by intros [= <-].
  - destruct (is_internal_session _) as [[]|]; intros [= <-]; simpl; set_solver.
Qed.

Lemma login_as_authenticates u n app c a (x b : bool) a' :
  (login_session u n app c ;; mret x) a = (Ret b, a') → b = x ∧ app.(session_id) ∈ a'.(authenticated).
Proof. by intros ([] & s1 & Hs%login_session_authenticates & [= <- <-])%M_bind_Ret. Qed.

Lemma credentials_logout_id c a : credentials_logout c a = a.
Proof. by destruct c. Qed.

Lemma logout_session_total app :
  triple Inv (logout_session app)
    (λ _ a, Inv a ∧ a.(sessions) !! app.(session_id) = None ∧ app.(session_id) ∉ a.(authenticated))
    (λ _ _, False).
Proof.
  intros a [A T R O]. unfold logout_session, get_state, modify, mbind, M_bind, raise; simpl.
  destruct (a.(sessions) !! _) as [s|] eqn:Hs; simpl.
  - destruct (O _ _ Hs) as [b Hb]. rewrite Hb, credentials_logout_id.
    cut (Inv (set_authenticated app false (with_sessions (delete (session_id app)) a))).
    { intros [A' T' R' O']. destruct b; simpl; rewrite lookup_delete_eq; (split; [|set_solver]); done. }
    split; simpl; [rewrite A; set_solver|done|..].
    + intros i s' r [_ Hs']%lookup_delete_Some. eauto.
    + intros i s' [_ Hs']%lookup_delete_Some. eauto.
  - rewrite Hs. split_and!; [|done|set_solver]. split; simpl; try done. apply not_elem_of_dom in Hs. set_solver.
Qed.

Lemma logout_keeps_tokens app a :
  (logout app a).2.(heap) = a.(heap) ∧ (logout app a).2.(tokens) = a.(tokens).
Proof.
  unfold logout, logout_session, get_state, modify, mbind, M_bind, raise; simpl.
  destruct (a.(sessions) !! _) as [s|]; simpl; [|done]. rewrite credentials_logout_id.
  by destruct (is_internal_session s) as [[]|].
Qed.

Lemma Inv_heap (f : gmap tref Token → gmap tref Token) a :
  Inv a → (∀ r t, a.(heap) !! r = Some t → ∃ t', f a.(heap) !! r = Some t' ∧ t'.(token) = t.(token)) →
  Inv (with_heap f a).
Proof.
  intros [A T R O] Hf. split; simpl; [done| | |done].
  - intros s r Hr. destruct (T s r Hr) as (t & Ht & <-). apply Hf in Ht as (t' & Ht' & Htok). eauto.
  - intros i s r Hs Hc. destruct (R i s r Hs Hc) as [t Ht]. apply Hf in Ht as (t' & Ht' & _). eauto.
Qed.

Lemma Inv_tokens (f : gmap string tref → gmap string tref) a :
  Inv a → (∀ s r, f a.(tokens) !! s = Some r → a.(tokens) !! s = Some r) → Inv (with_tokens f a).
Proof. intros [A T R O] Hf. split; simpl; eauto. Qed.

Lemma notify_used_Inv n c a : Inv a → Inv (credentials_notify_used n c a).
Proof.
  intros Ha. destruct c as [| | | |r]; try done. apply Inv_heap; [done|].
  intros r' t Ht. destruct (decide (r' = r)) as [->|Hr].
  - rewrite lookup_alter_eq, Ht. by exists (notify_used n t).
  - rewrite lookup_alter_ne by done. eauto.
Qed.

Lemma app_on_message_total n app : total Inv (app_on_message n app).
Proof.
  intros a Ha. unfold app_on_message, get_state, modify. unfold mbind at 1, M_bind at 1; simpl.
  destruct (a.(sessions) !! _) as [s|] eqn:Hs.
  - destruct (credentials_is_valid n _ a) eqn:Hv; [by apply notify_used_Inv|].
    pose proof (logout_session_total app a Ha) as Hl.
    destruct (logout_session app a) as [[]?]; [apply Hl|done].
  - destruct Ha as [A T R O]. split; simpl; try done. apply not_elem_of_dom in Hs. set_solver.
Qed.

Lemma get_token_object_total n tok :
  triple Inv (get_token_object n tok)
    (λ r a, Inv a ∧ match r with Some r => is_Some (a.(heap) !! r) | None => True end) (λ _ _, False).
Proof.
  intros a Ha. unfold get_token_object, pop_token, get_state, modify, raise, mbind, M_bind; simpl.
  destruct (a.(tokens) !! tok) as [r|] eqn:Hr; simpl; [|done].
  destruct (inv_tokens a Ha _ _ Hr) as (t & Ht & Htok). rewrite Ht; simpl.
  destruct (is_valid n t); simpl; [eauto|]. rewrite Htok, Hr; simpl. split; [|done].
  apply Inv_tokens; [done|]. by intros s r' [_ ?]%lookup_delete_Some.
Qed.

Lemma prune_lookup n a s r : (prune n a).(tokens) !! s = Some r → a.(tokens) !! s = Some r.
Proof.
  unfold prune; simpl. induction (expired_tokens n a) as [|t l IH]; simpl; [done|].
  intros [_ H]%lookup_delete_Some. by apply IH.
Qed.

Lemma create_Inv n tok d attrs a : Inv a → Inv (create n tok d attrs a).2.
Proof.
  intros Ha. unfold create. cbv zeta. set (b := prune n a). set (r := fresh (dom (heap b))). simpl.
  assert (Inv b) as [A T R O] by (apply Inv_tokens; [done|apply prune_lookup]).
  assert (heap b !! r = None) as Hr by (apply not_elem_of_dom, is_fresh).
  split; simpl; [done| | |done].
  - intros s r' [[<- <-]|[_ Hs]]%lookup_insert_Some.
    + rewrite lookup_insert_eq. eauto.
    + destruct (T _ _ Hs) as (t & Ht & Htok). exists t. split; [|done]. rewrite lookup_insert_ne; [done|congruence].
  - intros i s r' Hs Hc. destruct (R _ _ _ Hs Hc) as [t Ht]. exists t. rewrite lookup_insert_ne; [done|congruence].
Qed.

Lemma total_weaken {A} P (m : M Auth exn A) : total P m → (∀ a, Inv a → P a) → total Inv m.
Proof. intros Hm HP a Ha. by apply Hm, HP. Qed.

Lemma login_as_total {A} u n app c (x : A) :
  (∀ a, good_credentials c a) → total Inv (login_session u n app c ;; mret x).
Proof.
  intros Hc. unfold total. eapply triple_bind.
  - eapply total_weaken; [apply login_session_total|]. intros a Ha. by split; [|apply Hc].
  - intros []. apply triple_ret. done.
Qed.

Lemma token_login_total u n app tok : total Inv (token_login u n app tok).
Proof.
  unfold total, token_login. eapply triple_bind; [apply get_token_object_total|].
  intros [r|]; [|apply triple_ret; naive_solver].
  eapply triple_bind; [apply (login_session_total u n app (TokenCredentials r))|]. intros []. by apply triple_ret.
Qed.

Definition registered (tok : string) (a : Auth) : option (tref * Token) :=
  r ← a.(tokens) !! tok; t ← a.(heap) !! r; Some (r, t).

Lemma get_token_object_result n tok a :
  Inv a → (get_token_object n tok a).1 =
    Ret (rt ← registered tok a; if is_valid n rt.2 then Some rt.1 else None).
Proof.
  intros Ha. unfold get_token_object, registered, pop_token, get_state, modify, raise, mbind, M_bind; simpl.
  destruct (a.(tokens) !! tok) as [r|] eqn:Hr; simpl; [|done].
  destruct (inv_tokens a Ha _ _ Hr) as (t & Ht & Htok). rewrite Ht; simpl.
  destruct (is_valid n t); simpl; [done|]. by rewrite Htok, Hr.
Qed.

(** [auth.token] accepts the registered tokens that are valid. *)
Lemma token_login_result u n app tok a :
  Inv a → (token_login u n app tok a).1 =
    Ret (match registered tok a with Some (_, t) => is_valid n t | None => false end).
Proof.
  intros Ha. pose proof (get_token_object_total n tok a Ha) as Htot.
  pose proof (get_token_object_result n tok a Ha) as Hres.
  unfold token_login. unfold mbind at 1, M_bind at 1.
  destruct (get_token_object n tok a) as [o a1]; simpl in Hres; subst o.
  destruct (registered tok a) as [[r t]|]; simpl in *; [|done].
  destruct (is_valid n t); [|done].
  pose proof (login_session_total u n app (TokenCredentials r) a1 Htot) as Hl.
  unfold mbind, M_bind. by destruct (login_session _ _ _ _ a1) as [[[]|] ?].
Qed.

Lemma total_keeps {A} (m : M Auth exn A) : total Inv m → keeps Inv m.
Proof. intros Hm a Ha. specialize (Hm a Ha). by destruct (m a) as [[]]. Qed.

Lemma total_returns {A} (m : M Auth exn A) a : total Inv m → Inv a → is_ret (m a).1 = true.
Proof. intros Hm Ha. specialize (Hm a Ha). by destruct (m a) as [[]]. Qed.

Lemma login_keeps crypt users otp_verify tf wa u n app user pw otp :
  keeps Inv (login crypt users otp_verify tf wa u n app user pw otp).
Proof.
  unfold login. destruct (check_user _ _ _ _) as [v|e]; [|apply keeps_raise].
  cbv zeta. destruct (if tf then _ else _) as [[]|e]; [|apply keeps_ret|apply keeps_raise].
  by apply total_keeps, login_as_total.
Qed.

Lemma api_key_total auth u n app k : total Inv (login_with_api_key auth u n app k).
Proof. unfold login_with_api_key. destruct (auth k); [by apply login_as_total|by apply triple_ret]. Qed.

Lemma logout_total app : total Inv (logout app).
Proof.
  unfold total, logout. eapply triple_bind; [apply logout_session_total|]. intros [].
  apply triple_ret. naive_solver.
Qed.

Lemma check_permission_keeps l out u n app : keeps Inv (check_permission l out u n app).
Proof.
  assert (∀ c, good_credentials c = (λ _, True) → keeps Inv (login_session u n app c)) as Hl.
  { intros c Hc. apply total_keeps. eapply total_weaken; [apply login_session_total|]. intros a Ha. by rewrite Hc. }
  unfold check_permission. destruct (af_unix app); [by apply Hl|].
  destruct (negb _); [apply keeps_ret|]. cbv zeta.
  destruct (anyO _ _) as [[]|]; [by apply Hl|apply keeps_ret|apply keeps_raise].
Qed.

(** ** The states the service reaches *)

Definition auth_init : Auth := mkAuth ∅ ∅ ∅ ∅ [].

(** Any of the calls that touch the managers, by any connection, at any time and
    with any answer of the parts that are parameters. *)
Inductive auth_step (a : Auth) : Auth → Prop :=
| step_login crypt users otp_verify tf wa u n app user pw otp :
    auth_step a (login crypt users otp_verify tf wa u n app user pw otp a).2
| step_api_key auth u n app k : auth_step a (login_with_api_key auth u n app k a).2
| step_token u n app tok : auth_step a (token_login u n app tok a).2
| step_generate n tok d attrs : auth_step a (generate_token n tok d attrs a).2
| step_logout app : auth_step a (logout app a).2
| step_message n app : auth_step a (app_on_message n app a).2
| step_close app : auth_step a (app_on_close app a).2
| step_connect l out u n app : auth_step a (check_permission l out u n app a).2.

Definition auth_reachable : Auth → Prop := rtc auth_step auth_init.

Lemma auth_step_Inv a b : auth_step a b → Inv a → Inv b.
Proof.
  intros Hs Ha. destruct Hs.
  - by apply login_keeps.
  - by apply (total_keeps _ (api_key_total _ _ _ _ _)).
  - by apply (total_keeps _ (token_login_total _ _ _ _)).
  - by apply create_Inv.
  - by apply (total_keeps _ (logout_total _)).
  - by apply (total_keeps _ (app_on_message_total _ _)).
  - pose proof (logout_session_total app a Ha) as Hl. unfold app_on_close.
    destruct (logout_session app a) as [[]?]; [apply Hl|done].
  - by apply check_permission_keeps.
Qed.

Lemma auth_reachable_Inv a : auth_reachable a → Inv a.
Proof.
  intros Hr. unfold auth_reachable in Hr. remember auth_init as i eqn:Hi.
  assert (Inv i) as H0 by (subst; by split). clear Hi.
  induction Hr as [|x y z Hxy _ IH]; [done|]. by apply IH, (auth_step_Inv x).
Qed.

(** ** Theorems *)

Lemma app_on_close_returns app a : Inv a → is_ret (app_on_close app a).1 = true.
Proof. intros Ha. pose proof (logout_session_total app a Ha) as H. unfold app_on_close. by destruct (logout_session app a) as [[]]. Qed.

(** C18. In every state the service reaches by whatever calls of whatever connections, one
    after the other (the calls that run in worker threads, [token] and [generate_token],
    too), the connections marked as authenticated are exactly those that have a session,
    and so neither the [KeyError] of a login over an existing session nor the one of
    dropping an expired token nor the [ValueError] of reading an origin can happen:
    logins with a key or a token, logouts, messages, closed connections and new tokens
    all return.  (The threads take no lock: calls that overlap can raise these
    errors.) *)
Theorem sessions_match_authenticated (a : Auth) (Hr : auth_reachable a) :
  a.(authenticated) = dom a.(sessions) ∧
  ∀ auth u n app k tok d attrs,
    is_ret (login_with_api_key auth u n app k a).1 = true ∧
    is_ret (token_login u n app tok a).1 = true ∧
    is_ret (generate_token n tok d attrs a).1 = true ∧
    is_ret (logout app a).1 = true ∧
    is_ret (app_on_message n app a).1 = true ∧
    is_ret (app_on_close app a).1 = true.
Proof.
  apply auth_reachable_Inv in Hr as Ha. split; [apply Ha|]. intros auth u n app k tok d attrs. split_and!.
  - by apply total_returns; [apply api_key_total|].
  - by apply total_returns; [apply token_login_total|].
  - done.
  - by apply total_returns; [apply logout_total|].
  - by apply total_returns; [apply app_on_message_total|].
  - by apply app_on_close_returns.
Qed.

(** Two threads look up the same token after it has lapsed: both are to drop it, and the
    second one raises. *)
Example expired_token_race :
  let a := (generate_token 10 "tok" (Some 30%Z) [] auth_init).2 in
  expired_tokens 50 a = [mkToken "tok" 30 [] 10] ∧
  (pop_token "tok" a).1 = Ret tt ∧ (pop_token "tok" (pop_token "tok" a).2).1 = Raise (KeyError "tok").
Proof. by vm_compute. Qed.

(** A connection logged in with [app], before and after a time that expires. *)
Definition demo_app : App := mkApp "s1" false "127.0.0.1" 4000 (Some "10.0.0.5") (Some "51000").

Definition demo_auth : Auth :=
  (token_login 0 20 demo_app "tok" (generate_token 10 "tok" (Some 30%Z) [] auth_init).2).2.

Lemma demo_auth_reachable : auth_reachable demo_auth.
Proof. eapply rtc_l; [apply step_generate|]. eapply rtc_l; [apply step_token|]. apply rtc_refl. Qed.

Lemma demo_auth_session :
  demo_auth.(sessions) !! "s1" = Some (mkSession "10.0.0.5:51000" (TokenCredentials 0) 20) ∧
  demo_auth.(heap) !! 0 = Some (mkToken "tok" 30 [] 10) ∧ demo_auth.(tokens) !! "tok" = Some 0.
Proof. vm_compute. done. Qed.

Lemma sessions_match_witness : demo_auth.(authenticated) = dom demo_auth.(sessions).
Proof. apply (sessions_match_authenticated demo_auth demo_auth_reachable). Defined.

(** A token is a licence that lapses: a string logs a connection in exactly
    when it is the string of a registered token whose time since its last use is
    below its [ttl]; while that holds, every message of a session the token
    authenticated restarts the time, and the first message after it has lapsed
    ends the session and its authentication. *)
Theorem token_lifetime (a : Auth) (n : Z) (app : App) (tok : string) (s : Session) (r : tref) (t : Token)
    (Hr : auth_reachable a)
    (Hs : a.(sessions) !! app.(session_id) = Some s)
    (Hc : s.(credentials) = TokenCredentials r)
    (Ht : a.(heap) !! r = Some t) :
  (∀ u app', (token_login u n app' tok a).1 = Ret true ↔
     ∃ r' t', a.(tokens) !! tok = Some r' ∧ a.(heap) !! r' = Some t' ∧ (n - t'.(last_used_at) < t'.(ttl))%Z) ∧
  let a' := (app_on_message n app a).2 in
  if Z.ltb (n - t.(last_used_at)) t.(ttl)
  then app.(session_id) ∈ a'.(authenticated) ∧ a'.(sessions) !! app.(session_id) = Some s ∧
       a'.(heap) !! r = Some (mkToken t.(token) t.(ttl) t.(attributes) n)
  else app.(session_id) ∉ a'.(authenticated) ∧ a'.(sessions) !! app.(session_id) = None.
Proof.
  apply auth_reachable_Inv in Hr as Ha. split.
  - intros u app'. rewrite token_login_result by done. unfold registered, is_valid.
    destruct (a.(tokens) !! tok) as [r'|]; simpl; [|naive_solver].
    destruct (a.(heap) !! r') as [t'|] eqn:Ht'; simpl; [|naive_solver]. split.
    + intros [= Hv%Z.ltb_lt]. exists r', t'. split_and!; [done|done|lia].
    + intros (r2 & t2 & [= <-] & Ht2 & ?). simplify_eq. f_equal. apply Z.ltb_lt. lia.
  - cbv zeta. unfold app_on_message, get_state, modify. unfold mbind, M_bind. cbn [fst snd].
    rewrite Hs, Hc. cbn [credentials_is_valid]. unfold ref_valid, is_valid. rewrite Ht.
    replace (Z.ltb n (t.(last_used_at) + t.(ttl))) with (Z.ltb (n - t.(last_used_at)) t.(ttl)).
    2: { destruct (Z.ltb_spec (n - t.(last_used_at)) t.(ttl)), (Z.ltb_spec n (t.(last_used_at) + t.(ttl))); lia. }
    destruct (Z.ltb _ _).
    + cbn [credentials_notify_used with_heap authenticated sessions heap fst snd]. split_and!.
      * rewrite (inv_authenticated a Ha). by apply elem_of_dom_2 in Hs.
      * done.
      * by rewrite lookup_alter_eq, Ht.
    + pose proof (logout_session_total app a Ha) as Hl.
      destruct (logout_session app a) as [[]?]; [naive_solver|done].
Qed.

Lemma token_lifetime_witness :
  demo_app.(session_id) ∉ (app_on_message 50 demo_app demo_auth).2.(authenticated).
Proof.
  destruct demo_auth_session as (Hs & Hh & Ht).
  apply (token_lifetime demo_auth 50 demo_app "tok" _ 0 _ demo_auth_reachable Hs eq_refl Hh).
Defined.

(** C34. [auth.login] needs every factor that is configured: when it returns true
    the user is root, crypt(3) of the password under the stored hash is that
    hash, which is neither [x] nor a star, the one-time password was verified if
    two-factor authentication is on, and WebAuthn is off if it is not; and the
    connection is then authenticated.  When it returns false nothing changed. *)
Theorem login_needs_every_factor crypt users otp_verify (tf wa : bool) u n app user pw otp (a a' : Auth) (b : bool)
    (Hl : login crypt users otp_verify tf wa u n app user pw otp a = (Ret b, a')) :
  if b then
    user = "root" ∧
    (∃ hash, users user = Some hash ∧ crypt pw hash = Some hash ∧ hash ∉ ["x"; "*"]) ∧
    (if tf then otp_verify otp = true else wa = false) ∧
    app.(session_id) ∈ a'.(authenticated)
  else a' = a.
Proof.
  revert Hl. unfold login, check_user, check_password, twofactor_verify.
  destruct (String.eqb_spec user "root") as [->|Hu]; [|by destruct tf, wa, b; intros [=]].
  destruct (users "root") as [hash|] eqn:Hh; [|by destruct tf, wa, b; intros [=]].
  case_bool_decide as Hx; [by destruct tf, wa, b; intros [=]|].
  destruct (crypt pw hash) as [h|] eqn:Hcr; [|done]. cbv zeta. destruct tf.
  - destruct (String.eqb h hash && otp_verify otp) eqn:Hb; [|by destruct b; intros [=]].
    apply andb_true_iff in Hb as [->%String.eqb_eq Ho]. intros [-> Hin]%login_as_authenticates. eauto 10.
  - destruct wa; [by destruct b; intros [=]|]. destruct (String.eqb h hash) eqn:Hb; [|by destruct b; intros [=]].
    apply String.eqb_eq in Hb as ->. intros [-> Hin]%login_as_authenticates. eauto 10.
Qed.

Definition demo_crypt (pw salt : string) : option string := Some (if String.eqb pw "secret" then "$6$h" else "$6$other").
Definition demo_users (user : string) : option string := if String.eqb user "root" then Some "$6$h" else None.
Definition demo_otp (otp : option string) : bool := bool_decide (otp = Some "123456").

Lemma login_needs_every_factor_witness :
  ∃ a', login demo_crypt demo_users demo_otp true true 0 5 demo_app "root" "secret" (Some "123456") auth_init = (Ret true, a') ∧
        demo_otp (Some "123456") = true ∧ "s1" ∈ a'.(authenticated).
Proof.
  eexists. split; [vm_compute; reflexivity|].
  apply (login_needs_every_factor demo_crypt demo_users demo_otp true true 0 5 demo_app "root" "secret" (Some "123456")
           auth_init _ true).
  vm_compute; reflexivity.
Defined.

(** [auth.logout] of a token session leaves the token registered: [destroy] is
    given the [Token] object, and the dict is keyed by strings.  The string goes
    on to log connections in for as long as its time since the last use is below
    its [ttl]. *)
Theorem token_survives_logout a app s r t n u app' :
  auth_reachable a → a.(sessions) !! app.(session_id) = Some s → s.(credentials) = TokenCredentials r →
  a.(heap) !! r = Some t → a.(tokens) !! t.(token) = Some r → is_valid n t = true →
  (token_login u n app' t.(token) (logout app a).2).1 = Ret true.
Proof.
  intros Hr%auth_reachable_Inv Hs Hc Ht Htok Hv. pose proof (logout_keeps_tokens app a) as (Hh & Hk).
  rewrite token_login_result by (apply (total_keeps _ (logout_total app)), Hr).
  unfold registered. rewrite Hk, Htok; simpl. rewrite Hh, Ht; simpl. by rewrite Hv.
Qed.

Lemma token_survives_logout_witness : (token_login 0 30 demo_app "tok" (logout demo_app demo_auth).2).1 = Ret true.
Proof.
  destruct demo_auth_session as (Hs & Hh & Ht).
  apply (token_survives_logout demo_auth demo_app _ 0 _ 30 0 demo_app demo_auth_reachable Hs eq_refl Hh Ht eq_refl).
Defined.
