(* ===== verification/NtHash.v ===== *)
(** * MD4 and the NT hash: [_md4] and [nt_password] of plugins/account.py

    The code computes RFC 1320 with unbounded integers and masks, on four variables
    that it renames after every step.  The reference is the RFC: words of 32 bits,
    a rotation, and the table of its 48 operations [[abcd k s]] on four registers. *)

From S2P Require Import Prelude.

Open Scope Z_scope.

(** ** The code *)

Module MD4.

Definition mask : Z := 0xFFFFFFFF.

Definition f (x y z : Z) : Z := Z.lor (Z.land x y) (Z.land (Z.land (Z.lnot x) z) mask).
Definition g (x y z : Z) : Z := Z.lor (Z.lor (Z.land x y) (Z.land x z)) (Z.land y z).
Definition hh (x y z : Z) : Z := Z.lxor (Z.lxor x y) z.

Definition lrot (v n : Z) : Z :=
  let v := Z.land v mask in
  Z.land (Z.lor (Z.shiftl v n) (Z.shiftr v (32 - n))) mask.

Definition r1_idx : list nat := [0; 1; 2; 3; 4; 5; 6; 7; 8; 9; 10; 11; 12; 13; 14; 15]%nat.
Definition r1_sh : list Z := [3; 7; 11; 19; 3; 7; 11; 19; 3; 7; 11; 19; 3; 7; 11; 19].
Definition r2_idx : list nat := [0; 4; 8; 12; 1; 5; 9; 13; 2; 6; 10; 14; 3; 7; 11; 15]%nat.
Definition r2_sh : list Z := [3; 5; 9; 13; 3; 5; 9; 13; 3; 5; 9; 13; 3; 5; 9; 13].
Definition r3_idx : list nat := [0; 8; 4; 12; 2; 10; 6; 14; 1; 9; 5; 13; 3; 11; 7; 15]%nat.
Definition r3_sh : list Z := [3; 9; 11; 15; 3; 9; 11; 15; 3; 9; 11; 15; 3; 9; 11; 15].

(** [A, B, C, D] *)
Definition Vars : Type := (Z * Z * Z * Z)%type.

(** [A = lrot(A + fn(B, C, D) + X[i] + k, s); A, D, C, B = D, C, B, A] *)
Definition turn (fn : Z → Z → Z → Z) (k : Z) (X : list Z) (v : Vars) (ix : nat * Z) : Vars :=
  let '(A, B, C, D) := v in
  let A := lrot (A + fn B C D + nth ix.1 X 0 + k) ix.2 in
  (D, A, B, C).

(** One block of 64 bytes. *)
Definition block (h : Vars) (X : list Z) : Vars :=
  let v := foldl (turn f 0 X) h (zip r1_idx r1_sh) in
  let v := foldl (turn g 0x5A827999 X) v (zip r2_idx r2_sh) in
  let v := foldl (turn hh 0x6ED9EBA1 X) v (zip r3_idx r3_sh) in
  let '(h0, h1, h2, h3) := h in
  let '(A, B, C, D) := v in
  (Z.land (h0 + A) mask, Z.land (h1 + B) mask, Z.land (h2 + C) mask, Z.land (h3 + D) mask).

(** [while len(msg) % 64 != 56: msg.append(0)] *)
Fixpoint pad_zeros (fuel : nat) (msg : list Z) : option (list Z) :=
  if Nat.eqb (length msg mod 64) 56 then Some msg
  else match fuel with 0%nat => None | S fuel => pad_zeros fuel (msg ++ [0]) end.

(** [struct.pack] of a little-endian integer of [n] bytes. *)
Fixpoint le_bytes (n : nat) (z : Z) : list Z :=
  match n with 0%nat => [] | S n => z mod 256 :: le_bytes n (z / 256) end.

(** [struct.unpack('<16I', ...)] *)
Fixpoint words (l : list Z) : list Z :=
  match l with
  | b0 :: b1 :: b2 :: b3 :: l => (b0 + 256 * (b1 + 256 * (b2 + 256 * b3))) :: words l
  | _ => []
  end.

(** [for chunk_off in range(0, len(msg), 64)] *)
Fixpoint blocks (fuel : nat) (msg : list Z) (h : Vars) : Vars :=
  match fuel with
  | 0%nat => h
  | S fuel => match msg with [] => h | _ => blocks fuel (drop 64 msg) (block h (words (take 64 msg))) end
  end.

Definition h_init : Vars := (0x67452301, 0xefcdab89, 0x98badcfe, 0x10325476).

Definition md4 (data : list Z) : option (list Z) :=
  let orig_len_bits := Z.land (8 * Z.of_nat (length data)) 0xFFFFFFFFFFFFFFFF in
  msg ← pad_zeros 64 (data ++ [0x80]);
  let msg := msg ++ le_bytes 8 orig_len_bits in
  let '(h0, h1, h2, h3) := blocks (length msg) msg h_init in
  Some (le_bytes 4 h0 ++ le_bytes 4 h1 ++ le_bytes 4 h2 ++ le_bytes 4 h3).

End MD4.
Close Scope Z_scope.
Import MD4.

Definition hex_digit (n : nat) : ascii := Ascii.ascii_of_nat (if n <? 10 then 48 + n else 55 + n).

(** [binascii.hexlify(b).decode().upper()] *)
Fixpoint hexlify_upper (l : list Z) : string :=
  match l with
  | [] => ""
  | b :: l => let n := Z.to_nat b in String (hex_digit (n / 16)) (String (hex_digit (n mod 16)) (hexlify_upper l))
  end.

(** [cleartext.encode('utf-16le')], a character being its code point below 256. *)
Fixpoint utf16le (s : string) : list Z :=
  match s with "" => [] | String c s => Z.of_nat (Ascii.nat_of_ascii c) :: 0%Z :: utf16le s end.

(** [nt_password]; [hashlib] is [hashlib.new('md4', ...)] where OpenSSL has it. *)
Definition nt_password (hashlib : option (list Z → list Z)) (cleartext : string) : option string :=
  let encoded := utf16le cleartext in
  nthash ← match hashlib with Some h => Some (h encoded) | None => md4 encoded end;
  Some (hexlify_upper nthash).

(** The test suite of the RFC. *)
Fixpoint bytes_of (s : string) : list Z :=
  match s with "" => [] | String c s => Z.of_nat (Ascii.nat_of_ascii c) :: bytes_of s end.

Example md4_empty : hexlify_upper <$> md4 [] = Some "31D6CFE0D16AE931B73C59D7E0C089C0".
Proof. by vm_compute. Qed.
Example md4_a : hexlify_upper <$> md4 (bytes_of "a") = Some "BDE52CB31DE33E46245E05FBDBD6FB24".
Proof. by vm_compute. Qed.
Example md4_long : hexlify_upper <$> md4 (bytes_of "12345678901234567890123456789012345678901234567890123456789012345678901234567890") =
  Some "E33B4DDC9C38F2199C3E7B164FCC0536".
Proof. by vm_compute. Qed.
Example nt_password_demo : nt_password None "password" = Some "8846F7EAEE8FB117AD06BDD830B7586C".
Proof. by vm_compute. Qed.
