(* ===== verification/NtHashFacts.v ===== *)
(** * MD4: the code computes RFC 1320 *)

From S2P Require Import Prelude NtHash.

Open Scope Z_scope.

(** ** The RFC *)

Module RFC1320.

Definition W : Z := 2 ^ 32.

(** [not(X)] and [X <<< s] on words of 32 bits *)
Definition wnot (x : Z) : Z := Z.lxor x (Z.ones 32).
Definition rotl (x s : Z) : Z := (x * 2 ^ s) mod W + x / 2 ^ (32 - s).

Definition F (x y z : Z) : Z := Z.lor (Z.land x y) (Z.land (wnot x) z).
Definition G (x y z : Z) : Z := Z.lor (Z.lor (Z.land x y) (Z.land x z)) (Z.land y z).
Definition H (x y z : Z) : Z := Z.lxor (Z.lxor x y) z.

Inductive Reg : Type := RA | RB | RC | RD.
#[global] Instance Reg_eq_dec : EqDecision Reg.
Proof. solve_decision. Defined.

Record Regs : Type := mkRegs { ra : Z; rb : Z; rc : Z; rd : Z }.
Definition get (m : Regs) (r : Reg) : Z := match r with RA => m.(ra) | RB => m.(rb) | RC => m.(rc) | RD => m.(rd) end.
Definition set (r : Reg) (v : Z) (m : Regs) : Regs :=
  match r with
  | RA => mkRegs v m.(rb) m.(rc) m.(rd) | RB => mkRegs m.(ra) v m.(rc) m.(rd)
  | RC => mkRegs m.(ra) m.(rb) v m.(rd) | RD => mkRegs m.(ra) m.(rb) m.(rc) v
  end.
Definition Order : Type := (Reg * Reg * Reg * Reg)%type.
Definition ABCD : Order := (RA, RB, RC, RD).
Definition DABC : Order := (RD, RA, RB, RC).
Definition CDAB : Order := (RC, RD, RA, RB).
Definition BCDA : Order := (RB, RC, RD, RA).

(** [[abcd k s]]: a = (a + fn(b,c,d) + X[k] + K) <<< s *)
Definition op (fn : Z → Z → Z → Z) (K : Z) (X : list Z) (m : Regs) (o : Order * nat * Z) : Regs :=
  let '((a, b, c, d), k, s) := o in
  set a (rotl ((get m a + fn (get m b) (get m c) (get m d) + nth k X 0 + K) mod W) s) m.

Definition round1 : list (Order * nat * Z) :=
  [(ABCD, 0%nat, 3); (DABC, 1%nat, 7); (CDAB, 2%nat, 11); (BCDA, 3%nat, 19);
   (ABCD, 4%nat, 3); (DABC, 5%nat, 7); (CDAB, 6%nat, 11); (BCDA, 7%nat, 19);
   (ABCD, 8%nat, 3); (DABC, 9%nat, 7); (CDAB, 10%nat, 11); (BCDA, 11%nat, 19);
   (ABCD, 12%nat, 3); (DABC, 13%nat, 7); (CDAB, 14%nat, 11); (BCDA, 15%nat, 19)].

Definition round2 : list (Order * nat * Z) :=
  [(ABCD, 0%nat, 3); (DABC, 4%nat, 5); (CDAB, 8%nat, 9); (BCDA, 12%nat, 13);
   (ABCD, 1%nat, 3); (DABC, 5%nat, 5); (CDAB, 9%nat, 9); (BCDA, 13%nat, 13);
   (ABCD, 2%nat, 3); (DABC, 6%nat, 5); (CDAB, 10%nat, 9); (BCDA, 14%nat, 13);
   (ABCD, 3%nat, 3); (DABC, 7%nat, 5); (CDAB, 11%nat, 9); (BCDA, 15%nat, 13)].

Definition round3 : list (Order * nat * Z) :=
  [(ABCD, 0%nat, 3); (DABC, 8%nat, 9); (CDAB, 4%nat, 11); (BCDA, 12%nat, 15);
   (ABCD, 2%nat, 3); (DABC, 10%nat, 9); (CDAB, 6%nat, 11); (BCDA, 14%nat, 15);
   (ABCD, 1%nat, 3); (DABC, 9%nat, 9); (CDAB, 5%nat, 11); (BCDA, 13%nat, 15);
   (ABCD, 3%nat, 3); (DABC, 11%nat, 9); (CDAB, 7%nat, 11); (BCDA, 15%nat, 15)].

(** Each register is added to its value before the block. *)
Definition process (m : Regs) (X : list Z) : Regs :=
  let m1 := foldl (op F 0 X) m round1 in
  let m2 := foldl (op G 0x5A827999 X) m1 round2 in
  let m3 := foldl (op H 0x6ED9EBA1 X) m2 round3 in
  mkRegs ((m3.(ra) + m.(ra)) mod W) ((m3.(rb) + m.(rb)) mod W) ((m3.(rc) + m.(rc)) mod W) ((m3.(rd) + m.(rd)) mod W).

Definition initial : Regs := mkRegs 0x67452301 0xefcdab89 0x98badcfe 0x10325476.

(** A one, zeros up to 448 modulo 512, and the length in bits as 64 bits. *)
Definition pad (data : list Z) : list Z :=
  data ++ [0x80] ++ replicate (Z.to_nat ((55 - Z.of_nat (length data)) mod 64)) 0 ++
  MD4.le_bytes 8 ((8 * Z.of_nat (length data)) mod 2 ^ 64).

(** The words M[0 .. N-1], sixteen at a time. *)
Definition digest (data : list Z) : list Z :=
  let M := MD4.words (pad data) in
  let m := foldl (λ m i, process m (take 16 (drop (16 * i) M))) initial (seq 0 (length M / 16)) in
  MD4.le_bytes 4 m.(ra) ++ MD4.le_bytes 4 m.(rb) ++ MD4.le_bytes 4 m.(rc) ++ MD4.le_bytes 4 m.(rd).

End RFC1320.

Import MD4 RFC1320.

(** ** Words *)

Definition word (x : Z) : Prop := 0 ≤ x < W.

Lemma mask_mod v : Z.land v mask = v mod W.
Proof. change mask with (Z.ones 32). by rewrite Z.land_ones. Qed.

Lemma word_mod v : word (v mod W).
Proof. unfold word, W. apply Z.mod_pos_bound. lia. Qed.

Lemma word_bit x n : word x → 32 ≤ n → Z.testbit x n = false.
Proof.
  intros [H0 H1] Hn. unfold W in H1. rewrite <-(Z.mod_small x (2 ^ 32)) by lia. by rewrite Z.mod_pow2_bits_high by lia.
Qed.

Lemma f_ref x y z : word z → f x y z = F x y z.
Proof.
  intros Hz. unfold f, F, wnot. f_equal. apply Z.bits_inj'. intros n Hn. change mask with (Z.ones 32).
  rewrite !Z.land_spec, Z.lnot_spec, Z.lxor_spec by done. destruct (decide (n < 32)).
  - rewrite Z.ones_spec_low by lia. by destruct (Z.testbit x n), (Z.testbit z n).
  - rewrite Z.ones_spec_high, (word_bit z) by (done || lia). by rewrite !andb_false_r.
Qed.

(** Two shifted parts that do not overlap. *)
Lemma lrot_ref v s : 0 < s < 32 → lrot v s = rotl (v mod W) s.
Proof.
  intros Hs. unfold lrot, rotl. rewrite (mask_mod v). pose proof (word_mod v) as Hw. revert Hw. generalize (v mod W). clear v. intros v Hv.
  change mask with (Z.ones 32). rewrite Z.land_lor_distr_l, Z.shiftl_mul_pow2, Z.shiftr_div_pow2 by lia.
  rewrite Z.land_ones by lia. fold W.
  assert (Hd : 0 ≤ v / 2 ^ (32 - s) < 2 ^ s).
  { split; [apply Z.div_pos; [apply Hv|apply Z.pow_pos_nonneg; lia]|]. apply Z.div_lt_upper_bound; [apply Z.pow_pos_nonneg; lia|].
    rewrite <-Z.pow_add_r by lia. replace (32 - s + s) with 32 by lia. apply Hv. }
  assert (Hs32 : 2 ^ s < W) by (unfold W; apply Z.pow_lt_mono_r; lia).
  rewrite (Z.land_ones (v / _)) by lia. rewrite (Z.mod_small (v / _)) by (unfold W in *; lia).
  rewrite <-Z.add_lor_land. cut (Z.land ((v * 2 ^ s) mod W) (v / 2 ^ (32 - s)) = 0); [intros ->; lia|].
  apply Z.bits_inj'. intros n Hn. rewrite Z.land_spec, Z.bits_0. unfold W. destruct (decide (n < s)) as [Hlt|Hge].
  - rewrite Z.mod_pow2_bits_low by lia. by rewrite Z.mul_pow2_bits_low.
  - apply andb_false_intro2. rewrite <-(Z.mod_small (v / 2 ^ (32 - s)) (2 ^ s)) by done. by rewrite Z.mod_pow2_bits_high by lia.
Qed.

Lemma word_rotl x s : word x → 0 < s < 32 → word (rotl x s).
Proof.
  intros Hx Hs. assert (E : rotl x s = lrot x s) by (rewrite lrot_ref, Z.mod_small by done; done).
  rewrite E. unfold lrot. rewrite (mask_mod (Z.lor _ _)). apply word_mod.
Qed.

(** ** Steps: the variables of the code are the registers, renamed *)

Definition read (m : Regs) (o : Order) : Vars := let '(a, b, c, d) := o in (get m a, get m b, get m c, get m d).
Definition renamed (o : Order) : Order := let '(a, b, c, d) := o in (d, a, b, c).
Definition distinct (o : Order) : Prop := let '(a, b, c, d) := o in NoDup [a; b; c; d].

Fixpoint attach (o : Order) (l : list (nat * Z)) : list (Order * nat * Z) :=
  match l with [] => [] | (k, s) :: l => (o, k, s) :: attach (renamed o) l end.

Definition all_words (m : Regs) : Prop := ∀ r, word (get m r).

Lemma get_set r r' v m : get (set r v m) r' = if decide (r' = r) then v else get m r'.
Proof. by destruct r, r'. Qed.

Lemma distinct_renamed o : distinct o → distinct (renamed o).
Proof. destruct o as [[[a b] c] d]. unfold distinct, renamed. rewrite !NoDup_cons. set_solver. Qed.

Lemma op_words fn K X m o : all_words m → 0 < o.2 < 32 → all_words (op fn K X m o).
Proof.
  destruct o as [[[[[a b] c] d] k] s]. intros Hm Hs r. unfold op. rewrite get_set. case_decide; [|apply Hm]. apply word_rotl; [apply word_mod|done].
Qed.

Lemma turn_op fn fn' K X m o k s :
  (∀ x y z, word z → fn x y z = fn' x y z) → all_words m → distinct o → 0 < s < 32 →
  turn fn K X (read m o) (k, s) = read (op fn' K X m (o, k, s)) (renamed o).
Proof.
  destruct o as [[[a b] c] d]. intros Hfn Hm Hd Hs. unfold turn, read, op, renamed. cbn [fst snd]. rewrite !get_set.
  rewrite lrot_ref by done. rewrite Hfn by done. unfold distinct in Hd. rewrite !NoDup_cons in Hd.
  rewrite (decide_True (P := a = a)) by done.
  rewrite !decide_False by set_solver. done.
Qed.

Lemma turns_ops fn fn' K X l : ∀ o m,
  (∀ x y z, word z → fn x y z = fn' x y z) → all_words m → distinct o → Forall (λ ks, 0 < ks.2 < 32) l →
  foldl (turn fn K X) (read m o) l = read (foldl (op fn' K X) m (attach o l)) (Nat.iter (length l) renamed o) ∧
  all_words (foldl (op fn' K X) m (attach o l)).
Proof.
  induction l as [|[k s] l IH]; intros o m Hfn Hm Ho Hl; [done|]. inversion Hl as [|? ? Hs Hl']; subst. simpl in Hs.
  cbn [foldl attach length]. rewrite (turn_op fn fn') by done. rewrite Nat.iter_succ_r.
  apply IH; [done|by apply op_words|by apply distinct_renamed|done].
Qed.

Definition words_of (m : Regs) : Vars := read m ABCD.

Lemma block_process m X : all_words m → block (words_of m) X = words_of (process m X) ∧ all_words (process m X).
Proof.
  intros Hm. assert (Hd : distinct ABCD) by (apply (bool_decide_unpack _); by vm_compute).
  assert (Hl : ∀ l : list (nat * Z), bool_decide (Forall (λ ks : nat * Z, 0 < ks.2 < 32) l) = true → Forall (λ ks : nat * Z, 0 < ks.2 < 32) l)
    by (intros l; apply bool_decide_eq_true).
  unfold block, words_of.
  destruct (turns_ops f F 0 X (zip r1_idx r1_sh) ABCD m) as [E1 W1]; [by intros; apply f_ref|done|done|by apply Hl|].
  rewrite E1. change (Nat.iter (length (zip r1_idx r1_sh)) renamed ABCD) with ABCD. change (attach ABCD (zip r1_idx r1_sh)) with round1 in *.
  destruct (turns_ops g G 0x5A827999 X (zip r2_idx r2_sh) ABCD (foldl (op F 0 X) m round1)) as [E2 W2]; [done|done|done|by apply Hl|].
  rewrite E2. change (Nat.iter (length (zip r2_idx r2_sh)) renamed ABCD) with ABCD. change (attach ABCD (zip r2_idx r2_sh)) with round2 in *.
  destruct (turns_ops hh H 0x6ED9EBA1 X (zip r3_idx r3_sh) ABCD (foldl (op G 0x5A827999 X) (foldl (op F 0 X) m round1) round2)) as [E3 W3];
    [done|done|done|by apply Hl|].
  rewrite E3. change (Nat.iter (length (zip r3_idx r3_sh)) renamed ABCD) with ABCD. change (attach ABCD (zip r3_idx r3_sh)) with round3 in *.
  split; [|intros []; apply word_mod]. unfold process, read, ABCD. cbn [get]. rewrite !mask_mod.
  cbn [ra rb rc rd]. by rewrite (Z.add_comm m.(ra)), (Z.add_comm m.(rb)), (Z.add_comm m.(rc)), (Z.add_comm m.(rd)).
Qed.

(** ** Blocks *)

Lemma foldl_ext_eq {A B} (f1 f2 : A → B → A) l : (∀ a b, f1 a b = f2 a b) → ∀ a, foldl f1 a l = foldl f2 a l.
Proof. intros Hf. induction l as [|b l IH]; intros a; [done|]. cbn [foldl]. rewrite Hf. apply IH. Qed.

Lemma words_drop n : ∀ l, words (drop (4 * n) l) = drop n (words l).
Proof.
  induction n as [|n IH]; intros l; [done|]. replace (4 * S n)%nat with (S (S (S (S (4 * n))))) by lia.
  destruct l as [|b0 [|b1 [|b2 [|b3 l]]]]; cbn [drop words]; rewrite ?drop_nil; done.
Qed.

Lemma words_take n : ∀ l, words (take (4 * n) l) = take n (words l).
Proof.
  induction n as [|n IH]; intros l; [done|]. replace (4 * S n)%nat with (S (S (S (S (4 * n))))) by lia.
  destruct l as [|b0 [|b1 [|b2 [|b3 l]]]]; cbn [take words]; try done. by rewrite IH.
Qed.

Lemma words_length n : ∀ l, length l = (4 * n)%nat → length (words l) = n.
Proof.
  induction n as [|n IH]; intros l Hl; [by destruct l|].
  destruct l as [|b0 [|b1 [|b2 [|b3 l]]]]; simpl in Hl; try lia. cbn [words length]. rewrite IH; lia.
Qed.

Lemma blocks_step fuel (l : list Z) h : l ≠ [] → blocks (S fuel) l h = blocks fuel (drop 64 l) (block h (words (take 64 l))).
Proof. by destruct l. Qed.

Lemma words_take64 l : words (take 64 l) = take 16 (words l).
Proof. apply (words_take 16). Qed.

Lemma words_drop64 l : words (drop 64 l) = drop 16 (words l).
Proof. apply (words_drop 16). Qed.

(** The first group of sixteen, and the others. *)
Lemma groups_step {R} (P : R → list Z → R) (M : list Z) m n :
  foldl (λ m i, P m (take 16 (drop (16 * i) M))) m (seq 0 (S n)) =
  foldl (λ m i, P m (take 16 (drop (16 * i) (drop 16 M)))) (P m (take 16 M)) (seq 0 n).
Proof.
  change (seq 0 (S n)) with (0%nat :: seq 1 n). cbn [foldl]. rewrite Nat.mul_0_r, drop_0, <-(fmap_S_seq 0 n), foldl_fmap.
  apply foldl_ext_eq. intros m' i. rewrite drop_drop. by replace (16 + 16 * i)%nat with (16 * S i)%nat by lia.
Qed.

Lemma blocks_process n : ∀ fuel msg m,
  all_words m → length msg = (64 * n)%nat → (n ≤ fuel)%nat →
  blocks fuel msg (words_of m) =
  words_of (foldl (λ m i, process m (take 16 (drop (16 * i) (words msg)))) m (seq 0 n)).
Proof.
  induction n as [|n IH]; intros fuel msg m Hm Hlen Hfuel.
  - destruct msg; [|simpl in Hlen; lia]. by destruct fuel.
  - destruct fuel as [|fuel]; [lia|]. rewrite blocks_step by (intros ->; simpl in Hlen; lia).
    destruct (block_process m (words (take 64 msg)) Hm) as [E Hp]. rewrite E. rewrite IH; [|done|rewrite length_drop; lia|lia].
    rewrite words_take64, words_drop64. by rewrite groups_step.
Qed.

(** ** Padding *)

Lemma pad_zeros_spec k : ∀ fuel msg,
  (k ≤ fuel)%nat → (∀ j, (j < k)%nat → ((length msg + j) mod 64 ≠ 56)%nat) → ((length msg + k) mod 64 = 56)%nat →
  pad_zeros fuel msg = Some (msg ++ replicate k 0).
Proof.
  induction k as [|k IH]; intros fuel msg Hf Hne He.
  - rewrite Nat.add_0_r in He. rewrite app_nil_r. destruct fuel; cbn [pad_zeros]; by rewrite He.
  - destruct fuel as [|fuel]; [lia|]. cbn [pad_zeros]. specialize (Hne 0%nat) as H0. rewrite Nat.add_0_r in H0.
    destruct (Nat.eqb_spec (length msg mod 64) 56) as [E|_]; [exfalso; apply H0; [lia|done]|].
    rewrite IH; [by rewrite <-app_assoc|lia| |].
    + intros j Hj. rewrite length_app. simpl length. replace (length msg + 1 + j)%nat with (length msg + S j)%nat by lia. apply Hne. lia.
    + rewrite length_app. simpl length. by replace (length msg + 1 + k)%nat with (length msg + S k)%nat by lia.
Qed.

Lemma pad_count (n : nat) :
  let k := Z.to_nat ((55 - Z.of_nat n) mod 64) in
  (k ≤ 64)%nat ∧ ((S n + k) mod 64 = 56)%nat ∧ ∀ j, (j < k)%nat → ((S n + j) mod 64 ≠ 56)%nat.
Proof.
  intros k. pose proof (Z.mod_pos_bound (55 - Z.of_nat n) 64 ltac:(lia)) as Hb.
  assert (Hk : Z.of_nat k = (55 - Z.of_nat n) mod 64) by (unfold k; rewrite Z2Nat.id; lia).
  assert (Hmod : ∀ j, Z.of_nat ((S n + j) mod 64) = (1 + Z.of_nat n + Z.of_nat j) mod 64).
  { intros j. rewrite Nat2Z.inj_mod. f_equal. lia. }
  pose proof (Z.div_mod (55 - Z.of_nat n) 64 ltac:(lia)) as Hq. split; [lia|]. split.
  - apply Nat2Z.inj. rewrite Hmod. symmetry. apply Z.mod_unique with (q := - ((55 - Z.of_nat n) / 64)); lia.
  - intros j Hj E. apply (f_equal Z.of_nat) in E. rewrite Hmod in E.
    pose proof (Z.div_mod (1 + Z.of_nat n + Z.of_nat j) 64 ltac:(lia)). lia.
Qed.

Lemma le_bytes_length n : ∀ z, length (le_bytes n z) = n.
Proof. induction n as [|n IH]; intros z; [done|]. cbn [le_bytes length]. by rewrite IH. Qed.

Lemma pad_length (data : list Z) : ∃ n, length (pad data) = (64 * n)%nat.
Proof.
  destruct (pad_count (length data)) as (_ & Hm & _). set (k := Z.to_nat _) in *.
  assert (E : length (pad data) = (S (length data) + k + 8)%nat).
  { unfold pad. rewrite !length_app, length_replicate, le_bytes_length. simpl length. unfold k. lia. }
  exists (S ((S (length data) + k) / 64)). rewrite E. pose proof (Nat.div_mod_eq (S (length data) + k) 64). lia.
Qed.

(** C14. The hash of a password for SMB is the one of RFC 1320: for bytes of any number,
    [_md4] ends and gives the digest of the RFC, computed on four registers of 32 bits
    with its table of 48 operations for each block of 512 bits, although the code
    computes with unbounded integers and renames its variables after every step; so
    [nt_password] gives the same whether OpenSSL still has MD4 or not. *)
Theorem md4_is_rfc1320 (data : list Z) (cleartext : string) (hashlib : list Z → list Z) :
  (∀ l, hashlib l = digest l) →
  md4 data = Some (digest data) ∧
  nt_password None cleartext = nt_password (Some hashlib) cleartext ∧
  nt_password None cleartext = Some (hexlify_upper (digest (utf16le cleartext))).
Proof.
  intros Hh. assert (E : ∀ l, md4 l = Some (digest l)).
  { clear data. intros data. unfold md4. destruct (pad_count (length data)) as (Hk & Hm & Hne).
    set (k := Z.to_nat _) in *. rewrite (pad_zeros_spec k); [|done| |]; [|rewrite length_app; simpl; by rewrite Nat.add_comm with (m := 1%nat)..].
    change 0xFFFFFFFFFFFFFFFF with (Z.ones 64). rewrite Z.land_ones by lia. cbn [mbind option_bind].
    replace (((data ++ [0x80]) ++ replicate k 0) ++ le_bytes 8 ((8 * Z.of_nat (length data)) mod 2 ^ 64)) with (pad data)
      by (unfold pad; by rewrite <-!app_assoc).
    destruct (pad_length data) as [n Hn]. change h_init with (words_of initial).
    rewrite (blocks_process n); [|by intros []|done|lia].
    unfold digest. rewrite (words_length (16 * n)) by lia. rewrite Nat.mul_comm, Nat.div_mul by done. done. }
  unfold nt_password. rewrite !E, Hh. done.
Qed.

(** "abc" of the RFC's test suite, and the hash of a well-known password. *)
Lemma md4_is_rfc1320_witness :
  hexlify_upper (digest (bytes_of "abc")) = "A448017AAF21D8525FC10AE87AA6729D" ∧
  md4 (bytes_of "abc") = Some (digest (bytes_of "abc")) ∧
  nt_password None "password" = nt_password (Some digest) "password" ∧
  nt_password None "password" = Some (hexlify_upper (digest (utf16le "password"))).
Proof. split; [by vm_compute|]. by apply (md4_is_rfc1320 (bytes_of "abc") "password" digest). Defined.
