(* ===== verification/AccountChecks.v ===== *)
(** * What names, commands and modes of accounts may be: plugins/account.py

    [pw_checkname], [validate_sudo_commands] and the mode of a home directory, with
    what they use of shlex and [int]. *)

From S2P Require Import Prelude PyValue Schema Filter PyPath.

Notation verrs := (list ValidationError).

(** ** Names *)

Fixpoint chars (s : string) : list ascii :=
  match s with "" => [] | String c s => c :: chars s end.

(** [s.find(c)]: the first position, or none. *)
Fixpoint find_char (c : ascii) (s : string) : option nat :=
  match s with
  | "" => None
  | String x s => if Ascii.eqb x c then Some 0 else S <$> find_char c s
  end.

Definition dquote : ascii := Ascii.ascii_of_nat 34.

(** The blank, the tab, the quote and the backslash among them. *)
Definition invalid_chars : list ascii :=
  chars " ,:+&#%^()!@~*?<>=|/" ++ [Ascii.ascii_of_nat 9; Ascii.ascii_of_nat 92; dquote].

(** [ord(char) & 0x80], a character being its code point below 256. *)
Definition eight_bit (c : ascii) : bool := Z.testbit (Z.of_nat (Ascii.nat_of_ascii c)) 7.

(** The invalid characters, each listed once when it is one of [invalid_chars]. *)
Definition invalids_of (name : string) : list ascii :=
  foldl (λ invalids c,
    if (bool_decide (c ∈ invalid_chars) && negb (bool_decide (c ∈ invalids))) || eight_bit c then invalids ++ [c] else invalids)
    [] (chars name).

Definition pw_checkname (verrors : verrs) (attribute name : string) : verrs :=
  let verrors := if PyStr.startswith name "-"
    then VErrors.add verrors attribute ("Name must begin with an alphanumeric character and not a " +:+ String dquote "-" +:+ String dquote ".") EINVAL
    else verrors in
  let verrors := match find_char "$" name with
    | Some i => if Nat.eqb (S i) (String.length name) then verrors
                else VErrors.add verrors attribute "The character $ is only allowed as the final character." EINVAL
    | None => verrors
    end in
  match invalids_of name with
  | [] => verrors
  | invalids => VErrors.add verrors attribute
      ("name contains invalid characters: " +:+ join ", " ((λ c, String c "") <$> invalids)) EINVAL
  end.

(** ** shlex.split *)

Module Shlex.

Inductive State : Type := Blank | Word | Quote (q : ascii) | Escape (back : State).

Definition squote : ascii := "'".
Definition backslash : ascii := Ascii.ascii_of_nat 92.
Definition is_white (c : ascii) : bool := bool_decide (Ascii.nat_of_ascii c ∈ [32; 9; 13; 10]).

Definition emit (token : string) (quoted : bool) (l : list string) : list string :=
  if PyStr.nonempty token || quoted then token :: l else l.

(** The words of [s] with the state of the lexer, the token so far and whether it
    was quoted. *)
Fixpoint lex (st : State) (token : string) (quoted : bool) (s : string) : outcome exn (list string) :=
  match s with
  | "" =>
      match st with
      | Quote _ => Raise (ValueError "No closing quotation")
      | Escape _ => Raise (ValueError "No escaped character")
      | Blank | Word => Ret (emit token quoted [])
      end
  | String c s =>
      match st with
      | Blank =>
          if is_white c then lex Blank token quoted s
          else if Ascii.eqb c backslash then lex (Escape Word) token quoted s
          else if Ascii.eqb c squote || Ascii.eqb c dquote then lex (Quote c) token quoted s
          else lex Word (token +:+ String c "") quoted s
      | Quote q =>
          if Ascii.eqb c q then lex Word token true s
          else if Ascii.eqb c backslash && Ascii.eqb q dquote then lex (Escape (Quote q)) token true s
          else lex (Quote q) (token +:+ String c "") true s
      | Escape back =>
          let keep := match back with Quote q => negb (Ascii.eqb c backslash) && negb (Ascii.eqb c q) | _ => false end in
          lex back ((if keep then token +:+ String backslash "" else token) +:+ String c "") quoted s
      | Word =>
          if is_white c then l ← lex Blank "" false s; Ret (emit token quoted l)
          else if Ascii.eqb c squote || Ascii.eqb c dquote then lex (Quote c) token quoted s
          else if Ascii.eqb c backslash then lex (Escape Word) token quoted s
          else lex Word (token +:+ String c "") quoted s
      end
  end.

Definition split (s : string) : outcome exn (list string) := lex Blank "" false s.

End Shlex.

(** ** Commands of sudo *)

Section sudo.
(** [glob.glob], and [os.path.isfile] with [os.access(item, os.X_OK)] *)
Context (glob : string → list string) (executable_file : string → bool).

Definition check_command (command : string) : outcome exn unit :=
  words ← Shlex.split command;
  match words with
  | [] => Raise IndexError
  | executable :: _ =>
      if negb (PyStr.startswith executable "/") then Raise (ValueError "Executable must be an absolute path")
      else if negb (String.eqb (PosixPath.rstrip_slash (PosixPath.normpath executable)) (PosixPath.rstrip_slash executable))
      then Raise (ValueError "Executable path must be normalized")
      else match glob executable with
           | [] => Raise (ValueError ("No paths matching " +:+ repr_str executable +:+ " exist"))
           | paths =>
               if PyStr.endswith executable "/" || existsb executable_file paths then Ret tt
               else Raise (ValueError ("None of the paths matching " +:+ repr_str executable +:+ " is executable"))
           end
  end.

(** The loop of [validate_sudo_commands]: only a [ValueError] is a validation error. *)
Fixpoint check_commands (i : nat) (commands : list string) (verrors : verrs) : outcome exn verrs :=
  match commands with
  | [] => Ret verrors
  | command :: commands =>
      match check_command command with
      | Ret _ => check_commands (S i) commands verrors
      | Raise (ValueError msg) => check_commands (S i) commands (VErrors.add verrors (pretty i) msg EINVAL)
      | Raise e => Raise e
      end
  end.

Definition validate_sudo_commands (commands : list string) : outcome exn verrs := check_commands 0 commands [].
End sudo.

(** ** Modes *)

Definition oct_digit (c : ascii) : option Z :=
  let n := Ascii.nat_of_ascii c in if ((48 <=? n) && (n <=? 55))%nat then Some (Z.of_nat n - 48)%Z else None.

Fixpoint oct_digits (need : bool) (acc : Z) (s : string) : option Z :=
  match s with
  | "" => if need then None else Some acc
  | String c s' =>
      match oct_digit c with
      | Some d => oct_digits false (8 * acc + d)%Z s'
      | None => if Ascii.eqb c "_" then if need then None else oct_digits true acc s' else None
      end
  end.

(** After the prefix 0o an underscore may come. *)
Definition oct_body (s : string) : option Z :=
  match s with
  | String "0" (String ("o" | "O") (String "_" s')) => oct_digits true 0 s'
  | String "0" (String ("o" | "O") s') => oct_digits true 0 s'
  | _ => oct_digits true 0 s
  end.

(** [int(s, 8)] *)
Definition int8 (s : string) : option Z :=
  match PyStr.strip s with
  | String "-" s' => Z.opp <$> oct_body s'
  | String "+" s' => oct_body s'
  | s' => oct_body s'
  end.

(** [home_mode] *)
Definition check_home_mode (field : string) (v : pyval) (verrors : verrs) : verrs :=
  let invalid := VErrors.add verrors field "Please provide a valid value for home_mode attribute" EINVAL in
  match v with
  | PStr s =>
      match int8 s with
      | Some o =>
          if Z.eqb (Z.land o 511) o then
            let verrors := if Z.testbit o 8 then verrors else VErrors.add verrors field "Home directory must be readable by User." EINVAL in
            if Z.testbit o 6 then verrors else VErrors.add verrors field "Home directory must be executable by User." EINVAL
          else invalid
      | None => invalid
      end
  | _ => invalid
  end.

(** [f'{mode:03o}'] *)
Fixpoint oct_text (fuel : nat) (z : Z) (acc : string) : string :=
  match fuel with
  | 0 => acc
  | S fuel =>
      let acc := String (Ascii.ascii_of_nat (48 + Z.to_nat (z mod 8))) acc in
      if Z.ltb z 8 then acc else oct_text fuel (z / 8) acc
  end.

Definition octal3 (z : Z) : string :=
  let t := oct_text 64 z "" in
  match String.length t with 0 => "000" | 1 => "00" +:+ t | 2 => "0" +:+ t | _ => t end.

Example shlex_demo : Shlex.split ("/bin/ls  -l 'a b'\ c " +:+ String dquote ("x\y" +:+ String dquote "")) = Ret ["/bin/ls"; "-l"; "a b c"; "x\y"].
Proof. by vm_compute. Qed.
Example mode_demo : int8 "755" = Some 493%Z ∧ int8 "0o7_00" = Some 448%Z ∧ int8 "8" = None ∧ octal3 493 = "755" ∧ octal3 7 = "007".
Proof. by vm_compute. Qed.
