(* ===== verification/Account.v ===== *)
(** * Users and groups: plugins/account.py

    Three tables (users, groups, memberships) kept consistent by the foreign keys of
    SQLite, and the row of the SMB service that names the guest account.  The file
    system, the other services and crypt(3) are the host. *)

From S2P Require Import Prelude PyValue Schema Filter Rows NtHash AccountChecks.

Definition EEXIST : Z := 17.
Definition EACCES : Z := 13.

(** ** State *)

Record Accounts (O : Type) : Type := mkAccounts {
  users : list pydict;
  groups : list pydict;
  members : list pydict;
  cifs : list pydict;
  os : O;
}.
Arguments mkAccounts {O}. Arguments users {O}. Arguments groups {O}. Arguments members {O}. Arguments cifs {O}. Arguments os {O}.

(** What the service asks of the rest of the system. *)
Class Host (O : Type) : Type := {
  (** a call of another service, with its job; and a command *)
  call : string → list pyval → O → outcome exn pyval * O;
  makedirs : string → option Z → O → outcome exn unit * O;
  mkdir : string → Z → O → outcome exn unit * O;
  rmtree : string → O → outcome exn unit * O;
  unlink : string → O → outcome exn unit * O;
  copyfile : string → string → O → outcome exn unit * O;
  read_text : string → O → outcome exn string;
  write_text : string → string → O → outcome exn unit * O;
  listdir : string → O → outcome exn (list string);
  st_mode : string → O → outcome exn Z;
  path_exists : string → O → bool;
  path_isdir : string → O → bool;
  path_isfile : string → O → bool;
  resolved_parents : string → O → nat;
  glob : string → O → list string;
  executable_file : string → O → bool;
  (** the lines of /etc/shells *)
  etc_shells : O → outcome exn (list string);
  (** the classes of exceptions that are caught, with the text of an [OSError] *)
  is_file_exists : exn → bool;
  is_permission_error : exn → bool;
  os_error : exn → option string;
}.

(** The clock, the salt that is drawn, crypt(3), and MD4 of OpenSSL. *)
Record Draw : Type := mkDraw {
  now : Z;
  salt : string;
  crypt : string → string → option string;
  hashlib : option (list Z → list Z);
}.

Definition SKEL_PATH : string := "/usr/share/skel/".

(** The defaults of the columns; a text column that may not be null is empty. *)
Definition user_defaults : pydict :=
  [("username", PStr "User &"); ("unixhash", PStr "*"); ("smbhash", PStr "*"); ("home", PStr "/nonexistent"); ("shell", PStr "/bin/csh");
   ("full_name", PStr ""); ("builtin", PBool false); ("smb", PBool true); ("password_disabled", PBool false); ("locked", PBool false);
   ("sudo", PBool false)].
Definition group_defaults : pydict := [("group", PStr ""); ("builtin", PBool false); ("sudo", PBool false); ("smb", PBool true)].

Section service.
Context {O : Type} `{host : !Host O}.
Notation MN := (M (Accounts O) exn).
Implicit Types (s : Accounts O) (data : pydict).

(** Primary keys are unique, foreign keys refer to rows. *)
Definition sound s : bool :=
  forallb keyed [s.(users); s.(groups); s.(members)] &&
  forallb (refers "group" s.(groups)) s.(users) &&
  forallb (refers "group" s.(groups)) s.(members) &&
  forallb (refers "user" s.(users)) s.(members).

(** [ondelete='CASCADE']: memberships go with their user and their group. *)
Definition cascade s : Accounts O :=
  mkAccounts s.(users) s.(groups)
    (List.filter (λ r, refers "group" s.(groups) r && refers "user" s.(users) r) s.(members)) s.(cifs) s.(os).

Inductive TableName : Type := TUsers | TGroups | TMembers.

Definition get_table (n : TableName) s : list pydict :=
  match n with TUsers => s.(users) | TGroups => s.(groups) | TMembers => s.(members) end.

Definition set_table (n : TableName) (l : list pydict) s : Accounts O :=
  match n with
  | TUsers => mkAccounts l s.(groups) s.(members) s.(cifs) s.(os)
  | TGroups => mkAccounts s.(users) l s.(members) s.(cifs) s.(os)
  | TMembers => mkAccounts s.(users) s.(groups) l s.(cifs) s.(os)
  end.

Definition IntegrityError : exn := OtherError "IntegrityError".

Definition write (f : Accounts O → Accounts O) : MN unit := λ s,
  if sound (f s) then (Ret tt, f s) else (Raise IntegrityError, s).

Definition defaults_of (n : TableName) : pydict :=
  match n with TUsers => user_defaults | TGroups => group_defaults | TMembers => [] end.

(** [datastore.insert] *)
Definition insert (n : TableName) (data : pydict) : MN pyval :=
  s ← get_state;
  let l := get_table n s in
  let id := PInt (1 + max_id l) in
  write (set_table n (l ++ [dset (with_defaults (defaults_of n) data) "id" id]));;
  mret id.

(** [datastore.delete] and [datastore.update] of the row of a primary key *)
Definition delete_row (n : TableName) (id : pyval) : MN unit :=
  write (λ s, cascade (set_table n (List.filter (λ r, negb (eq_col "id" id r)) (get_table n s)) s)).

Definition update_row (n : TableName) (id : pyval) (data : pydict) : MN unit :=
  s ← get_state;
  match List.filter (eq_col "id" id) (get_table n s) with
  | [_] => write (λ s, set_table n ((λ r, if eq_col "id" id r then dupdate r data else r) <$> get_table n s) s)
  | l => raise (RuntimeError (pretty (length l) +:+ " found, expecting one"))
  end.

(** *** The host *)

Definition host_op {A} (f : O → outcome exn A * O) : MN A := λ s,
  let '(r, o) := f s.(os) in (r, mkAccounts s.(users) s.(groups) s.(members) s.(cifs) o).
Definition host_get {A} (f : O → A) : MN A := λ s, (Ret (f s.(os)), s).
Definition host_read {A} (f : O → outcome exn A) : MN A := λ s, (f s.(os), s).
Definition lift {A} (o : outcome exn A) : MN A := λ s, (o, s).
Definition middleware_call (method : string) (args : list pyval) : MN pyval := host_op (call method args).
Definition get_item (d : pydict) (k : string) : MN pyval := lift (item (PDict d) k).

(** The outcome of a computation, to look at it. *)
Definition attempt {A} (m : MN A) : MN (outcome exn A) := λ s, let '(r, s') := m s in (Ret r, s').

(** *** Queries *)

(** The column of a foreign key is the row it refers to, under the prefix of its table. *)
Definition expand_group s (id : pyval) : pyval :=
  match List.filter (eq_col "id" id) s.(groups) with
  | g :: _ => PDict ((λ kv, if String.eqb kv.1 "id" then kv else ("bsdgrp_" +:+ kv.1, kv.2)) <$> g)
  | [] => PNone
  end.

(** [user_extend_context] for one user, and [_read_authorized_keys] *)
Definition memberships s (user_id : pyval) : list pyval := (λ m, col m "group") <$> List.filter (eq_col "user" user_id) s.(members).

Definition read_authorized_keys (homedir : string) (o : O) : outcome exn pyval :=
  match read_text (homedir +:+ "/.ssh/authorized_keys") o with
  | Ret t => Ret (PStr t)
  | Raise FileNotFoundError => Ret PNone
  | Raise e => Raise e
  end.

(** [user_extend], and what [query] adds *)
Definition user_extend s (r : pydict) : outcome exn pydict :=
  let user := dset r "group" (expand_group s (col r "group")) in
  let user := if py_eq (col user "email") (PStr "") then dset user "email" PNone else user in
  let user := dset user "groups" (PList (memberships s (col r "id"))) in
  keys ← read_authorized_keys (py_str (col r "home")) s.(os);
  Ret (dupdate user [("sshpubkey", keys); ("local", PBool true); ("id_type_both", PBool false)]).

Definition query_users : MN (list pydict) := λ s, (mapO (user_extend s) s.(users), s).

(** [group_extend_context] for one group: its members, then the users it is the
    primary group of. *)
Definition group_users s (group_id : pyval) : list pyval :=
  ((λ m, col m "user") <$> List.filter (eq_col "group" group_id) s.(members)) ++
  ids (List.filter (eq_col "group" group_id) s.(users)).

Definition group_extend s (r : pydict) : pydict :=
  dupdate r [("users", PList (group_users s (col r "id"))); ("local", PBool true); ("id_type_both", PBool false)].

Definition query_groups s : list pydict := group_extend s <$> s.(groups).

Definition does_not_exist (name : string) (id : pyval) : exn :=
  ValidationErrorExn (mkVE "None" (name +:+ " " +:+ py_str id +:+ " does not exist") ENOENT).

Definition get_user (pk : pyval) : MN pydict :=
  l ← query_users;
  match List.filter (eq_col "id" pk) l with
  | u :: _ => mret u
  | [] => raise (does_not_exist "User" pk)
  end.

Definition get_group (pk : pyval) : MN pydict :=
  s ← get_state;
  match List.filter (eq_col "id" pk) (query_groups s) with
  | g :: _ => mret g
  | [] => raise (does_not_exist "Group" pk)
  end.

(** [user_compress], [group_compress] *)
Definition compress (d : pydict) : pydict := ddel (ddel d "local") "id_type_both".

(** *** Free ids *)

(** The loop of [get_next_uid] and [get_next_gid] over the ids in ascending order. *)
Fixpoint next_id (last : Z) (l : list Z) : Z :=
  match l with
  | [] => last + 1
  | i :: l => if Z.ltb 1 (i - last) then last + 1 else next_id (if Z.ltb last i then i else last) l
  end.

Definition int_col (k : string) (r : pydict) : Z := match col r k with PInt z => z | _ => 0%Z end.

Definition taken_ids (k : string) (l : list pydict) : list Z :=
  sorted_by Z.leb (int_col k <$> List.filter (eq_col "builtin" (PBool false)) l).

Definition get_next_uid s : Z := next_id 999 (taken_ids "uid" s.(users)).
Definition get_next_gid s : Z := next_id 999 (taken_ids "gid" s.(groups)).

(** *** Passwords *)

Definition hex_char (d : Z) : ascii := Ascii.ascii_of_nat (if Z.ltb d 10 then 48 + Z.to_nat d else 55 + Z.to_nat d).
Fixpoint hex_text (fuel : nat) (z : Z) (acc : string) : string :=
  match fuel with
  | 0 => acc
  | S fuel => let acc := String (hex_char (z mod 16)) acc in if Z.ltb z 16 then acc else hex_text fuel (z / 16) acc
  end.

(** [crypted_password] *)
Definition crypted_password (d : Draw) (cleartext : string) : outcome exn string :=
  match d.(crypt) cleartext ("$6$" +:+ d.(salt)) with
  | Some h => Ret h
  | None => Raise (OtherError "crypt() returned NULL")
  end.

Definition Xs : string := "XXXXXXXXXXXXXXXXXXXXXXXXXXXXXXXX".

(** [__set_password] *)
Definition set_password (d : Draw) (data : pydict) : outcome exn pydict :=
  match dget data "password" with
  | None => Ret data
  | Some password =>
      let data := ddel data "password" in
      if truthy password then
        h ← crypted_password d (py_str password);
        username ← item (PDict data) "username";
        uid ← item (PDict data) "uid";
        nt ← match nt_password d.(hashlib) (py_str password) with
             | Some nt => Ret nt
             | None => Raise (RuntimeError "MD4")
             end;
        Ret (dupdate data
          [("unixhash", PStr h);
           ("smbhash", PStr (py_str username +:+ ":" +:+ py_str uid +:+ ":" +:+ Xs +:+ ":" +:+ nt +:+ ":[U         ]:LCT-" +:+
              hex_text 64 d.(now) "" +:+ ":"))])
      else Ret (dupdate data [("unixhash", PStr "*"); ("smbhash", PStr "*")])
  end.

(** *** Validation of a user *)

Definition excluding (pk : pyval) (l : list pydict) : list pydict :=
  if truthy pk then List.filter (λ r, negb (eq_col "id" pk r)) l else l.

Definition quoted (t : string) : string := String dquote (t +:+ String dquote "").

(** [casefold] is that of the letters of ASCII. *)
Definition check_username (schema : string) data (pk : pyval) s (verrors : verrs) : verrs :=
  match dget data "username" with
  | None => verrors
  | Some v =>
      let username := py_str v in
      let others := excluding pk s.(users) in
      let verrors := pw_checkname verrors (schema +:+ ".username") username in
      let verrors := if existsb (eq_col "username" v) others
        then VErrors.add verrors (schema +:+ ".username") ("The username " +:+ quoted username +:+ " already exists.") EEXIST else verrors in
      if truthy (col data "smb") &&
         existsb (λ u, eq_col "smb" (PBool true) u && String.eqb (PyStr.lower username) (PyStr.lower (py_str (col u "username")))) others
      then VErrors.add verrors (schema +:+ ".smb") ("Username " +:+ quoted username +:+
             " conflicts with existing SMB user. Note that SMB usernames are case-insensitive.") EEXIST
      else verrors
  end.

Definition check_password_given (schema : string) data (pk : pyval) (verrors : verrs) : verrs :=
  let password := truthy (col data "password") in
  let disabled := truthy (col data "password_disabled") in
  if negb (truthy pk) && negb password && negb disabled
  then VErrors.add verrors (schema +:+ ".password") "Password is required" EINVAL
  else if disabled && password
  then VErrors.add verrors (schema +:+ ".password_disabled")
         ("Leave " +:+ quoted "Password" +:+ " blank when " +:+ quoted "Disable password login" +:+ " is checked.") EINVAL
  else verrors.

(** Whether the path lies in a pool: the pool's own path or below it. *)
Definition in_pool (home : string) (pool : pyval) : outcome exn bool :=
  path ← item pool "path";
  Ret (String.eqb home (py_str path) || PyStr.startswith home (py_str path +:+ "/")).

(** [home]; [true] when the validation ends there. *)
Definition check_home (schema home : string) (verrors : verrs) : MN (verrs * bool) :=
  let field := schema +:+ ".home" in
  let title := quoted "Home Directory" in
  if negb (PyStr.startswith home "/") then mret (VErrors.add verrors field (title +:+ " must be an absolute path.") EINVAL, true)
  else
    file ← host_get (path_isfile home);
    if (file : bool) then mret (VErrors.add verrors field (title +:+ " cannot be a file.") EINVAL, true)
    else
      let verrors := if PyStr.contains home ":" then VErrors.add verrors field (title +:+ " cannot contain colons (:).") EINVAL else verrors in
      if String.eqb home "/nonexistent" then mret (verrors, false)
      else if negb (PyStr.startswith home "/mnt/")
      then mret (VErrors.add verrors field (title +:+ " must begin with /mnt/ or set to /nonexistent.") EINVAL, false)
      else
        pools ← middleware_call "pool.query" [];
        pools ← lift (py_iter pools);
        inside ← lift (anyO (in_pool home) pools);
        if negb inside
        then mret (VErrors.add verrors field ("The path for the home directory " +:+ quoted ("(" +:+ home +:+ ")") +:+ " must include a volume or dataset.") EINVAL, false)
        else
          locked ← middleware_call "pool.dataset.path_in_locked_datasets" [PStr home];
          if truthy locked
          then mret (VErrors.add verrors field ("Path component for " +:+ title +:+ " is currently encrypted and locked") EINVAL, false)
          else
            parents ← host_get (resolved_parents home);
            mret (if Nat.eqb parents 2
                  then VErrors.add verrors field ("The specified path is a ZFS pool mountpoint " +:+ quoted ("(" +:+ home +:+ ")") +:+ " ") EINVAL
                  else verrors, false).

(** [shell_choices]: the keys *)
Definition shell_choices (user_id : pyval) : MN (list string) :=
  root ← (if truthy user_id then u ← get_user user_id; mret (py_eq (col u "username") (PStr "root")) else mret false);
  lines ← host_read etc_shells;
  let shells := PyStr.rstrip <$> List.filter (λ l, PyStr.startswith l "/") lines in
  mret (List.filter (λ shell, negb (PyStr.contains shell "netcli") || root) (shells ++ ["/usr/sbin/nologin"])).

Definition check_full_name (schema : string) data (verrors : verrs) : verrs :=
  match dget data "full_name" with
  | None => verrors
  | Some v =>
      let n := py_str v in
      let verrors := if PyStr.contains n ":"
        then VErrors.add verrors (schema +:+ ".full_name") ("The " +:+ quoted ":" +:+ " character is not allowed in a " +:+ quoted "Full Name" +:+ ".") EINVAL
        else verrors in
      if PyStr.contains n (String (Ascii.ascii_of_nat 10) "")
      then VErrors.add verrors (schema +:+ ".full_name") ("The " +:+ quoted "\n" +:+ " character is not allowed in a " +:+ quoted "Full Name" +:+ ".") EINVAL
      else verrors
  end.

Definition check_sudo (schema : string) data (verrors : verrs) : MN verrs :=
  match dget data "sudo_commands" with
  | None => mret verrors
  | Some v =>
      commands ← lift (py_iter v);
      g ← host_get (λ o p, glob p o);
      x ← host_get (λ o p, executable_file p o);
      child ← lift (validate_sudo_commands g x (py_str <$> commands));
      mret (VErrors.add_child verrors (schema +:+ ".sudo_commands") child)
  end.

(** What [__common_validation] checks after the home directory. *)
Definition user_validation_rest (schema : string) data (pk : pyval) (verrors : verrs) : MN verrs :=
  let verrors := match dget data "home_mode" with Some v => check_home_mode (schema +:+ ".home_mode") v verrors | None => verrors end in
  let verrors := match dget data "groups" with
    | Some (PList l) => if (64 <? length l)%nat
        then VErrors.add verrors (schema +:+ ".groups") "A user cannot belong to more than 64 auxiliary groups." EINVAL else verrors
    | _ => verrors
    end in
  let verrors := check_full_name schema data verrors in
  verrors ← match dget data "shell" with
            | Some v => choices ← shell_choices pk;
                        mret (if bool_decide (py_str v ∈ choices) then verrors
                              else VErrors.add verrors (schema +:+ ".shell") "Please select a valid shell." EINVAL)
            | None => mret verrors
            end;
  check_sudo schema data verrors.

(** [UserService.__common_validation] *)
Definition user_validation (schema : string) data (pk : pyval) (verrors : verrs) : MN verrs :=
  s ← get_state;
  let verrors := check_username schema data pk s verrors in
  let verrors := check_password_given schema data pk verrors in
  '(verrors, stop) ← match dget data "home" with
                     | Some v => check_home schema (py_str v) verrors
                     | None => mret (verrors, false)
                     end;
  if (stop : bool) then mret verrors else user_validation_rest schema data pk verrors.

(** *** Memberships and keys *)

(** [set(l)], in the order of the list *)
Fixpoint distinct_values (l : list pyval) : list pyval :=
  match l with
  | [] => []
  | v :: l => v :: List.filter (λ w, negb (py_eq v w)) (distinct_values l)
  end.

Definition among (v : pyval) (l : list pyval) : bool := existsb (py_eq v) l.

(** [__set_groups] *)
Definition set_groups (pk : pyval) (gs : list pyval) : MN unit :=
  let gs := distinct_values gs in
  s ← get_state;
  let gms := List.filter (eq_col "user" pk) s.(members) in
  forM (List.filter (λ gm, negb (among (col gm "id") gs)) gms) (λ gm, delete_row TMembers (col gm "id"));;
  let existing_ids := List.filter (λ id, among id gs) (ids gms) in
  forM (List.filter (λ g, negb (among g existing_ids)) gs) (λ g,
    s ← get_state;
    match List.filter (eq_col "id" g) s.(groups) with
    | [] => raise (CallError ("Group " +:+ py_str g +:+ " not found") ENOENT PNone)
    | _ => insert TMembers [("group", g); ("user", pk)];; mret tt
    end).

Definition suppress {A} (p : exn → bool) (d : A) (m : MN A) : MN A := try_except m (λ e, if p e then mret d else raise e).

Definition setperm (args : pydict) : MN unit := middleware_call "filesystem.setperm" [PDict args];; mret tt.
Definition chown (path : string) (uid gid : pyval) : MN unit :=
  middleware_call "filesystem.chown" [PDict [("path", PStr path); ("uid", uid); ("gid", gid)]];; mret tt.

(** [update_sshpubkey] *)
Definition update_sshpubkey (homedir : string) (user : pydict) (group : pyval) : MN unit :=
  match dget user "sshpubkey" with
  | None => mret tt
  | Some v =>
      dir ← host_get (path_isdir homedir);
      if negb dir then mret tt
      else
        let sshpath := homedir +:+ "/.ssh" in
        let keysfile := sshpath +:+ "/authorized_keys" in
        let pubkey := PyStr.strip (if truthy v then py_str v else "") in
        if String.eqb pubkey "" then suppress (λ e, match os_error e with Some _ => true | None => false end) tt (host_op (unlink keysfile))
        else
          oldpubkey ← suppress (λ _, true) "" (t ← host_read (read_text keysfile); mret (PyStr.strip t));
          if String.eqb pubkey oldpubkey then mret tt
          else
            dir ← host_get (path_isdir sshpath);
            (if (dir : bool) then mret tt else host_op (mkdir sshpath 448));;
            dir ← host_get (path_isdir sshpath);
            if negb dir then raise (CallError (sshpath +:+ " is not a directory") EFAULT PNone)
            else
              gid ← suppress (λ _, true) (PInt (-1))
                      (g ← middleware_call "group.get_group_obj" [PDict [("groupname", group)]]; lift (item g "gr_gid"));
              uid ← get_item user "uid";
              setperm [("path", PStr sshpath); ("mode", PStr "700"); ("uid", uid); ("gid", gid);
                       ("options", PDict [("recursive", PBool true); ("stripacl", PBool true)])];;
              host_op (write_text keysfile (pubkey +:+ String (Ascii.ascii_of_nat 10) ""));;
              setperm [("path", PStr keysfile); ("mode", PStr "600")]
  end.

(** [except PermissionError as e] around it *)
Definition update_keys (homedir : string) (user : pydict) (group : pyval) : MN unit :=
  try_except (update_sshpubkey homedir user group) (λ e,
    if is_permission_error e
    then raise (CallError ("Failed to update authorized keys: " +:+ from_option (λ t, t) "" (os_error e)) EFAULT PNone)
    else raise e).

(** [sync_smb_username_map] *)
Definition sync_smb_username_map (before after : pyval) : MN unit :=
  if Bool.eqb (truthy before) (truthy after) then mret tt
  else
    started ← middleware_call "service.started" [PStr "cifs"];
    if truthy started then middleware_call "service.reload" [PStr "cifs"];; mret tt else mret tt.

(** *** Groups *)

Definition upper_char (c : ascii) : ascii :=
  let n := Ascii.nat_of_ascii c in if ((97 <=? n) && (n <=? 122))%nat then Ascii.ascii_of_nat (n - 32) else c.

(** [SMBBuiltin] of smb.py *)
Definition smb_builtin : list string := ["ADMINISTRATORS"; "GUESTS"; "USERS"].

Definition check_group_name (schema : string) data (pk : pyval) s (verrors : verrs) : verrs :=
  match dget data "name" with
  | None => verrors
  | Some v =>
      let name := py_str v in
      let field := schema +:+ ".name" in
      let others := excluding pk s.(groups) in
      let verrors :=
        if truthy (col data "smb") then
          let verrors := if bool_decide (PyStr.map_chars upper_char name ∈ smb_builtin)
            then VErrors.add verrors field ("Group name " +:+ quoted name +:+
                   " conflicts with existing SMB Builtin entry. SMB group mapping is not permitted for this group.") EEXIST
            else verrors in
          if existsb (λ g, eq_col "smb" (PBool true) g && String.eqb (PyStr.lower name) (PyStr.lower (py_str (col g "group")))) others
          then VErrors.add verrors field ("Group name " +:+ quoted name +:+
                 " conflicts with existing groupmap entry. SMB group mapping is not permitted for this group. Note that SMB group names are case-insensitive.") EEXIST
          else verrors
        else verrors in
      let verrors := if existsb (eq_col "group" v) others
        then VErrors.add verrors field ("A Group with the name " +:+ quoted name +:+ " already exists.") EEXIST else verrors in
      pw_checkname verrors field name
  end.

(** [GroupService.__common_validation]: the errors, and [data] without the option. *)
Definition group_validation (schema : string) data (pk : pyval) (verrors : verrs) : MN (verrs * pydict) :=
  s ← get_state;
  let verrors := check_group_name schema data pk s verrors in
  let allow_duplicate_gid := truthy (col data "allow_duplicate_gid") in
  let data := ddel data "allow_duplicate_gid" in
  let verrors := if truthy (col data "gid") && negb allow_duplicate_gid && existsb (eq_col "gid" (col data "gid")) (excluding pk s.(groups))
    then VErrors.add verrors (schema +:+ ".gid") ("The Group ID " +:+ quoted (py_str (col data "gid")) +:+ " already exists.") EEXIST
    else verrors in
  verrors ← match dget data "users" with
            | None => mret verrors
            | Some v =>
                l ← lift (py_iter v);
                let notfound := List.filter (λ u, negb (among u (ids s.(users)))) (distinct_values l) in
                mret (match notfound with
                      | [] => verrors
                      | _ => VErrors.add verrors (schema +:+ ".users") ("Following users do not exist: " +:+ join ", " (py_str <$> notfound)) EINVAL
                      end)
            end;
  verrors ← check_sudo schema data verrors;
  mret (verrors, data).

Definition service_reload (name : string) : MN unit := middleware_call "service.reload" [PStr name];; mret tt.
Definition synchronize_group_mappings : MN unit := middleware_call "smb.synchronize_group_mappings" [];; mret tt.

(** [create_internal] *)
Definition create_internal data (reload_users : bool) : MN pyval :=
  '(verrors, data) ← group_validation "group_create" data PNone [];
  lift (VErrors.check verrors);;
  s ← get_state;
  let data := match col data "gid" with PNone => dset data "gid" (PInt (get_next_gid s)) | _ => data end in
  name ← get_item data "name";
  let group := dset (ddel data "name") "group" name in
  us ← (match dget group "users" with Some v => lift (py_iter v) | None => mret [] end);
  pk ← insert TGroups (compress (ddel group "users"));
  forM us (λ u, insert TMembers [("group", pk); ("user", u)];; mret tt);;
  (if reload_users then service_reload "user" else mret tt);;
  smb ← get_item data "smb";
  (if truthy smb then synchronize_group_mappings else mret tt);;
  mret pk.

(** The members of a group as it is, and as they should be. *)
Definition set_users (pk : pyval) (us : list pyval) : MN unit :=
  s ← get_state;
  let rows := List.filter (eq_col "group" pk) s.(members) in
  let existing := distinct_values ((λ r, col r "user") <$> rows) in
  forM (List.filter (λ u, negb (among u us)) existing) (λ u,
    match last (List.filter (eq_col "user" u) rows) with
    | Some r => delete_row TMembers (col r "id")
    | None => mret tt
    end);;
  forM (List.filter (λ u, negb (among u existing)) (distinct_values us)) (λ u,
    insert TMembers [("group", pk); ("user", u)];; mret tt).

(** [GroupService.do_update] *)
Definition group_update (pk : pyval) data : MN pyval :=
  group ← get_group pk;
  '(verrors, data) ← group_validation "group_update" data pk [];
  lift (VErrors.check verrors);;
  let old_smb := truthy (col group "smb") in
  let group := ddel (dupdate group data) "users" in
  let new_smb := truthy (col group "smb") in
  let renamed := dhas data "name" && negb (py_eq (col data "name") (col group "group")) in
  let group := if renamed then dset (ddel group "name") "group" (col group "name") else ddel group "name" in
  let groupmap_changed := if renamed then new_smb else xorb new_smb old_smb in
  update_row TGroups pk (compress group);;
  match dget data "users" with
  | Some v => us ← lift (py_iter v); set_users pk us
  | None => mret tt
  end;;
  service_reload "user";;
  (if groupmap_changed then synchronize_group_mappings else mret tt);;
  mret pk.

(** [GroupService.do_delete] *)
Definition group_delete (pk : pyval) (delete_users : bool) : MN pyval :=
  group ← get_group pk;
  if truthy (col group "builtin") then raise (CallError "A built-in group cannot be deleted." EACCES PNone)
  else
    s ← get_state;
    match List.filter (eq_col "group" (PStr "nogroup")) s.(groups) with
    | [] => raise MatchNotFound
    | nogroup :: _ =>
        forM (List.filter (eq_col "group" (col group "id")) s.(users)) (λ u,
          if delete_users then delete_row TUsers (col u "id")
          else update_row TUsers (col u "id") [("group", col nogroup "id")]);;
        delete_row TGroups pk;;
        (if truthy (col group "smb") then synchronize_group_mappings else mret tt);;
        service_reload "user";;
        mret pk
    end.

(** *** Creating a user *)

(** [os.path.join(a, b)] of a relative [b] *)
Definition path_join (a b : string) : string := if PyStr.endswith a "/" || String.eqb a "" then a +:+ b else a +:+ "/" +:+ b.

(** The group of the new user: the one named, or one of the user's own. *)
Definition group_for data (create : bool) : MN (pydict * pydict) :=
  s ← get_state;
  if create then
    username ← get_item data "username";
    group ← (match List.filter (eq_col "group" username) (query_groups s) with
             | g :: _ => mret g
             | [] =>
                 id ← create_internal [("name", username); ("smb", PBool false); ("sudo", PBool false); ("sudo_nopasswd", PBool false);
                                       ("sudo_commands", PList []); ("allow_duplicate_gid", PBool false)] false;
                 s ← get_state;
                 match List.filter (eq_col "id" id) (query_groups s) with
                 | g :: _ => mret g
                 | [] => raise IndexError
                 end
             end);
    mret (group, dset data "group" (col group "id"))
  else
    id ← get_item data "group";
    match List.filter (eq_col "id" id) (query_groups s) with
    | g :: _ => mret (g, data)
    | [] => raise (CallError ("Group " +:+ py_str id +:+ " not found") EFAULT PNone)
    end.

(** [except FileExistsError] and [except OSError] of the home directory *)
Definition home_failed (home : string) data (group : pydict) (e : exn) : MN unit :=
  if is_file_exists e then
    dir ← host_get (path_isdir home);
    if negb dir then raise (CallError "Path for home directory already exists and is not a directory" EEXIST PNone)
    else uid ← get_item data "uid"; chown home uid (col group "gid")
  else match os_error e with
       | Some oe => raise (CallError ("Failed to create the home directory (" +:+ home +:+ ") for user: " +:+ oe) EFAULT PNone)
       | None => raise e
       end.

(** The home directory; whether it is a new one. *)
Definition create_home (home home_mode : string) data (group : pydict) : MN bool :=
  if String.eqb home "" || String.eqb home "/nonexistent" then mret false
  else
    made ← attempt (match int8 home_mode with
                    | Some mode => host_op (makedirs home (Some mode))
                    | None => raise (ValueError ("invalid literal for int() with base 8: " +:+ repr_str home_mode))
                    end);
    match made with
    | Raise e => home_failed home data group e;; mret false
    | Ret _ =>
        try_except
          (try_except
             (uid ← get_item data "uid";
              setperm [("path", PStr home); ("mode", PStr home_mode); ("uid", uid); ("gid", col group "gid");
                       ("options", PDict [("stripacl", PBool true)])])
             (home_failed home data group))
          (λ e, host_op (rmtree home);; raise e);;
        mret true
    end.

(** The user's row and memberships, undone when a part fails. *)
Definition store_user (d : Draw) data (gs : list pyval) (new_homedir : bool) : MN (pyval * pydict) :=
  let undo_home {A} (e : exn) : MN A := (if new_homedir then host_op (rmtree (py_str (col data "home"))) else mret tt);; raise e in
  '(pk, data) ← try_except
    (data ← lift (set_password d data);
     pk ← insert TUsers (ddel data "sshpubkey");
     mret (pk, data)) undo_home;
  try_except (set_groups pk gs) (λ e, delete_row TUsers pk;; undo_home e);;
  mret (pk, data).

(** The files of a new home directory. *)
Definition copy_skel (home : string) data (group : pydict) : MN unit :=
  files ← host_read (listdir SKEL_PATH);
  forM files (λ f,
    let dest := path_join home (if PyStr.startswith f "dot" then PyStr.drop 3 f else f) in
    there ← host_get (path_exists dest);
    if (there : bool) then mret tt
    else
      host_op (copyfile (path_join SKEL_PATH f) dest);;
      uid ← get_item data "uid";
      chown dest uid (col group "gid")).

(** [UserService.do_create] *)
Definition user_create (d : Draw) data : MN pyval :=
  let verrors :=
    if (negb (truthy (col data "group")) && negb (truthy (col data "group_create"))) ||
       (match col data "group" with PNone => false | _ => true end && truthy (col data "group_create"))
    then VErrors.add [] "user_create.group" "Enter either a group name or create a new group to continue." EINVAL else [] in
  verrors ← user_validation "user_create" data PNone verrors;
  home ← get_item data "home";
  let home := py_str home in
  let verrors := if truthy (col data "sshpubkey") && negb (PyStr.startswith home "/mnt")
    then VErrors.add verrors "user_create.sshpubkey" "The home directory is not writable. Leave this field blank." EINVAL else verrors in
  lift (VErrors.check verrors);;
  gs ← get_item data "groups";
  gs ← lift (py_iter gs);
  create ← get_item data "group_create";
  let data := ddel (ddel data "groups") "group_create" in
  '(group, data) ← group_for data (truthy create);
  smb ← get_item data "smb";
  s ← get_state;
  gs ← (if truthy smb then
          match List.filter (eq_col "group" (PStr "builtin_users")) (query_groups s) with
          | g :: _ => mret (gs ++ [col g "id"])
          | [] => raise MatchNotFound
          end
        else mret gs);
  home_mode ← get_item data "home_mode";
  let data := ddel data "home_mode" in
  new_homedir ← create_home home (py_str home_mode) data group;
  s ← get_state;
  let data := if truthy (col data "uid") then data else dset data "uid" (PInt (get_next_uid s)) in
  let sshpubkey := col data "sshpubkey" in
  '(pk, data) ← store_user d (compress data) gs new_homedir;
  service_reload "user";;
  microsoft ← get_item data "microsoft_account";
  sync_smb_username_map (PBool false) microsoft;;
  (if truthy smb then middleware_call "smb.synchronize_passdb" [];; mret tt else mret tt);;
  there ← host_get (path_exists home);
  (if (there : bool) then
     copy_skel home data group;;
     update_keys home (dset data "sshpubkey" sshpubkey) (col group "group")
   else mret tt);;
  mret pk.

(** *** Updating a user *)

(** The attributes of a built-in user that may not change. *)
Definition fixed_attributes : list string := ["group"; "home"; "home_mode"; "uid"; "username"; "smb"].

Definition check_builtin data (user : pydict) (verrors : verrs) : outcome exn verrs :=
  foldO (λ verrors k,
    match dget data k with
    | None => Ret verrors
    | Some v =>
        old ← item (PDict user) k;
        Ret (if py_eq v old then verrors else VErrors.add verrors ("user_update." +:+ k) "This attribute cannot be changed" EINVAL)
    end) verrors fixed_attributes.

(** The group the user will have, and the user with the id of the group it has. *)
Definition group_of_update data (user : pydict) (verrors : verrs) : MN (pyval * pydict * verrs) :=
  match dget data "group" with
  | Some id =>
      s ← get_state;
      match List.filter (eq_col "id" id) s.(groups) with
      | _ :: _ => mret (expand_group s id, user, verrors)
      | [] => raise IndexError
      end
  | None =>
      group ← get_item user "group";
      id ← lift (item group "id");
      mret (group, dset user "group" id, verrors)
  end.

(** Entries of the SMB password database that no longer fit; whether it has to be
    synchronized. *)
Definition change_pdb data (user : pydict) : MN bool :=
  let changed k := match col data k with PNone => false | v => negb (py_eq (col user k) v) end in
  let remove name := suppress (λ _, true) PNone (middleware_call "smb.remove_passdb_user" [name]) in
  (if changed "username" then remove (col user "username");; mret tt else mret tt);;
  let must := changed "username" || changed "password" || changed "locked" in
  let old := py_eq (col user "smb") (PBool true) in
  match old, col data "smb" with
  | true, PBool false => remove (col user "username");; mret false
  | false, PBool true => mret true
  | _, _ => mret must
  end.

(** [recreate_homedir_if_not_exists] *)
Definition recreate_homedir (has_home : bool) (user : pydict) (group : pyval) (mode : string) : MN unit :=
  let home := py_str (col user "home") in
  there ← host_get (path_exists home);
  if negb has_home || there then mret tt
  else
    try_except (host_op (makedirs home None)) (λ _, raise (CallError ("Failed recreating " +:+ quoted home) EFAULT PNone));;
    gid ← lift (item group "bsdgrp_gid");
    uid ← get_item user "uid";
    setperm [("path", PStr home); ("uid", uid); ("gid", gid); ("mode", PStr mode); ("options", PDict [("stripacl", PBool true)])].

(** The directory a home is copied to. *)
Definition make_new_home (user : pydict) (group : pyval) (mode : string) : MN unit :=
  let home := py_str (col user "home") in
  dir ← host_get (path_isdir home);
  if (dir : bool) then mret tt
  else
    suppress (λ e, match os_error e with Some _ => true | None => false end) tt
      (host_op (makedirs home None);;
       uid ← get_item user "uid";
       gid ← lift (item group "bsdgrp_gid");
       setperm [("path", PStr home); ("uid", uid); ("gid", gid); ("mode", PStr mode); ("options", PDict [("stripacl", PBool true)])]);;
    dir ← host_get (path_isdir home);
    if (dir : bool) then mret tt else raise (CallError (home +:+ " is not a directory") EFAULT PNone).

(** The checks of [do_update] *)
Definition check_update (pk : pyval) data (user : pydict) (home : string) (verrors : verrs) : MN unit :=
  let verrors := if truthy (col data "sshpubkey") && negb (PyStr.startswith home "/mnt") && negb (py_eq (col user "uid") (PInt 0))
    then VErrors.add verrors "user_update.sshpubkey" ("Home directory is not writable, leave this blank" +:+ String dquote "") EINVAL
    else verrors in
  verrors ← (if truthy (col user "builtin") then lift (check_builtin data user verrors) else mret verrors);
  let verrors := if negb (truthy (col user "smb")) && truthy (col data "smb") && negb (truthy (col data "password"))
    then VErrors.add verrors "user_update.smb" "Password must be changed in order to enable SMB authentication" EINVAL else verrors in
  lift (VErrors.check verrors).

(** The home directory of the new values: made, given its keys, copied or given its
    mode. *)
Definition update_home data (user_before user : pydict) (group : pyval) (has_home : bool) (mode_to_set : string) : MN unit :=
  let home_old := py_str (col user_before "home") in
  let home_copy := has_home && match dget data "home" with
    | Some h => negb (py_eq h (col user_before "home")) && negb (PyStr.startswith (py_str h) (home_old +:+ "/"))
    | None => false
    end in
  recreate_homedir has_home user group mode_to_set;;
  (if home_copy then make_new_home user group mode_to_set else mret tt);;
  let home_mode := if truthy (col user "builtin") then PNone else col user "home_mode" in
  let user := ddel user "home_mode" in
  groupname ← lift (item group "bsdgrp_group");
  let homedir := if home_copy then home_old else py_str (col user "home") in
  update_keys homedir user groupname;;
  (if py_eq (col user "uid") (PInt 0) then
     licensed ← middleware_call "failover.licensed" [];
     if truthy licensed
     then suppress (λ _, true) PNone (middleware_call "failover.call_remote" [PStr "user.update_sshpubkey"; PList [PStr homedir; PDict user; groupname]]);; mret tt
     else mret tt
   else mret tt);;
  if home_copy then
    middleware_call "user.do_home_copy" [PStr home_old; col user "home"; col user "username"; home_mode; col user "uid"];; mret tt
  else match home_mode with
       | PNone => mret tt
       | mode => if has_home then setperm [("path", col user "home"); ("mode", mode); ("options", PDict [("stripacl", PBool true)])] else mret tt
       end.

(** [UserService.do_update] *)
Definition user_update (d : Draw) (pk : pyval) data : MN pyval :=
  user ← get_user pk;
  '(group, user, verrors) ← group_of_update data user [];
  verrors ← user_validation "user_update" data pk verrors;
  old_mode ← suppress (λ e, bool_decide (e = FileNotFoundError)) None
    (m ← host_read (st_mode (py_str (col user "home"))); mret (Some (octal3 (Z.land m 4095))));
  let home := if truthy (col data "home") then py_str (col data "home") else py_str (col user "home") in
  let has_home := negb (String.eqb home "/nonexistent") in
  check_update pk data user home verrors;;
  must_change_pdb_entry ← change_pdb data user;
  let microsoft_account_before := col user "microsoft_account" in
  let before := user in
  let user := dupdate user data in
  let mode_to_set := if truthy (col user "home_mode") then py_str (col user "home_mode") else from_option (λ m, m) "700" old_mode in
  update_home data before user group has_home mode_to_set;;
  let user := ddel (ddel user "home_mode") "sshpubkey" in
  user ← lift (set_password d user);
  match dget user "groups" with
  | Some gs => gs ← lift (py_iter gs); set_groups pk gs
  | None => mret tt
  end;;
  let user := compress (ddel user "groups") in
  update_row TUsers pk user;;
  service_reload "user";;
  sync_smb_username_map microsoft_account_before (col user "microsoft_account");;
  (if truthy (col user "smb") && must_change_pdb_entry then middleware_call "smb.synchronize_passdb" [];; mret tt else mret tt);;
  mret pk.

(** *** Deleting a user *)

(** The guest of the SMB service becomes nobody. *)
Definition forget_guest (username : pyval) : MN unit :=
  modify (λ s, match s.(cifs) with
               | c :: l => if py_eq (col c "guest") username
                           then mkAccounts s.(users) s.(groups) s.(members) (dset c "guest" (PStr "nobody") :: l) s.(os) else s
               | [] => s
               end).

(** [UserService.do_delete] *)
Definition user_delete (pk : pyval) (delete_group : bool) : MN pyval :=
  user ← get_user pk;
  if truthy (col user "builtin") then raise (CallError "Cannot delete a built-in user" EINVAL PNone)
  else
    builtin ← (group ← get_item user "group"; lift (item group "bsdgrp_builtin"));
    group_id ← (group ← get_item user "group"; lift (item group "id"));
    s ← get_state;
    (if delete_group && negb (truthy builtin) &&
        Nat.eqb (length (List.filter (eq_col "group" group_id) s.(members))) 0 &&
        Nat.eqb (length (List.filter (λ u, eq_col "group" group_id u && negb (eq_col "id" pk u)) s.(users))) 0
     then suppress (λ _, true) PNone (group_delete group_id false);; mret tt
     else mret tt);;
    (if truthy (col user "smb") then middleware_call "smbpasswd" [PStr "-x"; col user "username"];; mret tt else mret tt);;
    forget_guest (col user "username");;
    delete_row TUsers pk;;
    service_reload "user";;
    sync_smb_username_map (col user "microsoft_account") (PBool false);;
    mret pk.

(** *** Attributes and the first password of root *)

Definition attributes_of (user : pydict) : outcome exn pydict :=
  match col user "attributes" with
  | PDict a => Ret a
  | _ => Raise (TypeError "object does not support item assignment")
  end.

Definition set_attribute (pk : pyval) (key : string) (value : pyval) : MN bool :=
  user ← get_user pk;
  attributes ← lift (attributes_of user);
  update_row TUsers pk [("attributes", PDict (dset attributes key value))];;
  mret true.

Definition pop_attribute (pk : pyval) (key : string) : MN bool :=
  user ← get_user pk;
  attributes ← lift (attributes_of user);
  if dhas attributes key then update_row TUsers pk [("attributes", PDict (ddel attributes key))];; mret true
  else mret false.

Definition root_rows s : list pydict := List.filter (eq_col "username" (PStr "root")) s.(users).

Definition has_root_password : MN bool :=
  s ← get_state;
  match root_rows s with
  | r :: _ => mret (negb (py_eq (col r "unixhash") (PStr "*")))
  | [] => raise MatchNotFound
  end.

(** [set_root_password]; [options] as the schema leaves them. *)
Definition set_root_password (d : Draw) (authenticated : bool) (password : string) (options : pydict) : MN unit :=
  (if authenticated then mret tt
   else
     set ← has_root_password;
     if (set : bool) then raise (CallError "You cannot call this method anonymously if root already has a password" EACCES PNone)
     else
       environment ← middleware_call "system.environment" [];
       if py_eq environment (PStr "EC2") then
         match dget options "ec2" with
         | None => raise (CallError "You need to specify instance ID when setting initial root password on EC2 instance" EACCES PNone)
         | Some ec2 =>
             given ← lift (item ec2 "instance_id");
             actual ← middleware_call "ec2.instance_id" [];
             if py_eq given actual then mret tt else raise (CallError "Incorrect EC2 instance ID" EACCES PNone)
         end
       else mret tt);;
  l ← query_users;
  match List.filter (eq_col "username" (PStr "root")) l with
  | root :: _ => id ← get_item root "id"; user_update d id [("password", PStr password)];; mret tt
  | [] => raise MatchNotFound
  end.

(** ** Calls *)

Inductive Call : Type :=
| UserCreate (d : Draw) (data : pydict)
| UserUpdate (d : Draw) (pk : pyval) (data : pydict)
| UserDelete (pk : pyval) (delete_group : bool)
| GroupCreate (data : pydict)
| GroupUpdate (pk : pyval) (data : pydict)
| GroupDelete (pk : pyval) (delete_users : bool)
| SetAttribute (pk : pyval) (key : string) (value : pyval)
| PopAttribute (pk : pyval) (key : string)
| SetRootPassword (d : Draw) (authenticated : bool) (password : string) (options : pydict).

Definition perform (c : Call) : MN unit :=
  match c with
  | UserCreate d data => user_create d data;; mret tt
  | UserUpdate d pk data => user_update d pk data;; mret tt
  | UserDelete pk delete_group => user_delete pk delete_group;; mret tt
  | GroupCreate data => create_internal data true;; mret tt
  | GroupUpdate pk data => group_update pk data;; mret tt
  | GroupDelete pk delete_users => group_delete pk delete_users;; mret tt
  | SetAttribute pk key value => set_attribute pk key value;; mret tt
  | PopAttribute pk key => pop_attribute pk key;; mret tt
  | SetRootPassword d authenticated password options => set_root_password d authenticated password options
  end.

(** Calls one after the other, whatever the outcome of each. *)
Definition run (calls : list Call) (s : Accounts O) : Accounts O := foldl (λ s c, (perform c s).2) s calls.

End service.
