(* ===== verification/AccountFacts.v ===== *)
(** * Users and groups: what every call keeps *)

From S2P Require Import Prelude PyValue Schema Filter Rows NtHash AccountChecks Account.

Section service.
Context {O : Type} `{host : !Host O}.
Notation MN := (M (Accounts O) exn).
Implicit Types (s : Accounts O) (data : pydict) (U G : list pydict).

Lemma accounts_sound_spec s :
  sound s = true ↔
  (keyed s.(users) = true ∧ keyed s.(groups) = true ∧ keyed s.(members) = true) ∧
  fk "group" s.(groups) s.(users) ∧ fk "group" s.(groups) s.(members) ∧ fk "user" s.(users) s.(members).
Proof. unfold sound, fk. simpl. rewrite !andb_true_iff. tauto. Qed.

(** ** Calls that leave users and groups alone *)

Definition fixed U G s : Prop := sound s = true ∧ s.(users) = U ∧ s.(groups) = G.

Section fixed.
Context (U G : list pydict).
Notation F := (fixed U G).

Lemma fixed_write (f : Accounts O → Accounts O) :
  (∀ s, (f s).(users) = s.(users) ∧ (f s).(groups) = s.(groups)) → keeps F (write f).
Proof.
  intros Hf s (Hs & HU & HG). unfold write. destruct (sound (f s)) eqn:E; [|done].
  destruct (Hf s) as [H1 H2]. split_and!; cbn [snd]; [done|by rewrite H1|by rewrite H2].
Qed.

Lemma lift_keeps {A} (P : Accounts O → Prop) (o : outcome exn A) : keeps P (lift o).
Proof. by intros s. Qed.

Lemma get_item_keeps (P : Accounts O → Prop) d k : keeps P (get_item d k).
Proof. by intros s. Qed.

Lemma keeps_host_op {A} (f : O → outcome exn A * O) : keeps F (host_op f).
Proof. intros s Hs. unfold host_op. by destruct (f (os s)). Qed.

Lemma keeps_host_get {A} (P : Accounts O → Prop) (f : O → A) : keeps P (host_get f).
Proof. by intros s. Qed.

Lemma keeps_host_read {A} (P : Accounts O → Prop) (f : O → outcome exn A) : keeps P (host_read f).
Proof. by intros s. Qed.

Lemma keeps_call method args : keeps F (middleware_call method args).
Proof. apply keeps_host_op. Qed.

Lemma keeps_insert_member d : keeps F (insert TMembers d).
Proof. unfold insert. keeps_tac. by apply fixed_write. Qed.

Lemma keeps_delete_member id : keeps F (delete_row TMembers id).
Proof. by apply fixed_write. Qed.

Lemma keeps_query_users (P : Accounts O → Prop) : keeps P query_users.
Proof. by intros s. Qed.

Lemma keeps_attempt {A} (P : Accounts O → Prop) (m : MN A) : keeps P m → keeps P (attempt m).
Proof. intros Hm s Hs. specialize (Hm s Hs). unfold attempt. by destruct (m s). Qed.

Hint Resolve lift_keeps get_item_keeps keeps_host_op keeps_host_get keeps_host_read keeps_call keeps_insert_member
  keeps_delete_member keeps_query_users keeps_attempt : keeps.

Lemma keeps_get_user (P : Accounts O → Prop) pk : keeps P (get_user pk).
Proof. unfold get_user. keeps_tac. Qed.

Lemma keeps_get_group (P : Accounts O → Prop) pk : keeps P (get_group pk).
Proof. unfold get_group. keeps_tac. Qed.

Hint Resolve keeps_get_user keeps_get_group : keeps.

Lemma keeps_suppress {A} p (d : A) (m : MN A) : keeps F m → keeps F (suppress p d m).
Proof. intros Hm. unfold suppress. apply keeps_try; [done|]. keeps_tac. Qed.

Lemma keeps_check_home schema home verrors : keeps F (check_home schema home verrors).
Proof. unfold check_home. keeps_tac. Qed.

Lemma keeps_shell_choices (P : Accounts O → Prop) id : keeps P (shell_choices id).
Proof. unfold shell_choices. keeps_tac. Qed.

Lemma keeps_check_sudo (P : Accounts O → Prop) schema data verrors : keeps P (check_sudo schema data verrors).
Proof. unfold check_sudo. keeps_tac. Qed.

Hint Resolve keeps_suppress keeps_check_home keeps_shell_choices keeps_check_sudo : keeps.

Lemma keeps_validation_rest schema data pk verrors : keeps F (user_validation_rest schema data pk verrors).
Proof. unfold user_validation_rest. keeps_tac. Qed.

Hint Resolve keeps_validation_rest : keeps.

Lemma keeps_user_validation schema data pk verrors : keeps F (user_validation schema data pk verrors).
Proof. unfold user_validation. keeps_tac. Qed.

Lemma keeps_group_validation (P : Accounts O → Prop) schema data pk verrors : keeps P (group_validation schema data pk verrors).
Proof. unfold group_validation. keeps_tac. Qed.

Lemma keeps_set_groups pk gs : keeps F (set_groups pk gs).
Proof. unfold set_groups. keeps_tac. Qed.

Lemma keeps_setperm args : keeps F (setperm args).
Proof. unfold setperm. keeps_tac. Qed.

Lemma keeps_chown path uid gid : keeps F (chown path uid gid).
Proof. unfold chown. keeps_tac. Qed.

Lemma keeps_reload name : keeps F (service_reload name).
Proof. unfold service_reload. keeps_tac. Qed.

Lemma keeps_sync_groups : keeps F synchronize_group_mappings.
Proof. unfold synchronize_group_mappings. keeps_tac. Qed.

Hint Resolve keeps_user_validation keeps_group_validation keeps_set_groups keeps_setperm keeps_chown keeps_reload keeps_sync_groups : keeps.

Lemma keeps_sync_map a b : keeps F (sync_smb_username_map a b).
Proof. unfold sync_smb_username_map, service_reload. keeps_tac. Qed.

Lemma keeps_update_keys homedir user group : keeps F (update_keys homedir user group).
Proof.
  unfold update_keys. apply keeps_try; [|keeps_tac]. unfold update_sshpubkey. keeps_tac; apply keeps_suppress; keeps_tac.
Qed.

Lemma keeps_home_failed home data group e : keeps F (home_failed home data group e).
Proof. unfold home_failed. keeps_tac. Qed.

Hint Resolve keeps_sync_map keeps_update_keys keeps_home_failed : keeps.

Lemma keeps_create_home home mode data group : keeps F (create_home home mode data group).
Proof. unfold create_home. keeps_tac; apply keeps_attempt; keeps_tac. Qed.

Lemma keeps_copy_skel home data group : keeps F (copy_skel home data group).
Proof. unfold copy_skel. keeps_tac. Qed.

Lemma keeps_recreate has_home user group mode : keeps F (recreate_homedir has_home user group mode).
Proof. unfold recreate_homedir. keeps_tac. Qed.

Lemma keeps_make_new_home user group mode : keeps F (make_new_home user group mode).
Proof. unfold make_new_home. keeps_tac; apply keeps_suppress; keeps_tac. Qed.

Lemma keeps_change_pdb data user : keeps F (change_pdb data user).
Proof. unfold change_pdb. keeps_tac. Qed.

Hint Resolve keeps_create_home keeps_copy_skel keeps_recreate keeps_make_new_home keeps_change_pdb : keeps.

Lemma keeps_update_home data before user group has_home mode : keeps F (update_home data before user group has_home mode).
Proof. unfold update_home. keeps_tac. Qed.

Lemma keeps_set_users pk us : keeps F (set_users pk us).
Proof. unfold set_users. keeps_tac. Qed.

Lemma keeps_forget_guest name : keeps F (forget_guest name).
Proof. unfold forget_guest. apply keeps_modify. intros s Hs. destruct (cifs s); [done|]. by destruct (py_eq _ _). Qed.

End fixed.

#[local] Hint Resolve lift_keeps get_item_keeps keeps_host_op keeps_host_get keeps_host_read keeps_call keeps_insert_member
  keeps_delete_member keeps_query_users keeps_get_user keeps_get_group keeps_suppress keeps_check_sudo keeps_user_validation
  keeps_group_validation keeps_set_groups keeps_reload keeps_sync_groups keeps_sync_map keeps_update_keys keeps_create_home
  keeps_copy_skel keeps_change_pdb keeps_update_home keeps_set_users keeps_forget_guest : keeps.

(** ** Tables of which something holds *)

Definition inv (I : list pydict → list pydict → Prop) s : Prop := sound s = true ∧ I s.(users) s.(groups).

Lemma fixed_inv I U G s : I U G → fixed U G s → inv I s.
Proof. intros HI (Hs & <- & <-). by split. Qed.

Lemma keeps_inv {A} I (m : MN A) : (∀ U G, keeps (fixed U G) m) → keeps (inv I) m.
Proof.
  intros Hm s [Hs HI]. destruct (Hm s.(users) s.(groups) s) as (Hs' & HU & HG); [done|]. split; [done|]. by rewrite HU, HG.
Qed.

Section steps.
Context (I : list pydict → list pydict → Prop).

(** From tables that are known, with what the result says of them. *)
Lemma fixed_bind {A B} U G (m : MN A) (k : A → MN B) (φ : A → Prop) :
  I U G → keeps (fixed U G) m → (∀ s, fixed U G s → match (m s).1 with Ret a => φ a | Raise _ => True end) →
  (∀ a, φ a → triple (fixed U G) (k a) (λ _, inv I) (λ _, inv I)) → triple (fixed U G) (m ≫= k) (λ _, inv I) (λ _, inv I).
Proof.
  intros HI Hm Hφ Hk s Hs. unfold mbind, M_bind. specialize (Hm s Hs). specialize (Hφ s Hs).
  destruct (m s) as [[a|e] s']; cbn in *; [by apply Hk|by eapply fixed_inv].
Qed.

Lemma fixed_bind_any {A B} U G (m : MN A) (k : A → MN B) :
  I U G → keeps (fixed U G) m → (∀ a, triple (fixed U G) (k a) (λ _, inv I) (λ _, inv I)) →
  triple (fixed U G) (m ≫= k) (λ _, inv I) (λ _, inv I).
Proof. intros HI Hm Hk. eapply (fixed_bind _ _ _ _ (λ _, True)); [done|done| |by intros a _; apply Hk]. intros s _. by destruct (m s).1. Qed.

(** A change, and then whatever keeps what holds. *)
Lemma change_bind {A B} U G (m : MN A) (k : A → MN B) :
  triple (fixed U G) m (λ _, inv I) (λ _, inv I) → (∀ a, keeps (inv I) (k a)) → triple (fixed U G) (m ≫= k) (λ _, inv I) (λ _, inv I).
Proof. intros Hm Hk. eapply triple_bind; [exact Hm|]. intros a. cbn beta. apply keeps_triple, Hk. Qed.

Lemma triple_keeps_inv {A} (m : MN A) :
  (∀ U G, I U G → keyed U = true → keyed G = true → triple (fixed U G) m (λ _, inv I) (λ _, inv I)) → keeps (inv I) m.
Proof.
  intros Hm s [Hs HI]. pose proof Hs as ((HkU & HkG & _) & _)%accounts_sound_spec. specialize (Hm _ _ HI HkU HkG s ltac:(done)). by destruct (m s) as [[] ?].
Qed.

Lemma triple_write U G (f : Accounts O → Accounts O) :
  I U G → (∀ s, fixed U G s → I (f s).(users) (f s).(groups)) → triple (fixed U G) (write f) (λ _, inv I) (λ _, inv I).
Proof.
  intros HI Hf s Hs. unfold write. destruct (sound (f s)) eqn:E; [|by eapply fixed_inv]. split; [done|by apply Hf].
Qed.
End steps.

(** ** Equality of scalars *)

Lemma py_eq_scalar a b c : hashable c = true → py_eq a b = true → py_eq b c = true → py_eq a c = true.
Proof.
  intros Hc Hab Hbc. destruct c as [|bc|zc|sc| |]; try done; destruct b as [|bb|zb|sb| |]; try done; destruct a as [|ba|za|sa| |]; try done; simpl in *;
    try (apply Z.eqb_eq in Hab, Hbc; apply Z.eqb_eq; congruence); try (apply String.eqb_eq in Hab, Hbc; apply String.eqb_eq; congruence).
Qed.

Lemma py_eq_refl_scalar a : hashable a = true → py_eq a a = true.
Proof. destruct a; try done; simpl; intros _; [apply Z.eqb_refl|apply Z.eqb_refl|apply String.eqb_refl]. Qed.

(** ** Unique names *)

Definition is_str (v : pyval) : bool := match v with PStr _ => true | _ => false end.

Definition unique (k : string) (l : list pydict) : Prop := NoDup ((λ r, col r k) <$> l) ∧ ∀ r, r ∈ l → is_str (col r k) = true.

Lemma py_eq_str a b : is_str a = true → py_eq a b = true → a = b.
Proof. destruct a, b; try done. simpl. intros _ H. apply String.eqb_eq in H. by subst. Qed.

Lemma unique_snoc k l r :
  unique k l → is_str (col r k) = true → existsb (eq_col k (col r k)) l = false → unique k (l ++ [r]).
Proof.
  intros [Hn Hs] Hr Hf. split.
  - rewrite fmap_app. apply NoDup_app. split_and!; [done| |apply NoDup_singleton].
    intros v Hv Hin. cbn in Hin. apply list_elem_of_singleton in Hin as ->. apply list_elem_of_fmap in Hv as (r' & E & Hr').
    assert (existsb (eq_col k (col r k)) l = true) as Ht; [|by rewrite Ht in Hf].
    apply existsb_exists. exists r'. split; [by apply list_elem_of_In|]. unfold eq_col. rewrite <-E. destruct (col r k); try done. simpl. apply String.eqb_refl.
  - intros r' [Hr'|Hr']%elem_of_app; [by apply Hs|]. apply list_elem_of_singleton in Hr' as ->. done.
Qed.

Lemma unique_filter k l p : unique k l → unique k (List.filter p l).
Proof.
  intros [Hn Hs]. split.
  - eapply sublist_NoDup; [done|]. apply fmap_sublist. clear. induction l as [|x l IH]; simpl; [constructor|]. destruct (p x); by constructor.
  - intros r Hr. apply Hs. apply list_elem_of_In, filter_In in Hr as [Hr _]. by apply list_elem_of_In.
Qed.

(** One row changes; its value is that of no other row. *)
Lemma unique_update k l p f :
  unique k l → length (List.filter p l) = 1 →
  (∀ r, r ∈ l → p r = true → is_str (col (f r) k) = true ∧
    (col (f r) k = col r k ∨ existsb (eq_col k (col (f r) k)) (List.filter (λ r, negb (p r)) l) = false)) →
  unique k ((λ r, if p r then f r else r) <$> l).
Proof.
  intros [Hn Hs] Hlen Hf.
  assert (Hsame : ∀ l', List.filter p l' = [] → (λ r, if p r then f r else r) <$> l' = l').
  { induction l' as [|x l' IH]; [done|]. cbn [List.filter]. destruct (p x) eqn:E; [done|]. intros H. rewrite fmap_cons, E. by rewrite (IH H). }
  assert (∃ l1 r l2, l = l1 ++ r :: l2 ∧ p r = true ∧ List.filter p l1 = [] ∧ List.filter p l2 = []) as (l1 & r & l2 & -> & Hp & H1 & H2).
  { clear -Hlen. induction l as [|x l IH]; [done|]. simpl in Hlen. destruct (p x) eqn:E.
    - exists [], x, l. split_and!; try done. simpl in Hlen. destruct (List.filter p l); [done|]. simpl in Hlen. lia.
    - destruct (IH Hlen) as (l1 & r & l2 & -> & Hp & H1 & H2). exists (x :: l1), r, l2. split_and!; try done. simpl. by rewrite E. }
  rewrite fmap_app, fmap_cons, (Hsame l1), (Hsame l2), Hp by done.
  destruct (Hf r) as [Hstr Hcol]; [set_solver|done|].
  assert (Hneg : ∀ l', List.filter p l' = [] → List.filter (λ r, negb (p r)) l' = l').
  { induction l' as [|x l' IH]; [done|]. simpl. destruct (p x); [done|]. intros H. simpl. by rewrite (IH H). }
  split.
  - rewrite !fmap_app, !fmap_cons in *. destruct Hcol as [->|Hfree]; [done|].
    rewrite List.filter_app in Hfree. simpl in Hfree. rewrite Hp, (Hneg l1), (Hneg l2) in Hfree by done. simpl in Hfree.
    assert (Hni : ∀ r', r' ∈ l1 ++ l2 → col r' k ≠ col (f r) k).
    { intros r' Hr' E. assert (existsb (eq_col k (col (f r) k)) (l1 ++ l2) = true) as Ht; [|by rewrite Ht in Hfree].
      apply existsb_exists. exists r'. split; [by apply list_elem_of_In|]. unfold eq_col. rewrite E. destruct (col (f r) k); try done. simpl. apply String.eqb_refl. }
    rewrite !NoDup_app, !NoDup_cons in *. destruct Hn as (Ha & Hab & Hb & Hc). split_and!; [done| | |done].
    + intros x Hx. rewrite not_elem_of_cons. split; [|intros H; apply (Hab x Hx); set_solver].
      apply list_elem_of_fmap in Hx as (r' & -> & Hr'). apply Hni. set_solver.
    + rewrite list_elem_of_fmap. intros (r' & E & Hr'). apply (Hni r'); [set_solver|done].
  - intros r'. rewrite elem_of_app, elem_of_cons. intros [Hr'|[->|Hr']]; [apply Hs; set_solver|done|apply Hs; set_solver].
Qed.

(** ** Errors add up *)

Lemma add_nonempty (v : verrs) a m e : VErrors.add v a m e ≠ [].
Proof. unfold VErrors.add. by destruct v. Qed.

Lemma add_child_nonempty (v : verrs) a child : v ≠ [] → VErrors.add_child v a child ≠ [].
Proof. unfold VErrors.add_child. revert v. induction child as [|e child IH]; intros v Hv; [done|]. cbn [foldl]. apply IH, add_nonempty. Qed.

Hint Resolve add_nonempty add_child_nonempty : core.

Ltac grow := repeat (case_match; auto using add_nonempty).

Lemma pw_checkname_grow (v : verrs) a n : v ≠ [] → pw_checkname v a n ≠ [].
Proof. intros Hv. unfold pw_checkname. grow. Qed.

Lemma check_username_grow schema data pk s v : v ≠ [] → check_username schema data pk s v ≠ [].
Proof.
  intros Hv. unfold check_username. destruct (dget data "username") as [n|]; [|done].
  destruct (truthy _ && _); [auto|]. destruct (existsb _ _); [auto|]. by apply pw_checkname_grow.
Qed.

Lemma check_password_given_grow schema data pk v : v ≠ [] → check_password_given schema data pk v ≠ [].
Proof. intros Hv. unfold check_password_given. grow. Qed.

Lemma check_full_name_grow schema data v : v ≠ [] → check_full_name schema data v ≠ [].
Proof. intros Hv. unfold check_full_name. grow. Qed.

Lemma check_home_mode_grow f x v : v ≠ [] → check_home_mode f x v ≠ [].
Proof. intros Hv. unfold check_home_mode. grow. Qed.

(** A computation whose result is errors, when there were some. *)
Definition grows (v0 : verrs) {A} (part : A → verrs) (m : MN A) : Prop :=
  ∀ s, v0 ≠ [] → match (m s).1 with Ret a => part a ≠ [] | Raise _ => True end.

Lemma grows_bind {A B} v0 (part : B → verrs) (m : MN A) (k : A → MN B) : (∀ a, grows v0 part (k a)) → grows v0 part (m ≫= k).
Proof. intros Hk s Hv. unfold mbind, M_bind. destruct (m s) as [[a|e] s']; [by apply Hk|done]. Qed.

Lemma grows_then {A B} v0 (part : A → verrs) (part_b : B → verrs) (m : MN A) (k : A → MN B) :
  grows v0 part m → (∀ a, grows (part a) part_b (k a)) → grows v0 part_b (m ≫= k).
Proof.
  intros Hm Hk s Hv. specialize (Hm s Hv). unfold mbind, M_bind. destruct (m s) as [[a|e] s']; [by apply Hk|done].
Qed.

Lemma grows_ret {A} v0 (part : A → verrs) (a : A) : (v0 ≠ [] → part a ≠ []) → grows v0 part (mret a).
Proof. intros Ha s Hv. by apply Ha. Qed.

Lemma check_home_grows schema home v : grows v fst (check_home schema home v).
Proof.
  unfold check_home. destruct (negb _); [apply grows_ret; intros; apply add_nonempty|]. apply grows_bind. intros []; [apply grows_ret; intros; apply add_nonempty|].
  set (v' := if PyStr.contains home ":" then _ else _).
  assert (Hv : v ≠ [] → v' ≠ []) by (unfold v'; destruct (PyStr.contains _ _); [intros; apply add_nonempty|done]).
  destruct (String.eqb home _); [by apply grows_ret|]. destruct (negb _); [apply grows_ret; intros; apply add_nonempty|].
  do 2 (apply grows_bind; intros ?). apply grows_bind. intros inside. destruct (negb inside); [apply grows_ret; intros; apply add_nonempty|].
  apply grows_bind. intros locked. destruct (truthy locked); [apply grows_ret; intros; apply add_nonempty|].
  apply grows_bind. intros n. apply grows_ret. intros H. cbn. destruct (Nat.eqb n 2); auto using add_nonempty.
Qed.

Lemma check_sudo_grows schema data v : grows v (λ x, x) (check_sudo schema data v).
Proof.
  unfold check_sudo. destruct (dget data _); [|by apply grows_ret]. do 4 (apply grows_bind; intros ?). apply grows_ret. apply add_child_nonempty.
Qed.

Lemma validation_rest_grows schema data pk v : grows v (λ x, x) (user_validation_rest schema data pk v).
Proof.
  unfold user_validation_rest. 
  set (v1 := match dget data "home_mode" with Some x => check_home_mode (schema +:+ ".home_mode") x v | None => v end).
  set (v2 := match dget data "groups" with
    | Some (PList l) => if (64 <? length l)%nat
        then VErrors.add v1 (schema +:+ ".groups") "A user cannot belong to more than 64 auxiliary groups." EINVAL else v1
    | _ => v1
    end).
  assert (H1 : v ≠ [] → v1 ≠ []) by (unfold v1; destruct (dget data "home_mode"); [apply check_home_mode_grow|done]).
  assert (H2 : v ≠ [] → v2 ≠ []) by (intros; unfold v2; grow).
  assert (H3 : v ≠ [] → check_full_name schema data v2 ≠ []) by (intros; by apply check_full_name_grow, H2).
  eapply (grows_then v (λ x, x)); [|intros; apply check_sudo_grows].
  destruct (dget data "shell"); [|by apply grows_ret]. apply grows_bind. intros choices. apply grows_ret. intros H. destruct (bool_decide _); auto using add_nonempty.
Qed.

(** When the validation part a user finds nothing, its name is free. *)
Lemma user_validation_free schema data pk v0 s :
  match (user_validation schema data pk v0 s).1 with
  | Ret v => v = [] → v0 = [] ∧ ∀ n, dget data "username" = Some n → existsb (eq_col "username" n) (excluding pk s.(users)) = false
  | Raise _ => True
  end.
Proof.
  unfold user_validation. rewrite (bind_ret _ _ s s s) by done. set (v1 := check_username schema data pk s v0).
  set (v2 := check_password_given schema data pk v1).
  assert (Hg : grows v2 (λ x, x) ('(verrors, stop) ← match dget data "home" with
                     | Some v => check_home schema (py_str v) v2
                     | None => mret (v2, false)
                     end; if (stop : bool) then mret verrors else user_validation_rest schema data pk verrors)).
  { eapply (grows_then v2 fst); [|intros [v []]; [by apply grows_ret|apply validation_rest_grows]].
    destruct (dget data "home"); [apply check_home_grows|by apply grows_ret]. }
  specialize (Hg s). match type of Hg with context [fst ?x] => destruct (fst x) as [v|e] end; [|done]. intros ->.
  destruct (decide (v2 = [])) as [Hv2|Hv2]; [|by destruct (Hg Hv2)].
  destruct (decide (v1 = [])) as [Hv1|Hv1]; [|by destruct (check_password_given_grow schema data pk v1 Hv1)].
  split.
  - destruct (decide (v0 = [])) as [|Hv0]; [done|]. by destruct (check_username_grow schema data pk s v0 Hv0).
  - intros n Hn. revert Hv1. unfold v1, check_username. rewrite Hn. destruct (existsb (eq_col "username" n) _); [|done].
    destruct (truthy _ && _); intros E; exfalso; by eapply add_nonempty.
Qed.

End service.
