(* ===== verification/AccountInv.v ===== *)
(** * Users and groups: names stay unique, built-in accounts stay *)

From S2P Require Import Prelude PyValue Schema Filter Rows NtHash AccountChecks Account AccountFacts.

Definition builtin (r : pydict) : bool := truthy (col r "builtin").

(** What may not change of a built-in user. *)
Definition fixed_keys : list string := ["id"; "builtin"; "home"; "uid"; "username"; "smb"].

Definition same_account (u0 u : pydict) : Prop :=
  col u "group" = col u0 "group" ∧ ∀ k, k ∈ fixed_keys → py_eq (col u k) (col u0 k) = true.

(** Tables whose rows are dicts, with unique names, in which the built-in users [B]
    are, with built-in groups. *)
Record accounts (B U G : list pydict) : Prop := mkAccountsOk {
  dict_users : ∀ r, r ∈ U → NoDup (dkeys r);
  dict_groups : ∀ r, r ∈ G → NoDup (dkeys r);
  unique_users : unique "username" U;
  unique_groups : unique "group" G;
  builtin_groups : ∀ u, u ∈ U → builtin u = true → ∃ g, g ∈ G ∧ col g "id" = col u "group" ∧ builtin g = true;
  builtin_users : ∀ u0, u0 ∈ B → ∃ u, u ∈ U ∧ same_account u0 u;
}.

Definition scalars (B : list pydict) : Prop := ∀ u0, u0 ∈ B → builtin u0 = true ∧ ∀ k, k ∈ fixed_keys → hashable (col u0 k) = true.

Section changes.
Context (B : list pydict) (HB : scalars B).
Implicit Types (U G : list pydict).

Lemma truthy_eq a b : py_eq a b = true → hashable b = true → truthy a = truthy b.
Proof.
  destruct a as [|x|x|x| |], b as [|y|y|y| |]; try done; simpl; intros E _;
    try (apply Z.eqb_eq in E; subst); try (apply String.eqb_eq in E; by subst); try done;
    try (destruct x; destruct y; done); try (by destruct y); try (by destruct x).
Qed.

Lemma same_builtin u0 u : u0 ∈ B → same_account u0 u → builtin u = true.
Proof.
  intros H0 [_ Hs]. destruct (HB u0 H0) as [Hb Hh]. unfold builtin. rewrite (truthy_eq _ (col u0 "builtin")); [done|apply Hs|apply Hh]; set_solver.
Qed.

Lemma add_user U G r :
  accounts B U G → NoDup (dkeys r) → is_str (col r "username") = true → existsb (eq_col "username" (col r "username")) U = false →
  builtin r = false → accounts B (U ++ [r]) G.
Proof.
  intros [HdU HdG HU HG Hbg Hbu] Hr Hstr Hfree Hb. split; [|done| |done| |].
  - intros x [Hx|Hx]%elem_of_app; [by apply HdU|]. by apply list_elem_of_singleton in Hx as ->.
  - by apply unique_snoc.
  - intros u [Hu|Hu]%elem_of_app; [by apply Hbg|]. apply list_elem_of_singleton in Hu as ->. by rewrite Hb.
  - intros u0 H0. destruct (Hbu u0 H0) as (u & Hu & Hs). exists u. set_solver.
Qed.

Lemma remove_users U G p :
  accounts B U G → (∀ u, u ∈ U → builtin u = true → p u = true) → accounts B (List.filter p U) G.
Proof.
  intros [HdU HdG HU HG Hbg Hbu] Hp. split; [|done|by apply unique_filter|done| |].
  - intros r [Hr _]%filter_elem. by apply HdU.
  - intros u [Hu _]%filter_elem. by apply Hbg.
  - intros u0 H0. destruct (Hbu u0 H0) as (u & Hu & Hs). exists u. split; [|done]. apply filter_elem. split; [done|].
    apply Hp; [done|]. by eapply same_builtin.
Qed.

Lemma update_user U G p f :
  accounts B U G → length (List.filter p U) = 1 →
  (∀ r, r ∈ U → p r = true →
     NoDup (dkeys (f r)) ∧ is_str (col (f r) "username") = true ∧
     (col (f r) "username" = col r "username" ∨ existsb (eq_col "username" (col (f r) "username")) (List.filter (λ r, negb (p r)) U) = false) ∧
     builtin (f r) = builtin r ∧
     (builtin r = true → col (f r) "group" = col r "group" ∧ ∀ k, k ∈ fixed_keys → col (f r) k = col r k ∨ py_eq (col (f r) k) (col r k) = true)) →
  accounts B ((λ r, if p r then f r else r) <$> U) G.
Proof.
  intros [HdU HdG HU HG Hbg Hbu] Hlen Hf. split; [|done| |done| |].
  - intros x. rewrite list_elem_of_fmap. intros (r & -> & Hr). destruct (p r) eqn:E; [by apply (Hf r Hr E)|by apply HdU].
  - apply unique_update; [done|done|]. intros r Hr E. destruct (Hf r Hr E) as (_ & ? & ? & _). done.
  - intros x. rewrite list_elem_of_fmap. intros (r & -> & Hr). destruct (p r) eqn:E; [|by apply Hbg].
    destruct (Hf r Hr E) as (_ & _ & _ & Hb & Hg). rewrite Hb. intros Hbr. destruct (Hg Hbr) as [-> _]. by apply Hbg.
  - intros u0 H0. destruct (Hbu u0 H0) as (u & Hu & Hs). pose proof (same_builtin u0 u H0 Hs) as Hb.
    exists (if p u then f u else u). split; [by apply (list_elem_of_fmap_2 (λ r, if p r then f r else r))|].
    destruct (p u) eqn:E; [|done]. destruct (Hf u Hu E) as (_ & _ & _ & _ & Hg). destruct (Hg Hb) as [Hgr Hk]. destruct Hs as [Hg0 Hk0].
    split; [by rewrite Hgr|]. intros k Hk'. destruct (Hk k Hk') as [->|He]; [by apply Hk0|].
    apply (py_eq_scalar _ (col u k)); [by apply (HB u0 H0)|done|by apply Hk0].
Qed.

Lemma add_group U G r :
  accounts B U G → NoDup (dkeys r) → is_str (col r "group") = true → existsb (eq_col "group" (col r "group")) G = false →
  accounts B U (G ++ [r]).
Proof.
  intros [HdU HdG HU HG Hbg Hbu] Hr Hstr Hfree. split; [done| |done|by apply unique_snoc| |done].
  - intros x [Hx|Hx]%elem_of_app; [by apply HdG|]. by apply list_elem_of_singleton in Hx as ->.
  - intros u Hu Hb. destruct (Hbg u Hu Hb) as (g & Hg & ?). exists g. set_solver.
Qed.

Lemma remove_groups U G p :
  accounts B U G → (∀ g, g ∈ G → builtin g = true → p g = true) → accounts B U (List.filter p G).
Proof.
  intros [HdU HdG HU HG Hbg Hbu] Hp. split; [done| |done|by apply unique_filter| |done].
  - intros r [Hr _]%filter_elem. by apply HdG.
  - intros u Hu Hb. destruct (Hbg u Hu Hb) as (g & Hg & Hid & Hbu'). exists g. rewrite filter_elem. auto.
Qed.

Lemma update_group U G p f :
  accounts B U G → length (List.filter p G) = 1 →
  (∀ r, r ∈ G → p r = true →
     NoDup (dkeys (f r)) ∧ is_str (col (f r) "group") = true ∧
     (col (f r) "group" = col r "group" ∨ existsb (eq_col "group" (col (f r) "group")) (List.filter (λ r, negb (p r)) G) = false) ∧
     builtin (f r) = builtin r ∧ col (f r) "id" = col r "id") →
  accounts B U ((λ r, if p r then f r else r) <$> G).
Proof.
  intros [HdU HdG HU HG Hbg Hbu] Hlen Hf. split; [done| |done| | |done].
  - intros x. rewrite list_elem_of_fmap. intros (r & -> & Hr). destruct (p r) eqn:E; [by apply (Hf r Hr E)|by apply HdG].
  - apply unique_update; [done|done|]. intros r Hr E. destruct (Hf r Hr E) as (_ & ? & ? & _). done.
  - intros u Hu Hb. destruct (Hbg u Hu Hb) as (g & Hg & Hid & Hbg'). exists (if p g then f g else g).
    split; [by apply (list_elem_of_fmap_2 (λ r, if p r then f r else r))|]. destruct (p g) eqn:E; [|done].
    destruct (Hf g Hg E) as (_ & _ & _ & -> & ->). done.
Qed.
End changes.

Lemma filter_one (p : pydict → bool) l r r' : length (List.filter p l) = 1 → r ∈ l → p r = true → r' ∈ l → p r' = true → r = r'.
Proof.
  intros Hlen Hr Hp Hr' Hp'. assert (H1 : r ∈ List.filter p l) by (by apply filter_elem). assert (H2 : r' ∈ List.filter p l) by (by apply filter_elem).
  destruct (List.filter p l) as [|x [|y l']]; try done. apply list_elem_of_singleton in H1, H2. by subst.
Qed.

Lemma existsb_filter (p q : pydict → bool) l : existsb q l = false → existsb q (List.filter p l) = false.
Proof.
  induction l as [|x l IH]; [done|]. simpl. rewrite orb_false_iff. intros [Hx Hl]. destruct (p x); [simpl; rewrite Hx|]; by apply IH.
Qed.

(** The keys that [query] adds or changes. *)
Definition read_keys : list string := ["group"; "email"; "groups"; "sshpubkey"; "local"; "id_type_both"].
(** The keys that are not written back, or only by a password. *)
Definition write_keys : list string := ["home_mode"; "sshpubkey"; "password"; "unixhash"; "smbhash"; "groups"; "local"; "id_type_both"].

Section service.
Context {O : Type} `{host : !Host O}.
Notation MN := (M (Accounts O) exn).
Implicit Types (s : Accounts O) (data : pydict) (U G : list pydict).

Lemma user_extend_col s r user :
  user_extend s r = Ret user → NoDup (dkeys r) →
  NoDup (dkeys user) ∧ (∀ k, k ∉ read_keys → col user k = col r k) ∧ col user "group" = expand_group s (col r "group").
Proof.
  unfold user_extend. destruct (read_authorized_keys _ _) as [keys|]; [|done]. cbn [mbind outcome_bind]. intros [= <-] Hn.
  set (u1 := dset r "group" _). set (u2 := if py_eq (col u1 "email") _ then _ else _). set (u3 := dset u2 "groups" _).
  assert (H2 : ∀ k, k ≠ "email" → col u2 k = col u1 k) by (intros k Hk; unfold u2; destruct (py_eq _ _); [by rewrite col_dset_ne|done]).
  split_and!.
  - repeat apply dset_NoDup. unfold u2. destruct (py_eq _ _); repeat apply dset_NoDup; done.
  - intros k Hk. unfold read_keys in Hk. rewrite !not_elem_of_cons in Hk. destruct Hk as (Kg & Ke & Kgs & Ks & Kl & Ki & _).
    rewrite !col_dset_ne by congruence. unfold u3. rewrite col_dset_ne by congruence.
    rewrite H2 by done. unfold u1. by rewrite col_dset_ne by congruence.
  - rewrite !col_dset_ne by done. unfold u3. rewrite col_dset_ne, H2 by done. unfold u1. by rewrite col_dset.
Qed.

Lemma get_user_spec pk s :
  match (get_user pk s).1 with
  | Ret user => ∃ r, r ∈ s.(users) ∧ user_extend s r = Ret user ∧ eq_col "id" pk user = true
  | Raise _ => True
  end.
Proof.
  unfold get_user, query_users, mbind, M_bind. destruct (mapO (user_extend s) (users s)) as [l|e] eqn:E; [|done].
  destruct (List.filter (eq_col "id" pk) l) as [|u l'] eqn:Hf; [done|]. cbn.
  assert (u ∈ List.filter (eq_col "id" pk) l) as [Hu Hid]%filter_elem by (rewrite Hf; set_solver).
  assert (Hin : ∀ l0 l1, mapO (user_extend s) l0 = Ret l1 → u ∈ l1 → ∃ r, r ∈ l0 ∧ user_extend s r = Ret u).
  { clear. induction l0 as [|x l0 IH]; intros l1; cbn [mapO]; [intros [= <-]; set_solver|].
    destruct (user_extend s x) as [y|] eqn:Ex; [|done]. destruct (mapO (user_extend s) l0) as [ys|] eqn:El; [|done]. intros [= <-].
    intros [->|Hu]%elem_of_cons; [exists x; set_solver|]. destruct (IH ys eq_refl Hu) as (r & ? & ?). exists r. set_solver. }
  destruct (Hin _ _ E Hu) as (r & Hr & Hx). eauto.
Qed.

(** The group of a user is found, with its id. *)
Lemma expand_group_id s r :
  sound s = true → r ∈ s.(users) → ∃ d, expand_group s (col r "group") = PDict d ∧ dget d "id" = Some (col r "group").
Proof.
  intros ((_ & Kg & _) & Fg & _)%accounts_sound_spec Hr.
  assert (Href : col r "group" ∈ ids s.(groups)).
  { unfold fk in Fg. rewrite forallb_forall in Fg. specialize (Fg r ltac:(by apply list_elem_of_In)). by apply bool_decide_eq_true in Fg. }
  apply list_elem_of_fmap in Href as (g & Eg & Hg). destruct (keyed_row _ _ Kg Hg) as [z Hz].
  assert (Hgz : col g "id" = PInt z) by (unfold col; by rewrite Hz).
  unfold expand_group. destruct (List.filter (eq_col "id" (col r "group")) (groups s)) as [|g' l] eqn:E.
  - exfalso. assert (g ∈ List.filter (eq_col "id" (col r "group")) (groups s)) as H; [|by rewrite E in H; apply not_elem_of_nil in H].
    apply filter_elem. split; [done|]. unfold eq_col. rewrite Eg, Hgz. simpl. apply Z.eqb_refl.
  - assert (g' ∈ List.filter (eq_col "id" (col r "group")) (groups s)) as [Hg' Hp]%filter_elem by (rewrite E; set_solver).
    eexists. split; [done|]. destruct (keyed_row _ _ Kg Hg') as [z' Hz'].
    assert (z' = z) as ->. { unfold eq_col, col in Hp. rewrite Hz' in Hp. fold (col r "group") in Hp. rewrite Eg, Hgz in Hp. simpl in Hp. by apply Z.eqb_eq in Hp. }
    rewrite Eg, Hgz, <-Hz'. clear. induction g' as [|[k v] g' IH]; [done|]. cbn [fmap list_fmap dget fst snd].
    destruct (String.eqb_spec k "id") as [->|Hne]; [by rewrite !decide_True|]. rewrite (decide_False (P := k = "id")) by done.
    rewrite decide_False; [apply IH|]. by destruct k.
Qed.
(** ** What is written of a user *)

Lemma set_password_col d data data' :
  set_password d data = Ret data' → NoDup (dkeys data) →
  NoDup (dkeys data') ∧ ∀ k, k ∉ ["password"; "unixhash"; "smbhash"] → dget data' k = dget data k.
Proof.
  unfold set_password. intros H Hn.
  assert (Hd : ∀ u m, NoDup (dkeys (dset (dset (ddel data "password") "unixhash" u) "smbhash" m)) ∧
    ∀ k, k ∉ ["password"; "unixhash"; "smbhash"] → dget (dset (dset (ddel data "password") "unixhash" u) "smbhash" m) k = dget data k).
  { intros u m. split; [by apply dset_NoDup, dset_NoDup, ddel_NoDup|]. intros k Hk. rewrite !not_elem_of_cons in Hk. destruct Hk as (? & ? & ? & _).
    rewrite !dget_dset_ne, dget_ddel_ne by congruence. done. }
  destruct (dget data "password") as [p|]; [|by injection H as <-].
  destruct (truthy p); [|injection H as <-; apply Hd].
  destruct (crypted_password _ _) as [h|]; [|done]. cbn [mbind outcome_bind] in H. destruct (item _ "username") as [n|]; [|done].
  cbn [mbind outcome_bind] in H. destruct (item _ "uid") as [u|]; [|done]. cbn [mbind outcome_bind] in H.
  destruct (nt_password _ _) as [nt|]; [|done]. cbn [mbind outcome_bind] in H. revert H.
  match goal with |- Ret (dupdate _ [_; ("smbhash", ?m)]) = _ → _ => generalize m end. intros m [= <-]. apply Hd.
Qed.

(** The values that are written: those given, else those read. *)
Definition written (d : Draw) (user data : pydict) : outcome exn pydict :=
  u ← set_password d (ddel (ddel (dupdate user data) "home_mode") "sshpubkey");
  Ret (compress (ddel u "groups")).

Lemma written_col d user data u :
  written d user data = Ret u → NoDup (dkeys user) → NoDup (dkeys data) →
  NoDup (dkeys u) ∧ ∀ k, k ∉ write_keys → dget u k = match dget data k with Some v => Some v | None => dget user k end.
Proof.
  unfold written. destruct (set_password _ _) as [u1|] eqn:E; [|done]. cbn [mbind outcome_bind]. intros [= <-] Hu Hd.
  apply set_password_col in E as [Hn1 H1]; [|by apply ddel_NoDup, ddel_NoDup, dupdate_NoDup].
  split; [unfold compress; by apply ddel_NoDup, ddel_NoDup, ddel_NoDup|]. intros k Hk. unfold write_keys in Hk. rewrite !not_elem_of_cons in Hk.
  destruct Hk as (K1 & K2 & K3 & K4 & K5 & K6 & K7 & K8 & _). unfold compress. rewrite !dget_ddel_ne by congruence.
  rewrite H1 by (rewrite !not_elem_of_cons; split_and!; try done; set_solver). rewrite !dget_ddel_ne by congruence.
  by rewrite dget_dupdate, dget_rev.
Qed.

Lemma group_of_update_spec data user verrors s :
  match (group_of_update data user verrors s).1 with
  | Ret (_, user1, v) =>
      v = verrors ∧
      match dget data "group" with
      | Some id => user1 = user ∧ ∃ g, g ∈ s.(groups) ∧ py_eq (col g "id") id = true
      | None => ∃ d id, dget user "group" = Some (PDict d) ∧ dget d "id" = Some id ∧ user1 = dset user "group" id
      end
  | Raise _ => True
  end.
Proof.
  unfold group_of_update. destruct (dget data "group") as [id|].
  - rewrite (bind_ret get_state _ s s s) by done. destruct (List.filter (eq_col "id" id) (groups s)) as [|g l] eqn:E; [done|]. cbn.
    split; [done|]. split; [done|]. exists g. assert (g ∈ List.filter (eq_col "id" id) (groups s)) as [? ?]%filter_elem by (rewrite E; set_solver). done.
  - unfold get_item, item, lift, mbind, M_bind. destruct (dget user "group") as [[| | | | |d]|]; try done. destruct (dget d "id") as [id|] eqn:Ed; [|done].
    cbn. split; [done|]. by exists d, id.
Qed.

Lemma check_builtin_grows data user l : ∀ v,
  match foldO (λ verrors k,
    match dget data k with
    | None => Ret verrors
    | Some v =>
        old ← item (PDict user) k;
        Ret (if py_eq v old then verrors else VErrors.add verrors ("user_update." +:+ k) "This attribute cannot be changed" EINVAL)
    end) v l with
  | Ret v' => v' = [] → v = [] ∧ ∀ k x, k ∈ l → dget data k = Some x → py_eq x (col user k) = true
  | Raise _ => True
  end.
Proof.
  induction l as [|k l IH]; intros v; cbn [foldO]; [by intros ->; split; [done|set_solver]|].
  destruct (dget data k) as [x|] eqn:Ek; cbn [mbind outcome_bind].
  - unfold item. destruct (dget user k) as [old|] eqn:Eo; cbn [mbind outcome_bind]; [|done].
    specialize (IH (if py_eq x old then v else VErrors.add v ("user_update." +:+ k) "This attribute cannot be changed" EINVAL)).
    destruct (foldO _ _ l) as [v'|]; [|done]. intros ->. destruct (IH eq_refl) as [Hv Hl].
    destruct (py_eq x old) eqn:Ex; [|by destruct (add_nonempty _ _ _ _ Hv)]. split; [done|].
    intros k' x' [->|Hk]%elem_of_cons; [|by apply Hl]. rewrite Ek. intros [= <-]. unfold col. by rewrite Eo.
  - specialize (IH v). destruct (foldO _ v l) as [v'|]; [|done]. intros ->. destruct (IH eq_refl) as [Hv Hl]. split; [done|].
    intros k' x' [->|Hk]%elem_of_cons; [by rewrite Ek|by apply Hl].
Qed.

Lemma check_add (v : verrs) a m e : VErrors.check (VErrors.add v a m e) = Raise (ValidationErrors (VErrors.add v a m e)).
Proof. unfold VErrors.check, VErrors.add. by destruct v. Qed.

Lemma check_update_spec pk data user home v s :
  match (check_update pk data user home v s).1 with
  | Ret _ => v = [] ∧ (builtin user = true → ∀ k x, k ∈ fixed_attributes → dget data k = Some x → py_eq x (col user k) = true)
  | Raise _ => True
  end.
Proof.
  unfold check_update. set (v1 := if truthy (col data "sshpubkey") && _ && _ then _ else v).
  assert (Hv1 : v1 = [] → v = []) by (unfold v1; destruct (truthy _ && _ && _); [intros E; exfalso; by eapply add_nonempty|done]).
  unfold mbind, M_bind. fold (builtin user). destruct (builtin user) eqn:Eb; cbn [lift].
  - pose proof (check_builtin_grows data user fixed_attributes v1) as Hc. unfold check_builtin.
    destruct (foldO _ v1 fixed_attributes) as [v2|]; [|done]. cbn. destruct (negb (truthy (col user "smb")) && _ && _).
    + by rewrite check_add.
    + destruct v2; [|done]. cbn. destruct (Hc eq_refl) as [H1 H2]. split; [by apply Hv1|]. intros _. apply H2.
  - cbn. destruct (negb (truthy (col user "smb")) && _ && _).
    + by rewrite check_add.
    + destruct v1; [|done]. cbn. split; [by apply Hv1|done].
Qed.

#[local] Hint Resolve lift_keeps get_item_keeps keeps_host_op keeps_host_get keeps_host_read keeps_call keeps_insert_member
  keeps_delete_member keeps_query_users keeps_get_user keeps_get_group keeps_suppress keeps_check_sudo keeps_user_validation
  keeps_group_validation keeps_set_groups keeps_reload keeps_sync_groups keeps_sync_map keeps_update_keys keeps_create_home
  keeps_copy_skel keeps_change_pdb keeps_update_home keeps_set_users keeps_forget_guest keeps_inv : keeps.

Context (B : list pydict) (HB : scalars B).
Notation I := (accounts B).
Notation ok := (inv (O:=O) I).
Notation FX := (fixed (O:=O)).

Lemma update_row_triple U G pk u :
  I U G →
  (∀ r, r ∈ U → eq_col "id" pk r = true → length (List.filter (eq_col "id" pk) U) = 1 →
     NoDup (dkeys (dupdate r u)) ∧ is_str (col (dupdate r u) "username") = true ∧
     (col (dupdate r u) "username" = col r "username" ∨
      existsb (eq_col "username" (col (dupdate r u) "username")) (List.filter (λ r, negb (eq_col "id" pk r)) U) = false) ∧
     builtin (dupdate r u) = builtin r ∧
     (builtin r = true → col (dupdate r u) "group" = col r "group" ∧ ∀ k, k ∈ fixed_keys → col (dupdate r u) k = col r k ∨ py_eq (col (dupdate r u) k) (col r k) = true)) →
  triple (FX U G) (update_row TUsers pk u) (λ _, ok) (λ _, ok).
Proof.
  intros HI Hr s Hs. unfold update_row. rewrite (bind_ret get_state _ s s s) by done. cbn [get_table]. pose proof Hs as (Hsound & HU & HG).
  rewrite HU. destruct (List.filter (eq_col "id" pk) U) as [|r0 [|r1 l]] eqn:E; [by eapply fixed_inv| |by eapply fixed_inv].
  revert s Hs Hsound HU HG. cut (triple (FX U G)
    (write (λ s : Accounts O, set_table TUsers ((λ r, if eq_col "id" pk r then dupdate r u else r) <$> get_table TUsers s) s)) (λ _, ok) (λ _, ok));
    [intros Ht s Hs _ _ _; by apply (Ht s)|].
  apply triple_write; [done|]. intros s (_ & HU & HG). cbn [set_table get_table users groups]. rewrite HU, HG. apply update_user; [done|done|by rewrite E|]. intros r Hin Hp. by apply Hr.
Qed.

(** The given data: keys once, none that only the service writes, names that are text. *)
Definition ok_data data : Prop :=
  NoDup (dkeys data) ∧ "builtin" ∉ dkeys data ∧ "id" ∉ dkeys data ∧ ∀ v, dget data "username" = Some v → is_str v = true.

(** Membership of a key in a list of keys, by computation. *)
Ltac key := apply (bool_decide_unpack _); vm_compute; exact Logic.I.

(** The user that is read, and the row it is read from. *)
Definition read_user U (pk : pyval) (r user : pydict) : Prop :=
  r ∈ U ∧ NoDup (dkeys user) ∧ eq_col "id" pk r = true ∧ (∀ k, k ∉ read_keys → col user k = col r k) ∧
  ∃ d, col user "group" = PDict d ∧ dget d "id" = Some (col r "group").

Lemma get_user_read U G pk : I U G →
  ∀ s, FX U G s → match (get_user pk s).1 with Ret user => ∃ r, read_user U pk r user | Raise _ => True end.
Proof.
  intros HI s (Hs & HU & HG). pose proof (get_user_spec pk s) as H. destruct (get_user pk s).1 as [user|]; [|done].
  destruct H as (r & Hr & Hx & Hid). rewrite HU in Hr. exists r.
  destruct (user_extend_col s r user Hx (dict_users _ _ _ HI r Hr)) as (Hn & Hcol & Hg).
  split_and!; [done|done| |done|].
  - unfold eq_col in *. by rewrite <-(Hcol "id") by key.
  - rewrite Hg. rewrite <-HU in Hr. by apply expand_group_id.
Qed.

(** The row that [do_update] writes is one that may be written. *)
Lemma written_row U G pk r user user1 (d : Draw) data u :
  I U G → keyed G = true → ok_data data → read_user U pk r user →
  match dget data "group" with
  | Some id => user1 = user ∧ ∃ g, g ∈ G ∧ py_eq (col g "id") id = true
  | None => ∃ dd id, dget user "group" = Some (PDict dd) ∧ dget dd "id" = Some id ∧ user1 = dset user "group" id
  end →
  (∀ n, dget data "username" = Some n → existsb (eq_col "username" n) (excluding pk U) = false) →
  (builtin user1 = true → ∀ k x, k ∈ fixed_attributes → dget data k = Some x → py_eq x (col user1 k) = true) →
  written d user1 data = Ret u →
  ∀ r', r' ∈ U → eq_col "id" pk r' = true → length (List.filter (eq_col "id" pk) U) = 1 →
     NoDup (dkeys (dupdate r' u)) ∧ is_str (col (dupdate r' u) "username") = true ∧
     (col (dupdate r' u) "username" = col r' "username" ∨
      existsb (eq_col "username" (col (dupdate r' u) "username")) (List.filter (λ r, negb (eq_col "id" pk r)) U) = false) ∧
     builtin (dupdate r' u) = builtin r' ∧
     (builtin r' = true → col (dupdate r' u) "group" = col r' "group" ∧ ∀ k, k ∈ fixed_keys → col (dupdate r' u) k = col r' k ∨ py_eq (col (dupdate r' u) k) (col r' k) = true).
Proof.
  intros HI HG (Hd & Hdb & Hdi & Hdn) (Hr & Hn & Hid & Hcol & (dg & Hgd & Hgi)) Hgrp Hfree Hfix Hw r' Hr' Hid' Hlen.
  assert (r' = r) as -> by (by apply (filter_one (eq_col "id" pk) U)).
  assert (H1 : NoDup (dkeys user1) ∧ (∀ k, k ∉ read_keys → col user1 k = col r k)).
  { destruct (dget data "group"); [destruct Hgrp as [-> _]; done|]. destruct Hgrp as (dd & id & _ & _ & ->). split; [by apply dset_NoDup|].
    intros k Hk. rewrite col_dset_ne by (intros <-; apply Hk; key). by apply Hcol. }
  destruct H1 as [Hn1 Hcol1]. destruct (written_col d user1 data u Hw Hn1 Hd) as [Hnu Hu].
  assert (Hnew : ∀ k, k ∉ write_keys → k ∉ read_keys → col (dupdate r u) k = match dget data k with Some v => v | None => col r k end).
  { intros k Hk1 Hk2. rewrite col_dupdate, Hu by done. destruct (dget data k); [done|]. destruct (dget user1 k) as [v|] eqn:E; [|done].
    rewrite <-Hcol1 by done. unfold col. by rewrite E. }
  assert (Hin : ∀ k, k ∈ fixed_keys → k ∉ write_keys ∧ k ∉ read_keys) 
    by (apply Forall_forall; key).
  assert (Hbuiltin : builtin (dupdate r u) = builtin r).
  { unfold builtin. rewrite Hnew by (apply Hin; key). by rewrite (proj2 (dget_None data "builtin") Hdb). }
  destruct (unique_users _ _ _ HI) as [_ Hstr].
  split_and!; [by apply dupdate_NoDup, (dict_users _ _ _ HI)| | |done|].
  - rewrite Hnew by (apply Hin; key). destruct (dget data "username") as [v|] eqn:E; [by apply Hdn|by apply Hstr].
  - rewrite Hnew by (apply Hin; key). destruct (dget data "username") as [v|] eqn:E; [|by left]. right.
    specialize (Hfree v eq_refl). unfold excluding in Hfree. destruct (truthy pk); [done|by apply existsb_filter].
  - intros Hbr. assert (Hb1 : builtin user1 = true) by (unfold builtin in *; rewrite Hcol1; [done|key]). specialize (Hfix Hb1). split.
    + rewrite col_dupdate, Hu by (done || key). destruct (dget data "group") as [x|] eqn:Eg.
      * exfalso. destruct Hgrp as [-> (g & Hg & Hgx)]. specialize (Hfix "group" x ltac:(key) Eg). rewrite Hgd in Hfix.
        destruct (keyed_row _ _ HG Hg) as [z Hz]. unfold col in Hgx. rewrite Hz in Hgx. by destruct x.
      * destruct Hgrp as (dd & id & Hdd & Hid2 & ->). rewrite dget_dset. unfold col in Hgd. rewrite Hdd in Hgd. injection Hgd as ->. congruence.
    + intros k Hk. destruct (Hin k Hk) as [Hk1 Hk2]. rewrite Hnew by done. destruct (dget data k) as [v|] eqn:E; [|by left]. right.
      rewrite <-Hcol1 by done. apply Hfix; [|done]. apply dget_None in Hdb, Hdi.
      assert (Hk' : k = "id" ∨ k = "builtin" ∨ k ∈ fixed_attributes)
        by (clear Hk1 Hk2 E; revert k Hk; apply Forall_forall; key).
      destruct Hk' as [->|[->|Hk']]; congruence || done.
Qed.

(** Steps that leave the tables alone. *)
Ltac frame := apply fixed_bind_any; [done|solve [auto with keeps nocore]|].

Lemma keeps_ok {A} (m : MN A) : (∀ U G, keeps (FX U G) m) → keeps ok m.
Proof. apply keeps_inv. Qed.

Lemma user_update_ok d pk data : ok_data data → keeps ok (user_update d pk data).
Proof.
  intros Hdata. apply triple_keeps_inv. intros U G HI HkU HkG. unfold user_update.
  eapply (fixed_bind I); [done|auto with keeps|by apply get_user_read|]. intros user [r Hread].
  eapply (fixed_bind I _ _ _ _ (λ x, x.2 = [] ∧ match dget data "group" with
      | Some id => x.1.2 = user ∧ ∃ g, g ∈ G ∧ py_eq (col g "id") id = true
      | None => ∃ dd id, dget user "group" = Some (PDict dd) ∧ dget dd "id" = Some id ∧ x.1.2 = dset user "group" id
      end)); [done|unfold group_of_update; keeps_tac| |].
  { intros s (_ & _ & HG). pose proof (group_of_update_spec data user [] s) as H. rewrite HG in H. by destruct (group_of_update data user [] s).1 as [[[? ?] ?]|]. }
  intros [[group user1] v0] [Hv0 Hgrp]. cbn [fst snd] in Hv0, Hgrp. subst v0.
  eapply (fixed_bind I _ _ _ _ (λ v, v = [] → ∀ n, dget data "username" = Some n → existsb (eq_col "username" n) (excluding pk U) = false));
    [done|auto with keeps| |].
  { intros s (_ & HU & _). pose proof (user_validation_free "user_update" data pk [] s) as H. rewrite HU in H.
    destruct (user_validation _ _ _ _ s).1; [|done]. intros Hv. by apply H. }
  intros verrors Hfree. apply fixed_bind_any; [done|apply keeps_suppress; keeps_tac|]. intros old_mode.
  eapply (fixed_bind I _ _ _ _ (λ _, verrors = [] ∧ (builtin user1 = true → ∀ k x, k ∈ fixed_attributes → dget data k = Some x → py_eq x (col user1 k) = true)));
    [done|unfold check_update; keeps_tac| |].
  { intros s _. by apply check_update_spec. }
  intros _ [Hv Hfix]. specialize (Hfree Hv). frame. intros must. frame. intros _.
  eapply (fixed_bind I _ _ _ _ (λ u, set_password d (ddel (ddel (dupdate user1 data) "home_mode") "sshpubkey") = Ret u)); [done|auto with keeps| |].
  { intros s _. unfold lift. cbn [fst]. by destruct (set_password _ _). }
  intros u Hu. apply fixed_bind_any; [done|destruct (dget u "groups"); keeps_tac|]. intros _.
  apply change_bind.
  - apply update_row_triple; [done|]. intros r' Hr' Hid' Hlen.
    eapply (written_row U G pk r user user1 d data (compress (ddel u "groups"))); try done. unfold written. by rewrite Hu.
  - intros _. apply keeps_ok. intros U' G'. keeps_tac.
Qed.

(** ** Deleting a group *)

(** The id of a row, and whether it is built in. *)
Definition tag (r : pydict) : pyval * bool := (col r "id", builtin r).
Definition tags_within U U0 : Prop := ∀ r, r ∈ U → tag r ∈ tag <$> U0.

(** A row whose tag is among those of [U0] is built in when the row of [U0] is. *)
Lemma tag_builtin U U0 u r :
  keyed U0 = true → tags_within U U0 → u ∈ U0 → r ∈ U → eq_col "id" (col u "id") r = true → builtin r = builtin u.
Proof.
  intros Hk Ht Hu Hr E. specialize (Ht r Hr). apply list_elem_of_fmap in Ht as (r0 & Etag & Hr0). injection Etag as Eid Eb.
  rewrite Eb. f_equal. apply (keyed_same U0 _ _ (col u "id")); [done|done|done| |].
  - unfold eq_col in *. by rewrite <-Eid.
  - destruct (keyed_row _ _ Hk Hu) as [z Hz]. unfold eq_col, col. rewrite Hz. simpl. apply Z.eqb_refl.
Qed.

Lemma get_group_spec pk s :
  match (get_group pk s).1 with
  | Ret group => ∃ g, g ∈ s.(groups) ∧ eq_col "id" pk g = true ∧ group = group_extend s g
  | Raise _ => True
  end.
Proof.
  unfold get_group. rewrite (bind_ret get_state _ s s s) by done. destruct (List.filter (eq_col "id" pk) (query_groups s)) as [|x l] eqn:E; [done|]. cbn.
  assert (x ∈ List.filter (eq_col "id" pk) (query_groups s)) as [Hx Hid]%filter_elem by (rewrite E; set_solver).
  apply list_elem_of_fmap in Hx as (g & -> & Hg). exists g. split_and!; [done| |done]. unfold eq_col in *. revert Hid. unfold group_extend.
  cbn [dupdate foldl fst snd]. by rewrite !col_dset_ne.
Qed.

Lemma group_extend_col s g k : k ∉ ["users"; "local"; "id_type_both"] → col (group_extend s g) k = col g k.
Proof.
  intros Hk. rewrite !not_elem_of_cons in Hk. destruct Hk as (? & ? & ? & _). unfold group_extend. cbn [dupdate foldl fst snd]. by rewrite !col_dset_ne by congruence.
Qed.

Section group_delete.
Context (J : list pydict → list pydict → Prop) (delete_users : bool).
Hypothesis J_accounts : ∀ U G, J U G → I U G.
Hypothesis J_regroup : ∀ U G id x, J U G → (∀ u, u ∈ U → eq_col "id" id u = true → builtin u = false) →
  length (List.filter (eq_col "id" id) U) = 1 → J ((λ r, if eq_col "id" id r then dupdate r [("group", x)] else r) <$> U) G.
Hypothesis J_remove_users : ∀ U G p, delete_users = true → J U G → (∀ u, u ∈ U → builtin u = true → p u = true) → J (List.filter p U) G.
Hypothesis J_remove_groups : ∀ U G p, J U G → (∀ g, g ∈ G → builtin g = true → p g = true) → J U (List.filter p G).

Lemma move_user U0 G0 u x :
  keyed U0 = true → u ∈ U0 → builtin u = false →
  keeps (inv (O:=O) (λ U G, J U G ∧ tags_within U U0 ∧ G = G0))
    (if delete_users then delete_row TUsers (col u "id") else update_row TUsers (col u "id") [("group", x)]).
Proof.
  intros Hk Hu Hb s Hinv. pose proof Hinv as [Hs (HJ & Ht & HG)]. assert (Hnb : ∀ r, r ∈ users s → eq_col "id" (col u "id") r = true → builtin r = false).
  { intros r Hr E. rewrite <-Hb. by apply (tag_builtin (users s) U0). }
  destruct delete_users eqn:Ed.
  - unfold delete_row, write. destruct (sound (cascade _)) eqn:E; [|exact Hinv]. split; [done|]. cbn. split_and!; [|intros r [Hr _]%filter_elem; by apply Ht|done].
    apply J_remove_users; [done|done|]. intros r Hr Hbr. apply negb_true_iff. destruct (eq_col "id" (col u "id") r) eqn:Er; [|done]. by rewrite Hnb in Hbr.
  - unfold update_row. rewrite (bind_ret get_state _ s s s) by done. cbn [get_table].
    destruct (List.filter (eq_col "id" (col u "id")) (users s)) as [|r0 [|r1 l]] eqn:Ef; [exact Hinv| |exact Hinv].
    unfold write. destruct (sound (set_table _ _ _)) eqn:E; [|exact Hinv]. split; [done|]. cbn [snd set_table users groups get_table]. split_and!; [| |done].
    + apply J_regroup; [done|done|by rewrite Ef].
    + intros r' Hr'. apply list_elem_of_fmap in Hr' as (r & -> & Hr). destruct (eq_col "id" (col u "id") r); [|by apply Ht].
      replace (tag (dupdate r [("group", x)])) with (tag r); [by apply Ht|]. unfold tag, builtin. cbn [dupdate foldl fst snd]. by rewrite !col_dset_ne.
Qed.

Lemma group_delete_keeps pk : keeps (inv (O:=O) J) (group_delete pk delete_users).
Proof.
  intros s [Hs HJ]. unfold group_delete, mbind, M_bind. pose proof (get_group_spec pk s) as Hg. pose proof (keeps_get_group (λ s', s' = s) pk s eq_refl) as Hst.
  destruct (get_group pk s) as [[group|e] s1]; cbn [fst snd] in Hst, Hg; subst s1; [|by split]. destruct Hg as (g & Hg & Hid & ->).
  cbn beta iota. rewrite !group_extend_col by key. fold (builtin g). destruct (builtin g) eqn:Eb; [by split|]. cbn [get_state].
  destruct (List.filter (eq_col "group" (PStr "nogroup")) (groups s)) as [|nogroup l]; [by split|].
  pose proof Hs as ((HkU & HkG & _) & _)%accounts_sound_spec.
  assert (Hloop : keeps (inv (O:=O) (λ U G, J U G ∧ tags_within U (users s) ∧ G = groups s))
    (forM (List.filter (eq_col "group" (col g "id")) (users s)) (λ u,
       if delete_users then delete_row TUsers (col u "id") else update_row TUsers (col u "id") [("group", col nogroup "id")]))).
  { assert (Hall : ∀ u, u ∈ List.filter (eq_col "group" (col g "id")) (users s) → u ∈ users s ∧ builtin u = false).
    { intros u [Hu Hug]%filter_elem. split; [done|]. destruct (builtin u) eqn:Ebu; [|done]. exfalso.
      destruct (builtin_groups _ _ _ (J_accounts _ _ HJ) u Hu Ebu) as (g' & Hg' & Eg' & Hbg').
      assert (g' = g) as ->; [|congruence]. destruct (keyed_row _ _ HkG Hg) as [z Hz]. apply (keyed_same (groups s) _ _ (col g "id")); [done..| |].
      - unfold eq_col in *. rewrite Eg'. done.
      - unfold eq_col, col. rewrite Hz. simpl. apply Z.eqb_refl. }
    revert Hall. induction (List.filter (eq_col "group" (col g "id")) (users s)) as [|u us IH]; intros Hall; cbn [forM]; [apply keeps_ret|].
    apply keeps_bind; [apply move_user; [done|apply Hall; set_solver..]|]. intros _. apply IH. set_solver. }
  specialize (Hloop s ltac:(split; [done|]; split_and!; [done| |done]; intros r Hr; by apply (list_elem_of_fmap_2 tag))).
  destruct (forM _ _ s) as [[[]|e] s2]; destruct Hloop as [Hs2 (HJ2 & _ & HG2)]; [|by split]. cbn [snd] in Hs2, HJ2, HG2.
  assert (Hdel : keeps (inv (O:=O) (λ U G, J U G ∧ (∀ g', g' ∈ G → eq_col "id" pk g' = true → builtin g' = false))) (delete_row TGroups pk)).
  { intros s3 Hinv. pose proof Hinv as [Hs3 [HJ3 Hnb]]. unfold delete_row, write. destruct (sound (cascade _)) eqn:E; [|done]. split; [done|]. cbn. split.
    - apply J_remove_groups; [done|]. intros g' Hg' Hb'. apply negb_true_iff. destruct (eq_col "id" pk g') eqn:E'; [|done]. by rewrite Hnb in Hb'.
    - intros g' [Hg' _]%filter_elem. by apply Hnb. }
  specialize (Hdel s2 ltac:(split; [done|]; split; [done|]; rewrite HG2; intros g' Hg' E'; by rewrite (keyed_same (groups s) g' g pk))).
  destruct (delete_row TGroups pk s2) as [[[]|e] s3]; destruct Hdel as [Hs3 [HJ3 _]]; [|by split]. cbn [snd] in Hs3, HJ3.
  revert s3 Hs3 HJ3. cut (keeps (inv (O:=O) J) ((if truthy (col g "smb") then synchronize_group_mappings else mret tt);; service_reload "user";; mret pk));
    [intros H s3 Hs3 HJ3; by apply H|]. apply keeps_inv. intros U' G'. keeps_tac.
Qed.
End group_delete.

Lemma regroup_ok U G id x : I U G → (∀ u, u ∈ U → eq_col "id" id u = true → builtin u = false) →
  length (List.filter (eq_col "id" id) U) = 1 → I ((λ r, if eq_col "id" id r then dupdate r [("group", x)] else r) <$> U) G.
Proof.
  intros HI Hnb Hlen. apply update_user; [done..|]. intros r Hr E. specialize (Hnb r Hr E). destruct (unique_users _ _ _ HI) as [_ Hstr].
  unfold builtin in *. cbn [dupdate foldl fst snd]. rewrite !col_dset_ne by done.
  split_and!; [by apply dset_NoDup, (dict_users _ _ _ HI)|by apply Hstr|by left|done|by rewrite Hnb].
Qed.

Lemma group_delete_ok pk delete_users : keeps ok (group_delete pk delete_users).
Proof.
  apply group_delete_keeps; [done|by apply regroup_ok| |]; intros; [by apply remove_users|by apply remove_groups].
Qed.

(** Moving users to another group leaves their ids and who is built in. *)
Lemma group_delete_tags pk T : keeps (inv (O:=O) (λ U G, I U G ∧ (tag <$> U) = T)) (group_delete pk false).
Proof.
  apply group_delete_keeps; [by intros U G []| |done|].
  - intros U G id x [HI <-] Hnb Hlen. split; [by apply regroup_ok|]. rewrite <-list_fmap_compose. apply list_fmap_ext. intros i r _.
    unfold compose. destruct (eq_col "id" id r); [|done]. unfold tag, builtin. cbn [dupdate foldl fst snd]. by rewrite !col_dset_ne.
  - intros U G p [HI HT] Hp. split; [by apply remove_groups|done].
Qed.

(** ** Deleting a user *)

Lemma user_delete_ok pk delete_group : keeps ok (user_delete pk delete_group).
Proof.
  apply triple_keeps_inv. intros U G HI HkU HkG. unfold user_delete.
  eapply (fixed_bind I); [done|auto with keeps|by apply get_user_read|]. intros user [r (Hr & _ & Hid & Hcol & _)].
  assert (Hub : truthy (col user "builtin") = builtin r) by (unfold builtin; by rewrite Hcol by key). rewrite Hub.
  destruct (builtin r) eqn:Eb; [apply triple_raise; intros s Hs; by eapply fixed_inv|].
  apply fixed_bind_any; [done|keeps_tac|]. intros bg. apply fixed_bind_any; [done|keeps_tac|]. intros gid.
  apply fixed_bind_any; [done|keeps_tac|]. intros s0.
  set (K := inv (O:=O) (λ U' G', I U' G' ∧ (tag <$> U') = tag <$> U)).
  assert (HK : ∀ {A} (m : MN A), (∀ U G, keeps (FX U G) m) → keeps K m) by (intros A m Hm; by apply keeps_inv).
  assert (Hok : ∀ s, K s → ok s) by (intros s [? []]; by split).
  eapply (triple_bind _ _ _ (λ _, K)).
  { eapply triple_conseq; [apply (keeps_triple K)| |done|intros; by apply Hok].
    - destruct (delete_group && _ && _ && _); [|keeps_tac]. apply keeps_bind; [|keeps_tac].
      unfold suppress. apply keeps_try; [apply group_delete_tags|]. keeps_tac.
    - intros s (Hs & <- & <-). by split. }
  intros _. eapply (triple_bind _ _ _ (λ _, K)).
  { eapply triple_conseq; [apply (keeps_triple K)|done|done|intros; by apply Hok]. apply HK. intros U' G'. keeps_tac. }
  intros _. eapply (triple_bind _ _ _ (λ _, K)).
  { eapply triple_conseq; [apply (keeps_triple K)|done|done|intros; by apply Hok]. apply HK. intros U' G'. apply keeps_forget_guest. }
  intros _. eapply (triple_bind _ _ _ (λ _, ok)).
  - intros s HKs. pose proof HKs as [Hs [HI' HT]]. unfold delete_row, write. destruct (sound (cascade _)) eqn:E; [|by apply Hok].
    split; [done|]. cbn. apply remove_users; [done|done|]. intros u Hu Hbu. apply negb_true_iff. destruct (eq_col "id" pk u) eqn:Eu; [|done]. exfalso.
    assert (Htag : tag u ∈ tag <$> U) by (rewrite <-HT; by apply (list_elem_of_fmap_2 tag)). apply list_elem_of_fmap in Htag as (u1 & Et & Hu1).
    injection Et as Eid Ebu. assert (u1 = r); [|congruence]. apply (keyed_same U _ _ pk); [done..| |done]. unfold eq_col in *. by rewrite <-Eid.
  - intros _. apply keeps_triple, keeps_ok. intros U' G'. keeps_tac.
Qed.

(** ** Creating and updating a group *)

Lemma check_sudo_nonempty schema data v s : v ≠ [] → match (check_sudo schema data v s).1 with Ret v' => v' ≠ [] | Raise _ => True end.
Proof. intros Hv. by apply (check_sudo_grows schema data v s). Qed.

Lemma check_group_name_free schema data pk s n :
  check_group_name schema data pk s [] = [] → dget data "name" = Some n → existsb (eq_col "group" n) (excluding pk s.(groups)) = false.
Proof.
  unfold check_group_name. intros H Hn. rewrite Hn in H. destruct (existsb (eq_col "group" n) (excluding pk (groups s))); [|done].
  exfalso. revert H. apply pw_checkname_grow, add_nonempty.
Qed.

Lemma group_validation_free schema data pk s :
  match (group_validation schema data pk [] s).1 with
  | Ret (v, data') => data' = ddel data "allow_duplicate_gid" ∧
      (v = [] → ∀ n, dget data "name" = Some n → existsb (eq_col "group" n) (excluding pk s.(groups)) = false)
  | Raise _ => True
  end.
Proof.
  unfold group_validation. rewrite (bind_ret get_state _ s s s) by done. set (v1 := check_group_name schema data pk s []).
  set (v2 := if truthy (col (ddel data "allow_duplicate_gid") "gid") && _ && _ then _ else v1).
  assert (H2 : v2 = [] → v1 = []) by (unfold v2; destruct (truthy _ && _ && _); [intros E; exfalso; by eapply add_nonempty|done]).
  unfold mbind at 1, M_bind. destruct (dget (ddel data "allow_duplicate_gid") "users") as [us|].
  - unfold lift, mbind, M_bind. destruct (py_iter us) as [l|]; [|done]. cbn [mret M_ret].
    set (v3 := match List.filter _ (distinct_values l) with [] => v2 | _ => _ end).
    assert (H3 : v3 = [] → v2 = []) by (unfold v3; destruct (List.filter _ _); [done|intros E; exfalso; by eapply add_nonempty]).
    pose proof (check_sudo_nonempty schema (ddel data "allow_duplicate_gid") v3 s) as Hs.
    destruct (check_sudo _ _ v3 s) as [[v4|e] s']; [|done]. cbn in *. split; [done|]. intros ->. intros n Hn. apply (check_group_name_free schema data pk s n); [|done].
    apply H2, H3. destruct v3; [done|]. by destruct Hs.
  - cbn [mret M_ret]. pose proof (check_sudo_nonempty schema (ddel data "allow_duplicate_gid") v2 s) as Hs.
    unfold mbind, M_bind. destruct (check_sudo _ _ v2 s) as [[v4|e] s']; [|done]. cbn in *. split; [done|]. intros ->. intros n Hn.
    apply (check_group_name_free schema data pk s n); [|done]. apply H2. destruct v2; [done|]. by destruct Hs.
Qed.

(** The given data of a group: the column of the name is written only from [name]. *)
Definition ok_group_data data : Prop :=
  NoDup (dkeys data) ∧ "builtin" ∉ dkeys data ∧ "id" ∉ dkeys data ∧ "group" ∉ dkeys data ∧ ∀ v, dget data "name" = Some v → is_str v = true.

Section create_internal.
Context (J : list pydict → list pydict → Prop).
Hypothesis J_add_group : ∀ U G r, J U G → NoDup (dkeys r) → is_str (col r "group") = true →
  existsb (eq_col "group" (col r "group")) G = false → J U (G ++ [r]).

Lemma create_internal_keeps data reload :
  ok_group_data data → dhas data "name" = true → keeps (inv (O:=O) J) (create_internal data reload).
Proof.
  intros (Hn & _ & _ & _ & Hname) Hhas. apply triple_keeps_inv. intros U G HJ _ _. unfold create_internal.
  eapply (fixed_bind J _ _ _ _ (λ x, x.2 = ddel data "allow_duplicate_gid" ∧
    (x.1 = [] → ∀ n, dget data "name" = Some n → existsb (eq_col "group" n) G = false))); [done|apply keeps_group_validation| |].
  { intros s (_ & _ & HG). pose proof (group_validation_free "group_create" data PNone s) as H. rewrite HG in H.
    by destruct (group_validation _ _ _ _ s).1 as [[v data']|]. }
  intros [v data'] [Hd' Hfree]. cbn [fst snd] in Hd', Hfree. subst data'.
  eapply (fixed_bind J _ _ _ _ (λ _, v = [])); [done|auto with keeps|intros s _; by destruct v|]. intros _ Hv. specialize (Hfree Hv).
  apply fixed_bind_any; [done|keeps_tac|]. intros s0.
  set (data1 := match col (ddel data "allow_duplicate_gid") "gid" with PNone => _ | _ => _ end).
  assert (H1 : NoDup (dkeys data1) ∧ dget data1 "name" = dget data "name").
  { assert (∀ v, NoDup (dkeys (dset (ddel data "allow_duplicate_gid") "gid" v)) ∧ dget (dset (ddel data "allow_duplicate_gid") "gid" v) "name" = dget data "name")
      by (intros x; split; [by apply dset_NoDup, ddel_NoDup|by rewrite dget_dset_ne, dget_ddel_ne]).
    assert (NoDup (dkeys (ddel data "allow_duplicate_gid")) ∧ dget (ddel data "allow_duplicate_gid") "name" = dget data "name")
      by (split; [by apply ddel_NoDup|by rewrite dget_ddel_ne]). unfold data1. by destruct (col _ "gid"). }
  destruct H1 as [Hn1 Hname1].
  eapply (fixed_bind J _ _ _ _ (λ n, dget data "name" = Some n)); [done|auto with keeps| |].
  { intros s _. unfold get_item, item, lift. cbn [fst]. rewrite Hname1. by destruct (dget data "name"). }
  intros name Hnm. set (group := dset (ddel data1 "name") "group" name).
  apply fixed_bind_any; [done|destruct (dget group "users"); keeps_tac|]. intros us.
  apply change_bind; [|intros pk; apply keeps_inv; intros U' G'; keeps_tac].
  set (row := compress (ddel group "users")).
  assert (Hrow : NoDup (dkeys row) ∧ dget row "group" = Some name).
  { unfold row, compress, group. split; [by apply ddel_NoDup, ddel_NoDup, ddel_NoDup, dset_NoDup, ddel_NoDup|]. by rewrite !dget_ddel_ne, dget_dset by done. }
  destruct Hrow as [Hnr Hgr]. unfold insert.
  assert (Hins : ∀ id, triple (FX U G) (write (set_table TGroups (G ++ [dset (with_defaults group_defaults row) "id" id]));; mret id) (λ _, inv J) (λ _, inv J)).
  { intros id. apply change_bind; [|intros; apply keeps_ret]. apply triple_write; [done|]. intros s (_ & HU & HG). cbn [set_table users groups]. rewrite HU.
    assert (Hd : NoDup (dkeys group_defaults)) by key.
    assert (Hg : col (dset (with_defaults group_defaults row) "id" id) "group" = name) by (rewrite col_dset_ne, col_with_defaults, Hgr by done; done).
    apply J_add_group; [done|by apply dset_NoDup, with_defaults_NoDup|rewrite Hg; by apply Hname|rewrite Hg; by apply Hfree]. }
  intros s Hs. rewrite (bind_ret get_state _ s s s) by done. cbn [get_table]. pose proof Hs as (_ & _ & HG). rewrite HG. by apply Hins.
Qed.
End create_internal.

Lemma create_internal_ok data reload : ok_group_data data → dhas data "name" = true → keeps ok (create_internal data reload).
Proof. apply create_internal_keeps. intros. by apply add_group. Qed.

Lemma update_group_triple U G pk u :
  I U G →
  (∀ r, r ∈ G → eq_col "id" pk r = true → length (List.filter (eq_col "id" pk) G) = 1 →
     NoDup (dkeys (dupdate r u)) ∧ is_str (col (dupdate r u) "group") = true ∧
     (col (dupdate r u) "group" = col r "group" ∨
      existsb (eq_col "group" (col (dupdate r u) "group")) (List.filter (λ r, negb (eq_col "id" pk r)) G) = false) ∧
     builtin (dupdate r u) = builtin r ∧ col (dupdate r u) "id" = col r "id") →
  triple (FX U G) (update_row TGroups pk u) (λ _, ok) (λ _, ok).
Proof.
  intros HI Hr s Hs. unfold update_row. rewrite (bind_ret get_state _ s s s) by done. cbn [get_table]. pose proof Hs as (Hsound & HU & HG).
  rewrite HG. destruct (List.filter (eq_col "id" pk) G) as [|r0 [|r1 l]] eqn:E; [by eapply fixed_inv| |by eapply fixed_inv].
  revert s Hs Hsound HU HG. cut (triple (FX U G)
    (write (λ s : Accounts O, set_table TGroups ((λ r, if eq_col "id" pk r then dupdate r u else r) <$> get_table TGroups s) s)) (λ _, ok) (λ _, ok));
    [intros Ht s Hs _ _ _; by apply (Ht s)|].
  apply triple_write; [done|]. intros s (_ & HU & HG). cbn [set_table get_table users groups]. rewrite HU, HG.
  apply update_group; [done|by rewrite E|]. intros r Hin Hp. by apply Hr.
Qed.

Lemma group_update_ok pk data : ok_group_data data → keeps ok (group_update pk data).
Proof.
  intros (Hn & Hdb & Hdi & Hdg & Hname). apply triple_keeps_inv. intros U G HI HkU HkG. unfold group_update.
  eapply (fixed_bind I _ _ _ _ (λ group, ∃ s g, g ∈ G ∧ eq_col "id" pk g = true ∧ group = group_extend s g)); [done|auto with keeps| |].
  { intros s (_ & _ & HG). pose proof (get_group_spec pk s) as H. rewrite HG in H. destruct (get_group pk s).1; [|done]. destruct H as (g & ? & ? & ?). by exists s, g. }
  intros group (s0 & g & Hg & Hid & ->).
  eapply (fixed_bind I _ _ _ _ (λ x, x.2 = ddel data "allow_duplicate_gid" ∧
    (x.1 = [] → ∀ n, dget data "name" = Some n → existsb (eq_col "group" n) (excluding pk G) = false))); [done|apply keeps_group_validation| |].
  { intros s (_ & _ & HG). pose proof (group_validation_free "group_update" data pk s) as H. rewrite HG in H.
    by destruct (group_validation _ _ _ _ s).1 as [[v data']|]. }
  intros [v data'] [Hd' Hfree]. cbn [fst snd] in Hd', Hfree. subst data'.
  eapply (fixed_bind I _ _ _ _ (λ _, v = [])); [done|auto with keeps|intros s _; by destruct v|]. intros _ Hv. specialize (Hfree Hv).
  set (data1 := ddel data "allow_duplicate_gid") in *.
  assert (Hn1 : NoDup (dkeys data1)) by (by apply ddel_NoDup).
  assert (Hd1 : ∀ k, k ≠ "allow_duplicate_gid" → dget data1 k = dget data k) by (intros k Hk; unfold data1; by rewrite dget_ddel_ne).
  set (g1 := ddel (dupdate (group_extend s0 g) data1) "users"). set (renamed := dhas data1 "name" && _).
  set (g2 := if renamed then dset (ddel g1 "name") "group" (col g1 "name") else ddel g1 "name").
  apply change_bind; [|intros _; apply keeps_ok; intros U' G'; destruct (dget data1 "users"); keeps_tac].
  assert (Hng : NoDup (dkeys g2)).
  { assert (NoDup (dkeys g1)) by (apply ddel_NoDup, dupdate_NoDup; unfold group_extend; apply dupdate_NoDup, (dict_groups _ _ _ HI g Hg)).
    unfold g2. destruct renamed; [apply dset_NoDup|]; by apply ddel_NoDup. }
  assert (Hg2 : ∀ k, k ∈ ["id"; "builtin"] → dget (compress g2) k = dget (group_extend s0 g) k).
  { intros k Hk. assert (Hk' : k ≠ "local" ∧ k ≠ "id_type_both" ∧ k ≠ "name" ∧ k ≠ "group" ∧ k ≠ "users" ∧ k ≠ "allow_duplicate_gid")
      by (revert k Hk; apply Forall_forall; key). destruct Hk' as (? & ? & ? & ? & ? & ?). unfold compress. rewrite !dget_ddel_ne by congruence.
    assert (Hg1 : dget g1 k = dget (group_extend s0 g) k).
    { unfold g1. rewrite dget_ddel_ne, dget_dupdate, dget_rev, Hd1 by congruence.
      assert (dget data k = None) as ->; [|done]. apply dget_None. set_unfold in Hk. by destruct Hk as [-> |[-> |[]]]. }
    unfold g2. destruct renamed; [rewrite dget_dset_ne by congruence|]; by rewrite dget_ddel_ne by congruence. }
  assert (Hname2 : ∃ n, dget (compress g2) "group" = Some n ∧ (n = col g "group" ∨ dget data "name" = Some n) ∨ dget (compress g2) "group" = None ∧ n = PNone).
  { unfold compress. rewrite !dget_ddel_ne by done. unfold g2. destruct renamed eqn:Er.
    - exists (col g1 "name"). left. rewrite dget_dset. split; [done|]. right. unfold renamed in Er. apply andb_true_iff in Er as [Er _].
      unfold dhas in Er. rewrite Hd1 in Er by done. unfold g1, col. rewrite dget_ddel_ne, dget_dupdate, dget_rev, Hd1 by done. by destruct (dget data "name").
    - rewrite dget_ddel_ne by done. unfold g1. rewrite dget_ddel_ne, dget_dupdate, dget_rev, Hd1 by done.
      rewrite (proj2 (dget_None data "group") Hdg). pose proof (group_extend_col s0 g "group" ltac:(key)) as Hc. unfold col in Hc.
      destruct (dget (group_extend s0 g) "group") as [x|]; [|by exists PNone; right]. exists x. left. split; [done|]. left. unfold col. by rewrite <-Hc. }
  assert (Hnc : NoDup (dkeys (compress g2))) by (unfold compress; by apply ddel_NoDup, ddel_NoDup).
  apply update_group_triple; [done|]. intros r Hr Hidr Hlen. assert (r = g) as -> by (by apply (keyed_same G _ _ pk)).
  assert (Hkeep : ∀ k, k ∈ ["id"; "builtin"] → col (dupdate g (compress g2)) k = col g k).
  { intros k Hk. rewrite col_dupdate, Hg2 by done. assert (Hx : k ∉ ["users"; "local"; "id_type_both"]) by (revert k Hk; apply Forall_forall; key).
    pose proof (group_extend_col s0 g k Hx) as Hc. unfold col in *. by destruct (dget (group_extend s0 g) k). }
  destruct (unique_groups _ _ _ HI) as [_ Hstr].
  split_and!; [by apply dupdate_NoDup, (dict_groups _ _ _ HI)| | |unfold builtin; rewrite Hkeep by key; done|apply Hkeep; key].
  - rewrite col_dupdate by done. destruct Hname2 as (n & [[-> [-> |Hnm]]|[-> _]]); [by apply Hstr|by apply Hname|by apply Hstr].
  - rewrite col_dupdate by done. destruct Hname2 as (n & [[-> [-> |Hnm]]|[-> _]]); [by left| |by left]. right.
    specialize (Hfree n Hnm). unfold excluding in Hfree. destruct (truthy pk); [done|by apply existsb_filter].
Qed.

(** The group of the new user is found or made; users stay. *)
Lemma group_for_keeps U data create :
  (∀ v, dget data "username" = Some v → is_str v = true) →
  keeps (inv (O:=O) (λ U' G', I U' G' ∧ U' = U)) (group_for data create).
Proof.
  intros Hstr. unfold group_for. apply keeps_bind; [keeps_tac|]. intros s. destruct create; [|keeps_tac].
  intros s1 Hs1. unfold get_item, item, lift, mbind, M_bind. destruct (dget data "username") as [n|] eqn:En; [|done].
  cbn beta iota. destruct (List.filter _ (query_groups s)) as [|g l]; [|done].
  pose proof (create_internal_keeps (λ U' G', I U' G' ∧ U' = U)) as Hc.
  specialize (Hc ltac:(intros U' G' r [HI' ->] Hn Hs Hf; split; [by apply add_group|done])
    [("name", n); ("smb", PBool false); ("sudo", PBool false); ("sudo_nopasswd", PBool false); ("sudo_commands", PList []); ("allow_duplicate_gid", PBool false)] false).
  specialize (Hc ltac:(split_and!; [key|key|key|key|intros v [= <-]; by apply Hstr]) eq_refl s1 Hs1).
  destruct (create_internal _ _ s1) as [[id|e] s2]; cbn [snd] in Hc; [|done]. cbn [get_state].
  by destruct (List.filter _ (query_groups s2)).
Qed.

Lemma group_for_data data create s :
  match (group_for data create s).1 with
  | Ret (_, data') => data' = data ∨ ∃ v, data' = dset data "group" v
  | Raise _ => True
  end.
Proof.
  unfold group_for, mbind, M_bind, mret, M_ret, raise. repeat case_match; simplify_eq/=; eauto.
Qed.

(** The row is stored, or taken back. *)
Lemma store_user_ok U G d data gs new_homedir :
  I U G → keyed U = true → NoDup (dkeys data) → "builtin" ∉ dkeys data →
  (∃ n, dget data "username" = Some n ∧ is_str n = true ∧ existsb (eq_col "username" n) U = false) →
  triple (FX U G) (store_user d data gs new_homedir) (λ _, ok) (λ _, ok).
Proof.
  intros HI HkU Hn Hb (n & Hname & Hstr & Hfree). unfold store_user.
  set (undo := λ A e, ((if new_homedir then host_op (rmtree (py_str (col data "home"))) else mret tt);; raise e) : MN A).
  assert (Hundo : ∀ A e U G, keeps (FX U G) (undo A e)) by (intros; unfold undo; keeps_tac).
  set (nid := PInt (1 + max_id U)).
  set (stored U' := ∃ r, U' = U ++ [r] ∧ col r "id" = nid ∧ builtin r = false).
  set (K := inv (O:=O) (λ U' G', I U' G' ∧ stored U')).
  assert (HK : ∀ s, K s → ok s) by (intros s [? []]; by split).
  assert (Hins : ∀ data1, NoDup (dkeys data1) → "builtin" ∉ dkeys data1 → dget data1 "username" = Some n →
    triple (FX U G) (insert TUsers data1) (λ pk s, pk = nid ∧ K s) (λ _, FX U G)).
  { intros data1 Hn1 Hb1 Hname1 s Hs. unfold insert. rewrite (bind_ret get_state _ s s s) by done. cbn [get_table defaults_of].
    pose proof Hs as (Hsound & HU & HG). rewrite HU. fold nid. set (row := dset (with_defaults user_defaults data1) "id" nid).
    unfold mbind, M_bind, write. destruct (sound (set_table TUsers (U ++ [row]) s)) eqn:E; [|done]. cbn. split; [done|].
    assert (Hd : NoDup (dkeys user_defaults)) by key.
    assert (Hru : col row "username" = n) by (unfold row; rewrite col_dset_ne, col_with_defaults, Hname1 by done; done).
    assert (Hrb : builtin row = false).
    { unfold builtin, row. rewrite col_dset_ne, col_with_defaults by done. by rewrite (proj2 (dget_None data1 "builtin") Hb1). }
    split; [done|]. cbn [set_table users groups]. rewrite HG. split.
    - apply add_user; [done|done|by apply dset_NoDup, with_defaults_NoDup|by rewrite Hru|by rewrite Hru|done].
    - exists row. split_and!; [done|unfold row; by rewrite col_dset|done]. }
  eapply (triple_bind _ _ _ (λ x s, x.1 = nid ∧ K s)).
  - eapply triple_try.
    + eapply (triple_bind _ _ _ (λ data1 s, FX U G s ∧ set_password d data = Ret data1) _ (λ _, FX U G)).
      { intros s Hs. unfold lift. by destruct (set_password d data). }
      intros data1 s [Hs Hp]. destruct (set_password_col d data data1 Hp Hn) as [Hn1 Hc1]. revert s Hs.
      eapply triple_bind; [apply (Hins (ddel data1 "sshpubkey")); [by apply ddel_NoDup| |]|intros pk; apply triple_ret; done].
      * apply dget_None. rewrite dget_ddel_ne, Hc1 by (done || key). by apply dget_None.
      * by rewrite dget_ddel_ne, Hc1 by (done || key).
    + intros e. eapply (triple_bind _ _ _ (λ _, FX U G)).
      * eapply triple_conseq; [apply (keeps_triple (FX U G))|done|done|intros; by eapply fixed_inv]. destruct new_homedir; keeps_tac.
      * intros _. apply triple_raise. intros s Hs. by eapply fixed_inv.
  - intros [pk data']. cbn [fst].
    assert (Hdel : triple (λ s, pk = nid ∧ K s) (delete_row TUsers pk) (λ _, ok) (λ _, ok)).
    { intros s [-> HKs]. pose proof HKs as [Hs [HI' (r & HU & Hrid & Hrb)]]. unfold delete_row, write. destruct (sound (cascade _)) eqn:E; [|by apply HK].
      split; [done|]. cbn. apply remove_users; [done|done|]. intros u Hu Hbu. apply negb_true_iff. destruct (eq_col "id" nid u) eqn:Eu; [|done]. exfalso.
      rewrite HU in Hu. apply elem_of_app in Hu as [Hu|Hu]; [|apply list_elem_of_singleton in Hu; congruence].
      destruct (keyed_row _ _ HkU Hu) as [z Hz]. assert (Hz' : col u "id" = PInt z) by (unfold col; by rewrite Hz).
      pose proof (max_id_ge U u z Hu Hz'). unfold eq_col in Eu. rewrite Hz' in Eu. simpl in Eu. apply Z.eqb_eq in Eu. lia. }
    eapply (triple_bind _ _ _ (λ _, ok)); [|intros ?; apply triple_ret; done].
    eapply (triple_try _ _ _ _ _ (λ _ s, pk = nid ∧ K s)).
    + intros s [Hpk HKs]. assert (Hk : keeps K (set_groups pk gs)) by (apply keeps_inv; intros; apply keeps_set_groups).
      specialize (Hk s HKs). destruct (set_groups pk gs s) as [[[]|e] s']; [by apply HK|done].
    + intros e. eapply triple_bind; [exact Hdel|]. intros ?. cbn beta. apply keeps_triple, keeps_ok. intros. apply Hundo.
Qed.

Lemma user_create_ok d data : ok_data data → dhas data "username" = true → keeps ok (user_create d data).
Proof.
  intros (Hn & Hb & Hi & Hstr) Hhas. apply triple_keeps_inv. intros U G HI HkU HkG. unfold user_create.
  destruct (dget data "username") as [n|] eqn:Hname; [|by unfold dhas in Hhas; rewrite Hname in Hhas]. specialize (Hstr n eq_refl).
  eapply (fixed_bind I _ _ _ _ (λ v, v = [] → existsb (eq_col "username" n) U = false)); [done|auto with keeps| |].
  { intros s (_ & HU & _). match goal with |- context [user_validation ?a ?b ?c ?v] => pose proof (user_validation_free a b c v s) as H; set (v0 := v) in * end.
    rewrite HU in H. destruct (user_validation _ _ _ v0 s).1; [|done]. intros Hv. by apply H. }
  intros v Hfree. frame. intros home.
  match goal with |- triple _ (lift (VErrors.check ?x) ≫= _) _ _ => set (v1 := x) end.
  assert (Hv1 : v1 = [] → v = []) by (unfold v1; destruct (truthy _ && _); [intros E; exfalso; by eapply add_nonempty|done]).
  eapply (fixed_bind I _ _ _ _ (λ _, v1 = [])); [done|auto with keeps|intros s _; by destruct v1|]. intros _ Hv. specialize (Hfree (Hv1 Hv)). clearbody v1.
  frame. intros gs0. frame. intros gs1. frame. intros create.
  set (data1 := ddel (ddel data "groups") "group_create").
  assert (H1 : NoDup (dkeys data1) ∧ "builtin" ∉ dkeys data1 ∧ dget data1 "username" = Some n).
  { unfold data1. split_and!; [by apply ddel_NoDup, ddel_NoDup| |by rewrite !dget_ddel_ne by done].
    apply dget_None. rewrite !dget_ddel_ne by done. by apply dget_None. }
  destruct H1 as (Hn1 & Hb1 & Hname1). clearbody data1.
  set (K := inv (O:=O) (λ U' G', I U' G' ∧ U' = U)).
  assert (HKok : ∀ s, K s → ok s) by (intros s [? []]; by split).
  eapply (triple_bind _ _ _ (λ x s, K s ∧ NoDup (dkeys x.2) ∧ "builtin" ∉ dkeys x.2 ∧ dget x.2 "username" = Some n)).
  { intros s Hs. assert (HKs : K s) by (destruct Hs as (? & <- & <-); by split).
    pose proof (group_for_keeps U data1 (truthy create) ltac:(rewrite Hname1; intros x [= <-]; done) s HKs) as Hk.
    pose proof (group_for_data data1 (truthy create) s) as Hd.
    destruct (group_for data1 (truthy create) s) as [[[g data2]|e] s']; [|by apply HKok]. cbn [fst snd] in *. split; [done|].
    destruct Hd as [->|[x ->]]; [done|]. split_and!; [by apply dset_NoDup| |by rewrite dget_dset_ne].
    apply dget_None. rewrite dget_dset_ne by done. by apply dget_None. }
  intros [group data2] s [[Hs [HI2 HU2]] (Hn2 & Hb2 & Hname2)]. cbn [snd] in *. rename G into G0.
  assert (Hfix : FX U (groups s) s) by done. rewrite HU2 in HI2. revert HI2 Hfix. generalize (groups s). intros G HI2 Hfix. revert s Hs HU2 Hfix.
  match goal with |- ∀ s, _ → _ → _ → match ?m s with _ => _ end => cut (triple (FX U G) m (λ _, ok) (λ _, ok)); [intros Ht s _ _ Hs; by apply (Ht s)|] end.
  apply fixed_bind_any; [done|auto with keeps|]. intros smb. apply fixed_bind_any; [done|keeps_tac|]. intros s0.
  apply fixed_bind_any; [done|keeps_tac|]. intros gs. apply fixed_bind_any; [done|auto with keeps|]. intros home_mode.
  apply fixed_bind_any; [done|auto with keeps|]. intros new_homedir. apply fixed_bind_any; [done|keeps_tac|]. intros s1.
  set (data3 := if truthy (col (ddel data2 "home_mode") "uid") then _ else _).
  assert (H3 : NoDup (dkeys (compress data3)) ∧ "builtin" ∉ dkeys (compress data3) ∧ dget (compress data3) "username" = Some n).
  { assert (∀ k, k ≠ "uid" → k ≠ "home_mode" → dget data3 k = dget data2 k) as Hd3.
    { intros k K1 K2. unfold data3. destruct (truthy _); [by rewrite dget_ddel_ne by congruence|]. by rewrite dget_dset_ne, dget_ddel_ne by congruence. }
    assert (NoDup (dkeys data3)) by (unfold data3; destruct (truthy _); [by apply ddel_NoDup|by apply dset_NoDup, ddel_NoDup]).
    unfold compress. split_and!; [by apply ddel_NoDup, ddel_NoDup| |by rewrite !dget_ddel_ne, Hd3 by done].
    apply dget_None. rewrite !dget_ddel_ne, Hd3 by done. by apply dget_None. }
  destruct H3 as (Hn3 & Hb3 & Hname3). clearbody data3.
  apply change_bind; [apply store_user_ok; [done|done|done|done|by exists n]|].
  intros [pk data4]. apply keeps_ok. intros U' G'. keeps_tac.
Qed.

(** ** Any sequence of calls *)

Definition ok_call (c : Call) : Prop :=
  match c with
  | UserCreate _ data => ok_data data ∧ dhas data "username" = true
  | UserUpdate _ _ data => ok_data data
  | GroupCreate data => ok_group_data data ∧ dhas data "name" = true
  | GroupUpdate _ data => ok_group_data data
  | _ => True
  end.

Lemma attribute_ok pk v : keeps ok (update_row TUsers pk [("attributes", v)]).
Proof.
  apply triple_keeps_inv. intros U G HI _ _. apply update_row_triple; [done|]. intros r Hr _ _. destruct (unique_users _ _ _ HI) as [_ Hstr].
  assert (Hc : ∀ k, k ≠ "attributes" → col (dupdate r [("attributes", v)]) k = col r k) by (intros k Hk; cbn [dupdate foldl fst snd]; by rewrite col_dset_ne by congruence).
  unfold builtin. rewrite !Hc by done.
  split_and!; [by apply dupdate_NoDup, (dict_users _ _ _ HI)|by apply Hstr|by left|done|]. intros _. split; [done|]. intros k Hk. left. apply Hc.
  revert k Hk. apply Forall_forall. key.
Qed.

Lemma perform_ok c : ok_call c → keeps ok (perform c).
Proof.
  intros Hc. destruct c as [d data|d pk data|pk dg|data|pk data|pk du|pk key value|pk key|d auth password options]; cbn [perform ok_call] in *;
    try (apply keeps_bind; [|intros; apply keeps_ret]).
  - destruct Hc. by apply user_create_ok.
  - by apply user_update_ok.
  - apply user_delete_ok.
  - destruct Hc. by apply create_internal_ok.
  - by apply group_update_ok.
  - apply group_delete_ok.
  - unfold set_attribute. keeps_tac. apply attribute_ok.
  - unfold pop_attribute. keeps_tac; apply attribute_ok.
  - unfold set_root_password. apply keeps_bind.
    + apply keeps_ok. intros U G. unfold has_root_password. keeps_tac.
    + intros _. keeps_tac. apply user_update_ok. split_and!; [key|key|key|intros v; done].
Qed.

Lemma run_ok calls s : Forall ok_call calls → ok s → ok (run calls s).
Proof.
  intros Hc. revert s. induction Hc as [|c calls Hok _ IH]; intros s Hs; [done|]. unfold run in *. cbn [foldl]. apply IH. by apply perform_ok.
Qed.

End service.
