(* ===== verification/AccountTheorems.v ===== *)
(** * Users and groups: theorems *)

From S2P Require Import Prelude PyValue Schema Filter PyNum Validators ValidatorsFacts PyPath Auth Rows NtHash AccountChecks Account AccountFacts AccountInv.

(** ** Names and built-in accounts *)

Section service.
Context {O : Type} `{host : !Host O}.
Implicit Types (s : Accounts O) (data : pydict).

(** Consistent tables: keys, rows that are dicts, unique names, and built-in users in
    built-in groups. *)
Definition consistent s : Prop := sound s = true ∧ accounts [] s.(users) s.(groups).

(** C13. Users and groups stay consistent, whatever calls are made one after the other and
    however they end (created, updated and deleted users and groups, attributes, the
    password of root): ids are unique, every user has a group that exists, memberships
    are of users and groups that exist, and no two users and no two groups have the same
    name.  (A call gives up the event loop between the check of a name and the insert,
    and the tables do not refuse a name that is there: two calls that overlap can store
    the same name twice.) *)
Theorem accounts_stay_consistent (calls : list Call) s :
  consistent s → Forall ok_call calls →
  let s' := run calls s in
  sound s' = true ∧ NoDup ((λ u, col u "username") <$> s'.(users)) ∧ NoDup ((λ g, col g "group") <$> s'.(groups)).
Proof.
  intros [Hs HI] Hc s'. destruct (run_ok [] ltac:(intros ? ?%not_elem_of_nil; done) calls s Hc) as [Hs' HI']; [by split|].
  split_and!; [done|apply (unique_users _ _ _ HI')|apply (unique_groups _ _ _ HI')].
Qed.

(** C10. A built-in user is there to stay: no sequence of calls deletes it (not even by
    deleting its group together with its users) or changes its id, name, uid, group,
    home directory or whether it is an SMB user. *)
Theorem builtin_users_stay (calls : list Call) s u :
  consistent s → Forall ok_call calls → u ∈ s.(users) → builtin u = true →
  (∀ k, k ∈ fixed_keys → hashable (col u k) = true) →
  ∃ u', u' ∈ (run calls s).(users) ∧ same_account u u'.
Proof.
  intros [Hs [H1 H2 H3 H4 H5 _]] Hc Hu Hb Hh.
  assert (HB : scalars [u]) by (intros u0 ->%list_elem_of_singleton; done).
  destruct (run_ok [u] HB calls s Hc) as [_ HI'].
  - split; [done|]. split; try done. intros u0 ->%list_elem_of_singleton. exists u. split; [done|]. split; [done|].
    intros k Hk. by apply py_eq_refl_scalar, Hh.
  - by apply (builtin_users _ _ _ HI'), list_elem_of_singleton.
Qed.

(** ** Free ids *)

Lemma next_id_spec l : ∀ last,
  StronglySorted (λ x y, Z.leb x y = true) l →
  (last < next_id last l)%Z ∧ next_id last l ∉ l ∧ ∀ j, (last < j < next_id last l)%Z → j ∈ l.
Proof.
  induction l as [|i l IH]; intros last Hs; cbn [next_id]; [split_and!; [lia|set_solver|lia]|].
  inversion Hs as [|? ? Hs' Hall]; subst. destruct (Z.ltb_spec 1 (i - last)).
  - split_and!; [lia| |lia]. rewrite not_elem_of_cons. split; [lia|]. intros Hin. rewrite Forall_forall in Hall. specialize (Hall _ Hin). apply Z.leb_le in Hall. lia.
  - destruct (IH (if Z.ltb last i then i else last) Hs') as (H1 & H2 & H3). destruct (Z.ltb_spec last i).
    + split_and!; [lia| |]; [rewrite not_elem_of_cons; split; [lia|done]|]. intros j Hj. destruct (decide (j = i)) as [->|]; [set_solver|].
      rewrite elem_of_cons. right. apply H3. lia.
    + split_and!; [lia| |]; [rewrite not_elem_of_cons; split; [lia|done]|]. intros j Hj. rewrite elem_of_cons. right. apply H3. lia.
Qed.

Lemma taken_sorted k (l : list pydict) : StronglySorted (λ x y, Z.leb x y = true) (taken_ids k l).
Proof.
  apply (sorted_by_sorted _ (λ _, True)); [intros; rewrite !Z.leb_le; lia|intros x y z _ _ _; rewrite !Z.leb_le; lia|by apply Forall_true].
Qed.

(** The uid a new user gets is the first from 1000 on that no user that
    is not built in has, and the same for the gid of a group. *)
Theorem next_ids_free s :
  (∀ u, u ∈ s.(users) → eq_col "builtin" (PBool false) u = true → int_col "uid" u ≠ get_next_uid s) ∧
  (∀ g, g ∈ s.(groups) → eq_col "builtin" (PBool false) g = true → int_col "gid" g ≠ get_next_gid s) ∧
  (1000 ≤ get_next_uid s)%Z ∧ (1000 ≤ get_next_gid s)%Z ∧
  (∀ j, (1000 ≤ j < get_next_uid s)%Z → ∃ u, u ∈ s.(users) ∧ int_col "uid" u = j).
Proof.
  destruct (next_id_spec _ 999 (taken_sorted "uid" s.(users))) as (U1 & U2 & U3).
  destruct (next_id_spec _ 999 (taken_sorted "gid" s.(groups))) as (G1 & G2 & G3).
  assert (Hin : ∀ k (l : list pydict) z, z ∈ taken_ids k l ↔ ∃ r, r ∈ l ∧ eq_col "builtin" (PBool false) r = true ∧ int_col k r = z).
  { intros k l z. unfold taken_ids. rewrite elem_of_sorted_by, list_elem_of_fmap. split.
    - intros (r & -> & [Hr Hb]%filter_elem). by exists r.
    - intros (r & Hr & Hb & <-). exists r. by rewrite filter_elem. }
  unfold get_next_uid, get_next_gid. split_and!; [| |lia|lia|].
  - intros u Hu Hb E. apply U2, Hin. by exists u.
  - intros g Hg Hb E. apply G2, Hin. by exists g.
  - intros j Hj. destruct (proj1 (Hin _ _ _) (U3 j ltac:(lia))) as (u & Hu & _ & E). by exists u.
Qed.

End service.

(** ** Passwords *)

Section passwords.
Context {O : Type} `{host : !Host O}.

(** Once root has a password, nobody sets it without being logged in: the call
    fails with the error for denied access before anything is looked at or changed,
    whatever the password and the options are. *)
Theorem root_password_guarded d password options (s : Accounts O) r rest :
  root_rows s = r :: rest → py_eq (col r "unixhash") (PStr "*") = false →
  set_root_password d false password options s =
    (Raise (CallError "You cannot call this method anonymously if root already has a password" EACCES PNone), s).
Proof.
  intros Hr Hh. unfold set_root_password, has_root_password, mbind, M_bind, get_state. cbn [mret M_ret]. by rewrite Hr, Hh.
Qed.

End passwords.

Section login.
(** crypt(3) with a hash as its setting gives the hash of the same password back,
    and no hash is one of the words that stand for no password. *)
Context (d : Draw) (crypt_law : ∀ password setting h, d.(crypt) password setting = Some h →
  d.(crypt) password h = Some h ∧ h ∉ ["x"; "*"]).

(** The password that is set is the one that logs in: what [__set_password] stores
    for a password that is not empty is accepted by [check_password] of the login, it
    never keeps the password itself, and an empty one disables the login. *)
Theorem set_password_logs_in data data' username password :
  NoDup (dkeys data) → dget data "password" = Some (PStr password) → set_password d data = Ret data' →
  dget data' "password" = None ∧
  (∃ hash, dget data' "unixhash" = Some (PStr hash) ∧
     ∀ users, users username = Some hash →
       Auth.check_password d.(crypt) users username password = Ret (PyStr.nonempty password)).
Proof.
  intros Hnd Hp. unfold set_password. rewrite Hp. assert (Hgone : dget (ddel data "password") "password" = None) by by apply dget_ddel.
  destruct password as [|c pw]; cbn [truthy PyStr.nonempty negb].
  - intros [= <-]. cbn [dupdate foldl fst snd]. rewrite !dget_dset_ne by done. split; [done|]. exists "*".
    rewrite dget_dset. split; [done|]. intros users Hu. unfold Auth.check_password. by rewrite Hu.
  - unfold crypted_password. cbn [py_str]. destruct (crypt d _ _) as [h|] eqn:E; [|done]. cbn [mbind outcome_bind].
    destruct (item _ "username") as [un|]; [|done]. cbn [mbind outcome_bind]. destruct (item _ "uid") as [uid|]; [|done]. cbn [mbind outcome_bind].
    destruct (nt_password _ _) as [nt|]; [|done]. cbn [mbind outcome_bind].
    match goal with |- context [PStr (?a +:+ ?b)] => generalize (a +:+ b) end. intros x. generalize (ddel data "password") Hgone. intros dd Hdd [= <-]. cbn [dupdate foldl fst snd].
    rewrite !dget_dset_ne by done. split; [done|]. exists h. rewrite dget_dset. split; [done|].
    intros users Hu. unfold Auth.check_password. rewrite Hu. destruct (crypt_law _ _ _ E) as [-> Hx]. rewrite bool_decide_eq_false_2 by done. by rewrite String.eqb_refl.
Qed.

End login.

(** ** Commands of sudo *)

(** A command that a user may run with sudo names its program by an absolute path
    that stays where it says: when [validate_sudo_commands] finds no error, the first
    word of every command, as a shell splits it, begins with a slash, none of its
    components is [.] or [..], and it matches a file that exists. *)
Theorem sudo_commands_normalized glob executable_file (commands : list string) :
  validate_sudo_commands glob executable_file commands = Ret [] →
  ∀ command, command ∈ commands →
  ∃ executable arguments, Shlex.split command = Ret (executable :: arguments) ∧ PyStr.startswith executable "/" = true ∧
    "." ∉ PyStr.split "/" executable ∧ ".." ∉ PyStr.split "/" executable ∧ glob executable ≠ [].
Proof.
  intros Hv command Hin. assert (Hok : check_command glob executable_file command = Ret tt).
  { assert (Hgrow : ∀ l i v, v ≠ [] → check_commands glob executable_file i l v ≠ Ret []).
    { induction l as [|x l IH]; intros i v Hne; cbn [check_commands]; [congruence|]. destruct (check_command _ _ x) as [[]|[]]; try done; by apply IH; try apply add_nonempty. }
    revert Hv Hin. unfold validate_sudo_commands. generalize 0. induction commands as [|x l IH]; intros i Hv Hin; [by apply not_elem_of_nil in Hin|].
    cbn [check_commands] in Hv. destruct (check_command glob executable_file x) as [[]|[]] eqn:E; try done; [|by apply Hgrow in Hv; [|apply add_nonempty]].
    apply elem_of_cons in Hin as [->|Hin]; [done|by apply (IH (S i))]. }
  unfold check_command in Hok. destruct (Shlex.split command) as [[|executable arguments]|]; try done. cbn [mbind outcome_bind] in Hok.
  exists executable, arguments. destruct (PyStr.startswith executable "/") eqn:Habs; [|done]. cbn [negb] in Hok.
  destruct (String.eqb_spec (PosixPath.rstrip_slash (PosixPath.normpath executable)) (PosixPath.rstrip_slash executable)) as [Hnorm|]; [|done].
  cbn [negb] in Hok. assert (Hc : ∀ c, c ≠ "" → c ∈ PyStr.split "/" executable → normal_component c).
  { intros c Hne Hc. apply (normpath_components executable); [done|done|]. rewrite elem_of_rstrip, Hnorm by done. by rewrite <-elem_of_rstrip. }
  split_and!; [done|done| | |by destruct (glob executable)].
  - intros H. by destruct (Hc "." ltac:(done) H) as (_ & ? & _).
  - intros H. by destruct (Hc ".." ltac:(done) H) as (_ & _ & ?).
Qed.
