(* ===== verification/AccountDemo.v ===== *)
(** * Users and groups: a small system

    A host that grants what is asked of it, tables with a few users and groups, the
    witnesses of the theorems and the calls whose outcome surprises. *)

From S2P Require Import Prelude PyValue Schema Filter PyNum Validators ValidatorsFacts PyPath Auth Rows NtHash AccountChecks Account AccountFacts AccountInv AccountTheorems.

(** The state of the host: the directories there are. *)
#[export] Instance demo_host : Host (list string) := {|
  call := λ method _ o, match method with
    | "pool.query" => (Ret (PList [PDict [("path", PStr "/mnt/tank")]]), o)
    | _ => (Ret PNone, o)
    end;
  makedirs := λ path _ o, (Ret tt, path :: o);
  mkdir := λ path _ o, (Ret tt, path :: o);
  rmtree := λ path o, (Ret tt, List.filter (λ p, negb (String.eqb p path)) o);
  unlink := λ _ o, (Ret tt, o);
  copyfile := λ _ _ o, (Ret tt, o);
  read_text := λ _ _, Raise FileNotFoundError;
  write_text := λ _ _ o, (Ret tt, o);
  listdir := λ _ _, Ret [];
  st_mode := λ _ _, Raise FileNotFoundError;
  path_exists := λ p o, bool_decide (p ∈ o);
  path_isdir := λ p o, bool_decide (p ∈ o);
  path_isfile := λ _ _, false;
  resolved_parents := λ _ _, 3;
  glob := λ p _, [p];
  executable_file := λ _ _, true;
  etc_shells := λ _, Ret ["/bin/sh"];
  is_file_exists := λ _, false;
  is_permission_error := λ _, false;
  os_error := λ _, None;
|}.

Definition demo_draw : Draw := mkDraw 1 "salt" (λ password setting, if PyStr.startswith setting "$6$" then Some ("$6$" +:+ password) else None) None.

Definition demo_group (id gid : Z) (name : string) (builtin smb : bool) : pydict :=
  [("id", PInt id); ("gid", PInt gid); ("group", PStr name); ("builtin", PBool builtin); ("smb", PBool smb)].

Definition demo_user (id uid group : Z) (name hash : string) (builtin : bool) : pydict :=
  [("id", PInt id); ("uid", PInt uid); ("username", PStr name); ("unixhash", PStr hash); ("group", PInt group); ("builtin", PBool builtin);
   ("home", PStr "/nonexistent"); ("smb", PBool false); ("microsoft_account", PBool false); ("email", PStr ""); ("attributes", PDict [])].

Definition root : pydict := demo_user 1 0 1 "root" "*" true.
Definition alice : pydict := demo_user 2 1000 4 "alice" "*" false.

(** Alice is in the groups 4 and 5; the membership of 5 is the row 4. *)
Definition demo : Accounts (list string) :=
  mkAccounts [root; alice]
    [demo_group 1 0 "wheel" true false; demo_group 2 65533 "nogroup" true false; demo_group 3 545 "builtin_users" true true;
     demo_group 4 1000 "staff" false false; demo_group 5 1001 "media" false false]
    [[("id", PInt 4); ("group", PInt 5); ("user", PInt 2)]; [("id", PInt 6); ("group", PInt 4); ("user", PInt 2)]]
    [[("id", PInt 1); ("guest", PStr "nobody")]] [].

Definition carol : pydict :=
  [("username", PStr "carol"); ("uid", PInt 1005); ("group_create", PBool true); ("full_name", PStr "Carol"); ("home", PStr "/mnt/tank/carol");
   ("home_mode", PStr "755"); ("password", PStr "secret"); ("shell", PStr "/bin/sh"); ("smb", PBool true); ("microsoft_account", PBool false);
   ("groups", PList [PInt 5])].

Definition demo_calls : list Call :=
  [UserCreate demo_draw carol; UserUpdate demo_draw (PInt 1) [("email", PStr "root@example.org")];
   GroupDelete (PInt 4) true; UserDelete (PInt 1) true; SetRootPassword demo_draw false "pw" []].

(** ** The calls run *)

Example demo_create :
  let '(r, s) := user_create demo_draw carol demo in
  r = Ret (PInt 3) ∧ (λ u, col u "username") <$> s.(users) = [PStr "root"; PStr "alice"; PStr "carol"] ∧
  (λ g, (col g "group", col g "gid")) <$> drop 5 s.(groups) = [(PStr "carol", PInt 1002)] ∧
  memberships s (PInt 3) = [PInt 5; PInt 3] ∧ s.(os) = ["/mnt/tank/carol"].
Proof. by vm_compute. Qed.

Example demo_calls_run :
  let s := run demo_calls demo in
  (λ u, (col u "username", col u "unixhash")) <$> s.(users) = [(PStr "root", PStr "$6$pw"); (PStr "carol", PStr "$6$secret")] ∧
  (perform (SetRootPassword demo_draw false "other" []) s).1 =
    Raise (CallError "You cannot call this method anonymously if root already has a password" EACCES PNone).
Proof. by vm_compute. Qed.

(** ** Witnesses *)

Ltac by_decision := apply (bool_decide_unpack _); vm_compute; exact Logic.I.

Lemma demo_consistent : consistent demo.
Proof.
  split; [by vm_compute|]. split; cbn [users groups demo]; try (split; [by_decision|]).
  - apply Forall_forall. by_decision.
  - apply Forall_forall. by_decision.
  - apply Forall_forall. by_decision.
  - apply Forall_forall. by_decision.
  - rewrite <-Forall_forall. repeat constructor; [|done]. intros _. exists (demo_group 1 0 "wheel" true false). split; [left|by vm_compute].
  - by intros ? ?%not_elem_of_nil.
Qed.

Lemma demo_calls_ok : Forall ok_call demo_calls.
Proof. repeat constructor; try by_decision; [..|done]; intros v [= <-]; done. Qed.

Lemma accounts_stay_consistent_witness :
  let s := run demo_calls demo in sound s = true ∧ NoDup ((λ u, col u "username") <$> s.(users)) ∧ NoDup ((λ g, col g "group") <$> s.(groups)).
Proof. exact (accounts_stay_consistent demo_calls demo demo_consistent demo_calls_ok). Defined.

Lemma builtin_users_stay_witness : ∃ u', u' ∈ (run demo_calls demo).(users) ∧ same_account root u'.
Proof.
  apply (builtin_users_stay demo_calls demo root demo_consistent demo_calls_ok); [left|done|]. apply Forall_forall. by_decision.
Defined.

Lemma root_password_guarded_witness :
  (set_root_password demo_draw false "other" [] (run demo_calls demo)).2 = run demo_calls demo.
Proof.
  rewrite (root_password_guarded demo_draw "other" [] (run demo_calls demo) (match root_rows (run demo_calls demo) with r :: _ => r | [] => [] end) []);
    [done|by vm_compute|by vm_compute].
Defined.

Definition new_user : pydict := [("username", PStr "carol"); ("uid", PInt 1005); ("password", PStr "secret")].

Lemma demo_crypt_law password setting h :
  demo_draw.(crypt) password setting = Some h → demo_draw.(crypt) password h = Some h ∧ h ∉ ["x"; "*"].
Proof.
  cbn [demo_draw crypt]. destruct (PyStr.startswith setting "$6$"); [|done]. intros [= <-]. split; [by destruct password|].
  rewrite !not_elem_of_cons. split_and!; [done|done|apply not_elem_of_nil].
Qed.

Lemma set_password_logs_in_witness :
  ∃ data' hash, set_password demo_draw new_user = Ret data' ∧ dget data' "unixhash" = Some (PStr hash) ∧
    Auth.check_password demo_draw.(crypt) (λ _, Some hash) "carol" "secret" = Ret true.
Proof.
  destruct (set_password demo_draw new_user) as [data'|] eqn:E; [|by vm_compute in E].
  destruct (set_password_logs_in demo_draw demo_crypt_law new_user data' "carol" "secret" ltac:(by_decision) ltac:(done) E) as [_ (hash & Hh & Hl)].
  exists data', hash. split; [done|]. split; [done|]. by apply (Hl (λ _, Some hash)).
Defined.

Lemma sudo_commands_normalized_witness :
  ∃ executable arguments, Shlex.split "/sbin/zpool status" = Ret (executable :: arguments) ∧ ".." ∉ PyStr.split "/" executable.
Proof.
  destruct (sudo_commands_normalized (λ p, [p]) (λ _, true) ["/sbin/zpool status"] ltac:(by vm_compute) "/sbin/zpool status" ltac:(left))
    as (executable & arguments & E & _ & _ & Hdots & _).
  by exists executable, arguments.
Defined.

(** ** What surprises *)

(** An update of anything rewrites the memberships, and takes the ids of the
    membership rows for ids of groups: Alice was in the groups 4 and 5. *)
Example update_loses_membership :
  let '(r, s) := user_update demo_draw (PInt 2) [("email", PStr "alice@example.org")] demo in
  r = Ret (PInt 2) ∧ memberships demo (PInt 2) = [PInt 5; PInt 4] ∧ memberships s (PInt 2) = [PInt 5; PInt 5].
Proof. by vm_compute. Qed.

(** A home directory is made before the uid is chosen: without a uid it fails. *)
Example create_without_uid :
  user_create demo_draw (ddel carol "uid") demo =
  (Raise (KeyError "uid"), (create_internal [("name", PStr "carol"); ("smb", PBool false); ("sudo", PBool false); ("sudo_nopasswd", PBool false);
     ("sudo_commands", PList [])] false demo).2).
Proof. by vm_compute. Qed.

(** A group that does not exist is an [IndexError]. *)
Example update_unknown_group : (user_update demo_draw (PInt 2) [("group", PInt 9)] demo).1 = Raise IndexError.
Proof. by vm_compute. Qed.

(** The group and the mode of a built-in user cannot even be given as they are. *)
Example builtin_same_group :
  (user_update demo_draw (PInt 1) [("group", PInt 1)] demo).1 =
    Raise (ValidationErrors [mkVE "user_update.group" "This attribute cannot be changed" EINVAL]) ∧
  (user_update demo_draw (PInt 1) [("home_mode", PStr "755")] demo).1 = Raise (KeyError "home_mode").
Proof. by vm_compute. Qed.

(** A command that is blank is not a validation error. *)
Example blank_command : validate_sudo_commands (λ p, [p]) (λ _, true) [" "] = Raise IndexError.
Proof. by vm_compute. Qed.

(** An empty password takes the password of root away, and anybody may set one. *)
Example root_password_reset :
  let s := run [SetRootPassword demo_draw true "secret" []; UserUpdate demo_draw (PInt 1) [("password", PStr "")]] demo in
  (perform (SetRootPassword demo_draw false "mine" []) s).1 = Ret tt.
Proof. by vm_compute. Qed.

(** The empty name passes. *)
Example empty_name : pw_checkname [] "user_create.username" "" = [].
Proof. by vm_compute. Qed.

(** Two calls that create the same user overlap: the second one checked the name before
    the first one stored it, and stores it a second time. *)
Example creates_overlap :
  let data := compress (dset (ddel (ddel (ddel carol "groups") "group_create") "home_mode") "group" (PInt 6)) in
  let s1 := (user_create demo_draw carol demo).2 in
  let '(r, s2) := store_user demo_draw data [PInt 5] false s1 in
  (user_validation "user_create" carol PNone [] demo).1 = Ret [] ∧
  (∃ pk d, r = Ret (pk, d)) ∧ (λ u, col u "username") <$> s2.(users) = [PStr "root"; PStr "alice"; PStr "carol"; PStr "carol"].
Proof. vm_compute. split_and!; [done|by eexists _, _|done]. Qed.
