(* ===== verification/WebAuthn.v ===== *)
(** * Security keys: plugins/webauthn.py

    A second factor for logging in.  Each [*_begin] puts a challenge in a dict of
    the class, under the session of the connection and the purpose; the call that
    verifies takes it out.  The state has that dict, the rows of the two tables,
    the configuration of the one-time passwords, and the sessions of [Auth].  The
    package py-webauthn is the class [WebAuthnLib]; challenges are arguments.

    The service's methods run in threads or give up the event loop between their
    calls, so they are written as the pieces between which others may run, down to
    the single accesses of the dict of challenges; [step] interleaves the pieces. *)

From S2P Require Import Prelude PyValue Filter Auth.

Definition CHALLENGE_TTL : Z := 120.

(** [WebAuthnCredentialModel] *)
Record Credential : Type := mkCredential {
  cred_pk : Z;
  cred_name : string;
  credential_id : string;
  public_key : string;
  sign_count : Z;
  cred_rp_id : string;
  cred_created_at : Z;
  last_used : option Z;
}.

(** The dict that [_put_ceremony] keeps; only a registration has a name. *)
Record Ceremony : Type := mkCeremony {
  challenge : string;
  ce_origin : string;
  rp_id : string;
  ce_name : string;
  deadline : Z;
}.

(** [(app.session_id, purpose)] *)
Notation ceremony_key := (string * string)%type.

Record WA : Type := mkWA {
  ceremonies : gmap ceremony_key Ceremony;
  rows : list Credential;
  enabled : bool;
  twofactor : TwoFactor;
  auth : Auth;
}.

Definition with_ceremonies (f : gmap ceremony_key Ceremony → gmap ceremony_key Ceremony) (w : WA) : WA :=
  mkWA (f w.(ceremonies)) w.(rows) w.(enabled) w.(twofactor) w.(auth).
Definition with_rows (f : list Credential → list Credential) (w : WA) : WA :=
  mkWA w.(ceremonies) (f w.(rows)) w.(enabled) w.(twofactor) w.(auth).
Definition set_enabled (b : bool) (w : WA) : WA :=
  mkWA w.(ceremonies) w.(rows) b w.(twofactor) w.(auth).
Definition set_twofactor (t : TwoFactor) (w : WA) : WA :=
  mkWA w.(ceremonies) w.(rows) w.(enabled) t w.(auth).

(** What the package's checks answer: the result, the exception the code catches
    with its text, or another exception. *)
Inductive Verification (A : Type) : Type :=
| Verified (a : A)
| Invalid (text : string)
| Failed (e : exn).
Arguments Verified {A} a.
Arguments Invalid {A} text.
Arguments Failed {A} e.

Record VerifiedRegistration : Type := mkVR { vr_id : string; vr_public_key : string; vr_sign_count : Z }.

(** py-webauthn; byte strings are strings, and options are their JSON. *)
Class WebAuthnLib : Type := {
  has_webauthn : bool;
  generate_registration_options : string → list string → string → outcome exn pyval;
  generate_authentication_options : string → list string → string → outcome exn pyval;
  (** credential, challenge, RP id, origin *)
  verify_registration_response : string → string → string → string → Verification VerifiedRegistration;
  (** credential, challenge, RP id, origin, public key, sign count: the new sign
      count *)
  verify_authentication_response : string → string → string → string → string → Z → Verification Z;
  bytes_to_base64url : string → string;
  base64url_to_bytes : string → outcome exn string;
}.

(** ** [urllib.parse.urlsplit]: the scheme and the host name of a URL *)

Definition is_alpha (ch : ascii) : bool :=
  let n := Ascii.nat_of_ascii ch in
  ((65 <=? n) && (n <=? 90) || (97 <=? n) && (n <=? 122))%nat.

(** [scheme_chars] *)
Definition scheme_char (ch : ascii) : bool :=
  is_alpha ch || Filter.is_digit ch || Ascii.eqb ch "+" || Ascii.eqb ch "-" || Ascii.eqb ch ".".

Definition all_chars (p : ascii → bool) (s : string) : bool := forallb p (String.list_ascii_of_string s).

Definition starts_alpha (s : string) : bool :=
  match s with String ch _ => is_alpha ch | "" => false end.

Definition split_scheme (url : string) : string * string :=
  match PyStr.split1 ":" url with
  | Some (s, rest) => if starts_alpha s && all_chars scheme_char s then (PyStr.lower s, rest) else ("", url)
  | None => ("", url)
  end.

(** [_splitnetloc(url, 2)[0]]: up to the first of the three delimiters. *)
Fixpoint netloc_of (s : string) : string :=
  match s with
  | "" => ""
  | String ch s' =>
      if Ascii.eqb ch "/" || Ascii.eqb ch "?" || Ascii.eqb ch "#" then "" else String ch (netloc_of s')
  end.

(** [str.partition]'s two ends. *)
Definition before1 (ch : ascii) (s : string) : string :=
  match PyStr.split1 ch s with Some (a, _) => a | None => s end.
Definition after_last (ch : ascii) (s : string) : string :=
  match PyStr.rsplit1 ch s with Some (_, b) => b | None => s end.

(** [_NetlocResultMixinStr._hostinfo] and [hostname] *)
Definition hostname_of (netloc : string) : option string :=
  let hostinfo := after_last "@" netloc in
  let hostname :=
    match PyStr.split1 "[" hostinfo with
    | Some (_, bracketed) => before1 "]" bracketed
    | None => before1 ":" hostinfo
    end in
  if PyStr.nonempty hostname then
    Some (match PyStr.split1 "%" hostname with
          | Some (host, zone) => PyStr.lower host +:+ "%" +:+ zone
          | None => PyStr.lower hostname
          end)
  else None.

Definition urlsplit (url : string) : outcome exn (string * option string) :=
  let '(scheme, rest) := split_scheme url in
  if PyStr.startswith rest "//" then
    let netloc := netloc_of (PyStr.drop 2 rest) in
    if negb (Bool.eqb (PyStr.contains netloc "[") (PyStr.contains netloc "]"))
    then Raise (ValueError "Invalid IPv6 URL")
    else Ret (scheme, hostname_of netloc)
  else Ret (scheme, None).

(** ** Ceremonies *)

(** [[k for k, v in self._ceremonies.items() if v['deadline'] < now]] *)
Definition expired_keys (now : Z) (m : gmap ceremony_key Ceremony) : list ceremony_key :=
  (map_to_list (filter (λ kv, (kv.2.(deadline) < now)%Z) m)).*1.

(** [self._ceremonies.pop(key, None)] *)
Definition pop_key (key : ceremony_key) : M WA exn (option Ceremony) :=
  w ← get_state;
  modify (with_ceremonies (delete key));;
  mret (w.(ceremonies) !! key).

(** [_prune]: the keys are collected first, and popped one by one. *)
Definition prune (now : Z) : M WA exn unit :=
  w ← get_state;
  forM (expired_keys now w.(ceremonies)) (λ key, pop_key key;; mret tt).

(** What [_put_ceremony] does after it pruned. *)
Definition store_ceremony (now : Z) (key : ceremony_key) (state : Ceremony) : M WA exn unit :=
  modify (with_ceremonies <[key :=
    mkCeremony state.(challenge) state.(ce_origin) state.(rp_id) state.(ce_name) (now + CHALLENGE_TTL)]>).

(** [_put_ceremony] *)
Definition put_ceremony (now : Z) (key : ceremony_key) (state : Ceremony) : M WA exn unit :=
  prune now;; store_ceremony now key state.

(** [_pop_ceremony] *)
Definition pop_ceremony (now : Z) (key : ceremony_key) : M WA exn (option Ceremony) :=
  prune now;; pop_key key.

(** A connection with its [Origin] header. *)
Record Conn : Type := mkConn { app : App; origin_header : option string }.

(** [_request_origin] *)
Definition request_origin (conn : Conn) : outcome exn (string * string) :=
  let origin := from_option (λ o, o) "" conn.(origin_header) in
  '(scheme, hostname) ← urlsplit origin;
  match hostname with
  | Some host =>
      if String.eqb scheme "https" then Ret (origin, host)
      else Raise (CallError ("WebAuthn requires accessing the web UI over https:// with a DNS " +:+
        "hostname (connection origin: " +:+ repr_str (if PyStr.nonempty origin then origin else "unknown") +:+ ").")
        EFAULT PNone)
  | None =>
      Raise (CallError ("WebAuthn requires accessing the web UI over https:// with a DNS " +:+
        "hostname (connection origin: " +:+ repr_str (if PyStr.nonempty origin then origin else "unknown") +:+ ").")
        EFAULT PNone)
  end.

Definition lift {A} (o : outcome exn A) : M WA exn A := λ w, (o, w).

Section service.
Context `{lib : !WebAuthnLib}.
(** The arguments of [Auth.check_user]. *)
Context (crypt : string → string → option string) (users : string → option string).
(** [json.loads], and SQL's comparison of a text column with a value. *)
Context (json_loads : string → outcome exn pyval) (sql_eq : pyval → string → outcome exn bool).

Notation MA := (M WA exn).

(** [_require_lib] *)
Definition require_lib : MA unit :=
  if has_webauthn then mret tt else raise (CallError "py-webauthn is not installed." EFAULT PNone).

(** The two lines that [register_complete] and [login] begin with. *)
Definition take_ceremony (now : Z) (conn : Conn) (purpose : string) : MA (option Ceremony) :=
  require_lib;; pop_ceremony now (conn.(app).(session_id), purpose).

(** *** Configuration *)

(** [do_update] up to its write: the configuration to be written. *)
Definition update_check (data : option bool) : MA bool :=
  w ← get_state;
  let config := from_option (λ b, b) w.(enabled) data in
  if config then
    if negb w.(twofactor).(tf_enabled) then
      raise (CallError ("Enable Two-Factor (TOTP) authentication first. It is the fallback login " +:+
        "path when security keys are unavailable, e.g. when the UI is reached by " +:+
        "IP address (WebAuthn only works on DNS-name origins).") EFAULT PNone)
    else if Nat.eqb (length w.(rows)) 0 then
      raise (CallError "Enroll at least one security key before enabling WebAuthn." EFAULT PNone)
    else mret config
  else mret config.

Definition update_write (config : bool) : MA bool := modify (set_enabled config);; gets enabled.

Definition do_update (data : option bool) : MA bool :=
  config ← update_check data;
  update_write config.

Definition status : MA bool := gets enabled.

(** [credentials]: the rows without their public keys. *)
Definition dump_credential (c : Credential) : pydict :=
  [("id", PInt c.(cred_pk)); ("name", PStr c.(cred_name)); ("credential_id", PStr c.(credential_id));
   ("sign_count", PInt c.(sign_count)); ("rp_id", PStr c.(cred_rp_id)); ("created_at", PInt c.(cred_created_at));
   ("last_used", match c.(last_used) with Some t => PInt t | None => PNone end)].

Definition credentials : MA (list pydict) := gets (λ w, dump_credential <$> w.(rows)).

(** [delete_credential] up to its write. *)
Definition delete_check : MA unit :=
  w ← get_state;
  if w.(enabled) && Nat.leb (length w.(rows)) 1 then
    raise (CallError "Cannot remove the last security key while WebAuthn is enabled. Disable WebAuthn first." EFAULT PNone)
  else mret tt.

Definition delete_write (oid : Z) : MA bool :=
  modify (with_rows (List.filter (λ c, negb (Z.eqb c.(cred_pk) oid))));; mret true.

Definition delete_credential (oid : Z) : MA bool := delete_check;; delete_write oid.

(** *** Registration *)

(** [register_begin] up to [_put_ceremony]: the ceremony and the options. *)
Definition register_options (conn : Conn) (name new_challenge : string) : MA (Ceremony * pyval) :=
  require_lib;;
  let name := PyStr.strip name in
  if negb (PyStr.nonempty name) then raise (CallError "Provide a name for the security key." EFAULT PNone)
  else
    creds ← gets rows;
    if existsb (λ c, String.eqb c.(cred_name) name) creds then
      raise (CallError ("A security key named " +:+ repr_str name +:+ " is already enrolled.") EFAULT PNone)
    else
      '(origin, rp) ← lift (request_origin conn);
      excluded ← lift (mapO (λ c, base64url_to_bytes c.(credential_id)) creds);
      options ← lift (generate_registration_options rp excluded new_challenge);
      mret (mkCeremony new_challenge origin rp name 0, options).

Definition register_begin (now : Z) (conn : Conn) (name new_challenge : string) : MA pyval :=
  '(state, options) ← register_options conn name new_challenge;
  put_ceremony now (conn.(app).(session_id), "register") state;;
  mret options.

(** [register_complete] after it took the challenge. *)
Definition register_finish (utcnow : Z) (credential : string) (state : option Ceremony) : MA (Z * string) :=
  match state with
  | None => raise (CallError "No security key registration in progress (or it expired) — start again." EFAULT PNone)
  | Some state =>
      verified ← (match verify_registration_response credential state.(challenge) state.(rp_id) state.(ce_origin) with
                  | Verified v => mret v
                  | Invalid e => raise (CallError ("Security key registration failed: " +:+ e) EFAULT PNone)
                  | Failed e => raise e
                  end);
      let credential_id := bytes_to_base64url verified.(vr_id) in
      w ← get_state;
      if existsb (λ c, String.eqb c.(WebAuthn.credential_id) credential_id) w.(rows) then
        raise (CallError "This security key is already enrolled." EFAULT PNone)
      else
        let pk := (1 + foldr (λ c, Z.max c.(cred_pk)) 0 w.(rows))%Z in
        modify (with_rows (λ l, l ++ [mkCredential pk state.(ce_name) credential_id
          (bytes_to_base64url verified.(vr_public_key)) verified.(vr_sign_count) state.(rp_id) utcnow None]));;
        mret (pk, state.(ce_name))
  end.

Definition register_complete (utcnow now : Z) (conn : Conn) (credential : string) : MA (Z * string) :=
  state ← take_ceremony now conn "register";
  register_finish utcnow credential state.

(** *** Login *)

(** [login_begin] up to [_put_ceremony]. *)
Definition login_options (conn : Conn) (new_challenge : string) : MA (Ceremony * pyval) :=
  require_lib;;
  w ← get_state;
  if negb w.(enabled) then raise (CallError "WebAuthn is not enabled." EFAULT PNone)
  else
    match w.(rows) with
    | [] => raise (CallError "No security keys are enrolled." EFAULT PNone)
    | creds =>
        '(origin, rp) ← lift (request_origin conn);
        allowed ← lift (mapO (λ c, base64url_to_bytes c.(credential_id)) creds);
        options ← lift (generate_authentication_options rp allowed new_challenge);
        mret (mkCeremony new_challenge origin rp "" 0, options)
    end.

Definition login_begin (now : Z) (conn : Conn) (new_challenge : string) : MA pyval :=
  '(state, options) ← login_options conn new_challenge;
  put_ceremony now (conn.(app).(session_id), "login") state;;
  mret options.

(** [parsed.get('rawId') or parsed.get('id')], [None] when the code returns
    [False]. *)
Definition asserted_id (credential : string) : outcome exn (option pyval) :=
  match json_loads credential with
  | Raise (ValueError _ | AttributeError _) => Ret None
  | Raise e => Raise e
  | Ret (PDict d) =>
      let get k := from_option (λ v, v) PNone (dget d k) in
      let id := if truthy (get "rawId") then get "rawId" else get "id" in
      Ret (if truthy id then Some id else None)
  | Ret _ => Ret None
  end.

(** [datastore.update] of one row raises when there is none. *)
Definition update_row (pk : Z) (count utcnow : Z) : MA unit :=
  w ← get_state;
  if existsb (λ c, Z.eqb c.(cred_pk) pk) w.(rows) then
    modify (with_rows (fmap (λ c, if Z.eqb c.(cred_pk) pk then
      mkCredential c.(cred_pk) c.(cred_name) c.(credential_id) c.(public_key) count c.(cred_rp_id) c.(cred_created_at) (Some utcnow)
      else c)))
  else raise (RuntimeError "No rows were updated").

(** [_verify_assertion] *)
Definition verify_assertion (utcnow : Z) (state : option Ceremony) (credential : string) : MA bool :=
  match state with
  | None => mret false
  | Some state =>
      id ← lift (asserted_id credential);
      match id with
      | None => mret false
      | Some id =>
          creds ← gets rows;
          found ← lift (filterO (λ c, sql_eq id c.(credential_id)) creds);
          match found with
          | [] => mret false
          | row :: _ =>
              key ← lift (base64url_to_bytes row.(public_key));
              match verify_authentication_response credential state.(challenge) state.(rp_id) state.(ce_origin)
                      key row.(sign_count) with
              | Failed e => raise e
              | Invalid _ => mret false
              | Verified count => update_row row.(cred_pk) count utcnow;; mret true
              end
          end
      end
  end.

(** A method of the session manager. *)
Definition on_auth {A} (m : M Auth exn A) : MA A := λ w,
  let '(r, a) := m w.(auth) in
  (r, mkWA w.(ceremonies) w.(rows) w.(enabled) w.(twofactor) a).

(** [login] after it took the challenge. *)
Definition login_finish (utcnow now : Z) (conn : Conn) (username password credential : string) (state : option Ceremony) : MA bool :=
  valid ← lift (check_user crypt users username password);
  asserted ← verify_assertion utcnow state credential;
  let valid := valid && asserted in
  (if valid then on_auth (login_session utcnow now conn.(app) LoginPassword) else mret tt);;
  mret valid.

Definition login (utcnow now : Z) (conn : Conn) (username password credential : string) : MA bool :=
  state ← take_ceremony now conn "login";
  login_finish utcnow now conn username password credential state.

(** *** Calls one after the other *)

(** A whole call, whatever its outcome, of this service or of auth.twofactor. *)
Inductive call (w : WA) : WA → Prop :=
| call_update data : call w (do_update data w).2
| call_delete oid : call w (delete_credential oid w).2
| call_register_begin now conn name c : call w (register_begin now conn name c w).2
| call_register_complete utcnow now conn credential : call w (register_complete utcnow now conn credential w).2
| call_login_begin now conn c : call w (login_begin now conn c w).2
| call_login utcnow now conn username password credential :
    call w (login utcnow now conn username password credential w).2
| call_twofactor consolemenu new_secret data t :
    twofactor_update w.(enabled) consolemenu new_secret data w.(twofactor) = Ret t → call w (set_twofactor t w)
| call_renew new_secret t : renew_secret new_secret w.(twofactor) = Ret t → call w (set_twofactor t w).

(** *** Calls that interleave *)

(** What a call does once [_prune] is through: it stores the new ceremony, or takes
    the one it verifies against. *)
Inductive Next : Type :=
| ToStore (key : ceremony_key) (state : Ceremony)
| ToRegister (conn : Conn) (credential : string)
| ToLogin (conn : Conn) (username password credential : string).

(** A call between two of its pieces.  [Pruning] has the time at which it collected
    the expired keys, and those it has yet to pop. *)
Inductive Pending : Type :=
| Entering (next : Next)
| Pruning (t : Z) (keys : list ceremony_key) (next : Next)
| Registering (credential : string) (state : option Ceremony)
| LoggingIn (conn : Conn) (username password credential : string) (state : option Ceremony)
| Updating (config : bool)
| Deleting (oid : Z).

Record Sys : Type := mkSys { wa : WA; clock : Z; threads : gmap nat Pending }.

(** What a step shows: a challenge issued, taken by a call that pruned at [t], or
    dropped by a [_prune] that collected at [t]; the end of a login with its
    arguments; or nothing of these. *)
Inductive Label : Type :=
| Issued (now : Z) (key : ceremony_key) (c : Ceremony)
| Taken (t : Z) (key : ceremony_key) (c : option Ceremony)
| Dropped (t : Z) (key : ceremony_key) (c : option Ceremony)
| LoginEnds (session username password credential : string) (c : option Ceremony) (result : outcome exn bool)
| Silent.

(** The threads share the dict without a lock.  A call that raises before its first
    piece ends changes nothing and is no step; collecting the keys raises when
    another thread changes the dict's size meanwhile. *)
Inductive step (s : Sys) : Label → Sys → Prop :=
| step_register_begin i conn name c state options :
    s.(threads) !! i = None → register_options conn name c s.(wa) = (Ret (state, options), s.(wa)) →
    step s Silent (mkSys s.(wa) s.(clock) (<[i := Entering (ToStore (conn.(app).(session_id), "register") state)]> s.(threads)))
| step_login_begin i conn c state options :
    s.(threads) !! i = None → login_options conn c s.(wa) = (Ret (state, options), s.(wa)) →
    step s Silent (mkSys s.(wa) s.(clock) (<[i := Entering (ToStore (conn.(app).(session_id), "login") state)]> s.(threads)))
| step_register_complete i conn credential :
    s.(threads) !! i = None → require_lib s.(wa) = (Ret tt, s.(wa)) →
    step s Silent (mkSys s.(wa) s.(clock) (<[i := Entering (ToRegister conn credential)]> s.(threads)))
| step_login i conn username password credential :
    s.(threads) !! i = None → require_lib s.(wa) = (Ret tt, s.(wa)) →
    step s Silent (mkSys s.(wa) s.(clock) (<[i := Entering (ToLogin conn username password credential)]> s.(threads)))
| step_collect i now next :
    (s.(clock) ≤ now)%Z → s.(threads) !! i = Some (Entering next) →
    step s Silent (mkSys s.(wa) now (<[i := Pruning now (expired_keys now s.(wa).(ceremonies)) next]> s.(threads)))
| step_collect_fails i next :
    s.(threads) !! i = Some (Entering next) → step s Silent (mkSys s.(wa) s.(clock) (delete i s.(threads)))
| step_drop i t key keys next c w' :
    s.(threads) !! i = Some (Pruning t (key :: keys) next) → pop_key key s.(wa) = (Ret c, w') →
    step s (Dropped t key c) (mkSys w' s.(clock) (<[i := Pruning t keys next]> s.(threads)))
| step_store i t now key state ce w' :
    (s.(clock) ≤ now)%Z → s.(threads) !! i = Some (Pruning t [] (ToStore key state)) →
    store_ceremony now key state s.(wa) = (Ret tt, w') → w'.(ceremonies) !! key = Some ce →
    step s (Issued now key ce) (mkSys w' now (delete i s.(threads)))
| step_register_take i t conn credential state w' :
    s.(threads) !! i = Some (Pruning t [] (ToRegister conn credential)) →
    pop_key (conn.(app).(session_id), "register") s.(wa) = (Ret state, w') →
    step s (Taken t (conn.(app).(session_id), "register") state)
      (mkSys w' s.(clock) (<[i := Registering credential state]> s.(threads)))
| step_register_ends i utcnow credential state r w' :
    s.(threads) !! i = Some (Registering credential state) → register_finish utcnow credential state s.(wa) = (r, w') →
    step s Silent (mkSys w' s.(clock) (delete i s.(threads)))
| step_login_take i t conn username password credential state w' :
    s.(threads) !! i = Some (Pruning t [] (ToLogin conn username password credential)) →
    pop_key (conn.(app).(session_id), "login") s.(wa) = (Ret state, w') →
    step s (Taken t (conn.(app).(session_id), "login") state)
      (mkSys w' s.(clock) (<[i := LoggingIn conn username password credential state]> s.(threads)))
| step_login_ends i utcnow now conn username password credential state r w' :
    s.(threads) !! i = Some (LoggingIn conn username password credential state) →
    login_finish utcnow now conn username password credential state s.(wa) = (r, w') →
    step s (LoginEnds conn.(app).(session_id) username password credential state r)
      (mkSys w' s.(clock) (delete i s.(threads)))
| step_update_check i data config :
    s.(threads) !! i = None → update_check data s.(wa) = (Ret config, s.(wa)) →
    step s Silent (mkSys s.(wa) s.(clock) (<[i := Updating config]> s.(threads)))
| step_update_ends i config :
    s.(threads) !! i = Some (Updating config) →
    step s Silent (mkSys (update_write config s.(wa)).2 s.(clock) (delete i s.(threads)))
| step_delete_check i oid :
    s.(threads) !! i = None → delete_check s.(wa) = (Ret tt, s.(wa)) →
    step s Silent (mkSys s.(wa) s.(clock) (<[i := Deleting oid]> s.(threads)))
| step_delete_ends i oid :
    s.(threads) !! i = Some (Deleting oid) →
    step s Silent (mkSys (delete_write oid s.(wa)).2 s.(clock) (delete i s.(threads)))
| step_twofactor consolemenu new_secret data t :
    twofactor_update s.(wa).(enabled) consolemenu new_secret data s.(wa).(twofactor) = Ret t →
    step s Silent (mkSys (set_twofactor t s.(wa)) s.(clock) s.(threads))
| step_sessions a :
    step s Silent (mkSys (mkWA s.(wa).(ceremonies) s.(wa).(rows) s.(wa).(enabled) s.(wa).(twofactor) a) s.(clock) s.(threads)).

(** The labels of a run from a start of the service, the last one first. *)
Definition started (s : Sys) : Prop := s.(wa).(ceremonies) = ∅ ∧ s.(threads) = ∅.

Inductive run : list Label → Sys → Prop :=
| run_start s : started s → run [] s
| run_step l s lb s' : run l s → step s lb s' → run (lb :: l) s'.

End service.

(** ** What the dict of ceremonies stands for

    The challenge a session may use for a purpose: the last one it was issued,
    unless it was taken since. *)
Fixpoint latest (key : ceremony_key) (l : list Label) : option Ceremony :=
  match l with
  | [] => None
  | Issued _ k c :: l => if decide (k = key) then Some c else latest key l
  | Taken _ k _ :: l => if decide (k = key) then None else latest key l
  | _ :: l => latest key l
  end.
