(* ===== verification/WebAuthnFacts.v ===== *)
(** * Theorems on security keys

    The dict of ceremonies answers as the history of the connection says: the last
    challenge issued, once, until it expires; only a [_prune] that raced with the
    replacement of an expired challenge can lose one.  A login with a key therefore
    needs the password, an enrolled key and a challenge of its own; and, one call after
    the other, WebAuthn is never on without a key and the one-time passwords. *)

From S2P Require Import Prelude PyValue Filter Auth AuthFacts WebAuthn.

(** ** The dict *)

Lemma elem_of_expired now m k :
  k ∈ expired_keys now m ↔ ∃ c, m !! k = Some c ∧ (c.(deadline) < now)%Z.
Proof.
  unfold expired_keys. rewrite list_elem_of_fmap. split.
  - intros ([k' c] & -> & Hin%elem_of_map_to_list). apply map_lookup_filter_Some in Hin as [? ?]. by exists c.
  - intros (c & Hc & Hd). exists (k, c). split; [done|]. apply elem_of_map_to_list, map_lookup_filter_Some. done.
Qed.

Lemma pop_key_run key w : pop_key key w = (Ret (w.(ceremonies) !! key), with_ceremonies (delete key) w).
Proof. done. Qed.

Section service.
Context `{lib : !WebAuthnLib}.
Context (crypt : string → string → option string) (users : string → option string).
Context (json_loads : string → outcome exn pyval) (sql_eq : pyval → string → outcome exn bool).

Notation step := (step crypt users json_loads sql_eq).
Notation run := (run crypt users json_loads sql_eq).
Notation login_finish := (login_finish crypt users json_loads sql_eq).
Notation verify_assertion := (verify_assertion json_loads sql_eq).

(** ** What each piece does to the dict *)

(** The pieces that end a call leave the dict alone. *)
Lemma register_finish_keeps (utcnow : Z) (credential : string) (state : option Ceremony) (P : gmap ceremony_key Ceremony → Prop) :
  keeps (λ w, P w.(ceremonies)) (register_finish utcnow credential state).
Proof. unfold register_finish. keeps_tac; by apply keeps_modify. Qed.

Lemma verify_assertion_keeps utcnow state credential (P : WA → Prop) :
  (∀ f w, P w → (∀ l, cred_pk <$> f l = cred_pk <$> l) → (∀ l, credential_id <$> f l = credential_id <$> l) → P (with_rows f w)) →
  keeps P (verify_assertion utcnow state credential).
Proof.
  intros HP. unfold WebAuthn.verify_assertion, lift, update_row. keeps_tac; try by apply keeps_read.
  apply keeps_modify. intros w Hw. apply HP; [done| |].
  all: intros l; rewrite <-list_fmap_compose; apply list_fmap_ext; intros ? x _; cbn; by destruct (Z.eqb _ _).
Qed.

Lemma login_finish_keeps utcnow now conn username password credential state (P : WA → Prop) :
  (∀ f w, P w → (∀ l, cred_pk <$> f l = cred_pk <$> l) → (∀ l, credential_id <$> f l = credential_id <$> l) → P (with_rows f w)) →
  (∀ w a, P w → P (mkWA w.(ceremonies) w.(rows) w.(enabled) w.(twofactor) a)) →
  keeps P (login_finish utcnow now conn username password credential state).
Proof.
  intros HP Ha. unfold WebAuthn.login_finish, lift. keeps_tac; try by apply keeps_read.
  - by apply verify_assertion_keeps.
  - intros w Hw. unfold on_auth. destruct (login_session _ _ _ _ _) as [r au]. cbn. by apply Ha.
Qed.

Lemma login_finish_dict utcnow now conn username password credential state w r w' :
  login_finish utcnow now conn username password credential state w = (r, w') → w'.(ceremonies) = w.(ceremonies).
Proof.
  intros H. pose proof (login_finish_keeps utcnow now conn username password credential state
    (λ v, v.(ceremonies) = w.(ceremonies))) as K.
  specialize (K ltac:(done) ltac:(done) w eq_refl). by rewrite H in K.
Qed.

Lemma register_finish_dict utcnow credential state w r w' :
  register_finish utcnow credential state w = (r, w') → w'.(ceremonies) = w.(ceremonies).
Proof.
  intros H. pose proof (register_finish_keeps utcnow credential state (λ m, m = w.(ceremonies)) w eq_refl) as K.
  by rewrite H in K.
Qed.


(** ** Counting the uses of a challenge *)

Definition has_challenge (ch : string) (c : option Ceremony) : bool :=
  match c with Some c => String.eqb c.(challenge) ch | None => false end.

Definition is_issue (sid ch : string) (lb : Label) : bool :=
  match lb with Issued _ k c => bool_decide (k = (sid, "login")) && has_challenge ch (Some c) | _ => false end.

Definition is_login (sid ch : string) (lb : Label) : bool :=
  match lb with LoginEnds sid' _ _ _ c (Ret true) => String.eqb sid' sid && has_challenge ch c | _ => false end.

(** How often the challenge was issued to the session, and how often it logged the
    session in. *)
Definition issues (sid ch : string) (l : list Label) : nat := length (List.filter (is_issue sid ch) l).
Definition logins (sid ch : string) (l : list Label) : nat := length (List.filter (is_login sid ch) l).

(** The calls that hold it, and whether the dict has it. *)
Definition holds (sid ch : string) (p : Pending) : bool :=
  match p with
  | LoggingIn conn _ _ _ c => String.eqb conn.(app).(session_id) sid && has_challenge ch c
  | _ => false
  end.
Definition holders (sid ch : string) (th : gmap nat Pending) : nat := size (filter (λ kv, holds sid ch kv.2 = true) th).
Definition stored (sid ch : string) (w : WA) : nat := Nat.b2n (has_challenge ch (w.(ceremonies) !! (sid, "login"))).

Lemma holders_insert sid ch i p th :
  th !! i = None → holders sid ch (<[i := p]> th) = Nat.b2n (holds sid ch p) + holders sid ch th.
Proof.
  intros Hi. unfold holders. rewrite map_filter_insert. cbn [snd]. case_decide as H; cbn in H.
  - rewrite H. rewrite map_size_insert_None; [done|]. rewrite map_lookup_filter, Hi. done.
  - apply not_true_is_false in H. rewrite H, delete_id by done. done.
Qed.

Lemma holders_delete sid ch i p th :
  th !! i = Some p → holders sid ch th = Nat.b2n (holds sid ch p) + holders sid ch (delete i th).
Proof. intros Hi. rewrite <-(holders_insert sid ch i p (delete i th)) by apply lookup_delete_eq. by rewrite insert_delete_id. Qed.

Lemma holders_update sid ch i p q th :
  th !! i = Some q → holds sid ch q = false → holders sid ch (<[i := p]> th) = Nat.b2n (holds sid ch p) + holders sid ch th.
Proof.
  intros Hi Hq. rewrite <-insert_delete_eq, holders_insert by apply lookup_delete_eq.
  rewrite (holders_delete sid ch i q th Hi), Hq. done.
Qed.

Lemma stored_delete sid ch key w :
  stored sid ch (with_ceremonies (delete key) w) +
    (if decide (key = (sid, "login")) then Nat.b2n (has_challenge ch (w.(ceremonies) !! key)) else 0) = stored sid ch w.
Proof.
  unfold stored. cbn. case_decide as Hk.
  - subst. by rewrite lookup_delete_eq.
  - rewrite lookup_delete_ne by done. lia.
Qed.

Lemma stored_put sid ch now key c w :
  stored sid ch (with_ceremonies <[key := c]> w) ≤ stored sid ch w + Nat.b2n (is_issue sid ch (Issued now key c)).
Proof.
  unfold stored, is_issue. cbn. case_bool_decide as Hk.
  - subst. rewrite lookup_insert_eq. cbn. lia.
  - rewrite lookup_insert_ne by done. cbn. lia.
Qed.

Lemma stored_eq sid ch w w' : w'.(ceremonies) = w.(ceremonies) → stored sid ch w' = stored sid ch w.
Proof. unfold stored. by intros ->. Qed.

(** ** What a step does *)

(** The change a step makes to the dict, the clock and the calls that hold a
    challenge, by its label. *)
Definition effect (s : Sys) (lb : Label) (s' : Sys) : Prop :=
  (s.(clock) ≤ s'.(clock))%Z ∧
  match lb with
  | Issued now key c =>
      s'.(clock) = now ∧ s'.(wa) = with_ceremonies <[key := c]> s.(wa) ∧ c.(deadline) = (now + CHALLENGE_TTL)%Z ∧
      ∀ sid ch, holders sid ch s'.(threads) = holders sid ch s.(threads)
  | Taken t key st =>
      s'.(wa) = with_ceremonies (delete key) s.(wa) ∧ st = s.(wa).(ceremonies) !! key ∧
      (∃ i next, s.(threads) !! i = Some (Pruning t [] next)) ∧
      ∀ sid ch, holders sid ch s'.(threads) =
        (if decide (key = (sid, "login")) then Nat.b2n (has_challenge ch st) else 0) + holders sid ch s.(threads)
  | Dropped t key st =>
      s'.(wa) = with_ceremonies (delete key) s.(wa) ∧ st = s.(wa).(ceremonies) !! key ∧
      (∃ i keys next, s.(threads) !! i = Some (Pruning t (key :: keys) next)) ∧
      ∀ sid ch, holders sid ch s'.(threads) = holders sid ch s.(threads)
  | LoginEnds sid' _ _ _ st r =>
      s'.(wa).(ceremonies) = s.(wa).(ceremonies) ∧
      ∀ sid ch, holders sid ch s.(threads) = Nat.b2n (String.eqb sid' sid && has_challenge ch st) + holders sid ch s'.(threads)
  | Silent =>
      s'.(wa).(ceremonies) = s.(wa).(ceremonies) ∧
      ∀ sid ch, holders sid ch s'.(threads) = holders sid ch s.(threads)
  end.

Lemma silent_thread s w i p :
  s.(threads) !! i = Some p → (∀ sid ch, holds sid ch p = false) → w.(ceremonies) = s.(wa).(ceremonies) →
  effect s Silent (mkSys w s.(clock) (delete i s.(threads))).
Proof.
  intros Hi Hp Hw. split_and!; [done|done|]. intros sid ch. cbn. rewrite (holders_delete sid ch i p s.(threads)) by done.
  by rewrite Hp.
Qed.

Lemma silent_start s i p :
  s.(threads) !! i = None → (∀ sid ch, holds sid ch p = false) →
  effect s Silent (mkSys s.(wa) s.(clock) (<[i := p]> s.(threads))).
Proof. intros Hi Hp. split_and!; [done|done|]. intros sid ch. cbn. by rewrite holders_insert, Hp. Qed.

Lemma step_effect s lb s' : step s lb s' → effect s lb s'.
Proof.
  intros Hs.
  destruct Hs as [i conn name c st o Hi Hb|i conn c st o Hi Hb|i conn cr Hi Hl|i conn un pw cr Hi Hl|i now nx Hc Hi|i nx Hi
    |i t k ks nx c w' Hi Hp|i t now k st ce w' Hc Hi Hst Hce|i t conn cr st w' Hi Hp|i u cr st r w' Hi Hf
    |i t conn un pw cr st w' Hi Hp|i u now conn un pw cr st r w' Hi Hf|i data cfg Hi|i cfg Hi|i oid Hi|i oid Hi| |].
  - by apply silent_start.
  - by apply silent_start.
  - by apply silent_start.
  - by apply silent_start.
  - split_and!; [done|done|]. intros sid ch. cbn. by rewrite (holders_update sid ch i _ _ _ Hi).
  - by eapply silent_thread.
  - rewrite pop_key_run in Hp. injection Hp as <- <-. split_and!; [done|done|done|by eauto|]. intros sid ch. cbn.
    by rewrite (holders_update sid ch i _ _ _ Hi).
  - injection Hst as <-. cbn in Hce. rewrite lookup_insert_eq in Hce. injection Hce as <-.
    split_and!; [done|done|done|done|]. intros sid ch. cbn. by rewrite (holders_delete sid ch i _ _ Hi).
  - rewrite pop_key_run in Hp. injection Hp as <- <-. split_and!; [done|done|done|by eauto|]. intros sid ch. cbn [threads].
    by rewrite (holders_update sid ch i _ _ _ Hi), decide_False.
  - eapply silent_thread; [done|done|by eapply register_finish_dict].
  - rewrite pop_key_run in Hp. injection Hp as <- <-. split_and!; [done|done|done|by eauto|]. intros sid ch. cbn [threads].
    rewrite (holders_update sid ch i _ _ _ Hi) by done. cbn [holds].
    destruct (String.eqb_spec (session_id (app conn)) sid) as [-> |Hne]; [by rewrite decide_True|].
    by rewrite decide_False by congruence.
  - split_and!; [done|by eapply login_finish_dict|]. intros sid ch. by rewrite (holders_delete sid ch i _ _ Hi).
  - by apply silent_start.
  - by eapply silent_thread.
  - by apply silent_start.
  - by eapply silent_thread.
  - done.
  - done.
Qed.

(** Where a call that prunes stands: it has just collected, it has popped a key, or
    another call made the step. *)
Lemma step_pruning s lb s' i t ks nx :
  step s lb s' → s'.(threads) !! i = Some (Pruning t ks nx) →
  s.(threads) !! i = Some (Pruning t ks nx) ∨
  (s'.(clock) = t ∧ s'.(wa) = s.(wa) ∧ ks = expired_keys t s.(wa).(ceremonies)) ∨
  ∃ k, s.(threads) !! i = Some (Pruning t (k :: ks) nx) ∧ s'.(wa) = with_ceremonies (delete k) s.(wa).
Proof.
  intros Hs Hi. destruct Hs; cbn in Hi; try (by left);
    try (apply lookup_delete_Some in Hi as [_ Hi]; by left);
    apply lookup_insert_Some in Hi as [[<- Hi]|[_ Hi]]; try done; try (by left).
  - right. left. by injection Hi as <- <- <-.
  - right. right. injection Hi as <- <- <-. match goal with H : pop_key _ _ = _ |- _ => injection H as <- <- end. by eexists.
Qed.

(** ** The dict and its history *)

(** Every call that prunes has collected what is to go: an entry that it has not yet
    to pop had not expired then, and a key that it has to pop had a challenge that
    had. *)
Definition prunes_ok (l : list Label) (s : Sys) : Prop :=
  ∀ i t ks nx, s.(threads) !! i = Some (Pruning t ks nx) →
    (t ≤ s.(clock))%Z ∧
    (∀ k c, s.(wa).(ceremonies) !! k = Some c → k ∈ ks ∨ (t ≤ c.(deadline))%Z) ∧
    (∀ k, k ∈ ks → ∃ t0 c0, Issued t0 k c0 ∈ l ∧ (c0.(deadline) < t)%Z).

Definition from_history (l : list Label) (s : Sys) : Prop :=
  ∀ k c, s.(wa).(ceremonies) !! k = Some c → latest k l = Some c ∧ ∃ t, Issued t k c ∈ l.

(** How a step changes the entries: one more, one less, or none. *)
Lemma effect_entries s lb s' k c :
  effect s lb s' → s'.(wa).(ceremonies) !! k = Some c →
  s.(wa).(ceremonies) !! k = Some c ∧ (∀ t c', lb ≠ Issued t k c') ∧ (∀ t c', lb ≠ Taken t k c') ∨
  lb = Issued s'.(clock) k c ∧ c.(deadline) = (s'.(clock) + CHALLENGE_TTL)%Z.
Proof.
  intros [_ He]. destruct lb as [t k' c'|t k' st|t k' st|sid un pw cr st r|]; cbn in He.
  - destruct He as (-> & -> & Hd & _). cbn. intros [[-> ->]|[? ?]]%lookup_insert_Some; [by right|left].
    split_and!; [done|congruence|done].
  - destruct He as (-> & _). cbn. intros [? ?]%lookup_delete_Some. left. split_and!; [done|done|congruence].
  - destruct He as (-> & _). cbn. intros [? ?]%lookup_delete_Some. by left.
  - destruct He as (-> & _). by left.
  - destruct He as (-> & _). by left.
Qed.

Lemma run_history l s : run l s → from_history l s.
Proof.
  induction 1 as [s [H _]|l s lb s' _ IH Hs%step_effect]; intros k c Hk.
  { by rewrite H, lookup_empty in Hk. }
  destruct (effect_entries s lb s' k c Hs Hk) as [(Hk' & Hi & Ht)|[-> _]].
  - destruct (IH k c Hk') as [Hl [t Hin]]. split; [|exists t; by right].
    destruct lb as [t' k' c'|t' k' c'| | |]; cbn; try done; (case_decide; [subst|done]); [by destruct (Hi t' c')|by destruct (Ht t' c')].
  - cbn. rewrite decide_True by done. split; [done|]. eexists. by left.
Qed.

Lemma run_prunes l s : run l s → prunes_ok l s.
Proof.
  induction 1 as [s [_ H]|l s lb s' Hr IH Hs]; intros i t ks nx Hi.
  { by rewrite H, lookup_empty in Hi. }
  pose proof (step_effect s lb s' Hs) as He.
  assert (s.(clock) ≤ s'.(clock))%Z as Hc by apply He.
  destruct (step_pruning s lb s' i t ks nx Hs Hi) as [Hi'|[(<- & Hw & ->)|(k & Hi' & Hw)]].
  - destruct (IH i t ks nx Hi') as (Ht & Hm & Hk). split_and!; [lia| |].
    + intros k c Hkc. destruct (effect_entries s lb s' k c He Hkc) as [[Hkc' _]|[_ Hd]]; [by apply Hm|].
      right. unfold CHALLENGE_TTL in Hd. lia.
    + intros k (t0 & c0 & Hin & ?)%Hk. exists t0, c0. split; [by right|done].
  - split_and!; [done| |].
    + intros k c Hkc. rewrite Hw in Hkc. destruct (decide (c.(deadline) < s'.(clock))%Z); [left|right; lia].
      apply elem_of_expired. by exists c.
    + intros k (c & Hkc & Hd)%elem_of_expired. destruct (run_history l s Hr k c Hkc) as [_ [t0 Hin]].
      exists t0, c. split; [by right|done].
  - destruct (IH i t (k :: ks) nx Hi') as (Ht & Hm & Hk). split_and!; [lia| |].
    + intros k' c Hkc. rewrite Hw in Hkc. cbn in Hkc. apply lookup_delete_Some in Hkc as [Hne Hkc].
      destruct (Hm k' c Hkc) as [[->|?]%elem_of_cons|?]; [done|by left|by right].
    + intros k' Hin. destruct (Hk k') as (t0 & c0 & ? & ?); [by right|]. exists t0, c0. split; [by right|done].
Qed.

(** Why a challenge is missing from the dict: a [_prune] dropped it, whose time a
    challenge under the same key did not outlive. *)
Definition dropped (l : list Label) (s : Sys) (key : ceremony_key) (c : Ceremony) : Prop :=
  ∃ t t0 c0, Dropped t key (Some c) ∈ l ∧ Issued t0 key c0 ∈ l ∧ (c0.(deadline) < t ≤ s.(clock))%Z.

Lemma dropped_cons lb l s s' key c :
  dropped l s key c → (s.(clock) ≤ s'.(clock))%Z → dropped (lb :: l) s' key c.
Proof. intros (t & t0 & c0 & ? & ? & ?) Hc. exists t, t0, c0. split_and!; [by right|by right|lia|lia]. Qed.

Lemma run_dropped l s key c :
  run l s → latest key l = Some c → s.(wa).(ceremonies) !! key = None → dropped l s key c.
Proof.
  induction 1 as [s _|l s lb s' Hr IH Hs]; [done|].
  pose proof (step_effect s lb s' Hs) as [Hc He]. intros Hl Hk.
  destruct lb as [t k c'|t k st|t k st|sid un pw cr st r|]; cbn in Hl, He.
  - destruct He as (_ & Hw & _). rewrite Hw in Hk. cbn in Hk. apply lookup_insert_None in Hk as [Hk ?].
    rewrite decide_False in Hl by done. eapply dropped_cons; [by apply IH|done].
  - case_decide as Hne; [done|]. destruct He as (Hw & _). rewrite Hw in Hk. cbn in Hk.
    rewrite lookup_delete_ne in Hk by done. eapply dropped_cons; [by apply IH|done].
  - destruct He as (Hw & -> & (i & keys & nx & Hi) & _). destruct (s.(wa).(ceremonies) !! key) as [c1|] eqn:Hc1.
    2: { eapply dropped_cons; [by apply IH|done]. }
    assert (k = key) as ->.
    { rewrite Hw in Hk. cbn in Hk. apply lookup_delete_None in Hk as [?|Hk]; [done|congruence]. }
    destruct (run_history l s Hr key c1 Hc1) as [Hl1 _]. destruct (run_prunes l s Hr i t _ nx Hi) as (Ht & _ & Hp).
    destruct (Hp key) as (t0 & c0 & Hin & Hd); [by left|].
    exists t, t0, c0. rewrite Hc1. split_and!; [|by right|done|lia]. rewrite Hl in Hl1. injection Hl1 as ->. by left.
  - destruct He as (Hw & _). rewrite Hw in Hk. eapply dropped_cons; [by apply IH|done].
  - destruct He as (Hw & _). rewrite Hw in Hk. eapply dropped_cons; [by apply IH|done].
Qed.

Definition accounted (sid ch : string) (l : list Label) (s : Sys) : Prop :=
  logins sid ch l + holders sid ch s.(threads) + stored sid ch s.(wa) ≤ issues sid ch l.

Lemma run_accounted sid ch l s : run l s → accounted sid ch l s.
Proof.
  unfold accounted. induction 1 as [s [H1 H2]|l s lb s' _ IH Hs%step_effect].
  { unfold holders, stored. rewrite H1, H2, lookup_empty, map_filter_empty, map_size_empty. cbn. lia. }
  destruct Hs as [_ Hs]. unfold logins, issues in *. destruct lb as [t k c|t k st|t k st|sid' un pw cr st r|].
  - destruct Hs as (_ & -> & _ & ->). pose proof (stored_put sid ch t k c (wa s)). cbn [List.filter is_login] in *.
    destruct (is_issue _ _ _); cbn in *; lia.
  - destruct Hs as (-> & -> & _ & ->). pose proof (stored_delete sid ch k (wa s)). cbn [List.filter is_login is_issue].
    case_decide; lia.
  - destruct Hs as (-> & _ & _ & ->). pose proof (stored_delete sid ch k (wa s)). cbn [List.filter is_login is_issue]. lia.
  - destruct Hs as (Hc & Hh). rewrite (stored_eq _ _ (wa s)) by done. rewrite Hh in IH. cbn [List.filter is_login is_issue].
    destruct r as [[]|]; try lia. destruct (_ && _); cbn in *; lia.
  - destruct Hs as (Hc & ->). by rewrite (stored_eq _ _ (wa s)).
Qed.

(** C21. The dict of challenges is a faithful store, although threads use it without a
    lock and every access interleaves with those of others, collecting expired keys and
    popping them included.  What a call takes for a session and a purpose is the last
    challenge issued to that session for that purpose, not taken since, and not expired
    when the call looked for expired ones.  When a call takes nothing though there is such
    a challenge, some call's [_prune] has dropped it, and had seen an expired challenge of
    the same session and purpose: this one, or one that it replaced meanwhile (in that
    race a challenge is lost before its time; without it none is). *)
Theorem take_gives_live l s t key st s' :
  run l s → step s (Taken t key st) s' →
  (∀ c, st = Some c → latest key l = Some c ∧ (t ≤ c.(deadline))%Z) ∧
  (∀ c, st = None → latest key l = Some c →
     ∃ t' t0 c0, Dropped t' key (Some c) ∈ l ∧ Issued t0 key c0 ∈ l ∧ (c0.(deadline) < t' ≤ s.(clock))%Z).
Proof.
  intros Hr [_ (_ & -> & (i & nx & Hi) & _)]%step_effect. split.
  - intros c Hc. split; [by apply (run_history l s Hr)|].
    destruct (run_prunes l s Hr i t [] nx Hi) as (_ & Hm & _). destruct (Hm key c Hc) as [[]%elem_of_nil|?]; done.
  - intros c Hn Hl. by apply (run_dropped l s key c Hr).
Qed.

(** ** A login with a key *)

Lemma issued_deadline l s t key c : run l s → Issued t key c ∈ l → c.(deadline) = (t + CHALLENGE_TTL)%Z.
Proof.
  induction 1 as [|l s lb s' _ IH Hs%step_effect]; intros Hin; [by apply elem_of_nil in Hin|].
  apply elem_of_cons in Hin as [<- |Hin]; [|by apply IH]. by destruct Hs as (_ & _ & _ & Hd & _).
Qed.

Lemma step_thread s lb s' i conn un pw cr st :
  step s lb s' → s'.(threads) !! i = Some (LoggingIn conn un pw cr st) →
  s.(threads) !! i = Some (LoggingIn conn un pw cr st) ∨ ∃ t, lb = Taken t (conn.(app).(session_id), "login") st.
Proof.
  intros Hs Hi. destruct Hs; cbn in Hi; try (by left);
    try (apply lookup_delete_Some in Hi as [_ Hi]; by left);
    apply lookup_insert_Some in Hi as [[_ Hi]|[_ Hi]]; try done; try (by left).
  injection Hi as -> -> -> -> ->. right. by eexists.
Qed.

(** The challenge a call holds was good when it was taken. *)
Lemma thread_taken l s i conn un pw cr c :
  run l s → s.(threads) !! i = Some (LoggingIn conn un pw cr (Some c)) →
  ∃ t t0 l1 l2, l = l1 ++ Taken t (conn.(app).(session_id), "login") (Some c) :: l2 ∧
    Issued t0 (conn.(app).(session_id), "login") c ∈ l2 ∧ (t ≤ t0 + CHALLENGE_TTL)%Z.
Proof.
  intros Hr. revert i conn un pw cr c. induction Hr as [s [_ H]|l s lb s' Hr IH Hs]; intros i conn un pw cr c Hi.
  { by rewrite H, lookup_empty in Hi. }
  destruct (step_thread s lb s' i conn un pw cr (Some c) Hs Hi) as [Hi'|[t ->]].
  - destruct (IH _ _ _ _ _ _ Hi') as (t & t0 & l1 & l2 & -> & H). by exists t, t0, (lb :: l1), l2.
  - apply step_effect in Hs as [_ (_ & Hst & (j & nx & Hj) & _)]. symmetry in Hst.
    destruct (run_history l s Hr _ c Hst) as [_ [t0 Hin]].
    destruct (run_prunes l s Hr j t [] nx Hj) as (_ & Hm & _).
    destruct (Hm _ c Hst) as [[]%elem_of_nil|Hd]. exists t, t0, [], l. split_and!; [done|done|].
    by rewrite <-(issued_deadline l s t0 _ c Hr Hin).
Qed.

Lemma verify_assertion_true utcnow state credential w w' :
  verify_assertion utcnow state credential w = (Ret true, w') →
  ∃ c id row key count, state = Some c ∧ row ∈ w.(rows) ∧
    asserted_id json_loads credential = Ret (Some id) ∧ sql_eq id row.(credential_id) = Ret true ∧
    base64url_to_bytes row.(public_key) = Ret key ∧
    verify_authentication_response credential c.(challenge) c.(rp_id) c.(ce_origin) key row.(sign_count) = Verified count.
Proof.
  unfold WebAuthn.verify_assertion. destruct state as [c|]; [|done]. unfold lift, gets, mbind, M_bind, mret, M_ret, raise.
  destruct (asserted_id json_loads credential) as [[id|]|] eqn:Hid; [|done|done]. cbn.
  destruct (filterO _ _) as [[|row found]|] eqn:Hf; [done| |done].
  destruct (base64url_to_bytes (public_key row)) as [key|] eqn:Hk; [|done].
  destruct (verify_authentication_response _ _ _ _ _ _) as [count| |] eqn:Hv; [|done|done]. intros _.
  exists c, id, row, key, count. split_and!; try done.
  - eapply filterO_elem; [done|by left].
  - eapply (filterO_holds _ _ _ row Hf). by left.
Qed.

Lemma login_finish_true utcnow now conn un pw credential state w w' :
  login_finish utcnow now conn un pw credential state w = (Ret true, w') →
  check_user crypt users un pw = Ret true ∧ conn.(app).(session_id) ∈ w'.(auth).(authenticated) ∧
  ∃ w1, verify_assertion utcnow state credential w = (Ret true, w1).
Proof.
  unfold WebAuthn.login_finish, lift, mbind, M_bind, mret, M_ret. destruct (check_user _ _ _ _) as [v|]; [|done].
  destruct (verify_assertion _ _ _ w) as [[a|] w1]; [|done]. destruct v, a; cbn; try done. unfold on_auth.
  destruct (login_session utcnow now (app conn) LoginPassword (auth w1)) as [[[]|] au] eqn:Hl; [|done].
  intros [= <-]. split_and!; [done| |by exists w1]. by apply login_session_authenticates in Hl.
Qed.

Lemma login_ends_inv s sid un pw cr st r s' :
  step s (LoginEnds sid un pw cr st r) s' →
  ∃ i u now conn w', sid = conn.(app).(session_id) ∧ s.(threads) !! i = Some (LoggingIn conn un pw cr st) ∧
    login_finish u now conn un pw cr st s.(wa) = (r, w') ∧ s' = mkSys w' s.(clock) (delete i s.(threads)).
Proof. intros Hs. inversion Hs; subst. by eexists _, _, _, _, _. Qed.

(** C19. A login with a security key that ends with true had every factor, however its
    pieces and those of other calls interleave: the user and the password it was called
    with are right; the assertion it was called with names an enrolled credential and
    verifies under that credential's public key against the challenge that this login
    took, which [login_begin] had issued to the same connection at most 120 seconds before
    the login looked for expired challenges; and the logins of a connection with a
    challenge are at most as many as the times it was issued to it, so that an assertion
    cannot be replayed. *)
Theorem key_login_safe l s sid username password credential st s' :
  run l s → step s (LoginEnds sid username password credential st (Ret true)) s' →
  check_user crypt users username password = Ret true ∧
  ∃ c t t0 l1 l2 id row key count,
    st = Some c ∧
    l = l1 ++ Taken t (sid, "login") (Some c) :: l2 ∧ Issued t0 (sid, "login") c ∈ l2 ∧ (t ≤ t0 + CHALLENGE_TTL)%Z ∧
    row ∈ s.(wa).(rows) ∧ asserted_id json_loads credential = Ret (Some id) ∧ sql_eq id row.(credential_id) = Ret true ∧
    base64url_to_bytes row.(public_key) = Ret key ∧
    verify_authentication_response credential c.(challenge) c.(rp_id) c.(ce_origin) key row.(sign_count) = Verified count ∧
    sid ∈ s'.(wa).(auth).(authenticated) ∧
    logins sid c.(challenge) (LoginEnds sid username password credential st (Ret true) :: l) ≤ issues sid c.(challenge) l.
Proof.
  intros Hr Hs. assert (run (LoginEnds sid username password credential st (Ret true) :: l) s') as Hr' by (by eapply run_step).
  destruct (login_ends_inv _ _ _ _ _ _ _ _ Hs) as (i & u & now & conn & w' & -> & Hi & Hf & ->).
  destruct (login_finish_true _ _ _ _ _ _ _ _ _ Hf) as (Hpw & Hauth & w1 & Hv). split; [done|].
  destruct (verify_assertion_true _ _ _ _ _ Hv) as (c & id & row & key & count & -> & Hrow & Hid & Hsql & Hkey & Hver).
  destruct (thread_taken l s i conn username password credential c Hr Hi) as (t & t0 & l1 & l2 & Hl & Hin & Ht).
  exists c, t, t0, l1, l2, id, row, key, count. split_and!; try done.
  pose proof (run_accounted (conn.(app).(session_id)) c.(challenge) _ _ Hr') as Ha. unfold accounted in Ha.
  change (issues _ _ (_ :: l)) with (issues conn.(app).(session_id) c.(challenge) l) in Ha. lia.
Qed.

(** ** WebAuthn is not on without a key *)

(** While WebAuthn is on, there is a key and the one-time passwords are on; rows
    have ids and keys of their own. *)
Record consistent (w : WA) : Prop := {
  on_has_factors : w.(enabled) = true → w.(twofactor).(tf_enabled) = true ∧ w.(rows) ≠ [];
  pks_differ : NoDup (cred_pk <$> w.(rows));
  keys_differ : NoDup (credential_id <$> w.(rows));
}.

Lemma consistent_ceremonies f w : consistent w → consistent (with_ceremonies f w).
Proof. by intros []. Qed.

Lemma consistent_rows f w :
  consistent w → (∀ l, cred_pk <$> f l = cred_pk <$> l) → (∀ l, credential_id <$> f l = credential_id <$> l) → consistent (with_rows f w).
Proof.
  intros [H1 H2 H3] Hpk Hid. split; cbn; [|by rewrite Hpk|by rewrite Hid]. intros He. destruct (H1 He) as [Ht Hr]. split; [done|].
  intros H0. apply Hr. apply (fmap_nil_inv cred_pk). rewrite <-Hpk. by rewrite H0.
Qed.

Lemma consistent_auth w a : consistent w → consistent (mkWA w.(ceremonies) w.(rows) w.(enabled) w.(twofactor) a).
Proof. by intros []. Qed.

Lemma update_consistent data : keeps consistent (do_update data).
Proof.
  intros w Hw. unfold do_update, update_check, update_write, get_state, gets, modify, raise, mbind, M_bind, mret, M_ret.
  destruct (from_option _ _ data); cbn.
  - destruct (tf_enabled (twofactor w)) eqn:Ht; [|done]. destruct (rows w) eqn:Hr; [done|]. cbn. destruct Hw as [_ H2 H3].
    split; cbn; [|done|done]. intros _. by rewrite Hr.
  - destruct Hw. by split.
Qed.

Lemma filter_pk_length oid l :
  NoDup (cred_pk <$> l) → length l ≤ S (length (List.filter (λ c, negb (Z.eqb c.(cred_pk) oid)) l)).
Proof.
  induction l as [|c l IH]; cbn; [lia|]. intros [Hc Hnd]%NoDup_cons. destruct (Z.eqb_spec (cred_pk c) oid) as [<- |]; cbn.
  - rewrite List.forallb_filter_id; [done|]. apply forallb_forall. intros x Hx. apply negb_true_iff, Z.eqb_neq. intros Heq. apply Hc. rewrite <-Heq.
    by apply list_elem_of_fmap_2, list_elem_of_In.
  - by apply le_n_S, IH.
Qed.

Lemma filter_sublist_of {A} (p : A → bool) l : List.filter p l `sublist_of` l.
Proof. induction l as [|x l IH]; cbn; [done|]. destruct (p x); by constructor. Qed.

Lemma delete_consistent oid : keeps consistent (delete_credential oid).
Proof.
  intros w Hw. unfold delete_credential, delete_check, delete_write, get_state, modify, raise, mbind, M_bind, mret, M_ret.
  destruct (enabled w && (length (rows w) <=? 1)%nat) eqn:Hg; [done|]. cbn. destruct Hw as [H1 H2 H3].
  pose proof (filter_pk_length oid w.(rows) H2) as Hlen. split; cbn.
  - intros He. rewrite He in Hg. apply Nat.leb_gt in Hg. destruct (H1 He) as [Ht _]. split; [done|]. intros H0.
    rewrite H0 in Hlen. cbn in Hlen. lia.
  - eapply sublist_NoDup; [exact H2|]. apply fmap_sublist, filter_sublist_of.
  - eapply sublist_NoDup; [exact H3|]. apply fmap_sublist, filter_sublist_of.
Qed.

Lemma new_pk_fresh l : (1 + foldr (λ c, Z.max c.(cred_pk)) 0 l)%Z ∉ cred_pk <$> l.
Proof.
  intros (c & Hc & Hin)%list_elem_of_fmap. assert (cred_pk c ≤ foldr (λ c, Z.max c.(cred_pk)) 0 l)%Z; [|lia].
  clear Hc. induction Hin; cbn; lia.
Qed.

Lemma register_consistent utcnow credential state : keeps consistent (register_finish utcnow credential state).
Proof.
  intros w Hw. unfold register_finish, get_state, modify, raise, mbind, M_bind, mret, M_ret. destruct state as [c|]; [|done].
  destruct (verify_registration_response _ _ _ _) as [v| |]; [|done|done].
  destruct (existsb _ _) eqn:He; [done|]. cbn. destruct Hw as [H1 H2 H3]. split; cbn.
  - intros Hen. split; [by apply H1|]. by destruct (rows w).
  - rewrite fmap_app. apply NoDup_app. split_and!; [done| |apply NoDup_singleton].
    intros x Hx ->%list_elem_of_singleton. by apply (new_pk_fresh (rows w)).
  - rewrite fmap_app. apply NoDup_app. split_and!; [done| |apply NoDup_singleton].
    intros x (r & -> & Hr)%list_elem_of_fmap Hx%list_elem_of_singleton. cbn in Hx.
    apply not_true_iff_false in He. apply He, existsb_exists. exists r. split; [by apply list_elem_of_In|].
    rewrite Hx. apply String.eqb_refl.
Qed.

Lemma prune_consistent now : keeps consistent (prune now).
Proof. unfold prune, pop_key. keeps_tac. apply keeps_modify; intros w; apply consistent_ceremonies. Qed.

Lemma take_consistent now conn purpose : keeps consistent (take_ceremony now conn purpose).
Proof.
  unfold take_ceremony, require_lib, pop_ceremony, pop_key. keeps_tac; try apply prune_consistent.
  apply keeps_modify; intros w; apply consistent_ceremonies.
Qed.

Lemma put_consistent now key state : keeps consistent (put_ceremony now key state).
Proof.
  unfold put_ceremony, store_ceremony. keeps_tac; try apply prune_consistent.
  apply keeps_modify; intros w; apply consistent_ceremonies.
Qed.

Lemma register_begin_consistent now conn name c : keeps consistent (register_begin now conn name c).
Proof. unfold register_begin, register_options, require_lib, lift. keeps_tac; by apply keeps_read || apply put_consistent. Qed.

Lemma login_begin_consistent now conn c : keeps consistent (login_begin now conn c).
Proof. unfold login_begin, login_options, require_lib, lift. keeps_tac; by apply keeps_read || apply put_consistent. Qed.

Lemma call_consistent w w' : call crypt users json_loads sql_eq w w' → consistent w → consistent w'.
Proof.
  intros Hc Hw. destruct Hc as [data|oid|now conn name c|u now conn cr|now conn c|u now conn un pw cr|cm sec data t Ht|sec t Ht].
  - by apply update_consistent.
  - by apply delete_consistent.
  - by apply register_begin_consistent.
  - revert w Hw. change (keeps consistent (register_complete u now conn cr)). unfold register_complete.
    apply keeps_bind; [apply take_consistent|intros st; apply register_consistent].
  - by apply login_begin_consistent.
  - revert w Hw. change (keeps consistent (login crypt users json_loads sql_eq u now conn un pw cr)). unfold login.
    apply keeps_bind; [apply take_consistent|intros st]. apply login_finish_keeps; [|intros; by apply consistent_auth].
    intros f w Hw. by apply consistent_rows.
  - destruct Hw as [H1 H2 H3]. split; cbn; [|done|done]. intros He. split; [|by apply H1]. unfold twofactor_update in Ht.
    rewrite He, andb_true_r in Ht. destruct (from_option _ _ (u_enabled data)); cbn in Ht; [|done].
    destruct (_ && cm); [done|]. by injection Ht as <-.
  - destruct Hw as [H1 H2 H3]. split; cbn; [|done|done]. intros He. split; [|by apply H1]. unfold renew_secret in Ht.
    destruct (tf_enabled (twofactor w)); [|done]. by injection Ht as <-.
Qed.

(** C20. Nobody is locked out by calls made one after the other: whatever they are
    and however they end, while WebAuthn is on at least one security key is
    enrolled and the one-time passwords, the other way in, are on; and no two
    enrolled rows have the same id or the same key. *)
Theorem no_lockout w w' : rtc (call crypt users json_loads sql_eq) w w' → consistent w → consistent w'.
Proof. induction 1; [done|]. intros Hw. eauto using call_consistent. Qed.

End service.

(** ** Witnesses *)

(** A package whose signature of a challenge is the challenge after "sig:". *)
#[local] Instance demo_lib : WebAuthnLib := {
  has_webauthn := true;
  generate_registration_options rp _ c := Ret (PDict [("rp", PStr rp); ("challenge", PStr c)]);
  generate_authentication_options rp _ c := Ret (PDict [("rpId", PStr rp); ("challenge", PStr c)]);
  verify_registration_response cr c _ _ :=
    match PyStr.split1 ":" cr with
    | Some (id, sig) => if String.eqb sig c then Verified (mkVR id "pub" 0) else Invalid "bad signature"
    | None => Invalid "bad response"
    end;
  verify_authentication_response cr c _ _ _ n := if String.eqb cr ("sig:" +:+ c) then Verified (n + 1)%Z else Invalid "bad signature";
  bytes_to_base64url b := b;
  base64url_to_bytes s := Ret s;
}.

Definition demo_crypt (pw hash : string) : option string := Some (if String.eqb pw "pw" then "h" else "other").
Definition demo_users (u : string) : option string := if String.eqb u "root" then Some "h" else None.
Definition demo_json (s : string) : outcome exn pyval := Ret (PDict [("id", PStr "k1")]).
Definition demo_sql (v : pyval) (s : string) : outcome exn bool :=
  match v with PStr x => Ret (String.eqb x s) | _ => Ret false end.

Definition conn_of (sid host : string) : Conn := mkConn (mkApp sid false "192.0.2.8" 5001 None None) (Some ("https://" +:+ host)).
Definition on : TwoFactor := mkTwoFactor true 6 0 30 false false (Some "secret").
Definition key_1 : Credential := mkCredential 1 "blue" "k1" "pub" 5 "nas.example" 0 None.
Definition wa_0 (on_ : bool) : WA := mkWA ∅ [key_1] on_ on (mkAuth ∅ ∅ ∅ ∅ []).

Notation demo_step := (step demo_crypt demo_users demo_json demo_sql).
Notation demo_run := (run demo_crypt demo_users demo_json demo_sql).

Definition ann_web : Conn := conn_of "s1" "nas.example:8443".
Definition ann_key : ceremony_key := ("s1", "login").
Definition ann_state (ch : string) : Ceremony := mkCeremony ch "https://nas.example:8443" "nas.example" "" 0.
Definition ann_challenge (ch : string) (deadline : Z) : Ceremony :=
  mkCeremony ch "https://nas.example:8443" "nas.example" "" deadline.
Definition ann_login : Next := ToLogin ann_web "root" "pw" "sig:c1".

(** The dict with ann's challenge [c1] of 10, and without. *)
Definition wa_issued : WA := with_ceremonies <[ann_key := ann_challenge "c1" 130]> (wa_0 true).
Definition wa_taken : WA := with_ceremonies (delete ann_key) wa_issued.

Definition at_step (w : WA) (t : Z) (p : Pending) : Sys := mkSys w t {[0 := p]}.

(** Steps up to how the threads are written. *)
Lemma step_to s lb s' th : demo_step s lb (mkSys s'.(wa) s'.(clock) th) → th = s'.(threads) → demo_step s lb s'.
Proof. intros Hs ->. by destruct s'. Qed.

Lemma one_step l s lb s' th : demo_run l s → demo_step s lb (mkSys s'.(wa) s'.(clock) th) → th = s'.(threads) → demo_run (lb :: l) s'.
Proof. intros Hr Hs Ht. eapply run_step; [done|by eapply step_to]. Qed.

Definition sys_issued : Sys := mkSys wa_issued 10 ∅.

Lemma run_issued : demo_run [Issued 10 ann_key (ann_challenge "c1" 130); Silent; Silent] sys_issued.
Proof.
  set (put := ToStore ann_key (ann_state "c1")).
  set (s0 := mkSys (wa_0 true) 0 ∅).
  set (s1 := at_step (wa_0 true) 0 (Entering put)).
  set (s2 := at_step (wa_0 true) 10 (Pruning 10 [] put)).
  assert (demo_run [Silent] s1) as H1.
  { eapply (one_step _ s0); [by apply run_start| |apply insert_empty].
    eapply (step_login_begin _ _ _ _ s0 0 ann_web "c1"); [done|vm_compute; reflexivity]. }
  assert (demo_run [Silent; Silent] s2) as H2.
  { eapply (one_step _ s1); [exact H1| |apply insert_singleton_eq]. by apply (step_collect _ _ _ _ s1 0 10). }
  eapply (one_step _ s2); [exact H2| |apply delete_singleton_eq].
  by eapply (step_store _ _ _ _ s2 0 10 10 ann_key (ann_state "c1")).
Qed.

(** The login of [ann_login] that starts at 100, up to its taking the challenge. *)
Definition sys_pruned : Sys := at_step wa_issued 100 (Pruning 100 [] ann_login).
Definition sys_taken : Sys :=
  at_step wa_taken 100 (LoggingIn ann_web "root" "pw" "sig:c1" (Some (ann_challenge "c1" 130))).

Definition label_taken : Label := Taken 100 ann_key (Some (ann_challenge "c1" 130)).

Lemma run_pruned : demo_run [Silent; Silent; Issued 10 ann_key (ann_challenge "c1" 130); Silent; Silent] sys_pruned.
Proof.
  set (s1 := at_step wa_issued 10 (Entering ann_login)).
  eapply (one_step _ s1); [| |apply insert_singleton_eq]; [|by apply (step_collect _ _ _ _ s1 0 100)].
  eapply (one_step _ sys_issued); [apply run_issued| |apply insert_empty].
  by apply (step_login _ _ _ _ sys_issued 0 ann_web).
Qed.

Lemma step_taken : demo_step sys_pruned label_taken sys_taken.
Proof.
  eapply step_to; [|apply insert_singleton_eq].
  apply (step_login_take _ _ _ _ sys_pruned 0 100 ann_web); done.
Qed.

Lemma take_gives_live_witness :
  latest ann_key [Silent; Silent; Issued 10 ann_key (ann_challenge "c1" 130); Silent; Silent] = Some (ann_challenge "c1" 130) ∧
  (100 ≤ 130)%Z.
Proof.
  apply (take_gives_live demo_crypt demo_users demo_json demo_sql _ sys_pruned 100 ann_key (Some (ann_challenge "c1" 130)) sys_taken
    run_pruned step_taken). reflexivity.
Defined.

Definition sys_in : Sys :=
  mkSys (login_finish demo_crypt demo_users demo_json demo_sql 0 100 ann_web "root" "pw" "sig:c1" (Some (ann_challenge "c1" 130)) wa_taken).2 100 ∅.

Lemma run_taken :
  demo_run [label_taken; Silent; Silent; Issued 10 ann_key (ann_challenge "c1" 130); Silent; Silent] sys_taken.
Proof. eapply run_step; [apply run_pruned|apply step_taken]. Qed.

Lemma step_in :
  demo_step sys_taken (LoginEnds "s1" "root" "pw" "sig:c1" (Some (ann_challenge "c1" 130)) (Ret true)) sys_in.
Proof.
  eapply step_to; [|apply delete_singleton_eq].
  apply (step_login_ends _ _ _ _ sys_taken 0 0 100 ann_web "root" "pw" "sig:c1"); [done|vm_compute; reflexivity].
Qed.

Lemma key_login_safe_witness :
  "s1" ∈ sys_in.(wa).(auth).(authenticated) ∧ check_user demo_crypt demo_users "root" "pw" = Ret true.
Proof.
  destruct (key_login_safe demo_crypt demo_users demo_json demo_sql _ sys_taken "s1" "root" "pw" "sig:c1"
    (Some (ann_challenge "c1" 130)) sys_in run_taken step_in)
    as (Hu & ? & ? & ? & ? & ? & ? & ? & ? & ? & _ & _ & _ & _ & _ & _ & _ & _ & _ & H & _). exact (conj H Hu).
Defined.

(** The race: at 131 the call 1 of another connection finds [c1] expired; meanwhile ann
    gets the new challenge [c2]; then call 1 pops the key, and [c2] is gone. *)
Example prune_race :
  ∃ l s, demo_run l s ∧ s.(clock) = 131%Z ∧ s.(wa).(ceremonies) !! ann_key = None ∧
    latest ann_key l = Some (ann_challenge "c2" 251).
Proof.
  set (bob_login := ToLogin (conn_of "s2" "nas.example") "root" "pw" "sig:c3").
  set (put := ToStore ann_key (ann_state "c2")).
  set (s1 := mkSys wa_issued 10 (<[1 := Entering bob_login]> ∅)).
  set (s2 := mkSys wa_issued 131 (<[1 := Pruning 131 (expired_keys 131 wa_issued.(ceremonies)) bob_login]> s1.(threads))).
  set (s3 := mkSys wa_issued 131 (<[2 := Entering put]> s2.(threads))).
  set (s4 := mkSys wa_issued 131 (<[2 := Pruning 131 (expired_keys 131 wa_issued.(ceremonies)) put]> s3.(threads))).
  set (s5 := mkSys wa_taken 131 (<[2 := Pruning 131 [] put]> s4.(threads))).
  set (s6 := mkSys (with_ceremonies <[ann_key := ann_challenge "c2" 251]> wa_taken) 131 (delete 2 s5.(threads))).
  set (s7 := mkSys (with_ceremonies (delete ann_key) s6.(wa)) 131 (<[1 := Pruning 131 [] bob_login]> s6.(threads))).
  eexists _, s7. split; [|split_and!; [done|vm_compute; reflexivity|]].
  - eapply (run_step _ _ _ _ _ s6).
    2: { eapply (step_drop _ _ _ _ s6 1 131 ann_key []); vm_compute; reflexivity. }
    eapply (run_step _ _ _ _ _ s5).
    2: { eapply (step_store _ _ _ _ s5 2 131 131 ann_key (ann_state "c2")); [done|vm_compute; reflexivity..]. }
    eapply (run_step _ _ _ _ _ s4).
    2: { eapply (step_drop _ _ _ _ s4 2 131 ann_key []); vm_compute; reflexivity. }
    eapply (run_step _ _ _ _ _ s3).
    2: { by apply (step_collect _ _ _ _ s3 2 131). }
    eapply (run_step _ _ _ _ _ s2).
    2: { eapply (step_login_begin _ _ _ _ s2 2 ann_web "c2"); [done|vm_compute; reflexivity]. }
    eapply (run_step _ _ _ _ _ s1).
    2: { by apply (step_collect _ _ _ _ s1 1 131). }
    eapply (run_step _ _ _ _ _ sys_issued); [apply run_issued|].
    by apply (step_login _ _ _ _ sys_issued 1).
  - reflexivity.
Qed.

(** Deleting the only key is refused while WebAuthn is on. *)
Lemma no_lockout_witness :
  (delete_credential 1 (wa_0 true)).2.(rows) = [key_1] ∧ consistent (delete_credential 1 (wa_0 true)).2.
Proof.
  split; [reflexivity|]. apply (no_lockout demo_crypt demo_users demo_json demo_sql (wa_0 true)).
  - apply rtc_once. constructor.
  - split; [done| |]; apply NoDup_singleton.
Defined.

(** ** What the guards leave open *)

(** The guards of [do_update] and [delete_credential] look before they write: when
    the two interleave, WebAuthn ends up on with no key enrolled. *)
Example guards_race :
  ∃ s, demo_run [Silent; Silent; Silent; Silent] s ∧ s.(wa).(enabled) = true ∧ s.(wa).(rows) = [].
Proof.
  set (s0 := mkSys (wa_0 false) 0 ∅).
  set (s1 := mkSys (wa_0 false) 0 (<[0 := Updating true]> ∅)).
  set (s2 := mkSys (wa_0 false) 0 (<[1 := Deleting 1]> s1.(threads))).
  set (s3 := mkSys (wa_0 true) 0 (delete 0 s2.(threads))).
  exists (mkSys (delete_write 1 (wa_0 true)).2 0 (delete 1 s3.(threads))). split; [|done].
  eapply (run_step _ _ _ _ _ s3); [|by apply (step_delete_ends _ _ _ _ s3 1 1%Z)].
  eapply (run_step _ _ _ _ _ s2); [|by apply (step_update_ends _ _ _ _ s2 0 true)].
  eapply (run_step _ _ _ _ _ s1); [|by apply (step_delete_check _ _ _ _ s1 1 1%Z)].
  eapply (run_step _ _ _ _ _ s0); [|by apply (step_update_check _ _ _ _ s0 0 (Some true) true)].
  by apply run_start.
Qed.

(** A name is checked when a registration begins and not when it is completed: two
    connections enroll two keys of one name. *)
Example names_repeat :
  let w1 := (register_begin 10 (conn_of "s1" "nas.example") "red" "c1" (wa_0 false)).2 in
  let w2 := (register_begin 11 (conn_of "s2" "nas.example") "red" "c2" w1).2 in
  let w3 := (register_complete 0 12 (conn_of "s1" "nas.example") "k2:c1" w2).2 in
  let w4 := (register_complete 0 13 (conn_of "s2" "nas.example") "k3:c2" w3).2 in
  cred_name <$> w4.(rows) = ["blue"; "red"; "red"].
Proof. vm_compute. reflexivity. Qed.

(** An address passes for the DNS hostname that the message asks for. *)
Example address_is_hostname :
  request_origin (conn_of "s1" "192.0.2.10") = Ret ("https://192.0.2.10", "192.0.2.10").
Proof. vm_compute. reflexivity. Qed.
