(* ===== verification/Client.v ===== *)
(** * The client of the websocket API: client/client.py and client/protocol.py

    A connection is shared by the threads that call methods, wait for jobs, subscribe
    and ping, by the thread that receives messages, and by a new thread for every event
    that has a callback.  The pieces of code between two waits are the operations here;
    [step] interleaves them. *)

From S2P Require Import Prelude PyValue Filter PyNum Rows.

(** ** Data *)

Inductive cexn : Type :=
| ClientException (error errno trace extra : pyval)
| CallTimeout
| ClientValidation (errors : list (pyval * pyval * pyval))
| PyException (e : pyval)
| Py (e : exn).

(** [Call]; the id is the key of the heap. *)
Record CallObj : Type := mkCall {
  returned : bool;
  result : pyval;
  errno : pyval;
  error : pyval;
  trace : pyval;
  type : pyval;
  extra : pyval;
  py_exception : pyval;
}.

Definition new_call : CallObj := mkCall false PNone PNone PNone PNone PNone PNone PNone.

(** An entry of [_jobs]: the fields of the events, the event under [__ready] and whether
    there is a function under [__callback]. *)
Record Entry : Type := mkEntry { fields : pydict; ready : option nat; callback : bool }.

Definition no_entry : Entry := mkEntry [] None false.

(** An entry of [_event_callbacks]; the callback is [_jobs_callback] or the user's. *)
Record Sub : Type := mkSub { sub_id : string; sub_jobs : bool; sub_ready : nat; sub_error : pyval }.

Record Client : Type := mkClient {
  (** the objects of the calls, and those that are in [_calls] *)
  heap : gmap string CallObj;
  calls : gset string;
  jobs : gmap Z Entry;
  (** the events, set or not *)
  events : list bool;
  jobs_watching : bool;
  pings : gmap string nat;
  subs : list (string * Sub);
  connected : bool;
  closed : bool;
  (** the socket takes messages; the messages that were sent *)
  open : bool;
  sent : list pydict;
  (** the threads that were started for callbacks and did not run yet *)
  spawned : list (bool * string * pydict);
}.

Definition set_heap v c := mkClient v c.(calls) c.(jobs) c.(events) c.(jobs_watching) c.(pings) c.(subs) c.(connected) c.(closed) c.(open) c.(sent) c.(spawned).
Definition set_calls v c := mkClient c.(heap) v c.(jobs) c.(events) c.(jobs_watching) c.(pings) c.(subs) c.(connected) c.(closed) c.(open) c.(sent) c.(spawned).
Definition set_jobs v c := mkClient c.(heap) c.(calls) v c.(events) c.(jobs_watching) c.(pings) c.(subs) c.(connected) c.(closed) c.(open) c.(sent) c.(spawned).
Definition set_events v c := mkClient c.(heap) c.(calls) c.(jobs) v c.(jobs_watching) c.(pings) c.(subs) c.(connected) c.(closed) c.(open) c.(sent) c.(spawned).
Definition set_watching v c := mkClient c.(heap) c.(calls) c.(jobs) c.(events) v c.(pings) c.(subs) c.(connected) c.(closed) c.(open) c.(sent) c.(spawned).
Definition set_pings v c := mkClient c.(heap) c.(calls) c.(jobs) c.(events) c.(jobs_watching) v c.(subs) c.(connected) c.(closed) c.(open) c.(sent) c.(spawned).
Definition set_subs v c := mkClient c.(heap) c.(calls) c.(jobs) c.(events) c.(jobs_watching) c.(pings) v c.(connected) c.(closed) c.(open) c.(sent) c.(spawned).
Definition set_connected v c := mkClient c.(heap) c.(calls) c.(jobs) c.(events) c.(jobs_watching) c.(pings) c.(subs) v c.(closed) c.(open) c.(sent) c.(spawned).
Definition set_closed v c := mkClient c.(heap) c.(calls) c.(jobs) c.(events) c.(jobs_watching) c.(pings) c.(subs) c.(connected) v c.(open) c.(sent) c.(spawned).
Definition set_open v c := mkClient c.(heap) c.(calls) c.(jobs) c.(events) c.(jobs_watching) c.(pings) c.(subs) c.(connected) c.(closed) v c.(sent) c.(spawned).
Definition set_sent v c := mkClient c.(heap) c.(calls) c.(jobs) c.(events) c.(jobs_watching) c.(pings) c.(subs) c.(connected) c.(closed) c.(open) v c.(spawned).
Definition set_spawned v c := mkClient c.(heap) c.(calls) c.(jobs) c.(events) c.(jobs_watching) c.(pings) c.(subs) c.(connected) c.(closed) c.(open) c.(sent) v.

Notation MC := (M Client cexn).

Definition client_init : Client := mkClient ∅ ∅ ∅ [] false ∅ [] false false true [] [].

(** ** Operations *)

Section client.
(** The option [py_exceptions] with [pickle.loads(b64decode(...))]; the function that the
    user gives to follow a job. *)
Context (py_exceptions : bool) (unpickle : pyval → outcome cexn pyval) (user_callback : pydict → outcome cexn unit).

Definition lift {A} (o : outcome exn A) : MC A := λ c, (match o with Ret a => Ret a | Raise e => Raise (Py e) end, c).
Definition liftC {A} (o : outcome cexn A) : MC A := λ c, (o, c).

(** *** Events *)

Definition new_event : MC nat := λ c, (Ret (length c.(events)), set_events (c.(events) ++ [false]) c).
Definition is_set (c : Client) (e : nat) : bool := match c.(events) !! e with Some b => b | None => false end.
Definition set_event (e : nat) : MC unit := modify (λ c, set_events (<[e := true]> c.(events)) c).

(** [_send] *)
Definition send (data : pydict) : MC unit :=
  c ← get_state;
  if c.(open) then modify (set_sent (c.(sent) ++ [data])) else raise (Py (OtherError "WebSocketConnectionClosedException")).

(** *** Receiving *)

Definition update_call (id : string) (f : CallObj → CallObj) : MC unit := modify (λ c, set_heap (alter f id c.(heap)) c).
Definition register_call (id : string) : MC unit := modify (λ c, set_calls ({[id]} ∪ c.(calls)) c).
Definition unregister_call (id : string) : MC unit := modify (λ c, set_calls (c.(calls) ∖ {[id]}) c).

Definition with_result (v : pyval) (o : CallObj) : CallObj := mkCall o.(returned) v o.(errno) o.(error) o.(trace) o.(type) o.(extra) o.(py_exception).
Definition with_error (e : pydict) (o : CallObj) : CallObj :=
  mkCall o.(returned) o.(result) (col e "error") (col e "reason") (col e "trace") (col e "type") (col e "extra") (col e "py_exception").
Definition with_exception (v : pyval) (o : CallObj) : CallObj := mkCall o.(returned) o.(result) o.(errno) o.(error) o.(trace) o.(type) o.(extra) v.
Definition with_returned (o : CallObj) : CallObj := mkCall true o.(result) o.(errno) o.(error) o.(trace) o.(type) o.(extra) o.(py_exception).

(** The value as a key of a dict whose keys are strings. *)
Definition str_key (v : pyval) : outcome exn (option string) :=
  match v with
  | PStr k => Ret (Some k)
  | PList _ => Raise (TypeError "unhashable type: 'list'")
  | PDict _ => Raise (TypeError "unhashable type: 'dict'")
  | _ => Ret None
  end.

Definition receive_result (id : string) (message : pydict) : MC unit :=
  update_call id (with_result (col message "result"));;
  (match dget message "error" with
   | None => mret tt
   | Some (PDict e) =>
       update_call id (with_error e);;
       if py_exceptions && truthy (col e "py_exception") then
         x ← liftC (unpickle (col e "py_exception"));
         update_call id (with_exception x)
       else mret tt
   | Some _ => raise (Py (AttributeError "get"))
   end);;
  update_call id with_returned;;
  unregister_call id.

Definition upper (mtype : string) : string :=
  PyStr.map_chars (λ a, let n := Ascii.nat_of_ascii a in if Nat.leb 97 n && Nat.leb n 122 then Ascii.ascii_of_nat (n - 32) else a) mtype.

(** A thread for the callback of a subscription. *)
Definition spawn (mtype : string) (message : pydict) (s : Sub) : MC unit :=
  modify (λ c, set_spawned (c.(spawned) ++ [(s.(sub_jobs), upper mtype, message)]) c).

Definition receive_event (mtype : string) (message : pydict) : MC unit :=
  c ← get_state;
  match c.(subs) with
  | [] => mret tt
  | subs =>
      (match dget subs "*" with Some s => spawn mtype message s | None => mret tt end);;
      v ← lift (item (PDict message) "collection");
      k ← lift (str_key v);
      match k with
      | Some name => match dget subs name with Some s => spawn mtype message s | None => mret tt end
      | None => mret tt
      end
  end.

(** The first subscription with an id. *)
Definition find_sub (id : pyval) (subs : list (string * Sub)) : option (string * Sub) :=
  List.find (λ ks : string * Sub, py_eq id (PStr ks.2.(sub_id))) subs.

Definition receive_ready (message : pydict) : MC unit :=
  v ← lift (item (PDict message) "subs");
  ids ← lift (py_iter v);
  forM ids (λ id,
    c ← get_state;
    match find_sub id c.(subs) with Some (_, s) => set_event s.(sub_ready) | None => mret tt end).

Definition receive_nosub (message : pydict) : MC unit :=
  c ← get_state;
  match c.(subs) with
  | [] => mret tt
  | subs =>
      id ← lift (item (PDict message) "id");
      match find_sub id subs with
      | None => mret tt
      | Some (name, s) =>
          e ← lift (item (PDict message) "error");
          e ← lift (item e "error");
          modify (set_subs (dset subs name (mkSub s.(sub_id) s.(sub_jobs) s.(sub_ready) e)));;
          set_event s.(sub_ready)
      end
  end.

Definition is_none (v : pyval) : bool := match v with PNone => true | _ => false end.

(** [Client._recv] *)
Definition recv (message : pydict) : MC unit :=
  let id := col message "id" in
  let kind t := py_eq (col message "msg") (PStr t) in
  if kind "connected" then modify (set_connected true)
  else if kind "failed" then raise (ClientException (PStr "Unsupported protocol version") PNone PNone PNone)
  else if kind "pong" && negb (is_none id) then
    k ← lift (str_key id);
    c ← get_state;
    match k ≫= λ k, c.(pings) !! k with Some e => set_event e | None => mret tt end
  else if negb (is_none id) && kind "result" then
    k ← lift (str_key id);
    c ← get_state;
    match k with
    | Some k => if decide (k ∈ c.(calls)) then receive_result k message else mret tt
    | None => mret tt
    end
  else match List.find kind ["added"; "changed"; "removed"] with
       | Some mtype => receive_event mtype message
       | None => if kind "ready" then receive_ready message else if kind "nosub" then receive_nosub message else mret tt
       end.

(** [DDPProtocol.on_message], of the value that [json.loads] gives when the text is JSON *)
Definition on_message (data : option pyval) : MC unit :=
  match data with
  | None => raise (Py (OtherError "Invalid JSON message"))
  | Some (PDict message) => if dhas message "msg" then recv message else raise (Py (OtherError "msg property not found"))
  | Some _ => raise (Py (OtherError "not an object"))
  end.

Definition close_text : string := "WebSocket connection closed with code=1006, reason='Connection closed'".
(** of FreeBSD *)
Definition ECONNABORTED : Z := 53.

Definition abort_call (o : CallObj) : CallObj :=
  if o.(returned) then o else mkCall true o.(result) (PInt ECONNABORTED) (PStr close_text) o.(trace) o.(type) o.(extra) o.(py_exception).

Definition close_fields (d : pydict) : pydict :=
  dset (dset (dset d "error" (PStr close_text)) "exception" (PStr close_text)) "exc_info"
    (PDict [("type", PStr "Exception"); ("repr", PStr close_text); ("extra", PNone)]).

(** A job that nobody waits for gets its event, too. *)
Definition close_job (j : Z) : MC unit :=
  c ← get_state;
  match c.(jobs) !! j with
  | None => mret tt
  | Some e =>
      r ← (match e.(ready) with Some r => mret r | None => new_event end);
      c ← get_state;
      if is_set c r then modify (set_jobs (<[j := mkEntry e.(fields) (Some r) e.(callback)]> c.(jobs)))
      else modify (set_jobs (<[j := mkEntry (close_fields e.(fields)) (Some r) e.(callback)]> c.(jobs)));; set_event r
  end.

(** [Client.on_close] *)
Definition on_close : MC unit :=
  modify (λ c, set_heap (map_imap (λ id o, Some (if decide (id ∈ c.(calls)) then abort_call o else o)) c.(heap)) c);;
  c ← get_state;
  forM (map_to_list c.(jobs)).*1 close_job;;
  modify (set_closed true).

(** [Client.on_open] *)
Definition on_open : MC unit :=
  send [("msg", PStr "connect"); ("version", PStr "1"); ("support", PList [PStr "1"]);
        ("features", PList (if py_exceptions then [PStr "PY_EXCEPTIONS"] else []))].

(** One turn of [WSClient._recv_loop]: an exception ends the loop. *)
Definition recv_turn (data : option pyval) : MC unit := try_except (on_message data) (λ _, on_close).

(** *** Jobs *)

(** The server numbers its jobs. *)
Definition job_key (v : pyval) : outcome exn Z :=
  match v with PInt z => Ret z | _ => Raise (TypeError "job id") end.

Definition final_state (v : pyval) : bool := existsb (py_eq v) [PStr "SUCCESS"; PStr "FAILED"; PStr "ABORTED"].

(** Its event is set when the job is over. *)
Definition job_over (mtype : string) (j : Z) (e : Entry) : MC unit :=
  if String.eqb mtype "CHANGED" then
    st ← lift (item (PDict e.(fields)) "state");
    if final_state st then
      r ← (match e.(ready) with Some r => mret r | None => new_event end);
      modify (λ c, set_jobs (<[j := mkEntry e.(fields) (Some r) e.(callback)]> c.(jobs)) c);;
      set_event r
    else mret tt
  else mret tt.

(** [_jobs_callback] *)
Definition jobs_callback (mtype : string) (message : pydict) : MC unit :=
  v ← lift (item (col message "fields") "id");
  j ← lift (job_key v);
  c ← get_state;
  let news := match col message "fields" with PDict d => d | _ => [] end in
  let e := match c.(jobs) !! j with Some e => e | None => no_entry end in
  let e := mkEntry (dupdate e.(fields) news) e.(ready) e.(callback) in
  modify (set_jobs (<[j := e]> c.(jobs)));;
  (if e.(callback) then liftC (user_callback e.(fields)) else mret tt);;
  job_over mtype j e.

(** [Job.__init__] *)
Definition job_new (j : Z) (with_callback : bool) : MC nat :=
  c ← get_state;
  let e := match c.(jobs) !! j with Some e => e | None => no_entry end in
  r ← (match e.(ready) with Some r => mret r | None => new_event end);
  modify (λ c, set_jobs (<[j := mkEntry e.(fields) (Some r) with_callback]> c.(jobs)) c);;
  mret r.

(** The errors of [ValidationErrors] *)
Definition validation_error (v : pyval) : outcome exn (pyval * pyval * pyval) :=
  match v with
  | PList (a :: m :: n :: _) => Ret (a, m, n)
  | PList _ => Raise IndexError
  | _ => Raise (TypeError "not subscriptable")
  end.

Definition raise_validation {A} (extra : pyval) : MC A :=
  l ← lift (py_iter extra);
  errors ← lift (mapO validation_error l);
  raise (ClientValidation errors).

(** [Job.result], after the wait *)
Definition job_result (j : Z) : MC pyval :=
  c ← get_state;
  modify (set_jobs (delete j c.(jobs)));;
  match c.(jobs) !! j with
  | None => raise (ClientException (PStr "No job event was received.") PNone PNone PNone)
  | Some e =>
      let job := PDict e.(fields) in
      st ← lift (item job "state");
      if negb (py_eq st (PStr "SUCCESS")) then
        exc_info ← lift (item job "exc_info");
        validation ← (if truthy exc_info then t ← lift (item exc_info "type"); mret (py_eq t (PStr "VALIDATION")) else mret false);
        if (validation : bool) then
          extra ← lift (item exc_info "extra");
          raise_validation extra
        else
          error ← lift (item job "error");
          exception ← lift (item job "exception");
          extra ← lift (item exc_info "extra");
          raise (ClientException error PNone (PDict [("formatted", exception)]) extra)
      else lift (item job "result")
  end.

(** *** Calls, subscriptions and pings *)

Definition method_message (id method : string) (params : list pyval) : pydict :=
  [("msg", PStr "method"); ("method", PStr method); ("id", PStr id); ("params", PList params)].

(** [call] up to its wait, and from there *)
Definition call_begin (id method : string) (params : list pyval) : MC unit :=
  modify (λ c, set_heap (<[id := new_call]> c.(heap)) c);;
  register_call id;;
  send (method_message id method params).

Definition call_end (o : CallObj) : MC pyval :=
  if truthy o.(errno) then
    if truthy o.(py_exception) then raise (PyException o.(py_exception))
    else if truthy o.(trace) && py_eq o.(type) (PStr "VALIDATION") then raise_validation o.(extra)
    else raise (ClientException o.(error) o.(errno) o.(trace) o.(extra))
  else mret o.(result).

(** [subscribe] up to its wait, and from there *)
Definition subscribe_begin (id name : string) (to_jobs : bool) : MC nat :=
  r ← new_event;
  modify (λ c, set_subs (dset c.(subs) name (mkSub id to_jobs r PNone)) c);;
  send [("msg", PStr "sub"); ("id", PStr id); ("name", PStr name)];;
  mret r.

Definition subscribe_end (id name : string) : MC pyval :=
  c ← get_state;
  match dget c.(subs) name with
  | None => raise (Py (KeyError name))
  | Some s => if truthy s.(sub_error) then raise (Py (ValueError (py_str s.(sub_error)))) else mret (PStr id)
  end.

Definition unsubscribe (id : string) : MC unit :=
  send [("msg", PStr "unsub"); ("id", PStr id)];;
  modify (λ c, set_subs (List.filter (λ ks : string * Sub, negb (String.eqb ks.2.(sub_id) id)) c.(subs)) c).

Definition ping_begin (id : string) : MC nat :=
  r ← new_event;
  modify (λ c, set_pings (<[id := r]> c.(pings)) c);;
  send [("msg", PStr "ping"); ("id", PStr id)];;
  mret r.

(** ** Threads *)

(** What a thread asked for; [call] with [job] waits for the job, at once or when the
    caller asks the object it got for the result. *)
Inductive Program : Type :=
| PCall (method : string) (params : list pyval) (job : bool) (with_callback : bool)
| PSubscribe (name : string)
| PUnsubscribe (id : string)
| PPing.

Inductive PC : Type :=
| Start
| Subscribing (id : string) (r : nat)
| Calling
| Waiting
| CreatingJob
| JobWaiting (r : nat)
| Pinging (r : nat)
| Finished (o : outcome cexn pyval).

Record Thread : Type := mkThread {
  program : Program;
  (** the id of its call and the job that the call started *)
  t_call : option string;
  t_job : option Z;
  at_ : PC;
}.

Definition goto (pc : PC) (t : Thread) : Thread := mkThread t.(program) t.(t_call) t.(t_job) pc.

(** The thread goes on where the operation returns, or ends with its exception. *)
Definition continue {A} (t : Thread) (k : A → PC) (r : outcome cexn A * Client) : Thread * Client :=
  match r with
  | (Ret a, c) => (goto (k a) t, c)
  | (Raise e, c) => (goto (Finished (Raise e)) t, c)
  end.

Definition finish (t : Thread) (r : outcome cexn pyval * Client) : Thread * Client := (goto (Finished r.1) t, r.2).

(** The next piece of a thread, when its wait is over; [uuid] is the id that it draws. *)
Definition advance (uuid : string) (t : Thread) (c : Client) : option (Thread * Client) :=
  match t.(at_), t.(program) with
  | Start, PCall _ _ false _ => Some (goto Calling t, c)
  | Start, PCall _ _ true _ =>
      Some (if c.(jobs_watching) then (goto Calling t, c)
            else continue t (Subscribing uuid) (subscribe_begin uuid "core.get_jobs" true (set_watching true c)))
  | Start, PSubscribe name => Some (continue t (Subscribing uuid) (subscribe_begin uuid name false c))
  | Start, PUnsubscribe id => Some (finish t ((unsubscribe id;; mret PNone) c))
  | Start, PPing => Some (continue t Pinging (ping_begin uuid c))
  | Subscribing id r, PSubscribe name => if is_set c r then Some (finish t (subscribe_end id name c)) else None
  | Subscribing id r, PCall _ _ true _ => if is_set c r then Some (continue t (λ _, Calling) (subscribe_end id "core.get_jobs" c)) else None
  | Calling, PCall method params _ _ =>
      Some (continue (mkThread t.(program) (Some uuid) t.(t_job) t.(at_)) (λ _, Waiting) (call_begin uuid method params c))
  | Waiting, PCall _ _ job _ =>
      id ← t.(t_call);
      o ← c.(heap) !! id;
      if o.(returned) then
        Some (match call_end o c with
              | (Raise e, c) => (goto (Finished (Raise e)) t, c)
              | (Ret v, c) =>
                  if job then
                    match job_key v with
                    | Ret j => (mkThread t.(program) t.(t_call) (Some j) CreatingJob, c)
                    | Raise e => (goto (Finished (Raise (Py e))) t, c)
                    end
                  else (goto (Finished (Ret v)) t, c)
              end)
      else None
  | CreatingJob, PCall _ _ true with_callback => j ← t.(t_job); Some (continue t JobWaiting (job_new j with_callback c))
  | JobWaiting r, PCall _ _ true _ => j ← t.(t_job); if is_set c r then Some (finish t (job_result j c)) else None
  | Pinging r, PPing => if is_set c r then Some (goto (Finished (Ret (PBool true))) t, c) else None
  | _, _ => None
  end.

(** A wait with a timeout that passes. *)
Definition expire (t : Thread) (c : Client) : option (Thread * Client) :=
  match t.(at_), t.(program) with
  | Waiting, _ => id ← t.(t_call); Some (finish t ((unregister_call id;; raise CallTimeout) c))
  | Pinging _, PPing => Some (goto (Finished (Ret (PBool false))) t, c)
  | _, _ => None
  end.

(** ** Interleavings *)

Record Sys : Type := mkSys {
  client : Client;
  threads : list Thread;
  (** the messages that were received, and the events whose callback for jobs ran to its
      end *)
  received : list pydict;
  delivered : list (string * pydict);
}.

Inductive Label : Type :=
| LNew (p : Program)
| LThread (i : nat) (uuid : string)
| LTimeout (i : nat)
| LRecv (data : option pyval)
| LEof
| LCallback (k : nat)
| LDisconnect.

Definition move (s : Sys) (i : nat) (r : option (Thread * Client)) : option Sys :=
  '(t, c) ← r; Some (mkSys c (<[i := t]> s.(threads)) s.(received) s.(delivered)).

Definition exec (l : Label) (s : Sys) : option Sys :=
  match l with
  | LNew p => Some (mkSys s.(client) (s.(threads) ++ [mkThread p None None Start]) s.(received) s.(delivered))
  | LThread i uuid =>
      t ← s.(threads) !! i;
      if decide (is_Some (s.(client).(heap) !! uuid)) then None else move s i (advance uuid t s.(client))
  | LTimeout i => t ← s.(threads) !! i; move s i (expire t s.(client))
  | LRecv data =>
      if s.(client).(closed) then None
      else Some (mkSys (recv_turn data s.(client)).2 s.(threads)
                   (s.(received) ++ match data with Some (PDict m) => [m] | _ => [] end) s.(delivered))
  | LEof => if s.(client).(closed) then None else Some (mkSys (on_close s.(client)).2 s.(threads) s.(received) s.(delivered))
  | LCallback k =>
      '(to_jobs, mtype, message) ← s.(client).(spawned) !! k;
      let c := set_spawned (delete k s.(client).(spawned)) s.(client) in
      if (to_jobs : bool) then
        let '(o, c) := jobs_callback mtype message c in
        Some (mkSys c s.(threads) s.(received) (s.(delivered) ++ match o with Ret _ => [(mtype, message)] | Raise _ => [] end))
      else Some (mkSys c s.(threads) s.(received) s.(delivered))
  | LDisconnect => Some (mkSys (set_open false s.(client)) s.(threads) s.(received) s.(delivered))
  end.

Definition sys_init : Sys := mkSys (on_open client_init).2 [] [] [].

Fixpoint run (labels : list Label) (s : Sys) : option Sys :=
  match labels with
  | [] => Some s
  | l :: labels => s ← exec l s; run labels s
  end.

End client.
