(* ===== verification/ClientFacts.v ===== *)
(** * The client: every caller gets its own answer, and nobody waits for nothing

    The invariant of the calls and the invariant of the jobs, over every interleaving of
    the pieces between two waits of
    the threads of a client. *)

From S2P Require Import Prelude PyValue Filter PyNum Rows Client.

(** ** Frames *)

Definition is_method (m : pydict) (id : string) : Prop := dget m "msg" = Some (PStr "method") ∧ dget m "id" = Some (PStr id).

(** The calls are as they were, but for messages that are no calls. *)
Definition frame_calls (c c' : Client) : Prop :=
  c'.(heap) = c.(heap) ∧ c'.(calls) = c.(calls) ∧ c'.(closed) = c.(closed) ∧ (∀ m, m ∈ c.(sent) → m ∈ c'.(sent)) ∧ ∀ m id, m ∈ c'.(sent) → is_method m id → m ∈ c.(sent).

(** The jobs are as they were, and events stay set. *)
Definition events_le (c c' : Client) : Prop :=
  length c.(events) ≤ length c'.(events) ∧ ∀ r, is_set c r = true → is_set c' r = true.
Definition frame_jobs (c c' : Client) : Prop := c'.(jobs) = c.(jobs) ∧ events_le c c'.

Lemma events_le_refl c c' : c'.(events) = c.(events) → events_le c c'.
Proof. unfold events_le, is_set. by intros ->. Qed.

Lemma events_le_trans c1 c2 c3 : events_le c1 c2 → events_le c2 c3 → events_le c1 c3.
Proof. intros [H1 H2] [H3 H4]. split; [lia|auto]. Qed.

Lemma events_le_app c l : events_le c (set_events (c.(events) ++ l) c).
Proof.
  split; cbn; [rewrite length_app; lia|]. intros r. unfold is_set. cbn. destruct (events c !! r) eqn:E; [|done]. by rewrite (lookup_app_l_Some _ _ _ _ E).
Qed.

Lemma events_le_set c r : events_le c (set_events (<[r := true]> c.(events)) c).
Proof.
  split; cbn; [by rewrite length_insert|]. intros r'. unfold is_set. cbn. destruct (decide (r = r')) as [->|Hne]; [|by rewrite list_lookup_insert_ne].
  destruct (events c !! r') eqn:E; [|done]. rewrite list_lookup_insert_eq; [done|]. by eapply lookup_lt_Some.
Qed.

Lemma is_set_set c r : r < length c.(events) → is_set (set_events (<[r := true]> c.(events)) c) r = true.
Proof. intros H. unfold is_set. cbn. by rewrite list_lookup_insert_eq. Qed.

Section facts.
Context (py_exceptions : bool) (unpickle : pyval → outcome cexn pyval) (user_callback : pydict → outcome cexn unit).

Section frames.
Context (c0 : Client).

Lemma keeps_client_lift {A} P (o : outcome exn A) : keeps P (lift o).
Proof. by intros c. Qed.
Lemma keeps_liftC {A} P (o : outcome cexn A) : keeps P (liftC o).
Proof. by intros c. Qed.

(** Changes of other parts of the client *)
Lemma calls_modify f : (∀ c, (f c).(heap) = c.(heap) ∧ (f c).(calls) = c.(calls) ∧ (f c).(closed) = c.(closed) ∧ (f c).(sent) = c.(sent)) → keeps (frame_calls c0) (modify f : M Client cexn unit).
Proof. intros Hf. apply keeps_modify. intros c (H1 & H2 & H4 & H3). destruct (Hf c) as (E1 & E2 & E4 & E3). split_and!; [congruence|congruence|congruence|rewrite E3; apply H3..]. Qed.
Lemma jobs_modify f : (∀ c, (f c).(jobs) = c.(jobs) ∧ (f c).(events) = c.(events)) → keeps (frame_jobs c0) (modify f : M Client cexn unit).
Proof.
  intros Hf. apply keeps_modify. intros c (H1 & H2). destruct (Hf c) as (E1 & E2). split; [congruence|]. eapply events_le_trans; [exact H2|by apply events_le_refl].
Qed.

Lemma calls_new_event : keeps (frame_calls c0) new_event.
Proof. by intros c Hc. Qed.
Lemma jobs_new_event : keeps (frame_jobs c0) new_event.
Proof. intros c [H1 H2]. split; [done|]. eapply events_le_trans; [exact H2|apply events_le_app]. Qed.
Lemma jobs_set_event r : keeps (frame_jobs c0) (set_event r).
Proof. apply keeps_modify. intros c [H1 H2]. split; [done|]. eapply events_le_trans; [exact H2|apply events_le_set]. Qed.

Lemma calls_send m : dget m "msg" ≠ Some (PStr "method") → keeps (frame_calls c0) (send m).
Proof.
  intros Hm c (H1 & H2 & H4 & H0 & H3). unfold send, mbind, M_bind, get_state. destruct (open c); [|done]. split_and!; [done|done|done|intros; apply elem_of_app; left; by apply H0|]. cbn.
  intros m' id [Hin|Hin]%elem_of_app Hmeth; [by eapply H3|]. apply list_elem_of_singleton in Hin as ->. by destruct Hmeth.
Qed.
Lemma jobs_send m : keeps (frame_jobs c0) (send m).
Proof.
  intros c [H1 H2]. unfold send, mbind, M_bind, get_state. destruct (open c); [|done]. split; [done|]. eapply events_le_trans; [exact H2|by apply events_le_refl].
Qed.
End frames.

#[local] Hint Resolve keeps_client_lift keeps_liftC calls_new_event jobs_new_event jobs_set_event jobs_send : keeps.
#[local] Hint Extern 1 (keeps (frame_calls _) (modify _)) => (apply calls_modify; intros; split_and!; reflexivity) : keeps.
#[local] Hint Extern 1 (keeps (frame_calls _) (set_event _)) => (apply calls_modify; intros; split_and!; reflexivity) : keeps.
#[local] Hint Extern 1 (keeps (frame_jobs _) (modify _)) => (apply jobs_modify; intros; split; reflexivity) : keeps.
#[local] Hint Extern 1 (keeps (frame_calls _) (send _)) => (apply calls_send; discriminate) : keeps.

Lemma calls_subscribe_begin c0 id name j : keeps (frame_calls c0) (subscribe_begin id name j).
Proof. unfold subscribe_begin. keeps_tac. Qed.
Lemma jobs_subscribe_begin c0 id name j : keeps (frame_jobs c0) (subscribe_begin id name j).
Proof. unfold subscribe_begin. keeps_tac. Qed.
Lemma calls_unsubscribe c0 id : keeps (frame_calls c0) (unsubscribe id;; mret PNone).
Proof. unfold unsubscribe. keeps_tac. Qed.
Lemma jobs_unsubscribe c0 id : keeps (frame_jobs c0) (unsubscribe id;; mret PNone).
Proof. unfold unsubscribe. keeps_tac. Qed.
Lemma calls_ping_begin c0 id : keeps (frame_calls c0) (ping_begin id).
Proof. unfold ping_begin. keeps_tac. Qed.
Lemma jobs_ping_begin c0 id : keeps (frame_jobs c0) (ping_begin id).
Proof. unfold ping_begin. keeps_tac. Qed.
Lemma calls_jobs_callback c0 mtype m : keeps (frame_calls c0) (jobs_callback user_callback mtype m).
Proof. unfold jobs_callback, job_over. keeps_tac. Qed.
Lemma calls_job_new c0 j b : keeps (frame_calls c0) (job_new j b).
Proof. unfold job_new. keeps_tac. Qed.
Lemma calls_job_result c0 j : keeps (frame_calls c0) (job_result j).
Proof. unfold job_result, raise_validation. keeps_tac. Qed.
Lemma calls_close_job c0 j : keeps (frame_calls c0) (close_job j).
Proof. unfold close_job. keeps_tac. Qed.
Lemma jobs_call_begin c0 id method params : keeps (frame_jobs c0) (call_begin id method params).
Proof. unfold call_begin, register_call. keeps_tac. Qed.
Lemma calls_receive_event c0 t m : keeps (frame_calls c0) (receive_event t m).
Proof. unfold receive_event, spawn. keeps_tac. Qed.
Lemma jobs_receive_event c0 t m : keeps (frame_jobs c0) (receive_event t m).
Proof. unfold receive_event, spawn. keeps_tac. Qed.
Lemma calls_receive_ready c0 m : keeps (frame_calls c0) (receive_ready m).
Proof. unfold receive_ready. keeps_tac. Qed.
Lemma jobs_receive_ready c0 m : keeps (frame_jobs c0) (receive_ready m).
Proof. unfold receive_ready. keeps_tac. Qed.
Lemma calls_receive_nosub c0 m : keeps (frame_calls c0) (receive_nosub m).
Proof. unfold receive_nosub. keeps_tac. Qed.
Lemma jobs_receive_nosub c0 m : keeps (frame_jobs c0) (receive_nosub m).
Proof. unfold receive_nosub. keeps_tac. Qed.
Lemma jobs_receive_result c0 id m : keeps (frame_jobs c0) (receive_result py_exceptions unpickle id m).
Proof. unfold receive_result, update_call, unregister_call. keeps_tac. Qed.
#[local] Hint Resolve calls_receive_event jobs_receive_event calls_receive_ready jobs_receive_ready calls_receive_nosub jobs_receive_nosub jobs_receive_result : keeps.

Lemma jobs_on_message c0 data : keeps (frame_jobs c0) (on_message py_exceptions unpickle data).
Proof. unfold on_message, recv. keeps_tac. Qed.

(** ** The calls *)

(** The server answered [id] with [v]. *)
Definition answered (R : list pydict) (id : string) (v : pyval) : Prop :=
  ∃ m, m ∈ R ∧ col m "msg" = PStr "result" ∧ col m "id" = PStr id ∧ col m "result" = v ∧
    match dget m "error" with None => True | Some (PDict e) => truthy (col e "error") = false | Some _ => False end.

Definition own_call (c : Client) (t : Thread) (id : string) : Prop :=
  ∃ method params job cb, t.(program) = PCall method params job cb ∧ method_message id method params ∈ c.(sent).

Record thread_ok (c : Client) (R : list pydict) (t : Thread) : Prop := mkThreadOk {
  to_heap : ∀ id, t.(t_call) = Some id → is_Some (c.(heap) !! id);
  to_sent : ∀ id m, t.(t_call) = Some id → m ∈ c.(sent) → is_method m id →
    ∃ method params job cb, t.(program) = PCall method params job cb ∧ m = method_message id method params;
  to_wait : t.(at_) = Waiting → ∃ id o, t.(t_call) = Some id ∧ own_call c t id ∧ c.(heap) !! id = Some o ∧ (id ∈ c.(calls) ∨ o.(returned) = true);
  to_done : ∀ v method params cb, t.(at_) = Finished (Ret v) → t.(program) = PCall method params false cb →
    ∃ id, t.(t_call) = Some id ∧ own_call c t id ∧ answered R id v;
}.

Record calls_ok (c : Client) (T : list Thread) (R : list pydict) : Prop := mkCallsOk {
  co_threads : ∀ i t, T !! i = Some t → thread_ok c R t;
  co_ids : ∀ i j t t' id, T !! i = Some t → T !! j = Some t' → t.(t_call) = Some id → t'.(t_call) = Some id → i = j;
  co_heap : ∀ id o, c.(heap) !! id = Some o → o.(returned) = true → truthy o.(errno) = false → answered R id o.(result);
  co_sent : ∀ m id, m ∈ c.(sent) → is_method m id → is_Some (c.(heap) !! id);
  co_open : ∀ id o, c.(closed) = false → id ∈ c.(calls) → c.(heap) !! id = Some o → o.(returned) = false;
}.

(** The heap and the registered calls change, as far as the threads can see. *)
Definition calls_le (c c' : Client) : Prop :=
  (∀ id o, c.(heap) !! id = Some o → ∃ o', c'.(heap) !! id = Some o' ∧ (id ∈ c.(calls) ∨ o.(returned) = true → id ∈ c'.(calls) ∨ o'.(returned) = true)) ∧
  (∀ m, m ∈ c.(sent) → m ∈ c'.(sent)) ∧ ∀ m id, m ∈ c'.(sent) → is_method m id → m ∈ c.(sent).

Lemma frame_calls_le c c' : frame_calls c c' → calls_le c c'.
Proof. intros (H1 & H2 & _ & H3). split; [|done]. intros id o Ho. exists o. by rewrite H1, H2. Qed.

Lemma answered_mono R R' id v : answered R id v → answered (R ++ R') id v.
Proof. intros (m & Hm & H). exists m. split; [|done]. apply elem_of_app. by left. Qed.

Lemma thread_ok_le c c' R R' t : calls_le c c' → thread_ok c R t → thread_ok c' (R ++ R') t.
Proof.
  intros (Hh & Hs & Hm) [H1 H2 H3 H4]. split.
  - intros id Hid. destruct (H1 id Hid) as [o Ho]. destruct (Hh id o Ho) as (o' & Ho' & _). by exists o'.
  - intros id m Hid Hin Hmeth. eapply H2; [done| |done]. by eapply Hm.
  - intros Hw. destruct (H3 Hw) as (id & o & Hid & (me & p & jb & cb & Hp & Hin) & Ho & Hr). destruct (Hh id o Ho) as (o' & Ho' & Hr').
    exists id, o'. split_and!; [done|exists me, p, jb, cb; auto|done|auto].
  - intros v me p cb Hf Hp. destruct (H4 v me p cb Hf Hp) as (id & Hid & (me' & p' & jb & cb' & Hp' & Hin) & Ha).
    exists id. split_and!; [done|exists me', p', jb, cb'; auto|by apply answered_mono].
Qed.

(** The client changes under the threads. *)
Lemma calls_ok_le c c' T R R' : calls_ok c T R → calls_le c c' →
  (∀ id o, c'.(heap) !! id = Some o → o.(returned) = true → truthy o.(errno) = false → answered (R ++ R') id o.(result)) →
  (∀ id o, c'.(closed) = false → id ∈ c'.(calls) → c'.(heap) !! id = Some o → o.(returned) = false) → calls_ok c' T (R ++ R').
Proof.
  intros [H1 H2 H3 H4 _] Hle Hh Hopen. split; [|done|done| |done].
  - intros i t Ht. eapply thread_ok_le; [exact Hle|eauto].
  - intros m id Hm Hmeth. destruct Hle as (Hheap & _ & Hs). destruct (H4 m id) as [o Ho]; [by eapply Hs|done|]. destruct (Hheap id o Ho) as (o' & Ho' & _). by exists o'.
Qed.

Lemma calls_ok_frame c c' T R : calls_ok c T R → frame_calls c c' → calls_ok c' T R.
Proof.
  intros Hok Hf. rewrite <-(app_nil_r R). apply (calls_ok_le c); [done|by apply frame_calls_le| |]; rewrite ?app_nil_r; destruct Hf as (E1 & E2 & E3 & _); rewrite ?E1, ?E2, ?E3; [apply (co_heap _ _ _ Hok)|apply (co_open _ _ _ Hok)].
Qed.

(** A thread goes on, with the same call. *)
Lemma calls_ok_move c T R i t t' : calls_ok c T R → T !! i = Some t → t'.(t_call) = t.(t_call) → thread_ok c R t' → calls_ok c (<[i := t']> T) R.
Proof.
  intros [H1 H2 H3 H4 H5] Ht Hc Hok. assert (Hi : i < length T) by by eapply lookup_lt_Some.
  assert (Hl : ∀ j u, <[i := t']> T !! j = Some u → j = i ∧ u = t' ∨ j ≠ i ∧ T !! j = Some u).
  { intros j u. destruct (decide (i = j)) as [<-|Hne]; [rewrite list_lookup_insert_eq by done; intros [= <-]; by left|]. rewrite list_lookup_insert_ne by done. by right. }
  split; [|clear Hok|done|done|done].
  - intros j u [[-> ->]|[_ Hu]]%Hl; [done|eauto].
  - intros j k u u' id [[-> ->]|[_ Hu]]%Hl [[-> ->]|[_ Hu']]%Hl; rewrite ?Hc; eauto.
Qed.

(** *** Receiving an answer *)

Lemma receive_result_spec id m c : ∃ f, let r := receive_result py_exceptions unpickle id m c in
  r.2.(heap) = alter f id c.(heap) ∧ r.2.(sent) = c.(sent) ∧ r.2.(closed) = c.(closed) ∧
  match r.1 with
  | Ret _ => r.2.(calls) = c.(calls) ∖ {[id]} ∧ ∀ o, (f o).(returned) = true ∧ (f o).(result) = col m "result" ∧
      (truthy (f o).(errno) = false → match dget m "error" with None => True | Some (PDict e) => truthy (col e "error") = false | Some _ => False end)
  | Raise _ => r.2.(calls) = c.(calls) ∧ ∀ o, (f o).(returned) = o.(returned)
  end.
Proof.
  unfold receive_result, mbind, M_bind, update_call, unregister_call, modify, mret, M_ret, raise, liftC.
  destruct (dget m "error") as [[| | | | |e]|] eqn:E.
  1-5: exists (with_result (col m "result")); cbn; split_and!; try done; done.
  - destruct (py_exceptions && truthy (col e "py_exception")).
    + destruct (unpickle _) as [x|x]; cbn.
      * exists (with_returned ∘ (with_exception x ∘ (with_error e ∘ with_result (col m "result")))). split_and!; try done. by rewrite !alter_alter_eq.
      * exists (with_error e ∘ with_result (col m "result")). split_and!; try done. by rewrite !alter_alter_eq.
    + exists (with_returned ∘ (with_error e ∘ with_result (col m "result"))). cbn. split_and!; try done. by rewrite !alter_alter_eq.
  - exists (with_returned ∘ with_result (col m "result")). cbn. split_and!; try done. by rewrite !alter_alter_eq.
Qed.

Lemma close_job_Ret j c : (close_job j c).1 = Ret tt.
Proof.
  unfold close_job, mbind, M_bind, get_state, new_event, modify, set_event, mret, M_ret. destruct (jobs c !! j) as [e|]; [|done].
  destruct (ready e); cbn; by destruct (is_set _ _).
Qed.

Lemma forM_close_Ret l : ∀ c, (forM l close_job c).1 = Ret tt.
Proof.
  induction l as [|j l IH]; intros c; [done|]. cbn [forM]. unfold mbind, M_bind. pose proof (close_job_Ret j c) as H.
  destruct (close_job j c) as [o c']. cbn in H. subst o. apply IH.
Qed.

Definition aborted (c : Client) : Client := set_heap (map_imap (λ id o, Some (if decide (id ∈ c.(calls)) then abort_call o else o)) c.(heap)) c.

Lemma client_close_spec c : (on_close c).2 = set_closed true (forM (map_to_list c.(jobs)).*1 close_job (aborted c)).2.
Proof.
  unfold on_close, mbind, M_bind, modify, get_state. fold (aborted c). pose proof (forM_close_Ret (map_to_list (aborted c).(jobs)).*1 (aborted c)) as H.
  change (jobs (aborted c)) with (jobs c) in *. destruct (forM _ _ _) as [o c']. cbn in H. by subst o.
Qed.

Lemma aborted_lookup c id o : (aborted c).(heap) !! id = Some o ↔ ∃ o0, c.(heap) !! id = Some o0 ∧ o = if decide (id ∈ c.(calls)) then abort_call o0 else o0.
Proof.
  unfold aborted. cbn. rewrite map_lookup_imap. destruct (heap c !! id) as [o0|]; cbn.
  - split; [intros [= <-]; eauto|by intros (? & [= <-] & ->)].
  - split; [done|by intros (? & ? & _)].
Qed.

Lemma abort_call_returned o : (abort_call o).(returned) = true.
Proof. unfold abort_call. by destruct (returned o) eqn:E. Qed.

Lemma abort_call_errno o : truthy (abort_call o).(errno) = false → o.(returned) = true ∧ abort_call o = o.
Proof. unfold abort_call. by destruct (returned o). Qed.

Lemma calls_ok_close c T R : calls_ok c T R → calls_ok (on_close c).2 T R.
Proof.
  intros Hok. rewrite client_close_spec. assert (Hf : frame_calls (aborted c) (forM (map_to_list (jobs c)).*1 close_job (aborted c)).2).
  { apply keeps_forM; [intros; apply calls_close_job|]. by split_and!. }
  set (c' := (forM _ _ _).2) in *. destruct Hf as (Hh & Hc & _ & Hs & Hm). rewrite <-(app_nil_r R). apply (calls_ok_le c); [done| | |done].
  - split_and!; cbn; [|intros; by apply Hs|intros m id Hin Hmeth; by apply (Hm m id)]. intros id o Ho. rewrite Hh, Hc.
    destruct (decide (id ∈ calls c)) as [Hin|Hni]; eexists; (split; [apply aborted_lookup; exists o; split; [done|]; first [by rewrite decide_True|by rewrite decide_False]|]).
    + right. apply abort_call_returned.
    + by intros [|]; [|right].
  - cbn. rewrite Hh, app_nil_r. intros id o (o0 & Ho & ->)%aborted_lookup Hr He. destruct (decide (id ∈ calls c)).
    + destruct (abort_call_errno o0 He) as [? ->]. rewrite (proj2 (abort_call_errno o0 He)) in He. by apply (co_heap _ _ _ Hok).
    + by apply (co_heap _ _ _ Hok).
Qed.

Lemma kind_result m : py_eq (col m "msg") (PStr "result") = true → col m "msg" = PStr "result".
Proof. destruct (col m "msg"); try done. cbn. by intros ->%String.eqb_eq. Qed.

Lemma calls_ok_result c T R id m : calls_ok c T R → c.(closed) = false → id ∈ c.(calls) → col m "msg" = PStr "result" → col m "id" = PStr id →
  calls_ok (receive_result py_exceptions unpickle id m c).2 T (R ++ [m]).
Proof.
  intros Hok Hcl Hin Hmsg Hid. destruct (receive_result_spec id m c) as (f & Hh & Hs & Hcl' & Hr). set (r := receive_result _ _ _ _ _) in *.
  apply (calls_ok_le c); [done| | |].
  - split_and!; rewrite ?Hs; [|done|done]. intros id' o Ho. rewrite Hh. destruct (decide (id = id')) as [<-|Hne].
    + exists (f o). rewrite lookup_alter_eq, Ho. split; [done|]. destruct (r.1); [right; apply Hr|left; by destruct Hr as [-> _]].
    + exists o. rewrite lookup_alter_ne by done. split; [done|]. destruct (r.1), Hr as [-> _]; set_solver.
  - rewrite Hh. intros id' o. destruct (decide (id = id')) as [<-|Hne]; [|rewrite lookup_alter_ne by done; intros; by apply answered_mono, (co_heap _ _ _ Hok)].
    rewrite lookup_alter_eq. destruct (heap c !! id) as [o0|] eqn:E; [|done]. intros [= <-] Hret Herr. destruct (r.1).
    + destruct Hr as [_ Hf]. destruct (Hf o0) as (_ & Hres & Hno). exists m. split_and!; [apply elem_of_app; right; left|done|done|done|by apply Hno].
    + destruct Hr as [_ Hf]. rewrite Hf in Hret. by rewrite (co_open _ _ _ Hok id o0 Hcl Hin E) in Hret.
  - rewrite Hh, Hcl'. intros id' o _ Hin' Ho. destruct (decide (id = id')) as [<-|Hne].
    + rewrite lookup_alter_eq in Ho. destruct (heap c !! id) as [o0|] eqn:E; [|done]. injection Ho as <-. destruct (r.1), Hr as [Hc Hf]; [rewrite Hc in Hin'; set_solver|].
      rewrite Hf. by apply (co_open _ _ _ Hok id o0 Hcl Hin E).
    + rewrite lookup_alter_ne in Ho by done. apply (co_open _ _ _ Hok id' o Hcl); [|done]. destruct (r.1), Hr as [Hc _]; rewrite Hc in Hin'; set_solver.
Qed.

Lemma calls_ok_more c T R R' : calls_ok c T R → calls_ok c T (R ++ R').
Proof.
  intros Hok. apply (calls_ok_le c); [done|by apply frame_calls_le| |apply (co_open _ _ _ Hok)]. intros. by apply answered_mono, (co_heap _ _ _ Hok).
Qed.

Lemma frame_calls_refl c : frame_calls c c.
Proof. by split_and!. Qed.

Lemma calls_ok_recv c T R m : calls_ok c T R → c.(closed) = false → calls_ok (recv py_exceptions unpickle m c).2 T (R ++ [m]).
Proof.
  intros Hok Hcl. assert (Hfr : ∀ A (k : M Client cexn A), keeps (frame_calls c) k → calls_ok (k c).2 T (R ++ [m])).
  { intros A k Hk. apply calls_ok_more, (calls_ok_frame c); [done|]. apply Hk, frame_calls_refl. }
  unfold recv. destruct (py_eq _ (PStr "connected")); [apply Hfr; keeps_tac|]. destruct (py_eq _ (PStr "failed")); [apply Hfr; keeps_tac|].
  destruct (py_eq _ (PStr "pong") && _); [apply Hfr; keeps_tac|]. destruct (negb _ && py_eq _ (PStr "result")) eqn:E.
  - apply andb_true_iff in E as [_ E%kind_result]. destruct (col m "id") as [| | |k| |] eqn:Hid; unfold lift, mbind, M_bind, get_state; cbn [str_key]; try by apply calls_ok_more.
    case_decide; [by apply calls_ok_result|apply (Hfr _ (mret tt)); keeps_tac].
  - destruct (List.find _ _); [apply Hfr; keeps_tac|]. destruct (py_eq _ (PStr "ready")); [apply Hfr; keeps_tac|].
    destruct (py_eq _ (PStr "nosub")); apply Hfr; keeps_tac.
Qed.

Definition message_of (data : option pyval) : list pydict := match data with Some (PDict m) => [m] | _ => [] end.

Lemma calls_ok_turn c T R data : calls_ok c T R → c.(closed) = false → calls_ok (recv_turn py_exceptions unpickle data c).2 T (R ++ message_of data).
Proof.
  intros Hok Hcl. assert (H : calls_ok (on_message py_exceptions unpickle data c).2 T (R ++ message_of data)).
  { destruct data as [[| | | | |m]|]; try by apply calls_ok_more. cbn. destruct (dhas m "msg"); [by apply calls_ok_recv|by apply calls_ok_more]. }
  unfold recv_turn, try_except. destruct (on_message _ _ _ c) as [[|] c']; [done|]. by apply calls_ok_close.
Qed.

(** *** Threads *)

Lemma call_begin_spec id method params c : let r := call_begin id method params c in
  r.2.(heap) = <[id := new_call]> c.(heap) ∧ r.2.(calls) = {[id]} ∪ c.(calls) ∧ r.2.(closed) = c.(closed) ∧
  match r.1 with Ret _ => r.2.(sent) = c.(sent) ++ [method_message id method params] | Raise _ => r.2.(sent) = c.(sent) end.
Proof.
  unfold call_begin, register_call, send, mbind, M_bind, modify, get_state, raise. cbn. by destruct (open c).
Qed.

Lemma method_message_is id method params m : m = method_message id method params → is_method m id.
Proof. by intros ->. Qed.

Lemma method_of_message id id' method params : is_method (method_message id method params) id' → id' = id.
Proof. intros [_ H]. cbn in H. by injection H as <-. Qed.

Lemma calls_ok_begin c T R i t id method params job cb : calls_ok c T R → T !! i = Some t → t.(program) = PCall method params job cb → t.(at_) = Calling → c.(heap) !! id = None →
  let '(t', c') := continue (mkThread t.(program) (Some id) t.(t_job) t.(at_)) (λ _ : unit, Waiting) (call_begin id method params c) in
  calls_ok c' (<[i := t']> T) R.
Proof.
  intros Hok Ht Hp Hat Hfresh. pose proof (call_begin_spec id method params c) as (Hh & Hc & Hcl & Hs). destruct (call_begin id method params c) as [o c']. cbn in Hh, Hc, Hcl, Hs.
  assert (Hnew : ∀ m, m ∈ c'.(sent) → is_method m id → o = Ret tt ∧ m = method_message id method params).
  { intros m Hm Hmeth. destruct (decide (m ∈ sent c)) as [Hin|Hni]; [destruct (co_sent _ _ _ Hok m id Hin Hmeth); congruence|].
    destruct o as [[]|]; rewrite Hs in Hm; [|done]. apply elem_of_app in Hm as [|Hm]; [done|]. by apply list_elem_of_singleton in Hm. }
  assert (Hold : ∀ m id', m ∈ c'.(sent) → is_method m id' → id' ≠ id → m ∈ c.(sent)).
  { intros m id' Hm Hmeth Hne. destruct o; rewrite Hs in Hm; [|done]. apply elem_of_app in Hm as [|Hm]; [done|]. apply list_elem_of_singleton in Hm as ->.
    by apply method_of_message in Hmeth. }
  assert (Hincl : ∀ m, m ∈ c.(sent) → m ∈ c'.(sent)) by (intros m Hm; destruct o; rewrite Hs; [apply elem_of_app; by left|done]).
  set (t' := mkThread t.(program) (Some id) t.(t_job) (match o with Ret _ => Waiting | Raise e => Finished (Raise e) end)).
  assert (Hother : ∀ j u id', T !! j = Some u → u.(t_call) = Some id' → id' ≠ id).
  { intros j u id' Hu Hid ->. destruct (to_heap _ _ _ (co_threads _ _ _ Hok j u Hu) id Hid). congruence. }
  assert (Hres : calls_ok c' (<[i := t']> T) R); [|by destruct o as [[]|]].
  assert (Hl : ∀ j u, <[i := t']> T !! j = Some u → j = i ∧ u = t' ∨ j ≠ i ∧ T !! j = Some u).
  { intros j u. assert (i < length T) by by eapply lookup_lt_Some. destruct (decide (i = j)) as [<-|Hne]; [rewrite list_lookup_insert_eq by done; intros [= <-]; by left|]. rewrite list_lookup_insert_ne by done. by right. }
  split.
  - intros j u [[-> ->]|[_ Hu]]%Hl.
    + split; cbn.
      * intros id' [= <-]. rewrite Hh, lookup_insert_eq. done.
      * intros id' m [= <-] Hm Hmeth. destruct (Hnew m Hm Hmeth) as [_ ->]. by exists method, params, job, cb.
      * intros Hw. exists id, new_call. split_and!; [done| |by rewrite Hh, lookup_insert_eq|left; rewrite Hc; set_solver].
        exists method, params, job, cb. split; [done|]. destruct o; [|done]. rewrite Hs. apply elem_of_app. right. left.
      * intros v ? ? ? Hf. by destruct o.
    + pose proof (co_threads _ _ _ Hok j u Hu) as [H1 H2 H3 H4]. pose proof (Hother j u) as Ho. split.
      * intros id' Hid. rewrite Hh, lookup_insert_ne by (intros ->; by eapply Ho). by apply H1.
      * intros id' m Hid Hm Hmeth. eapply H2; [done| |done]. eapply Hold; [done|done|by eapply Ho].
      * intros Hw. destruct (H3 Hw) as (id' & o' & Hid & (me & p & jb & cb' & Hp' & Hin) & Ho' & Hr). exists id', o'. split_and!; [done|exists me, p, jb, cb'; auto| |].
        -- rewrite Hh, lookup_insert_ne; [done|]. intros ->. by eapply Ho.
        -- destruct Hr as [Hr|Hr]; [left; rewrite Hc; set_solver|by right].
      * intros v me p cb' Hf Hp'. destruct (H4 v me p cb' Hf Hp') as (id' & Hid & (me' & p' & jb & cb2 & Hp2 & Hin) & Ha). exists id'. split_and!; [done|exists me', p', jb, cb2; auto|done].
  - intros j k u u' id' [[-> ->]|[_ Hu]]%Hl [[-> ->]|[_ Hu']]%Hl; cbn; [done|intros [= <-] H; by destruct (Hother k u' id Hu' H)|intros H [= <-]; by destruct (Hother j u id Hu H)|].
    by apply (co_ids _ _ _ Hok).
  - intros id' o'. rewrite Hh. destruct (decide (id = id')) as [<-|Hne]; [rewrite lookup_insert_eq; by intros [= <-]|]. rewrite lookup_insert_ne by done. apply (co_heap _ _ _ Hok).
  - intros m id' Hm Hmeth. rewrite Hh. destruct (decide (id = id')) as [<-|Hne]; [by rewrite lookup_insert_eq|]. rewrite lookup_insert_ne by done.
    apply (co_sent _ _ _ Hok m id'); [|done]. by apply (Hold m id').
  - intros id' o'. rewrite Hh, Hc, Hcl. destruct (decide (id = id')) as [<-|Hne]; [rewrite lookup_insert_eq; by intros _ _ [= <-]|]. rewrite lookup_insert_ne by done.
    intros Hcl' Hin. apply (co_open _ _ _ Hok); [done|set_solver].
Qed.

(** A thread goes on with the same call, and does not wait for its answer any more. *)
Lemma thread_ok_goto c R t t' : thread_ok c R t → t'.(program) = t.(program) → t'.(t_call) = t.(t_call) → t'.(at_) ≠ Waiting →
  (∀ v method params cb, t'.(at_) = Finished (Ret v) → t.(program) = PCall method params false cb → ∃ id, t.(t_call) = Some id ∧ own_call c t id ∧ answered R id v) → thread_ok c R t'.
Proof.
  intros [H1 H2 _ _] Hp Hc Hw Hd. split; rewrite ?Hp, ?Hc; [done|done|done|]. intros v me p cb Hf Hp'. destruct (Hd v me p cb Hf Hp') as (id & ? & (a & b & d & e & ? & ?) & ?).
  exists id. split_and!; [done| |done]. exists a, b, d, e. by rewrite Hp.
Qed.

Lemma calls_ok_goto c c' T R i t t' : calls_ok c T R → frame_calls c c' → T !! i = Some t → t'.(program) = t.(program) → t'.(t_call) = t.(t_call) → t'.(at_) ≠ Waiting →
  (∀ v method params cb, t'.(at_) = Finished (Ret v) → t.(program) ≠ PCall method params false cb) → calls_ok c' (<[i := t']> T) R.
Proof.
  intros Hok Hf Ht Hp Hc Hw Hd. pose proof (calls_ok_frame c c' T R Hok Hf) as Hok'. apply (calls_ok_move _ _ _ _ t); [done|done|done|].
  apply (thread_ok_goto _ _ t); [by apply (co_threads _ _ _ Hok' i)|done|done|done|]. intros v me p cb Hfin Hprog. by destruct (Hd v me p cb Hfin).
Qed.

Lemma calls_ok_continue {A} c T R i t (k : A → PC) (m : M Client cexn A) : calls_ok c T R → T !! i = Some t → keeps (frame_calls c) m →
  (∀ a, k a ≠ Waiting ∧ ∀ v, k a ≠ Finished (Ret v)) → calls_ok (continue t k (m c)).2 (<[i := (continue t k (m c)).1]> T) R.
Proof.
  intros Hok Ht Hm Hk. pose proof (Hm c (frame_calls_refl c)) as Hf. unfold continue. destruct (m c) as [[a|e] c']; cbn in *.
  - destruct (Hk a) as [? Hne]. apply (calls_ok_goto c c' _ _ _ t); try done. intros v ? ? ? Hfin. by destruct (Hne v).
  - by apply (calls_ok_goto c c' _ _ _ t).
Qed.

Lemma calls_ok_finish c T R i t (m : M Client cexn pyval) : calls_ok c T R → T !! i = Some t → keeps (frame_calls c) m →
  (∀ method params cb, t.(program) ≠ PCall method params false cb) → calls_ok (finish t (m c)).2 (<[i := (finish t (m c)).1]> T) R.
Proof. intros Hok Ht Hm Hp. apply (calls_ok_goto c _ _ _ _ t); try done. apply Hm, frame_calls_refl. Qed.

Lemma call_end_same o c : (call_end o c).2 = c.
Proof.
  unfold call_end, raise_validation, mbind, M_bind, lift, mret, M_ret, raise. destruct (truthy _); [|done]. destruct (truthy _); [done|]. destruct (_ && _); [|done].
  destruct (py_iter _); [|done]. by destruct (mapO _ _).
Qed.

Lemma call_end_Ret o c v : (call_end o c).1 = Ret v → truthy o.(errno) = false ∧ o.(result) = v.
Proof.
  unfold call_end, raise_validation, mbind, M_bind, lift, mret, M_ret, raise. destruct (truthy (errno o)); [|intros [= <-]; done]. destruct (truthy _); [done|]. destruct (_ && _); [|done].
  destruct (py_iter _); [|done]. by destruct (mapO _ _).
Qed.

Lemma calls_ok_advance uuid c T R i t r : calls_ok c T R → T !! i = Some t → c.(heap) !! uuid = None → advance uuid t c = Some r → calls_ok r.2 (<[i := r.1]> T) R.
Proof.
  intros Hok Ht Hfresh. unfold advance. destruct (at_ t) as [|id e| | | |e|e|] eqn:Hat; [| | | | | | |done].
  - destruct (program t) as [me p [] cb|name|id|] eqn:Hp; intros [= <-].
    + destruct (jobs_watching c); [by apply (calls_ok_goto c c _ _ _ t)|].
      apply (calls_ok_continue (set_watching true c)); [apply (calls_ok_frame c); [done|by split_and!]|done|apply calls_subscribe_begin|done].
    + by apply (calls_ok_goto c c _ _ _ t).
    + apply calls_ok_continue; [done|done|apply calls_subscribe_begin|done].
    + apply calls_ok_finish; [done|done|apply calls_unsubscribe|by rewrite Hp].
    + apply calls_ok_continue; [done|done|apply calls_ping_begin|done].
  - assert (Hend : ∀ id name, keeps (frame_calls c) (subscribe_end id name)) by (intros; unfold subscribe_end; keeps_tac).
    destruct (program t) as [me p [] cb|name|?|] eqn:Hp; [|done| |done|done]; destruct (is_set c e); [|done| |done]; intros [= <-].
    + apply calls_ok_continue; [done|done|apply Hend|done].
    + apply calls_ok_finish; [done|done|apply Hend|by rewrite Hp].
  - destruct (program t) as [me p jb cb|?|?|] eqn:Hp; [|done..]. intros [= <-]. pose proof (calls_ok_begin c T R i t uuid me p jb cb Hok Ht Hp Hat Hfresh) as H. rewrite Hp in H.
    rewrite Hat in H. by destruct (continue _ _ _).
  - destruct (program t) as [me p jb cb|?|?|] eqn:Hp; [|done..]. destruct (t_call t) as [id|] eqn:Hid; [|done]. cbn [mbind option_bind].
    destruct (heap c !! id) as [o|] eqn:Ho; [|done]. cbn [mbind option_bind]. destruct (returned o) eqn:Hr; [|done]. intros [= <-].
    pose proof (call_end_same o c) as Hsame. pose proof (call_end_Ret o c) as Hret. destruct (call_end o c) as [[v|e] c']; cbn in Hsame, Hret; subst c'; [|by apply (calls_ok_goto c c _ _ _ t)].
    destruct jb; [destruct (job_key v); apply (calls_ok_goto c c _ _ _ t); try done; by rewrite ?Hp, ?Hid|]. cbn. apply (calls_ok_move _ _ _ _ t); [done|done|done|].
    pose proof (co_threads _ _ _ Hok i t Ht) as Hth. apply (thread_ok_goto _ _ t); [done..|]. intros v' ? ? ? [= <-] _. destruct (Hret v eq_refl) as [He Hv].
    destruct (to_wait _ _ _ Hth Hat) as (id' & o' & Hid' & Hown & _). assert (id' = id) as -> by congruence. exists id. split_and!; [done|done|].
    rewrite <-Hv. by apply (co_heap _ _ _ Hok).
  - destruct (program t) as [me p [] cb|?|?|] eqn:Hp; [|done..]. destruct (t_job t); [|done]. intros [= <-]. apply calls_ok_continue; [done|done|apply calls_job_new|done].
  - destruct (program t) as [me p [] cb|?|?|] eqn:Hp; [|done..]. destruct (t_job t); [|done]. cbn [mbind option_bind]. destruct (is_set c e); [|done]. intros [= <-].
    apply calls_ok_finish; [done|done|apply calls_job_result|by rewrite Hp].
  - destruct (program t) eqn:Hp; [done..|]. destruct (is_set c e); [|done]. intros [= <-]. apply (calls_ok_goto c c _ _ _ t); try done. by rewrite Hp.
Qed.

Lemma calls_ok_expire c T R i t r : calls_ok c T R → T !! i = Some t → expire t c = Some r → calls_ok r.2 (<[i := r.1]> T) R.
Proof.
  intros Hok Ht. unfold expire. destruct (at_ t) as [| | | | | |e|] eqn:Hat; try done.
  - destruct (t_call t) as [id|] eqn:Hid; [|done]. cbn [mbind option_bind]. intros [= <-]. cbn.
    set (c' := set_calls (calls c ∖ {[id]}) c). set (t' := goto _ t).
    (* the thread stops waiting first, then its call is taken out *)
    assert (Hok' : calls_ok c (<[i := t']> T) R) by (by apply (calls_ok_goto c c _ _ _ t)). destruct Hok' as [H1 H2 H3 H4 H5]. split; [|done|done|done|].
    + intros j u Hu. pose proof (H1 j u Hu) as [G1 G2 G3 G4]. split; [done|done| |done]. intros Hw. destruct (G3 Hw) as (id' & o & Hid' & Hown & Ho & Hr). exists id', o.
      split_and!; [done|done|done|]. destruct Hr as [Hr|Hr]; [|by right]. left. cbn. apply elem_of_difference. split; [done|]. intros ->%elem_of_singleton.
      assert (j = i) as ->. { eapply H2; [exact Hu|apply list_lookup_insert_eq; by eapply lookup_lt_Some|done|done]. }
      rewrite list_lookup_insert_eq in Hu by (by eapply lookup_lt_Some). by injection Hu as <-.
    + intros id' o Hcl Hin. apply H5; [done|]. cbn in Hin. set_solver.
  - destruct (program t) eqn:Hp; try done. intros [= <-]. apply (calls_ok_goto c c _ _ _ t); try done. by rewrite Hp.
Qed.

Lemma lookup_snoc_cases {A} (l : list A) x j u : (l ++ [x]) !! j = Some u → l !! j = Some u ∨ j = length l ∧ u = x.
Proof.
  intros H. apply lookup_app_Some in H as [?|[Hj H]]; [by left|right]. apply list_lookup_singleton_Some in H as [? ->]. split; [lia|done].
Qed.

Lemma calls_ok_new c T R p : calls_ok c T R → calls_ok c (T ++ [mkThread p None None Start]) R.
Proof.
  intros [H1 H2 H3 H4 H5]. split; [| |done|done|done].
  - intros j u [Hu|[_ ->]]%lookup_snoc_cases; [eauto|]. by split.
  - intros j k u u' id [Hu|[_ ->]]%lookup_snoc_cases [Hu'|[_ ->]]%lookup_snoc_cases; try done. eauto.
Qed.

Notation exec := (exec py_exceptions unpickle user_callback).
Notation run := (run py_exceptions unpickle user_callback).
Notation sys_init := (sys_init py_exceptions).

Definition calls_inv (s : Sys) : Prop := calls_ok s.(client) s.(threads) s.(received).

Lemma move_Some s i r s' : move s i r = Some s' → ∃ t c, r = Some (t, c) ∧ s' = mkSys c (<[i := t]> s.(threads)) s.(received) s.(delivered).
Proof. unfold move. destruct r as [[t c]|]; [|done]. intros [= <-]. eauto. Qed.

(** What a label of a thread does. *)
Lemma exec_thread_Some i uuid s s' : exec (LThread i uuid) s = Some s' →
  ∃ t r, s.(threads) !! i = Some t ∧ s.(client).(heap) !! uuid = None ∧ advance uuid t s.(client) = Some r ∧ s' = mkSys r.2 (<[i := r.1]> s.(threads)) s.(received) s.(delivered).
Proof.
  cbn. destruct (threads s !! i) as [t|] eqn:Ht; [|done]. cbn [mbind option_bind]. case_decide as Hd; [done|].
  intros (t' & c' & Ha & ->)%move_Some. exists t, (t', c'). split_and!; [done|by apply eq_None_not_Some|done|done].
Qed.

Lemma exec_timeout_Some i s s' : exec (LTimeout i) s = Some s' →
  ∃ t r, s.(threads) !! i = Some t ∧ expire t s.(client) = Some r ∧ s' = mkSys r.2 (<[i := r.1]> s.(threads)) s.(received) s.(delivered).
Proof.
  cbn. destruct (threads s !! i) as [t|] eqn:Ht; [|done]. cbn [mbind option_bind]. intros (t' & c' & Ha & ->)%move_Some. by exists t, (t', c').
Qed.

Lemma calls_inv_exec l s s' : calls_inv s → exec l s = Some s' → calls_inv s'.
Proof.
  unfold calls_inv. intros Hok. destruct l as [p|i uuid|i|data| |k|].
  - intros [= <-]. by apply calls_ok_new.
  - intros (t & r & Ht & Hf & Ha & ->)%exec_thread_Some. by eapply calls_ok_advance.
  - intros (t & r & Ht & Ha & ->)%exec_timeout_Some. by eapply calls_ok_expire.
  - cbn. destruct (closed (client s)) eqn:Hcl; [done|]. intros [= <-]. by apply calls_ok_turn.
  - cbn. destruct (closed (client s)); [done|]. intros [= <-]. by apply calls_ok_close.
  - cbn. destruct (spawned (client s) !! k) as [[[[] mtype] m]|]; [| |done]; cbn [mbind option_bind].
    + pose proof (calls_jobs_callback (client s) mtype m (set_spawned (delete k (spawned (client s))) (client s))) as Hfr.
      destruct (jobs_callback _ _ _ _) as [o c']. intros [= <-]. eapply calls_ok_frame; [exact Hok|]. apply Hfr. by split_and!.
    + intros [= <-]. eapply calls_ok_frame; [exact Hok|]. by split_and!.
  - intros [= <-]. eapply calls_ok_frame; [exact Hok|]. by split_and!.
Qed.

Lemma calls_inv_init : calls_inv sys_init.
Proof.
  unfold calls_inv, Client.sys_init. cbn [client threads received]. apply (calls_ok_frame client_init); [|apply (calls_send client_init); [discriminate|apply frame_calls_refl]].
  split; try done. intros m id Hm. by apply not_elem_of_nil in Hm.
Qed.

Lemma run_inv (P : Sys → Prop) : (∀ l s s', P s → exec l s = Some s' → P s') → ∀ labels s s', P s → run labels s = Some s' → P s'.
Proof.
  intros Hstep. induction labels as [|l labels IH]; intros s s' Hs; cbn [Client.run]; [by intros [= <-]|].
  destruct (exec l s) as [s1|] eqn:E; [|done]. cbn [mbind option_bind]. apply IH. by eapply Hstep.
Qed.

(** C11. However the threads of a client interleave, whatever the server sends and whenever
    the connection breaks: a plain call that returns a value has sent its method and
    parameters under an id of its own, no other call used that id, and the value is the
    result of a message of the server that answers this id and carries no error. *)
Theorem calls_get_their_own_answers labels s i t method params cb v :
  run labels sys_init = Some s → s.(threads) !! i = Some t → t.(program) = PCall method params false cb → t.(at_) = Finished (Ret v) →
  ∃ id, method_message id method params ∈ s.(client).(sent) ∧ (∀ m, m ∈ s.(client).(sent) → is_method m id → m = method_message id method params) ∧
    (∀ j t', s.(threads) !! j = Some t' → t'.(t_call) = Some id → j = i) ∧
    ∃ m, m ∈ s.(received) ∧ col m "msg" = PStr "result" ∧ col m "id" = PStr id ∧ col m "result" = v ∧
      match dget m "error" with None => True | Some (PDict e) => truthy (col e "error") = false | Some _ => False end.
Proof.
  intros Hrun Ht Hp Hat. pose proof (run_inv calls_inv calls_inv_exec labels _ _ calls_inv_init Hrun) as Hok.
  pose proof (co_threads _ _ _ Hok i t Ht) as Hth. destruct (to_done _ _ _ Hth v method params cb Hat Hp) as (id & Hid & (me & p & jb & cb' & Hp' & Hin) & Ha).
  assert (me = method ∧ p = params) as [-> ->] by (rewrite Hp in Hp'; by injection Hp' as -> ->). exists id. split_and!; [done| | |done].
  - intros m Hm Hmeth. destruct (to_sent _ _ _ Hth id m Hid Hm Hmeth) as (me' & p' & ? & ? & Hp2 & ->). rewrite Hp in Hp2. by injection Hp2 as -> ->.
  - intros j t' Ht' Hid'. by eapply (co_ids _ _ _ Hok).
Qed.

(** ** The jobs *)

Definition jobs_wf (c : Client) : Prop := ∀ j e r, c.(jobs) !! j = Some e → e.(ready) = Some r → r < length c.(events).

(** Entries stay with their events. *)
Definition jobs_le (c c' : Client) : Prop :=
  (∀ j e, c.(jobs) !! j = Some e → ∃ e', c'.(jobs) !! j = Some e' ∧ ∀ r, e.(ready) = Some r → e'.(ready) = Some r) ∧ events_le c c'.

Lemma jobs_le_refl c : jobs_le c c.
Proof. split; [eauto|by apply events_le_refl]. Qed.

Lemma jobs_le_trans c1 c2 c3 : jobs_le c1 c2 → jobs_le c2 c3 → jobs_le c1 c3.
Proof.
  intros [H1 H2] [H3 H4]. split; [|by eapply events_le_trans]. intros j e He. destruct (H1 j e He) as (e2 & He2 & Hr2). destruct (H3 j e2 He2) as (e3 & He3 & Hr3). eauto.
Qed.

Lemma frame_jobs_le c c' : jobs_wf c → frame_jobs c c' → jobs_le c c' ∧ jobs_wf c'.
Proof.
  intros Hw [Hj He]. split; [split; [rewrite Hj; eauto|done]|]. intros j e r. rewrite Hj. intros Ho Hr. destruct He. pose proof (Hw j e r Ho Hr). lia.
Qed.

Lemma put_entry c j e' : jobs_wf c → (∀ e r, c.(jobs) !! j = Some e → e.(ready) = Some r → e'.(ready) = Some r) → (∀ r, e'.(ready) = Some r → r < length c.(events)) →
  jobs_le c (set_jobs (<[j := e']> c.(jobs)) c) ∧ jobs_wf (set_jobs (<[j := e']> c.(jobs)) c).
Proof.
  intros Hw Hkeep Hlt. split; [split; [|by apply events_le_refl]|].
  - intros k e He. cbn. destruct (decide (j = k)) as [<-|Hne]; [exists e'; rewrite lookup_insert_eq; eauto|]. rewrite lookup_insert_ne by done. eauto.
  - intros k e r. cbn. destruct (decide (j = k)) as [<-|Hne]; [rewrite lookup_insert_eq; intros [= <-]; auto|]. rewrite lookup_insert_ne by done. apply Hw.
Qed.

Lemma set_event_le c r : jobs_wf c → jobs_le c (set_events (<[r := true]> c.(events)) c) ∧ jobs_wf (set_events (<[r := true]> c.(events)) c).
Proof. intros Hw. apply frame_jobs_le; [done|]. split; [done|apply events_le_set]. Qed.

(** [__ready] of an entry, made when it is not there *)
Lemma ready_spec (e : Entry) c j : jobs_wf c → (∀ r, e.(ready) = Some r → r < length c.(events)) →
  ∃ r c', (match e.(ready) with Some r => mret r | None => new_event end) c = (Ret r, c') ∧ frame_jobs c c' ∧ r < length c'.(events) ∧ (∀ r0, e.(ready) = Some r0 → r = r0) ∧
    c'.(jobs) !! j = c.(jobs) !! j.
Proof.
  intros Hw Hr. destruct (ready e) as [r|] eqn:E.
  - exists r, c. split_and!; [done|split; [done|by apply events_le_refl]|by apply Hr|by intros ? [= <-]|done].
  - exists (length c.(events)), (set_events (c.(events) ++ [false]) c). split_and!; [done|split; [done|apply events_le_app]|cbn; rewrite length_app; cbn; lia|done|done].
Qed.

Definition settled (c : Client) (j : Z) : Prop := ∃ e r, c.(jobs) !! j = Some e ∧ e.(ready) = Some r ∧ is_set c r = true.

Lemma settled_le c c' j : jobs_le c c' → settled c j → settled c' j.
Proof. intros [H1 H2] (e & r & He & Hr & Hs). destruct (H1 j e He) as (e' & He' & Hr'). exists e', r. split_and!; [done|auto|by apply H2]. Qed.

(** Putting an entry with its event, and setting the event. *)
Lemma settle c j e r : jobs_wf c → r < length c.(events) → (∀ e0 r0, c.(jobs) !! j = Some e0 → e0.(ready) = Some r0 → r = r0) → e.(ready) = Some r →
  let c' := set_events (<[r := true]> c.(events)) (set_jobs (<[j := e]> c.(jobs)) c) in jobs_le c c' ∧ jobs_wf c' ∧ settled c' j.
Proof.
  intros Hw Hr Hkeep He. destruct (put_entry c j e Hw) as [H1 H2]; [intros e0 r0 He0 Hr0; rewrite He; by rewrite (Hkeep e0 r0 He0 Hr0)|intros r0; rewrite He; by intros [= <-]|].
  destruct (set_event_le _ r H2) as [H3 H4]. cbn zeta. split_and!; [by eapply jobs_le_trans|done|]. exists e, r. cbn. rewrite lookup_insert_eq. split_and!; [done|done|].
  by apply (is_set_set (set_jobs (<[j := e]> (jobs c)) c)).
Qed.

Lemma close_job_spec c j : jobs_wf c → let c' := (close_job j c).2 in jobs_le c c' ∧ jobs_wf c' ∧ (is_Some (c.(jobs) !! j) → settled c' j).
Proof.
  intros Hw. unfold close_job, mbind, M_bind, get_state. destruct (jobs c !! j) as [e|] eqn:He; [|cbn; split_and!; [apply jobs_le_refl|done|by intros []]].
  destruct (ready_spec e c j Hw) as (r & c1 & -> & Hf & Hr & Hkeep & Hj); [intros; by eapply Hw|]. destruct (frame_jobs_le c c1 Hw Hf) as [H1 H2].
  assert (Hold : ∀ e0 r0, jobs c1 !! j = Some e0 → ready e0 = Some r0 → r = r0) by (rewrite Hj, He; intros ? ? [= <-]; auto).
  destruct (is_set c1 r) eqn:Hset; cbn.
  - destruct (put_entry c1 j (mkEntry (fields e) (Some r) (callback e)) H2) as [H3 H4]; [intros e0 r0 He0 Hr0; by rewrite (Hold e0 r0 He0 Hr0)|by intros ? [= <-]|].
    split_and!; [by eapply jobs_le_trans|done|]. intros _. eexists _, r. cbn. rewrite lookup_insert_eq. by split_and!.
  - destruct (settle c1 j (mkEntry (close_fields (fields e)) (Some r) (callback e)) r H2 Hr Hold eq_refl) as (H3 & H4 & H5). split_and!; [by eapply jobs_le_trans|done|done].
Qed.

Lemma close_jobs_spec l : ∀ c, jobs_wf c → let c' := (forM l close_job c).2 in jobs_le c c' ∧ jobs_wf c' ∧ ∀ j, j ∈ l → is_Some (c.(jobs) !! j) → settled c' j.
Proof.
  induction l as [|j l IH]; intros c Hw; [split_and!; [apply jobs_le_refl|done|by intros ? ?%not_elem_of_nil]|]. cbn [forM]. unfold mbind, M_bind.
  pose proof (close_job_Ret j c) as Hret. pose proof (close_job_spec c j Hw) as (H1 & H2 & H3). destruct (close_job j c) as [o c1]. cbn in Hret, H1, H2, H3. subst o.
  destruct (IH c1 H2) as (H4 & H5 & H6). split_and!; [by eapply jobs_le_trans|done|]. intros k [->|Hk]%elem_of_cons Hs; [eapply settled_le; [exact H4|by apply H3]|].
  apply H6; [done|]. destruct Hs as [e He]. destruct H1 as [H1 _]. destruct (H1 k e He) as (e' & He' & _). by exists e'.
Qed.

Lemma on_close_jobs c : jobs_wf c → let c' := (on_close c).2 in jobs_le c c' ∧ jobs_wf c' ∧ ∀ j, is_Some (c.(jobs) !! j) → settled c' j.
Proof.
  intros Hw. rewrite client_close_spec. destruct (close_jobs_spec (map_to_list (jobs c)).*1 (aborted c) Hw) as (H1 & H2 & H3). split_and!; [done|done|].
  intros j [e He]. apply (H3 j); [|by exists e]. apply list_elem_of_fmap. exists (j, e). split; [done|]. by apply elem_of_map_to_list.
Qed.

(** An event that says that a job is over. *)
Definition final_event (mtype : string) (m : pydict) (j : Z) : Prop :=
  mtype = "CHANGED" ∧ ∃ d, col m "fields" = PDict d ∧ NoDup (dkeys d) ∧ dget d "id" = Some (PInt j) ∧ final_state (col d "state") = true.

Lemma final_item d d0 : NoDup (dkeys d) → final_state (col d "state") = true → item (PDict (dupdate d0 d)) "state" = Ret (col d "state").
Proof.
  intros Hn Hf. cbn. rewrite dget_dupdate, dget_rev by done. unfold col in *. by destruct (dget d "state").
Qed.

Lemma jobs_callback_spec mtype m c : jobs_wf c → let r := jobs_callback user_callback mtype m c in
  jobs_le c r.2 ∧ jobs_wf r.2 ∧ (r.1 = Ret tt → ∀ j, final_event mtype m j → settled r.2 j).
Proof.
  intros Hw. cbn zeta. unfold jobs_callback, mbind, M_bind, lift, get_state, modify. destruct (item (col m "fields") "id") as [v|] eqn:Hv; [|split_and!; [apply jobs_le_refl|done|done]].
  destruct (job_key v) as [j|] eqn:Hj; [|split_and!; [apply jobs_le_refl|done|done]].
  assert (Hmine : ∀ j', final_event mtype m j' → j' = j ∧ ∃ d, col m "fields" = PDict d ∧ NoDup (dkeys d) ∧ final_state (col d "state") = true).
  { intros j' (_ & d & Hd & Hn & Hid & Hf). rewrite Hd in Hv. cbn in Hv. rewrite Hid in Hv. injection Hv as <-. injection Hj as ->. eauto. }
  set (old := match jobs c !! j with Some e => e | None => no_entry end). set (e := mkEntry (dupdate (fields old) _) (ready old) (callback old)).
  assert (Hold : ∀ e0 r, jobs c !! j = Some e0 → ready e0 = Some r → ready e = Some r) by (intros e0 r He0 Hr; unfold e, old; by rewrite He0).
  assert (Hlt : ∀ r, ready e = Some r → r < length (events c)).
  { intros r. unfold e, old. cbn. destruct (jobs c !! j) eqn:E; [by eapply Hw|done]. }
  destruct (put_entry c j e Hw Hold Hlt) as [H1 H2]. set (c1 := set_jobs (<[j := e]> (jobs c)) c) in *.
  assert (Hstop : ∀ (o : outcome cexn unit), o ≠ Ret tt → let r := (o, c1) in jobs_le c r.2 ∧ jobs_wf r.2 ∧ (r.1 = Ret tt → ∀ j, final_event mtype m j → settled r.2 j)) by (intros o Ho; by split_and!).
  assert (Hrest : let r := job_over mtype j e c1 in jobs_le c r.2 ∧ jobs_wf r.2 ∧ (r.1 = Ret tt → ∀ j, final_event mtype m j → settled r.2 j));
    [|destruct (callback e); [|exact Hrest]; unfold liftC; destruct (user_callback (fields e)) as [[]|]; [exact Hrest|by apply Hstop]].
  cbn zeta. unfold job_over, mbind, M_bind, lift, modify. destruct (String.eqb mtype "CHANGED") eqn:Hch.
  - destruct (item (PDict (fields e)) "state") as [st|] eqn:Hst; [|by apply Hstop]. destruct (final_state st) eqn:Hfin.
    + destruct (ready_spec e c1 j H2 Hlt) as (r & c2 & -> & Hf & Hr & Hkeep & _). destruct (frame_jobs_le c1 c2 H2 Hf) as [H3 H4].
      destruct (settle c2 j (mkEntry (fields e) (Some r) (callback e)) r H4 Hr) as (H5 & H6 & H7); [|done|].
      { destruct Hf as [-> _]. cbn. rewrite lookup_insert_eq. intros ? ? [= <-]. apply Hkeep. }
      cbn. split_and!; [eapply jobs_le_trans; [exact H1|by eapply jobs_le_trans]|done|]. intros _ j' [-> _]%Hmine. exact H7.
    + split_and!; [done|done|]. intros _ j' (_ & d & Hd & Hn & Hf)%Hmine. unfold e in Hst. cbn [fields] in Hst. rewrite Hd, final_item in Hst by done. by injection Hst as <-; rewrite Hf in Hfin.
  - split_and!; [done|done|]. intros _ j' [-> _]. done.
Qed.

Lemma job_new_spec j b c : jobs_wf c → ∃ r c', job_new j b c = (Ret r, c') ∧ jobs_le c c' ∧ jobs_wf c' ∧ ∃ e, c'.(jobs) !! j = Some e ∧ e.(ready) = Some r.
Proof.
  intros Hw. unfold job_new, mbind, M_bind, get_state, modify. set (old := match jobs c !! j with Some e => e | None => no_entry end).
  destruct (ready_spec old c j Hw) as (r & c1 & -> & Hf & Hr & Hkeep & Hj); [intros r; unfold old; destruct (jobs c !! j) eqn:E; [by eapply Hw|done]|].
  destruct (frame_jobs_le c c1 Hw Hf) as [H1 H2]. destruct (put_entry c1 j (mkEntry (fields old) (Some r) b) H2) as [H3 H4].
  { rewrite Hj. intros e0 r0 He0 Hr0. cbn. f_equal. apply Hkeep. unfold old. by rewrite He0. }
  { by intros ? [= <-]. }
  eexists r, _. split_and!; [done|by eapply jobs_le_trans|done|]. eexists. cbn. by rewrite lookup_insert_eq.
Qed.

Lemma job_result_spec j c : (job_result j c).2 = set_jobs (delete j c.(jobs)) c.
Proof.
  assert (Hk : ∀ A (m : M Client cexn A), keeps (λ c', c' = set_jobs (delete j (jobs c)) c) m → (m (set_jobs (delete j (jobs c)) c)).2 = set_jobs (delete j (jobs c)) c) by (intros A m Hm; by apply Hm).
  unfold job_result. unfold mbind at 1, M_bind at 1, get_state. cbn beta iota. unfold mbind at 1, M_bind at 1, modify. cbn beta iota.
  apply Hk. unfold raise_validation. pose proof (@keeps_client_lift). keeps_tac.
Qed.

(** Every job is waited for by one thread. *)
Definition exclusive (T : list Thread) : Prop :=
  ∀ i k t t' j, T !! i = Some t → T !! k = Some t' → t.(t_job) = Some j → t'.(t_job) = Some j → i = k.

Record jobs_ok (c : Client) (T : list Thread) (D : list (string * pydict)) : Prop := mkJobsOk {
  jo_wf : jobs_wf c;
  jo_wait : ∀ i t r, T !! i = Some t → t.(at_) = JobWaiting r →
    ∃ j e method params cb, t.(t_job) = Some j ∧ t.(program) = PCall method params true cb ∧ c.(jobs) !! j = Some e ∧ e.(ready) = Some r;
  jo_final : ∀ mtype m j, (mtype, m) ∈ D → final_event mtype m j → settled c j ∨ ∃ i t o, T !! i = Some t ∧ t.(t_job) = Some j ∧ t.(at_) = Finished o;
}.

Lemma jobs_ok_le c c' T D : jobs_ok c T D → jobs_le c c' → jobs_wf c' → jobs_ok c' T D.
Proof.
  intros [H1 H2 H3] Hle Hw. split; [done| |].
  - intros i t r Ht Hat. destruct (H2 i t r Ht Hat) as (j & e & me & p & cb & ? & ? & He & Hr). destruct Hle as [Hle _]. destruct (Hle j e He) as (e' & He' & Hr').
    exists j, e', me, p, cb. split_and!; auto.
  - intros mtype m j Hin Hf. destruct (H3 mtype m j Hin Hf) as [Hs|Hs]; [left; by eapply settled_le|by right].
Qed.

Lemma jobs_ok_frame c c' T D : jobs_ok c T D → frame_jobs c c' → jobs_ok c' T D.
Proof. intros Hok Hf. destruct (frame_jobs_le c c' (jo_wf _ _ _ Hok) Hf). by eapply jobs_ok_le. Qed.

(** A thread that was not finished goes on. *)
Lemma jobs_ok_move c T D i t t' : jobs_ok c T D → T !! i = Some t → (∀ o, t.(at_) = Finished o → t' = t) →
  (∀ r, t'.(at_) = JobWaiting r → ∃ j e method params cb, t'.(t_job) = Some j ∧ t'.(program) = PCall method params true cb ∧ c.(jobs) !! j = Some e ∧ e.(ready) = Some r) →
  jobs_ok c (<[i := t']> T) D.
Proof.
  intros [H1 H2 H3] Ht Hfin Hw. assert (Hi : i < length T) by by eapply lookup_lt_Some. split; [done| |].
  - intros k u r. destruct (decide (i = k)) as [<-|Hne]; [rewrite list_lookup_insert_eq by done; intros [= <-]; auto|]. rewrite list_lookup_insert_ne by done. apply H2.
  - intros mtype m j Hin Hf. destruct (H3 mtype m j Hin Hf) as [Hs|(k & u & o & Hu & Hj & Ho)]; [by left|right]. exists k. destruct (decide (i = k)) as [<-|Hne].
    + rewrite list_lookup_insert_eq by done. assert (u = t) as -> by congruence. exists t, o. by rewrite (Hfin o Ho).
    + rewrite list_lookup_insert_ne by done. eauto.
Qed.

(** It takes the result of its job, which no other thread waits for. *)
Lemma jobs_ok_result c T D i t j o : jobs_ok c T D → exclusive T → T !! i = Some t → t.(t_job) = Some j → (∀ o, t.(at_) ≠ Finished o) →
  jobs_ok (set_jobs (delete j c.(jobs)) c) (<[i := goto (Finished o) t]> T) D.
Proof.
  intros [H1 H2 H3] Hex Ht Hj Hat. assert (Hi : i < length T) by by eapply lookup_lt_Some. split.
  - intros k e r. cbn. intros [_ He]%lookup_delete_Some. by eapply H1.
  - intros k u r. destruct (decide (i = k)) as [<-|Hne]; [rewrite list_lookup_insert_eq by done; by intros [= <-]|]. rewrite list_lookup_insert_ne by done. intros Hu Hr.
    destruct (H2 k u r Hu Hr) as (j' & e & me & p & cb & Hj' & Hp & He & Hre). exists j', e, me, p, cb. split_and!; [done|done| |done]. cbn.
    rewrite lookup_delete_ne; [done|]. intros ->. apply Hne. by eapply Hex.
  - intros mtype m j' Hin Hf. destruct (decide (j = j')) as [<-|Hne].
    + right. exists i, (goto (Finished o) t), o. by rewrite list_lookup_insert_eq.
    + destruct (H3 mtype m j' Hin Hf) as [(e & r & He & Hr & Hs)|(k & u & o' & Hu & Hj' & Ho)].
      * left. exists e, r. cbn. by rewrite lookup_delete_ne.
      * right. exists k, u, o'. split_and!; [|done|done]. rewrite list_lookup_insert_ne; [done|]. intros ->. assert (u = t) as -> by congruence. by destruct (Hat o').
Qed.

Lemma frame_jobs_refl c : frame_jobs c c.
Proof. split; [done|by apply events_le_refl]. Qed.

Lemma jobs_ok_continue {A} c T D i t t0 (k : A → PC) (m : M Client cexn A) : jobs_ok c T D → T !! i = Some t0 → (∀ o, t0.(at_) ≠ Finished o) → keeps (frame_jobs c) m →
  (∀ a r, k a ≠ JobWaiting r) → jobs_ok (continue t k (m c)).2 (<[i := (continue t k (m c)).1]> T) D.
Proof.
  intros Hok Ht Hat Hm Hk. pose proof (Hm c (frame_jobs_refl c)) as Hf. unfold continue.
  destruct (m c) as [[a|e] c']; cbn in *; (apply (jobs_ok_move _ _ _ _ t0); [by eapply jobs_ok_frame|done|intros o Ho; by destruct (Hat o)|]); [|done].
  intros r Hr. by destruct (Hk a r).
Qed.

Lemma jobs_ok_finish c T D i t (m : M Client cexn pyval) : jobs_ok c T D → T !! i = Some t → (∀ o, t.(at_) ≠ Finished o) → keeps (frame_jobs c) m →
  jobs_ok (finish t (m c)).2 (<[i := (finish t (m c)).1]> T) D.
Proof.
  intros Hok Ht Hat Hm. pose proof (Hm c (frame_jobs_refl c)) as Hf. cbn. apply (jobs_ok_move _ _ _ _ t); [by eapply jobs_ok_frame|done|intros o Ho; by destruct (Hat o)|done].
Qed.

Lemma jobs_ok_goto c T D i t t' : jobs_ok c T D → T !! i = Some t → (∀ o, t.(at_) ≠ Finished o) → (∀ r, t'.(at_) ≠ JobWaiting r) → jobs_ok c (<[i := t']> T) D.
Proof. intros Hok Ht Hat Hne. apply (jobs_ok_move _ _ _ _ t); [done|done|intros o Ho; by destruct (Hat o)|]. intros r Hr. by destruct (Hne r). Qed.

Lemma jobs_ok_advance uuid c T D i t r : jobs_ok c T D → exclusive T → T !! i = Some t → advance uuid t c = Some r → jobs_ok r.2 (<[i := r.1]> T) D.
Proof.
  intros Hok Hex Ht. unfold advance. destruct (at_ t) as [|id e| | | |e|e|] eqn:Hat; [| | | | | | |done].
  all: assert (Hnf : ∀ o, at_ t ≠ Finished o) by by rewrite Hat.
  - destruct (program t) as [me p [] cb|name|id|] eqn:Hp; intros [= <-].
    + destruct (jobs_watching c); [by apply (jobs_ok_goto _ _ _ _ t)|].
      apply (jobs_ok_continue (set_watching true c) _ _ _ _ t); [apply (jobs_ok_frame c); [done|split; [done|by apply events_le_refl]]|done|done|apply jobs_subscribe_begin|done].
    + by apply (jobs_ok_goto _ _ _ _ t).
    + apply (jobs_ok_continue c _ _ _ _ t); [done|done|done|apply jobs_subscribe_begin|done].
    + apply jobs_ok_finish; [done|done|done|apply jobs_unsubscribe].
    + apply (jobs_ok_continue c _ _ _ _ t); [done|done|done|apply jobs_ping_begin|done].
  - assert (Hend : ∀ id name, keeps (frame_jobs c) (subscribe_end id name)) by (intros; unfold subscribe_end; keeps_tac).
    destruct (program t) as [me p [] cb|name|?|] eqn:Hp; [|done| |done|done]; destruct (is_set c e); [|done| |done]; intros [= <-].
    + apply (jobs_ok_continue c _ _ _ _ t); [done|done|done|apply Hend|done].
    + apply jobs_ok_finish; [done|done|done|apply Hend].
  - destruct (program t) as [me p jb cb|?|?|] eqn:Hp; [|done..]. intros [= <-]. apply (jobs_ok_continue c _ _ _ _ t); [done|done|done|apply jobs_call_begin|done].
  - destruct (program t) as [me p jb cb|?|?|] eqn:Hp; [|done..]. destruct (t_call t) as [id|]; [|done]. cbn [mbind option_bind].
    destruct (heap c !! id) as [o|]; [|done]. cbn [mbind option_bind]. destruct (returned o); [|done]. intros [= <-].
    pose proof (call_end_same o c) as Hsame. destruct (call_end o c) as [[v|e] c']; cbn in Hsame; subst c'; [|by apply (jobs_ok_goto _ _ _ _ t)].
    destruct jb; [destruct (job_key v)|]; by apply (jobs_ok_goto _ _ _ _ t).
  - destruct (program t) as [me p [] cb|?|?|] eqn:Hp; [|done..]. destruct (t_job t) as [j|] eqn:Hj; [|done]. intros [= <-].
    destruct (job_new_spec j cb c (jo_wf _ _ _ Hok)) as (r & c' & -> & Hle & Hw & e & He & Hr). cbn. apply (jobs_ok_move _ _ _ _ t); [by eapply jobs_ok_le|done|intros o Ho; by destruct (Hnf o)|].
    intros r0 [= <-]. by exists j, e, me, p, cb.
  - destruct (program t) as [me p [] cb|?|?|] eqn:Hp; [|done..]. destruct (t_job t) as [j|] eqn:Hj; [|done]. cbn [mbind option_bind]. destruct (is_set c e); [|done]. intros [= <-].
    cbn [finish fst snd]. rewrite job_result_spec. by apply jobs_ok_result.
  - destruct (program t) eqn:Hp; [done..|]. destruct (is_set c e); [|done]. intros [= <-]. by apply (jobs_ok_goto _ _ _ _ t).
Qed.

Lemma jobs_ok_expire c T D i t r : jobs_ok c T D → T !! i = Some t → expire t c = Some r → jobs_ok r.2 (<[i := r.1]> T) D.
Proof.
  intros Hok Ht. unfold expire. destruct (at_ t) as [| | | | | |e|] eqn:Hat; try done; assert (Hnf : ∀ o, at_ t ≠ Finished o) by by rewrite Hat.
  - destruct (t_call t) as [id|]; [|done]. cbn [mbind option_bind]. intros [= <-]. apply jobs_ok_finish; [done|done|done|]. unfold unregister_call. keeps_tac.
  - destruct (program t); try done. intros [= <-]. by apply (jobs_ok_goto _ _ _ _ t).
Qed.

(** A thread has a job from the time it creates the object for it. *)
Definition late (pc : PC) : bool := match pc with CreatingJob | JobWaiting _ | Finished _ => true | _ => false end.
Definition thread_late (t : Thread) : Prop := ∀ j, t.(t_job) = Some j → late t.(at_) = true.

Lemma continue_job {A} t (k : A → PC) r : (continue t k r).1.(t_job) = t.(t_job) ∧ (continue t k r).1.(at_) = match r.1 with Ret a => k a | Raise e => Finished (Raise e) end.
Proof. unfold continue. by destruct r as [[]]. Qed.

Lemma advance_job uuid t c r : thread_late t → advance uuid t c = Some r → thread_late r.1 ∧ ∀ j, t.(t_job) = Some j → r.1.(t_job) = Some j.
Proof.
  unfold thread_late. intros Hlate. unfold advance.
  assert (Hearly : late t.(at_) = false → t.(t_job) = None) by (intros He; destruct (t_job t) as [j|]; [by rewrite (Hlate j eq_refl) in He|done]).
  assert (Hsame : ∀ t', t_job t' = t_job t → (late (at_ t) = true → late (at_ t') = true) → (∀ j, t_job t' = Some j → late (at_ t') = true) ∧ ∀ j, t_job t = Some j → t_job t' = Some j).
  { intros t' -> Hl. split; [|done]. intros j Hj. by apply Hl, (Hlate j). }
  destruct (at_ t) as [|id e| | | |e|e|] eqn:Hat; [| | | | | | |done].
  - destruct (program t) as [me p [] cb|name|id|]; intros [= <-]; try (apply Hsame; done); [destruct (jobs_watching c); [by apply Hsame|]| |]; (apply Hsame; [apply continue_job|done]).
  - destruct (program t) as [me p [] cb|name|?|]; [|done| |done|done]; destruct (is_set c e); [|done| |done]; intros [= <-]; apply Hsame; try done; apply continue_job.
  - destruct (program t) as [me p jb cb|?|?|]; [|done..]. intros [= <-]. apply Hsame; [etransitivity; [apply continue_job|done]|done].
  - destruct (program t) as [me p jb cb|?|?|]; [|done..]. destruct (t_call t) as [id|]; [|done]. cbn [mbind option_bind].
    destruct (heap c !! id) as [o|]; [|done]. cbn [mbind option_bind]. destruct (returned o); [|done]. intros [= <-]. destruct (call_end o c) as [[v|e] c']; [|by apply Hsame].
    destruct jb; [|by apply Hsame]. destruct (job_key v) as [j|]; [|by apply Hsame]. cbn. split; [done|]. by rewrite Hearly.
  - destruct (program t) as [me p [] cb|?|?|]; [|done..]. destruct (t_job t) as [j|] eqn:Hj; [|done]. intros [= <-]. destruct (continue_job t JobWaiting (job_new j cb c)) as [E1 E2].
    rewrite E1, E2, Hj. split; [|done]. intros _ _. by destruct (job_new j cb c).1.
  - destruct (program t) as [me p [] cb|?|?|]; [|done..]. destruct (t_job t) as [j|] eqn:Hj; [|done]. cbn [mbind option_bind]. destruct (is_set c e); [|done]. intros [= <-]. cbn. by rewrite Hj.
  - destruct (program t); [done..|]. destruct (is_set c e); [|done]. intros [= <-]. by apply Hsame.
Qed.

Lemma expire_job t c r : expire t c = Some r → thread_late r.1 ∧ r.1.(t_job) = t.(t_job).
Proof.
  unfold expire, thread_late. destruct (at_ t); try done; [destruct (t_call t); [|done]; cbn [mbind option_bind]|destruct (program t); try done]; intros [= <-]; by cbn.
Qed.

(** Threads keep their jobs. *)
Definition claims_le (T T' : list Thread) : Prop := ∀ i t j, T !! i = Some t → t.(t_job) = Some j → ∃ t', T' !! i = Some t' ∧ t'.(t_job) = Some j.

Lemma exclusive_le T T' : claims_le T T' → exclusive T' → exclusive T.
Proof.
  intros Hle Hex i k t t' j Ht Ht' Hj Hj'. destruct (Hle i t j Ht Hj) as (u & Hu & Huj). destruct (Hle k t' j Ht' Hj') as (u' & Hu' & Huj'). by eapply Hex.
Qed.

Lemma claims_le_insert T i t t' : T !! i = Some t → (∀ j, t.(t_job) = Some j → t'.(t_job) = Some j) → claims_le T (<[i := t']> T).
Proof.
  intros Ht Hj k u j Hu Huj. destruct (decide (i = k)) as [<-|Hne]; [|exists u; by rewrite list_lookup_insert_ne].
  exists t'. rewrite list_lookup_insert_eq by (by eapply lookup_lt_Some). split; [done|]. apply Hj. congruence.
Qed.

Definition jobs_inv (s : Sys) : Prop :=
  (∀ i t, s.(threads) !! i = Some t → thread_late t) ∧ (exclusive s.(threads) → jobs_ok s.(client) s.(threads) s.(delivered)).

Lemma jobs_inv_client s c' R' : jobs_inv s → jobs_le s.(client) c' ∧ (jobs_wf s.(client) → jobs_wf c') → jobs_inv (mkSys c' s.(threads) R' s.(delivered)).
Proof. intros [H1 H2] [Hle Hw]. split; [done|]. intros Hex. specialize (H2 Hex). eapply jobs_ok_le; [exact H2|done|]. by apply Hw, (jo_wf _ _ _ H2). Qed.

Lemma jobs_inv_thread s i t r : jobs_inv s → s.(threads) !! i = Some t → thread_late r.1 → (∀ j, t.(t_job) = Some j → r.1.(t_job) = Some j) →
  (exclusive s.(threads) → jobs_ok s.(client) s.(threads) s.(delivered) → jobs_ok r.2 (<[i := r.1]> s.(threads)) s.(delivered)) →
  jobs_inv (mkSys r.2 (<[i := r.1]> s.(threads)) s.(received) s.(delivered)).
Proof.
  intros [H1 H2] Ht Hl Hj Hstep. split; cbn.
  - intros k u Hu. destruct (decide (i = k)) as [<-|Hne]; [rewrite list_lookup_insert_eq in Hu by (by eapply lookup_lt_Some); by injection Hu as <-|].
    rewrite list_lookup_insert_ne in Hu by done. by eapply H1.
  - intros Hex. assert (Hex0 : exclusive (threads s)) by (eapply exclusive_le; [by eapply claims_le_insert|done]). auto.
Qed.

Lemma jobs_inv_exec l s s' : jobs_inv s → exec l s = Some s' → jobs_inv s'.
Proof.
  intros Hinv. destruct l as [p|i uuid|i|data| |k|].
  - intros [= <-]. destruct Hinv as [H1 H2]. split; cbn.
    + intros k u [Hu|[_ ->]]%lookup_snoc_cases; [by eapply H1|done].
    + intros Hex. assert (Hle : claims_le (threads s) (threads s ++ [mkThread p None None Start])) by (intros k u j Hu Huj; exists u; split; [by apply lookup_app_l_Some|done]).
      destruct (H2 (exclusive_le _ _ Hle Hex)) as [G1 G2 G3]. split; [done| |].
      * intros k u r [Hu|[_ ->]]%lookup_snoc_cases; [by eapply G2|done].
      * intros mtype m j Hin Hf. destruct (G3 mtype m j Hin Hf) as [?|(k & u & o & Hu & ?)]; [by left|right]. exists k, u, o. split; [by apply lookup_app_l_Some|done].
  - intros (t & r & Ht & _ & Ha & ->)%exec_thread_Some. destruct (advance_job uuid t (client s) r (proj1 Hinv i t Ht) Ha) as [Hl Hj].
    apply (jobs_inv_thread s i t); try done. intros Hex Hok. by eapply jobs_ok_advance.
  - intros (t & r & Ht & Ha & ->)%exec_timeout_Some. destruct (expire_job t (client s) r Ha) as [Hl Hj].
    apply (jobs_inv_thread s i t); try done; [by rewrite Hj|]. intros Hex Hok. by eapply jobs_ok_expire.
  - cbn. destruct (closed (client s)); [done|]. intros [= <-]. destruct Hinv as [H1 H2]. split; [done|]. cbn. intros Hex. specialize (H2 Hex).
    pose proof (jobs_on_message (client s) data (client s) (frame_jobs_refl _)) as Hf. pose proof (jobs_ok_frame _ _ _ _ H2 Hf) as Hok. unfold recv_turn, try_except.
    destruct (on_message _ _ _ _) as [[|] c']; [done|]. cbn in Hok. destruct (on_close_jobs c' (jo_wf _ _ _ Hok)) as (Hle & Hw & _). by eapply jobs_ok_le.
  - cbn. destruct (closed (client s)); [done|]. intros [= <-]. destruct Hinv as [H1 H2]. split; [done|]. cbn. intros Hex. specialize (H2 Hex).
    destruct (on_close_jobs (client s) (jo_wf _ _ _ H2)) as (Hle & Hw & _). by eapply jobs_ok_le.
  - cbn. destruct (spawned (client s) !! k) as [[[[] mtype] m]|]; [| |done]; cbn [mbind option_bind].
    + set (c0 := set_spawned _ _). assert (Hf0 : frame_jobs (client s) c0) by (split; [done|by apply events_le_refl]).
      pose proof (jobs_callback_spec mtype m c0) as Hcb. destruct (jobs_callback _ _ _ c0) as [o c']. intros [= <-]. destruct Hinv as [H1 H2]. split; [done|]. cbn in *. intros Hex.
      pose proof (jobs_ok_frame _ _ _ _ (H2 Hex) Hf0) as Hok. destruct (Hcb (jo_wf _ _ _ Hok)) as (Hle & Hw & Hdone). destruct (jobs_ok_le _ _ _ _ Hok Hle Hw) as [G1 G2 G3].
      split; [done|done|]. intros mt m' j [Hin|Hin]%elem_of_app Hf; [by eapply G3|]. destruct o as [[]|]; [|by apply not_elem_of_nil in Hin].
      apply list_elem_of_singleton in Hin as [= -> ->]. left. by apply Hdone.
    + intros [= <-]. destruct Hinv as [H1 H2]. split; [done|]. cbn. intros Hex. eapply jobs_ok_frame; [by apply H2|]. split; [done|by apply events_le_refl].
  - intros [= <-]. destruct Hinv as [H1 H2]. split; [done|]. cbn. intros Hex. eapply jobs_ok_frame; [by apply H2|]. split; [done|by apply events_le_refl].
Qed.

Lemma jobs_inv_init : jobs_inv sys_init.
Proof.
  split; [done|]. intros _. unfold Client.sys_init. cbn [client threads delivered]. apply (jobs_ok_frame client_init); [|apply (jobs_send client_init), frame_jobs_refl].
  split; try done. intros mtype m j Hin. by apply not_elem_of_nil in Hin.
Qed.

Lemma job_goes_on uuid t c j r method params cb : t.(program) = PCall method params true cb → t.(t_job) = Some j → t.(at_) = JobWaiting r → is_set c r = true →
  ∃ o c', advance uuid t c = Some (goto (Finished o) t, c').
Proof. intros Hp Hj Hat Hs. unfold advance. rewrite Hat, Hp, Hj. cbn [mbind option_bind]. rewrite Hs. by eexists _, _. Qed.

(** C12. Nobody waits in vain, as long as each piece of code between two waits runs
    undisturbed, [on_close] too: in every interleaving of these pieces in which no two
    threads wait for the same job, a thread that waits for a job whose last event was
    delivered goes on and ends, whether the event or the object for the job came first;
    and when the connection is lost, every thread that waits for an answer or for a job
    at that time goes on.  (A thread that changes the tables while [on_close] is going
    through them, which it does without the lock, makes it raise and leaves the others
    waiting: this is not covered.) *)
Theorem nobody_waits_in_vain labels s : run labels sys_init = Some s → exclusive s.(threads) →
  (∀ i t r j mtype m uuid, s.(threads) !! i = Some t → t.(at_) = JobWaiting r → t.(t_job) = Some j → (mtype, m) ∈ s.(delivered) → final_event mtype m j →
    ∃ o c', advance uuid t s.(client) = Some (goto (Finished o) t, c')) ∧
  ∀ s', exec LEof s = Some s' → ∀ i t uuid, s'.(threads) !! i = Some t →
    (t.(at_) = Waiting → is_Some (advance uuid t s'.(client))) ∧ (∀ r, t.(at_) = JobWaiting r → ∃ o c', advance uuid t s'.(client) = Some (goto (Finished o) t, c')).
Proof.
  intros Hrun Hex. pose proof (run_inv jobs_inv jobs_inv_exec labels _ _ jobs_inv_init Hrun) as [_ Hj]. specialize (Hj Hex).
  pose proof (run_inv calls_inv calls_inv_exec labels _ _ calls_inv_init Hrun) as Hc. split.
  - intros i t r j mtype m uuid Ht Hat Htj Hin Hf. destruct (jo_wait _ _ _ Hj i t r Ht Hat) as (j' & e & me & p & cb & Hj' & Hp & He & Hr). assert (j' = j) as -> by congruence.
    destruct (jo_final _ _ _ Hj mtype m j Hin Hf) as [(e' & r' & He' & Hr' & Hs)|(k & u & o & Hu & Huj & Hat')].
    + assert (e' = e) as -> by congruence. assert (r' = r) as -> by congruence. by eapply job_goes_on.
    + assert (k = i) as -> by (by eapply Hex). congruence.
  - intros s' Hs' i t uuid. cbn in Hs'. destruct (closed (client s)); [done|]. injection Hs' as <-. cbn. intros Ht. split.
    + intros Hat. destruct (to_wait _ _ _ (co_threads _ _ _ Hc i t Ht) Hat) as (id & o & Hid & (me & p & jb & cb & Hp & _) & Ho & Hr). unfold advance. rewrite Hat, Hp, Hid. cbn [mbind option_bind].
      rewrite client_close_spec. assert (Hheap : heap (set_closed true (forM (map_to_list (jobs (client s))).*1 close_job (aborted (client s))).2) = heap (aborted (client s))).
      { apply (keeps_forM (frame_calls (aborted (client s)))); [intros; apply calls_close_job|apply frame_calls_refl]. }
      rewrite Hheap, (proj2 (aborted_lookup (client s) id _) (ex_intro _ o (conj Ho eq_refl))). cbn [mbind option_bind].
      assert (Hret : returned (if decide (id ∈ calls (client s)) then abort_call o else o) = true) by (case_decide; [apply abort_call_returned|by destruct Hr]).
      rewrite Hret. by eexists.
    + intros r Hat. destruct (jo_wait _ _ _ Hj i t r Ht Hat) as (j & e & me & p & cb & Htj & Hp & He & Hr). destruct (on_close_jobs (client s) (jo_wf _ _ _ Hj)) as ([Hle _] & _ & Hset).
      destruct (Hset j) as (e' & r' & He' & Hr' & Hs); [by exists e|]. destruct (Hle j e He) as (e2 & He2 & Hr2). assert (e2 = e') as -> by congruence.
      rewrite (Hr2 r Hr) in Hr'. injection Hr' as <-. by eapply job_goes_on.
Qed.
End facts.
