(* ===== verification/ClientDemo.v ===== *)
(** * The client: witnesses, and the races that are lost

    Schedules of a client without pickled exceptions. *)

From S2P Require Import Prelude PyValue Filter PyNum Rows Client ClientFacts.

Definition no_pickle (v : pyval) : outcome cexn pyval := Raise (Py (OtherError "UnpicklingError")).
Definition silent (job : pydict) : outcome cexn unit := Ret tt.

Definition go (labels : list Label) : option Sys := run false no_pickle silent labels (sys_init false).
Definition state_after (labels : list Label) : Sys := match go labels with Some s => s | None => sys_init false end.
Definition ends (labels : list Label) (i : nat) : option PC := at_ <$> ((state_after labels).(threads) !! i).

Definition message (l : pydict) : Label := LRecv (Some (PDict l)).
Definition result_of (id : string) (v : pyval) : Label := message [("msg", PStr "result"); ("id", PStr id); ("result", v)].
Definition job_event (j : Z) (st : string) (v : pyval) : pydict :=
  [("msg", PStr "changed"); ("collection", PStr "core.get_jobs");
   ("fields", PDict [("id", PInt j); ("state", PStr st); ("result", v); ("error", PNone); ("exception", PNone); ("exc_info", PNone)])].

(** ** Witnesses *)

Definition ping_labels : list Label := [LNew (PCall "core.ping" [] false false); LThread 0 "a"; LThread 0 "b"; result_of "b" (PStr "pong"); LThread 0 "c"].

Lemma calls_get_their_own_answers_witness : ∃ id m, m ∈ (state_after ping_labels).(received) ∧ col m "id" = PStr id ∧ col m "result" = PStr "pong".
Proof.
  destruct (calls_get_their_own_answers false no_pickle silent ping_labels (state_after ping_labels) 0
              (mkThread (PCall "core.ping" [] false false) (Some "b") None (Finished (Ret (PStr "pong")))) "core.ping" [] false (PStr "pong"))
    as (id & _ & _ & _ & m & Hm & _ & Hid & Hv & _).
  - vm_compute. reflexivity.
  - vm_compute. reflexivity.
  - reflexivity.
  - reflexivity.
  - exists id, m. split; [exact Hm|split; [exact Hid|exact Hv]].
Defined.

(** A job is called, and the server answers with its number. *)
Definition job_labels : list Label :=
  [LNew (PCall "pool.scrub" [] true false); LThread 0 "sub"; message [("msg", PStr "ready"); ("subs", PList [PStr "sub"])]; LThread 0 "a"; LThread 0 "b"; result_of "b" (PInt 7)].

(** The job is over before the object for it is made. *)
Definition early_labels : list Label := job_labels ++ [message (job_event 7 "SUCCESS" (PStr "done")); LCallback 0; LThread 0 "c"; LThread 0 "d"].

Lemma early_exclusive : exclusive (state_after early_labels).(threads).
Proof. vm_compute. intros [|[|i]] [|[|k]] t t' j; try done. Qed.

Lemma nobody_waits_in_vain_witness : ∃ o c', advance "e" (mkThread (PCall "pool.scrub" [] true false) (Some "b") (Some 7%Z) (JobWaiting 1)) (state_after early_labels).(client) =
  Some (mkThread (PCall "pool.scrub" [] true false) (Some "b") (Some 7%Z) (Finished o), c').
Proof.
  assert (Hrun : run false no_pickle silent early_labels (sys_init false) = Some (state_after early_labels)) by (vm_compute; reflexivity).
  apply (proj1 (nobody_waits_in_vain false no_pickle silent early_labels (state_after early_labels) Hrun early_exclusive) 0
           (mkThread (PCall "pool.scrub" [] true false) (Some "b") (Some 7%Z) (JobWaiting 1)) 1 7%Z "CHANGED" (job_event 7 "SUCCESS" (PStr "done"))).
  - vm_compute. reflexivity.
  - reflexivity.
  - reflexivity.
  - vm_compute. left.
  - split; [reflexivity|]. eexists. split_and!; [reflexivity| |reflexivity|reflexivity]. apply (bool_decide_unpack _). vm_compute. exact Logic.I.
Defined.

Example early_ends : ends (early_labels ++ [LThread 0 "e"]) 0 = Some (Finished (Ret (PStr "done"))).
Proof. by vm_compute. Qed.

(** ** Races *)

(** Every event gets a thread of its own: when the last event overtakes an earlier one,
    the state of the finished job is set back and its success is reported as an error. *)
Example events_out_of_order :
  match ends (job_labels ++ [LThread 0 "c"; LThread 0 "d"; message (job_event 7 "RUNNING" PNone); message (job_event 7 "SUCCESS" (PStr "done")); LCallback 1; LCallback 0; LThread 0 "e"]) 0 with
  | Some (Finished (Raise (Py (TypeError _)))) => True
  | _ => False
  end.
Proof. by vm_compute. Qed.

(** The connection breaks before an event of the job came: the entry has an error and no
    state, and the caller gets a KeyError. *)
Example closed_without_state : ends (job_labels ++ [LThread 0 "c"; LThread 0 "d"; LEof; LThread 0 "e"]) 0 = Some (Finished (Raise (Py (KeyError "state")))).
Proof. by vm_compute. Qed.

(** The connection breaks between the answer and the object for the job: nobody will set
    its event. *)
Example closed_before_object :
  ends (job_labels ++ [LThread 0 "c"; LEof; LThread 0 "d"]) 0 = Some (JobWaiting 1) ∧
  go (job_labels ++ [LThread 0 "c"; LEof; LThread 0 "d"; LThread 0 "e"]) = None ∧ go (job_labels ++ [LThread 0 "c"; LEof; LThread 0 "d"; LTimeout 0]) = None.
Proof. by vm_compute. Qed.

(** A subscription that waits when the connection breaks waits for ever. *)
Example subscription_stuck :
  ends [LNew (PSubscribe "alert.list"); LThread 0 "a"; LEof] 0 = Some (Subscribing "a" 0) ∧
  go [LNew (PSubscribe "alert.list"); LThread 0 "a"; LEof; LThread 0 "b"] = None ∧ go [LNew (PSubscribe "alert.list"); LThread 0 "a"; LEof; LTimeout 0] = None.
Proof. by vm_compute. Qed.

(** Two threads wait for the same job, as the server may give one job to two calls: the
    second to look finds the entry gone. *)
Example same_job_twice :
  let labels := job_labels ++ [LNew (PCall "pool.scrub" [] true false); LThread 1 "c"; LThread 1 "d"; result_of "d" (PInt 7); LThread 0 "e"; LThread 1 "e"; LThread 0 "e"; LThread 1 "e";
    message (job_event 7 "SUCCESS" (PStr "done")); LCallback 0; LThread 0 "e"; LThread 1 "e"] in
  ends labels 0 = Some (Finished (Ret (PStr "done"))) ∧ ends labels 1 = Some (Finished (Raise (ClientException (PStr "No job event was received.") PNone PNone PNone))).
Proof. by vm_compute. Qed.

(** The client counts as watching jobs though its subscription was refused. *)
Example watching_refused :
  let labels := [LNew (PCall "pool.scrub" [] true false); LThread 0 "sub"; message [("msg", PStr "nosub"); ("id", PStr "sub"); ("error", PDict [("error", PStr "Not authenticated")])]; LThread 0 "a"] in
  ends labels 0 = Some (Finished (Raise (Py (ValueError "Not authenticated")))) ∧ (state_after labels).(client).(jobs_watching) = true.
Proof. by vm_compute. Qed.

(** The loop of [on_close] over the jobs as Python runs it: the iterator raises when the
    dict has another size than at the start; [others] is what other threads do between
    two turns. *)
Fixpoint close_jobs_among (n : nat) (js : list Z) (others : list (M Client cexn unit)) : M Client cexn unit :=
  match js with
  | [] => mret tt
  | j :: js =>
      c ← get_state;
      if decide (size c.(jobs) = n) then close_job j;; default (mret tt) (head others);; close_jobs_among n js (tail others)
      else raise (Py (RuntimeError "dictionary changed size during iteration"))
  end.

(** Two threads wait for the jobs 7 and 8 when the connection breaks: the first one wakes
    up at once and takes its entry out of the dict, the loop raises and the second one is
    never woken.  Without the first one both are. *)
Definition two_jobs : Client := ((job_new 7 false;; job_new 8 false) client_init).2.

Example close_disturbed :
  let woken := job_result 7;; mret tt in
  let '(o, c) := close_jobs_among 2 [7%Z; 8%Z] [try_except woken (λ _, mret tt)] two_jobs in
  let '(o', c') := close_jobs_among 2 [7%Z; 8%Z] [] two_jobs in
  o = Raise (Py (RuntimeError "dictionary changed size during iteration")) ∧ is_set c 1 = false ∧
  o' = Ret tt ∧ is_set c' 1 = true.
Proof. by vm_compute. Qed.
