(* ===== verification/Websocket.v ===== *)
(** * The websocket server: main.py, utils/service/call.py, utils/lock.py, event.py

    A connection's handshake, the guard in front of the methods, subscriptions and
    events, hooks, and the semaphore that limits the calls of a connection.  The
    session manager of [Auth] runs as a callback on every message.  The methods are
    an argument; calling one is recorded.  Frames come with the monotonic time at
    which they are handled. *)

From S2P Require Import Prelude PyValue Job Filter Auth Datastore.

Definition EACCES : Z := 13.
Definition EBADMSG : Z := 89.
Definition ENOMETHOD : Z := 201.
Definition EAGAIN : Z := 35.
Definition ETOOMANYREFS : Z := 59.

(** A method of a service: whether it is marked [no_auth_required]. *)
Record Method : Type := mkMethod { no_auth_required : bool }.

Section websocket.
(** [get_service] with the attributes of the service, the event sources, the names
    of error numbers, [_tb_error], the pickled text of an exception or what
    [pickle.dumps] raises for it, and what the hook [core.on_connect] learns of the
    host. *)
Context (get_service : string → option (list (string * Method))).
Context (get_event_source : string → bool).
Context (errname : Z → string) (tb_error : exn → pyval) (pickled : exn → outcome exn string).
Context (is_linux : bool) (sockstat : string) (utcnow : Z).

(** [_method_lookup] *)
Definition method_lookup (name : string) : outcome exn Method :=
  match PyStr.rsplit1 dot name with
  | None => Raise (CallError "Invalid method name" EBADMSG PNone)
  | Some (service, method_name) =>
      match get_service service with
      | None => Raise (CallError ("Service " +:+ repr_str service +:+ " not found") ENOMETHOD PNone)
      | Some methods =>
          match dget methods method_name with
          | Some m => Ret m
          | None => Raise (CallError ("Method " +:+ repr_str method_name +:+ " not found in " +:+ repr_str service)
                             ENOMETHOD PNone)
          end
      end
  end.

(** ** State *)

(** [Application]: [callbacks] is how often the session manager has registered its
    callbacks, and an event source is a number. *)
Record Conn : Type := mkConn {
  app : App;
  handshake : bool;
  py_exceptions : bool;
  callbacks : nat;
  event_sources : list (pyval * (string * nat));
  subscribed : list (pyval * string);
}.

(** The connections, what was sent to them, the calls started for them, and the
    event sources that were started and cancelled. *)
Record WS : Type := mkWS {
  auth : Auth;
  wsclients : gmap string Conn;
  outbox : list (string * pyval);
  dispatched : list (string * string);
  started : list nat;
  cancelled : list nat;
}.

Notation MWS := (M WS exn).

Definition with_conns (f : gmap string Conn → gmap string Conn) (s : WS) : WS :=
  mkWS s.(auth) (f s.(wsclients)) s.(outbox) s.(dispatched) s.(started) s.(cancelled).

Definition lift_ws {A} (o : outcome exn A) : MWS A := λ s, (o, s).

(** [self._send] *)
Definition send (sid : string) (data : pydict) : MWS unit :=
  modify (λ s, mkWS s.(auth) s.(wsclients) (s.(outbox) ++ [(sid, PDict data)]) s.(dispatched) s.(started) s.(cancelled)).

(** The object [self]. *)
Definition self (sid : string) : MWS Conn := λ s,
  (match s.(wsclients) !! sid with Some c => Ret c | None => Raise (KeyError sid) end, s).

Definition update_self (sid : string) (f : Conn → Conn) : MWS unit := modify (with_conns (alter f sid)).

Definition is_authenticated (sid : string) : MWS bool :=
  gets (λ s, bool_decide (sid ∈ s.(auth).(authenticated))).

Definition set_callbacks (n : nat) (c : Conn) : Conn :=
  mkConn c.(app) c.(handshake) c.(py_exceptions) n c.(event_sources) c.(subscribed).

(** A method of the session manager run for [app]: logging in registers its
    callbacks. *)
Definition run_auth {A} (app : App) (m : M Auth exn A) : MWS A := λ s,
  let '(r, a) := m s.(auth) in
  let logged_in := negb (bool_decide (app.(session_id) ∈ s.(auth).(authenticated))) &&
                   bool_decide (app.(session_id) ∈ a.(authenticated)) in
  (r, mkWS a (if logged_in then alter (λ c, set_callbacks (S c.(callbacks)) c) app.(session_id) s.(wsclients)
              else s.(wsclients))
        s.(outbox) s.(dispatched) s.(started) s.(cancelled)).

(** [for method in self.__callbacks[...]: try: method(...) except: log] *)
Fixpoint run_callbacks (n : nat) (app : App) (m : M Auth exn unit) : MWS unit :=
  match n with
  | 0 => mret tt
  | S n => try_except (run_auth app m) (λ _, mret tt);; run_callbacks n app m
  end.

(** ** Errors *)

(** [error_extra]: the pickled exception, for a client that asked for it. *)
Definition error_extra (c : Conn) (exc_info : option exn) : outcome exn pydict :=
  match exc_info with
  | Some e => if c.(py_exceptions) then p ← pickled e; Ret [("py_exception", PStr p)] else Ret []
  | None => Ret []
  end.

(** [exc_info] is the exception being handled, if any. *)
Definition send_error (sid : string) (message : pyval) (errno : Z) (reason : string)
    (exc_info : option exn) (etype extra : pyval) : MWS unit :=
  c ← self sid;
  more ← lift_ws (error_extra c exc_info);
  id ← lift_ws (item message "id");
  send sid [("msg", PStr "result"); ("id", id);
            ("error", PDict ([("error", PInt errno); ("type", etype); ("reason", PStr reason);
                              ("trace", from_option tb_error PNone exc_info); ("extra", extra)] ++ more))].

(** ** Subscriptions *)

(** Dicts keyed by values. *)
Section vdict.
Context {A : Type}.

Fixpoint vfind (d : list (pyval * A)) (k : pyval) : option A :=
  match d with
  | [] => None
  | (k', v) :: d => if py_eq k' k then Some v else vfind d k
  end.

Fixpoint vput (d : list (pyval * A)) (k : pyval) (v : A) : list (pyval * A) :=
  match d with
  | [] => [(k, v)]
  | (k', v') :: d => if py_eq k' k then (k', v) :: d else (k', v') :: vput d k v
  end.

Fixpoint vpop (d : list (pyval * A)) (k : pyval) : list (pyval * A) :=
  match d with
  | [] => []
  | (k', v') :: d => if py_eq k' k then d else (k', v') :: vpop d k
  end.
End vdict.

Definition set_sources (l : list (pyval * (string * nat))) (c : Conn) : Conn :=
  mkConn c.(app) c.(handshake) c.(py_exceptions) c.(callbacks) l c.(subscribed).
Definition set_subscribed (l : list (pyval * string)) (c : Conn) : Conn :=
  mkConn c.(app) c.(handshake) c.(py_exceptions) c.(callbacks) c.(event_sources) l.

(** [if ':' in name: shortname, arg = name.split(':', 1)]: the short name *)
Definition short_name (name : string) : string := PyStr.before ":" name.

(** The name of a subscription: the code splits and looks it up as a string. *)
Definition name_text (name : pyval) : outcome exn string :=
  match name with
  | PStr s => Ret s
  | _ => colon ← py_in (PStr ":") name;
         if colon : bool then Raise (AttributeError "object has no attribute 'split'")
         else Raise (TypeError "unhashable type")
  end.

Definition require_hashable (v : pyval) : outcome exn unit :=
  if hashable v then Ret tt else Raise (TypeError "unhashable type").

(** [event_source(...)] and the thread that runs it. *)
Definition start_source : MWS nat := λ s,
  let es := length s.(started) in
  (Ret es, mkWS s.(auth) s.(wsclients) s.(outbox) s.(dispatched) (s.(started) ++ [es]) s.(cancelled)).

Definition cancel_source (es : nat) : MWS unit :=
  modify (λ s, mkWS s.(auth) s.(wsclients) s.(outbox) s.(dispatched) s.(started) (s.(cancelled) ++ [es])).

Definition ready (sid : string) (ident : pyval) : MWS unit :=
  send sid [("msg", PStr "ready"); ("subs", PList [ident])].

Definition subscribe (sid : string) (ident : pyval) (name_ : pyval) : MWS unit :=
  name ← lift_ws (name_text name_);
  c ← self sid;
  if get_event_source (short_name name) then
    if existsb (λ kv, String.eqb kv.2.1 name) c.(event_sources) then
      send sid [("msg", PStr "nosub"); ("id", ident); ("error", PDict [("error", PStr "Already subscribed")])]
    else
      lift_ws (require_hashable ident);;
      es ← start_source;
      update_self sid (set_sources (vput c.(event_sources) ident (name, es)));;
      ready sid ident
  else
    lift_ws (require_hashable ident);;
    update_self sid (set_subscribed (vput c.(subscribed) ident name));;
    ready sid ident.

Definition unsubscribe (sid : string) (ident : pyval) : MWS unit :=
  lift_ws (require_hashable ident);;
  c ← self sid;
  match vfind c.(subscribed) ident with
  | Some _ => update_self sid (set_subscribed (vpop c.(subscribed) ident))
  | None =>
      match vfind c.(event_sources) ident with
      | Some (_, es) =>
          cancel_source es;;
          update_self sid (set_sources (vpop c.(event_sources) ident))
      | None => mret tt
      end
  end.

(** ** Events *)

(** The message of an event: the arguments it does not know go to [extra]. *)
Definition event_message (name event_type : string) (kwargs : pydict) : pydict :=
  let take (b : bool) (k : string) (ek : pydict * pydict) :=
    if b then match dget ek.2 k with
              | Some v => (dset ek.1 k v, ddel ek.2 k)
              | None => ek
              end
    else ek in
  let changed := String.eqb event_type "CHANGED" in
  let ek := ([("msg", PStr (PyStr.lower event_type)); ("collection", PStr name)], kwargs) in
  let ek := take true "id" ek in
  let ek := take (String.eqb event_type "ADDED" || changed) "fields" ek in
  let ek := take changed "cleared" ek in
  match ek.2 with [] => ek.1 | rest => dset ek.1 "extra" (PDict rest) end.

(** Whether the connection asked for the event. *)
Definition wants (name : string) (c : Conn) : bool :=
  existsb (λ kv, String.eqb kv.2 name || String.eqb kv.2 "*") c.(subscribed) ||
  existsb (λ kv, String.eqb kv.2.1 name) c.(event_sources).

(** [Application.send_event] *)
Definition app_send_event (sid name event_type : string) (kwargs : pydict) : MWS unit :=
  c ← self sid;
  if wants name c then send sid (event_message name event_type kwargs) else mret tt.

(** [Middleware.send_event], to every connection. *)
Definition send_event (name event_type : string) (kwargs : pydict) : MWS unit :=
  if bool_decide (event_type ∈ ["ADDED"; "CHANGED"; "REMOVED"]) then
    s ← get_state;
    forM (map_to_list s.(wsclients)).*1 (λ sid,
      try_except (app_send_event sid name event_type kwargs) (λ _, mret tt))
  else raise AssertionError.

(** ** Messages *)

Definition failed (sid : string) : MWS unit := send sid [("msg", PStr "failed"); ("version", PStr "1")].

(** [message.get(k)] *)
Definition message_get (d : pydict) (k : string) : pyval := default PNone (dget d k).

Definition connect (now : Z) (sid : string) (d : pydict) : MWS unit :=
  if negb (py_eq (message_get d "version") (PStr "1")) then failed sid
  else
    let features := message_get d "features" in
    let features := if truthy features then features else PList [] in
    py ← lift_ws (py_in (PStr "PY_EXCEPTIONS") features);
    (if py : bool then update_self sid (λ c, mkConn c.(app) c.(handshake) true c.(callbacks) c.(event_sources) c.(subscribed))
     else mret tt);;
    c ← self sid;
    try_except (run_auth c.(app) (check_permission is_linux sockstat utcnow now c.(app))) (λ _, mret tt);;
    send sid [("msg", PStr "connected"); ("session", PStr sid)];;
    update_self sid (λ c, mkConn c.(app) true c.(py_exceptions) c.(callbacks) c.(event_sources) c.(subscribed)).

(** [create_task(self.call_method(...))] *)
Definition dispatch (sid method : string) : MWS unit :=
  modify (λ s, mkWS s.(auth) s.(wsclients) s.(outbox) (s.(dispatched) ++ [(sid, method)]) s.(started) s.(cancelled)).

(** ** Calls *)

(** What a method returns: a value, a job, or a generator of either kind. *)
Inductive Returned : Type :=
| Value (v : pyval)
| JobResult (id : Z)
| Generator (items : outcome exn (list pyval)).

Definition returned (r : Returned) : outcome exn pyval :=
  match r with
  | Value v => Ret v
  | JobResult id => Ret (PInt id)
  | Generator items => l ← items; Ret (PList l)
  end.

(** How the block under the semaphore ends: it was full, or the method returned or
    raised. *)
Inductive Called : Type :=
| Refused (hardlimit : Z)
| Completed (r : outcome exn Returned).

Definition verror_tuple (e : ValidationError) : pyval := PList [PStr e.(attribute); PStr e.(errmsg); PInt e.(errno)].

(** The handlers of [call_method], the logging apart; a cancelled task ends. *)
Definition call_error (sid : string) (message : pyval) (e : exn) : MWS unit :=
  match e with
  | CancelledError => raise e
  | ValidationErrorExn v =>
      send_error sid message v.(errno) (exn_str errname e) (Some e) (PStr "VALIDATION") (PList [verror_tuple v])
  | ValidationErrors es =>
      send_error sid message EAGAIN (exn_str errname e) (Some e) (PStr "VALIDATION") (PList (verror_tuple <$> es))
  | CallError _ errno extra => send_error sid message errno (exn_str errname e) (Some e) PNone extra
  | SchemaError _ _ => send_error sid message EINVAL (exn_str errname e) (Some e) PNone PNone
  | _ =>
      match adapt_exception e with
      | Some (CallError _ errno extra as a) => send_error sid message errno (exn_str errname a) (Some e) PNone extra
      | _ => send_error sid message EINVAL (exn_str errname e) (Some e) PNone PNone
      end
  end.

Definition call_method (sid : string) (message : pyval) (r : Called) : MWS unit :=
  match r with
  | Refused hardlimit =>
      send_error sid message ETOOMANYREFS
        ("Maximum number of concurrent calls (" +:+ pretty hardlimit +:+ ") has exceeded.") None PNone PNone
  | Completed r =>
      try_except
        (x ← lift_ws r;
         result ← lift_ws (returned x);
         id ← lift_ws (item message "id");
         send sid [("id", id); ("msg", PStr "result"); ("result", result)])
        (call_error sid message)
  end.

(** ** Dispatch *)

(** [message['method']]: anything but a string is no container of ['.'], or has no
    [rsplit]. *)
Definition method_name (v : pyval) : outcome exn string :=
  match v with
  | PStr s => Ret s
  | _ => has_dot ← py_in (PStr ".") v;
         if has_dot : bool then Raise (AttributeError "object has no attribute 'rsplit'")
         else Raise (CallError "Invalid method name" EBADMSG PNone)
  end.

Definition on_method (sid : string) (message : pyval) (d : pydict) : MWS unit :=
  match dget d "method" with
  | None => send_error sid message EINVAL "Message is malformed: 'method' is absent." None PNone PNone
  | Some method =>
      match name ← method_name method; m ← method_lookup name; Ret (name, m) with
      | Raise (CallError msg errno extra as e) =>
          send_error sid message errno (exn_str errname e) (Some e) PNone extra
      | Raise e => raise e
      | Ret (name, m) =>
          ok ← is_authenticated sid;
          if negb ok && negb m.(no_auth_required) then
            send_error sid message EACCES "Not authenticated" None PNone PNone
          else dispatch sid name
      end
  end.

Definition on_message (now : Z) (sid : string) (message : pyval) : MWS unit :=
  c ← self sid;
  run_callbacks c.(callbacks) c.(app) (app_on_message now c.(app));;
  msg ← lift_ws (item message "msg");
  match message with
  | PDict d =>
      if py_eq msg (PStr "connect") then connect now sid d
      else
        c ← self sid;
        if negb c.(handshake) then failed sid
        else if py_eq msg (PStr "method") then on_method sid message d
        else if py_eq msg (PStr "ping") then
          send sid (("msg", PStr "pong") :: match dget d "id" with Some id => [("id", id)] | None => [] end)
        else
          ok ← is_authenticated sid;
          if negb ok then send_error sid message EACCES "Not authenticated" None PNone PNone
          else if py_eq msg (PStr "sub") then
            id ← lift_ws (item message "id"); name ← lift_ws (item message "name"); subscribe sid id name
          else if py_eq msg (PStr "unsub") then
            id ← lift_ws (item message "id"); unsubscribe sid id
          else mret tt
  | _ => mret tt
  end.

(** ** Connections *)

Definition on_open (a : App) : MWS unit :=
  modify (with_conns <[a.(session_id) := mkConn a false false 0 [] []]>).

Definition on_close (sid : string) : MWS unit :=
  c ← self sid;
  run_callbacks c.(callbacks) c.(app) (app_on_close c.(app));;
  forM c.(event_sources) (λ kv, cancel_source kv.2.2);;
  modify (with_conns (delete sid)).

(** What the socket delivers: an error, a frame that is not text, or a text with
    its length and what [json.loads] makes of it. *)
Inductive Frame : Type :=
| FrameError
| FrameOther
| FrameText (length : Z) (parsed : outcome exn pyval).

Definition MAX_ANONYMOUS : Z := 8192.

(** One turn of the loop of [ws_handler]: whether it goes on. *)
Definition handle_frame (now : Z) (sid : string) (f : Frame) : MWS bool :=
  match f with
  | FrameError | FrameOther => mret false
  | FrameText length parsed =>
      ok ← is_authenticated sid;
      if negb ok && Z.ltb MAX_ANONYMOUS length then mret false
      else match parsed with
           | Raise _ => mret false
           | Ret message => try_except (on_message now sid message;; mret true) (λ _, mret false)
           end
  end.

Fixpoint ws_loop (sid : string) (frames : list (Z * Frame)) : MWS unit :=
  match frames with
  | [] => mret tt
  | (now, f) :: frames => go_on ← handle_frame now sid f; if go_on : bool then ws_loop sid frames else mret tt
  end.

Definition ws_handler (a : App) (frames : list (Z * Frame)) : MWS unit :=
  on_open a;; try_finally (ws_loop a.(session_id) frames) (on_close a.(session_id)).
End websocket.

Arguments FrameError. Arguments FrameOther. Arguments FrameText.

(** ** SoftHardSemaphore

    The calls of a connection that are running, and those that wait for the soft
    semaphore.  A call that is cancelled while it waits leaves [__aenter__] by the
    exception, so [__aexit__] does not run. *)

Module Semaphore.

Record State : Type := mkSem {
  value : nat;      (** of [asyncio.Semaphore] *)
  counter : nat;
  inside : nat;
  waiting : nat;
}.

Section semaphore.
Context (softlimit hardlimit : nat).

Definition init : State := mkSem softlimit 0 0 0.

(** [__aenter__] up to its await: [None] when it raises [SoftHardSemaphoreLimit]. *)
Definition aenter (s : State) : option State :=
  if hardlimit <=? s.(counter) then None
  else match s.(value) with
       | S v => Some (mkSem v (S s.(counter)) (S s.(inside)) s.(waiting))
       | 0 => Some (mkSem 0 (S s.(counter)) s.(inside) (S s.(waiting)))
       end.

(** [acquire] returns to a waiting call. *)
Definition wake (s : State) : option State :=
  match s.(value), s.(waiting) with
  | S v, S w => Some (mkSem v s.(counter) (S s.(inside)) w)
  | _, _ => None
  end.

Definition aexit (s : State) : option State :=
  match s.(inside) with
  | S i => Some (mkSem (S s.(value)) (s.(counter) - 1) i s.(waiting))
  | 0 => None
  end.

Definition cancel (s : State) : option State :=
  match s.(waiting) with
  | S w => Some (mkSem s.(value) s.(counter) s.(inside) w)
  | 0 => None
  end.

Inductive step (s : State) : bool → State → Prop :=
| step_enter s' : aenter s = Some s' → step s false s'
| step_wake s' : wake s = Some s' → step s false s'
| step_exit s' : aexit s = Some s' → step s false s'
| step_cancel s' : cancel s = Some s' → step s true s'.

(** States reached with a number of cancellations. *)
Inductive reached : nat → State → Prop :=
| reached_init : reached 0 init
| reached_step n s b s' : reached n s → step s b s' → reached (if b then S n else n) s'.
End semaphore.
End Semaphore.

(** ** Hooks *)

Module Hooks.

Record Hook : Type := mkHook { method : string; blockable : bool; is_inline : bool; is_sync : bool; is_coroutine : bool }.

(** The registered hooks, how often each name is blocked, and the calls made. *)
Record State : Type := mkHooks {
  hooks : list (string * list Hook);
  blocked : list (string * Z);
  calls : list (string * string);
}.

Notation MH := (M State exn).

Definition hooks_of (s : State) (name : string) : list Hook := default [] (dget s.(hooks) name).
Definition blocked_count (s : State) (name : string) : Z := default 0%Z (dget s.(blocked) name).

Definition register_hook (name : string) (h : Hook) : MH unit :=
  s ← get_state;
  match List.find (λ hook, negb (Bool.eqb hook.(blockable) h.(blockable))) (hooks_of s name) with
  | Some hook =>
      raise (RuntimeError ("Hook " +:+ repr_str name +:+ ": " +:+ repr_str hook.(method) +:+ " has blockable=" +:+
                           py_str (PBool hook.(blockable)) +:+ ", but " +:+ repr_str h.(method) +:+ " has " +:+
                           "blockable=" +:+ py_str (PBool h.(blockable))))
  | None =>
  if h.(is_inline) && h.(is_coroutine) then raise (RuntimeError "You can't register coroutine function as inline hook")
  else if h.(is_inline) && negb h.(is_sync) then raise (RuntimeError "Inline hooks are always called in a sync way")
  else modify (λ s, mkHooks (dset s.(hooks) name (hooks_of s name ++ [h])) s.(blocked) s.(calls))
  end.

(** The checks in front of [block_hooks]. *)
Fixpoint check_blockable (s : State) (names : list string) : outcome exn unit :=
  match names with
  | [] => Ret tt
  | name :: names =>
      match hooks_of s name with
      | [] => Raise (RuntimeError ("Hook " +:+ repr_str name +:+ " does not exist"))
      | h :: _ => if h.(blockable) then check_blockable s names
                  else Raise (RuntimeError ("Hook " +:+ repr_str name +:+ " is not blockable"))
      end
  end.

Definition add_blocked (n : Z) (names : list string) (s : State) : State :=
  mkHooks s.(hooks) (foldl (λ b name, dset b name (default 0%Z (dget b name) + n)%Z) s.(blocked) names) s.(calls).

(** [with middleware.block_hooks( *names): body]: what follows the [yield] runs only
    when the body does not raise. *)
Definition block_hooks {A} (names : list string) (body : MH A) : MH A :=
  s ← get_state;
  (λ s0, (check_blockable s names, s0));;
  modify (add_blocked 1 names);;
  x ← body;
  modify (add_blocked (-1) names);;
  mret x.

(** [call_hook]: every hook of the name, unless it is blocked; exceptions are
    logged. *)
Definition call_hook (name : string) : MH unit :=
  s ← get_state;
  if Z.ltb 0 (blocked_count s name) then mret tt
  else modify (λ s, mkHooks s.(hooks) s.(blocked) (s.(calls) ++ ((λ h, (name, h.(method))) <$> hooks_of s name))).

(** [call_hook_inline]: the hook has run when the loop looks whether it is inline,
    and the exception ends the loop. *)
Fixpoint call_inline (name : string) (hs : list Hook) : MH unit :=
  match hs with
  | [] => mret tt
  | h :: hs =>
      modify (λ s, mkHooks s.(hooks) s.(blocked) (s.(calls) ++ [(name, h.(method))]));;
      if h.(is_inline) then call_inline name hs
      else raise (RuntimeError "Only inline hooks can be called with call_hook_inline")
  end.

Definition call_hook_inline (name : string) : MH unit :=
  s ← get_state;
  if Z.ltb 0 (blocked_count s name) then mret tt else call_inline name (hooks_of s name).
End Hooks.

(** ** Events *)

Module Events.

Record State : Type := mkEvents { events : list (string * string); events_private : list string }.

Definition register (name description : string) (private : bool) (s : State) : outcome exn State :=
  if dhas s.(events) name then Raise (ValueError ("Event " +:+ repr_str name +:+ " already registered."))
  else Ret (mkEvents (dset s.(events) name description)
              (if private then s.(events_private) ++ [name] else s.(events_private))).

Definition contains (s : State) (name : string) : bool := dhas s.(events) name.

Definition iter (s : State) : list (string * pyval) :=
  (λ kv, (kv.1, PDict [("description", PStr kv.2); ("private", PBool (bool_decide (kv.1 ∈ s.(events_private))));
                       ("wildcard_subscription", PBool true)])) <$> s.(events).
End Events.
