(* ===== verification/WebsocketFacts.v ===== *)
(** * Theorems on the websocket server

    A method is started only after the handshake, and, unless it needs no
    authentication, only for a connection whose session is valid at that moment; a
    closed connection leaves nothing behind; the calls of a connection are bounded;
    and where cleanup can be missed: cancelled calls, blocked hooks, subscriptions
    that share an identifier, and logins that finish late. *)

From S2P Require Import Prelude PyValue Job Filter Auth AuthFacts Datastore Websocket.

(** ** The session manager's callbacks *)

(** The connection has a session, and when it was opened with a token the token was
    last used less than its [ttl] ago. *)
Definition valid_session (now : Z) (sid : string) (a : Auth) : Prop :=
  ∃ s, a.(sessions) !! sid = Some s ∧
    ∀ r, s.(credentials) = TokenCredentials r →
      ∃ t, a.(heap) !! r = Some t ∧ (now - t.(last_used_at) < t.(ttl))%Z.

Lemma credentials_valid now c a :
  credentials_is_valid now c a = true →
  ∀ r, c = TokenCredentials r → ∃ t, a.(heap) !! r = Some t ∧ (now - t.(last_used_at) < t.(ttl))%Z.
Proof.
  intros Hv r ->. cbn in Hv. unfold ref_valid in Hv. destruct (a.(heap) !! r) as [t|]; [|done].
  exists t. split; [done|]. apply Z.ltb_lt in Hv. lia.
Qed.

(** The callback authenticates nobody, and afterwards the connection is
    authenticated only if its session was valid. *)
Lemma app_on_message_spec now app a :
  Inv a → ∃ a', app_on_message now app a = (Ret tt, a') ∧ Inv a' ∧ a'.(authenticated) ⊆ a.(authenticated) ∧
    (app.(session_id) ∈ a'.(authenticated) → valid_session now app.(session_id) a).
Proof.
  intros Ha. pose proof (app_on_message_total now app a Ha) as Ht.
  unfold app_on_message, get_state, modify in *. unfold mbind at 1, M_bind at 1 in Ht. unfold mbind at 1, M_bind at 1.
  cbn in *. destruct (a.(sessions) !! app.(session_id)) as [s|] eqn:Hs.
  - destruct (credentials_is_valid now s.(credentials) a) eqn:Hv.
    + eexists. split_and!; [done|done|by destruct s.(credentials)|]. intros _. exists s.
      split; [done|]. by apply credentials_valid.
    + pose proof (logout_session_total app a Ha) as Hl.
      assert ((logout_session app a).2.(authenticated) ⊆ a.(authenticated)) as Hsub.
      { unfold logout_session, get_state, modify, mbind, M_bind, raise. cbn. rewrite Hs. cbn.
        rewrite credentials_logout_id. destruct (is_internal_session s) as [[]|]; cbn; set_solver. }
      destruct (logout_session app a) as [[[]|e] a'] eqn:Hlog; [|done]. exists a'. split_and!; [done|apply Hl|done|].
      intros Hin. by destruct (proj2 (proj2 Hl)).
  - eexists. split_and!; [done|done|cbn; set_solver|]. cbn. set_solver.
Qed.

(** What the callbacks leave alone. *)
Definition same_ws (s s' : WS) : Prop :=
  s'.(wsclients) = s.(wsclients) ∧ s'.(outbox) = s.(outbox) ∧ s'.(dispatched) = s.(dispatched) ∧
  s'.(started) = s.(started) ∧ s'.(cancelled) = s.(cancelled).

Lemma run_auth_shrinks {A} app (m : M Auth exn A) r a s :
  m s.(auth) = (r, a) → a.(authenticated) ⊆ s.(auth).(authenticated) →
  run_auth app m s = (r, mkWS a s.(wsclients) s.(outbox) s.(dispatched) s.(started) s.(cancelled)).
Proof.
  intros Hm Hsub. unfold run_auth. rewrite Hm. repeat case_bool_decide; try done. set_solver.
Qed.

Lemma run_callbacks_spec n now app s :
  Inv s.(auth) → ∃ s', run_callbacks n app (app_on_message now app) s = (Ret tt, s') ∧ same_ws s s' ∧
    Inv s'.(auth) ∧ s'.(auth).(authenticated) ⊆ s.(auth).(authenticated) ∧
    (0 < n → app.(session_id) ∈ s'.(auth).(authenticated) → valid_session now app.(session_id) s.(auth)).
Proof.
  revert s. induction n as [|n IH]; intros s Ha; cbn [run_callbacks].
  { exists s. split_and!; done || lia. }
  destruct (app_on_message_spec now app s.(auth) Ha) as (a & Hm & Hia & Hsub & Hval).
  unfold mbind, M_bind, try_except. rewrite (run_auth_shrinks app _ _ _ s Hm Hsub).
  set (s1 := mkWS a _ _ _ _ _). destruct (IH s1 Hia) as (s' & Hrun & Hsame & Hi' & Hsub' & _).
  exists s'. split_and!; [done|done|done|set_solver|]. intros _ Hin. apply Hval. set_solver.
Qed.

Lemma on_close_callbacks n app s :
  Inv s.(auth) → ∃ s', run_callbacks n app (app_on_close app) s = (Ret tt, s') ∧ same_ws s s' ∧
    Inv s'.(auth) ∧ s'.(auth).(authenticated) ⊆ s.(auth).(authenticated) ∧
    (0 < n → app.(session_id) ∉ s'.(auth).(authenticated)).
Proof.
  revert s. induction n as [|n IH]; intros s Ha; cbn [run_callbacks].
  { exists s. split_and!; done || lia. }
  pose proof (logout_session_total app s.(auth) Ha) as Hl.
  assert ((logout_session app s.(auth)).2.(authenticated) ⊆ s.(auth).(authenticated)) as Hsub.
  { unfold logout_session, get_state, modify, mbind, M_bind, raise. cbn.
    destruct (s.(auth).(sessions) !! _) as [ss|]; cbn; [|set_solver].
    rewrite credentials_logout_id. destruct (is_internal_session ss) as [[]|]; cbn; set_solver. }
  destruct (logout_session app s.(auth)) as [[[]|e] a] eqn:Hlog; [|done]. cbn in Hsub.
  unfold mbind, M_bind, try_except, app_on_close. rewrite (run_auth_shrinks app _ _ _ s Hlog Hsub).
  set (s1 := mkWS a _ _ _ _ _). destruct (IH s1 (proj1 Hl)) as (s' & Hrun & Hsame & Hi' & Hsub' & _).
  exists s'. split_and!; [done|done|done|set_solver|]. intros _ Hin. apply (proj2 (proj2 Hl)). set_solver.
Qed.

(** ** The states the server reaches *)

Section guard.
Context (get_service : string → option (list (string * Method))) (get_event_source : string → bool).
Context (errname : Z → string) (tb_error : exn → pyval) (pickled : exn → outcome exn string) (is_linux : bool) (sockstat : string) (utcnow : Z).

Notation on_message := (on_message get_service get_event_source errname tb_error pickled is_linux sockstat utcnow).
Notation handle_frame := (handle_frame get_service get_event_source errname tb_error pickled is_linux sockstat utcnow).
Notation ws_handler := (ws_handler get_service get_event_source errname tb_error pickled is_linux sockstat utcnow).
Notation ws_loop := (ws_loop get_service get_event_source errname tb_error pickled is_linux sockstat utcnow).

Record ws_inv (s : WS) : Prop := {
  ws_auth : Inv s.(auth);
  ws_ids sid c : s.(wsclients) !! sid = Some c → c.(app).(session_id) = sid;
  ws_callbacks sid c : s.(wsclients) !! sid = Some c → sid ∈ s.(auth).(authenticated) → 0 < c.(callbacks);
}.

(** Changes to connections that keep the application and the callbacks. *)
Definition keeps_app (f : Conn → Conn) : Prop := ∀ c, (f c).(app) = c.(app) ∧ (f c).(callbacks) = c.(callbacks).

Lemma update_self_inv sid f : keeps_app f → keeps ws_inv (update_self sid f).
Proof.
  intros Hf. apply keeps_modify. intros s [A B C]. split; cbn; [done| |].
  - intros sid' c [(-> & c' & Hc & ->)|[_ Hc]]%lookup_alter_Some; [rewrite (proj1 (Hf c'))|]; eauto.
  - intros sid' c [(-> & c' & Hc & ->)|[_ Hc]]%lookup_alter_Some; [rewrite (proj2 (Hf c'))|]; eauto.
Qed.

(** Steps that touch neither the sessions nor the connections. *)
Lemma keeps_same {A} (m : M WS exn A) :
  (∀ s, (m s).2.(auth) = s.(auth) ∧ (m s).2.(wsclients) = s.(wsclients)) → keeps ws_inv m.
Proof. intros Hm s [A' B C]. destruct (Hm s) as [H1 H2]. split; rewrite ?H1, ?H2; done. Qed.

Lemma send_inv sid d : keeps ws_inv (send sid d).
Proof. by apply keeps_same. Qed.
Lemma dispatch_inv sid m : keeps ws_inv (dispatch sid m).
Proof. by apply keeps_same. Qed.
Lemma start_source_inv : keeps ws_inv start_source.
Proof. by apply keeps_same. Qed.
Lemma cancel_source_inv es : keeps ws_inv (cancel_source es).
Proof. by apply keeps_same. Qed.
Lemma self_inv sid : keeps ws_inv (self sid).
Proof. by apply keeps_same. Qed.
Lemma is_authenticated_inv sid : keeps ws_inv (is_authenticated sid).
Proof. by apply keeps_same. Qed.
Lemma lift_ws_inv {A} (o : outcome exn A) : keeps ws_inv (lift_ws o).
Proof. by apply keeps_same. Qed.

Hint Resolve send_inv dispatch_inv start_source_inv cancel_source_inv self_inv is_authenticated_inv lift_ws_inv : keeps.

(** Running a method of the session manager that logs in at most its own
    connection. *)
Lemma run_auth_at {A} app (m : M Auth exn A) s :
  ws_inv s → Inv (m s.(auth)).2 → (m s.(auth)).2.(authenticated) ⊆ {[app.(session_id)]} ∪ s.(auth).(authenticated) →
  ws_inv (run_auth app m s).2.
Proof.
  intros [A' B C] Hm Hown. unfold run_auth. destruct (m s.(auth)) as [r a]. cbn in *. split; cbn; [done| |].
  - intros sid c. case_match; [|apply B].
    intros [(<- & c' & Hc & ->)|[_ Hc]]%lookup_alter_Some; cbn; eauto.
  - intros sid c Hc Hin. case_match eqn:Hl.
    + apply lookup_alter_Some in Hc as [(<- & c' & Hc & ->)|[Hne Hc]]; cbn; [lia|]. apply (C sid); [done|set_solver].
    + apply (C sid); [done|]. pose proof Hin as Hin'.
      apply Hown, elem_of_union in Hin' as [->%elem_of_singleton|Hin']; [|done].
      rewrite (bool_decide_eq_true_2 _ Hin), andb_true_r, negb_false_iff, bool_decide_eq_true in Hl. done.
Qed.

Lemma login_session_own u n app c a :
  (login_session u n app c a).2.(authenticated) ⊆ {[app.(session_id)]} ∪ a.(authenticated).
Proof.
  unfold login_session, get_state, modify, mbind, M_bind, raise. cbn. case_bool_decide.
  - destruct (a.(sessions) !! _); cbn; set_solver.
  - destruct (is_internal_session _) as [[]|]; cbn; set_solver.
Qed.

Lemma get_token_object_authenticated n tok a :
  (get_token_object n tok a).2.(authenticated) = a.(authenticated).
Proof.
  unfold get_token_object, pop_token, get_state, modify, mbind, M_bind, raise. cbn.
  destruct (a.(tokens) !! tok) as [r|]; cbn; [|done]. destruct (a.(heap) !! r) as [t|]; cbn; [|done].
  destruct (is_valid n t); [done|]. by destruct (a.(tokens) !! t.(token)).
Qed.

Lemma token_login_own u n app tok a :
  (token_login u n app tok a).2.(authenticated) ⊆ {[app.(session_id)]} ∪ a.(authenticated).
Proof.
  unfold token_login. unfold mbind at 1, M_bind at 1.
  pose proof (get_token_object_authenticated n tok a) as Ha.
  destruct (get_token_object n tok a) as [[[r|]|e] a1]; cbn in Ha; [|cbn; set_solver|cbn; set_solver].
  pose proof (login_session_own u n app (TokenCredentials r) a1) as Hl.
  unfold mbind, M_bind. destruct (login_session u n app (TokenCredentials r) a1) as [[]?]; cbn in *; set_solver.
Qed.

Lemma check_permission_own n app a :
  (check_permission is_linux sockstat utcnow n app a).2.(authenticated) ⊆ {[app.(session_id)]} ∪ a.(authenticated).
Proof.
  unfold check_permission. destruct (af_unix app); [apply login_session_own|].
  destruct (negb _); [cbn; set_solver|]. cbv zeta.
  destruct (anyO _ _) as [[]|]; [apply login_session_own|cbn; set_solver|cbn; set_solver].
Qed.

Lemma logout_session_own app a : (logout_session app a).2.(authenticated) ⊆ a.(authenticated).
Proof.
  unfold logout_session, get_state, modify, mbind, M_bind, raise. cbn.
  destruct (a.(sessions) !! _) as [ss|]; cbn; [|set_solver].
  rewrite credentials_logout_id. destruct (is_internal_session ss) as [[]|]; cbn; set_solver.
Qed.

Lemma check_permission_inv now app : keeps ws_inv (run_auth app (check_permission is_linux sockstat utcnow now app)).
Proof.
  intros s Hs. apply run_auth_at; [done| |apply check_permission_own]. apply check_permission_keeps, Hs.
Qed.

Lemma callback_inv now app : keeps ws_inv (run_auth app (app_on_message now app)).
Proof.
  intros s Hs. destruct (app_on_message_spec now app s.(auth) (ws_auth s Hs)) as (a & Hm & Ha & Hsub & _).
  apply run_auth_at; rewrite ?Hm; cbn; [done|done|set_solver].
Qed.

Lemma close_inv app : keeps ws_inv (run_auth app (app_on_close app)).
Proof.
  intros s Hs. pose proof (logout_session_total app _ (ws_auth s Hs)) as Hl. unfold app_on_close.
  apply run_auth_at; [done| |pose proof (logout_session_own app s.(auth)); set_solver].
  destruct (logout_session app s.(auth)) as [[]?]; [apply Hl|done].
Qed.

Lemma run_callbacks_inv n app m : keeps ws_inv (run_auth app m) → keeps ws_inv (run_callbacks n app m).
Proof.
  intros Hm. induction n as [|n IH]; cbn [run_callbacks]; [apply keeps_ret|].
  apply keeps_bind; [|done]. apply keeps_try; [done|]. intros _. apply keeps_ret.
Qed.

Hint Resolve check_permission_inv callback_inv close_inv run_callbacks_inv : keeps.

Lemma subscribe_inv sid ident name : keeps ws_inv (subscribe get_event_source sid ident name).
Proof. unfold subscribe, ready. keeps_tac; by apply update_self_inv. Qed.

Lemma unsubscribe_inv sid ident : keeps ws_inv (unsubscribe sid ident).
Proof. unfold unsubscribe. keeps_tac; by apply update_self_inv. Qed.

Lemma connect_inv now sid d : keeps ws_inv (connect is_linux sockstat utcnow now sid d).
Proof. unfold connect, failed. keeps_tac; by apply update_self_inv. Qed.

Hint Resolve subscribe_inv unsubscribe_inv connect_inv : keeps.

Lemma on_message_inv now sid message : keeps ws_inv (on_message now sid message).
Proof. unfold Websocket.on_message, on_method, send_error, failed. keeps_tac. Qed.

Hint Resolve on_message_inv : keeps.

Lemma handle_frame_inv now sid f : keeps ws_inv (handle_frame now sid f).
Proof. unfold Websocket.handle_frame. keeps_tac. Qed.

Lemma on_open_inv a s :
  ws_inv s → a.(session_id) ∉ s.(auth).(authenticated) → ws_inv (on_open a s).2.
Proof.
  intros [A B C] Hfresh. split; cbn; [done| |].
  - intros sid c [[<- <-]|[_ Hc]]%lookup_insert_Some; [done|eauto].
  - intros sid c [[<- <-]|[_ Hc]]%lookup_insert_Some; [done|eauto].
Qed.

Lemma on_close_inv sid : keeps ws_inv (on_close sid).
Proof.
  unfold on_close. keeps_tac. apply keeps_modify. intros s [A B C]. split; cbn; [done| |].
  - intros sid' c [_ Hc]%lookup_delete_Some. eauto.
  - intros sid' c [_ Hc]%lookup_delete_Some. eauto.
Qed.

Lemma send_event_inv name type kwargs : keeps ws_inv (send_event name type kwargs).
Proof. unfold send_event, app_send_event. keeps_tac. Qed.

(** Connections with fresh identifiers come and go, frames arrive, calls that were
    started log connections in or out at any later time, by a password or by a token
    that one of them made, and events are sent. *)
Inductive ws_reach : WS → Prop :=
| reach_init : ws_reach (mkWS auth_init ∅ [] [] [] [])
| reach_open a s : ws_reach s → a.(session_id) ∉ s.(auth).(authenticated) → ws_reach (on_open a s).2
| reach_frame now sid f s : ws_reach s → ws_reach (handle_frame now sid f s).2
| reach_login u n a c s : ws_reach s → good_credentials c s.(auth) → ws_reach (run_auth a (login_session u n a c) s).2
| reach_logout a s : ws_reach s → ws_reach (run_auth a (logout_session a) s).2
| reach_close sid s : ws_reach s → ws_reach (on_close sid s).2
| reach_event name type kwargs s : ws_reach s → ws_reach (send_event name type kwargs s).2
| reach_generate n a tok d attrs s : ws_reach s → ws_reach (run_auth a (generate_token n tok d attrs) s).2
| reach_token u n a tok s : ws_reach s → ws_reach (run_auth a (token_login u n a tok) s).2.

Lemma ws_reach_inv s : ws_reach s → ws_inv s.
Proof.
  induction 1 as [|a s Hr IH Hf|now sid f s Hr IH|u n a c s Hr IH Hg|a s Hr IH|sid s Hr IH|name type kwargs s Hr IH|n a tok d attrs s Hr IH|u n a tok s Hr IH].
  - split; cbn; [by split|by intros ? ? ?%lookup_empty_Some|by intros ? ? ?%lookup_empty_Some].
  - by apply on_open_inv.
  - by apply handle_frame_inv.
  - apply run_auth_at; [done| |apply login_session_own].
    pose proof (login_session_total u n a c s.(auth) (conj (ws_auth s IH) Hg)) as Hl.
    destruct (login_session u n a c s.(auth)) as [[]?]; [apply Hl|done].
  - by apply (close_inv a).
  - by apply on_close_inv.
  - by apply send_event_inv.
  - apply run_auth_at; [done|by apply create_Inv, ws_auth|]. cbn. set_solver.
  - apply run_auth_at; [done| |apply token_login_own].
    by apply (total_keeps _ (token_login_total u n a tok)), ws_auth.
Qed.

(** *** Which messages start a call *)

Definition no_calls (l : list (string * string)) (s : WS) : Prop := s.(dispatched) = l.

Lemma no_calls_pure {A} l (m : M WS exn A) : (∀ s, (m s).2.(dispatched) = s.(dispatched)) → keeps (no_calls l) m.
Proof. intros Hm s Hs. unfold no_calls in *. by rewrite Hm. Qed.

Lemma run_auth_calls {A} l app (m : M Auth exn A) : keeps (no_calls l) (run_auth app m).
Proof. apply no_calls_pure. intros s. unfold run_auth. by destruct (m s.(auth)). Qed.

Hint Extern 1 (keeps (no_calls _) (send _ _)) => by apply no_calls_pure : keeps.
Hint Extern 1 (keeps (no_calls _) (update_self _ _)) => by apply no_calls_pure : keeps.
Hint Extern 1 (keeps (no_calls _) (self _)) => by apply no_calls_pure : keeps.
Hint Extern 1 (keeps (no_calls _) (lift_ws _)) => by apply no_calls_pure : keeps.
Hint Extern 1 (keeps (no_calls _) (is_authenticated _)) => by apply no_calls_pure : keeps.
Hint Extern 1 (keeps (no_calls _) start_source) => by apply no_calls_pure : keeps.
Hint Extern 1 (keeps (no_calls _) (cancel_source _)) => by apply no_calls_pure : keeps.
Hint Resolve run_auth_calls : keeps.

Lemma connect_calls l now sid d : keeps (no_calls l) (connect is_linux sockstat utcnow now sid d).
Proof. unfold connect, failed. keeps_tac. Qed.
Lemma subscribe_calls l sid ident name : keeps (no_calls l) (subscribe get_event_source sid ident name).
Proof. unfold subscribe, ready. keeps_tac. Qed.
Lemma unsubscribe_calls l sid ident : keeps (no_calls l) (unsubscribe sid ident).
Proof. unfold unsubscribe. keeps_tac. Qed.
Hint Resolve connect_calls subscribe_calls unsubscribe_calls : keeps.

Lemma method_name_str v name : method_name v = Ret name → v = PStr name.
Proof.
  destruct v; cbn [method_name]; try (by intros [= ->]); intros Hn.
  all: match type of Hn with (?x ≫= _ = _) => destruct x as [[]|]; discriminate end.
Qed.

Lemma on_method_calls sid message d s :
  let s' := (on_method get_service errname tb_error pickled sid message d s).2 in
  s'.(auth) = s.(auth) ∧
  (s'.(dispatched) = s.(dispatched) ∨
   ∃ name m, dget d "method" = Some (PStr name) ∧
     s'.(dispatched) = s.(dispatched) ++ [(sid, name)] ∧ method_lookup get_service name = Ret m ∧
     (m.(no_auth_required) = true ∨ sid ∈ s.(auth).(authenticated))).
Proof.
  assert (∀ errno reason exc et ex,
    let s' := (send_error tb_error pickled sid message errno reason exc et ex s).2 in
    s'.(auth) = s.(auth) ∧ s'.(dispatched) = s.(dispatched)) as He.
  { intros. subst s'. unfold send_error, lift_ws, self, mbind, M_bind.
    destruct (s.(wsclients) !! sid); [|done]. destruct (error_extra _ _ _); [|done]. by destruct (item message "id"). }
  unfold on_method. destruct (dget d "method") as [method|]; [|split; [|left]; apply He].
  destruct (method_name method) as [name|e] eqn:Hn; cbn.
  2: { destruct e; try (by split; [|left]); split; [|left]; apply He. }
  destruct (method_lookup get_service name) as [m|e] eqn:Hm; cbn.
  2: { destruct e; try (by split; [|left]); split; [|left]; apply He. }
  unfold mbind, M_bind, is_authenticated, gets.
  destruct (negb _ && negb _) eqn:Hg; [split; [|left]; apply He|]. cbn. split; [done|]. right. exists name, m.
  split_and!; [by rewrite (method_name_str method name Hn)|done|done|]. apply andb_false_iff in Hg as [Hg|Hg]; apply negb_false_iff in Hg; [|by left].
  right. by apply bool_decide_eq_true in Hg.
Qed.

(** C5. In every state that connections, frames, logins with a password or a token, new
    tokens, logouts and events lead to, one after the other, a message starts at most
    one call, and only of a method that exists, after the handshake; unless the method
    needs no authentication the connection has a session when the message arrives, and
    when that was opened with a token, the token was last used less than its [ttl] ago:
    an expired token starts nothing. *)
Theorem ws_guard s sid c now message :
  ws_reach s → s.(wsclients) !! sid = Some c →
  let s' := (on_message now sid message s).2 in
  s'.(dispatched) = s.(dispatched) ∨
  ∃ name m, s'.(dispatched) = s.(dispatched) ++ [(sid, name)] ∧ method_lookup get_service name = Ret m ∧
    c.(handshake) = true ∧
    (m.(no_auth_required) = true ∨
     valid_session now sid s.(auth) ∧ sid ∈ s'.(auth).(authenticated)).
Proof.
  intros Hr%ws_reach_inv Hc s'. pose proof (ws_ids s Hr sid c Hc) as Hid.
  destruct (run_callbacks_spec c.(callbacks) now c.(app) s (ws_auth s Hr)) as (s1 & Hrun & Hsame & _ & Hsub & Hval).
  rewrite Hid in Hval. destruct Hsame as (Hw1 & _ & Hd1 & _).
  subst s'. destruct (on_message now sid message s) as [r s2] eqn:Hres. cbn [snd].
  unfold Websocket.on_message in Hres. unfold mbind at 1, M_bind at 1 in Hres. unfold self at 1 in Hres. rewrite Hc in Hres.
  unfold mbind at 1, M_bind at 1 in Hres. rewrite Hrun in Hres. rewrite <-Hd1.
  unfold mbind at 1, M_bind at 1, lift_ws at 1 in Hres. destruct (item message "msg") as [msg|e]; [|by left; injection Hres as _ <-].
  destruct message as [| | | | |d]; try (by left; injection Hres as _ <-).
  destruct (py_eq msg (PStr "connect")).
  { left. pose proof (connect_calls s1.(dispatched) now sid d s1 eq_refl) as Hk. rewrite Hres in Hk. exact Hk. }
  unfold mbind at 1, M_bind at 1 in Hres. unfold self at 1 in Hres. rewrite Hw1, Hc in Hres.
  destruct c.(handshake) eqn:Hh; cbn [negb] in Hres; [|by left; injection Hres as _ <-].
  destruct (py_eq msg (PStr "method")).
  - destruct (on_method_calls sid (PDict d) d s1) as [Ha Hcalls]. rewrite Hres in Ha, Hcalls. cbn [snd] in *.
    destruct Hcalls as [Hd|(name & m & _ & Hd & Hm & Hok)]; [by left|].
    right. exists name, m. split_and!; [done|done|done|]. rewrite Ha.
    destruct Hok as [?|Hin]; [by left|right]. split; [|done]. apply Hval; [|done].
    apply (ws_callbacks s Hr sid c Hc). by apply Hsub.
  - left. match type of Hres with (?m : M WS exn unit) s1 = _ =>
      assert (keeps (no_calls s1.(dispatched)) m) as Hk by (unfold send_error; keeps_tac) end.
    specialize (Hk s1 eq_refl). by rewrite Hres in Hk.
Qed.

(** *** The end of a connection *)

Definition open_conn (sid : string) (s : WS) : Prop := is_Some (s.(wsclients) !! sid).

Lemma open_pure {A} sid (m : M WS exn A) :
  (∀ s sid, is_Some ((m s).2.(wsclients) !! sid) ↔ is_Some (s.(wsclients) !! sid)) → keeps (open_conn sid) m.
Proof. intros Hm s Hs. by apply Hm. Qed.

Lemma run_auth_open {A} sid app (m : M Auth exn A) : keeps (open_conn sid) (run_auth app m).
Proof.
  apply open_pure. intros s sid'. unfold run_auth. destruct (m s.(auth)). cbn.
  case_match; [|done]. by rewrite lookup_alter_is_Some.
Qed.

Lemma update_self_open sid sid' f : keeps (open_conn sid) (update_self sid' f).
Proof. apply open_pure. intros s sid''. cbn. by rewrite lookup_alter_is_Some. Qed.

Hint Extern 1 (keeps (open_conn _) (send _ _)) => by apply open_pure : keeps.
Hint Extern 1 (keeps (open_conn _) (self _)) => by apply open_pure : keeps.
Hint Extern 1 (keeps (open_conn _) (lift_ws _)) => by apply open_pure : keeps.
Hint Extern 1 (keeps (open_conn _) (is_authenticated _)) => by apply open_pure : keeps.
Hint Extern 1 (keeps (open_conn _) start_source) => by apply open_pure : keeps.
Hint Extern 1 (keeps (open_conn _) (cancel_source _)) => by apply open_pure : keeps.
Hint Extern 1 (keeps (open_conn _) (dispatch _ _)) => by apply open_pure : keeps.
Hint Resolve run_auth_open update_self_open : keeps.

Lemma run_callbacks_open sid n app m : keeps (open_conn sid) (run_callbacks n app m).
Proof. induction n as [|n IH]; cbn [run_callbacks]; keeps_tac. Qed.
Hint Resolve run_callbacks_open : keeps.

Lemma handle_frame_open now sid sid' f : keeps (open_conn sid) (handle_frame now sid' f).
Proof.
  unfold Websocket.handle_frame, Websocket.on_message, connect, on_method, subscribe, unsubscribe, send_error, ready, failed.
  keeps_tac.
Qed.

Lemma ws_loop_inv sid frames : keeps (λ s, ws_inv s ∧ open_conn sid s) (ws_loop sid frames).
Proof.
  induction frames as [|[now f] frames IH]; cbn [Websocket.ws_loop]; [apply keeps_ret|].
  apply keeps_bind; [|intros []; [done|apply keeps_ret]].
  intros s [Hs Ho]. split; [by apply handle_frame_inv|by apply handle_frame_open].
Qed.

Lemma ws_loop_returns sid frames s : ∃ s', ws_loop sid frames s = (Ret tt, s').
Proof.
  revert s. induction frames as [|[now f] frames IH]; intros s; cbn [Websocket.ws_loop]; [by eexists|].
  assert (∃ b s1, handle_frame now sid f s = (Ret b, s1)) as (b & s1 & Hf).
  { unfold Websocket.handle_frame, is_authenticated, gets, mbind, M_bind, try_except.
    destruct f as [| |len parsed]; [by eexists _, _|by eexists _, _|]. destruct (negb _ && _); [by eexists _, _|].
    destruct parsed as [message|]; [|by eexists _, _].
    destruct (Websocket.on_message _ _ _ _ _ _ _ _ _ _ _ s) as [[]?]; by eexists _, _. }
  unfold mbind, M_bind. rewrite Hf. destruct b; [apply IH|by eexists].
Qed.

Lemma cancel_all l s :
  ∃ s', forM l (λ kv : pyval * (string * nat), cancel_source kv.2.2) s = (Ret tt, s') ∧ s'.(auth) = s.(auth) ∧
    s'.(wsclients) = s.(wsclients) ∧ s'.(cancelled) = s.(cancelled) ++ ((λ kv, kv.2.2) <$> l).
Proof.
  revert s. induction l as [|kv l IH]; intros s; cbn [forM].
  { exists s. cbn. by rewrite app_nil_r. }
  unfold mbind, M_bind. cbn. destruct (IH (mkWS s.(auth) s.(wsclients) s.(outbox) s.(dispatched) s.(started) (s.(cancelled) ++ [kv.2.2])))
    as (s' & Hl & Ha & Hw & Hc). exists s'. split_and!; [done|done|done|]. rewrite Hc. cbn. by rewrite <-(assoc_L (++)).
Qed.

Lemma on_close_spec sid c s :
  ws_inv s → s.(wsclients) !! sid = Some c →
  ∃ s', on_close sid s = (Ret tt, s') ∧ s'.(wsclients) = delete sid s.(wsclients) ∧
    sid ∉ s'.(auth).(authenticated) ∧ s'.(cancelled) = s.(cancelled) ++ ((λ kv, kv.2.2) <$> c.(event_sources)).
Proof.
  intros Hs Hc. pose proof (ws_ids s Hs sid c Hc) as Hid.
  destruct (on_close_callbacks c.(callbacks) c.(app) s (ws_auth s Hs)) as (s1 & Hrun & (Hw & _ & _ & _ & Hcan) & _ & Hsub & Hout).
  destruct (cancel_all c.(event_sources) s1) as (s2 & Hl & Ha & Hw2 & Hc2).
  unfold on_close, self, mbind, M_bind. rewrite Hc, Hrun, Hl. eexists. split; [done|]. cbn. rewrite Ha, Hw2, Hw, Hc2, Hcan.
  split_and!; [done| |done]. rewrite Hid in Hout. intros Hin.
  apply Hout; [|done]. apply (ws_callbacks s Hs sid c Hc). by apply Hsub.
Qed.

(** Whatever frames a connection sends, errors included, its handler returns
    with the connection unregistered and not authenticated. *)
Theorem ws_handler_cleans_up s a frames :
  ws_reach s → a.(session_id) ∉ s.(auth).(authenticated) →
  ∃ s', ws_handler a frames s = (Ret tt, s') ∧
    s'.(wsclients) !! a.(session_id) = None ∧ a.(session_id) ∉ s'.(auth).(authenticated).
Proof.
  intros Hr%ws_reach_inv Hfresh. unfold Websocket.ws_handler, mbind, M_bind.
  destruct (on_open a s) as [[[]|e] s1] eqn:Ho; [|done].
  assert (ws_inv s1 ∧ open_conn a.(session_id) s1) as H1.
  { pose proof (on_open_inv a s Hr Hfresh) as Hi. rewrite Ho in Hi. split; [done|].
    injection Ho as <-. unfold open_conn. cbn. rewrite lookup_insert_eq. eauto. }
  unfold try_finally. destruct (ws_loop_returns a.(session_id) frames s1) as [s2 Hloop].
  pose proof (ws_loop_inv a.(session_id) frames s1 H1) as H2. rewrite Hloop in H2 |- *. destruct H2 as [Hi2 [c Hc]].
  destruct (on_close_spec a.(session_id) c s2 Hi2 Hc) as (s3 & -> & Hw & Hna & _).
  exists s3. split_and!; [done|by rewrite Hw, lookup_delete_eq|done].
Qed.

(** A login that finishes after its connection was closed leaves an
    authenticated session behind that belongs to no connection. *)
Theorem late_login_leaves_session s a u n c :
  ws_reach s → good_credentials c s.(auth) →
  s.(wsclients) !! a.(session_id) = None → a.(session_id) ∉ s.(auth).(authenticated) →
  ∃ s', run_auth a (login_session u n a c) s = (Ret tt, s') ∧ ws_reach s' ∧
    is_Some (s'.(auth).(sessions) !! a.(session_id)) ∧ s'.(wsclients) !! a.(session_id) = None.
Proof.
  intros Hr Hg Hw Hna. pose proof (reach_login u n a c s Hr Hg) as Hr'. pose proof (ws_reach_inv s Hr) as Hi.
  pose proof (login_session_total u n a c s.(auth) (conj (ws_auth s Hi) Hg)) as Hl.
  destruct (run_auth a (login_session u n a c) s) as [r s'] eqn:Hrun. unfold run_auth in Hrun.
  destruct (login_session u n a c s.(auth)) as [[[]|e] a'] eqn:Hlog; [|done]. injection Hrun as <- <-.
  exists (mkWS a' (if negb (bool_decide (session_id a ∈ authenticated (auth s))) && bool_decide (session_id a ∈ authenticated a')
    then alter (λ c, set_callbacks (S c.(callbacks)) c) a.(session_id) s.(wsclients) else s.(wsclients))
    s.(outbox) s.(dispatched) s.(started) s.(cancelled)). split_and!; [done|done| |].
  - cbn. apply login_session_authenticates in Hlog. rewrite (inv_authenticated a' Hl) in Hlog. by apply elem_of_dom in Hlog.
  - cbn. case_match; [|done]. by rewrite lookup_alter_None.
Qed.

(** Subscribing to an event source under an identifier that another one has
    replaces it: the first goes on running, and closing the connection does not
    cancel it. *)
Theorem subscribe_drops_source s sid c ident n1 e1 n2 :
  ws_inv s → s.(wsclients) !! sid = Some c → c.(event_sources) = [(ident, (n1, e1))] → hashable ident = true →
  py_eq ident ident = true → get_event_source (short_name n2) = true → n2 ≠ n1 →
  e1 < length s.(started) → e1 ∉ s.(cancelled) →
  ∃ s1 s2, subscribe get_event_source sid ident (PStr n2) s = (Ret tt, s1) ∧ on_close sid s1 = (Ret tt, s2) ∧
    e1 ∉ s2.(cancelled).
Proof.
  intros Hs Hc Hes Hh Heq Hsrc Hne Hlt Hnc.
  pose proof (subscribe_inv sid ident (PStr n2) s Hs) as Hs1.
  assert (∃ c1 s1, subscribe get_event_source sid ident (PStr n2) s = (Ret tt, s1) ∧ s1.(wsclients) !! sid = Some c1 ∧
    c1.(event_sources) = [(ident, (n2, length s.(started)))] ∧ s1.(cancelled) = s.(cancelled)) as (c1 & s1 & Hsub & Hc1 & Hes1 & Hcan).
  { unfold subscribe, lift_ws, self, mbind, M_bind. cbn [name_text]. rewrite Hc, Hsrc, Hes. cbn [existsb fst snd].
    destruct (String.eqb_spec n1 n2); [congruence|]. cbn [orb]. unfold require_hashable. rewrite Hh.
    eexists _, _. split; [done|]. cbn. rewrite lookup_alter_eq, Hc. cbn. split_and!; [done| |done]. by rewrite Heq. }
  rewrite Hsub in Hs1. destruct (on_close_spec sid c1 s1 Hs1 Hc1) as (s2 & Hclose & _ & _ & Hc2).
  exists s1, s2. split_and!; [done|done|]. rewrite Hc2, Hes1, Hcan. cbn.
  intros [? | ->%list_elem_of_singleton]%elem_of_app; [done|lia].
Qed.

(** *** Replies *)

(** How the block under the semaphore ended, if the task was not cancelled. *)
Definition call_outcome (r : Called) : option (outcome exn pyval) :=
  match r with
  | Refused _ => None
  | Completed r => Some (x ← r; returned x)
  end.

(** The exception that the handlers of [call_method] report: what the method raised,
    or that the message has no identifier to put into the reply. *)
Definition reported (d : pydict) (r : Called) : option exn :=
  match call_outcome r with
  | Some (Raise e) => Some e
  | Some (Ret _) => if dget d "id" then None else Some (KeyError "id")
  | None => None
  end.

(** What [pickle.dumps] raises for it, when the client asked for pickled
    exceptions. *)
Definition unpicklable (c : Conn) (exc_info : option exn) : option exn :=
  match error_extra pickled c exc_info with Raise x => Some x | Ret _ => None end.

(** An error that is reported: pickling comes first, then the identifier. *)
Definition error_reply (sid : string) (c : Conn) (d : pydict) (exc_info : option exn) (m : M WS exn unit) (s : WS) : Prop :=
  match unpicklable c exc_info, dget d "id" with
  | Some x, _ => m s = (Raise x, s)
  | None, Some id => ∃ err, m s = send sid [("msg", PStr "result"); ("id", id); ("error", err)] s
  | None, None => m s = (Raise (KeyError "id"), s)
  end.

Lemma error_reply_ext sid c d exc m m' s :
  m s = m' s → error_reply sid c d exc m' s → error_reply sid c d exc m s.
Proof. intros Heq. unfold error_reply. by rewrite Heq. Qed.

Lemma send_error_reply sid c d errno reason exc et ex s :
  s.(wsclients) !! sid = Some c →
  error_reply sid c d exc (send_error tb_error pickled sid (PDict d) errno reason exc et ex) s.
Proof.
  intros Hc. unfold error_reply, unpicklable, send_error, self, lift_ws, mbind, M_bind. rewrite Hc. unfold item.
  destruct (error_extra pickled c exc); [|done]. destruct (dget d "id"); [by eexists|done].
Qed.

Lemma call_error_reply sid c d e s :
  s.(wsclients) !! sid = Some c → e ≠ CancelledError →
  error_reply sid c d (Some e) (call_error errname tb_error pickled sid (PDict d) e) s.
Proof. intros Hc He. destruct e; try done; by apply (send_error_reply sid c). Qed.

Lemma call_method_completed sid d r s :
  call_method errname tb_error pickled sid (PDict d) (Completed r) s =
  match x ← r; returned x with
  | Raise e => call_error errname tb_error pickled sid (PDict d) e s
  | Ret v =>
      match dget d "id" with
      | Some id => send sid [("id", id); ("msg", PStr "result"); ("result", v)] s
      | None => call_error errname tb_error pickled sid (PDict d) (KeyError "id") s
      end
  end.
Proof.
  cbn [call_method]. unfold try_except, lift_ws, mbind, M_bind, item. destruct r as [x|e]; [|done]. cbn.
  destruct (returned x); [|done]. by destruct (dget d "id").
Qed.

(** A method that did not return a value ends in a report. *)
Lemma call_method_fails sid c d r s :
  s.(wsclients) !! sid = Some c → call_outcome r ≠ Some (Raise CancelledError) →
  (∀ v, call_outcome r = Some (Ret v) → dget d "id" = None) →
  error_reply sid c d (reported d r) (call_method errname tb_error pickled sid (PDict d) r) s.
Proof.
  intros Hc Hnc Hid. destruct r as [limit|r]; [by apply send_error_reply|].
  unfold reported. cbn [call_outcome] in *. pose proof (call_method_completed sid d r s) as Heq.
  destruct (x ← r; returned x) as [v|e]; [rewrite (Hid v eq_refl) in *|]; apply (error_reply_ext _ _ _ _ _ _ s Heq).
  - by apply call_error_reply.
  - apply call_error_reply; [done|congruence].
Qed.

Lemma run_callbacks_calls l n app m : keeps (no_calls l) (run_callbacks n app m).
Proof. induction n as [|n IH]; cbn [run_callbacks]; keeps_tac. Qed.
Hint Resolve run_callbacks_calls : keeps.

(** The message of a call that was started names the method. *)
Lemma on_message_starts now sid message name s :
  (on_message now sid message s).2.(dispatched) = s.(dispatched) ++ [(sid, name)] →
  ∃ d, message = PDict d ∧ dget d "method" = Some (PStr name).
Proof.
  assert (∀ s', s'.(dispatched) = s.(dispatched) → s'.(dispatched) ≠ s.(dispatched) ++ [(sid, name)]) as Hno.
  { intros s' -> H%(f_equal length). rewrite length_app in H. cbn in H. lia. }
  unfold Websocket.on_message. unfold mbind at 1, M_bind at 1. unfold self at 1.
  destruct (s.(wsclients) !! sid) as [c|]; [|by intros ?%Hno].
  unfold mbind at 1, M_bind at 1.
  pose proof (run_callbacks_calls s.(dispatched) c.(callbacks) c.(app) (app_on_message now c.(app)) s eq_refl) as H1.
  destruct (run_callbacks _ _ _ s) as [[[]|e] s1]; cbn [snd] in H1; [|by intros ?%Hno].
  unfold mbind at 1, M_bind at 1, lift_ws at 1. destruct (item message "msg") as [msg|e]; [|by intros ?%Hno].
  destruct message as [| | | | |d]; try (by intros ?%Hno).
  intros Hd. exists d. split; [done|].
  destruct (py_eq msg (PStr "connect")).
  { destruct (Hno _ (connect_calls s.(dispatched) now sid d s1 H1) Hd). }
  unfold mbind at 1, M_bind at 1 in Hd. unfold self at 1 in Hd.
  destruct (s1.(wsclients) !! sid) as [c1|]; [|by apply Hno in Hd].
  destruct (negb c1.(handshake)); [by apply Hno in Hd|].
  destruct (py_eq msg (PStr "method")).
  - destruct (on_method_calls sid (PDict d) d s1) as [_ [Hs|(name' & m & Hm & Hs & _)]]; rewrite Hd in Hs.
    + symmetry in Hs. by apply Hno in Hs; rewrite ?H1.
    + rewrite H1 in Hs. by apply app_inj_tail in Hs as [_ [= <-]].
  - exfalso. revert Hd. apply Hno.
    match goal with |- ((?m : M WS exn unit) s1).2.(dispatched) = _ =>
      assert (keeps (no_calls s.(dispatched)) m) as Hk by (unfold send_error; keeps_tac) end.
    exact (Hk s1 H1).
Qed.

End guard.

(** ** The semaphore *)

Module SemaphoreFacts.
Import Semaphore.

Lemma reached_inv soft hard n s :
  reached soft hard n s →
  s.(value) + s.(inside) = soft ∧ s.(counter) = s.(inside) + s.(waiting) + n ∧ s.(counter) ≤ hard.
Proof.
  induction 1 as [|n s b s' Hr IH Hstep]; [cbn; lia|].
  destruct s as [v c i w], Hstep as [s' Hs|s' Hs|s' Hs|s' Hs]; cbn in *.
  - unfold aenter in Hs. cbn in Hs. destruct (Nat.leb_spec hard c); [done|]. destruct v; injection Hs as <-; cbn; lia.
  - unfold wake in Hs. cbn in Hs. destruct v, w; try done. injection Hs as <-; cbn; lia.
  - unfold aexit in Hs. cbn in Hs. destruct i; [done|]. injection Hs as <-; cbn; lia.
  - unfold cancel in Hs. cbn in Hs. destruct w; [done|]. injection Hs as <-; cbn; lia.
Qed.

(** At most [softlimit] calls of a connection run at once and at most
    [hardlimit] are accepted; without cancellations a call is refused exactly when
    that many are running or waiting, and every call that was cancelled while it
    waited takes one place away for good. *)
Theorem semaphore_bounds soft hard n s :
  reached soft hard n s →
  s.(inside) ≤ soft ∧ s.(inside) + s.(waiting) + n ≤ hard ∧
  (aenter hard s = None ↔ hard = s.(inside) + s.(waiting) + n).
Proof.
  intros (Hv & Hc & Hh)%reached_inv. split_and!; [lia|lia|]. unfold aenter.
  destruct (Nat.leb_spec hard s.(counter)); [split; [lia|done]|].
  split; [by destruct s.(value)|lia].
Qed.

Lemma semaphore_bounds_witness :
  reached 1 2 1 (mkSem 0 2 1 0) ∧ aenter 2 (mkSem 0 2 1 0) = None.
Proof.
  assert (reached 1 2 1 (mkSem 0 2 1 0)) as Hr.
  { apply (reached_step 1 2 0 (mkSem 0 2 1 1) true).
    - apply (reached_step 1 2 0 (mkSem 0 1 1 0) false).
      + apply (reached_step 1 2 0 (init 1) false); [constructor|by constructor].
      + by constructor.
    - by constructor 4. }
  split; [exact Hr|]. apply (semaphore_bounds 1 2 1 (mkSem 0 2 1 0) Hr). reflexivity.
Defined.
End SemaphoreFacts.

(** ** Blocked hooks *)

Module HooksFacts.
Import Hooks.

(** An exception in the body of [block_hooks] leaves the hooks blocked: the
    counts stay raised, and [call_hook] of such a name calls nothing from then
    on. *)
Theorem block_hooks_leaks {A} name (e : exn) s :
  check_blockable s [name] = Ret tt → (0 ≤ blocked_count s name)%Z →
  ∃ s', block_hooks [name] (raise e : M State exn A) s = (Raise e, s') ∧
    blocked_count s' name = (blocked_count s name + 1)%Z ∧ call_hook name s' = (Ret tt, s').
Proof.
  intros Hc Hb. eexists. split.
  { unfold block_hooks, get_state, mbind, M_bind, raise, modify. rewrite Hc. done. }
  assert (blocked_count (add_blocked 1 [name] s) name = (blocked_count s name + 1)%Z) as Hcount.
  { unfold blocked_count, add_blocked. cbn. by rewrite dget_dset. }
  split; [done|]. unfold call_hook, get_state, mbind, M_bind. rewrite Hcount.
  destruct (Z.ltb_spec 0 (blocked_count s name + 1)); [done|lia].
Qed.

Definition demo_hooks : State := mkHooks [("dns.post_sync", [mkHook "sync" true false true true])] [] [].

Lemma block_hooks_leaks_witness :
  ∃ s', block_hooks ["dns.post_sync"] (raise AssertionError : M State exn unit) demo_hooks = (Raise AssertionError, s') ∧
    blocked_count s' "dns.post_sync" = 1%Z ∧ call_hook "dns.post_sync" s' = (Ret tt, s').
Proof.
  apply (block_hooks_leaks "dns.post_sync" AssertionError demo_hooks); [reflexivity|]. vm_compute. discriminate.
Defined.
End HooksFacts.

(** ** Witnesses *)

Definition demo_services (name : string) : option (list (string * Method)) :=
  if String.eqb name "core" then Some [("ping", mkMethod true); ("sessions", mkMethod false)] else None.

Definition demo_sources (name : string) : bool := bool_decide (name ∈ ["reporting.realtime"; "filesystem.file_tail_follow"]).

(** The names of the error numbers that the lookup of a method uses. *)
Definition demo_errname (code : Z) : string :=
  if Z.eqb code EBADMSG then "EBADMSG" else if Z.eqb code ENOMETHOD then "ENOMETHOD" else "EUNKNOWN".

Notation demo_frame := (handle_frame demo_services demo_sources demo_errname (λ _, PNone) (λ _, Ret EmptyString) false "" 0).
Notation demo_message := (on_message demo_services demo_sources demo_errname (λ _, PNone) (λ _, Ret EmptyString) false "" 0).
Notation demo_reach := (ws_reach demo_services demo_sources demo_errname (λ _, PNone) (λ _, Ret EmptyString) false "" 0).

Definition ws_init : WS := mkWS auth_init ∅ [] [] [] [].

Definition ann : App := mkApp "s1" false "192.0.2.7" 5000 None None.

Definition connect_text : Frame := FrameText 40 (Ret (PDict [("msg", PStr "connect"); ("version", PStr "1")])).

(** [ann] connected, and logged in with a password. *)
Definition ws_connected : WS := (demo_frame 1 "s1" connect_text (on_open ann ws_init).2).2.
Definition ws_logged_in : WS := (run_auth ann (login_session 0 2 ann LoginPassword) ws_connected).2.

Lemma ws_connected_reach : demo_reach ws_connected.
Proof. apply reach_frame, reach_open; [apply reach_init|]. cbn. set_solver. Qed.

Lemma ws_logged_in_reach : demo_reach ws_logged_in.
Proof. apply reach_login; [apply ws_connected_reach|done]. Qed.

Definition sessions_call : pyval :=
  PDict [("msg", PStr "method"); ("method", PStr "core.sessions"); ("id", PInt 7)].

Definition ann_conn : Conn := mkConn ann true false 1 [] [].

(** Another connection of hers, opened with a token of 5 seconds made at 10 and used
    at 11. *)
Definition eve : App := mkApp "s3" false "192.0.2.9" 5002 None None.

Definition ws_token : WS :=
  let s := (demo_frame 9 "s3" connect_text (on_open eve ws_logged_in).2).2 in
  let s := (run_auth ann (generate_token 10 "tok" (Some 5%Z) []) s).2 in
  (run_auth eve (token_login 0 11 eve "tok") s).2.

Lemma ws_token_reach : demo_reach ws_token.
Proof.
  apply reach_token, reach_generate, reach_frame, reach_open; [apply ws_logged_in_reach|].
  apply (bool_decide_unpack _). vm_compute. exact I.
Qed.

Definition eve_conn : Conn := mkConn eve true false 1 [] [].

(** A message in time starts the call; the token expires, and a later one starts
    nothing. *)
Lemma ws_guard_witness :
  (demo_message 3 "s1" sessions_call ws_connected).2.(dispatched) = [] ∧
  (demo_message 14 "s3" sessions_call ws_token).2.(dispatched) = [("s3", "core.sessions")] ∧
  (demo_message 15 "s3" sessions_call ws_token).2.(dispatched) = [] ∧
  let s' := (demo_message 14 "s3" sessions_call ws_token).2 in
  s'.(dispatched) = ws_token.(dispatched) ∨
  ∃ name m, s'.(dispatched) = ws_token.(dispatched) ++ [("s3", name)] ∧ method_lookup demo_services name = Ret m ∧
    eve_conn.(handshake) = true ∧
    (m.(no_auth_required) = true ∨
     valid_session 14 "s3" ws_token.(auth) ∧ "s3" ∈ s'.(auth).(authenticated)).
Proof.
  do 3 (split; [vm_compute; reflexivity|]).
  apply (ws_guard demo_services demo_sources demo_errname (λ _, PNone) (λ _, Ret EmptyString) false "" 0 ws_token "s3" eve_conn 14 sessions_call).
  - apply ws_token_reach.
  - vm_compute. reflexivity.
Defined.

Definition bob : App := mkApp "s2" false "192.0.2.8" 5001 None None.

Lemma ws_handler_cleans_up_witness :
  ∃ s', ws_handler demo_services demo_sources demo_errname (λ _, PNone) (λ _, Ret EmptyString) false "" 0 bob [(5%Z, connect_text); (6%Z, FrameError)] ws_logged_in =
      (Ret tt, s') ∧
    s'.(wsclients) !! "s2" = None ∧ "s2" ∉ s'.(auth).(authenticated).
Proof.
  apply (ws_handler_cleans_up demo_services demo_sources demo_errname (λ _, PNone) (λ _, Ret EmptyString) false "" 0 ws_logged_in bob
    [(5%Z, connect_text); (6%Z, FrameError)] ws_logged_in_reach).
  apply (bool_decide_unpack _). vm_compute. exact I.
Defined.

Lemma late_login_leaves_session_witness :
  ∃ s', run_auth bob (login_session 0 9 bob LoginPassword) ws_logged_in = (Ret tt, s') ∧ demo_reach s' ∧
    is_Some (s'.(auth).(sessions) !! "s2") ∧ s'.(wsclients) !! "s2" = None.
Proof.
  apply (late_login_leaves_session demo_services demo_sources demo_errname (λ _, PNone) (λ _, Ret EmptyString) false "" 0 ws_logged_in bob 0 9 LoginPassword
    ws_logged_in_reach).
  - exact I.
  - vm_compute. reflexivity.
  - apply (bool_decide_unpack _). vm_compute. exact I.
Defined.

Definition ws_subscribed : WS :=
  (subscribe demo_sources "s1" (PStr "sub") (PStr "reporting.realtime") ws_logged_in).2.

Lemma ws_subscribed_inv : ws_inv ws_subscribed.
Proof. apply subscribe_inv. eapply ws_reach_inv, ws_logged_in_reach. Qed.

Lemma subscribe_drops_source_witness :
  ∃ s1 s2, subscribe demo_sources "s1" (PStr "sub") (PStr "filesystem.file_tail_follow:/x") ws_subscribed = (Ret tt, s1) ∧
    on_close "s1" s1 = (Ret tt, s2) ∧ 0 ∉ s2.(cancelled).
Proof.
  apply (subscribe_drops_source demo_sources ws_subscribed "s1" (mkConn ann true false 1 [(PStr "sub", ("reporting.realtime", 0))] [])
    (PStr "sub") "reporting.realtime" 0 "filesystem.file_tail_follow:/x" ws_subscribed_inv);
    try discriminate; try (vm_compute; reflexivity).
  - apply (bool_decide_unpack _). vm_compute. exact I.
Defined.

(** The same connection as a client that asked for pickled exceptions. *)
Definition py_connect : Frame :=
  FrameText 60 (Ret (PDict [("msg", PStr "connect"); ("version", PStr "1"); ("features", PList [PStr "PY_EXCEPTIONS"])])).

Definition ws_python : WS := (demo_frame 3 "s1" py_connect ws_logged_in).2.

(** An exception that [pickle.dumps] refuses leaves the client without an answer. *)
Example unpicklable_never_answered :
  ws_python.(wsclients) !! "s1" = Some (mkConn ann true true 1 [] []) ∧
  call_method demo_errname (λ _, PNone) (λ _, Raise (TypeError "cannot pickle")) "s1" sessions_call
    (Completed (Raise (ValueError "x"))) ws_python = (Raise (TypeError "cannot pickle"), ws_python).
Proof. split; vm_compute; reflexivity. Qed.

