(* ===== verification/WebTerminal.v ===== *)
(** * The web terminal: plugins/webterminal.py

    Tickets are minted over the authenticated websocket ([get_ticket]: for the root
    shell [pass_gate] reads the configuration, which gives up the event loop, and
    [mint_ticket] follows) and consumed when a client connects ([connect], the part
    of [ws_handler] up to the start of the session, which runs without giving up the
    event loop); [greet] sends the answer, [client_message] is one turn of the
    receive loop, [finish_pop], [reap] and [finish_close] its [finally] clause, which
    gives up the loop in [reap]; [reader_turn] and [writer_turn] are the two threads
    that bridge the pseudo terminal.  Starting the thread, sending the answer and
    [_reap] may raise: the handler then ends where it is ([Abandoned]).  The
    monotonic clock is an argument [now]. *)

From S2P Require Import Prelude PyValue Filter.

Definition SHELL_TICKET_TTL : Z := 15.
Definition MAX_CONCURRENT_SESSIONS : nat := 8.
Definition IDLE_TIMEOUT : Z := 3600.

Definition EPERM : Z := 1.
Definition EIO : Z := 5.
Definition EAGAIN : Z := 35.
Definition EACCES : Z := 13.

(** ** What is attached *)

Inductive Target : Type := TShell | TJail | TVm | TProcesses.

#[global] Instance Target_eq_dec : EqDecision Target.
Proof. solve_decision. Defined.

Definition target_name (t : Target) : string :=
  match t with TShell => "shell" | TJail => "jail" | TVm => "vm" | TProcesses => "processes" end.

Record Opts : Type := mkOpts { jail : option string; vm_id : option Z; processes : bool }.

(** [_target] *)
Definition target (o : Opts) : outcome exn Target :=
  let selected :=
    (if o.(jail) then [TJail] else []) ++ (if o.(vm_id) then [TVm] else []) ++
    (if o.(processes) then [TProcesses] else []) in
  match selected with
  | [] => Ret TShell
  | [t] =>
      match t, o.(jail) with
      | TJail, Some j =>
          if String.eqb (PyStr.strip j) "" then Raise (CallError "A jail name is required." EFAULT PNone)
          else Ret TJail
      | t, _ => Ret t
      end
  | _ => Raise (CallError ("Only one option is supported from " +:+
                           String.concat ", " (map target_name selected)) EFAULT PNone)
  end.

(** [_get_command] *)
Definition get_command (t : Target) (o : Opts) (remote_addr : option string) : list pyval :=
  match t with
  | TJail => [PStr "/usr/local/bin/iocage"; PStr "console"; PStr "-f";
              match o.(jail) with Some j => PStr j | None => PNone end]
  | TVm => [PStr "/usr/bin/cu"; PStr "-l";
            PStr ("nmdm" +:+ match o.(vm_id) with Some n => pretty n | None => "None" end +:+ "B")]
  | TProcesses => [PStr "/usr/bin/top"]
  | TShell => [PStr "/usr/bin/login"; PStr "-p"; PStr "-f"; PStr "-h";
               PStr (match remote_addr with
                     | Some a => if PyStr.nonempty a then a else "unknown"
                     | None => "unknown"
                     end); PStr "root"]
  end.

(** ** Requests *)

Record Request : Type := mkRequest { peer : option string; forwarded : option string }.

(** [_real_remote] *)
Definition real_remote (r : Request) : option string :=
  if bool_decide (r.(peer) ∈ [Some "127.0.0.1"; Some "::1"]) then
    match r.(forwarded) with
    | Some f => if PyStr.nonempty f then Some f else r.(peer)
    | None => r.(peer)
    end
  else r.(peer).

(** ** State *)

Record Ticket : Type := mkTicket {
  remote : option string;
  tk_target : Target;
  options : Opts;
  deadline : Z;
}.

(** What the receive loop puts in the queue of a session. *)
Inductive Input : Type := Bytes (b : string) | Resize (cols rows : Z).

(** What the writer did to the pseudo terminal. *)
Inductive TtyAct : Type := Write (b : string) | SetSize (rows cols : Z).

(** [ShellSession2Thread], with the local variables of its handler. *)
Record Session : Type := mkSession {
  ses_target : Target;
  ses_remote : option string;
  read_only : bool;
  master_fd : nat;
  pid : Z;
  input_queue : list Input;
  last_activity : Z;
  die : bool;
  tty : list TtyAct;
}.

(** Where a handler is once it has a pseudo terminal: it sends its answer, it is in the
    receive loop, it is in the [finally] clause, or it ended by an exception before
    the end of that clause. *)
Inductive Stage : Type := Greeting | Receiving | Leaving | Abandoned.

#[global] Instance Stage_eq_dec : EqDecision Stage.
Proof. solve_decision. Defined.

Record Terminal : Type := mkTerminal {
  enabled : bool;
  tickets : gmap string Ticket;
  (** [ShellApplication2.sessions]: the sessions the limit counts. *)
  sessions : gset string;
  (** every handler that has a pseudo terminal, the ones being torn down too, and
      where it is *)
  handlers : gmap string Session;
  stages : gmap string Stage;
  open_fds : gset nat;
  syslog : list string;
}.

Definition with_tickets (f : gmap string Ticket → gmap string Ticket) (s : Terminal) : Terminal :=
  mkTerminal s.(enabled) (f s.(tickets)) s.(sessions) s.(handlers) s.(stages) s.(open_fds) s.(syslog).
Definition with_sessions (f : gset string → gset string) (s : Terminal) : Terminal :=
  mkTerminal s.(enabled) s.(tickets) (f s.(sessions)) s.(handlers) s.(stages) s.(open_fds) s.(syslog).
Definition with_handlers (f : gmap string Session → gmap string Session) (s : Terminal) : Terminal :=
  mkTerminal s.(enabled) s.(tickets) s.(sessions) (f s.(handlers)) s.(stages) s.(open_fds) s.(syslog).
Definition with_fds (f : gset nat → gset nat) (s : Terminal) : Terminal :=
  mkTerminal s.(enabled) s.(tickets) s.(sessions) s.(handlers) s.(stages) (f s.(open_fds)) s.(syslog).
Definition with_stages (f : gmap string Stage → gmap string Stage) (s : Terminal) : Terminal :=
  mkTerminal s.(enabled) s.(tickets) s.(sessions) s.(handlers) (f s.(stages)) s.(open_fds) s.(syslog).
Definition set_stage (sid : string) (g : Stage) (s : Terminal) : Terminal :=
  with_stages <[sid := g]> s.
Definition log_line (l : string) (s : Terminal) : Terminal :=
  mkTerminal s.(enabled) s.(tickets) s.(sessions) s.(handlers) s.(stages) s.(open_fds) (s.(syslog) ++ [l]).

Definition queue (f : list Input → list Input) (s : Session) : Session :=
  mkSession s.(ses_target) s.(ses_remote) s.(read_only) s.(master_fd) s.(pid) (f s.(input_queue)) s.(last_activity) s.(die) s.(tty).
Definition active (now : Z) (s : Session) : Session :=
  mkSession s.(ses_target) s.(ses_remote) s.(read_only) s.(master_fd) s.(pid) s.(input_queue) now s.(die) s.(tty).
Definition set_die (s : Session) : Session :=
  mkSession s.(ses_target) s.(ses_remote) s.(read_only) s.(master_fd) s.(pid) s.(input_queue) s.(last_activity) true s.(tty).
Definition on_tty (a : TtyAct) (s : Session) : Session :=
  mkSession s.(ses_target) s.(ses_remote) s.(read_only) s.(master_fd) s.(pid) s.(input_queue) s.(last_activity) s.(die) (s.(tty) ++ [a]).

(** ** [WebTerminalService] *)

(** [do_update] *)
Definition update (data : option bool) (s : Terminal) : Terminal :=
  mkTerminal (default s.(enabled) data) s.(tickets) s.(sessions) s.(handlers) s.(stages) s.(open_fds) s.(syslog).

(** [_prune] *)
Definition prune (now : Z) (s : Terminal) : Terminal :=
  with_tickets (filter (λ kv, ¬ (kv.2.(deadline) < now)%Z)) s.

(** [get_ticket] up to the gate: what is asked for, and for the root shell whether the
    feature is enabled, as [self.config()] reads it. *)
Definition pass_gate (o : Opts) (s : Terminal) : outcome exn Target :=
  t ← target o;
  if bool_decide (t = TShell) && negb s.(enabled)
  then Raise (CallError "The web terminal is not enabled." EPERM PNone)
  else Ret t.

(** The rest of [get_ticket]; [fresh_ticket] is the random string. *)
Definition mint_ticket (now : Z) (fresh_ticket : string) (request : Request) (t : Target) (o : Opts) (s : Terminal) : Terminal :=
  with_tickets <[fresh_ticket := mkTicket (real_remote request) t o (now + SHELL_TICKET_TTL)]> (prune now s).

(** [get_ticket], when nothing else runs while the configuration is read. *)
Definition get_ticket (now : Z) (fresh_ticket : string) (request : Request) (o : Opts) : M Terminal exn string := λ s,
  match pass_gate o s with
  | Raise e => (Raise e, s)
  | Ret t => (Ret fresh_ticket, mint_ticket now fresh_ticket request t o s)
  end.

(** [pop_ticket] *)
Definition pop_ticket (now : Z) (ticket : string) (rem : option string) (s : Terminal) : option Ticket * Terminal :=
  let s := prune now s in
  let data := s.(tickets) !! ticket in
  let s := with_tickets (delete ticket) s in
  (match data with
   | None => None
   | Some d => if bool_decide (d.(remote) = rem) then Some d else None
   end, s).

(** ** Connecting *)

(** [bytes.decode(errors='ignore')]: the well-formed UTF-8 sequences, the other
    bytes dropped. *)
Definition between (lo hi : nat) (c : ascii) : bool :=
  let n := Ascii.nat_of_ascii c in ((lo <=? n) && (n <=? hi))%nat.
Definition cont : ascii → bool := between 128 191.

Definition utf8_2 (a b : ascii) : bool := between 194 223 a && cont b.
Definition utf8_3 (a b c : ascii) : bool :=
  (between 224 224 a && between 160 191 b || between 225 236 a && cont b ||
   between 237 237 a && between 128 159 b || between 238 239 a && cont b) && cont c.
Definition utf8_4 (a b c d : ascii) : bool :=
  (between 240 240 a && between 144 191 b || between 241 243 a && cont b ||
   between 244 244 a && between 128 143 b) && cont c && cont d.

Fixpoint decode_ignore (s : string) : string :=
  match s with
  | "" => ""
  | String a s1 =>
      if between 0 127 a then String a (decode_ignore s1)
      else
        match s1 with
        | "" => ""
        | String b s2 =>
            if utf8_2 a b then String a (String b (decode_ignore s2))
            else
              match s2 with
              | "" => decode_ignore s1
              | String c s3 =>
                  if utf8_3 a b c then String a (String b (String c (decode_ignore s3)))
                  else
                    match s3 with
                    | "" => decode_ignore s1
                    | String d s4 =>
                        if utf8_4 a b c d then String a (String b (String c (String d (decode_ignore s4))))
                        else decode_ignore s1
                    end
              end
        end
  end.

(** The first frame: none in time, text, bytes, or one that closes. *)
Inductive Frame : Type := NoFrame | TextFrame (s : string) | BinaryFrame (b : string) | OtherFrame.

(** What the system did of [_spawn]: [openpty] failed; [Popen] raised one of the
    errors that are caught ([err] its [errno]) or another one; or it started [pid]. *)
Inductive Spawned : Type :=
| PtyError (err : option Z) (text : string)
| PopenError (master slave : nat) (err : option Z) (text : string)
| PopenRaise (master slave : nat) (e : exn)
| Started (master slave : nat) (pid : Z).

Inductive SpawnResult : Type := SpawnFailed (err : option Z) (text : string) | SpawnRaised (e : exn) | SpawnOk (pid : Z) (master : nat).

(** [_spawn] *)
Definition spawn (sys : Spawned) (s : Terminal) : SpawnResult * Terminal :=
  match sys with
  | PtyError err text => (SpawnFailed err text, s)
  | PopenError m sl err text =>
      (SpawnFailed err text, with_fds (λ f, f ∖ {[sl]}) (with_fds (λ f, f ∖ {[m]}) (with_fds (λ f, {[m; sl]} ∪ f) s)))
  | PopenRaise m sl e =>
      (SpawnRaised e, with_fds (λ f, f ∖ {[sl]}) (with_fds (λ f, f ∖ {[m]}) (with_fds (λ f, {[m; sl]} ∪ f) s)))
  | Started m sl p => (SpawnOk p m, with_fds (λ f, f ∖ {[sl]}) (with_fds (λ f, {[m; sl]} ∪ f) s))
  end.

Inductive Reply : Type := Closed | Failed (err : Z) (reason : string) | Connected (id : string).

Definition remote_text (r : option string) : string := default "None" r.

Definition command_name (command : list pyval) : string :=
  match command with PStr c :: _ => c | _ => "" end.

(** [ws_handler], once the ticket is accepted, up to the start of the session; [sid] is
    the [uuid4], [thread] whether the thread could be started. *)
Definition open_session (now : Z) (sid : string) (tk : Ticket) (sys : Spawned) (thread : bool) : M Terminal exn Reply := λ s,
  if bool_decide (MAX_CONCURRENT_SESSIONS ≤ size s.(sessions)) then
    (Ret (Failed EAGAIN "Too many concurrent terminal sessions"), s)
  else
    let t := tk.(tk_target) in
    let read_only := bool_decide (t = TProcesses) in
    let command := get_command t tk.(options) tk.(remote) in
    let s := log_line ("webterminal: session " +:+ sid +:+ " opening " +:+ target_name t +:+ " (" +:+
                       command_name command +:+ ") for remote " +:+ remote_text tk.(remote)) s in
    match spawn sys s with
    | (SpawnFailed err text, s) =>
        (Ret (Failed (match err with Some 0%Z | None => EIO | Some e => e end)
                     ("Unable to start the terminal: " +:+ text)), s)
    | (SpawnRaised e, s) => (Raise e, s)
    | (SpawnOk pid m, s) =>
        let session := mkSession t tk.(remote) read_only m pid [] now false [] in
        let s := with_sessions (λ x, {[sid]} ∪ x) (with_handlers <[sid := session]> s) in
        if thread then (Ret (Connected sid), set_stage sid Greeting s)
        else (Raise (RuntimeError "can't start new thread"), set_stage sid Abandoned s)
    end.

(** The string a first frame presents as a ticket. *)
Definition presented (first : Frame) : option string :=
  match first with
  | NoFrame | OtherFrame => None
  | TextFrame t => Some (PyStr.strip t)
  | BinaryFrame b => Some (PyStr.strip (decode_ignore b))
  end.

(** [ws_handler] up to the reply. *)
Definition connect (now : Z) (sid : string) (request : Request) (first : Frame) (sys : Spawned) (thread : bool) :
    M Terminal exn Reply := λ s,
  match presented first with
  | None => (Ret Closed, s)
  | Some ticket =>
      match pop_ticket now ticket (real_remote request) s with
      | (None, s) => (Ret (Failed EACCES "Invalid or expired ticket"), s)
      | (Some tk, s) => open_session now sid tk sys thread s
      end
  end.

(** [await ws.send_json({'msg': 'connected', ...})]: when the connection is gone it
    raises, before the [try] whose [finally] clause cleans up. *)
Definition greet (sid : string) (sent : bool) (s : Terminal) : Terminal :=
  set_stage sid (if sent then Receiving else Abandoned) s.

(** ** The receive loop *)

(** [int(v)] on a JSON value; [None] for [TypeError] and [ValueError]. *)
Definition int_of (v : pyval) : option Z :=
  match v with
  | PInt z => Some z
  | PBool b => Some (if b then 1 else 0)%Z
  | PStr s => py_int s
  | _ => None
  end.

(** [_handle_control]; the message parsed, [None] if it is not JSON. *)
Definition handle_control (msg : option pyval) (s : Session) : Session :=
  match msg with
  | Some (PDict d) =>
      match dget d "resize" with
      | Some (PDict r) =>
          match (c ← dget r "cols"; int_of c), (w ← dget r "rows"; int_of w) with
          | Some cols, Some rows => queue (λ q, q ++ [Resize cols rows]) s
          | _, _ => s
          end
      | _ => s
      end
  | _ => s
  end.

Inductive ClientMsg : Type := MBinary (b : string) | MText (parsed : option pyval) | MOther.

(** One turn of [async for msg in ws]; [false] when the loop is left. *)
Definition client_message (sid : string) (m : ClientMsg) (s : Terminal) : bool * Terminal :=
  match m with
  | MBinary b =>
      (true, with_handlers (alter (λ h, if h.(read_only) then h else queue (λ q, q ++ [Bytes b]) h) sid) s)
  | MText j => (true, with_handlers (alter (handle_control j) sid) s)
  | MOther => (false, s)
  end.

(** ** The threads *)

Inductive ReadResult : Type := ReadError | Read (b : string) (sent : bool).

(** One turn of [_reader]; the [finally] clause runs when the loop is left. *)
Definition reader_turn (now : Z) (r : ReadResult) (h : Session) : bool * Session :=
  match r with
  | ReadError => (false, set_die h)
  | Read b sent =>
      if String.eqb b "" then (false, set_die h)
      else if sent then (true, active now h) else (false, set_die (active now h))
  end.

(** [struct.pack('H', n)] accepts [n]; otherwise it raises [struct.error], which is
    not an [OSError]: the thread ends with it. *)
Definition ushort (n : Z) : bool := Z.leb 0 n && Z.leb n 65535.

(** One turn of [_writer]: [alive] is [kill(pid, 0)] when the queue stayed empty,
    [ok] whether the write succeeds. *)
Definition writer_turn (now : Z) (alive ok : bool) (h : Session) : bool * Session :=
  if h.(die) then (false, h)
  else
    match h.(input_queue) with
    | [] =>
        if negb alive then (false, h)
        else (negb (Z.ltb IDLE_TIMEOUT (now - h.(last_activity))), h)
    | item :: rest =>
        let h := active now (queue (λ _, rest) h) in
        match item with
        | Resize cols rows =>
            if ushort rows && ushort cols
            then (true, if ok then on_tty (SetSize rows cols) h else h)
            else (false, h)
        | Bytes b => if ok then (true, on_tty (Write b) h) else (false, h)
        end
    end.

(** ** Leaving *)

(** [self.sessions.pop(session_id, None)] and [t_session.die()], before the first
    point at which the handler gives up the loop. *)
Definition finish_pop (sid : string) (s : Terminal) : Terminal :=
  set_stage sid Leaving (with_handlers (alter set_die sid) (with_sessions (λ x, x ∖ {[sid]}) s)).

Inductive ReapAct : Type := SigTerm | WaitExit | SigKill | Poll | Sleep | JoinThread.

(** The polls: up to three, until one reports the child. *)
Fixpoint polls (n : nat) (answers : list bool) : list ReapAct :=
  match n with
  | 0 => []
  | S n => match answers with
           | true :: _ => [Poll]
           | _ => Poll :: Sleep :: polls n (tail answers)
           end
  end.

(** [_reap]: [gone] when [SIGTERM] finds no process, [exited] when the exit is
    reported within the first wait, [gone2] when [SIGKILL] finds no process. *)
Definition reap (gone exited gone2 : bool) (answers : list bool) : list ReapAct :=
  (if gone then [SigTerm]
   else [SigTerm; WaitExit] ++
        if exited then [] else [SigKill] ++ (if gone2 then [] else [WaitExit])) ++
  polls 3 answers ++ [JoinThread].

(** [_reap] raised: the rest of the [finally] clause is skipped. *)
Definition reap_failed (sid : string) (s : Terminal) : Terminal := set_stage sid Abandoned s.

(** The rest of the [finally] clause. *)
Definition finish_close (sid : string) (s : Terminal) : Terminal :=
  match s.(handlers) !! sid with
  | None => s
  | Some h =>
      log_line ("webterminal: session " +:+ sid +:+ " closed for remote " +:+ remote_text h.(ses_remote))
        (with_stages (delete sid) (with_handlers (delete sid) (with_fds (λ f, f ∖ {[h.(master_fd)]}) s)))
  end.
