(* ===== verification/WebTerminalFacts.v ===== *)
(** * Theorems on the web terminal

    The executions are sequences of the atomic steps of the event loop and of
    the threads; the trace keeps the gates that were passed, the tickets that were
    minted, the attempts to connect and the handlers that ended by an exception.  A
    session exists only for a ticket that was minted for the same remote address at
    most [SHELL_TICKET_TTL] seconds before and not presented since; there are never
    more than [MAX_CONCURRENT_SESSIONS] sessions, the pseudo terminals that are open
    are those of handlers, and the process viewer is never written to. *)

From S2P Require Import Prelude PyValue Filter WebTerminal.

(** ** Executions *)

(** Why a handler ended before it could clean up. *)
Inductive Failure : Type := NoThread | AnswerNotSent | ReapRaised.

Inductive Event : Type :=
| GatePassed (now : Z) (r : Request) (o : Opts) (t : Target) (was_enabled : bool)
| Minted (now : Z) (ticket : string) (rem : option string) (t : Target)
| Presented (now : Z) (ticket : string) (rem : option string) (reply : outcome exn Reply) (after : Terminal)
| HandlerFailed (now : Z) (sid : string) (why : Failure).

Definition term_init (en : bool) : Terminal := mkTerminal en ∅ ∅ ∅ ∅ ∅ [].

(** What [openpty] promises: two descriptors that are not open. *)
Definition fresh_fds (sys : Spawned) (s : Terminal) : Prop :=
  match sys with
  | PtyError _ _ => True
  | PopenError m sl _ _ | PopenRaise m sl _ | Started m sl _ =>
      m ≠ sl ∧ m ∉ s.(open_fds) ∧ sl ∉ s.(open_fds)
  end.

(** What a connection attempt adds to the trace: when the thread could not be started,
    that the handler failed. *)
Definition connect_events (c : Z) (sid k : string) (rem : option string) (o : outcome exn Reply) (s' : Terminal) : list Event :=
  (if decide (s'.(stages) !! sid = Some Abandoned) then [HandlerFailed c sid NoThread] else []) ++ [Presented c k rem o s'].

(** [run c w tr s]: the state [s] at clock [c] after the events [tr], latest first;
    [w] are the calls of [get_ticket] that have passed the gate and have not minted
    their ticket yet. *)
Inductive run : Z → list (Request * Opts * Target) → list Event → Terminal → Prop :=
| run_init c en : run c [] [] (term_init en)
| run_tick c c' w tr s : run c w tr s → (c ≤ c')%Z → run c' w tr s
| run_update c w tr s d : run c w tr s → run c w tr (update d s)
| run_gate c w tr s r o t :
    run c w tr s → pass_gate o s = Ret t → run c ((r, o, t) :: w) (GatePassed c r o t s.(enabled) :: tr) s
| run_mint c w1 w2 tr s k r o t :
    run c (w1 ++ (r, o, t) :: w2) tr s → run c (w1 ++ w2) (Minted c k (real_remote r) t :: tr) (mint_ticket c k r t o s)
| run_no_frame c w tr s sid r f sys th :
    run c w tr s → presented f = None → run c w tr (connect c sid r f sys th s).2
| run_connect c w tr s sid r f k sys th :
    run c w tr s → presented f = Some k → s.(handlers) !! sid = None → fresh_fds sys s →
    run c w (connect_events c sid k (real_remote r) (connect c sid r f sys th s).1 (connect c sid r f sys th s).2 ++ tr)
          (connect c sid r f sys th s).2
| run_greet c w tr s sid (sent : bool) :
    run c w tr s → s.(stages) !! sid = Some Greeting →
    run c w ((if sent then [] else [HandlerFailed c sid AnswerNotSent]) ++ tr) (greet sid sent s)
| run_message c w tr s sid m : run c w tr s → s.(stages) !! sid = Some Receiving → run c w tr (client_message sid m s).2
| run_reader c w tr s sid r : run c w tr s → run c w tr (with_handlers (alter (λ h, (reader_turn c r h).2) sid) s)
| run_writer c w tr s sid alive ok :
    run c w tr s → run c w tr (with_handlers (alter (λ h, (writer_turn c alive ok h).2) sid) s)
| run_pop c w tr s sid : run c w tr s → s.(stages) !! sid = Some Receiving → run c w tr (finish_pop sid s)
| run_reap_failed c w tr s sid :
    run c w tr s → s.(stages) !! sid = Some Leaving → run c w (HandlerFailed c sid ReapRaised :: tr) (reap_failed sid s)
| run_close c w tr s sid : run c w tr s → s.(stages) !! sid = Some Leaving → run c w tr (finish_close sid s).

(** ** Tickets *)

(** A call for the target [t] from the address [rem] had passed the gate by the time
    [m]: for the root shell, the feature was enabled then. *)
Definition gate_passed (tr : list Event) (rem : option string) (t : Target) (m : Z) : Prop :=
  ∃ g r o en, GatePassed g r o t en ∈ tr ∧ (g ≤ m)%Z ∧ real_remote r = rem ∧ target o = Ret t ∧ (t = TShell → en = true).

(** The ticket [k] was minted with these data, by the clock [c], and not presented
    since. *)
Definition minted_for (c : Z) (tr : list Event) (k : string) (tk : Ticket) : Prop :=
  ∃ post pre m, tr = post ++ Minted m k tk.(remote) tk.(tk_target) :: pre ∧
    gate_passed pre tk.(remote) tk.(tk_target) m ∧ tk.(deadline) = (m + SHELL_TICKET_TTL)%Z ∧ (m ≤ c)%Z ∧
    ∀ n r reply after, Presented n k r reply after ∉ post.

Definition tickets_ok (c : Z) (tr : list Event) (s : Terminal) : Prop :=
  ∀ k tk, s.(tickets) !! k = Some tk → minted_for c tr k tk.

Definition waiting_ok (c : Z) (w : list (Request * Opts * Target)) (tr : list Event) : Prop :=
  ∀ r o t, (r, o, t) ∈ w → gate_passed tr (real_remote r) t c.

Lemma gate_passed_mono tr tr' rem t m m' :
  (∀ e, e ∈ tr → e ∈ tr') → (m ≤ m')%Z → gate_passed tr rem t m → gate_passed tr' rem t m'.
Proof. intros Ht Hm (g & r & o & en & Hin & Hg & Hr). exists g, r, o, en. split_and!; [by apply Ht|lia|apply Hr..]. Qed.

Lemma waiting_mono c c' w tr tr' : (∀ e, e ∈ tr → e ∈ tr') → (c ≤ c')%Z → waiting_ok c w tr → waiting_ok c' w tr'.
Proof. intros Ht Hc Hw r o t Hin. eapply gate_passed_mono; eauto. Qed.

Lemma minted_for_app c l tr k tk :
  minted_for c tr k tk → (∀ n r reply after, Presented n k r reply after ∉ l) → minted_for c (l ++ tr) k tk.
Proof.
  intros (post & pre & m & -> & Hg & Hd & Hm & Hp) Hl. exists (l ++ post), pre, m. rewrite <- (assoc_L (++)).
  split_and!; try done. intros n r reply after [Hin|Hin]%elem_of_app; [by eapply Hl|by eapply Hp].
Qed.

Lemma minted_for_tick c c' tr k tk : (c ≤ c')%Z → minted_for c tr k tk → minted_for c' tr k tk.
Proof.
  intros Hc (post & pre & m & Htr & Hg & Hd & Hm & Hp). exists post, pre, m.
  split_and!; try done. lia.
Qed.

Lemma prune_tickets now s k tk :
  (prune now s).(tickets) !! k = Some tk ↔ s.(tickets) !! k = Some tk ∧ (now ≤ tk.(deadline))%Z.
Proof. unfold prune; simpl. rewrite map_lookup_filter_Some; simpl. naive_solver lia. Qed.

Lemma pass_gate_Ret o s t : pass_gate o s = Ret t → target o = Ret t ∧ (t = TShell → s.(enabled) = true).
Proof.
  unfold pass_gate. destruct (target o) as [t'|e]; [|done]. cbn [mbind outcome_bind]. case_bool_decide as Hs; simpl.
  - destruct (enabled s) eqn:He; [|done]. by intros [= <-].
  - intros [= <-]. done.
Qed.

Lemma spawn_fields sys s :
  let s' := (spawn sys s).2 in
  s'.(tickets) = s.(tickets) ∧ s'.(sessions) = s.(sessions) ∧ s'.(handlers) = s.(handlers).
Proof. by destruct sys. Qed.

Lemma open_session_tickets now sid tk sys th s : (open_session now sid tk sys th s).2.(tickets) = s.(tickets).
Proof.
  unfold open_session. case_bool_decide; [done|]. cbv zeta. set (s1 := log_line _ s).
  pose proof (spawn_fields sys s1) as (Ht & _). destruct (spawn sys s1) as [[] ?]; try done. by destruct th.
Qed.

(** A presented ticket leaves the table whatever the outcome; no ticket enters. *)
Lemma connect_tickets now sid r f k sys th s k' tk :
  presented f = Some k → (connect now sid r f sys th s).2.(tickets) !! k' = Some tk →
  k' ≠ k ∧ s.(tickets) !! k' = Some tk.
Proof.
  intros Hf. unfold connect, pop_ticket. rewrite Hf. cbv zeta.
  assert (∀ s1, tickets s1 = delete k (prune now s).(tickets) → tickets s1 !! k' = Some tk →
    k' ≠ k ∧ s.(tickets) !! k' = Some tk) as Hd.
  { intros s1 -> [Hk Hl]%lookup_delete_Some. apply prune_tickets in Hl as [Hl _]. done. }
  destruct ((prune now s).(tickets) !! k) as [d|]; [|by apply Hd].
  case_bool_decide; [|by apply Hd]. apply Hd. by rewrite open_session_tickets.
Qed.

Lemma connect_accepts now sid r f k sys th s id :
  presented f = Some k → (connect now sid r f sys th s).1 = Ret (Connected id) →
  ∃ tk h, s.(tickets) !! k = Some tk ∧ (now ≤ tk.(deadline))%Z ∧ tk.(remote) = real_remote r ∧
    (connect now sid r f sys th s).2.(handlers) !! id = Some h ∧ h.(ses_target) = tk.(tk_target).
Proof.
  intros Hf. unfold connect, pop_ticket. rewrite Hf. cbv zeta.
  destruct ((prune now s).(tickets) !! k) as [tk|] eqn:Hk; [|done]. apply prune_tickets in Hk as [Hk Hd].
  case_bool_decide as Hr; [|done]. unfold open_session. case_bool_decide; [done|]. cbv zeta.
  destruct (spawn sys _) as [[| |p m] s1]; [done..|]. destruct th; [|done]. simpl. intros [= <-].
  exists tk. eexists. split_and!; [done..| |]; [apply lookup_insert_eq|done].
Qed.

(** What a granted connection shows of the events before it. *)
Definition granted (n : Z) (k : string) (rem : option string) (id : string) (after : Terminal) (tr : list Event) : Prop :=
  ∃ post pre m t h, tr = post ++ Minted m k rem t :: pre ∧
    (∀ n' r' reply' after', Presented n' k r' reply' after' ∉ post) ∧
    (m ≤ n ≤ m + SHELL_TICKET_TTL)%Z ∧ gate_passed pre rem t m ∧
    after.(handlers) !! id = Some h ∧ h.(ses_target) = t.

Fixpoint trace_ok (tr : list Event) : Prop :=
  match tr with
  | [] => True
  | e :: tr' =>
      match e with
      | Presented n k rem (Ret (Connected id)) after => granted n k rem id after tr'
      | _ => True
      end ∧ trace_ok tr'
  end.

Lemma minted_granted c k tk tr after id h :
  minted_for c tr k tk → (c ≤ tk.(deadline))%Z → after.(handlers) !! id = Some h → h.(ses_target) = tk.(tk_target) →
  granted c k tk.(remote) id after tr.
Proof.
  intros (post & pre & m & -> & Hg & Hd & Hm & Hp) Hc Hh Ht. rewrite Hd in Hc.
  exists post, pre, m, tk.(tk_target), h. done.
Qed.

Lemma tickets_app c l tr s s' :
  (∀ k tk, s'.(tickets) !! k = Some tk → s.(tickets) !! k = Some tk ∧ ∀ n r reply after, Presented n k r reply after ∉ l) →
  tickets_ok c tr s → tickets_ok c (l ++ tr) s'.
Proof. intros Hs Hok k tk [Hk Hl]%Hs. apply minted_for_app; [by apply Hok|done]. Qed.

(** The three facts that hold throughout. *)
Record tickets_inv (c : Z) (w : list (Request * Opts * Target)) (tr : list Event) (s : Terminal) : Prop := {
  ti_tickets : tickets_ok c tr s;
  ti_waiting : waiting_ok c w tr;
  ti_trace : trace_ok tr;
}.

(** A step that adds events of other kinds and no ticket. *)
Lemma tickets_inv_step c c' w l tr s s' :
  (c ≤ c')%Z → (∀ k tk, s'.(tickets) !! k = Some tk → s.(tickets) !! k = Some tk) →
  Forall (λ e, match e with Presented _ _ _ _ _ => False | _ => True end) l →
  tickets_inv c w tr s → tickets_inv c' w (l ++ tr) s'.
Proof.
  intros Hc Hs Hl [Ht Hw Ho]. split.
  - eapply tickets_app; [|intros k tk Hk; eapply minted_for_tick; [exact Hc|by apply Ht]].
    intros k tk Hk. split; [by apply Hs|]. intros n r reply after Hin. rewrite Forall_forall in Hl. exact (Hl _ Hin).
  - eapply waiting_mono; [|exact Hc|done]. intros e He. apply elem_of_app. by right.
  - clear Ht Hw. induction Hl as [|e l He _ IH]; [done|]. split; [by destruct e|done].
Qed.

Lemma tickets_inv_mint c w1 w2 tr s k r o t :
  tickets_inv c (w1 ++ (r, o, t) :: w2) tr s →
  tickets_inv c (w1 ++ w2) (Minted c k (real_remote r) t :: tr) (mint_ticket c k r t o s).
Proof.
  intros [Ht Hw Ho]. assert (Hg : gate_passed tr (real_remote r) t c) by (apply (Hw r o); rewrite elem_of_app; right; by left). split.
  - intros k' tk. unfold mint_ticket; simpl. intros [[<- <-]|[Hne Hl]]%lookup_insert_Some.
    + exists [], tr, c. split_and!; try done. intros ????. apply not_elem_of_nil.
    + apply (minted_for_app c [_]).
      * apply prune_tickets in Hl as [Hl _]. by apply Ht.
      * intros ????. by rewrite list_elem_of_singleton.
  - intros r' o' t' Hin. eapply (gate_passed_mono tr); [by right|reflexivity|]. apply (Hw r' o' t').
    rewrite elem_of_app in *. destruct Hin; [by left|right; by right].
  - done.
Qed.

Lemma tickets_inv_connect c w tr s sid r f k sys th :
  presented f = Some k → tickets_inv c w tr s →
  let s' := (connect c sid r f sys th s).2 in
  tickets_inv c w (connect_events c sid k (real_remote r) (connect c sid r f sys th s).1 s' ++ tr) s'.
Proof.
  intros Hf [Ht Hw Ho]. cbv zeta. unfold connect_events.
  assert (Hev : ∀ (o : outcome exn Reply) s' k' n r0 reply after, k' ≠ k →
    Presented n k' r0 reply after ∉ (if decide (s'.(stages) !! sid = Some Abandoned) then [HandlerFailed c sid NoThread] else []) ++ [Presented c k (real_remote r) o s']).
  { intros o s' k' n r0 reply after Hne [Hin|Hin%list_elem_of_singleton]%elem_of_app; [|congruence].
    destruct (decide _); [by apply list_elem_of_singleton in Hin|by apply elem_of_nil in Hin]. }
  split.
  - eapply tickets_app; [|exact Ht]. intros k' tk Hk. eapply connect_tickets in Hk as [Hne Hk]; [|done]. split; [done|].
    intros n r0 reply after. by apply Hev.
  - eapply waiting_mono; [|reflexivity|done]. intros e He. apply elem_of_app. by right.
  - assert (Hp : trace_ok (Presented c k (real_remote r) (connect c sid r f sys th s).1 (connect c sid r f sys th s).2 :: tr)).
    { split; [|done]. destruct (connect c sid r f sys th s).1 as [[| |id]|] eqn:Hc; try done.
      eapply connect_accepts in Hc as (tk & h & Hk & Hd & <- & Hh & Htg); [|done].
      eapply minted_granted; [by apply Ht|done..]. }
    destruct (decide _); done.
Qed.

Lemma run_tickets_inv c w tr s : run c w tr s → tickets_inv c w tr s.
Proof.
  induction 1 as [c en|c c' w tr s _ IH Hc|c w tr s d _ IH|c w tr s r o t _ IH Hg|c w1 w2 tr s k r o t _ IH
    |c w tr s sid r f sys th _ IH Hf|c w tr s sid r f k sys th _ IH Hf Hsid Hfd
    |c w tr s sid sent _ IH Hst|c w tr s sid m _ IH Hst|c w tr s sid r _ IH|c w tr s sid alive ok _ IH|c w tr s sid _ IH Hst
    |c w tr s sid _ IH Hst|c w tr s sid _ IH Hst].
  - split; [by intros k tk|by intros r o t ?%elem_of_nil|done].
  - by apply (tickets_inv_step c c' w [] tr s).
  - by apply (tickets_inv_step c c w [] tr s).
  - apply pass_gate_Ret in Hg as [Ht He]. pose proof (tickets_inv_step c c w [GatePassed c r o t (enabled s)] tr s s) as H.
    destruct H as [Hk Hw Ho]; [done|done|by repeat constructor|done|]. split; [done| |done].
    intros r' o' t' [[= -> -> ->]|Hin]%elem_of_cons; [|by eapply Hw]. exists c, r, o, (enabled s). split_and!; try done. by left.
  - by apply tickets_inv_mint.
  - unfold connect. by rewrite Hf.
  - by apply tickets_inv_connect.
  - apply (tickets_inv_step c c w _ tr s); [done|done| |done]. destruct sent; by repeat constructor.
  - apply (tickets_inv_step c c w [] tr s); [done| |constructor|done]. by destruct m.
  - by apply (tickets_inv_step c c w [] tr s).
  - by apply (tickets_inv_step c c w [] tr s).
  - by apply (tickets_inv_step c c w [] tr s).
  - apply (tickets_inv_step c c w [_] tr s); [done|done|by repeat constructor|done].
  - apply (tickets_inv_step c c w [] tr s); [done| |constructor|done]. unfold finish_close. by destruct (handlers s !! sid).
Qed.

Lemma trace_ok_at tr tr' n k rem id after later :
  trace_ok tr → tr = later ++ Presented n k rem (Ret (Connected id)) after :: tr' → granted n k rem id after tr'.
Proof.
  intros Hok ->. induction later as [|e later IH]; simpl in Hok; [apply Hok|]. by apply IH, Hok.
Qed.

(** C4. Whenever a client was given a terminal, it had presented a ticket that had
    been minted, for the same remote address and for the very target it is attached
    to, at most [SHELL_TICKET_TTL] seconds before, and that nobody, successfully or
    not, had presented in between; and a call for that target from that address had
    passed the gate before the ticket was minted: if the target is the root shell, the
    feature was enabled when that call read the configuration (it may have been
    disabled since, the call gives up the event loop there). *)
Theorem ticket_single_use (c : Z) (w : list (Request * Opts * Target)) (tr later tr' : list Event) (s after : Terminal)
    (n : Z) (k : string) (rem : option string) (id : string)
    (Hrun : run c w tr s)
    (Htr : tr = later ++ Presented n k rem (Ret (Connected id)) after :: tr') :
  ∃ post pre m t h, tr' = post ++ Minted m k rem t :: pre ∧
    (∀ n' r' reply' after', Presented n' k r' reply' after' ∉ post) ∧
    (m ≤ n ≤ m + SHELL_TICKET_TTL)%Z ∧ gate_passed pre rem t m ∧
    after.(handlers) !! id = Some h ∧ h.(ses_target) = t.
Proof. apply run_tickets_inv in Hrun as [_ _ Hok]. by eapply trace_ok_at in Hok. Qed.

(** ** Sessions *)

Definition is_bytes (i : Input) : bool := match i with Bytes _ => true | Resize _ _ => false end.
Definition is_write (a : TtyAct) : bool := match a with Write _ => true | SetSize _ _ => false end.

(** A handler forwards no input when its target is the process viewer. *)
Record handler_ok (h : Session) : Prop := {
  ho_flag : h.(read_only) = bool_decide (h.(ses_target) = TProcesses);
  ho_quiet : h.(read_only) = true → existsb is_bytes h.(input_queue) = false ∧ existsb is_write h.(tty) = false;
}.

Record sessions_ok (s : Terminal) : Prop := {
  so_bound : size s.(sessions) ≤ MAX_CONCURRENT_SESSIONS;
  so_handlers : s.(sessions) ⊆ dom s.(handlers);
  so_fds fd : fd ∈ s.(open_fds) ↔ ∃ sid h, s.(handlers) !! sid = Some h ∧ h.(master_fd) = fd;
  so_masters i j h h' : s.(handlers) !! i = Some h → s.(handlers) !! j = Some h' → h.(master_fd) = h'.(master_fd) → i = j;
  so_ok sid h : s.(handlers) !! sid = Some h → handler_ok h;
  so_stages : dom s.(stages) = dom s.(handlers);
  so_leaving sid : s.(stages) !! sid = Some Leaving → sid ∉ s.(sessions);
}.

(** A step of a handler that keeps its descriptor and its own invariant. *)
Definition harmless (f : Session → Session) : Prop :=
  ∀ h, handler_ok h → handler_ok (f h) ∧ (f h).(master_fd) = h.(master_fd).

Lemma alter_keeps f sid s : harmless f → sessions_ok s → sessions_ok (with_handlers (alter f sid) s).
Proof.
  intros Hf [B D F M O G L].
  assert (∀ i h, alter f sid s.(handlers) !! i = Some h →
    ∃ h0, s.(handlers) !! i = Some h0 ∧ handler_ok h ∧ h.(master_fd) = h0.(master_fd)) as Hinv.
  { intros i h. rewrite lookup_alter_Some. intros [(<- & h0 & Hh0 & ->)|[Hne Hh]].
    - exists h0. split; [done|]. by apply Hf, (O sid).
    - exists h. split; [done|]. split; [by apply (O i)|done]. }
  split; simpl; [done| | | | | |done].
  - by rewrite dom_alter_L.
  - intros fd. rewrite F. split.
    + intros (i & h & Hh & <-). destruct (decide (i = sid)) as [->|Hne].
      * exists sid, (f h). split; [by rewrite lookup_alter_eq, Hh|]. by apply Hf, (O sid).
      * exists i, h. by rewrite lookup_alter_ne.
    + intros (i & h & Hh & <-). apply Hinv in Hh as (h0 & Hh0 & _ & ->). eauto.
  - intros i j h h' (h0 & Hh0 & _ & ->)%Hinv (h1 & Hh1 & _ & ->)%Hinv. by apply M.
  - by intros i h (h0 & _ & Hok & _)%Hinv.
  - by rewrite dom_alter_L.
Qed.

Lemma harmless_handle_control j : harmless (handle_control j).
Proof.
  intros h [F Q]. unfold handle_control.
  destruct j as [[| | | | |d]|]; try done. destruct (dget d "resize") as [[| | | | |r]|]; try done.
  destruct (dget r "cols" ≫= int_of), (dget r "rows" ≫= int_of); try done.
  split; [|done]. split; simpl; [done|]. intros Hr. destruct (Q Hr) as [Hq Ht]. by rewrite existsb_app, Hq.
Qed.

Lemma harmless_bytes b : harmless (λ h, if h.(read_only) then h else queue (λ q, q ++ [Bytes b]) h).
Proof.
  intros h [F Q]. destruct (read_only h) eqn:Hr; [by split; [split|]; rewrite ?Hr|].
  split; [|done]. split; simpl; by rewrite ?Hr.
Qed.

Lemma harmless_reader c r : harmless (λ h, (reader_turn c r h).2).
Proof. intros h [F Q]. unfold reader_turn. destruct r as [|b []]; [|destruct (String.eqb b "")..]; done. Qed.

Lemma harmless_writer c alive ok : harmless (λ h, (writer_turn c alive ok h).2).
Proof.
  intros h Hh. pose proof Hh as [F Q]. unfold writer_turn. destruct (die h); [done|].
  destruct (input_queue h) as [|[b|cols rows] rest] eqn:Hq; [by destruct (negb alive)|..].
  - assert (read_only h = false) as Hr by (destruct (read_only h); [destruct (Q eq_refl); simplify_eq/=|]; done).
    destruct ok; (split; [|done]); (split; simpl; [done|]); by rewrite Hr.
  - assert (read_only h = true → existsb is_bytes rest = false ∧ existsb is_write (tty h) = false) as Hrest.
    { intros Hr. apply (Q Hr). }
    destruct (ushort rows && ushort cols); [destruct ok|]; (split; [|done]); (split; simpl; [done|]); try done.
    intros Hr. destruct (Hrest Hr) as [Hb Ht]. by rewrite existsb_app, Ht.
Qed.

Lemma harmless_die : harmless set_die.
Proof. by intros h [F Q]. Qed.

#[local] Hint Resolve alter_keeps harmless_handle_control harmless_bytes harmless_reader harmless_writer harmless_die : core.

Lemma drop_session_keeps sid s : sessions_ok s → sessions_ok (with_sessions (λ x, x ∖ {[sid]}) s).
Proof.
  intros [B D F M O G L]. split; simpl; [|set_solver|done|done|done|done|intros i Hi%L; set_solver].
  etrans; [|exact B]. apply subseteq_size. set_solver.
Qed.

(** A handler goes from one stage to another. *)
Lemma set_stage_keeps sid g s :
  is_Some (s.(stages) !! sid) → (g = Leaving → sid ∉ s.(sessions)) → sessions_ok s → sessions_ok (set_stage sid g s).
Proof.
  intros Hi Hg [B D F M O G L]. split; simpl; try done.
  - rewrite dom_insert_L, <-G. apply elem_of_dom in Hi. set_solver.
  - intros i [[<- ->]|[Hne Hl]]%lookup_insert_Some; [by apply Hg|by apply L].
Qed.

Lemma finish_close_keeps sid s : s.(stages) !! sid = Some Leaving → sessions_ok s → sessions_ok (finish_close sid s).
Proof.
  intros Hs Hok. unfold finish_close. destruct (handlers s !! sid) as [h|] eqn:Hh; [|done].
  destruct Hok as [B D F M O G L]. pose proof (L _ Hs) as Hns. split; simpl; [done|set_solver| | | | |].
  - intros fd. rewrite elem_of_difference, F, elem_of_singleton. split.
    + intros [(i & h' & Hh' & <-) Hne]. exists i, h'. split; [|done].
      rewrite lookup_delete_ne; [done|]. intros ->. by simplify_eq.
    + intros (i & h' & [Hne Hh']%lookup_delete_Some & <-). split; [eauto|]. intros Heq. by eapply Hne, M.
  - intros i j h1 h2 [_ H1]%lookup_delete_Some [_ H2]%lookup_delete_Some. by apply M.
  - intros i h1 [_ H1]%lookup_delete_Some. by eapply O.
  - by rewrite !dom_delete_L, G.
  - intros i [_ Hi]%lookup_delete_Some. by apply L.
Qed.

Lemma with_tickets_keeps f s : sessions_ok s → sessions_ok (with_tickets f s).
Proof. by intros [B D F M O G L]. Qed.

Lemma log_line_keeps l s : sessions_ok s → sessions_ok (log_line l s).
Proof. by intros [B D F M O G L]. Qed.

Lemma with_fds_keeps f s : f s.(open_fds) = s.(open_fds) → sessions_ok s → sessions_ok (with_fds f s).
Proof. intros Hf [B D F M O G L]. split; simpl; try done. intros fd. by rewrite Hf. Qed.

(** A new handler on a descriptor that was not open. *)
Lemma register_keeps sid h g s :
  sessions_ok s → s.(handlers) !! sid = None → h.(master_fd) ∉ s.(open_fds) → handler_ok h → g ≠ Leaving →
  size s.(sessions) < MAX_CONCURRENT_SESSIONS →
  sessions_ok (set_stage sid g (with_sessions (λ x, {[sid]} ∪ x)
    (with_handlers <[sid := h]> (with_fds (λ x, {[h.(master_fd)]} ∪ x) s)))).
Proof.
  intros [B D F M O G L] Hsid Hfd Hh Hg Hlt.
  assert (∀ i h', s.(handlers) !! i = Some h' → h'.(master_fd) ≠ h.(master_fd)) as Hne.
  { intros i h' Hi Heq. apply Hfd, F. eauto. }
  split; simpl.
  - assert (sid ∉ s.(sessions)) by (apply not_elem_of_dom in Hsid; set_solver).
    rewrite size_union, size_singleton by set_solver. lia.
  - rewrite dom_insert_L. set_solver.
  - intros fd. rewrite elem_of_union, elem_of_singleton, F. split.
    + intros [->|(i & h' & Hi & <-)]; [exists sid, h; by rewrite lookup_insert_eq|].
      exists i, h'. rewrite lookup_insert_ne; [done|congruence].
    + intros (i & h' & [[<- <-]|[Hi Hl]]%lookup_insert_Some & <-); [by left|]. right. eauto.
  - intros i j h1 h2 [[<- <-]|[Hi Hl]]%lookup_insert_Some [[<- <-]|[Hj Hl']]%lookup_insert_Some Heq;
      [done|by destruct (Hne _ _ Hl')|by destruct (Hne _ _ Hl)|by eapply M].
  - intros i h' [[<- <-]|[Hi Hl]]%lookup_insert_Some; [done|by eapply O].
  - by rewrite !dom_insert_L, G.
  - intros i [[<- ->]|[Hi Hl]]%lookup_insert_Some; [done|]. apply L in Hl. set_solver.
Qed.

Lemma open_session_keeps c sid tk sys th s :
  sessions_ok s → s.(handlers) !! sid = None → fresh_fds sys s → sessions_ok (open_session c sid tk sys th s).2.
Proof.
  intros Hok Hsid Hfd. unfold open_session. case_bool_decide as Hlt; [done|]. cbv zeta.
  set (s1 := log_line _ s). assert (sessions_ok s1) as Hs1 by by apply log_line_keeps.
  destruct sys as [err text|m sl err text|m sl e|m sl p]; simpl in Hfd |- *; [done|..];
    destruct Hfd as (Hms & Hm & Hsl).
  1,2: change (sessions_ok (with_fds (λ x, (({[m; sl]} ∪ x) ∖ {[m]}) ∖ {[sl]}) s1));
    apply with_fds_keeps; [simpl; set_solver|done].
  set (h := mkSession _ _ _ m p [] c false []).
  assert (∀ g, g ≠ Leaving → sessions_ok (set_stage sid g (with_sessions (λ x, {[sid]} ∪ x)
    (with_handlers <[sid := h]> (with_fds (λ x, x ∖ {[sl]}) (with_fds (λ x, {[m; sl]} ∪ x) s1)))))) as Hreg.
  { intros g Hg. destruct (register_keeps sid h g s1) as [B D F M O G L]; try done; [simpl; lia|].
    split; simpl in *; try done. intros fd. rewrite <-F. set_solver. }
  destruct th; by apply Hreg.
Qed.

Lemma connect_keeps c sid r f sys th s :
  sessions_ok s → s.(handlers) !! sid = None → fresh_fds sys s → sessions_ok (connect c sid r f sys th s).2.
Proof.
  intros Hok Hsid Hfd. unfold connect, pop_ticket. destruct (presented f) as [k|]; [|done]. cbv zeta.
  set (s1 := with_tickets (delete k) (prune c s)). assert (sessions_ok s1) by (by do 2 apply with_tickets_keeps).
  destruct ((prune c s).(tickets) !! k) as [d|]; [|done]. case_bool_decide; [|done].
  apply open_session_keeps; [done..|]. by destruct sys.
Qed.

Lemma run_sessions_ok c w tr s : run c w tr s → sessions_ok s.
Proof.
  induction 1 as [c en|c c' w tr s _ IH Hc|c w tr s d _ IH|c w tr s r o t _ IH Hg|c w1 w2 tr s k r o t _ IH
    |c w tr s sid r f sys th _ IH Hf|c w tr s sid r f k sys th _ IH Hf Hsid Hfd
    |c w tr s sid sent _ IH Hst|c w tr s sid m _ IH Hst|c w tr s sid r _ IH|c w tr s sid alive ok _ IH|c w tr s sid _ IH Hst
    |c w tr s sid _ IH Hst|c w tr s sid _ IH Hst]; auto.
  - split; [vm_compute; lia|simpl; set_solver|simpl|done|done|done|done].
    intros fd. split; [set_solver|]. intros (i & h & Hh & _). done.
  - by destruct IH as [B D F M O G L].
  - unfold mint_ticket. by do 2 apply with_tickets_keeps.
  - unfold connect. by rewrite Hf.
  - by apply connect_keeps.
  - apply set_stage_keeps; [by eexists|by destruct sent|done].
  - destruct m; simpl; auto.
  - apply set_stage_keeps; [by eexists|simpl; set_solver|]. apply alter_keeps; [auto|]. by apply drop_session_keeps.
  - apply set_stage_keeps; [by eexists|done|done].
  - by apply finish_close_keeps.
Qed.

(** The handlers that are abandoned are those that failed. *)
Definition failures_ok (tr : list Event) (s : Terminal) : Prop :=
  ∀ sid, s.(stages) !! sid = Some Abandoned ↔ ∃ n why, HandlerFailed n sid why ∈ tr.

(** A step that gives a handler that is not abandoned another stage, and adds that it
    failed exactly when it is abandoned then. *)
Lemma failures_stage sid (g : option Stage) l tr s s' :
  failures_ok tr s → s.(stages) !! sid ≠ Some Abandoned →
  (∀ i, s'.(stages) !! i = if decide (i = sid) then g else s.(stages) !! i) →
  (∀ i, (∃ n why, HandlerFailed n i why ∈ l) ↔ i = sid ∧ g = Some Abandoned) →
  failures_ok (l ++ tr) s'.
Proof.
  intros Hf Hn Hs Hl i. rewrite Hs.
  assert ((∃ n why, HandlerFailed n i why ∈ l ++ tr) ↔ (∃ n why, HandlerFailed n i why ∈ l) ∨ ∃ n why, HandlerFailed n i why ∈ tr) as ->.
  { setoid_rewrite elem_of_app. naive_solver. }
  rewrite Hl, <- (Hf i). case_decide as Hi; [subst|]; naive_solver.
Qed.

Lemma failures_same l tr s s' :
  failures_ok tr s → s'.(stages) = s.(stages) → Forall (λ e, match e with HandlerFailed _ _ _ => False | _ => True end) l →
  failures_ok (l ++ tr) s'.
Proof.
  intros Hf Hs Hl i. rewrite Hs, (Hf i). setoid_rewrite elem_of_app. rewrite Forall_forall in Hl. split; [naive_solver|].
  intros (n & why & [Hin|Hin]); [by destruct (Hl _ Hin)|eauto].
Qed.

Lemma connect_stages c sid r f sys th s i :
  (connect c sid r f sys th s).2.(stages) !! i = (if decide (i = sid) then (connect c sid r f sys th s).2.(stages) !! sid else s.(stages) !! i).
Proof.
  case_decide as Hi; [by subst|]. unfold connect, pop_ticket. destruct (presented f) as [k|]; [|done]. cbv zeta.
  destruct ((prune c s).(tickets) !! k) as [d|]; [|done]. case_bool_decide; [|done].
  unfold open_session. case_bool_decide; [done|]. cbv zeta. destruct sys; try done. destruct th; simpl; by rewrite lookup_insert_ne.
Qed.

Lemma failures_connect c k sid rem o tr s s' :
  failures_ok tr s → s.(stages) !! sid = None →
  (∀ i, s'.(stages) !! i = if decide (i = sid) then s'.(stages) !! sid else s.(stages) !! i) →
  failures_ok (connect_events c sid k rem o s' ++ tr) s'.
Proof.
  intros Hf Hn Hs. unfold connect_events. rewrite <- (assoc_L (++)).
  apply (failures_stage sid (s'.(stages) !! sid) _ _ s); [|congruence|done|].
  - apply (failures_same [_] _ s s); [done|done|by repeat constructor].
  - intros i. destruct (decide _) as [Hd|Hd]; setoid_rewrite elem_of_cons || idtac; split.
    + intros (n & why & [Heq|Hin]); [by simplify_eq|by apply elem_of_nil in Hin].
    + intros [-> _]. exists c, NoThread. by left.
    + intros (n & why & Hin). by apply elem_of_nil in Hin.
    + intros [-> Hx]. congruence.
Qed.

Lemma run_failures_ok c w tr s : run c w tr s → failures_ok tr s.
Proof.
  intros Hrun. induction Hrun as [c en|c c' w tr s _ IH Hc|c w tr s d _ IH|c w tr s r o t _ IH Hg|c w1 w2 tr s k r o t _ IH
    |c w tr s sid r f sys th _ IH Hf|c w tr s sid r f k sys th Hr IH Hf Hsid Hfd
    |c w tr s sid sent _ IH Hst|c w tr s sid m _ IH Hst|c w tr s sid r _ IH|c w tr s sid alive ok _ IH|c w tr s sid _ IH Hst
    |c w tr s sid _ IH Hst|c w tr s sid _ IH Hst].
  - intros sid. split; [done|]. intros (? & ? & ?%elem_of_nil). done.
  - done.
  - done.
  - apply (failures_same [_] _ s); [done|done|by repeat constructor].
  - apply (failures_same [_] _ s); [done|done|by repeat constructor].
  - unfold connect. by rewrite Hf.
  - apply (failures_connect _ _ _ _ _ _ s); [done| |intros i; apply connect_stages].
    apply run_sessions_ok in Hr as [_ _ _ _ _ G _]. apply not_elem_of_dom. rewrite G. by apply not_elem_of_dom.
  - apply (failures_stage sid (Some (if sent then Receiving else Abandoned)) _ _ s); [done|congruence| |].
    + intros i. simpl. case_decide as Hi; [subst; apply lookup_insert_eq|by rewrite lookup_insert_ne].
    + intros i. destruct sent; split; try naive_solver.
      * intros (n & why & Hin). by apply elem_of_nil in Hin.
      * intros (n & why & Hin%list_elem_of_singleton). by simplify_eq.
      * intros [-> _]. exists c, AnswerNotSent. by left.
  - by destruct m.
  - done.
  - done.
  - apply (failures_stage sid (Some Leaving) [] _ s); [done|congruence| |].
    + intros i. simpl. case_decide as Hi; [subst; apply lookup_insert_eq|by rewrite lookup_insert_ne].
    + intros i. split; [|naive_solver]. intros (n & why & Hin). by apply elem_of_nil in Hin.
  - apply (failures_stage sid (Some Abandoned) [_] _ s); [done|congruence| |].
    + intros i. simpl. case_decide as Hi; [subst; apply lookup_insert_eq|by rewrite lookup_insert_ne].
    + intros i. split; [intros (n & why & Hin%list_elem_of_singleton); by simplify_eq|]. intros [-> _]. exists c, ReapRaised. by left.
  - unfold finish_close. destruct (handlers s !! sid); [|done]. apply (failures_stage sid None [] _ s); [done|congruence| |].
    + intros i. simpl. case_decide as Hi; [subst; apply lookup_delete_eq|by rewrite lookup_delete_ne].
    + intros i. split; [|naive_solver]. intros (n & why & Hin). by apply elem_of_nil in Hin.
Qed.


(** Whatever a client of the process viewer sends, nothing is ever written to
    its terminal, nor waits to be: the only things that reach it are changes of
    the window size. *)
Theorem viewer_is_read_only (c : Z) (w : list (Request * Opts * Target)) (tr : list Event) (s : Terminal) (sid : string) (h : Session)
    (Hrun : run c w tr s) (Hh : s.(handlers) !! sid = Some h) (Ht : h.(ses_target) = TProcesses) :
  (∀ b, Write b ∉ h.(tty)) ∧ (∀ b, Bytes b ∉ h.(input_queue)).
Proof.
  apply run_sessions_ok in Hrun. destruct (so_ok s Hrun _ _ Hh) as [F Q]. rewrite Ht in F.
  destruct (Q F) as [Hq Hw]. split; intros b Hin; apply list_elem_of_In in Hin.
  - enough (existsb is_write (tty h) = true) by congruence. apply existsb_exists. by exists (Write b).
  - enough (existsb is_bytes (input_queue h) = true) by congruence. apply existsb_exists. by exists (Bytes b).
Qed.

(** A client that asks for a window wider than a [ushort] ends the thread that
    forwards its input: [struct.pack] raises an error that is no [OSError]. *)
Theorem oversized_resize_stops_writer (now cols rows : Z) (alive ok : bool) (h : Session) (rest : list Input) :
  h.(die) = false → h.(input_queue) = Resize cols rows :: rest → (65535 < cols)%Z →
  (writer_turn now alive ok h).1 = false ∧ (writer_turn now alive ok h).2.(die) = false.
Proof.
  intros Hd Hq Hc. unfold writer_turn, ushort. rewrite Hd, Hq.
  rewrite (proj2 (Z.leb_gt cols 65535)) by done. by rewrite !andb_false_r.
Qed.

(** ** Witnesses: a viewer opened with a ticket, typed at and resized *)

Definition demo_request : Request := mkRequest (Some "127.0.0.1") (Some "10.0.0.5").
Definition demo_opts : Opts := mkOpts None None true.
Definition demo_minted : Terminal := (get_ticket 100 "tk" demo_request demo_opts (term_init false)).2.
Definition demo_open : Terminal := (connect 110 "s1" demo_request (TextFrame " tk ") (Started 7 8 400) true demo_minted).2.
Definition demo_tickets : list Event :=
  [Minted 100 "tk" (Some "10.0.0.5") TProcesses; GatePassed 100 demo_request demo_opts TProcesses false].
Definition demo_trace : list Event := Presented 110 "tk" (Some "10.0.0.5") (Ret (Connected "s1")) demo_open :: demo_tickets.

Lemma demo_run : run 110 [] demo_trace demo_open.
Proof.
  assert (run 100 [] demo_tickets demo_minted) as H1.
  { apply (run_mint 100 [] [] _ (term_init false) "tk" demo_request demo_opts TProcesses).
    apply (run_gate 100 [] [] (term_init false)); [constructor|done]. }
  apply (run_tick _ 110) in H1; [|done].
  apply (run_connect _ _ _ _ "s1" demo_request (TextFrame " tk ") "tk" (Started 7 8 400) true H1); [done|done|].
  split_and!; [done|vm_compute; set_solver..].
Qed.

Lemma ticket_single_use_witness :
  ∃ post pre m t h, demo_tickets = post ++ Minted m "tk" (Some "10.0.0.5") t :: pre ∧
    (∀ n' r' reply' after', Presented n' "tk" r' reply' after' ∉ post) ∧
    (m ≤ 110 ≤ m + SHELL_TICKET_TTL)%Z ∧ gate_passed pre (Some "10.0.0.5") t m ∧
    demo_open.(handlers) !! "s1" = Some h ∧ h.(ses_target) = t.
Proof.
  apply (ticket_single_use 110 [] demo_trace [] demo_tickets demo_open demo_open 110 "tk" (Some "10.0.0.5") "s1" demo_run eq_refl).
Defined.

(** A call for the root shell that read the configuration while the feature was enabled
    mints its ticket although it has been disabled meanwhile. *)
Example minted_while_disabled :
  let s := mint_ticket 100 "tk" demo_request TShell (mkOpts None None false) (update (Some false) (term_init true)) in
  run 100 [] [Minted 100 "tk" (Some "10.0.0.5") TShell; GatePassed 100 demo_request (mkOpts None None false) TShell true] s ∧
  s.(enabled) = false ∧ is_Some (s.(tickets) !! "tk").
Proof.
  split_and!; [|reflexivity|by eexists].
  apply (run_mint 100 [] [] _ (update (Some false) (term_init true)) "tk" demo_request). apply run_update. apply (run_gate 100 [] [] (term_init true)); [constructor|done].
Qed.

Definition demo_greeted : Terminal := greet "s1" true demo_open.

Lemma demo_greeted_run : run 110 [] demo_trace demo_greeted.
Proof. apply (run_greet 110 [] demo_trace demo_open "s1" true demo_run). vm_compute. reflexivity. Qed.


(** A client that is gone before the answer is sent leaves its session registered, and
    its pseudo terminal open, for good. *)
Example answer_not_sent_leaks :
  let s := greet "s1" false demo_open in
  run 110 [] (HandlerFailed 110 "s1" AnswerNotSent :: demo_trace) s ∧ "s1" ∈ s.(sessions) ∧ 7 ∈ s.(open_fds).
Proof.
  split_and!; [|vm_compute; reflexivity|vm_compute; reflexivity].
  apply (run_greet 110 [] demo_trace demo_open "s1" false demo_run). vm_compute. reflexivity.
Qed.

Definition demo_typed : Terminal :=
  (client_message "s1" (MText (Some (PDict [("resize", PDict [("cols", PInt 80); ("rows", PInt 24)])])))
     (client_message "s1" (MBinary "q") demo_greeted).2).2.

Lemma viewer_is_read_only_witness :
  ∃ h, demo_typed.(handlers) !! "s1" = Some h ∧ h.(input_queue) = [Resize 80 24] ∧ ∀ b, Write b ∉ h.(tty).
Proof.
  eexists. split; [vm_compute; reflexivity|]. split; [reflexivity|].
  apply (viewer_is_read_only 110 [] demo_trace demo_typed "s1" _); [|vm_compute; reflexivity|reflexivity].
  apply run_message; [apply run_message; [apply demo_greeted_run|]|]; vm_compute; reflexivity.
Defined.
