(* ===== verification/Cache.v ===== *)
(** * The key-value cache: plugins/cache.py

    [CacheService] keeps a dict of named tuples (value, timeout); a timeout of
    zero never lapses.  The clock is an argument [now] of each call; it is read
    once by [get] (in [get_timeout]).  The second half relates the cache to an
    abstract map whose entries disappear by themselves. *)

From S2P Require Import Prelude PyValue.

Record kv_tuple : Type := mkKV { value : pyval; timeout : Z }.

Notation Cache := (gmap string kv_tuple).

Definition has_key (key : string) (c : Cache) : bool := bool_decide (is_Some (c !! key)).

(** [put]; [timeout] is the argument, in seconds. *)
Definition put (now : Z) (key : string) (value : pyval) (timeout : Z) (c : Cache) : Cache :=
  <[key := mkKV value (if Z.eqb timeout 0 then timeout else now + timeout)]> c.

(** [pop] *)
Definition pop (key : string) (c : Cache) : pyval * Cache :=
  (match c !! key with Some v => v.(value) | None => PNone end, delete key c).

(** [get_timeout] *)
Definition get_timeout (now : Z) (key : string) : M Cache exn unit :=
  c ← get_state;
  match c !! key with
  | None => raise (KeyError key)
  | Some kv =>
      if Z.leb kv.(timeout) now
      then modify (delete key) ;; raise (KeyError (key +:+ " has expired"))
      else mret tt
  end.

(** [get] *)
Definition get (now : Z) (key : string) : M Cache exn pyval :=
  c ← get_state;
  match c !! key with
  | None => raise (KeyError key)
  | Some kv =>
      (if Z.ltb 0 kv.(timeout) then get_timeout now key else mret tt) ;;
      c ← get_state;
      match c !! key with
      | None => raise (KeyError key)
      | Some kv => mret kv.(value)
      end
  end.

(** [get_or_put]; the clock is read again by [put]. *)
Definition get_or_put (now now' : Z) (key : string) (timeout : Z) (method : outcome exn pyval) : M Cache exn pyval :=
  try_except (get now key)
    (λ e, match e with
          | KeyError _ =>
              match method with
              | Ret v => modify (put now' key v timeout) ;; mret v
              | Raise e => raise e
              end
          | e => raise e
          end).

(** ** The contract: a map whose entries lapse *)

(** The entry of [key] that a reader may see at [now]. *)
Definition visible (now : Z) (c : Cache) (key : string) : option pyval :=
  kv ← c !! key; if Z.ltb 0 kv.(timeout) && Z.leb kv.(timeout) now then None else Some kv.(value).

Lemma get_visible now key c :
  ∃ c', get now key c = (match visible now c key with Some v => Ret v | None => Raise (KeyError
           (match c !! key with Some _ => key +:+ " has expired" | None => key end)) end, c') ∧
        ∀ now' k, (now ≤ now')%Z → visible now' c' k = visible now' c k.
Proof.
  unfold get, get_timeout, visible, get_state, modify, raise, mret, M_ret. unfold mbind, M_bind, option_bind; simpl.
  destruct (c !! key) as [[v t]|] eqn:Hk; simpl; [|by eexists].
  destruct (Z.ltb_spec 0 t) as [Ht|Ht]; simpl; [|rewrite Hk; by eexists]. rewrite Hk; simpl.
  destruct (Z.leb_spec t now) as [Hl|Hl]; simpl; [|rewrite Hk; by eexists].
  eexists. split; [done|]. intros now' k Hn. destruct (decide (k = key)) as [->|Hne].
  - rewrite lookup_delete_eq, Hk; simpl. rewrite (proj2 (Z.ltb_lt 0 t)), (proj2 (Z.leb_le t now')) by lia. done.
  - by rewrite lookup_delete_ne.
Qed.

Lemma visible_put now now' key v t c k :
  (0 ≤ now)%Z → (0 ≤ t)%Z →
  visible now' (put now key v t c) k =
    if decide (k = key) then (if Z.eqb t 0 then Some v else if Z.leb (now + t) now' then None else Some v)
    else visible now' c k.
Proof.
  intros Hn Ht. unfold visible, put. case_decide as Hk.
  - subst. rewrite lookup_insert_eq; simpl. destruct (Z.eqb_spec t 0) as [->|Ht0]; simpl; [done|].
    rewrite (proj2 (Z.ltb_lt 0 (now + t))) by lia. done.
  - by rewrite lookup_insert_ne.
Qed.

(** The cache is a map whose entries lapse: after [put key value timeout] at a
    time [t0], a [get] at any later [t1] returns the value exactly while no
    [timeout] was given or [timeout] seconds have not gone by, and raises
    [KeyError] afterwards; the [get] in between, which may delete a lapsed entry,
    changes what no later [get] of any key returns. *)
Theorem cache_lapses (t0 t1 t2 timeout : Z) (key k : string) (v : pyval) (c : Cache)
    (H0 : (0 ≤ t0)%Z) (H1 : (t0 ≤ t1 ≤ t2)%Z) (Ht : (0 ≤ timeout)%Z) :
  let c0 := put t0 key v timeout c in
  ((get t1 key c0).1 = Ret v ↔ timeout = 0%Z ∨ (t1 < t0 + timeout)%Z) ∧
  ((get t1 key c0).1 ≠ Ret v → (get t1 key c0).1 = Raise (KeyError (key +:+ " has expired"))) ∧
  is_ret (get t2 k (get t1 key c0).2).1 = is_ret (get t2 k c0).1 ∧
  (∀ w, (get t2 k (get t1 key c0).2).1 = Ret w ↔ (get t2 k c0).1 = Ret w).
Proof.
  cbv zeta. set (c0 := put t0 key v timeout c).
  destruct (get_visible t1 key c0) as (c1 & Hg & Hkeep). rewrite Hg; simpl.
  destruct (get_visible t2 k c1) as (c2 & Hg2 & _), (get_visible t2 k c0) as (c3 & Hg3 & _).
  rewrite Hg2, Hg3, Hkeep by lia; simpl.
  assert (c0 !! key = Some (mkKV v (if Z.eqb timeout 0 then timeout else t0 + timeout))) as Hk.
  { apply lookup_insert_eq. }
  rewrite Hk. subst c0. rewrite (visible_put t0 t1), decide_True by done.
  split_and!; [| |by destruct (visible t2 (put t0 key v timeout c) k)
    |destruct (visible t2 (put t0 key v timeout c) k); naive_solver].
  - destruct (Z.eqb_spec timeout 0) as [->|Hne]; [naive_solver|].
    destruct (Z.leb_spec (t0 + timeout) t1); split; try done; naive_solver lia.
  - destruct (Z.eqb timeout 0); [done|]. by destruct (Z.leb _ t1).
Qed.

(** [get_or_put] serves one computation for as long as it is fresh: a second
    call, whatever its method would answer, returns the value the first one
    computed until [timeout] seconds after it was stored, and computes anew after
    that; when the method raises, the cache holds no entry for the key. *)
Theorem get_or_put_memoises (t0 t0' t1 t1' timeout : Z) (key : string) (v w : pyval) (c : Cache)
    (Hfresh : visible t0 c key = None) (H0 : (0 ≤ t0')%Z) (H1 : (t0' ≤ t1)%Z) (Ht : (0 < timeout)%Z) :
  let first := get_or_put t0 t0' key timeout (Ret v) c in
  first.1 = Ret v ∧
  (get_or_put t1 t1' key timeout (Ret w) first.2).1 = Ret (if Z.ltb t1 (t0' + timeout) then v else w) ∧
  ∀ e, (get_or_put t0 t0' key timeout (Raise e) c).1 = Raise e ∧
       visible t0 (get_or_put t0 t0' key timeout (Raise e) c).2 key = None.
Proof.
  assert (∀ now now' t m c1, visible now c1 key = None → ∃ c2,
    get_or_put now now' key t m c1 = (m, match m with Ret x => put now' key x t c2 | Raise _ => c2 end) ∧
    visible now c2 key = None) as Hmiss.
  { intros now now' t m c1 Hv. destruct (get_visible now key c1) as (c2 & Hg & Hk). exists c2.
    unfold get_or_put, try_except. rewrite Hg, Hv. rewrite Hk by lia. by destruct m. }
  cbv zeta. destruct (Hmiss t0 t0' timeout (Ret v) c Hfresh) as (c2 & Hf & _). rewrite Hf; simpl.
  split_and!; [done| |].
  - pose proof (visible_put t0' t1 key v timeout c2 key H0 ltac:(lia)) as Hv. rewrite decide_True in Hv by done.
    rewrite (proj2 (Z.eqb_neq timeout 0)) in Hv by lia.
    destruct (Z.leb_spec (t0' + timeout) t1) as [Hl|Hl].
    + destruct (Hmiss t1 t1' timeout (Ret w) _ Hv) as (c3 & Hs & _). rewrite Hs; simpl.
      by rewrite (proj2 (Z.ltb_ge t1 (t0' + timeout))) by lia.
    + destruct (get_visible t1 key (put t0' key v timeout c2)) as (c3 & Hg & _).
      unfold get_or_put, try_except. rewrite Hg, Hv; simpl.
      by rewrite (proj2 (Z.ltb_lt t1 (t0' + timeout))) by lia.
  - intros e. destruct (Hmiss t0 t0' timeout (Raise e) c Hfresh) as (c3 & Hr & Hv). by rewrite Hr.
Qed.

Lemma get_or_put_memoises_witness :
  (get_or_put 12 12 "k" 5 (Ret (PInt 2)) (get_or_put 10 10 "k" 5 (Ret (PInt 1)) ∅).2).1 = Ret (PInt 1).
Proof.
  apply (get_or_put_memoises 10 10 12 12 5 "k" (PInt 1) (PInt 2) ∅); [reflexivity|lia|lia|lia].
Defined.
