(* ===== verification/Alert.v ===== *)
(** * Alerts: plugins/alert.py, alert/base.py, alert/schedule.py

    The alert service keeps a list of [Alert] objects, which the policies also
    reference (the alerts they last reported) and which dismissing mutates: the
    objects live in a heap.  The sources that produce alerts, the classes of
    alerts with their own [create], [delete] and [dismiss], and the services that
    send notifications are code of other modules: they are arguments.  [utc] is
    the wall clock, in microseconds, and [mono] the monotonic one, in seconds. *)

From S2P Require Import Prelude PyValue PyTime Filter.

(** ** alert/base.py *)

Inductive AlertLevel : Type := INFO | NOTICE | WARNING | ERROR | CRITICAL | ALERT | EMERGENCY.

#[global] Instance AlertLevel_eq_dec : EqDecision AlertLevel.
Proof. solve_decision. Defined.

Definition level_value (l : AlertLevel) : Z :=
  match l with
  | INFO => 1 | NOTICE => 2 | WARNING => 3 | ERROR => 4 | CRITICAL => 5 | ALERT => 6 | EMERGENCY => 7
  end.

(** A subclass of [AlertClass]: its attributes, and which of the mixins it has. *)
Record AlertClass : Type := mkClass {
  kname : string;
  level : AlertLevel;
  title : string;
  class_text : option string;
  products : list string;
  one_shot : bool;
  deleted_automatically : bool;
  expires_after : option Z;
  dismissable : bool;
}.

#[global] Instance AlertClass_eq_dec : EqDecision AlertClass.
Proof. solve_decision. Defined.

Record Alert : Type := mkAlert {
  uuid : option string;
  source : option string;
  klass : AlertClass;
  args : pyval;
  node : option string;
  key : string;
  datetime : option DateTime;
  last_occurrence : option DateTime;
  dismissed : option bool;
  mail : option pyval;
  text : string;
}.

(** [Alert.__eq__]: the dicts of the two objects are equal. *)
Definition mail_eqb (a b : option pyval) : bool :=
  match a, b with Some x, Some y => py_eq x y | None, None => true | _, _ => false end.

Definition alert_eqb (a b : Alert) : bool :=
  bool_decide (a.(uuid) = b.(uuid)) && bool_decide (a.(source) = b.(source)) &&
  bool_decide (a.(klass) = b.(klass)) && py_eq a.(args) b.(args) &&
  bool_decide (a.(node) = b.(node)) && bool_decide (a.(key) = b.(key)) &&
  bool_decide (a.(datetime) = b.(datetime)) && bool_decide (a.(last_occurrence) = b.(last_occurrence)) &&
  bool_decide (a.(dismissed) = b.(dismissed)) && mail_eqb a.(mail) b.(mail) &&
  bool_decide (a.(text) = b.(text)).

(** The text an [Alert] gets when none is given. *)
Definition default_text (k : AlertClass) : string :=
  match k.(class_text) with Some t => if PyStr.nonempty t then t else k.(title) | None => k.(title) end.

(** ** alert/schedule.py *)

Definition HOUR : Z := 3600000000.
Definition DAY : Z := 86400000000.
Definition DATETIME_MIN : Z := -62135596800000000.

Inductive Schedule : Type := IntervalSchedule (interval : Z) | CrontabSchedule (hour : Z).

(** [should_run]; [utcoffset] is [tzlocal().utcoffset]. *)
Definition should_run (utcoffset : Z → Z) (s : Schedule) (now last_run : Z) : bool :=
  match s with
  | IntervalSchedule interval => Z.leb (last_run + interval) now
  | CrontabSchedule hour =>
      if Z.eqb last_run DATETIME_MIN then true
      else
        let local_now := (now + utcoffset now)%Z in
        let local_last_run := (last_run + utcoffset last_run)%Z in
        Z.eqb ((local_now / HOUR) mod 24) hour && negb (Z.eqb (local_last_run / DAY) (local_now / DAY))
  end.

Record AlertSource : Type := mkSource {
  sname : string;
  schedule : Schedule;
  src_products : list string;
  failover_related : bool;
  run_on_backup_node : bool;
}.

(** ** State *)

Notation aref := nat (only parsing).

(** [AlertPolicy]: [key] is a function of its name, see [policy_key]; the dict maps
    the [uuid] of an alert to the object. *)
Record AlertPolicy : Type := mkPolicy {
  last_key_value : option Z;
  last_key_value_alerts : list (option string * aref);
}.

(** [send_event("alert.list", ...)] *)
Inductive AlertEvent : Type :=
| AlertAdded (id : option string) | AlertChanged (id : option string) | AlertCleared (id : option string).

(** A call of [send] of an alert service. *)
Record Notification : Type := mkNotification {
  nt_service : string;
  nt_alerts : list Alert;
  nt_gone : list Alert;
  nt_new : list Alert;
}.

Record State : Type := mkState {
  heap : gmap aref Alert;
  alerts : list aref;
  policies : list (string * AlertPolicy);
  blocked_sources : gmap string (gset string);
  sources_locks : gmap string (string * Z);
  blocked_failover_alerts_until : Z;
  alert_source_last_run : gmap string Z;
  send_alerts_on_ready : bool;
  alert_events : list AlertEvent;
  notifications : list Notification;
  mails : list pyval;
}.

Definition with_heap (f : gmap aref Alert → gmap aref Alert) (s : State) : State :=
  mkState (f s.(heap)) s.(alerts) s.(policies) s.(blocked_sources) s.(sources_locks)
    s.(blocked_failover_alerts_until) s.(alert_source_last_run) s.(send_alerts_on_ready)
    s.(alert_events) s.(notifications) s.(mails).
Definition with_alerts (f : list aref → list aref) (s : State) : State :=
  mkState s.(heap) (f s.(alerts)) s.(policies) s.(blocked_sources) s.(sources_locks)
    s.(blocked_failover_alerts_until) s.(alert_source_last_run) s.(send_alerts_on_ready)
    s.(alert_events) s.(notifications) s.(mails).
Definition with_policies (f : list (string * AlertPolicy) → list (string * AlertPolicy)) (s : State) : State :=
  mkState s.(heap) s.(alerts) (f s.(policies)) s.(blocked_sources) s.(sources_locks)
    s.(blocked_failover_alerts_until) s.(alert_source_last_run) s.(send_alerts_on_ready)
    s.(alert_events) s.(notifications) s.(mails).
Definition with_blocked (f : gmap string (gset string) → gmap string (gset string)) (s : State) : State :=
  mkState s.(heap) s.(alerts) s.(policies) (f s.(blocked_sources)) s.(sources_locks)
    s.(blocked_failover_alerts_until) s.(alert_source_last_run) s.(send_alerts_on_ready)
    s.(alert_events) s.(notifications) s.(mails).
Definition with_locks (f : gmap string (string * Z) → gmap string (string * Z)) (s : State) : State :=
  mkState s.(heap) s.(alerts) s.(policies) s.(blocked_sources) (f s.(sources_locks))
    s.(blocked_failover_alerts_until) s.(alert_source_last_run) s.(send_alerts_on_ready)
    s.(alert_events) s.(notifications) s.(mails).
Definition with_last_run (f : gmap string Z → gmap string Z) (s : State) : State :=
  mkState s.(heap) s.(alerts) s.(policies) s.(blocked_sources) s.(sources_locks)
    s.(blocked_failover_alerts_until) (f s.(alert_source_last_run)) s.(send_alerts_on_ready)
    s.(alert_events) s.(notifications) s.(mails).
Definition set_on_ready (s : State) : State :=
  mkState s.(heap) s.(alerts) s.(policies) s.(blocked_sources) s.(sources_locks)
    s.(blocked_failover_alerts_until) s.(alert_source_last_run) true
    s.(alert_events) s.(notifications) s.(mails).
Definition emit (e : AlertEvent) (s : State) : State :=
  mkState s.(heap) s.(alerts) s.(policies) s.(blocked_sources) s.(sources_locks)
    s.(blocked_failover_alerts_until) s.(alert_source_last_run) s.(send_alerts_on_ready)
    (s.(alert_events) ++ [e]) s.(notifications) s.(mails).
Definition notify (n : Notification) (s : State) : State :=
  mkState s.(heap) s.(alerts) s.(policies) s.(blocked_sources) s.(sources_locks)
    s.(blocked_failover_alerts_until) s.(alert_source_last_run) s.(send_alerts_on_ready)
    s.(alert_events) (s.(notifications) ++ [n]) s.(mails).
Definition send_mail (m : pyval) (s : State) : State :=
  mkState s.(heap) s.(alerts) s.(policies) s.(blocked_sources) s.(sources_locks)
    s.(blocked_failover_alerts_until) s.(alert_source_last_run) s.(send_alerts_on_ready)
    s.(alert_events) s.(notifications) (s.(mails) ++ [m]).

(** [block_failover_alerts] *)
Definition block_failover_alerts (mono : Z) (s : State) : State :=
  mkState s.(heap) s.(alerts) s.(policies) s.(blocked_sources) s.(sources_locks)
    (mono + 900) s.(alert_source_last_run) s.(send_alerts_on_ready)
    s.(alert_events) s.(notifications) s.(mails).

(** The objects of a list of references. *)
Definition objects (s : State) (l : list aref) : list Alert := omap (λ r, s.(heap) !! r) l.

Definition new_object (a : Alert) (s : State) : aref * State :=
  let r := fresh (dom s.(heap)) in (r, with_heap <[r := a]> s).

Fixpoint new_objects (l : list Alert) (s : State) : list aref * State :=
  match l with
  | [] => ([], s)
  | a :: l => let '(r, s) := new_object a s in let '(rs, s) := new_objects l s in (r :: rs, s)
  end.

(** ** [AlertPolicy] *)

(** [d[k] = v] on the dict of a policy. *)
Fixpoint uset (d : list (option string * aref)) (k : option string) (v : aref) : list (option string * aref) :=
  match d with
  | [] => [(k, v)]
  | (k', v') :: d => if decide (k' = k) then (k', v) :: d else (k', v') :: uset d k v
  end.

Definition udel (d : list (option string * aref)) (k : option string) : list (option string * aref) :=
  List.filter (λ kv, negb (bool_decide (kv.1 = k))) d.

(** [{alert.uuid: alert for alert in alerts}] *)
Definition by_uuid (s : State) (l : list aref) : list (option string * aref) :=
  foldl (λ d r, match s.(heap) !! r with Some a => uset d a.(uuid) r | None => d end) [] l.

(** The [key] of each policy; a date with its hour is the count of hours. *)
Definition policy_key (name : string) (now : Z) : option Z :=
  if String.eqb name "IMMEDIATELY" then Some now
  else if String.eqb name "HOURLY" then Some (now / HOUR)%Z
  else if String.eqb name "DAILY" then Some (now / DAY)%Z
  else None.

Definition has_uuid (d : list (option string * aref)) (u : option string) : bool := bool_decide (u ∈ d.*1).

Definition uuid_of (s : State) (r : aref) : option string := a ← s.(heap) !! r; a.(uuid).

(** [receive_alerts]: the alerts that are gone and the ones that are new. *)
Definition receive_alerts (s : State) (name : string) (now : Z) (received : list aref) (p : AlertPolicy) :
    list aref * list aref * AlertPolicy :=
  let current := by_uuid s received in
  let key := policy_key name now in
  if bool_decide (key = p.(last_key_value)) then ([], [], p)
  else
    (List.filter (λ r, negb (has_uuid current (uuid_of s r))) p.(last_key_value_alerts).*2,
     List.filter (λ r, negb (has_uuid p.(last_key_value_alerts) (uuid_of s r))) current.*2,
     mkPolicy key current).

(** ** Configuration of the classes *)

Record ClassConfig : Type := mkClassConfig { cfg_level : option AlertLevel; cfg_policy : option string }.

Notation classes := (gmap string ClassConfig).

(** [get_alert_level] *)
Definition get_alert_level (a : Alert) (c : classes) : AlertLevel :=
  default a.(klass).(level) (x ← c !! a.(klass).(kname); x.(cfg_level)).

(** [get_alert_policy] *)
Definition get_alert_policy (a : Alert) (c : classes) : string :=
  default "IMMEDIATELY" (x ← c !! a.(klass).(kname); x.(cfg_policy)).

(** [AlertSerializer.should_show_alert] *)
Definition should_show_alert (product_type : string) (c : classes) (a : Alert) : bool :=
  bool_decide (product_type ∈ a.(klass).(products)) &&
  negb (bool_decide ((x ← c !! a.(klass).(kname); x.(cfg_policy)) = Some "NEVER")).

(** ** Dismissing *)

(** [__alert_by_uuid] *)
Definition alert_by_uuid (s : State) (u : string) : option aref :=
  List.find (λ r, bool_decide ((a ← s.(heap) !! r; a.(uuid)) = Some u)) s.(alerts).

(** [x == y] on objects. *)
Definition same (s : State) (r r' : aref) : bool :=
  match s.(heap) !! r, s.(heap) !! r' with Some a, Some b => alert_eqb a b | _, _ => false end.

(** [l.remove(x)]: the first element equal to it; [ValueError] without one. *)
Fixpoint list_remove (s : State) (r : aref) (l : list aref) : outcome exn (list aref) :=
  match l with
  | [] => Raise (ValueError "list.remove(x): x not in list")
  | x :: l => if same s x r then Ret l else rest ← list_remove s r l; Ret (x :: rest)
  end.

(** [_delete_on_dismiss] *)
Definition delete_on_dismiss (r : aref) : M State exn unit :=
  s ← get_state;
  match list_remove s r s.(alerts) with
  | Raise e => raise e
  | Ret l =>
      modify (with_alerts (λ _, l)) ;;
      modify (with_policies (map (λ np, (np.1, mkPolicy np.2.(last_key_value)
                                                (udel np.2.(last_key_value_alerts) (uuid_of s r)))))) ;;
      modify (emit (AlertCleared (uuid_of s r)))
  end.

Definition set_dismissed (b : bool) (a : Alert) : Alert :=
  mkAlert a.(uuid) a.(source) a.(klass) a.(args) a.(node) a.(key) a.(datetime) a.(last_occurrence) (Some b)
    a.(mail) a.(text).

(** [_send_alert_changed_event] *)
Definition send_alert_changed_event (product_type : string) (c : classes) (r : aref) (s : State) : State :=
  match s.(heap) !! r with
  | Some a => if should_show_alert product_type c a then emit (AlertChanged a.(uuid)) s else s
  | None => s
  end.

(** [dismiss]; [klass_dismiss] is the method of the alert's class: the references
    it is given that stay. *)
Definition dismiss (product_type : string) (c : classes)
    (klass_dismiss : AlertClass → list Alert → Alert → list Alert) (u : string) : M State exn unit :=
  s ← get_state;
  match alert_by_uuid s u with
  | None => mret tt
  | Some r =>
      match s.(heap) !! r with
      | None => mret tt
      | Some a =>
          if a.(klass).(dismissable) then
            let related := List.filter (λ r', match s.(heap) !! r' with
                                              | Some b => bool_decide (b.(node) = a.(node) ∧ b.(klass) = a.(klass))
                                              | None => false
                                              end) s.(alerts) in
            let left_alerts := klass_dismiss a.(klass) (objects s related) a in
            forM related (λ r', match s.(heap) !! r' with
                                | Some b => if existsb (alert_eqb b) left_alerts then mret tt else delete_on_dismiss r'
                                | None => mret tt
                                end)
          else if a.(klass).(one_shot) && negb a.(klass).(deleted_automatically) then delete_on_dismiss r
          else
            modify (with_heap (alter (set_dismissed true) r)) ;;
            modify (send_alert_changed_event product_type c r)
      end
  end.

(** [restore] *)
Definition restore (product_type : string) (c : classes) (u : string) (s : State) : State :=
  match alert_by_uuid s u with
  | None => s
  | Some r => send_alert_changed_event product_type c r (with_heap (alter (set_dismissed false) r) s)
  end.

(** ** Running the sources *)

(** [datetime.astimezone(timezone.utc).replace(tzinfo=None)] of an aware one. *)
Definition to_utc (d : DateTime) : DateTime :=
  match d.(tz) with Some offset => naive (d.(fields) - offset) | None => d end.

Definition set_node (n : string) (a : Alert) : Alert :=
  mkAlert a.(uuid) a.(source) a.(klass) a.(args) (Some n) a.(key) a.(datetime) a.(last_occurrence) a.(dismissed)
    a.(mail) a.(text).
Definition set_source (n : string) (a : Alert) : Alert :=
  mkAlert a.(uuid) (Some n) a.(klass) a.(args) a.(node) a.(key) a.(datetime) a.(last_occurrence) a.(dismissed)
    a.(mail) a.(text).

(** What makes two alerts the same one: [(node, source, klass, key)]. *)
Definition identity (a : Alert) : option string * option string * AlertClass * string :=
  (a.(node), a.(source), a.(klass), a.(key)).

(** The first of [self.alerts] that is the same as [a]. *)
Definition existing_alert (s : State) (a : Alert) : option Alert :=
  List.find (λ b, bool_decide (identity b = identity a)) (objects s s.(alerts)).

(** [__handle_alert]; [new_uuid] is the [uuid4] drawn if one is needed. *)
Definition handled (utc : Z) (new_uuid : string) (existing : option Alert) (a : Alert) : Alert :=
  mkAlert
    (match existing with None => Some new_uuid | Some e => e.(uuid) end)
    a.(source) a.(klass) a.(args) a.(node) a.(key)
    (match existing with
     | None => Some (to_utc (default (naive utc) a.(datetime)))
     | Some e => e.(datetime)
     end)
    (Some (naive utc))
    (match existing with None => Some false | Some e => e.(dismissed) end)
    a.(mail) a.(text).

Definition handle_alert (utc : Z) (new_uuid : aref → string) (s : State) (r : aref) : State :=
  match s.(heap) !! r with
  | None => s
  | Some a => with_heap <[r := handled utc (new_uuid r) (existing_alert s a) a]> s
  end.

(** What [check] of a source did; [connection] tells a [CallError] with one of the
    errors of a broken connection. *)
Inductive CheckResult : Type :=
| Unavailable
| ReturnedNone
| ReturnedOne (a : Alert)
| ReturnedList (l : list Alert)
| CheckRaised (connection : bool) (message traceback : string).

Section sources.
(** [json.dumps(key, sort_keys=True)] *)
Context (json_dumps : pyval → string).

(** [Alert(klass, args)] *)
Definition make_alert (k : AlertClass) (a : pyval) (src : option string) : Alert :=
  mkAlert None src k a None (json_dumps a) None None None None (default_text k).

Definition AlertSourceRunFailed : AlertClass :=
  mkClass "AlertSourceRunFailed" CRITICAL "Alert Check Failed"
    (Some ("Failed to check for alert %(source_name)s:" +:+ String "010" "%(traceback)s"))
    ["CORE"; "ENTERPRISE"] false true None false.

Definition AlertSourceRunFailedOnBackupNode : AlertClass :=
  mkClass "AlertSourceRunFailedOnBackupNode" CRITICAL "Alert Check Failed (Standby Controller)"
    (Some ("Failed to check for alert %(source_name)s on standby controller:" +:+ String "010" "%(traceback)s"))
    ["CORE"; "ENTERPRISE"] false true None false.

Definition failure_args (name traceback : string) : pyval :=
  PDict [("source_name", PStr name); ("traceback", PStr traceback)].

(** [__run_source]; [None] for [UnavailableException]. *)
Definition run_source (name : string) (c : CheckResult) : option (list Alert) :=
  map (set_source name) <$>
    match c with
    | Unavailable => None
    | ReturnedNone => Some []
    | ReturnedOne a => Some [a]
    | ReturnedList l => Some l
    | CheckRaised true message _ => Some [make_alert AlertSourceRunFailed (failure_args name message) None]
    | CheckRaised false _ traceback => Some [make_alert AlertSourceRunFailed (failure_args name traceback) None]
    end.

(** What [failover.call_remote("alert.run_source")] did: the alerts, an error that
    is passed over, or another one. *)
Inductive RemoteResult : Type :=
| RemoteAlerts (l : list Alert)
| RemotePassed
| RemoteRaised (traceback : string).

(** The [Alert] rebuilt from the dict of a remote one. *)
Definition remote_alert (a : Alert) : Alert :=
  mkAlert None a.(source) a.(klass) a.(args) None a.(key) a.(datetime)
    (match a.(last_occurrence) with Some d => Some d | None => a.(datetime) end) a.(dismissed) a.(mail)
    (default_text a.(klass)).

(** The alerts of a source on one node. *)
Definition alerts_of (s : State) (node_name source_name : string) : list aref :=
  List.filter (λ r, match s.(heap) !! r with
                    | Some a => bool_decide (a.(node) = Some node_name) && bool_decide (a.(source) = Some source_name)
                    | None => false
                    end) s.(alerts).

Definition set_nodes (n : string) (l : list aref) (s : State) : State :=
  foldl (λ s r, with_heap (alter (set_node n) r) s) s l.

Definition is_blocked (s : State) (source_name : string) : bool :=
  negb (bool_decide (default ∅ (s.(blocked_sources) !! source_name) = ∅)).

(** The alerts of the active node: what the source reports, or what is known when
    the source is blocked or unavailable. *)
Definition collect_a (src : AlertSource) (master_node : string) (c : CheckResult) (s : State) : list aref * State :=
  let '(rs, s) :=
    if is_blocked s src.(sname) then (alerts_of s master_node src.(sname), s)
    else match run_source src.(sname) c with
         | Some l => new_objects l s
         | None => (alerts_of s master_node src.(sname), s)
         end in
  (rs, set_nodes master_node rs s).

Definition collect_b (src : AlertSource) (backup_node : string) (on_backup : bool) (c : RemoteResult) (s : State) :
    list aref * State :=
  let '(rs, s) :=
    if on_backup && src.(run_on_backup_node) then
      if is_blocked s src.(sname) then (alerts_of s backup_node src.(sname), s)
      else match c with
           | RemoteAlerts l => new_objects (map remote_alert l) s
           | RemotePassed => (alerts_of s backup_node src.(sname), s)
           | RemoteRaised tb =>
               new_objects [make_alert AlertSourceRunFailedOnBackupNode (failure_args src.(sname) tb) (Some src.(sname))] s
           end
    else ([], s) in
  (rs, set_nodes backup_node rs s).

Definition other_source (s : State) (source_name : string) (r : aref) : bool :=
  match s.(heap) !! r with Some a => negb (bool_decide (a.(source) = Some source_name)) | None => false end.

(** A turn of the loop of [__run_alerts] for a source that is due. *)
Definition run_one (utc : Z) (new_uuid : aref → string) (src : AlertSource) (master_node backup_node : string)
    (on_backup : bool) (ca : CheckResult) (cb : RemoteResult) (s : State) : State :=
  let s := with_last_run <[src.(sname) := utc]> s in
  let '(alerts_a, s) := collect_a src master_node ca s in
  let '(alerts_b, s) := collect_b src backup_node on_backup cb s in
  let s := foldl (handle_alert utc new_uuid) s (alerts_a ++ alerts_b) in
  with_alerts (λ l, List.filter (other_source s src.(sname)) l ++ alerts_a ++ alerts_b) s.

End sources.

(** ** Blocking sources *)

(** [block_source]; [lock] is the [uuid4], [registered] the names of ALERT_SOURCES. *)
Definition block_source (registered : list string) (mono : Z) (lock source_name : string) (timeout : Z) :
    M State exn string :=
  if negb (bool_decide (source_name ∈ registered)) then raise (CallError "Invalid alert source" EFAULT PNone)
  else
    modify (with_blocked (λ b, <[source_name := {[lock]} ∪ default ∅ (b !! source_name)]> b)) ;;
    modify (with_locks <[lock := (source_name, (mono + timeout)%Z)]>) ;;
    mret lock.

(** [unblock_source]: [set.remove] raises [KeyError] when the lock is not there. *)
Definition unblock_source (lock : string) : M State exn unit :=
  s ← get_state;
  match s.(sources_locks) !! lock with
  | None => mret tt
  | Some (source_name, _) =>
      modify (with_locks (delete lock)) ;;
      let held := default ∅ (s.(blocked_sources) !! source_name) in
      if bool_decide (lock ∈ held)
      then modify (with_blocked <[source_name := held ∖ {[lock]}]>)
      else raise (KeyError lock)
  end.

(** The locks whose time is over, as [__run_alerts] collects them. *)
Definition expired_locks (mono : Z) (s : State) : list string :=
  omap (λ kv, if Z.leb kv.2.2 mono then Some kv.1 else None) (map_to_list s.(sources_locks)).

Definition expire_locks (mono : Z) : M State exn unit :=
  s ← get_state; forM (expired_locks mono s) unblock_source.

(** ** [__run_alerts] *)

(** The product and, on a pair of controllers, what the other one answered. *)
Record Failover : Type := mkFailover {
  product_type : string;
  licensed : bool;
  this_node : string;
  (** version, system state and failover status; [None] when a call raised *)
  remote : option (string * string * string);
  version : string;
}.

Definition master_node (f : Failover) : string :=
  if String.eqb f.(product_type) "ENTERPRISE" && f.(licensed) && String.eqb f.(this_node) "B" then "B" else "A".
Definition backup_node (f : Failover) : string :=
  if String.eqb f.(product_type) "ENTERPRISE" && f.(licensed) && String.eqb f.(this_node) "B" then "A" else "B".

Definition on_backup (f : Failover) : bool :=
  String.eqb f.(product_type) "ENTERPRISE" && f.(licensed) &&
  match f.(remote) with
  | Some (v, st, status) => String.eqb v f.(version) && String.eqb st "READY" && String.eqb status "BACKUP"
  | None => false
  end.

(** A source with the answers of its turn. *)
Record Turn : Type := mkTurn {
  tn_source : AlertSource;
  tn_utc : Z;
  tn_check : CheckResult;
  tn_remote : RemoteResult;
}.

Definition due (utcoffset : Z → Z) (f : Failover) (run_failover_related : bool) (t : Turn) (s : State) : bool :=
  bool_decide (f.(product_type) ∈ t.(tn_source).(src_products)) &&
  (negb t.(tn_source).(failover_related) || run_failover_related) &&
  should_run utcoffset t.(tn_source).(schedule) t.(tn_utc)
    (default DATETIME_MIN (s.(alert_source_last_run) !! t.(tn_source).(sname))).

Section running.
Context (json_dumps : pyval → string) (new_uuid : aref → string) (utcoffset : Z → Z).
(** [repr] of a class *)
Context (class_repr : AlertClass → string).

Definition run_turn (f : Failover) (run_failover_related : bool) (s : State) (t : Turn) : State :=
  if due utcoffset f run_failover_related t s then
    run_one json_dumps t.(tn_utc) new_uuid t.(tn_source) (master_node f) (backup_node f) (on_backup f)
      t.(tn_check) t.(tn_remote) s
  else s.

Definition run_alerts (f : Failover) (mono : Z) (turns : list Turn) : M State exn unit :=
  s ← get_state;
  let run_failover_related :=
    String.eqb f.(product_type) "ENTERPRISE" && Z.ltb s.(blocked_failover_alerts_until) mono in
  expire_locks mono ;;
  modify (λ s, foldl (run_turn f run_failover_related) s turns).

(** [__should_expire_alert] *)
Definition should_expire_alert (utc : Z) (a : Alert) : outcome exn bool :=
  if a.(klass).(one_shot) then
    match a.(klass).(expires_after) with
    | None => Ret false
    | Some after =>
        match a.(last_occurrence) with
        | Some (mkDT t None) => Ret (Z.ltb t (utc - after))
        | Some _ => Raise (TypeError "can't compare offset-naive and offset-aware datetimes")
        | None => Raise (TypeError "'<' not supported between instances of 'NoneType' and 'datetime.datetime'")
        end
    end
  else Ret false.

(** [__expire_alerts] *)
Definition expire_alerts (utc : Z) : M State exn unit :=
  s ← get_state;
  match filterO (λ r, match s.(heap) !! r with
                      | Some a => b ← should_expire_alert utc a; Ret (negb b)
                      | None => Ret false
                      end) s.(alerts) with
  | Raise e => raise e
  | Ret l => modify (with_alerts (λ _, l))
  end.

(** [alert_source_clear_run] *)
Definition alert_source_clear_run (registered : list string) (name : string) : M State exn unit :=
  if bool_decide (name ∈ registered) then modify (with_last_run <[name := DATETIME_MIN]>)
  else raise (CallError "Alert source {name!r} not found." ENOENT PNone).

(** ** One-shot alerts *)

(** [oneshot_create], up to the call of [send_alerts]; [create] is the class's. *)
Definition oneshot_create (utc : Z) (this_node : string) (class_by_name : string → option AlertClass)
    (create : AlertClass → pyval → outcome exn (option Alert)) (k : string) (a : pyval) : M State exn bool :=
  match class_by_name k with
  | None => raise (CallError ("Invalid alert class: " +:+ repr_str k) EFAULT PNone)
  | Some cls =>
      if negb cls.(one_shot) then
        raise (CallError ("Alert class " +:+ class_repr cls +:+ " is not a one-shot alert class") EFAULT PNone)
      else
        match create cls a with
        | Raise e => raise e
        | Ret None => mret false
        | Ret (Some alert) => λ s,
            let '(r, s) := new_object (set_node this_node (set_source "" alert)) s in
            let s := handle_alert utc new_uuid s r in
            (Ret true,
             with_alerts (λ l, List.filter (λ r', negb (bool_decide (uuid_of s r' = uuid_of s r))) l ++ [r]) s)
        end
  end.

(** [SimpleOneShotAlertClass.delete] *)
Definition simple_delete (l : list Alert) (query : pyval) : list Alert :=
  List.filter (λ a, negb (py_eq a.(args) query)) l.

(** [oneshot_delete], up to the call of [send_alerts]; [delete] is the class's: the
    alerts that stay. *)
Definition oneshot_delete (this_node : string) (class_by_name : string → option AlertClass)
    (delete : AlertClass → list Alert → pyval → list Alert) (k : string) (query : pyval) : M State exn bool :=
  match class_by_name k with
  | None => raise (CallError ("Invalid alert source: " +:+ repr_str k) EFAULT PNone)
  | Some cls =>
      if negb cls.(one_shot) then
        raise (CallError ("Alert class " +:+ class_repr cls +:+ " is not a one-shot alert source") EFAULT PNone)
      else
        s ← get_state;
        let related := List.filter (λ r, match s.(heap) !! r with
                                         | Some b => bool_decide (b.(node) = Some this_node ∧ b.(klass) = cls)
                                         | None => false
                                         end) s.(alerts) in
        let left_alerts := delete cls (objects s related) query in
        let gone := List.filter (λ r, match s.(heap) !! r with
                                      | Some b => negb (existsb (alert_eqb b) left_alerts)
                                      | None => false
                                      end) related in
        forM gone (λ r, s ← get_state;
                        match list_remove s r s.(alerts) with
                        | Raise e => raise e
                        | Ret l => modify (with_alerts (λ _, l))
                        end) ;;
        mret (match gone with [] => false | _ => true end)
  end.

End running.

(** ** Storing and loading *)

(** A row of the table: the fields of the object, the class by its name, no mail. *)
Record Row : Type := mkRow { row_alert : Alert; row_klass : string }.

(** [flush_alerts]: the table afterwards; [backup] when this is the standby node. *)
Definition flush_alerts (backup : bool) (table : list Row) (s : State) : list Row :=
  if backup then table
  else map (λ a, mkRow (mkAlert a.(uuid) a.(source) a.(klass) a.(args) a.(node) a.(key) a.(datetime)
                          a.(last_occurrence) a.(dismissed) None a.(text)) a.(klass).(kname))
         (objects s s.(alerts)).

(** [Alert] built from a row whose class is still there. *)
Definition load_row (class_by_name : string → option AlertClass) (row : Row) : option Alert :=
  k ← class_by_name row.(row_klass);
  let a := row.(row_alert) in
  Some (mkAlert a.(uuid) a.(source) k a.(args) a.(node) a.(key) a.(datetime)
          (match a.(last_occurrence) with Some d => Some d | None => a.(datetime) end) a.(dismissed) None
          (if PyStr.nonempty a.(text) then a.(text) else default_text k)).

Definition load_one (class_by_name : string → option AlertClass) (s : State) (row : Row) : State :=
  match load_row class_by_name row with
  | None => s
  | Some a =>
      if existsb (λ b, bool_decide (b.(uuid) = a.(uuid))) (objects s s.(alerts)) then s
      else let '(r, s) := new_object a s in with_alerts (λ l, l ++ [r]) s
  end.

Definition POLICIES : list string := ["IMMEDIATELY"; "HOURLY"; "DAILY"; "NEVER"].

(** [initialize] *)
Definition initialize (class_by_name : string → option AlertClass) (load : bool) (utc : Z) (table : list Row)
    (s : State) : State :=
  let s := with_last_run (λ _, ∅) (with_alerts (λ _, []) s) in
  let s := if load then foldl (load_one class_by_name) s table else s in
  with_policies (λ _, map (λ name, (name, (receive_alerts s name utc s.(alerts) (mkPolicy None [])).2)) POLICIES) s.

(** ** [send_alerts] *)

Record ServiceDesc : Type := mkServiceDesc {
  service_type : string;
  service_level : AlertLevel;
  (** ALERT_SERVICES_FACTORIES has the type, and its constructor accepts the attributes *)
  constructible : bool;
}.

Definition passes (product_type : string) (c : classes) (svc : ServiceDesc) (a : Alert) : bool :=
  bool_decide (product_type ∈ a.(klass).(products)) &&
  Z.leb (level_value svc.(service_level)) (level_value (get_alert_level a c)).

(** The loop that drops an alert that is gone together with a new one of the same
    class and key. *)
Definition matches_new (g n : Alert) : bool :=
  bool_decide (g.(klass) = n.(klass)) && bool_decide (g.(key) = n.(key)).

Fixpoint remove_first (a : Alert) (l : list Alert) : list Alert :=
  match l with
  | [] => []
  | x :: l => if alert_eqb x a then l else x :: remove_first a l
  end.

Definition pair_one (gone_new : list Alert * list Alert) (g : Alert) : list Alert * list Alert :=
  match List.find (matches_new g) gone_new.2 with
  | Some n => (remove_first g gone_new.1, remove_first n gone_new.2)
  | None => gone_new
  end.

Definition pair_off (gone new : list Alert) : list Alert * list Alert := foldl pair_one (gone, new) gone.

Definition undismissed (a : Alert) : bool := match a.(dismissed) with Some true => false | _ => true end.

(** What one service is sent for one policy. *)
Definition service_notification (product_type : string) (c : classes) (policy_name : string) (svc : ServiceDesc)
    (all gone new : list Alert) : option Notification :=
  let for_policy a := passes product_type c svc a && String.eqb (get_alert_policy a c) policy_name in
  let service_alerts := List.filter (λ a, passes product_type c svc a &&
                                          negb (String.eqb (get_alert_policy a c) "NEVER")) all in
  let '(service_gone, service_new) := pair_off (List.filter for_policy gone) (List.filter for_policy new) in
  match service_gone, service_new with
  | [], [] => None
  | _, _ =>
      if svc.(constructible) then
        let l := List.filter undismissed service_alerts in
        let g := List.filter undismissed service_gone in
        let n := List.filter undismissed service_new in
        match l, g, n with
        | [], [], [] => None
        | _, _, _ => Some (mkNotification svc.(service_type) l g n)
        end
      else None
  end.

Definition immediate_events (product_type : string) (c : classes) (gone new : list Alert) (s : State) : State :=
  let s := foldl (λ s a, if should_show_alert product_type c a then emit (AlertCleared a.(uuid)) s else s) s gone in
  let s := foldl (λ s a, if should_show_alert product_type c a then emit (AlertAdded a.(uuid)) s else s) s new in
  foldl (λ s a, match a.(mail) with Some m => if truthy m then send_mail m s else s | None => s end) s new.

(** The turn of one policy. *)
Definition send_policy (product_type : string) (c : classes) (services : list ServiceDesc) (utc : Z) (s : State)
    (policy_name : string) : State :=
  match dget s.(policies) policy_name with
  | None => s
  | Some p =>
      let '(gone, new, p') := receive_alerts s policy_name utc s.(alerts) p in
      let s := with_policies (λ ps, dset ps policy_name p') s in
      let s := foldl (λ s svc,
        match service_notification product_type c policy_name svc (objects s s.(alerts)) (objects s gone)
                (objects s new) with
        | Some n => notify n s
        | None => s
        end) s services in
      if String.eqb policy_name "IMMEDIATELY"
      then immediate_events product_type c (objects s gone) (objects s new) s
      else s
  end.

Definition send_alerts (ready : bool) (product_type : string) (c : classes) (services : list ServiceDesc) (utc : Z)
    (s : State) : State :=
  if negb ready then set_on_ready s
  else foldl (send_policy product_type c services utc) s s.(policies).*1.

(** [process_alerts]: [first] and [second] are the answers of
    [__should_run_or_send_alerts] before and after the sources ran. *)
Definition process_alerts (json_dumps : pyval → string) (new_uuid : aref → string) (utcoffset : Z → Z)
    (first second : bool) (f : Failover) (mono utc : Z) (turns : list Turn)
    (ready : bool) (c : classes) (services : list ServiceDesc) : M State exn unit :=
  if negb first then mret tt
  else
    s ← get_state;
    let '(valid_alerts, s) := new_objects (objects s s.(alerts)) s in
    modify (λ _, s) ;;
    run_alerts json_dumps new_uuid utcoffset f mono turns ;;
    expire_alerts utc ;;
    if negb second then modify (with_alerts (λ _, valid_alerts))
    else modify (send_alerts ready f.(product_type) c services utc).

(** [__should_run_or_send_alerts] *)
Definition should_run_or_send_alerts (state : string) (is_enterprise licensed : bool) (status : string)
    (in_progress : bool) : bool :=
  String.eqb state "READY" &&
  negb (is_enterprise && licensed && (String.eqb status "BACKUP" || in_progress)).
