(* ===== verification/AlertFacts.v ===== *)
(** * Theorems on alerts

    Locks on sources are consistent and lapse; an alert that a source reports
    again is the same alert, with its identifier, its date and whether it was
    dismissed; what the policies report, put together, is the list of alerts. *)

From S2P Require Import Prelude PyValue PyTime Filter Alert.

(** ** Blocking *)

(** The two tables agree. *)
Definition locks_agree (s : State) : Prop :=
  ∀ src lock, lock ∈ default ∅ (s.(blocked_sources) !! src) ↔ ∃ t, s.(sources_locks) !! lock = Some (src, t).

Inductive blocking_step : State → State → Prop :=
| step_block registered mono lock src timeout s :
    s.(sources_locks) !! lock = None →
    blocking_step s (block_source registered mono lock src timeout s).2
| step_unblock lock s : blocking_step s (unblock_source lock s).2
| step_expire mono s : blocking_step s (expire_locks mono s).2
| step_elsewhere s s' :
    s'.(blocked_sources) = s.(blocked_sources) → s'.(sources_locks) = s.(sources_locks) → blocking_step s s'.

Definition no_locks (s : State) : Prop := s.(blocked_sources) = ∅ ∧ s.(sources_locks) = ∅.

Lemma block_agree registered mono lock src timeout s :
  s.(sources_locks) !! lock = None → locks_agree s → locks_agree (block_source registered mono lock src timeout s).2.
Proof.
  unfold locks_agree. intros Hf Ha. unfold block_source. destruct (negb _); [done|].
  unfold modify, mbind, M_bind; simpl. intros src' l'; simpl. destruct (decide (src' = src)) as [->|Hs].
  - rewrite lookup_insert_eq; simpl. rewrite elem_of_union, elem_of_singleton, Ha.
    destruct (decide (l' = lock)) as [->|Hl].
    + rewrite lookup_insert_eq. naive_solver.
    + rewrite lookup_insert_ne by done. naive_solver.
  - rewrite lookup_insert_ne by done. rewrite Ha. destruct (decide (l' = lock)) as [->|Hl].
    + rewrite lookup_insert_eq, Hf. naive_solver.
    + by rewrite lookup_insert_ne.
Qed.

(** Releasing a lock returns and takes out that lock alone. *)
Lemma unblock_spec lock s :
  locks_agree s → ∃ s', unblock_source lock s = (Ret tt, s') ∧ locks_agree s' ∧
    s'.(sources_locks) = delete lock s.(sources_locks).
Proof.
  unfold locks_agree. intros Ha. unfold unblock_source, get_state, modify, raise. unfold mbind, M_bind; simpl.
  destruct (s.(sources_locks) !! lock) as [[src t]|] eqn:Hl.
  - rewrite bool_decide_eq_true_2 by (apply Ha; eauto). eexists. split_and!; [done| |done].
    intros src' l'; simpl. destruct (decide (src' = src)) as [->|Hs].
    + rewrite lookup_insert_eq; simpl. rewrite elem_of_difference, elem_of_singleton, Ha.
      destruct (decide (l' = lock)) as [->|Hne].
      * rewrite lookup_delete_eq. naive_solver.
      * rewrite lookup_delete_ne by done. naive_solver.
    + rewrite lookup_insert_ne by done. rewrite Ha. destruct (decide (l' = lock)) as [->|Hne].
      * rewrite lookup_delete_eq, Hl. naive_solver.
      * by rewrite lookup_delete_ne.
  - eexists. split_and!; [done|done|]. by rewrite delete_id.
Qed.

Lemma unblock_all_spec locks s :
  locks_agree s → ∃ s', forM locks unblock_source s = (Ret tt, s') ∧ locks_agree s' ∧
    ∀ l, s'.(sources_locks) !! l = if decide (l ∈ locks) then None else s.(sources_locks) !! l.
Proof.
  revert s. induction locks as [|k locks IH]; intros s Ha; cbn [forM].
  - exists s. split_and!; [done|done|]. intros l. by rewrite decide_False by apply not_elem_of_nil.
  - destruct (unblock_spec k s Ha) as (s1 & Hu & Ha1 & Hd). destruct (IH s1 Ha1) as (s2 & Hf & Ha2 & Hl).
    exists s2. unfold mbind, M_bind. rewrite Hu. split_and!; [done|done|]. intros l. rewrite Hl, Hd.
    destruct (decide (l ∈ locks)) as [Hin|Hin].
    + by rewrite decide_True by (by right).
    + destruct (decide (l = k)) as [->|Hne].
      * rewrite decide_True by left. by rewrite lookup_delete_eq.
      * rewrite decide_False by (rewrite elem_of_cons; tauto). by rewrite lookup_delete_ne.
Qed.

Lemma elem_of_expired_locks mono s l :
  l ∈ expired_locks mono s ↔ ∃ src t, s.(sources_locks) !! l = Some (src, t) ∧ (t ≤ mono)%Z.
Proof.
  unfold expired_locks. rewrite list_elem_of_omap. split.
  - intros ([l' [src t]] & Hin & Heq). apply elem_of_map_to_list in Hin. simpl in Heq.
    destruct (Z.leb_spec t mono); simplify_eq. eauto.
  - intros (src & t & Hl & Ht). exists (l, (src, t)). split; [by apply elem_of_map_to_list|]. simpl.
    by rewrite (proj2 (Z.leb_le _ _) Ht).
Qed.

Lemma expire_locks_spec mono s :
  locks_agree s → ∃ s', expire_locks mono s = (Ret tt, s') ∧ locks_agree s' ∧
    ∀ l src t, s'.(sources_locks) !! l = Some (src, t) ↔ s.(sources_locks) !! l = Some (src, t) ∧ (mono < t)%Z.
Proof.
  intros Ha. destruct (unblock_all_spec (expired_locks mono s) s Ha) as (s' & Hf & Ha' & Hl).
  exists s'. split_and!; [done|done|]. intros l src t. rewrite Hl; clear Hl. case_decide as Hin.
  - apply elem_of_expired_locks in Hin as (src' & t' & Hs & Ht). split; [done|]. intros [Hs' Hm]. simplify_eq. lia.
  - split; [|naive_solver]. intros Hs. split; [done|]. apply Z.lt_nge. intros Hm. apply Hin, elem_of_expired_locks. eauto.
Qed.

Lemma blocking_reachable_agree s0 s : no_locks s0 → rtc blocking_step s0 s → locks_agree s.
Proof.
  intros [Hb Hl] Hr. assert (locks_agree s0) as Ha.
  { intros src l. rewrite Hb, Hl, !lookup_empty. simpl. set_solver. }
  clear Hb Hl. induction Hr as [|x y z Hxy _ IH]; [done|]. apply IH. destruct Hxy as [| | |s s' Hb Hl].
  - by apply block_agree.
  - by destruct (unblock_spec lock s Ha) as (s' & -> & ? & _).
  - by destruct (expire_locks_spec mono s Ha) as (s' & -> & ? & _).
  - intros src l. by rewrite Hb, Hl.
Qed.

(** Locks on sources: whatever was blocked, released and expired before, releasing
    a lock (one that was never taken, or was already released, too) returns, and
    so does the expiry with which a run starts; after it a source is blocked
    exactly while it has a lock that was not released and whose time is not over. *)
Theorem blocking_lapses (s0 s : State) (mono : Z) (Hinit : no_locks s0) (Hr : rtc blocking_step s0 s) :
  (∀ lock, (unblock_source lock s).1 = Ret tt) ∧
  ∃ s', expire_locks mono s = (Ret tt, s') ∧
    ∀ src, is_blocked s' src = true ↔ ∃ lock t, s.(sources_locks) !! lock = Some (src, t) ∧ (mono < t)%Z.
Proof.
  apply (blocking_reachable_agree _ _ Hinit) in Hr as Ha. split.
  - intros lock. by destruct (unblock_spec lock s Ha) as (s' & -> & _).
  - destruct (expire_locks_spec mono s Ha) as (s' & He & Ha' & Hl). exists s'. split; [done|].
    intros src. unfold is_blocked. rewrite negb_true_iff, bool_decide_eq_false. split.
    + intros [lock Hin]%set_choose_L. apply Ha' in Hin as [t Ht]. apply Hl in Ht. eauto.
    + intros (lock & t & Hs & Hm) He0. assert (lock ∈ default ∅ (blocked_sources s' !! src)) as Hin.
      { apply Ha'. exists t. by apply Hl. }
      rewrite He0 in Hin. by apply elem_of_empty in Hin.
Qed.

Definition empty_state : State := mkState ∅ [] [] ∅ ∅ 0 ∅ false [] [] [].
Definition blocked_state : State := (block_source ["Pool"] 10 "lock" "Pool" 60 empty_state).2.

Lemma blocking_lapses_witness :
  (unblock_source "other" blocked_state).1 = Ret tt ∧ is_blocked blocked_state "Pool" = true ∧
  is_blocked (expire_locks 70 blocked_state).2 "Pool" = false.
Proof.
  assert (rtc blocking_step empty_state blocked_state) as Hr.
  { apply rtc_once. by apply (step_block ["Pool"] 10 "lock" "Pool" 60). }
  destruct (blocking_lapses empty_state blocked_state 70 (conj eq_refl eq_refl) Hr) as [Hu _].
  split_and!; [apply Hu|vm_compute; reflexivity..].
Defined.

(** ** What the policies report *)

Lemma elem_of_uset d k v kv : kv ∈ uset d k v → kv = (k, v) ∨ kv ∈ d.
Proof.
  induction d as [|[k' v'] d IH]; simpl; [rewrite elem_of_cons; set_solver|].
  case_decide as Hk; [subst|]; rewrite !elem_of_cons; naive_solver.
Qed.

Lemma keys_uset d k v u : u ∈ (uset d k v).*1 ↔ u = k ∨ u ∈ d.*1.
Proof.
  induction d as [|[k' v'] d IH]; simpl; [rewrite elem_of_cons; set_solver|].
  case_decide as Hk; simpl; rewrite !elem_of_cons; [subst; tauto|]. rewrite IH. tauto.
Qed.

(** An entry of a dict built from a state is under the uuid of its object. *)
Definition keyed (s : State) (d : list (option string * aref)) : Prop := Forall (λ kv, uuid_of s kv.2 = kv.1) d.

Lemma by_uuid_keyed s l : keyed s (by_uuid s l).
Proof.
  unfold by_uuid. assert (keyed s []) as Hd by constructor. revert Hd. generalize (@nil (option string * aref)).
  induction l as [|r l IH]; intros d Hd; simpl; [done|]. apply IH.
  destruct (heap s !! r) as [a|] eqn:Hr; [|done]. apply Forall_forall. intros kv [->|Hin]%elem_of_uset.
  - simpl. unfold uuid_of. by rewrite Hr.
  - by eapply Forall_forall in Hd.
Qed.

Lemma by_uuid_keys s l u : u ∈ (by_uuid s l).*1 ↔ u ∈ uuid <$> objects s l.
Proof.
  unfold by_uuid. enough (∀ d, u ∈ (foldl (λ d r, match heap s !! r with Some a => uset d (uuid a) r | None => d end) d l).*1 ↔
    u ∈ d.*1 ∨ u ∈ uuid <$> objects s l) as H.
  { rewrite H. simpl. split; [|tauto]. intros [Hn|]; [|done]. by apply not_elem_of_nil in Hn. }
  induction l as [|r l IH]; intros d; simpl.
  - split; [tauto|]. intros [|Hn]; [done|]. by apply not_elem_of_nil in Hn.
  - rewrite IH. destruct (heap s !! r) as [a|]; [|done]. rewrite keys_uset. simpl. rewrite elem_of_cons. tauto.
Qed.

Lemma has_uuid_spec d u : has_uuid d u = true ↔ u ∈ d.*1.
Proof. unfold has_uuid. by rewrite bool_decide_eq_true. Qed.

(** A call of [receive_alerts]: the state, the time. *)
Notation calls := (list (State * Z)).

Definition receive (name : string) (p : AlertPolicy) (c : State * Z) : list aref * list aref * AlertPolicy :=
  receive_alerts c.1 name c.2 c.1.(alerts) p.

(** Somebody who keeps a list of alerts by what is reported. *)
Definition follow (s : State) (gone new : list aref) (view : option string → Prop) : option string → Prop :=
  λ u, (view u ∧ u ∉ uuid_of s <$> gone) ∨ u ∈ uuid_of s <$> new.

Fixpoint follow_all (name : string) (p : AlertPolicy) (view : option string → Prop) (cs : calls) :
    AlertPolicy * (option string → Prop) :=
  match cs with
  | [] => (p, view)
  | c :: cs =>
      let '(gone, new, p') := receive name p c in
      follow_all name p' (follow c.1 gone new view) cs
  end.

(** At every call the objects of the policy have the uuids they were reported
    under. *)
Fixpoint uuids_kept (name : string) (p : AlertPolicy) (cs : calls) : Prop :=
  match cs with
  | [] => True
  | c :: cs => keyed c.1 p.(last_key_value_alerts) ∧ uuids_kept name (receive name p c).2 cs
  end.

Lemma keyed_snd s d u : keyed s d → (u ∈ uuid_of s <$> d.*2 ↔ u ∈ d.*1).
Proof.
  intros Hd. induction Hd as [|[k r] d Hk Hd IH]; simpl; [done|]. simpl in Hk. rewrite !elem_of_cons, IH, Hk. done.
Qed.

Lemma elem_of_uuid_filter s (p : option string → bool) (l : list aref) u :
  u ∈ uuid_of s <$> List.filter (λ r, p (uuid_of s r)) l ↔ u ∈ uuid_of s <$> l ∧ p u = true.
Proof.
  induction l as [|r l IH]; simpl; [set_solver|]. destruct (p (uuid_of s r)) eqn:Hp; simpl; rewrite ?elem_of_cons, IH.
  - naive_solver.
  - naive_solver congruence.
Qed.

(** One call: what is reported takes the old list to the new one. *)
Lemma receive_follow name p c view :
  keyed c.1 p.(last_key_value_alerts) → (∀ u, view u ↔ u ∈ p.(last_key_value_alerts).*1) →
  let '(gone, new, p') := receive name p c in
  ∀ u, (follow c.1 gone new view u ↔ u ∈ p'.(last_key_value_alerts).*1) ∧
       (u ∈ uuid_of c.1 <$> new → ¬ view u) ∧ (u ∈ uuid_of c.1 <$> gone → view u).
Proof.
  intros Hk Hv. unfold receive, receive_alerts, follow. destruct c as [s now]; simpl.
  case_bool_decide as Hkey.
  - intros u. rewrite <-Hv. simpl. split_and!; [|set_solver..]. split; [|left; split; [done|apply not_elem_of_nil]].
    intros [[]|Hn]; [done|]. by apply not_elem_of_nil in Hn.
  - intros u. simpl.
    rewrite (elem_of_uuid_filter s (λ u, negb (has_uuid (by_uuid s (alerts s)) u))).
    rewrite (elem_of_uuid_filter s (λ u, negb (has_uuid (last_key_value_alerts p) u))).
    rewrite (keyed_snd s _ u Hk), (keyed_snd s _ u (by_uuid_keyed s (alerts s))).
    rewrite !negb_true_iff, <-!not_true_iff_false, !has_uuid_spec, Hv.
    destruct (decide (u ∈ (by_uuid s (alerts s)).*1)), (decide (u ∈ (last_key_value_alerts p).*1)); tauto.
Qed.

(** The reports of a policy add up: somebody who starts with the alerts the
    policy last recorded, removes what is reported as gone and adds what is
    reported as new, always has exactly the alerts the policy last recorded; and
    when the key of the last call differs from the recorded one, as it does for
    the policy IMMEDIATELY at every new time, these are the current alerts. *)
Theorem policy_reports_add_up (name : string) (p : AlertPolicy) (cs : calls) (s : State) (now : Z)
    (Hkept : uuids_kept name p (cs ++ [(s, now)]))
    (Hkey : policy_key name now ≠ (follow_all name p (λ u, u ∈ p.(last_key_value_alerts).*1) cs).1.(last_key_value)) :
  (∀ u, (follow_all name p (λ u, u ∈ p.(last_key_value_alerts).*1) cs).2 u ↔
        u ∈ (follow_all name p (λ u, u ∈ p.(last_key_value_alerts).*1) cs).1.(last_key_value_alerts).*1) ∧
  (∀ u, (follow_all name p (λ u, u ∈ p.(last_key_value_alerts).*1) (cs ++ [(s, now)])).2 u ↔
        u ∈ uuid <$> objects s s.(alerts)).
Proof.
  assert (∀ u : option string, (λ u, u ∈ p.(last_key_value_alerts).*1) u ↔ u ∈ p.(last_key_value_alerts).*1) as Hv by done.
  revert Hv Hkept Hkey. generalize (λ u : option string, u ∈ p.(last_key_value_alerts).*1). revert p.
  induction cs as [|c cs IH]; intros p view Hv Hkept Hkey; simpl in *.
  - split; [done|]. intros u. destruct Hkept as [Hk _].
    pose proof (receive_follow name p (s, now) view Hk Hv) as Hf.
    destruct (receive name p (s, now)) as [[gone new] p'] eqn:Hr. simpl in *. rewrite (proj1 (Hf u)).
    unfold receive, receive_alerts in Hr. simpl in Hr. rewrite bool_decide_eq_false_2 in Hr by done.
    simplify_eq. simpl. apply by_uuid_keys.
  - destruct Hkept as [Hk Hkept]. pose proof (receive_follow name p c view Hk Hv) as Hf.
    destruct (receive name p c) as [[gone new] p'] eqn:Hr. simpl in *. apply IH; [|done|done].
    intros u. apply Hf.
Qed.

(** ** Identity *)

Record heap_ok (s : State) : Prop := {
  ok_nodup : NoDup s.(alerts);
  ok_alloc r : r ∈ s.(alerts) → is_Some (s.(heap) !! r);
}.

(** What an alert keeps for its life. *)
Definition core (a : Alert) : option string * option DateTime * option bool := (a.(uuid), a.(datetime), a.(dismissed)).

Notation ident := (option string * option string * AlertClass * string)%type.

Definition find_id (h : gmap aref Alert) (l : list aref) (k : ident) : option Alert :=
  List.find (λ b, bool_decide (identity b = k)) (omap (λ r, h !! r) l).

Lemma existing_find s a : existing_alert s a = find_id s.(heap) s.(alerts) (identity a).
Proof. reflexivity. Qed.

Lemma find_id_cons h x l k :
  find_id h (x :: l) k =
    match h !! x with
    | Some b => if bool_decide (identity b = k) then Some b else find_id h l k
    | None => find_id h l k
    end.
Proof. unfold find_id; simpl. by destruct (h !! x). Qed.

Lemma identity_handled utc u e a : identity (handled utc u e a) = identity a.
Proof. done. Qed.

(** Handling an alert of the list does not change what is found under any
    identity, but for the time of the last occurrence. *)
Lemma find_id_handled h l r a utc u k :
  h !! r = Some a →
  core <$> find_id (<[r := handled utc u (find_id h l (identity a)) a]> h) l k = core <$> find_id h l k.
Proof.
  intros Hr. destruct (decide (k = identity a)) as [->|Hk].
  - induction l as [|x l IH]; [done|]. rewrite !find_id_cons. destruct (decide (x = r)) as [->|Hx].
    + rewrite lookup_insert_eq, Hr. by rewrite identity_handled, bool_decide_eq_true_2.
    + rewrite lookup_insert_ne by done. destruct (h !! x) as [b|]; [|apply IH].
      case_bool_decide; [done|apply IH].
  - generalize (find_id h l (identity a)). intros e. induction l as [|x l IH]; [done|]. rewrite !find_id_cons.
    destruct (decide (x = r)) as [->|Hx].
    + rewrite lookup_insert_eq, Hr. by rewrite identity_handled, !bool_decide_eq_false_2.
    + rewrite lookup_insert_ne by done. destruct (h !! x) as [b|]; [|apply IH].
      case_bool_decide; [done|apply IH].
Qed.

(** An alert as a run leaves it: last seen now, and otherwise the known alert of
    its identity or a new one. *)
Definition settled (utc : Z) (u : string) (known : option Alert) (a : Alert) : Prop :=
  a.(last_occurrence) = Some (naive utc) ∧
  match known with
  | Some e => core a = core e
  | None => a.(uuid) = Some u ∧ a.(dismissed) = Some false ∧ ∃ t, a.(datetime) = Some t
  end.

Lemma settled_core utc u k1 k2 a : core <$> k1 = core <$> k2 → settled utc u k1 a → settled utc u k2 a.
Proof.
  unfold settled. destruct k1 as [e1|], k2 as [e2|]; simpl; intros Hc [Hl Hs]; try done.
  split; [done|]. apply (inj Some) in Hc. by rewrite Hs.
Qed.

Lemma settled_handled utc u e a : settled utc u e (handled utc u e a).
Proof. split; [done|]. destruct e; [done|]. simpl. eauto. Qed.

(** What stays of an alert through a run. *)
Definition content (a : Alert) : ident * pyval * option pyval * string := (identity a, a.(args), a.(mail), a.(text)).

Lemma handle_all_spec utc new_uuid l s :
  NoDup l → (∀ r, r ∈ l → is_Some (s.(heap) !! r)) →
  let s' := foldl (handle_alert utc new_uuid) s l in
  s'.(alerts) = s.(alerts) ∧ (∀ r, r ∉ l → s'.(heap) !! r = s.(heap) !! r) ∧
  (∀ k, core <$> find_id s'.(heap) s.(alerts) k = core <$> find_id s.(heap) s.(alerts) k) ∧
  ∀ r a, r ∈ l → s.(heap) !! r = Some a →
    ∃ a', s'.(heap) !! r = Some a' ∧ content a' = content a ∧
          settled utc (new_uuid r) (find_id s.(heap) s.(alerts) (identity a)) a'.
Proof.
  revert s. induction l as [|x l IH]; intros s Hnd Hall; simpl.
  - split_and!; [done..|]. intros r a Hr. by apply not_elem_of_nil in Hr.
  - apply NoDup_cons in Hnd as [Hx Hnd]. destruct (Hall x) as [ax Hax]; [by left|].
    set (s1 := handle_alert utc new_uuid s x).
    assert (s1.(alerts) = s.(alerts)) as Hal by (subst s1; unfold handle_alert; by rewrite Hax).
    assert (s1.(heap) = <[x := handled utc (new_uuid x) (find_id s.(heap) s.(alerts) (identity ax)) ax]> s.(heap)) as Hh.
    { subst s1. unfold handle_alert. by rewrite Hax. }
    clearbody s1. destruct (IH s1 Hnd) as (Ha1 & Ho1 & Hf1 & Hl1).
    { intros r Hr. rewrite Hh. destruct (decide (r = x)) as [->|]; [rewrite lookup_insert_eq; eauto|].
      rewrite lookup_insert_ne by done. apply Hall. by right. }
    rewrite Hal in Ha1, Hf1, Hl1.
    assert (∀ k, core <$> find_id s1.(heap) s.(alerts) k = core <$> find_id s.(heap) s.(alerts) k) as Hstep.
    { intros k. rewrite Hh. by apply find_id_handled. }
    split_and!.
    + done.
    + intros r [Hrx Hr]%not_elem_of_cons. rewrite (Ho1 r Hr), Hh. by rewrite lookup_insert_ne.
    + intros k. by rewrite Hf1, Hstep.
    + intros r a [->|Hr]%elem_of_cons Ha.
      * rewrite (Ho1 x Hx), Hh, lookup_insert_eq. rewrite Hax in Ha. injection Ha as <-.
        eexists. split_and!; [done|done|]. apply settled_handled.
      * assert (r ≠ x) as Hne by (by intros ->). destruct (Hl1 r a Hr) as (a' & Ha' & Hc & Hs).
        { by rewrite Hh, lookup_insert_ne. }
        exists a'. split_and!; [done|done|]. eapply settled_core; [apply Hstep|done].
Qed.

(** ** Collecting *)

Lemma new_objects_spec l s :
  let '(rs, s') := new_objects l s in
  s'.(alerts) = s.(alerts) ∧ s'.(blocked_sources) = s.(blocked_sources) ∧
  (∀ r, is_Some (s.(heap) !! r) → s'.(heap) !! r = s.(heap) !! r) ∧
  Forall2 (λ a r, s'.(heap) !! r = Some a) l rs ∧ NoDup rs ∧ (∀ r, r ∈ rs → s.(heap) !! r = None).
Proof.
  revert s. induction l as [|a l IH]; intros s; simpl.
  - split_and!; try done; [apply NoDup_nil_2|]. intros r Hr. by apply not_elem_of_nil in Hr.
  - set (r := fresh (dom (heap s))). assert (heap s !! r = None) as Hr by (apply not_elem_of_dom, is_fresh).
    specialize (IH (with_heap <[r := a]> s)). destruct (new_objects l _) as [rs s'] eqn:Hn; simpl in IH.
    destruct IH as (Ha & Hb & Ho & Hf & Hnd & Hfr).
    assert (r ∉ rs) as Hrs by (intros Hin%Hfr; by rewrite lookup_insert_eq in Hin).
    split_and!; try done.
    + intros r' Hs. rewrite Ho.
      * rewrite lookup_insert_ne; [done|]. intros <-. rewrite Hr in Hs. by destruct Hs.
      * rewrite lookup_insert_ne; [done|]. intros <-. rewrite Hr in Hs. by destruct Hs.
    + constructor; [|done]. rewrite Ho; rewrite lookup_insert_eq; eauto.
    + by constructor.
    + intros r' [->|Hin]%elem_of_cons; [done|]. apply Hfr in Hin. destruct (decide (r' = r)) as [->|Hne]; [done|].
      by rewrite lookup_insert_ne in Hin.
Qed.

Lemma set_nodes_spec n l s :
  NoDup l →
  let s' := set_nodes n l s in
  s'.(alerts) = s.(alerts) ∧ s'.(blocked_sources) = s.(blocked_sources) ∧
  ∀ r, s'.(heap) !! r = if decide (r ∈ l) then set_node n <$> s.(heap) !! r else s.(heap) !! r.
Proof.
  unfold set_nodes. revert s. induction l as [|x l IH]; intros s Hnd; simpl.
  - done.
  - apply NoDup_cons in Hnd as [Hx Hnd]. destruct (IH (with_heap (alter (set_node n) x) s) Hnd) as (Ha & Hb & Hh).
    split_and!; [done..|]. intros r. rewrite Hh; simpl. destruct (decide (r = x)) as [->|Hne].
    + rewrite decide_False by done. rewrite decide_True by left. by rewrite lookup_alter_eq.
    + rewrite lookup_alter_ne by done. destruct (decide (r ∈ l)) as [Hin|Hin].
      * by rewrite decide_True by (by right).
      * by rewrite decide_False by (rewrite elem_of_cons; tauto).
Qed.

(** The references of one node of a source: fresh ones, or known ones that are
    already on that node. *)
Record collected (n : string) (s : State) (rs : list aref) (s' : State) : Prop := {
  co_alerts : s'.(alerts) = s.(alerts);
  co_blocked : s'.(blocked_sources) = s.(blocked_sources);
  co_nodup : NoDup rs;
  co_kept r : is_Some (s.(heap) !! r) → s'.(heap) !! r = s.(heap) !! r;
  co_here r : r ∈ rs → ∃ a, s'.(heap) !! r = Some a ∧ a.(node) = Some n;
}.

(** Where the references come from. *)
Definition known_on (n name : string) (s : State) (r : aref) : Prop :=
  r ∈ s.(alerts) ∧ ∃ a, s.(heap) !! r = Some a ∧ a.(node) = Some n ∧ a.(source) = Some name.

Lemma alerts_of_known n name s r : r ∈ alerts_of s n name ↔ known_on n name s r.
Proof.
  unfold alerts_of, known_on. rewrite list_elem_of_In, filter_In, <-list_elem_of_In.
  destruct (heap s !! r) as [a|]; [|naive_solver]. rewrite andb_true_iff, !bool_decide_eq_true. naive_solver.
Qed.

Lemma set_node_id n a : a.(node) = Some n → set_node n a = a.
Proof. destruct a; simpl. by intros ->. Qed.

Lemma alerts_of_nodup n name s : NoDup s.(alerts) → NoDup (alerts_of s n name).
Proof. rewrite !NoDup_ListNoDup. apply List.NoDup_filter. Qed.

Lemma collect_known n name s :
  heap_ok s → collected n s (alerts_of s n name) (set_nodes n (alerts_of s n name) s).
Proof.
  intros [Hnd Hal]. apply (alerts_of_nodup n name) in Hnd as Hnd'.
  destruct (set_nodes_spec n _ s Hnd') as (Ha & Hb & Hh).
  assert (∀ r, heap (set_nodes n (alerts_of s n name) s) !! r = heap s !! r) as Hsame.
  { intros r. rewrite Hh. case_decide as Hin; [|done].
    apply alerts_of_known in Hin as (_ & a & Hr & Hn & _). rewrite Hr; simpl. by rewrite set_node_id. }
  split; try done.
  intros r (_ & a & Hr & Hn & _)%alerts_of_known. exists a. by rewrite Hsame.
Qed.

Lemma collect_fresh n l s :
  let '(rs, s1) := new_objects l s in
  collected n s rs (set_nodes n rs s1) ∧ (∀ r, r ∈ rs → s.(heap) !! r = None) ∧
  Forall2 (λ a r, (set_nodes n rs s1).(heap) !! r = Some (set_node n a)) l rs.
Proof.
  pose proof (new_objects_spec l s) as Hn. destruct (new_objects l s) as [rs s1].
  destruct Hn as (Ha & Hb & Ho & Hf & Hnd & Hfr). destruct (set_nodes_spec n rs s1 Hnd) as (Ha' & Hb' & Hh).
  assert (Forall2 (λ a r, (set_nodes n rs s1).(heap) !! r = Some (set_node n a)) l rs) as Hall.
  { apply Forall2_same_length_lookup. split; [by eapply Forall2_length|]. intros i a r Hi Hr.
    rewrite Hh, decide_True by (apply list_elem_of_lookup; eauto).
    by rewrite (Forall2_lookup_lr _ _ _ _ _ _ Hf Hi Hr). }
  split_and!; [|done|done]. split; [congruence|congruence|done| |].
  - intros r Hs. rewrite Hh, decide_False; [by apply Ho|]. intros Hin%Hfr. rewrite Hin in Hs. by destruct Hs.
  - intros r [i Hi]%list_elem_of_lookup. destruct (Forall2_lookup_r _ _ _ _ _ Hall Hi) as (a & _ & Hr).
    by exists (set_node n a).
Qed.

Lemma collected_ok n s rs s' : collected n s rs s' → heap_ok s → heap_ok s'.
Proof.
  intros [Ha _ _ Hk _] [Hnd Hal]. split; rewrite Ha; [done|]. intros r Hr. rewrite Hk; by apply Hal.
Qed.

(** The references are known ones of that node and source, or fresh. *)
Definition provenance (n name : string) (s : State) (rs : list aref) : Prop :=
  ∀ r, r ∈ rs → known_on n name s r ∨ s.(heap) !! r = None.

(** What a source tells of one node: nothing while it is blocked. *)
Definition answer_of (blocked : bool) (told : option (list Alert)) : option (list Alert) := if blocked then None else told.

(** What the other controller tells: its alerts, nothing when it cannot be asked, and
    that the check failed when it failed in another way. *)
Definition remote_answer (jd : pyval → string) (name : string) (c : RemoteResult) : option (list Alert) :=
  match c with
  | RemoteAlerts l => Some (map remote_alert l)
  | RemotePassed => None
  | RemoteRaised tb => Some [make_alert jd AlertSourceRunFailedOnBackupNode (failure_args name tb) (Some name)]
  end.

(** The references that stand for an answer: the known alerts of the node and the
    source when nothing is told, and otherwise one for each alert that is told. *)
Definition gathered (n name : string) (s s' : State) (answer : option (list Alert)) (rs : list aref) : Prop :=
  match answer with
  | None => rs = alerts_of s n name
  | Some l => Forall2 (λ a r, s'.(heap) !! r = Some (set_node n a)) l rs
  end.

Lemma gather_known n name s :
  heap_ok s → let s' := set_nodes n (alerts_of s n name) s in
  collected n s (alerts_of s n name) s' ∧ provenance n name s (alerts_of s n name) ∧ gathered n name s s' None (alerts_of s n name).
Proof. intros Hok. split_and!; [by apply collect_known| |done]. intros r Hr. left. by apply alerts_of_known. Qed.

Lemma gather_told n name l s :
  let '(rs, s1) := new_objects l s in
  collected n s rs (set_nodes n rs s1) ∧ provenance n name s rs ∧ gathered n name s (set_nodes n rs s1) (Some l) rs.
Proof.
  pose proof (collect_fresh n l s) as Hf. destruct (new_objects l s) as [rs s1]. destruct Hf as (Hc & Hfr & Hall).
  split_and!; [done| |done]. intros r Hin. right. by apply Hfr.
Qed.

Lemma collect_a_spec jd src n c s :
  heap_ok s →
  let '(rs, s') := collect_a jd src n c s in
  collected n s rs s' ∧ provenance n src.(sname) s rs ∧
  gathered n src.(sname) s s' (answer_of (is_blocked s src.(sname)) (run_source jd src.(sname) c)) rs.
Proof.
  intros Hok. unfold collect_a. destruct (is_blocked s src.(sname)); [by apply gather_known|]. cbn [answer_of].
  destruct (run_source jd src.(sname) c) as [l|]; [|by apply gather_known].
  pose proof (gather_told n src.(sname) l s) as Hf. by destruct (new_objects l s).
Qed.

Lemma collect_none n s : collected n s [] (set_nodes n [] s) ∧ set_nodes n [] s = s.
Proof.
  split; [|done]. split; try done; [apply NoDup_nil_2|]. intros r Hr. by apply not_elem_of_nil in Hr.
Qed.

Lemma collect_b_spec jd src n ob c s :
  heap_ok s →
  let '(rs, s') := collect_b jd src n ob c s in
  collected n s rs s' ∧ provenance n src.(sname) s rs ∧
  if ob && src.(run_on_backup_node)
  then gathered n src.(sname) s s' (answer_of (is_blocked s src.(sname)) (remote_answer jd src.(sname) c)) rs
  else rs = [].
Proof.
  intros Hok. unfold collect_b.
  destruct (ob && run_on_backup_node src); [|split_and!; [by apply collect_none|intros r Hr; by apply not_elem_of_nil in Hr|done]].
  destruct (is_blocked s src.(sname)); [by apply gather_known|]. cbn [answer_of].
  destruct c as [l| |tb]; cbn [remote_answer]; [|by apply gather_known|].
  - pose proof (gather_told n src.(sname) (map remote_alert l) s) as Hf. by destruct (new_objects _ s).
  - match goal with |- context [new_objects ?l s] => pose proof (gather_told n src.(sname) l s) as Hf end. by destruct (new_objects _ s).
Qed.

Lemma find_id_ext h h' l k : (∀ r, r ∈ l → h !! r = h' !! r) → find_id h l k = find_id h' l k.
Proof.
  induction l as [|x l IH]; intros Hh; [done|]. rewrite !find_id_cons, (Hh x) by left.
  rewrite IH; [done|]. intros r Hr. apply Hh. by right.
Qed.

Lemma objects_cons s x l :
  objects s (x :: l) = match s.(heap) !! x with Some a => a :: objects s l | None => objects s l end.
Proof. reflexivity. Qed.

Lemma objects_ext s s' l : (∀ r, r ∈ l → s'.(heap) !! r = s.(heap) !! r) → objects s' l = objects s l.
Proof.
  induction l as [|x l IH]; intros Hh; [done|]. rewrite !objects_cons, (Hh x) by left.
  rewrite IH; [done|]. intros r Hr. apply Hh. by right.
Qed.

Lemma filter_ext_in {A} (f g : A → bool) l : (∀ x, x ∈ l → f x = g x) → List.filter f l = List.filter g l.
Proof. intros H. apply List.filter_ext_in. intros x Hx. apply H. by apply list_elem_of_In. Qed.

Lemma collected_known n s rs s' n' name :
  collected n s rs s' → heap_ok s → ∀ r, known_on n' name s' r ↔ known_on n' name s r.
Proof.
  intros [Ha _ _ Hk _] [_ Hal] r. unfold known_on. rewrite Ha. split; intros [Hin Hr]; (split; [done|]).
  - by rewrite Hk in Hr by (by apply Hal).
  - by rewrite Hk by (by apply Hal).
Qed.

Lemma objects_content s l rs :
  Forall2 (λ a r, ∃ a', s.(heap) !! r = Some a' ∧ content a' = content a) l rs →
  map content (objects s rs) = map content l.
Proof.
  induction 1 as [|a r l rs (a' & Hr & Hc) _ IH]; [done|]. rewrite objects_cons, Hr; simpl. by rewrite Hc, IH.
Qed.

(** The references of a turn: distinct, allocated, and of this source when they
    were in the list before; the rest of the heap is untouched. *)
Lemma turn_references mn bn name s0 s1 s2 ra rb :
  mn ≠ bn → collected mn s0 ra s1 → provenance mn name s0 ra → collected bn s1 rb s2 → provenance bn name s1 rb →
  heap_ok s0 →
  NoDup (ra ++ rb) ∧ (∀ r, r ∈ ra ++ rb → is_Some (s2.(heap) !! r)) ∧ s2.(alerts) = s0.(alerts) ∧
  (∀ r, is_Some (s0.(heap) !! r) → s2.(heap) !! r = s0.(heap) !! r) ∧
  (∀ r, r ∈ ra ++ rb → r ∈ s0.(alerts) → other_source s0 name r = false).
Proof.
  intros Hne Ca Pa Cb Pb Hok. pose proof (collected_known _ _ _ _ bn name Ca Hok) as Hkn.
  destruct Ca as [Aa Ba Na Ka Ha], Cb as [Ab Bb Nb Kb Hb]. destruct Hok as [Hnd Hal]. split_and!.
  - apply NoDup_app. split_and!; [done| |done]. intros r Hr Hr'. destruct (Ha r Hr) as (a & Hra & Hn).
    destruct (Pb r Hr') as [(_ & b & Hrb & Hnb & _)|Hf]; congruence.
  - intros r [Hr|Hr]%elem_of_app.
    + destruct (Ha r Hr) as (a & Hra & _). rewrite Kb; eauto.
    + destruct (Hb r Hr) as (a & Hra & _). eauto.
  - congruence.
  - intros r Hr. assert (heap s1 !! r = heap s0 !! r) as H1 by by apply Ka. rewrite Kb; [done|]. by rewrite H1.
  - intros r Hr Hin. destruct (Hal r Hin) as [a Hra]. unfold other_source. rewrite Hra.
    assert (known_on mn name s0 r ∨ known_on bn name s0 r) as Hk.
    { apply elem_of_app in Hr as [Hr|Hr].
      - destruct (Pa r Hr) as [|Hf]; [by left|congruence].
      - destruct (Pb r Hr) as [Hk|Hf]; [right; by apply Hkn|]. rewrite Ka in Hf by eauto. congruence. }
    assert (source a = Some name) as -> by (destruct Hk as [(_ & b & Hb' & _ & ?)|(_ & b & Hb' & _ & ?)]; congruence).
    by rewrite bool_decide_eq_true_2.
Qed.

Lemma content_source a b : content a = content b → a.(source) = b.(source).
Proof. unfold content, identity. by intros [=]. Qed.

Lemma content_identity a b : content a = content b → identity a = identity b.
Proof. unfold content. intros Hc. apply (f_equal (λ x, x.1.1.1)) in Hc. exact Hc. Qed.

(** The alerts of a node after a turn: the known ones, with what they said, when
    nothing was told of it; and otherwise exactly the alerts that were told, with that
    node. *)
Definition reports (n name : string) (s s' : State) (answer : option (list Alert)) (rs : list aref) : Prop :=
  match answer with
  | None => rs = alerts_of s n name ∧ map content (objects s' rs) = map content (objects s rs)
  | Some l => map content (objects s' rs) = map content (map (set_node n) l)
  end.

Lemma alerts_of_ext s s' n name :
  s'.(alerts) = s.(alerts) → (∀ r, r ∈ s.(alerts) → s'.(heap) !! r = s.(heap) !! r) → alerts_of s' n name = alerts_of s n name.
Proof. intros Ha Hh. unfold alerts_of. rewrite Ha. apply filter_ext_in. intros r Hr. by rewrite Hh. Qed.

Lemma objects_same_content s s' rs :
  (∀ r, r ∈ rs → ∃ a a', s.(heap) !! r = Some a ∧ s'.(heap) !! r = Some a' ∧ content a' = content a) →
  map content (objects s' rs) = map content (objects s rs).
Proof.
  induction rs as [|r rs IH]; intros H; [done|]. destruct (H r) as (a & a' & Ha & Ha' & Hc); [by left|].
  rewrite !objects_cons, Ha, Ha'. cbn [map]. rewrite Hc, IH; [done|]. intros r' Hr'. apply H. by right.
Qed.

(** What was gathered is reported, when handling keeps the contents. *)
Lemma gathered_reports n name s s1 s' answer rs :
  gathered n name s s1 answer rs →
  (∀ r, r ∈ s.(alerts) → is_Some (s.(heap) !! r) ∧ s1.(heap) !! r = s.(heap) !! r) →
  (∀ r a, r ∈ rs → s1.(heap) !! r = Some a → ∃ a', s'.(heap) !! r = Some a' ∧ content a' = content a) →
  reports n name s s' answer rs.
Proof.
  intros Hg Hs Hc. destruct answer as [l|]; cbn [gathered reports] in *.
  - apply objects_content, Forall2_fmap_l, Forall2_same_length_lookup. split; [by eapply Forall2_length|].
    intros i a r Hi Hr. pose proof (Forall2_lookup_lr _ _ _ _ _ _ Hg Hi Hr) as Ha.
    destruct (Hc r (set_node n a)) as (a' & Ha' & Hca); [apply list_elem_of_lookup; eauto|done|by exists a'].
  - split; [done|]. apply objects_same_content. intros r Hr. assert (r ∈ s.(alerts)) as Hin.
    { rewrite Hg in Hr. by apply alerts_of_known in Hr as [? _]. }
    destruct (Hs r Hin) as [[a Ha] H1]. rewrite Ha in H1. destruct (Hc r a Hr H1) as (a' & Ha' & Hca). by exists a, a'.
Qed.

(** C35. Alerts keep their identity: a turn of a source, in which nothing else touches
    the list of alerts, leaves the alerts of the other sources as they are and puts in
    the place of its own, for the active node and for the backup node when that one is
    asked, exactly what the source tells now of that node (a check that failed is told
    as an alert), or, when the source is blocked or cannot tell, exactly the alerts that
    were known of that node, with what they said; a backup node that is not asked has
    none.  Every one of them was last seen now; if an alert of the same node, source,
    class and key was known, it is that alert, with its uuid, its date and whether it
    was dismissed, and otherwise it is new: a fresh uuid, not dismissed.  The list keeps
    its shape. *)
Theorem alerts_keep_identity (json_dumps : pyval → string) (utc : Z) (new_uuid : nat → string) (src : AlertSource)
    (mn bn : string) (ob : bool) (ca : CheckResult) (cb : RemoteResult) (s : State)
    (Hok : heap_ok s) (Hne : mn ≠ bn) :
  let s' := run_one json_dumps utc new_uuid src mn bn ob ca cb s in
  let kept := List.filter (other_source s src.(sname)) s.(alerts) in
  ∃ ra rb, s'.(alerts) = kept ++ ra ++ rb ∧ objects s' kept = objects s kept ∧ heap_ok s' ∧
    (∀ r, r ∈ ra ++ rb → ∃ a, s'.(heap) !! r = Some a ∧ settled utc (new_uuid r) (existing_alert s a) a) ∧
    reports mn src.(sname) s s' (answer_of (is_blocked s src.(sname)) (run_source json_dumps src.(sname) ca)) ra ∧
    (if ob && src.(run_on_backup_node)
     then reports bn src.(sname) s s' (answer_of (is_blocked s src.(sname)) (remote_answer json_dumps src.(sname) cb)) rb
     else rb = []).
Proof.
  cbv zeta. unfold run_one. set (s0 := with_last_run _ s). assert (heap_ok s0) as Hok0 by by destruct Hok.
  pose proof (collect_a_spec json_dumps src mn ca s0 Hok0) as HA.
  destruct (collect_a json_dumps src mn ca s0) as [ra s1]. destruct HA as (Ca & Pa & Fa).
  pose proof (collected_ok _ _ _ _ Ca Hok0) as Hok1.
  pose proof (collect_b_spec json_dumps src bn ob cb s1 Hok1) as HB.
  destruct (collect_b json_dumps src bn ob cb s1) as [rb s2]. destruct HB as (Cb & Pb & Fb).
  destruct (turn_references mn bn (sname src) s0 s1 s2 ra rb Hne Ca Pa Cb Pb Hok0)
    as (Hnd & Hin & Hal & Hold & Hkept).
  destruct (handle_all_spec utc new_uuid (ra ++ rb) s2 Hnd) as (Ha3 & Ho3 & _ & Hs3).
  { intros r Hr. destruct (Hin r Hr) as [a Ha]. eauto. }
  set (s3 := foldl (handle_alert utc new_uuid) s2 (ra ++ rb)) in *. clearbody s3.
  change (heap s0) with (heap s) in *. change (alerts s0) with (alerts s) in *.
  assert (∀ r, r ∈ alerts s → other_source s3 (sname src) r = other_source s (sname src) r) as Hother.
  { intros r Hr. destruct (ok_alloc s Hok r Hr) as [a Ha]. pose proof (Hold r (ex_intro _ a Ha)) as H2. rewrite Ha in H2.
    destruct (decide (r ∈ ra ++ rb)) as [Hi|Hi].
    - destruct (Hs3 r a Hi H2) as (a' & Ha' & Hc & _). unfold other_source. by rewrite Ha', Ha, (content_source _ _ Hc).
    - unfold other_source. by rewrite (Ho3 r Hi), H2, Ha. }
  assert (∀ r, r ∈ List.filter (other_source s (sname src)) (alerts s) → r ∈ alerts s ∧ r ∉ ra ++ rb) as Hk.
  { intros r Hr. rewrite list_elem_of_In, filter_In, <-list_elem_of_In in Hr. destruct Hr as [Hr Ho]. split; [done|].
    intros Hi. specialize (Hkept r Hi Hr). change (other_source s0) with (other_source s) in Hkept. congruence. }
  assert (Hkn : ∀ r, r ∈ alerts s → is_Some (heap s !! r) ∧ heap s2 !! r = heap s !! r).
  { intros r Hr. pose proof (ok_alloc s Hok r Hr) as Hi. split; [done|]. by apply Hold. }
  exists ra, rb. cbn [with_alerts alerts heap]. rewrite Ha3, Hal, (filter_ext_in _ _ _ Hother). split_and!.
  - done.
  - apply objects_ext. intros r [Hr Hi]%Hk. cbn [with_alerts heap]. rewrite (Ho3 r Hi). by apply Hold, (ok_alloc s Hok).
  - split; cbn [with_alerts alerts heap]; rewrite Ha3, Hal, (filter_ext_in _ _ _ Hother).
    + apply NoDup_app. split_and!; [|by intros r [_ Hi]%Hk|done].
      rewrite NoDup_ListNoDup. apply List.NoDup_filter, NoDup_ListNoDup, Hok.
    + intros r [Hr|Hr]%elem_of_app.
      * apply Hk in Hr as [Hr Hi]. rewrite (Ho3 r Hi), Hold; by apply (ok_alloc s Hok).
      * destruct (Hin r Hr) as [a Ha]. destruct (Hs3 r a Hr Ha) as (a' & -> & _). eauto.
  - intros r Hr. destruct (Hin r Hr) as [a Ha]. destruct (Hs3 r a Hr Ha) as (a' & Ha' & Hc & Hst).
    exists a'. split; [done|]. rewrite existing_find, (content_identity _ _ Hc).
    rewrite Hal in Hst. erewrite find_id_ext; [done|]. intros r' Hr'. symmetry. by apply Hold, (ok_alloc s Hok).
  - apply (gathered_reports mn (sname src) s s1); [exact Fa| |].
    + intros r Hr. split; [by apply (ok_alloc s Hok)|]. apply (co_kept _ _ _ _ Ca), (ok_alloc s Hok), Hr.
    + intros r a Hr Ha. destruct (Hs3 r a) as (a' & Ha' & Hc & _); [apply elem_of_app; by left| |by exists a'].
      by rewrite (co_kept _ _ _ _ Cb r) by eauto.
  - destruct (ob && run_on_backup_node src); [|done].
    assert (Hb1 : is_blocked s1 (sname src) = is_blocked s (sname src)) by (unfold is_blocked; by rewrite (co_blocked _ _ _ _ Ca)).
    rewrite Hb1 in Fb. apply (gathered_reports bn (sname src) s s2).
    + destruct (answer_of (is_blocked s _) (remote_answer _ _ _)) as [l|]; [exact Fb|]. cbn [gathered] in *. rewrite Fb. apply alerts_of_ext; [apply (co_alerts _ _ _ _ Ca)|].
      intros r Hr. apply (co_kept _ _ _ _ Ca), (ok_alloc s Hok), Hr.
    + done.
    + intros r a Hr Ha. destruct (Hs3 r a) as (a' & Ha' & Hc & _); [apply elem_of_app; by right|done|by exists a'].
Qed.

(** ** Witnesses: a dismissed alert that its source reports again *)

Definition demo_class : AlertClass := mkClass "PoolStatus" CRITICAL "Pool status" None ["CORE"] false true None false.
Definition demo_report : Alert := mkAlert None None demo_class (PStr "tank") None "tank" None None None None "Pool status".
Definition demo_known : Alert :=
  mkAlert (Some "u1") (Some "Pool") demo_class (PStr "tank") (Some "A") "tank" (Some (naive 5)) (Some (naive 5)) (Some true)
    None "Pool status".
Definition demo_source : AlertSource := mkSource "Pool" (IntervalSchedule 0) ["CORE"] false true.
Definition demo_state : State := with_alerts (λ _, [0]) (with_heap <[0 := demo_known]> empty_state).
Definition demo_dumps (v : pyval) : string := match v with PStr s => s | _ => "" end.
Definition demo_after : State :=
  run_one demo_dumps 9 (λ r, "fresh") demo_source "A" "B" false (ReturnedList [demo_report]) RemotePassed demo_state.

(** The source is blocked: its alert stays. *)
Definition demo_blocked : State := (block_source ["Pool"] 10 "lock" "Pool" 60 demo_state).2.

Lemma demo_ok s : s.(alerts) = [0] → s.(heap) = <[0 := demo_known]> ∅ → heap_ok s.
Proof. intros Ha Hh. split; rewrite Ha; [apply NoDup_singleton|]. intros r ->%list_elem_of_singleton. rewrite Hh. by exists demo_known. Qed.

Lemma alerts_keep_identity_witness :
  (∃ ra rb, demo_after.(alerts) = [] ++ ra ++ rb ∧
    (∀ r, r ∈ ra ++ rb → ∃ a, demo_after.(heap) !! r = Some a ∧ settled 9 "fresh" (existing_alert demo_state a) a)) ∧
  uuid_of demo_after 1 = Some "u1" ∧
  ∃ ra rb, (run_one demo_dumps 9 (λ r, "fresh") demo_source "A" "B" true (ReturnedList []) (RemoteAlerts []) demo_blocked).(alerts) = [] ++ ra ++ rb ∧
    ra = [0].
Proof.
  split_and!.
  - destruct (alerts_keep_identity demo_dumps 9 (λ r, "fresh") demo_source "A" "B" false (ReturnedList [demo_report])
                RemotePassed demo_state (demo_ok demo_state eq_refl eq_refl) ltac:(done)) as (ra & rb & Ha & _ & _ & Hs & _).
    exists ra, rb. split; [exact Ha|exact Hs].
  - vm_compute. reflexivity.
  - destruct (alerts_keep_identity demo_dumps 9 (λ r, "fresh") demo_source "A" "B" true (ReturnedList [])
                (RemoteAlerts []) demo_blocked (demo_ok demo_blocked eq_refl eq_refl) ltac:(done)) as (ra & rb & Ha & _ & _ & _ & Hr & _).
    exists ra, rb. split; [exact Ha|]. destruct Hr as [Hr _]. rewrite Hr. vm_compute. reflexivity.
Defined.

Lemma policy_reports_witness :
  (follow_all "IMMEDIATELY" (mkPolicy None []) (λ u, u ∈ (@nil (option string * nat)).*1) [(demo_state, 7%Z)]).2 (Some "u1") ↔
  Some "u1" ∈ uuid <$> objects demo_state demo_state.(alerts).
Proof.
  apply (policy_reports_add_up "IMMEDIATELY" (mkPolicy None []) [] demo_state 7).
  - split; [constructor|done].
  - done.
Defined.
